(* ===== verification/_CoqProject ===== *)
-Q . S2P
Prelude.v
Calls.v
I8254.v
Mc146818.v
Serial.v
Hpet.v
Sata.v
SataInit.v
Blk.v
Udp.v
Vmm.v
Console.v
ConsoleArm.v
Vnet.v
NetArm.v
Vsock.v
Ethernet.v
NetServers.v
X86Virtio.v
Assembly.v
AssemblyArm.v
Topology.v
Network.v
ArmEvents.v
ArmMem.v
ArmBoot.v
Platforms.v
ArmDevices.v
ArmVirtio.v
ArmStart.v
ArmRestart.v
CrossVm.v
X86Boot.v
Templates.v
StringReverse.v
