(* ===== verification/Prelude.v ===== *)
(** * The camkes-vm virtual machine monitor

    A verification development for the C code under src/: the virtual machine
    monitors that run a guest as a CAmkES component on seL4, on x86 and on ARM,
    with the device models they emulate, the links between guests and the
    servers the guests share.

    ** The program

    The x86 VMM (src/components/Init) emulates an interval timer (i8254.c), a
    real-time clock (mc146818rtc.c), a serial port (serial.c) and optionally an
    HPET (hpet.c).  The guest's port and MMIO accesses call their handlers; a
    time server, reached through init_timer, sends one notification for all
    of their timers, and a serial server shares a ring of received characters.
    main.c initialises the devices and dispatches the notifications: it
    completes timers, drains the ring, injects the interrupts named by the
    badge and calls the functions of configured connections.  Guests share a
    disk through the SATA server (src/components/Sataserver), reached by the
    virtio block device (virtio_blk.c), and the network through the UDP
    connectors (the seL4UDP templates of src/templates) of a component that runs
    lwIP over a driver (UDPServer, behind Firewall).  Two guests are linked
    by virtio consoles (virtio_con.c), by the virtual switch
    (virtio_net_vswitch.c), by vsock (virtio_vsock.c), and a guest to other
    components by shared dataports with events (crossvm.c).

    The ARM VMM (src/components/VM_Arm) passes interrupts and device memory
    through to its guest instead of emulating them: main.c registers handlers
    for notifications, routes interrupts and acknowledges them, maps memory,
    builds the guest's device tree (fdt_manipulation.c), loads its images, serves
    the guest and, when the guest resets, starts it again.  What is passed
    through is configured per platform (plat_include); its modules add devices,
    a virtual UART, and the virtio consoles and networks.

    An application is put together by macros (configurations of components/VM and
    of components/VM_Arm) which give every VM its component, its connections to
    the shared servers and to other VMs, and the numbers both ends use.

    ** The files

    - Prelude: C integers ([u8] to [u64], [s32]) as [Z] with the wrap-around
      written out; functional record update; the monad [M] of state and faults
      with its rules [wp] and the tactic [wp_run]; the [World] of a device
      (answers of clocks, log of calls); the parameters standing for libutils
      and libplatsupport ([Utils], with laws and a reference instance).
    - Calls: the calculus of start-up code, for long sequences of library calls:
      a call asks the library ([Answers]), is recorded ([CallLog]), and code
      that only calls, checks and stops is [straight].
    - I8254: i8254.c.  [PITCommonState] is the C struct, [pit_exec] runs any
      handler.  Invariant [pit_wf].
    - Mc146818: mc146818rtc.c.  [RTCState], [rtc_exec], invariant [rtc_wf].
    - Serial: serial.c.  [SerialState] is the C struct, [Serial] adds the
      shared ring, [serial_exec] runs any handler or the producer of the ring.
      Invariant [ser_wf], and [line_ok] relating the interrupt line to IIR.
    - Hpet: hpet.c and hpet.h.  [HPETState], invariant [hpet_wf].
    - Vmm: Init/src/main.c over the four devices ([Machine]): the start-up
      order, [handle_async_event], [init_con_irq_init], the PCI configuration
      ports.  Each device's theorem is lifted to the machine by a frame
      calculus ([only]) that bounds the calls a routine makes.
    - Sata: sataserver.c and its template.  [sataserver] is the file's
      globals; [configured k] is the abstract virtual disk of client [k].
      SataInit: the server's start before that, with the list of PCI devices it
      reads by strtok and sscanf, in the memory the copy lies in.
    - Udp: the four UDP templates.  The server's message pool is a store of
      messages linked by [m_next]; [chain] relates a list of it to a queue.
    - Blk: virtio_blk.c of Init over the handlers of Sata.
    - Console: virtio_con.c of Init.  A shared page is a store entry, each
      access to it a definition of which the functions are composed; [link_step]
      interleaves the accesses of the two ends of a link ([link_step_next],
      [forward_accesses], [serve_accesses]) and [link_inv] is its invariant.  ConsoleArm: the set-up of the ARM VMM's
      virtio_con.c over the same functions.
    - Vnet: virtio_net_vswitch.c of Init, against class [VirtQueue] (a
      virtqueue holds frames and buffers) and class [Vswitch] (the table of
      addresses).  Vsock: virtio_vsock.c, which shares its loops.
    - Ethernet: virtio_net.c of Init, one dataport shared with a driver.
    - NetArm: libvirtio's virtio_net.c and the two ARM back ends
      virtio_net_virtqueue.c and virtio_net_arping.c.
    - X86Virtio: make_virtio_* of the five x86 virtio files: what each gives to
      the emulation layer, its interrupt, the nodes of the switch, the waiting
      for the driver and the disk server, the connections of console and vsock.
    - NetServers: udpserver.c, firewall.c and echo.c, in Modules.  Echo is
      composed with the connectors of Udp.
    - Assembly: the macros of configurations/vm.h and sata.h, as functions that
      make the interfaces, instances, connections and settings of an assembly;
      AssemblyArm: those of VM_Arm.  Topology: configurations/connections.h, which
      turns a topology into the queues of each VM and the table of its switch.
    - Network: VMMs configured by Topology, each running the code of X86Virtio
      and Vnet over the queues they share; [reachable] interleaves them.
    - ArmEvents, ArmMem, ArmBoot: VM_Arm/src/main.c by concern: events and
      interrupts; memory and capabilities, where the state accounts for what
      the allocators have handed out; device tree (with fdt_manipulation.c) and
      images, where the calls to libfdt and the loaders are a log.
    - Platforms: plat_include/*/plat/vmlinux.h, the tables of the nine
      platforms, as data that the functions of ArmBoot and ArmEvents consume.
    - ArmDevices: the modules that install devices (vuart_init.c, init_ram.c,
      map_frame_hack.c, those of plat/tk1 and plat/exynos5410) and the handler of
      the guest's SMC calls; Vuart has the ring shared with the serial server.
      ArmVirtio: the creation of libvirtio's devices and the modules that connect
      them.
    - ArmStart: run and main_continued, over [Calls] and the files above.
      ArmRestart: reset_resources and the restart of the guest.
    - CrossVm: crossvm.c of both VMMs.
    - X86Boot: pre_init and main_continued of Init/src/main.c and the templates
      of their tables, over the machine of Vmm; the calls to libraries are a
      log, and [logs] and [ensures] are calculi for it.
    - Templates: the tables the CAmkES templates make from the configuration,
      and the switches that look them up, in a Module per template; X86Boot,
      ArmEvents, ArmMem and ArmBoot hold for any tables.
    - StringReverse: the server of the cross-VM example.

    A C function keeps its name.  Where one C function is translated in pieces
    (the arms of a switch, the body of a loop) the pieces are definitions of
    their own that the function's definition composes.

    ** What the theorems show

    - Safety ([pit_safe], [rtc_safe], [serial_safe], [hpet_mmio_safe], and
      [vmm_safe] for their composition): from power-on no sequence of guest accesses, timer
      completions and characters makes a handler fail an assertion, divide by
      zero, leave an array or loop forever; the exceptions are theorems too (the
      wide access to the clock's ports that stops the VMM, in [vmm_safe];
      [hpet_32bit_hang]; the fourth timer in [hpet_mmio_safe]).  Between two
      transmit timers at most sixteen characters are sent ([serial_safe]).
    - Timing: the interval timer's next transition is exact but for the rate
      generator and a square wave of count 1 ([pit_next_tick_exact]), and its chain of callbacks does not stop; the
      clock's conversions are exact ([muldiv64_exact]), its periodic interrupt
      does not drift, its second is the successor on a calendar written down on
      its own ([rtc_next_second_correct]); the HPET's
      periodic timer catches up.
    - Data: the serial port neither loses, duplicates nor reorders characters
      ([serial_rx_in_order], [serial_tx_conserves], [recv_fifo_refines]); no
      interrupt condition goes unreported ([serial_irq_prompt]).
    - Composition: a notification reaches exactly the devices, interrupts and
      functions it is for, each device's handler running exactly if one of its
      timers is reported ([vmm_event_dispatch]).
    - Servers: the disk is partitioned among the clients without overlap
      ([sata_isolation]) and each sees the virtual disk configured for it
      ([sata_requests_translated]), any configuration being judged as
      [verdict] says ([sata_config_checked]); its start claims the listed devices
      ([sata_start]), but [sata_list_overread] shows the list unterminated; the UDP receiver is a bounded queue per
      client ([udp_queue_refines]) that loses no wake-up, up to the first datagram
      longer than the shared buffer, which [spec_run] stops at; the block device
      moves exactly the requested bytes between the guest and the disk
      ([blk_integrity]); the UDP server sends a frame once the driver accepts it
      ([udp_server_tx]), and the echo component returns each datagram of its
      queue ([echo_returns]), up to the first of a page or more.
    - Links between guests: whatever the interleaving of writer and reader, a
      console is a FIFO ([console_link_fifo]), a line written is signalled
      ([console_no_lost_line]) and a line sent arrives ([console_roundtrip]);
      the switch sends a frame where its address says and nowhere else
      ([vswitch_forwards]) and delivers in order ([vswitch_rx_in_order]); vsock
      sends to the addressed guest alone ([vsock_send]); the Ethernet device
      drains its driver ([eth_notify_drains]); the ARM back end serves every
      node unless a frame is too long ([arm_net_notify]), and ARP requests are answered
      ([arp_answered]).  The lemmas on oversized frames ([arm_net_overflow],
      [vsock_overflow], [eth_tx_concatenates]) show where the code does not
      check a length.
    - The network of guests, as a whole: from start-up on, in every
      interleaving, a guest is given from each neighbour what that neighbour's
      guest sent to it, in order ([network_delivers]), and a frame that waits is
      delivered by the next notification served ([network_no_frame_waits]).
    - The assembly: the macros connect what each VM needs, once and without
      clashes of names ([x86_assembly_connected], [arm_assembly_connected]); a
      connection of the topology has its two queues in the memory of one
      channel, with the addresses and numbers both ends expect
      ([topology_wired]), as long as VM numbers have one digit ([keys_differ]:
      the names are digits put together, [keys_clash]).  The badges of the
      endpoints are told apart by the VMM's tests and inject no interrupt
      ([endpoint_badges_inject_nothing], [endpoint_badge_base]), and the timers
      a VM gets are those its devices use ([timers_fit]).
    - Set-up of the x86 devices: an interrupt raised for a device is injected as
      the one it was registered with ([x86_virtio_interrupts]); the switch has
      the configured nodes, and a frame for one goes to the queue configured for
      it ([x86_vswitch_configured]).
    - Configuration: every page of device memory and every port configured is
      found by the x86 VMM, and every interrupt of the device tree by the ARM one
      ([x86_frames_from_config], [x86_ports_from_config], [irqs_have_caps]);
      [pages_cut] shows registers that no memory is allocated for.
    - The x86 VMM's start: with a good configuration and libraries that work
      the guest is started by exactly the calls of [booted], and the devices
      are then in the states [vmm_safe] needs ([x86_boot]); in any case the
      processor is started only after everything checked has succeeded
      ([x86_boot_checked]); a hardware interrupt is injected as the guest
      interrupt configured for it ([x86_irqs_delivered]).
    - The ARM VMM, running: an event reaches the handlers registered for its
      badge ([arm_event_dispatch]); an interrupt reaches the one virtual
      interrupt it was routed to and, with the default handler, is acknowledged
      once, when the guest ends it ([arm_irq_routing], [arm_irq_acknowledged]);
      mapping device memory either covers the region, or gives back all it took,
      or stops for one of the reasons of [map_fault] ([arm_map_paddr]), and memory is installed on a fault where the guest
      asked ([arm_on_demand]).
    - The ARM VMM, starting: libraries that work make run perform exactly the
      calls of the specification ([arm_start]); the calls of any start that
      reaches the boot processor, and its table of handlers, lost allocations
      included, are known ([arm_start_checked], [enrol_modules]); the loop then
      serves every event, or stops at the first one that needs a lost table
      ([arm_serves]).  Any boot, whatever fails, is the run of [boot_plan] up to
      the first step that fails ([arm_boot_images]).  A restart zeroes all of
      .bss but what is kept, and the static variables read from that memory
      ([statics_in]) are those of a first start ([arm_restart]).  The
      connections of the networks are those configured ([arm_net_connected]), a
      table of cross-VM connections is complete exactly if the null entries are
      at the end of its section ([arm_crossvm_table]), and the virtual UART is a
      FIFO for any serial server that keeps [SerialServerLaws] ([vuart_fifo]).
    - The platforms' tables: the guest's device tree keeps the interrupt
      controller and asks for contradictory things only where stated
      ([arm_platform_nodes], [platform_conflicts]); each interrupt is routed
      once ([arm_platform_irqs]).

    ** Parameters, bounds and fuel

    Code outside the repository is a parameter: clocks are arbitrary streams,
    drivers and lwIP are functions of class fields, libutils macros are class
    [Utils] with laws ([UtilsLaws]), the width of the fields of libplatsupport's
    date is class [RtcTimeDate].  [seL4_Word] is 64 bits, in ArmMem of any width
    ([WORD_BITS]: some of the platforms are 32-bit ones).  The allocators may
    fail: malloc and calloc, each by the number of the call.  Where two
    programs share memory it is sequentially consistent.  The receive loop of
    serial.c takes 17 steps of fuel ([RECEIVE_FUEL]): it stops when the port is
    full and the FIFO holds 16 characters, so it never runs out, which
    [serial_safe] proves.  The catch-up loop of hpet.c takes its fuel as an
    argument: [hpet_periodic_catches_up] gives the number of steps that is
    enough, [hpet_32bit_hang] the case where none is.  The loops over a
    virtqueue or a driver take one step per frame or buffer waiting, which
    their theorems show to be enough.  The set-up of the x86 virtio devices waits
    for the driver and the disk server with the fuel they are assumed to need
    ([ends]).  A step of Network is one transmission of
    a guest or one notification served by a VMM with fuel enough for what waits
    there ([serves_with]), and such fuel exists in every state
    ([enough_fuel]).  The number of processors is printed with at
    most 10 digits ([print_digits]), which holds any 32-bit value.  Calls whose
    result may differ from one call to the next (allocators, kernel, drivers)
    take the number of the call as an argument, or the calls made before.
    Guest RAM takes one step per 512 MiB chunk ([ram_fuel]).  Logging at the
    fatal level ends the VMM like a failed assertion; where the code goes on
    after it, ArmMem has both cases.

    ** Not modelled

    Inside lwIP, the drivers, the emulation layer, libsel4vm, CAmkES and the
    kernel nothing is modelled: they are parameters.  Of setjmp and longjmp only
    what ArmRestart needs is: the calls repeated after the jump, with the state
    they find.  Code excluded by #if 0 or by debugging options, the weak stubs
    of the connectors, and the numbers of the SMC calls
    (plat_include/zynqmp/plat/smc.h), which no code uses, are left out. *)

From Stdlib Require Export ZArith Lia Bool List.
From stdpp Require Export base tactics list option numbers.

#[export] Set Default Proof Using "Type".
#[global] Open Scope Z_scope.

(** * Machine integers

    An unsigned w-bit C integer is a [Z] in [[0, 2^w)]; the conversions the C
    code performs on assignment and in mixed arithmetic are written out with
    the functions below. *)

Definition wrap (w z : Z) : Z := z mod 2 ^ w.
Definition u8 (z : Z) : Z := wrap 8 z.
Definition u16 (z : Z) : Z := wrap 16 z.
Definition u32 (z : Z) : Z := wrap 32 z.
Definition u64 (z : Z) : Z := wrap 64 z.

(** Two's complement reinterpretation of the low [w] bits. *)
Definition signed (w z : Z) : Z :=
  if wrap w z <? 2 ^ (w - 1) then wrap w z else wrap w z - 2 ^ w.
Definition s32 (z : Z) : Z := signed 32 z.
Definition s64 (z : Z) : Z := signed 64 z.

(** [inw w z]: [z] is a value of the unsigned [w]-bit type. *)
Definition inw (w z : Z) : Prop := 0 <= z < 2 ^ w.

Declare Scope c_scope.
Delimit Scope c_scope with c.
Notation "x .& y" := (Z.land x y) (at level 40, left associativity) : c_scope.
Notation "x .^ y" := (Z.lxor x y) (at level 45, left associativity) : c_scope.
Notation "x .| y" := (Z.lor x y) (at level 50, left associativity) : c_scope.
Notation "x .<< y" := (Z.shiftl x y) (at level 38, left associativity) : c_scope.
Notation "x .>> y" := (Z.shiftr x y) (at level 38, left associativity) : c_scope.
Notation ".~ x" := (Z.lnot x) (at level 30, right associativity) : c_scope.
#[global] Open Scope c_scope.

(** C truth of [a & m]. *)
Definition tst (a m : Z) : bool := negb (Z.land a m =? 0).
(** C truth value of a boolean, and of an integer. *)
Definition b2z (b : bool) : Z := if b then 1 else 0.
Definition z2b (z : Z) : bool := negb (z =? 0).
(** A [switch] arm with several labels. *)
Definition one_of (x : Z) (l : list Z) : bool := existsb (Z.eqb x) l.

(** Array access with an index the code keeps in range; [arr] has a default
    only to be total, and every use is covered by an in-range lemma. *)
Definition arr (l : list Z) (i : Z) : Z := nth (Z.to_nat i) l 0.
Definition arr_set (l : list Z) (i v : Z) : list Z := <[Z.to_nat i := v]> l.


(** * Functional record update: [r <| f := v |>] *)

(** [Eta R] names the eta-expansion of a record; [Update f] derives from it
    the function that changes field [f] only. *)
Class Eta (R : Type) := eta : R -> R.
Class Update {R T : Type} (f : R -> T) := update : (T -> T) -> R -> R.
#[global] Hint Mode Update - - ! : typeclass_instances.

Ltac derive_update :=
  lazymatch goal with
  | |- @Update ?R ?T ?f =>
      let inst := constr:(_ : Eta R) in
      let e := eval hnf in (@eta R inst) in
      lazymatch eval pattern f in e with
      | ?body _ =>
          let r := eval cbv beta in (fun (g : T -> T) => body (fun x => g (f x))) in
          exact r
      end
  end.
#[global] Hint Extern 1 (Update _) => derive_update : typeclass_instances.

Notation "r <| f := v |>" := (@update _ _ f _ (fun _ => v) r)
  (at level 1, f at level 10, left associativity).

(** * Results of code that can go wrong

    The faults are the undefined behaviours and failed assertions of the C
    code that a theorem has to exclude. *)

Inductive fault :=
| AssertFailed
| DivByZero
| OutOfBounds
| SignedOverflow
| NullDeref
| Uninitialised                  (* an indeterminate value is used *)
| BadFree                        (* something not allocated is freed *)
| OutOfFuel.

Inductive outcome (A : Type) : Type :=
| Ok (a : A)
| Fault (f : fault).
Arguments Ok {A} a.
Arguments Fault {A} f.

#[export] Instance outcome_ret : MRet outcome := fun A a => Ok a.
#[export] Instance outcome_bind : MBind outcome :=
  fun A B k m => match m with Ok a => k a | Fault f => Fault f end.

#[export] Instance fault_eq_dec : EqDecision fault.
Proof. solve_decision. Defined.

(** Unsigned remainder and division: the C operators trap on zero. *)
Definition umod (a b : Z) : outcome Z :=
  if b =? 0 then Fault DivByZero else Ok (a mod b).
Definition udiv (a b : Z) : outcome Z :=
  if b =? 0 then Fault DivByZero else Ok (a / b).

(** Array accesses whose index the code does not check. *)
Definition idx {A} (l : list A) (i : Z) : outcome A :=
  if i <? 0 then Fault OutOfBounds
  else match l !! Z.to_nat i with Some a => Ok a | None => Fault OutOfBounds end.
Definition idx_set {A} (l : list A) (i : Z) (a : A) : outcome (list A) :=
  if (0 <=? i) && (i <? Z.of_nat (length l)) then Ok (<[Z.to_nat i := a]> l)
  else Fault OutOfBounds.

(** * State and error monad *)

(** A stateful C routine over a state [S]: it returns a value and the new
    state, or stops at a fault. *)
Definition M (S A : Type) : Type := S -> outcome (A * S).

#[export] Instance M_ret S : MRet (M S) := fun A a s => Ok (a, s).
#[export] Instance M_bind S : MBind (M S) :=
  fun A B k m s => match m s with
                   | Ok (a, s') => k a s'
                   | Fault f => Fault f
                   end.

Definition lift {S A} (o : outcome A) : M S A :=
  fun s => match o with Ok a => Ok (a, s) | Fault f => Fault f end.
Definition fail {S A} (f : fault) : M S A := fun _ => Fault f.
Definition get {S} : M S S := fun s => Ok (s, s).
Definition put {S} (s : S) : M S unit := fun _ => Ok (tt, s).
Definition modify {S} (f : S -> S) : M S unit := fun s => Ok (tt, f s).
Definition when {S} (b : bool) (m : M S unit) : M S unit :=
  if b then m else mret tt.
(** [assert(b)]. *)
Definition assertC {S} (b : bool) : M S unit :=
  if b then mret tt else fail AssertFailed.

(** [for (x in l) body(x)]. *)
Fixpoint for_each {S X} (l : list X) (body : X -> M S unit) : M S unit :=
  match l with
  | [] => mret tt
  | x :: l' => body x;; for_each l' body
  end.

(** A loop left early by [return] or [goto]: [true] when it was. *)
Fixpoint for_until {S X} (l : list X) (body : X -> M S bool) : M S bool :=
  match l with
  | [] => mret false
  | x :: l' => out ← body x; if out : bool then mret true else for_until l' body
  end.

(** A routine on a component of the state, reached through a partial getter:
    a dangling index is an out-of-bounds access. *)
Definition zoom {S T A} (getter : S -> option T) (setter : T -> S -> S)
    (m : M T A) : M S A :=
  fun s => match getter s with
           | None => Fault OutOfBounds
           | Some t => match m t with
                       | Ok (a, t') => Ok (a, setter t' s)
                       | Fault f => Fault f
                       end
           end.

(** Weakest precondition: [m] runs from [s] without a fault and ends in a
    state and with a value satisfying [Q]. *)
Definition wp {S A} (m : M S A) (Q : A -> S -> Prop) (s : S) : Prop :=
  match m s with Ok (a, s') => Q a s' | Fault _ => False end.

(** The state a routine ends in, for evaluating the model. *)
Definition final {S A} (m : M S A) (s : S) : S :=
  match m s with Ok (_, s') => s' | Fault _ => s end.

(** * The world of the device models of the x86 VMM

    Everything an emulated device asks of the outside: the time-stamp counter
    (libplatsupport's [rdtsc_pure]), the time server's clock
    ([init_timer_time], [init_timer_tsc_frequency]), the host RTC
    ([system_rtc_time_date]), as streams of answers; and the calls it makes,
    logged in order. *)

Inductive event :=
| SetIrqLevel (irq level : Z)
| InjectIrq (irq : Z)
| TimerOneshotAbs (tid ns : Z)
| TimerOneshotRel (tid ns : Z)
| TimerStop (tid : Z)
| PutChar (c : Z)
| DeviceNotify (func : Z).

#[export] Instance event_eq_dec : EqDecision event.
Proof. solve_decision. Defined.

(** libplatsupport's [rtc_time_date_t], as far as the code uses it. *)
Record rtc_time_date := mkRtcTimeDate {
  second : Z; minute : Z; hour : Z; day : Z; month : Z; year : Z }.
#[export] Instance eta_rtc_time_date : Eta rtc_time_date :=
  fun t => mkRtcTimeDate (second t) (minute t) (hour t) (day t) (month t) (year t).

Record World := mkWorld {
  w_tsc : nat -> Z;              (* the n-th answer of rdtsc_pure() *)
  w_tsc_n : nat;
  w_time : nat -> Z;             (* the n-th answer of init_timer_time() *)
  w_time_n : nat;
  w_tsc_freq : Z;                (* init_timer_tsc_frequency() *)
  w_host_rtc : rtc_time_date;    (* system_rtc_time_date() *)
  w_log : list event }.
#[export] Instance eta_World : Eta World :=
  fun w => mkWorld (w_tsc w) (w_tsc_n w) (w_time w) (w_time_n w)
                   (w_tsc_freq w) (w_host_rtc w) (w_log w).

(** A device routine: it runs on the device's own state and the world. *)
Definition Dev (D A : Type) : Type := M (D * World) A.

Definition getd {D} : Dev D D := fun s => Ok (fst s, s).
Definition modd {D} (f : D -> D) : Dev D unit := fun s => Ok (tt, (f (fst s), snd s)).
(** The world after the calls [es]. *)
Definition logged (es : list event) (w : World) : World :=
  w <| w_log := w_log w ++ es |>.
Definition emit {D} (e : event) : Dev D unit :=
  fun s => Ok (tt, (fst s, logged [e] (snd s))).
Definition rdtsc_pure {D} : Dev D Z :=
  fun s => Ok (u64 (w_tsc (snd s) (w_tsc_n (snd s))),
               (fst s, (snd s) <| w_tsc_n := S (w_tsc_n (snd s)) |>)).
Definition init_timer_time {D} : Dev D Z :=
  fun s => Ok (u64 (w_time (snd s) (w_time_n (snd s))),
               (fst s, (snd s) <| w_time_n := S (w_time_n (snd s)) |>)).
Definition init_timer_tsc_frequency {D} : Dev D Z :=
  fun s => Ok (u64 (w_tsc_freq (snd s)), s).
Definition system_rtc_time_date {D} : Dev D rtc_time_date :=
  fun s => Ok (w_host_rtc (snd s), s).

(** The device inside a larger machine: [zoom] that shares the world. *)
Definition on_dev {D E A} (getter : D -> option E) (setter : E -> D -> D)
    (m : Dev E A) : Dev D A :=
  fun s => match getter (fst s) with
           | None => Fault OutOfBounds
           | Some e => match m (e, snd s) with
                       | Ok (a, (e', w')) => Ok (a, (setter e' (fst s), w'))
                       | Fault f => Fault f
                       end
           end.

(** ioport_fault_result_t of libsel4vm. *)
Inductive ioport_fault_result :=
| IO_FAULT_HANDLED
| IO_FAULT_UNHANDLED
| IO_FAULT_ERROR.

(** * The C utility library

    [muldivu64] (libplatsupport) and the macros of libutils are not part of
    the repository: the model is parameterised by them, and [UtilsLaws]
    states their documented behaviour. *)
Class Utils := {
  muldivu64 : Z -> Z -> Z -> Z;
  ROUND_DOWN : Z -> Z -> Z;
  BIT : Z -> Z;
  MIN : Z -> Z -> Z }.

Class UtilsLaws (U : Utils) : Prop := {
  muldivu64_spec a b c :
    inw 64 a -> inw 64 b -> 0 < c < 2 ^ 64 -> a * b / c < 2 ^ 64 ->
    muldivu64 a b c = a * b / c;
  ROUND_DOWN_spec n b : 0 <= n -> 0 < b -> ROUND_DOWN n b = n - n mod b;
  BIT_spec n : 0 <= n < 32 -> BIT n = 2 ^ n;
  MIN_spec a b : MIN a b = Z.min a b }.

(** A reference implementation, for evaluating the model. *)
Definition utils_ref : Utils := {|
  muldivu64 a b c := u64 (a * b / c);
  ROUND_DOWN n b := n - n mod b;
  BIT n := 2 ^ n;
  MIN := Z.min |}.

#[export] Instance utils_ref_laws : UtilsLaws utils_ref.
Proof.
  split; simpl; try done. intros a b c [Ha _] [Hb _] Hc Hq. apply Z.mod_small.
  split; [|done]. apply Z.div_pos; nia.
Qed.

(** A concrete world, for evaluating the model: a 1 GHz counter that advances
    by a microsecond at every reading. *)
Definition world0 : World := mkWorld
  (fun n => 1000 * Z.of_nat n) 0 (fun n => 1000 * Z.of_nat n) 0 1000000000
  (mkRtcTimeDate 30 15 12 17 6 2019) [].

Definition NS_IN_S : Z := 1000000000.
Definition NS_IN_MS : Z := 1000000.

Section TimeSource.
Context {U : Utils}.

(** The static [current_time_ns] that i8254.c, serial.c and hpet.c each
    define over their own [tsc_frequency]. *)
Definition current_time_ns {D} (tsc_frequency : Z) : Dev D Z :=
  tsc ← rdtsc_pure;
  mret (u64 (muldivu64 tsc NS_IN_S tsc_frequency)).

End TimeSource.

(** * Lemmas on machine integers *)

Create HintDb width discriminated.

Lemma pow2_pos w : 0 <= w -> 0 < 2 ^ w.
Proof. intros. apply Z.pow_pos_nonneg; lia. Qed.

Lemma wrap_range w z : 0 <= w -> inw w (wrap w z).
Proof. intros. apply Z.mod_pos_bound, pow2_pos; lia. Qed.

Lemma wrap_small w z : inw w z -> wrap w z = z.
Proof. apply Z.mod_small. Qed.

Lemma wrap_wrap w z : 0 <= w -> wrap w (wrap w z) = wrap w z.
Proof. intros. apply wrap_small, wrap_range; lia. Qed.

Lemma inw_testbit w a :
  0 <= w -> inw w a <-> 0 <= a /\ forall i, w <= i -> Z.testbit a i = false.
Proof.
  intros Hw. unfold inw. split.
  - intros [H0 H1]. split; [lia|]. intros i Hi.
    rewrite <-(Z.mod_small a (2 ^ w)) by lia. apply Z.mod_pow2_bits_high; lia.
  - intros [H0 Hb]. split; [lia|].
    destruct (Z.eq_dec a 0) as [->|Hz]; [apply pow2_pos; lia|].
    apply Z.log2_lt_pow2; [lia|].
    destruct (Z.lt_ge_cases (Z.log2 a) w) as [?|Hge]; [done|].
    pose proof (Z.bit_log2 a ltac:(lia)) as Ht. by rewrite Hb in Ht.
Qed.

Lemma inw_land_l w a b : 0 <= w -> inw w a -> inw w (Z.land a b).
Proof.
  intros Hw. rewrite !inw_testbit by done. intros [H0 Hb]. split.
  - apply Z.land_nonneg; lia.
  - intros i Hi. by rewrite Z.land_spec, Hb.
Qed.

Lemma inw_land_r w a b : 0 <= w -> inw w b -> inw w (Z.land a b).
Proof. rewrite Z.land_comm. apply inw_land_l. Qed.

Lemma inw_lor w a b : 0 <= w -> inw w a -> inw w b -> inw w (Z.lor a b).
Proof.
  intros Hw. rewrite !inw_testbit by done. intros [? Ha] [? Hb]. split.
  - apply Z.lor_nonneg; lia.
  - intros i Hi. by rewrite Z.lor_spec, Ha, Hb.
Qed.

Lemma inw_lxor w a b : 0 <= w -> inw w a -> inw w b -> inw w (Z.lxor a b).
Proof.
  intros Hw. rewrite !inw_testbit by done. intros [? Ha] [? Hb]. split.
  - apply Z.lxor_nonneg; lia.
  - intros i Hi. by rewrite Z.lxor_spec, Ha, Hb.
Qed.

Lemma inw_shiftr w a n : 0 <= w -> 0 <= n -> inw w a -> inw w (Z.shiftr a n).
Proof.
  intros Hw Hn. rewrite !inw_testbit by done. intros [? Ha]. split.
  - apply Z.shiftr_nonneg; lia.
  - intros i Hi. rewrite Z.shiftr_spec by lia. apply Ha; lia.
Qed.

Lemma inw_u8 z : inw 8 (u8 z). Proof. by apply wrap_range. Qed.
Lemma inw_u16 z : inw 16 (u16 z). Proof. by apply wrap_range. Qed.
Lemma inw_u32 z : inw 32 (u32 z). Proof. by apply wrap_range. Qed.
Lemma inw_u64 z : inw 64 (u64 z). Proof. by apply wrap_range. Qed.

Lemma inw_b2z w b : 0 < w -> inw w (b2z b).
Proof. intros. pose proof (Z.pow_gt_1 2 w). unfold inw. destruct b; simpl; lia. Qed.

Lemma inw_weaken v w a : v <= w -> inw v a -> inw w a.
Proof.
  unfold inw. intros Hvw [H0 H1].
  pose proof (Z.pow_le_mono_r 2 v w ltac:(lia) Hvw). lia.
Qed.

Lemma u64_small z : inw 64 z -> u64 z = z. Proof. apply wrap_small. Qed.
Lemma u32_small z : inw 32 z -> u32 z = z. Proof. apply wrap_small. Qed.
Lemma u16_small z : inw 16 z -> u16 z = z. Proof. apply wrap_small. Qed.
Lemma u8_small z : inw 8 z -> u8 z = z. Proof. apply wrap_small. Qed.

Lemma signed_small w z : 0 < w -> - 2 ^ (w - 1) <= z < 2 ^ (w - 1) -> signed w z = z.
Proof.
  intros Hw Hz. unfold signed, wrap.
  assert (2 ^ w = 2 * 2 ^ (w - 1)) as E.
  { rewrite <-Z.pow_succ_r by lia. f_equal; lia. }
  destruct (Z.lt_ge_cases z 0).
  - replace (z mod 2 ^ w) with (z + 2 ^ w).
    + destruct (Z.ltb_spec (z + 2 ^ w) (2 ^ (w - 1))); lia.
    + apply (Z.mod_unique_pos _ _ (-1)); lia.
  - rewrite Z.mod_small by lia.
    destruct (Z.ltb_spec z (2 ^ (w - 1))); lia.
Qed.

Lemma signed_range w z : 0 < w -> - 2 ^ (w - 1) <= signed w z < 2 ^ (w - 1).
Proof.
  intros Hw. unfold signed. pose proof (wrap_range w z ltac:(lia)) as Hr.
  unfold inw in Hr.
  assert (2 ^ w = 2 * 2 ^ (w - 1)) as E.
  { rewrite <-Z.pow_succ_r by lia. f_equal; lia. }
  destruct (Z.ltb_spec (wrap w z) (2 ^ (w - 1))); lia.
Qed.

Lemma s32_small z : - 2 ^ 31 <= z < 2 ^ 31 -> s32 z = z.
Proof. intros. apply signed_small; lia. Qed.
Lemma s64_small z : - 2 ^ 63 <= z < 2 ^ 63 -> s64 z = z.
Proof. intros. apply signed_small; lia. Qed.

(** [u64] of a reinterpreted value is the value itself, and conversely. *)
Lemma wrap_signed w z : 0 < w -> wrap w (signed w z) = wrap w z.
Proof.
  intros Hw. unfold signed. pose proof (wrap_range w z ltac:(lia)).
  destruct (_ <? _).
  - by apply wrap_wrap; lia.
  - unfold wrap. rewrite <-(Z.mod_add _ 1) by (pose proof (pow2_pos w); lia).
    replace (z mod 2 ^ w - 2 ^ w + 1 * 2 ^ w) with (z mod 2 ^ w) by lia.
    apply Z.mod_mod. pose proof (pow2_pos w); lia.
Qed.

Lemma u64_s64 z : u64 (s64 z) = u64 z. Proof. by apply wrap_signed. Qed.
Lemma u32_s32 z : u32 (s32 z) = u32 z. Proof. by apply wrap_signed. Qed.

#[export] Hint Resolve inw_u8 inw_u16 inw_u32 inw_u64 : width.
#[export] Hint Resolve inw_land_l | 2 : width.
#[export] Hint Resolve inw_land_r | 3 : width.
#[export] Hint Resolve inw_lor inw_lxor inw_shiftr inw_b2z | 1 : width.
#[export] Hint Extern 0 (inw _ (Zpos _)) => (split; reflexivity || discriminate) : width.
#[export] Hint Extern 0 (inw _ Z0) => (split; reflexivity || discriminate) : width.
#[export] Hint Extern 0 (0 <= Z0) => lia : width.
#[export] Hint Extern 0 (0 <= Zpos _) => lia : width.
#[export] Hint Extern 0 (0 < Zpos _) => lia : width.

(** Solves [inw w e] for [e] built by the register operations. *)
Ltac width := solve [eauto 8 with width].

(** * Exhaustive checking over small ranges

    A boolean property of register values is decided by evaluation. *)

Definition zrange (n : nat) : list Z := map Z.of_nat (seq 0 n).

Lemma zrange_forall (n : nat) (p : Z -> bool) :
  forallb p (zrange n) = true -> forall x, 0 <= x < Z.of_nat n -> p x = true.
Proof.
  intros H x Hx. rewrite forallb_forall in H. apply H.
  apply in_map_iff. exists (Z.to_nat x). split; [lia|]. apply in_seq. lia.
Qed.

Lemma byte_forall (p : Z -> bool) :
  forallb p (zrange 256) = true -> forall x, inw 8 x -> p x = true.
Proof. intros H x Hx. eapply zrange_forall; [done|]. exact Hx. Qed.

Lemma length_zrange n : length (zrange n) = n.
Proof. unfold zrange. by rewrite length_map, length_seq. Qed.

Lemma in_zrange n i : In i (zrange n) -> 0 <= i < Z.of_nat n.
Proof. unfold zrange. rewrite in_map_iff. intros (k & <- & Hk%in_seq). lia. Qed.

Lemma zrange_S n : zrange (S n) = zrange n ++ [Z.of_nat n].
Proof. unfold zrange. by rewrite seq_S, map_app. Qed.

Lemma zrange_S_l n : zrange (S n) = 0 :: map Z.succ (zrange n).
Proof.
  unfold zrange. cbn [seq map]. f_equal. rewrite <-seq_shift, !map_map.
  apply map_ext. intros. lia.
Qed.

Lemma concat_single {X Y} (f : X -> Y) l : concat (map (fun x => [f x]) l) = map f l.
Proof. induction l; cbn; congruence. Qed.

Lemma concat_replicate {Y} (y : Y) n : concat (map (fun _ => [y]) (zrange n)) = replicate n y.
Proof.
  unfold zrange. rewrite map_map. rewrite <-(length_seq n 0) at 2.
  induction (seq 0 n) as [|x l IH]; cbn; [done|]. by rewrite IH.
Qed.

Lemma mod_mod_pow2_le x v w :
  0 <= v <= w -> (x mod 2 ^ w) mod 2 ^ v = x mod 2 ^ v.
Proof.
  intros H. rewrite <-!Z.land_ones by lia. apply Z.bits_inj'. intros i Hi.
  rewrite !Z.land_spec, !Z.testbit_ones_nonneg by lia.
  destruct (Z.ltb_spec i v), (Z.ltb_spec i w); try lia; by rewrite ?andb_true_r, ?andb_false_r.
Qed.

(** * Booleans and switches *)

Lemma one_of_true x l : one_of x l = true <-> In x l.
Proof.
  unfold one_of. rewrite existsb_exists. split.
  - intros (y & Hy & E). by apply Z.eqb_eq in E as ->.
  - intros Hx. exists x. split; [done|]. apply Z.eqb_refl.
Qed.

Lemma one_of_false x l : one_of x l = false <-> ~ In x l.
Proof. rewrite <-one_of_true. destruct (one_of x l); naive_solver. Qed.

Lemma tst_spec a m : tst a m = true <-> Z.land a m <> 0.
Proof. unfold tst. destruct (Z.eqb_spec (Z.land a m) 0); naive_solver. Qed.

Lemma z2b_false z : z2b z = false -> z = 0.
Proof. unfold z2b. by destruct (Z.eqb_spec z 0). Qed.
Lemma z2b_true z : z2b z = true -> z <> 0.
Proof. unfold z2b. by destruct (Z.eqb_spec z 0). Qed.

Lemma udiv_ok a b : b <> 0 -> udiv a b = Ok (a / b).
Proof. unfold udiv. by destruct (Z.eqb_spec b 0). Qed.

Lemma umod_ok a b : b <> 0 -> umod a b = Ok (a mod b).
Proof. unfold umod. by destruct (Z.eqb_spec b 0). Qed.

(** * Arrays *)

Lemma length_arr_set l i v : length (arr_set l i v) = length l.
Proof. apply length_insert. Qed.

Lemma arr_set_eq l i v : 0 <= i < Z.of_nat (length l) -> arr (arr_set l i v) i = v.
Proof.
  intros Hi. unfold arr, arr_set. rewrite nth_lookup.
  rewrite list_lookup_insert_eq by lia. done.
Qed.

Lemma arr_set_ne l i j v : 0 <= i -> 0 <= j -> i <> j -> arr (arr_set l i v) j = arr l j.
Proof.
  intros Hi Hj Hij. unfold arr, arr_set. rewrite !nth_lookup.
  rewrite list_lookup_insert_ne by lia. done.
Qed.

Lemma arr_Forall P l i : Forall P l -> 0 <= i < Z.of_nat (length l) -> P (arr l i).
Proof.
  intros HF Hi. unfold arr. rewrite nth_lookup.
  destruct (lookup_lt_is_Some_2 l (Z.to_nat i)) as [x Hx]; [lia|].
  rewrite Hx. simpl. by eapply Forall_lookup_1.
Qed.

Lemma arr_set_Forall (P : Z -> Prop) l i v : Forall P l -> P v -> Forall P (arr_set l i v).
Proof. intros. by apply Forall_insert. Qed.

#[export] Hint Resolve arr_set_Forall : width.

Lemma lookup_map {A B} (f : A -> B) (l : list A) i :
  map f l !! i = option_map f (l !! i).
Proof. revert i. induction l as [|a l IH]; intros [|i]; cbn; done || apply IH. Qed.

Lemma idx_ok l i : 0 <= i < Z.of_nat (length l) -> idx l i = Ok (arr l i).
Proof.
  intros Hi. unfold idx, arr. destruct (Z.ltb_spec i 0); [lia|].
  rewrite nth_lookup. destruct (lookup_lt_is_Some_2 l (Z.to_nat i)) as [x ->]; [lia|done].
Qed.

Lemma idx_set_ok (l : list Z) i a :
  0 <= i < Z.of_nat (length l) -> idx_set l i a = Ok (arr_set l i a).
Proof.
  intros Hi. unfold idx_set.
  destruct (Z.leb_spec 0 i), (Z.ltb_spec i (Z.of_nat (length l))); try lia. done.
Qed.

(** * Weakest-precondition calculus *)

Section WpRules.
Context {S : Type}.

Lemma wp_ret {A} (a : A) (Q : A -> S -> Prop) s : Q a s -> wp (mret a) Q s.
Proof. done. Qed.

Lemma wp_bind {A B} (m : M S A) (k : A -> M S B) Q s :
  wp m (fun a s' => wp (k a) Q s') s -> wp (m ≫= k) Q s.
Proof. unfold wp, mbind, M_bind. destruct (m s) as [[a s']|]; done. Qed.

Lemma wp_mono {A} (m : M S A) (Q Q' : A -> S -> Prop) s :
  wp m Q s -> (forall a s', Q a s' -> Q' a s') -> wp m Q' s.
Proof. unfold wp. destruct (m s) as [[a s']|]; naive_solver. Qed.

Lemma wp_and {A} (m : M S A) (Q Q' : A -> S -> Prop) s :
  wp m Q s -> wp m Q' s -> wp m (fun a s' => Q a s' /\ Q' a s') s.
Proof. unfold wp. destruct (m s) as [[a s']|]; naive_solver. Qed.

Lemma wp_get (Q : S -> S -> Prop) s : Q s s -> wp get Q s.
Proof. done. Qed.

Lemma wp_put s' (Q : unit -> S -> Prop) s : Q tt s' -> wp (put s') Q s.
Proof. done. Qed.

Lemma wp_modify f (Q : unit -> S -> Prop) s : Q tt (f s) -> wp (modify f) Q s.
Proof. done. Qed.

Lemma wp_when (b : bool) m (Q : unit -> S -> Prop) s :
  (b = true -> wp m Q s) -> (b = false -> Q tt s) -> wp (when b m) Q s.
Proof. destruct b; intros H1 H2; [by apply H1 | by apply H2]. Qed.

Lemma wp_if {A} (b : bool) (m1 m2 : M S A) Q s :
  (b = true -> wp m1 Q s) -> (b = false -> wp m2 Q s) ->
  wp (if b then m1 else m2) Q s.
Proof. destruct b; auto. Qed.

Lemma wp_assertC (b : bool) (Q : unit -> S -> Prop) s :
  b = true -> Q tt s -> wp (assertC b) Q s.
Proof. by intros ->. Qed.

Lemma wp_lift {A} (a : A) o (Q : A -> S -> Prop) s :
  o = Ok a -> Q a s -> wp (lift o) Q s.
Proof. by intros ->. Qed.

Lemma wp_for_each {X} (I : S -> Prop) (l : list X) body (Q : unit -> S -> Prop) s :
  I s -> (forall x s', In x l -> I s' -> wp (body x) (fun _ => I) s') ->
  (forall s', I s' -> Q tt s') -> wp (for_each l body) Q s.
Proof.
  revert s. induction l as [|x l IH]; intros s Hs Hb HQ; simpl; [by apply HQ|].
  apply wp_bind. eapply wp_mono; [apply Hb; [by left|done]|]. intros [] s' Hs'.
  apply IH; [done| |done]. intros. apply Hb; [by right|done].
Qed.

Lemma wp_for_until_zrange (I : nat -> S -> Prop) n body (Q : bool -> S -> Prop) s :
  I 0%nat s ->
  (forall i s', (i < n)%nat -> I i s' ->
     wp (body (Z.of_nat i)) (fun b s'' => b = false /\ I (Datatypes.S i) s'') s') ->
  (forall s', I n s' -> Q false s') -> wp (for_until (zrange n) body) Q s.
Proof.
  intros Hs Hb HQ. unfold zrange.
  assert (forall m k s', (k + m = n)%nat -> I k s' ->
    wp (for_until (map Z.of_nat (seq k m)) body) Q s') as H; [|by apply (H n 0%nat)].
  induction m as [|m IH]; intros k s' Hk Hs'; cbn [seq map for_until].
  - apply HQ. by replace n with k by lia.
  - apply wp_bind. eapply wp_mono; [apply Hb; [lia|done]|]. intros b s'' [-> H]. apply IH; [lia|done].
Qed.

(** A routine that satisfies a [wp] runs without a fault. *)
Lemma wp_ok {A} (m : M S A) Q s : wp m Q s -> exists a s', m s = Ok (a, s') /\ Q a s'.
Proof. unfold wp. destruct (m s) as [[a s']|]; naive_solver. Qed.

Lemma wp_final {A} (m : M S A) (Q : S -> Prop) s :
  wp m (fun _ => Q) s -> Q (final m s).
Proof. unfold wp, final. destruct (m s) as [[a s']|]; done. Qed.

Lemma wp_of_eq {A} (m : M S A) (Q : A -> S -> Prop) s a s' :
  m s = Ok (a, s') -> Q a s' -> wp m Q s.
Proof. unfold wp. by intros ->. Qed.

Lemma bind_fault {A B} (m : M S A) (k : A -> M S B) s f : m s = Fault f -> (m ≫= k) s = Fault f.
Proof. unfold mbind, M_bind. by intros ->. Qed.

(** What a run ends in may be assumed to be what it ends in. *)
Lemma wp_eqn {A} (m : M S A) (Q : A -> S -> Prop) s :
  wp m Q s -> wp m (fun a s' => Q a s' /\ m s = Ok (a, s')) s.
Proof. unfold wp. by destruct (m s) as [[a s']|]. Qed.

End WpRules.

(** ** Partial correctness

    What holds of a routine if it comes to an end; a fault is allowed. *)
Definition wlp {S A} (m : M S A) (Q : A -> S -> Prop) (s : S) : Prop :=
  match m s with Ok (a, s') => Q a s' | Fault _ => True end.

Section WlpRules.
Context {S : Type}.

Lemma wlp_ret {A} (a : A) (Q : A -> S -> Prop) s : Q a s -> wlp (mret a) Q s.
Proof. done. Qed.

Lemma wlp_bind {A B} (m : M S A) (k : A -> M S B) Q s :
  wlp m (fun a s' => wlp (k a) Q s') s -> wlp (m ≫= k) Q s.
Proof. unfold wlp, mbind, M_bind. destruct (m s) as [[a s']|]; done. Qed.

Lemma wlp_mono {A} (m : M S A) (Q Q' : A -> S -> Prop) s :
  wlp m Q s -> (forall a s', Q a s' -> Q' a s') -> wlp m Q' s.
Proof. unfold wlp. destruct (m s) as [[a s']|]; naive_solver. Qed.

Lemma wlp_if {A} (b : bool) (m1 m2 : M S A) Q s :
  (b = true -> wlp m1 Q s) -> (b = false -> wlp m2 Q s) -> wlp (if b then m1 else m2) Q s.
Proof. destruct b; auto. Qed.

Lemma wlp_assertC (b : bool) (Q : unit -> S -> Prop) s :
  (b = true -> Q tt s) -> wlp (assertC b) Q s.
Proof. destruct b; cbn; auto. Qed.

Lemma wlp_for_each {X} (I : S -> Prop) (l : list X) body (Q : unit -> S -> Prop) s :
  I s -> (forall x s', In x l -> I s' -> wlp (body x) (fun _ => I) s') ->
  (forall s', I s' -> Q tt s') -> wlp (for_each l body) Q s.
Proof.
  revert s. induction l as [|x l IH]; intros s Hs Hb HQ; simpl; [by apply HQ|].
  apply wlp_bind. eapply wlp_mono; [apply Hb; [by left|done]|]. intros [] s' Hs'.
  apply IH; [done| |done]. intros. apply Hb; [by right|done].
Qed.

Lemma wlp_of_wp {A} (m : M S A) Q s : wp m Q s -> wlp m Q s.
Proof. unfold wp, wlp. destruct (m s) as [[a s']|]; done. Qed.

Lemma wp_wlp {A} (m : M S A) (P Q : A -> S -> Prop) s :
  wp m P s -> wlp m Q s -> wp m (fun a s' => P a s' /\ Q a s') s.
Proof. unfold wp, wlp. destruct (m s) as [[a s']|]; done. Qed.

Lemma wlp_of_eq {A} (m : M S A) (Q : A -> S -> Prop) s a s' :
  m s = Ok (a, s') -> Q a s' -> wlp m Q s.
Proof. unfold wlp. by intros ->. Qed.

Lemma wlp_zoom {T A} getter setter (m : M T A) (Q : A -> S -> Prop) s t :
  getter s = Some t -> wlp m (fun a t' => Q a (setter t' s)) t -> wlp (zoom getter setter m) Q s.
Proof. unfold wlp, zoom. intros ->. destruct (m t) as [[a t']|]; done. Qed.

Lemma wp_zoom {T A} getter setter (m : M T A) (Q : A -> S -> Prop) s t :
  getter s = Some t -> wp m (fun a t' => Q a (setter t' s)) t -> wp (zoom getter setter m) Q s.
Proof. unfold wp, zoom. intros ->. destruct (m t) as [[a t']|]; done. Qed.

(** Reading the result of a run that came to an end. *)
Lemma wlp_inv {A} (m : M S A) (Q : A -> S -> Prop) s a s' : wlp m Q s -> m s = Ok (a, s') -> Q a s'.
Proof. unfold wlp. intros H E. by rewrite E in H. Qed.

Lemma bind_inv {A B} (m : M S A) (k : A -> M S B) s b s' :
  (m ≫= k) s = Ok (b, s') -> exists a s1, m s = Ok (a, s1) /\ k a s1 = Ok (b, s').
Proof. unfold mbind, M_bind. destruct (m s) as [[a s1]|]; naive_solver. Qed.

End WlpRules.

Lemma for_each_app {S X} (l1 l2 : list X) (body : X -> M S unit) s :
  for_each (l1 ++ l2) body s = (for_each l1 body;; for_each l2 body) s.
Proof.
  revert s. induction l1 as [|x l1 IH]; intros s; cbn [app for_each]; [done|].
  unfold mbind, M_bind in *. destruct (body x s) as [[[] s1]|]; [apply IH|done].
Qed.

(** ** The call log *)

Lemma logged_logged es es' w : logged es' (logged es w) = logged (es ++ es') w.
Proof. unfold logged. cbn. by rewrite <-app_assoc. Qed.

Lemma logged_nil w : logged [] w = w.
Proof. unfold logged. rewrite app_nil_r. by destruct w. Qed.

Lemma w_log_logged es w : w_log (logged es w) = w_log w ++ es.
Proof. done. Qed.

Create Rewrite HintDb log.
#[export] Hint Rewrite logged_logged logged_nil : log.

Section WpDevRules.
Context {D : Type}.
Implicit Types (d : D) (w : World).

Lemma wp_getd (Q : D -> D * World -> Prop) s : Q (fst s) s -> wp getd Q s.
Proof. done. Qed.

Lemma wp_modd f (Q : unit -> D * World -> Prop) s :
  Q tt (f (fst s), snd s) -> wp (modd f) Q s.
Proof. done. Qed.

Lemma wp_emit e (Q : unit -> D * World -> Prop) s :
  Q tt (fst s, logged [e] (snd s)) -> wp (emit e) Q s.
Proof. done. Qed.

Lemma wp_init_timer_tsc_frequency (Q : Z -> D * World -> Prop) s :
  Q (u64 (w_tsc_freq (snd s))) s -> wp init_timer_tsc_frequency Q s.
Proof. done. Qed.

(** Reading a clock changes nothing but the clock. *)
Lemma wp_init_timer_time (Q : Z -> D * World -> Prop) s :
  (forall t w', inw 64 t -> w_log w' = w_log (snd s) -> Q t (fst s, w')) ->
  wp init_timer_time Q s.
Proof. intros H. apply H; [width|done]. Qed.

Lemma wp_current_time_ns {U : Utils} freq (Q : Z -> D * World -> Prop) s :
  (forall t w', inw 64 t -> w_log w' = w_log (snd s) -> Q t (fst s, w')) ->
  wp (current_time_ns freq) Q s.
Proof. intros H. apply H; [width|done]. Qed.

Lemma wp_on_dev {E A} (getter : D -> option E) setter (m : Dev E A)
    (Q : A -> D * World -> Prop) d w e :
  getter d = Some e ->
  wp m (fun a s => Q a (setter (fst s) d, snd s)) (e, w) ->
  wp (on_dev getter setter m) Q (d, w).
Proof.
  unfold wp, on_dev. simpl. intros ->.
  destruct (m (e, w)) as [[a [e' w']]|]; done.
Qed.

End WpDevRules.

(** One symbolic execution step; the case distinctions name their equation. *)
Ltac wp_step :=
  cbv zeta;
  lazymatch goal with
  | |- wp (mbind _ _) _ _ => apply wp_bind
  | |- wp (mret _) _ _ => apply wp_ret
  | |- wp get _ _ => apply wp_get
  | |- wp (put _) _ _ => apply wp_put
  | |- wp (modify _) _ _ => apply wp_modify
  | |- wp getd _ _ => apply wp_getd
  | |- wp (modd _) _ _ => apply wp_modd
  | |- wp (emit _) _ _ => apply wp_emit
  | |- wp init_timer_tsc_frequency _ _ => apply wp_init_timer_tsc_frequency
  | |- wp init_timer_time _ _ => apply wp_init_timer_time; intros ?t ?w ? ?
  | |- wp (current_time_ns _) _ _ => apply wp_current_time_ns; intros ?t ?w ? ?
  | |- wp (when _ _) _ _ => apply wp_when; intros ?Hb
  | |- wp (if _ then _ else _) _ _ => apply wp_if; intros ?Hb
  end; cbn [fst snd].
Ltac wp_run := repeat wp_step.

(** ** Running a routine by its equations *)

Lemma bind_ok {S A B} (m : M S A) (k : A -> M S B) s a s' :
  m s = Ok (a, s') -> (m ≫= k) s = k a s'.
Proof. unfold mbind, M_bind. by intros ->. Qed.

Lemma lift_ok {S A} (o : outcome A) (a : A) (s : S) : o = Ok a -> lift o s = Ok (a, s).
Proof. by intros ->. Qed.

Lemma idx_lookup {A} (l : list A) (k : nat) a : l !! k = Some a -> idx l (Z.of_nat k) = Ok a.
Proof.
  intros H. unfold idx. destruct (Z.ltb_spec (Z.of_nat k) 0); [lia|].
  by rewrite Nat2Z.id, H.
Qed.

Lemma idx_set_mid {A} (l1 l2 : list A) (a b : A) :
  idx_set (l1 ++ a :: l2) (Z.of_nat (length l1)) b = Ok (l1 ++ b :: l2).
Proof.
  unfold idx_set. rewrite length_app. cbn [length].
  destruct (Z.leb_spec 0 (Z.of_nat (length l1))); [|lia].
  destruct (Z.ltb_spec (Z.of_nat (length l1)) (Z.of_nat (length l1 + S (length l2)))); [|lia].
  cbn [andb]. rewrite Nat2Z.id, insert_app_r_alt, Nat.sub_diag by lia. done.
Qed.

Lemma lookup_mid {A} (l1 l2 : list A) (a : A) : (l1 ++ a :: l2) !! length l1 = Some a.
Proof. by rewrite lookup_app_r, Nat.sub_diag by lia. Qed.
