(* ===== verification/Calls.v ===== *)
(** Start-up code is mostly calls into libraries whose answers are checked by
    assertions.  Here is the interface of a state that keeps a log of such calls,
    the operations that make and check them, and the calculus by which straight
    pieces of code are replaced by the list of their calls.  ArmStart and
    ArmDevices instantiate it. *)

From S2P Require Import Prelude.

(** The answer to the last call of a log, and whether the code goes on with
    it. *)
Class Answers (C : Type) := {
  reply : list C -> Z;
  succeeded : C -> Z -> bool }.

(** A state that contains a log of calls. *)
Class CallLog (St C : Type) := {
  calls_of : St -> list C;
  add_calls : list C -> St -> St;
  add_nil s : add_calls [] s = s;
  add_add e1 e2 s : add_calls e2 (add_calls e1 s) = add_calls (e1 ++ e2) s;
  calls_add es s : calls_of (add_calls es s) = calls_of s ++ es }.

(** The log itself. *)
#[export] Instance list_log {C : Type} : CallLog (list C) C.
Proof.
  refine {| calls_of := fun l => l; add_calls := fun es l => l ++ es |}.
  - apply app_nil_r.
  - intros s e1 e2. by rewrite app_assoc.
  - done.
Defined.

(** * Operations *)

Section Operations.
Context {St C : Type} {W : Answers C} {K : CallLog St C}.

Definition ask (c : C) : M St Z := fun s => Ok (reply (calls_of s ++ [c]), add_calls [c] s).
(** A call followed by [assert(!err)] or [ZF_LOGF_IF(err, ..)], or by
    [assert(pointer)], or by [assert(id >= 0)]; one whose answer is not looked
    at. *)
Definition must (c : C) : M St unit := err ← ask c; assertC (err =? 0).
Definition must_ptr (c : C) : M St unit := p ← ask c; assertC (negb (p =? 0)).
Definition must_id (c : C) : M St unit := t ← ask c; assertC (0 <=? t).
Definition do_ (c : C) : M St unit := _ ← ask c; mret tt.

End Operations.

(** [if (err) return err;] and [if (err) return -1;] *)
Definition or_err {St} (m k : M St Z) : M St Z := err ← m; if z2b err then mret err else k.
Definition or_fail {St} (m k : M St Z) : M St Z := err ← m; if z2b err then mret (-1) else k.

(** * Straight code *)

Section Checked.
Context {C : Type} {W : Answers C}.

(** Every call of [es], made after those of [l], had an answer the code goes
    on with. *)
Fixpoint checked (l es : list C) : bool :=
  match es with
  | [] => true
  | c :: es => succeeded c (reply (l ++ [c])) && checked (l ++ [c]) es
  end.

Lemma checked_app l e1 e2 : checked l (e1 ++ e2) = checked l e1 && checked (l ++ e1) e2.
Proof.
  revert l. induction e1 as [|c e1 IH]; intros l; cbn; [by rewrite app_nil_r|].
  by rewrite IH, <-app_assoc, andb_assoc.
Qed.

End Checked.

Section Straight.
Context {St C : Type} {W : Answers C} {K : CallLog St C}.

(** [straight m es]: [m] makes the calls [es], and goes on exactly if each
    of them succeeds. *)
Definition straight (m : M St unit) (es : list C) : Prop := forall s,
  m s = if checked (calls_of s) es then Ok (tt, add_calls es s) else Fault AssertFailed.

Lemma straight_ext m m' es : (forall s, m' s = m s) -> straight m es -> straight m' es.
Proof using Type. intros E H s. by rewrite E. Qed.

Lemma straight_ret : straight (mret tt) [].
Proof using Type. intros s. cbn. by rewrite add_nil. Qed.

Lemma straight_bind m k e1 e2 : straight m e1 -> straight k e2 -> straight (m;; k) (e1 ++ e2).
Proof using Type.
  intros Hm Hk s. unfold mbind, M_bind. rewrite Hm, checked_app. destruct (checked (calls_of s) e1); cbn; [|done].
  by rewrite Hk, calls_add, add_add.
Qed.

Lemma straight_when b m es : straight m es -> straight (when b m) (if b then es else []).
Proof using Type. destruct b; intros H; [exact H|apply straight_ret]. Qed.

Lemma straight_each {X} (l : list X) body es :
  (forall x, straight (body x) (es x)) -> straight (for_each l body) (concat (map es l)).
Proof using Type. intros H. induction l; cbn; [apply straight_ret|by apply straight_bind]. Qed.

Lemma straight_must c : (forall r, succeeded c r = (r =? 0)) -> straight (must c) [c].
Proof using Type. intros H s. unfold must, ask, mbind, M_bind. cbn. rewrite H, andb_true_r. by destruct (_ =? 0). Qed.
Lemma straight_must_ptr c : (forall r, succeeded c r = negb (r =? 0)) -> straight (must_ptr c) [c].
Proof using Type. intros H s. unfold must_ptr, ask, mbind, M_bind. cbn. rewrite H, andb_true_r. by destruct (negb _). Qed.
Lemma straight_must_id c : (forall r, succeeded c r = (0 <=? r)) -> straight (must_id c) [c].
Proof using Type. intros H s. unfold must_id, ask, mbind, M_bind. cbn. rewrite H, andb_true_r. by destruct (0 <=? _). Qed.
Lemma straight_do c : (forall r, succeeded c r = true) -> straight (do_ c) [c].
Proof using Type. intros H s. unfold do_, ask, mbind, M_bind. cbn. by rewrite H. Qed.

Lemma straight_wlp m es (Q : unit -> St -> Prop) s : straight m es -> Q tt (add_calls es s) -> wlp m Q s.
Proof using Type. intros H HQ. unfold wlp. rewrite H. by destruct (checked (calls_of s) es). Qed.
Lemma straight_wp m es (Q : unit -> St -> Prop) s :
  straight m es -> checked (calls_of s) es = true -> Q tt (add_calls es s) -> wp m Q s.
Proof using Type. intros H Hc HQ. unfold wp. by rewrite H, Hc. Qed.

(** When the library always succeeds. *)
Definition all_succeed : Prop := forall (l : list C) c, succeeded c (reply (l ++ [c])) = true.
Lemma all_checked l es : all_succeed -> checked l es = true.
Proof using Type. intros H. revert l. induction es as [|c es IH]; intros l; cbn; [done|]. by rewrite H, IH. Qed.

End Straight.

(** * Pieces that return an error *)

Definition on_success {T} (Q : T -> Prop) (r : Z) (s : T) : Prop := r = 0 -> Q s.

Lemma wlp_or_fail {St} (m k : M St Z) (Q : St -> Prop) s :
  wlp m (on_success (fun s' => wlp k (on_success Q) s')) s -> wlp (or_fail m k) (on_success Q) s.
Proof.
  intros H. apply wlp_bind. eapply wlp_mono; [exact H|]. intros err s1 H1.
  apply wlp_if; intros Hb; [by apply wlp_ret|apply H1, z2b_false, Hb].
Qed.
Lemma wlp_or_err {St} (m k : M St Z) (Q : St -> Prop) s :
  wlp m (on_success (fun s' => wlp k (on_success Q) s')) s -> wlp (or_err m k) (on_success Q) s.
Proof.
  intros H. apply wlp_bind. eapply wlp_mono; [exact H|]. intros err s1 H1.
  apply wlp_if; intros Hb; [apply wlp_ret; intros ->; by destruct (z2b_true _ Hb)|apply H1, z2b_false, Hb].
Qed.

(** One call of a straight piece. *)
Ltac straight1 := first [by apply straight_do | by apply straight_must | by apply straight_must_ptr
  | by apply straight_when, straight_must | by apply straight_must_id ].
