(* ===== verification/I8254.v ===== *)
(** * The 8253/8254 interval timer (components/Init/src/i8254.c)

    [PITChannelState] and [PITCommonState] are the C structs (plus the file's
    static [tsc_frequency]); the functions that take a channel pointer run on
    one channel and are embedded in the three-channel state by [on_channel].
    Unsigned 64-bit arithmetic wraps as in C; a remainder by a zero count is
    the fault [DivByZero].  The theorems: the state invariant [pit_wf], kept
    by every port access and timer callback without a fault; the tick
    arithmetic of [pit_next_tick] against the output waveform; the counter
    latch and the count-loading protocol. *)

From S2P Require Import Prelude.

(** timers.h and virtio_irq.h *)
Definition TIMER_PIT : Z := 0.
Definition TIMER_IRQ : Z := 0.

Definition PIT_FREQ : Z := 1193182.
Definition RW_STATE_LSB : Z := 1.
Definition RW_STATE_MSB : Z := 2.
Definition RW_STATE_WORD0 : Z := 3.
Definition RW_STATE_WORD1 : Z := 4.

Record PITChannelInfo := mkPITChannelInfo {
  info_gate : Z; info_mode : Z; info_initial_count : Z; info_out : Z }.

Record PITChannelState := mkPITChannelState {
  count : Z;                  (* int, can be 65536 *)
  latched_count : Z;          (* uint16_t *)
  count_latched : Z;          (* uint8_t from here ... *)
  status_latched : Z;
  status : Z;
  read_state : Z;
  write_state : Z;
  write_latch : Z;
  rw_mode : Z;
  mode : Z;
  bcd : Z;
  gate : Z;                   (* ... to here *)
  count_load_time : Z;        (* int64_t *)
  next_transition_time : Z;   (* int64_t *)
  irq_timer : Z;              (* int *)
  irq_disabled : Z            (* uint32_t *) }.
#[export] Instance eta_PITChannelState : Eta PITChannelState := fun s =>
  mkPITChannelState (count s) (latched_count s) (count_latched s) (status_latched s)
    (status s) (read_state s) (write_state s) (write_latch s) (rw_mode s) (mode s)
    (bcd s) (gate s) (count_load_time s) (next_transition_time s) (irq_timer s)
    (irq_disabled s).

Record PITCommonState := mkPITCommonState {
  channels : list PITChannelState;
  tsc_frequency : Z }.
#[export] Instance eta_PITCommonState : Eta PITCommonState := fun p =>
  mkPITCommonState (channels p) (tsc_frequency p).

(** A channel of the zero-initialised static [pit_state]. *)
Definition channel_bss : PITChannelState :=
  mkPITChannelState 0 0 0 0 0 0 0 0 0 0 0 0 0 0 0 0.
Definition pit_state_bss : PITCommonState :=
  mkPITCommonState [channel_bss; channel_bss; channel_bss] 0.

Section PIT.
Context {U : Utils}.

(** Elapsed PIT ticks at time [now]: [muldivu64(now - s->count_load_time, ...)]. *)
Definition pit_ticks (s : PITChannelState) (now : Z) : Z :=
  muldivu64 (u64 (now - count_load_time s)) PIT_FREQ NS_IN_S.

(** The switch of [pit_get_count] on the elapsed ticks [d]. *)
Definition pit_counter (s : PITChannelState) (d : Z) : outcome Z :=
  if one_of (mode s) [0; 1; 4; 5] then
    mret (s32 (u64 (count s - d) .& 0xffff))
  else if one_of (mode s) [3] then
    r ← umod (u64 (2 * d)) (u64 (count s));
    mret (s32 (u64 (count s - r)))
  else
    r ← umod d (u64 (count s));
    mret (s32 (u64 (count s - r))).

Definition pit_get_count (freq : Z) : Dev PITChannelState Z :=
  now ← current_time_ns freq;
  s ← getd;
  lift (pit_counter s (pit_ticks s now)).

(** The switch of [pit_get_out] on the elapsed ticks [d]. *)
Definition pit_out_at (s : PITChannelState) (d : Z) : outcome Z :=
  if one_of (mode s) [1] then mret (b2z (d <? u64 (count s)))
  else if one_of (mode s) [2] then
    r ← umod d (u64 (count s));
    mret (b2z ((r =? 0) && negb (d =? 0)))
  else if one_of (mode s) [3] then
    r ← umod d (u64 (count s));
    mret (b2z (r <? u64 ((s32 (count s + 1)) .>> 1)))
  else if one_of (mode s) [4; 5] then mret (b2z (d =? u64 (count s)))
  else mret (b2z (u64 (count s) <=? d)).

(** get pit output bit *)
Definition pit_get_out (s : PITChannelState) (current_time : Z) : outcome Z :=
  pit_out_at s (pit_ticks s current_time).

(** The switch of [pit_get_next_transition_time]: the tick of the next
    transition, or [None] where the C code returns -1. *)
Definition pit_next_tick (s : PITChannelState) (d : Z) : outcome (option Z) :=
  let c := u64 (count s) in
  if one_of (mode s) [2] then
    (if c =? 0 then Fault DivByZero else mret tt);;
    let base := ROUND_DOWN d c in
    mret (Some (if (u64 (d - base) =? 0) && negb (d =? 0)
                then u64 (base + c) else u64 (base + c + 1)))
  else if one_of (mode s) [3] then
    (if c =? 0 then Fault DivByZero else mret tt);;
    let base := ROUND_DOWN d c in
    let period2 := (s32 (count s + 1)) .>> 1 in
    mret (Some (if u64 (d - base) <? u64 period2
                then u64 (base + period2) else u64 (base + c)))
  else if one_of (mode s) [4; 5] then
    mret (if d <? c then Some c
          else if d =? c then Some (u64 (s32 (count s + 1)))
          else None)
  else mret (if d <? c then Some c else None).

(** return -1 if no transition will occur. *)
Definition pit_get_next_transition_time (s : PITChannelState) (current_time : Z)
    : outcome Z :=
  next ← pit_next_tick s (pit_ticks s current_time);
  mret match next with
       | None => -1
       | Some n =>
           (* convert to timer units *)
           let next_time := u64 (count_load_time s + muldivu64 n NS_IN_S PIT_FREQ) in
           (* fix potential rounding problems *)
           s64 (if next_time <=? u64 current_time then u64 (current_time + 1)
                else next_time)
       end.

Definition pit_get_channel_info_common (freq : Z) : Dev PITChannelState PITChannelInfo :=
  sc ← getd;
  now ← current_time_ns freq;
  out ← lift (pit_get_out sc (s64 now));
  mret (mkPITChannelInfo (gate sc) (mode sc) (count sc) out).

Definition pit_irq_timer_update (current_time : Z) : Dev PITChannelState unit :=
  s ← getd;
  if negb (z2b (irq_timer s)) || z2b (irq_disabled s) then mret tt
  else
    expire_time ← lift (pit_get_next_transition_time s current_time);
    irq_level ← lift (pit_get_out s current_time);
    emit (SetIrqLevel TIMER_IRQ irq_level);;
    modd (fun s => s <| next_transition_time := expire_time |>);;
    if negb (expire_time =? -1) then emit (TimerOneshotAbs TIMER_PIT expire_time)
    else emit (TimerStop TIMER_PIT).

Definition pit_load_count (freq val : Z) : Dev PITChannelState unit :=
  let val := if val =? 0 then 0x10000 else val in
  now ← current_time_ns freq;
  modd (fun s => s <| count_load_time := s64 now |> <| count := val |>);;
  pit_irq_timer_update (s64 now).

(** if already latched, do not latch again *)
Definition pit_latch_count (freq : Z) : Dev PITChannelState unit :=
  s ← getd;
  if negb (z2b (count_latched s)) then
    c ← pit_get_count freq;
    modd (fun s => s <| latched_count := u16 c |> <| count_latched := rw_mode s |>)
  else mret tt.

Definition set_channel (i : nat) (c : PITChannelState) (p : PITCommonState) : PITCommonState :=
  p <| channels := <[i := c]> (channels p) |>.

Definition on_channel {A} (i : nat) (m : Dev PITChannelState A) : Dev PITCommonState A :=
  on_dev (fun p => channels p !! i) (set_channel i) m.

(** The status-latch part of the read-back command, on one channel. *)
Definition pit_latch_status (freq : Z) : Dev PITChannelState unit :=
  now ← current_time_ns freq;
  s ← getd;
  out ← lift (pit_get_out s (s64 now));
  modd (fun s => s <| status := u8 ((out .<< 7) .| (rw_mode s .<< 4)
                                    .| (mode s .<< 1) .| bcd s) |>
                   <| status_latched := 1 |>).

(** The body of the read-back loop for one channel. *)
Definition pit_read_back (freq val : Z) (channel : nat) : Dev PITChannelState unit :=
  when (tst val (2 .<< Z.of_nat channel))
    (when (negb (tst val 0x20)) (pit_latch_count freq);;
     s ← getd;
     when (negb (tst val 0x10) && negb (z2b (status_latched s)))
       (pit_latch_status freq)).

(** The control-word arm: latch command or mode programming. *)
Definition pit_control_word (freq val : Z) : Dev PITChannelState unit :=
  let access := (val .>> 4) .& 3 in
  if access =? 0 then pit_latch_count freq
  else modd (fun s => s <| rw_mode := access |> <| read_state := access |>
                        <| write_state := access |>
                        <| mode := (val .>> 1) .& 7 |> <| bcd := val .& 1 |>).

(** The data-port arm: the write state machine. *)
Definition pit_write_count (freq val : Z) : Dev PITChannelState unit :=
  s ← getd;
  if one_of (write_state s) [RW_STATE_MSB] then pit_load_count freq (s32 (u64 (val .<< 8)))
  else if one_of (write_state s) [RW_STATE_WORD0] then
    modd (fun s => s <| write_latch := u8 val |> <| write_state := RW_STATE_WORD1 |>)
  else if one_of (write_state s) [RW_STATE_WORD1] then
    pit_load_count freq (s32 (write_latch s .| u64 (val .<< 8)));;
    modd (fun s => s <| write_state := RW_STATE_WORD0 |>)
  else pit_load_count freq (s32 val).

Definition pit_ioport_write (addr val : Z) : Dev PITCommonState unit :=
  pit ← getd;
  let freq := tsc_frequency pit in
  let addr := addr .& 3 in
  if addr =? 3 then
    let channel := s32 (val .>> 6) in
    if channel =? 3 then
      for_each [0; 1; 2]%nat (fun ch => on_channel ch (pit_read_back freq val ch))
    else if channel <? 0 then fail OutOfBounds
    else on_channel (Z.to_nat channel) (pit_control_word freq val)
  else on_channel (Z.to_nat addr) (pit_write_count freq val).

(** The read of a data port of one channel. *)
Definition pit_read_count (freq : Z) : Dev PITChannelState Z :=
  s ← getd;
  if z2b (status_latched s) then
    modd (fun s => s <| status_latched := 0 |>);; mret (status s)
  else if z2b (count_latched s) then
    if one_of (count_latched s) [RW_STATE_MSB] then
      modd (fun s => s <| count_latched := 0 |>);; mret (latched_count s .>> 8)
    else if one_of (count_latched s) [RW_STATE_WORD0] then
      modd (fun s => s <| count_latched := RW_STATE_MSB |>);;
      mret (latched_count s .& 0xff)
    else
      modd (fun s => s <| count_latched := 0 |>);; mret (latched_count s .& 0xff)
  else
    c ← pit_get_count freq;
    if one_of (read_state s) [RW_STATE_MSB] then mret ((c .>> 8) .& 0xff)
    else if one_of (read_state s) [RW_STATE_WORD0] then
      modd (fun s => s <| read_state := RW_STATE_WORD1 |>);; mret (c .& 0xff)
    else if one_of (read_state s) [RW_STATE_WORD1] then
      modd (fun s => s <| read_state := RW_STATE_WORD0 |>);; mret ((c .>> 8) .& 0xff)
    else mret (c .& 0xff).

Definition pit_ioport_read (addr : Z) : Dev PITCommonState Z :=
  pit ← getd;
  let addr := addr .& 3 in
  if addr =? 3 then mret 0   (* Mode/Command register is write only *)
  else on_channel (Z.to_nat addr) (pit_read_count (tsc_frequency pit)).

(** The body of the loop of [pit_reset_common] for channel [i]. *)
Definition pit_reset_channel (freq : Z) (i : nat) : Dev PITChannelState unit :=
  modd (fun s => s <| mode := 3 |> <| gate := b2z (negb (i =? 2)%nat) |>);;
  now ← current_time_ns freq;
  modd (fun s => s <| count_load_time := s64 now |> <| count := 0x10000 |>);;
  s ← getd;
  when ((i =? 0)%nat && negb (z2b (irq_disabled s)))
    (t ← lift (pit_get_next_transition_time s (count_load_time s));
     modd (fun s => s <| next_transition_time := t |>)).

Definition pit_reset_common : Dev PITCommonState unit :=
  pit ← getd;
  for_each [0; 1; 2]%nat (fun i => on_channel i (pit_reset_channel (tsc_frequency pit) i)).

(** init_timer_oneshot_absolute(TIMER_PIT, s->next_transition_time) *)
Definition pit_arm : Dev PITChannelState unit :=
  s ← getd; emit (TimerOneshotAbs TIMER_PIT (next_transition_time s)).

Definition pit_reset : Dev PITCommonState unit :=
  pit_reset_common;;
  on_channel 0 (s ← getd; when (negb (z2b (irq_disabled s))) pit_arm).

(** When HPET is operating in legacy mode, suppress the ignored timer IRQ,
    reenable it when legacy mode is left again. *)
Definition pit_irq_control (n : Z) (enable : bool) : Dev PITCommonState unit :=
  pit ← getd;
  on_channel 0
    (if enable then
       modd (fun s => s <| irq_disabled := 0 |>);;
       now ← current_time_ns (tsc_frequency pit);
       pit_irq_timer_update (s64 now)
     else
       modd (fun s => s <| irq_disabled := 1 |>);;
       emit (TimerStop TIMER_PIT)).

Definition pit_post_load : Dev PITCommonState unit :=
  on_channel 0
    (sc ← getd;
     if negb (next_transition_time sc =? -1) then pit_arm
     else emit (TimerStop TIMER_PIT)).

Definition pit_irq_timer : Dev PITChannelState unit :=
  s ← getd; pit_irq_timer_update (next_transition_time s).

Definition pit_timer_interrupt : Dev PITCommonState unit :=
  on_channel 0 pit_irq_timer.

Definition pit_pre_init : Dev PITCommonState unit :=
  f ← init_timer_tsc_frequency;
  modd (fun p => p <| tsc_frequency := f |>);;
  on_channel 0 (modd (fun s => s <| irq_timer := 1 |>));;
  pit_irq_control 0 true;;
  pit_reset.

Definition i8254_port_in (port_no size : Z)
    : Dev PITCommonState (ioport_fault_result * option Z) :=
  if negb (size =? 1) then mret (IO_FAULT_ERROR, None)
  else r ← pit_ioport_read port_no; mret (IO_FAULT_HANDLED, Some (u32 r)).

Definition i8254_port_out (port_no size value : Z)
    : Dev PITCommonState ioport_fault_result :=
  if negb (size =? 1) then mret IO_FAULT_ERROR
  else pit_ioport_write port_no value;; mret IO_FAULT_HANDLED.

(** Everything that can happen to the timer once it is initialised. *)
Inductive pit_op :=
| PitOut (port size value : Z)
| PitIn (port size : Z)
| PitTimer
| PitIrqControl (n : Z) (enable : bool)
| PitPostLoad.

Definition pit_exec (o : pit_op) : Dev PITCommonState unit :=
  match o with
  | PitOut p sz v => i8254_port_out p sz v;; mret tt
  | PitIn p sz => i8254_port_in p sz;; mret tt
  | PitTimer => pit_timer_interrupt
  | PitIrqControl n e => pit_irq_control n e
  | PitPostLoad => pit_post_load
  end.

(** The values a guest can put on the bus: a one-byte access carries a byte. *)
Definition pit_op_ok (o : pit_op) : Prop :=
  match o with PitOut _ sz v => sz = 1 -> inw 8 v | _ => True end.

(** ** State invariant *)

Record ch_wf (s : PITChannelState) : Prop := {
  wf_count : 1 <= count s <= 65536;
  wf_latched : inw 16 (latched_count s);
  wf_count_latched : 0 <= count_latched s <= 3;
  wf_status_latched : 0 <= status_latched s <= 1;
  wf_status : inw 8 (status s);
  wf_read_state : 0 <= read_state s <= 4;
  wf_write_state : 0 <= write_state s <= 4;
  wf_write_latch : inw 8 (write_latch s);
  wf_rw_mode : 0 <= rw_mode s <= 3;
  wf_mode : 0 <= mode s <= 7;
  wf_bcd : 0 <= bcd s <= 1 }.

(** Only channel 0 is connected to the interrupt line. *)
Record pit_wf (p : PITCommonState) : Prop := {
  wf_three : length (channels p) = 3%nat;
  wf_channels : Forall ch_wf (channels p);
  wf_irq : forall i c, (0 < i)%nat -> channels p !! i = Some c -> irq_timer c = 0 }.

(** The output seen as a waveform over ticks: [pit_out_at] where it is defined. *)
Definition out_tick (s : PITChannelState) (d : Z) : Z :=
  match pit_out_at s d with Ok b => b | Fault _ => 0 end.

(** ** The arithmetic is defined on well-formed channels *)

Lemma u64_count s : ch_wf s -> u64 (count s) = count s.
Proof. intros []. apply u64_small. unfold inw; lia. Qed.

Lemma umod_count s d : ch_wf s -> umod d (count s) = Ok (d mod count s).
Proof. intros []. unfold umod. destruct (Z.eqb_spec (count s) 0); [lia|done]. Qed.

Lemma s32_count1 s : ch_wf s -> s32 (count s + 1) = count s + 1.
Proof. intros []. apply s32_small. lia. Qed.

Lemma pit_counter_ok s d : ch_wf s -> exists c, pit_counter s d = Ok c.
Proof.
  intros Hs. unfold pit_counter. rewrite u64_count, !umod_count by done.
  repeat case_match; simpl; eauto.
Qed.

Lemma pit_out_at_ok s d :
  ch_wf s -> exists b, pit_out_at s d = Ok b /\ 0 <= b <= 1.
Proof.
  intros Hs. unfold pit_out_at. rewrite u64_count, !umod_count by done.
  repeat case_match; cbn; eexists; (split; [reflexivity|]); unfold b2z; case_match; lia.
Qed.

Lemma pit_next_tick_ok s d : ch_wf s -> exists n, pit_next_tick s d = Ok n.
Proof.
  intros Hs. unfold pit_next_tick. rewrite u64_count by done.
  destruct Hs. destruct (Z.eqb_spec (count s) 0); [lia|].
  repeat case_match; cbn; eauto.
Qed.

Lemma pit_get_out_ok s t : ch_wf s -> exists b, pit_get_out s t = Ok b /\ 0 <= b <= 1.
Proof. apply pit_out_at_ok. Qed.

Lemma pit_next_time_ok s t : ch_wf s -> exists e, pit_get_next_transition_time s t = Ok e.
Proof.
  intros Hs. unfold pit_get_next_transition_time.
  destruct (pit_next_tick_ok s (pit_ticks s t) Hs) as [n ->]. cbn. eauto.
Qed.

(** ** Preservation of the invariant, one routine at a time *)

Lemma le1_inw x : inw 1 x -> 0 <= x <= 1. Proof. unfold inw; lia. Qed.
Lemma le3_inw x : inw 2 x -> 0 <= x <= 3. Proof. unfold inw; lia. Qed.
Lemma le4_inw x : inw 2 x -> 0 <= x <= 4. Proof. unfold inw; lia. Qed.
Lemma le7_inw x : inw 3 x -> 0 <= x <= 7. Proof. unfold inw; lia. Qed.

(** [keeps m]: [m] runs without a fault, keeps a channel well-formed and does
    not rewire its interrupt. *)
Definition keeps {A} (m : Dev PITChannelState A) : Prop :=
  forall s w, ch_wf s ->
    wp m (fun _ s' => ch_wf (fst s') /\ irq_timer (fst s') = irq_timer s) (s, w).

Ltac ch_wf_tac :=
  cbn; try (split; [|reflexivity]);
  lazymatch goal with
  | H : ch_wf _ |- ch_wf _ =>
      destruct H; constructor; cbn;
      try first [ done | lia | width | apply le1_inw; width | apply le3_inw; width | apply le4_inw; width
                | apply le7_inw; width ]
  | _ => try done
  end.

Lemma keeps_bind {A B} (m : Dev PITChannelState A) (k : A -> Dev PITChannelState B) :
  keeps m -> (forall a, keeps (k a)) -> keeps (m ≫= k).
Proof.
  intros Hm Hk s w Hs. apply wp_bind. eapply wp_mono; [by apply Hm|].
  intros a [s' w'] [Hs' Hi]. eapply wp_mono; [by apply Hk|].
  intros b [s'' w''] [? Hi']. split; [done|]. by rewrite Hi'.
Qed.

Lemma keeps_irq_timer_update t : keeps (pit_irq_timer_update t).
Proof.
  intros s w Hs. unfold pit_irq_timer_update.
  destruct (pit_next_time_ok s t Hs) as [e He], (pit_get_out_ok s t Hs) as (b & Hb & _).
  wp_run; [ch_wf_tac|]. eapply wp_lift; [exact He|].
  wp_step. eapply wp_lift; [exact Hb|]. wp_run; ch_wf_tac.
Qed.

Lemma keeps_load_count f v : 0 <= v <= 65535 -> keeps (pit_load_count f v).
Proof.
  intros Hv s w Hs. unfold pit_load_count. wp_run.
  eapply wp_mono; [apply keeps_irq_timer_update|cbn; done].
  destruct (Z.eqb_spec v 0); ch_wf_tac.
Qed.

Lemma wp_get_count f s w (Q : Z -> PITChannelState * World -> Prop) :
  ch_wf s ->
  (forall c t w', pit_counter s (pit_ticks s t) = Ok c -> w_log w' = w_log w -> Q c (s, w')) ->
  wp (pit_get_count f) Q (s, w).
Proof.
  intros Hs HQ. unfold pit_get_count. wp_run.
  destruct (pit_counter_ok s (pit_ticks s t) Hs) as [c Hc].
  eapply wp_lift; [exact Hc|]. by eapply HQ.
Qed.

(** Latching an unlatched channel. *)
Lemma wp_latch_count_free f s w (Q : unit -> PITChannelState * World -> Prop) :
  ch_wf s -> count_latched s = 0 ->
  (forall c t w', pit_counter s (pit_ticks s t) = Ok c -> w_log w' = w_log w ->
     Q tt (s <| latched_count := u16 c |> <| count_latched := rw_mode s |>, w')) ->
  wp (pit_latch_count f) Q (s, w).
Proof.
  intros Hs Hcl HQ. unfold pit_latch_count. wp_run; [|by rewrite Hcl in Hb].
  apply wp_get_count; [done|]. intros. wp_run. by eapply HQ.
Qed.

Lemma wp_latch_count_busy f s w (Q : unit -> PITChannelState * World -> Prop) :
  count_latched s <> 0 -> Q tt (s, w) -> wp (pit_latch_count f) Q (s, w).
Proof.
  intros Hcl HQ. unfold pit_latch_count. wp_step. wp_step. unfold z2b.
  by destruct (Z.eqb_spec (count_latched s) 0).
Qed.

(** Reading a latched count: low byte first, then the high byte. *)
Lemma wp_read_latched_word f s w (Q : Z -> PITChannelState * World -> Prop) :
  status_latched s = 0 -> count_latched s = RW_STATE_WORD0 ->
  Q (latched_count s .& 0xff) (s <| count_latched := RW_STATE_MSB |>, w) ->
  wp (pit_read_count f) Q (s, w).
Proof. intros E1 E2 HQ. unfold pit_read_count. do 2 wp_step. by rewrite E1, E2. Qed.

Lemma wp_read_latched_msb f s w (Q : Z -> PITChannelState * World -> Prop) :
  status_latched s = 0 -> count_latched s = RW_STATE_MSB ->
  Q (latched_count s .>> 8) (s <| count_latched := 0 |>, w) ->
  wp (pit_read_count f) Q (s, w).
Proof. intros E1 E2 HQ. unfold pit_read_count. do 2 wp_step. by rewrite E1, E2. Qed.

Lemma keeps_latch_count f : keeps (pit_latch_count f).
Proof.
  intros s w Hs. unfold pit_latch_count. wp_run; [|ch_wf_tac].
  apply wp_get_count; [done|]. intros. wp_run. ch_wf_tac.
Qed.

Lemma keeps_latch_status f : keeps (pit_latch_status f).
Proof.
  intros s w Hs. unfold pit_latch_status. wp_run.
  destruct (pit_get_out_ok s (s64 t) Hs) as (b & Hb & _).
  eapply wp_lift; [exact Hb|]. wp_run. ch_wf_tac.
Qed.

Lemma keeps_when b m : keeps m -> keeps (when b m).
Proof. intros Hm s w Hs. wp_step; [by apply Hm|done]. Qed.

Lemma keeps_getd {B} (k : PITChannelState -> Dev PITChannelState B) :
  (forall s w, ch_wf s -> wp (k s) (fun _ s' => ch_wf (fst s') /\
     irq_timer (fst s') = irq_timer s) (s, w)) -> keeps (getd ≫= k).
Proof. intros Hk s w Hs. wp_run. by apply Hk. Qed.

Lemma keeps_read_back f v ch : keeps (pit_read_back f v ch).
Proof.
  apply keeps_when, keeps_bind; [apply keeps_when, keeps_latch_count|].
  intros _. apply keeps_getd. intros s w Hs. by apply keeps_when; [apply keeps_latch_status|].
Qed.

Lemma keeps_control_word f v : keeps (pit_control_word f v).
Proof.
  unfold pit_control_word. intros s w Hs. wp_step; [by apply keeps_latch_count|].
  wp_run. ch_wf_tac.
Qed.

(** A one-byte value shifted to the high byte of the count. *)
Lemma u64_hi v : inw 8 v -> u64 (v .<< 8) = v * 256.
Proof.
  intros Hv. rewrite Z.shiftl_mul_pow2 by lia. apply u64_small. unfold inw in *; lia.
Qed.

Lemma lor_hi a v : inw 8 a -> inw 8 v -> a .| (v * 256) = a + v * 256.
Proof.
  intros Ha Hv. symmetry. apply Z.add_nocarry_lor. rewrite (Z.mul_comm v).
  apply Z.bits_inj'. intros i Hi. rewrite Z.land_spec, Z.bits_0.
  destruct (Z.lt_ge_cases i 8).
  - change 256 with (2 ^ 8). rewrite (Z.mul_comm (2 ^ 8)), Z.mul_pow2_bits_low by lia.
    apply andb_false_r.
  - apply (inw_testbit 8) in Ha as [_ Ha]; [|lia]. by rewrite Ha.
Qed.

Lemma s32_pit v : 0 <= v <= 65535 -> s32 v = v.
Proof. intros. apply s32_small. lia. Qed.

Lemma keeps_write_count f v : inw 8 v -> keeps (pit_write_count f v).
Proof.
  intros Hv. assert (0 <= v <= 255) by (unfold inw in Hv; lia).
  apply keeps_getd. intros s w Hs. rewrite u64_hi by done.
  assert (inw 8 (write_latch s)) as Hl by apply Hs.
  rewrite lor_hi by done. unfold inw in Hl. rewrite !s32_pit by lia.
  wp_step; [apply keeps_load_count; [lia|done]|].
  wp_step; [wp_run; ch_wf_tac|].
  wp_step; [|apply keeps_load_count; [lia|done]].
  apply keeps_bind; [apply keeps_load_count; lia| |done].
  intros _ s' w' Hs'. wp_run. ch_wf_tac.
Qed.

Lemma keeps_read_count f : keeps (pit_read_count f).
Proof.
  apply keeps_getd. intros s w Hs.
  wp_step; [wp_run; ch_wf_tac|].
  wp_step; [wp_run; ch_wf_tac|].
  wp_step. apply wp_get_count; [done|]. intros. wp_run; ch_wf_tac.
Qed.

Lemma keeps_reset_channel f i : keeps (pit_reset_channel f i).
Proof.
  intros s w Hs. unfold pit_reset_channel. wp_run; [|ch_wf_tac].
  match goal with |- wp (lift (pit_get_next_transition_time ?c ?t)) _ _ =>
    assert (ch_wf c) as Hc by ch_wf_tac;
    destruct (pit_next_time_ok c t Hc) as [e He] end.
  eapply wp_lift; [exact He|]. wp_run. ch_wf_tac.
Qed.

Lemma keeps_arm : keeps pit_arm.
Proof. intros s w Hs. unfold pit_arm. wp_run. ch_wf_tac. Qed.

(** From one channel to the device. *)
Definition pkeeps {A} (m : Dev PITCommonState A) : Prop :=
  forall p w, pit_wf p -> wp m (fun _ s' => pit_wf (fst s')) (p, w).

Lemma pkeeps_on_channel {A} i (m : Dev PITChannelState A) :
  (i < 3)%nat -> keeps m -> pkeeps (on_channel i m).
Proof.
  intros Hi Hm p w Hp. destruct Hp as [H3 HF Hirq].
  destruct (lookup_lt_is_Some_2 (channels p) i) as [c Hc]; [lia|].
  apply wp_on_dev with c; [done|].
  eapply wp_mono; [apply Hm; by eapply Forall_lookup_1|].
  intros a [c' w'] [Hc' Htimer]. cbn in *. constructor; cbn.
  - by rewrite length_insert.
  - by apply Forall_insert.
  - intros j cj Hj. rewrite list_lookup_insert. case_decide as E; [|by apply Hirq].
    destruct E as [<- _]. intros [= <-]. rewrite Htimer. by eapply Hirq.
Qed.

Lemma pkeeps_bind {A B} (m : Dev PITCommonState A) (k : A -> Dev PITCommonState B) :
  pkeeps m -> (forall a, pkeeps (k a)) -> pkeeps (m ≫= k).
Proof.
  intros Hm Hk p w Hp. apply wp_bind. eapply wp_mono; [by apply Hm|].
  intros a [p' w'] Hp'. by apply Hk.
Qed.

Lemma pkeeps_ret {A} (a : A) : pkeeps (mret a).
Proof. intros p w Hp. wp_run. done. Qed.

Lemma pkeeps_getd {B} (k : PITCommonState -> Dev PITCommonState B) :
  (forall p, pkeeps (k p)) -> pkeeps (getd ≫= k).
Proof. intros Hk p w Hp. wp_run. by apply Hk. Qed.

Lemma pkeeps_for_each (l : list nat) (body : nat -> Dev PITCommonState unit) :
  (forall i, In i l -> pkeeps (body i)) -> pkeeps (for_each l body).
Proof.
  intros Hb p w Hp.
  apply wp_for_each with (I := fun s => pit_wf (fst s)); [done| |done].
  intros i [p' w'] Hi Hp'. by apply Hb.
Qed.

Lemma in_012 i : In i [0; 1; 2]%nat -> (i < 3)%nat.
Proof. simpl. lia. Qed.

Lemma land3 x : 0 <= x .& 3 <= 3.
Proof. apply le3_inw. width. Qed.

Lemma pkeeps_ioport_write addr v : inw 8 v -> pkeeps (pit_ioport_write addr v).
Proof.
  intros Hv. apply pkeeps_getd. intros p0 p w Hp.
  pose proof (land3 addr). wp_step.
  - assert (0 <= v .>> 6 <= 3).
    { rewrite Z.shiftr_div_pow2 by lia. unfold inw in Hv.
      split; [apply Z.div_pos; lia|]. apply Z.lt_succ_r, Z.div_lt_upper_bound; lia. }
    rewrite s32_pit by lia. wp_step.
    + apply pkeeps_for_each; [|done]. intros i Hi%in_012.
      apply pkeeps_on_channel; [done|]. apply keeps_read_back.
    + wp_step; [lia|]. apply pkeeps_on_channel; [lia|apply keeps_control_word|done].
  - apply pkeeps_on_channel; [lia| |done]. by apply keeps_write_count.
Qed.

Lemma pkeeps_ioport_read addr : pkeeps (pit_ioport_read addr).
Proof.
  apply pkeeps_getd. intros p0 p w Hp. pose proof (land3 addr).
  wp_step; [by apply pkeeps_ret|].
  apply pkeeps_on_channel; [lia|apply keeps_read_count|done].
Qed.

Lemma pkeeps_irq_control n e : pkeeps (pit_irq_control n e).
Proof.
  apply pkeeps_getd. intros p0. apply pkeeps_on_channel; [lia|].
  intros s w Hs. wp_step; wp_run; [|ch_wf_tac].
  eapply wp_mono; [apply keeps_irq_timer_update; ch_wf_tac|]. done.
Qed.

Lemma pkeeps_post_load : pkeeps pit_post_load.
Proof.
  apply pkeeps_on_channel; [lia|]. intros s w Hs. wp_run; ch_wf_tac.
Qed.

Lemma pkeeps_timer_interrupt : pkeeps pit_timer_interrupt.
Proof.
  apply pkeeps_on_channel; [lia|]. intros s w Hs. unfold pit_irq_timer. wp_run.
  by apply keeps_irq_timer_update.
Qed.

Lemma pkeeps_exec o : pit_op_ok o -> pkeeps (pit_exec o).
Proof.
  destruct o as [port sz v|port sz| |n e|]; simpl; intros Ho.
  - apply pkeeps_bind; [|intros; apply pkeeps_ret].
    intros p w Hp. unfold i8254_port_out. wp_step; [by apply pkeeps_ret|].
    apply pkeeps_bind; [|intros; apply pkeeps_ret|done].
    apply pkeeps_ioport_write, Ho. lia.
  - apply pkeeps_bind; [|intros; apply pkeeps_ret].
    intros p w Hp. unfold i8254_port_in. wp_step; [by apply pkeeps_ret|].
    apply pkeeps_bind; [|intros; apply pkeeps_ret|done]. apply pkeeps_ioport_read.
  - apply pkeeps_timer_interrupt.
  - apply pkeeps_irq_control.
  - apply pkeeps_post_load.
Qed.

(** Before the reset the counts are zero; everything else is in range. *)
Definition ch_wf0 (s : PITChannelState) : Prop := ch_wf (s <| count := 1 |>).

Lemma reset_channel_wf f i s w :
  ch_wf0 s ->
  wp (pit_reset_channel f i)
     (fun _ s' => ch_wf (fst s') /\ irq_timer (fst s') = irq_timer s) (s, w).
Proof.
  intros Hs. unfold ch_wf0 in Hs. unfold pit_reset_channel. wp_run; [|ch_wf_tac].
  match goal with |- wp (lift (pit_get_next_transition_time ?c ?t)) _ _ =>
    assert (ch_wf c) as Hc by ch_wf_tac;
    destruct (pit_next_time_ok c t Hc) as [e He] end.
  eapply wp_lift; [exact He|]. wp_run. ch_wf_tac.
Qed.

(** In mode 0 the update needs no division. *)
Lemma irq_timer_update_mode0 t s w :
  mode s = 0 ->
  wp (pit_irq_timer_update t)
     (fun _ s' => exists n, fst s' = s <| next_transition_time := n |>) (s, w).
Proof.
  intros Hm. unfold pit_irq_timer_update. wp_run.
  { exists (next_transition_time s). by destruct s. }
  unfold pit_get_next_transition_time, pit_next_tick, pit_get_out, pit_out_at.
  rewrite Hm. cbn [one_of existsb Z.eqb Pos.eqb orb].
  eapply wp_lift; [reflexivity|]. wp_run. eapply wp_lift; [reflexivity|]. wp_run; eauto.
Qed.

(** The device after the three channels went through [pit_reset_channel]. *)
Lemma on_channel_list {A} i (m : Dev PITChannelState A) p w c Q :
  channels p !! i = Some c ->
  wp m (fun a s => Q a (set_channel i (fst s) p, snd s)) (c, w) ->
  wp (on_channel i m) Q (p, w).
Proof. intros. by eapply wp_on_dev. Qed.

Lemma pit_reset_wf c0 c1 c2 f w :
  Forall ch_wf0 [c0; c1; c2] -> irq_timer c1 = 0 -> irq_timer c2 = 0 ->
  wp pit_reset (fun _ s => pit_wf (fst s)) (mkPITCommonState [c0; c1; c2] f, w).
Proof.
  intros HF H1 H2. inversion_clear HF as [|? ? W0 HF'].
  inversion_clear HF' as [|? ? W1 HF'']. inversion_clear HF'' as [|? ? W2 _].
  unfold pit_reset, pit_reset_common. apply wp_bind. wp_step. wp_step.
  cbn [for_each tsc_frequency].
  do 3 (apply wp_bind; eapply on_channel_list; [reflexivity|];
        eapply wp_mono; [by apply reset_channel_wf|];
        intros [] [? ?] [? ?]; cbn).
  apply wp_ret. apply pkeeps_on_channel; [lia| |].
  - intros s w' Hs. wp_run; [apply keeps_arm|]; done.
  - cbn in *. constructor; cbn; [done|by auto using List.Forall_cons, List.Forall_nil|].
    intros [|[|[|?]]] c Hi [=]; subst; [lia|congruence..].
Qed.

Lemma pit_pre_init_wf w : wp pit_pre_init (fun _ s => pit_wf (fst s)) (pit_state_bss, w).
Proof.
  unfold pit_pre_init, pit_irq_control. wp_run.
  eapply on_channel_list; [done|]. wp_run.
  eapply on_channel_list; [done|]. wp_run.
  eapply wp_mono; [by apply irq_timer_update_mode0|].
  intros [] [s' w'] [n Hn]. cbn in Hn |- *. subst s'.
  apply pit_reset_wf; [|done..].
  repeat constructor; cbn; first [lia | width].
Qed.

(** A predicate that ignores [next_transition_time] survives a timer update. *)
Lemma pit_irq_timer_update_frame t s w (P : PITChannelState -> Prop) :
  ch_wf s -> P s -> (forall c n, P c -> P (c <| next_transition_time := n |>)) ->
  wp (pit_irq_timer_update t) (fun _ s' => P (fst s')) (s, w).
Proof.
  intros Hs HP Hext. unfold pit_irq_timer_update.
  destruct (pit_next_time_ok s t Hs) as [e He], (pit_get_out_ok s t Hs) as (b & Hb & _).
  wp_run; [done|]. eapply wp_lift; [exact He|].
  wp_step. eapply wp_lift; [exact Hb|]. wp_run; by apply Hext.
Qed.

(** ** Tick arithmetic *)

Lemma out_tick_eq s d :
  ch_wf s ->
  out_tick s d =
    if mode s =? 1 then b2z (d <? count s)
    else if mode s =? 2 then b2z ((d mod count s =? 0) && negb (d =? 0))
    else if mode s =? 3 then b2z (d mod count s <? (count s + 1) / 2)
    else if (mode s =? 4) || (mode s =? 5) then b2z (d =? count s)
    else b2z (count s <=? d).
Proof.
  intros Hs. unfold out_tick, pit_out_at, one_of. cbn [existsb].
  rewrite u64_count, umod_count, s32_count1 by done. rewrite !orb_false_r.
  rewrite Z.shiftr_div_pow2 by lia. change (2 ^ 1) with 2.
  rewrite (u64_small ((count s + 1) / 2)).
  - destruct (mode s =? 1), (mode s =? 2), (mode s =? 3), (mode s =? 4), (mode s =? 5);
      reflexivity.
  - destruct Hs. unfold inw. split; [apply Z.div_pos; lia|].
    apply Z.div_lt_upper_bound; lia.
Qed.

(** The closed form of [pit_next_tick] on the ticks that can occur. *)
Lemma pit_next_tick_eq {L : UtilsLaws U} s d :
  ch_wf s -> 0 <= d < 2 ^ 62 ->
  pit_next_tick s d = Ok (
    let c := count s in let r := d mod c in
    if mode s =? 2 then
      Some (d - r + (if (r =? 0) && negb (d =? 0) then c else c + 1))
    else if mode s =? 3 then
      Some (d - r + (if r <? (c + 1) / 2 then (c + 1) / 2 else c))
    else if (mode s =? 4) || (mode s =? 5) then
      if d <? c then Some c else if d =? c then Some (c + 1) else None
    else if d <? c then Some c else None).
Proof.
  intros Hs Hd. unfold pit_next_tick, one_of. cbn [existsb]. rewrite !orb_false_r.
  rewrite u64_count, s32_count1 by done. destruct Hs as [Hc].
  rewrite ROUND_DOWN_spec by lia.
  replace (d - (d - d mod count s)) with (d mod count s) by lia.
  pose proof (Z.mod_pos_bound d (count s) ltac:(lia)) as Hr.
  pose proof (Z.mod_le d (count s) ltac:(lia) ltac:(lia)).
  rewrite Z.shiftr_div_pow2 by lia. change (2 ^ 1) with 2.
  assert (0 <= (count s + 1) / 2 <= count s) as Hp.
  { split; [apply Z.div_pos; lia|]. apply Z.lt_succ_r, Z.div_lt_upper_bound; lia. }
  assert ((count s =? 0) = false) as -> by lia.
  rewrite !u64_small by (unfold inw; lia). cbn.
  repeat case_match; first [reflexivity | do 2 f_equal; lia].
Qed.

(** One half-period of the square wave of mode 3. *)
Lemma square_wave_next c d :
  2 <= c -> 0 <= d ->
  let h := (c + 1) / 2 in
  let n := d - d mod c + (if d mod c <? h then h else c) in
  d < n /\ (forall d', d <= d' < n -> b2z (d' mod c <? h) = b2z (d mod c <? h))
  /\ b2z (n mod c <? h) <> b2z (d mod c <? h).
Proof.
  intros Hc Hd h n.
  pose proof (Z.mod_pos_bound d c ltac:(lia)) as Hr.
  pose proof (Z.div_mod d c ltac:(lia)) as Ed.
  assert (0 < h < c) as Hh.
  { subst h. split; [apply Z.div_str_pos; lia|]. apply Z.div_lt_upper_bound; lia. }
  assert (forall x, d - d mod c <= x < d - d mod c + c ->
                    x mod c = x - (d - d mod c)) as Hmod.
  { intros x Hx. symmetry. apply (Z.mod_unique_pos _ _ (d / c)); lia. }
  subst n. destruct (Z.ltb_spec (d mod c) h).
  - split; [lia|]. split.
    + intros d' Hd'. rewrite Hmod by lia. unfold b2z. case_match; lia.
    + rewrite Hmod by lia. unfold b2z. case_match; lia.
  - split; [lia|]. split.
    + intros d' Hd'. rewrite Hmod by lia. unfold b2z. case_match; lia.
    + replace (d - d mod c + c) with (0 + (d / c + 1) * c) by lia.
      rewrite Z.mod_add, Z.mod_0_l by lia. unfold b2z. case_match; lia.
Qed.

(** ** Times *)

(** [t] is a plausible clock value (below 2^60 ns, over thirty years) at
    which the channel has already been loaded. *)
Definition loaded_before (s : PITChannelState) (t : Z) : Prop :=
  0 <= count_load_time s <= t /\ t < 2 ^ 60.

Lemma pit_ticks_range {L : UtilsLaws U} s t :
  loaded_before s t ->
  pit_ticks s t = (t - count_load_time s) * PIT_FREQ / NS_IN_S /\ 0 <= pit_ticks s t < 2 ^ 60.
Proof.
  intros [H1 H2]. unfold pit_ticks, PIT_FREQ, NS_IN_S.
  rewrite u64_small by (unfold inw; lia).
  assert (0 <= (t - count_load_time s) * 1193182 / 1000000000 < 2 ^ 60).
  { split; [apply Z.div_pos; lia|]. apply Z.div_lt_upper_bound; lia. }
  rewrite muldivu64_spec by (unfold inw; lia). done.
Qed.

Lemma pit_next_tick_bound {L : UtilsLaws U} s d n :
  ch_wf s -> 0 <= d < 2 ^ 60 -> pit_next_tick s d = Ok (Some n) -> 0 <= n <= d + 65537.
Proof.
  intros Hs Hd. rewrite pit_next_tick_eq by (done || lia). cbv zeta.
  destruct Hs as [Hc]. pose proof (Z.mod_pos_bound d (count s) ltac:(lia)).
  pose proof (Z.mod_le d (count s) ltac:(lia) ltac:(lia)).
  assert (0 <= (count s + 1) / 2 <= count s).
  { split; [apply Z.div_pos; lia|]. apply Z.lt_succ_r, Z.div_lt_upper_bound; lia. }
  intros [= E]. repeat case_match; simplify_eq; lia.
Qed.

(** The transition time is -1 or in the future, and -1 only if the waveform
    has ended. *)
Lemma pit_next_time_spec {L : UtilsLaws U} s t :
  ch_wf s -> loaded_before s t ->
  exists e, pit_get_next_transition_time s t = Ok e /\
    match pit_next_tick s (pit_ticks s t) with
    | Ok None => e = -1
    | _ => t < e < 2 ^ 62
    end.
Proof.
  intros Hs Ht. destruct (pit_ticks_range s t Ht) as [_ Hd].
  unfold pit_get_next_transition_time.
  destruct (pit_next_tick_ok s (pit_ticks s t) Hs) as [[n|] En]; rewrite En; cbn; [|eauto].
  apply pit_next_tick_bound in En as Hn; [|done..]. destruct Ht as [H1 H2].
  assert (n * NS_IN_S / PIT_FREQ < 2 ^ 61).
  { unfold NS_IN_S, PIT_FREQ. apply Z.div_lt_upper_bound; [lia|].
    destruct (pit_ticks_range s t (conj H1 H2)) as [Ed _].
    assert (pit_ticks s t * 1000000000 <= t * 1193182).
    { rewrite Ed. unfold PIT_FREQ, NS_IN_S.
      pose proof (Z.mul_div_le ((t - count_load_time s) * 1193182) 1000000000). lia. }
    lia. }
  assert (0 <= n * NS_IN_S / PIT_FREQ) by (apply Z.div_pos; unfold NS_IN_S, PIT_FREQ; lia).
  rewrite muldivu64_spec by (unfold inw, NS_IN_S, PIT_FREQ in *; lia).
  rewrite !u64_small by (unfold inw; lia).
  eexists; split; [reflexivity|].
  case_match; rewrite s64_small by lia; lia.
Qed.

(** What a timer update of a connected, enabled channel does. *)
Lemma pit_irq_timer_update_spec {L : UtilsLaws U} s t w :
  ch_wf s -> loaded_before s t -> irq_timer s <> 0 -> irq_disabled s = 0 ->
  exists e,
    pit_get_next_transition_time s t = Ok e /\
    pit_irq_timer_update t (s, w) =
      Ok (tt, (s <| next_transition_time := e |>,
               logged [SetIrqLevel TIMER_IRQ (out_tick s (pit_ticks s t));
                       if e =? -1 then TimerStop TIMER_PIT
                       else TimerOneshotAbs TIMER_PIT e] w)).
Proof.
  intros Hs Ht Hi Hd. destruct (pit_next_time_spec s t Hs Ht) as (e & He & _).
  exists e. split; [done|]. destruct (pit_get_out_ok s t Hs) as (b & Hb & _).
  unfold out_tick, pit_irq_timer_update, pit_get_out in *. unfold mbind, M_bind, getd, lift.
  cbn [fst snd]. assert (z2b (irq_timer s) = true) as ->.
  { unfold z2b. destruct (Z.eqb_spec (irq_timer s) 0); done. }
  rewrite Hd, He, Hb. cbn. unfold emit. destruct (e =? -1); cbn [negb fst snd]; by autorewrite with log.
Qed.

(** ** Properties *)

(** Safety of the whole device: after [pit_pre_init], any sequence of
    port accesses (reads, writes of bytes, accesses of a wrong size), timer
    callbacks, interrupt-control and reload events runs to completion -- no
    division by a zero count, no channel index out of range -- and ends in a
    state satisfying the invariant [pit_wf]. *)
Lemma pit_safe (ops : list pit_op) (w : World) :
  Forall pit_op_ok ops ->
  wp (pit_pre_init;; for_each ops pit_exec) (fun _ s => pit_wf (fst s))
     (pit_state_bss, w).
Proof.
  intros Hops. rewrite List.Forall_forall in Hops.
  apply wp_bind. eapply wp_mono; [apply pit_pre_init_wf|]. intros [] [p w'] Hp.
  apply wp_for_each with (I := fun s => pit_wf (fst s)); [done| |done].
  intros o [p' w''] Ho Hp'. by apply pkeeps_exec; [apply Hops|].
Qed.

(** The next pulse of mode 2, and where [pit_next_tick] puts the timer. *)
Lemma rate_generator_next c d :
  1 <= c -> 0 <= d ->
  let r := d - d mod c + c in
  d < r /\ b2z ((r mod c =? 0) && negb (r =? 0)) = 1 /\
  (forall d', d < d' < r -> b2z ((d' mod c =? 0) && negb (d' =? 0)) = 0).
Proof.
  intros Hc Hd r. subst r.
  pose proof (Z.mod_pos_bound d c ltac:(lia)) as Hr.
  pose proof (Z.mod_le d c ltac:(lia) ltac:(lia)).
  pose proof (Z.div_mod d c ltac:(lia)) as Ed.
  split_and!; [lia| |].
  - replace (d - d mod c + c) with (0 + (d / c + 1) * c) at 1 by lia.
    rewrite Z.mod_add, Z.mod_0_l by lia. unfold b2z. case_match; lia.
  - intros d' Hd'. assert (d' mod c = d' - (d - d mod c)) as ->.
    { symmetry. apply (Z.mod_unique_pos _ _ (d / c)); lia. }
    unfold b2z. case_match; lia.
Qed.

(** C19 -- For every mode and count a guest can program,
    [pit_get_next_transition_time] computes a tick from the elapsed tick [d]
    as follows. In every mode but the two cases below it is exactly the next
    change of the output waveform of [pit_get_out]: the output is constant up
    to the tick it returns and different there, and it returns -1 exactly when
    the output never changes again. In the rate generator (mode 2) it is the
    next output pulse -- the first later tick [r] at which the output is
    high -- while the output is high, and the tick after that pulse while the
    output is low. In a square wave (mode 3) of count 1 the output is always
    high and the tick returned is the next one. *)
Theorem pit_next_tick_exact {L : UtilsLaws U} (s : PITChannelState) (d : Z) :
  ch_wf s -> 0 <= d < 2 ^ 62 ->
  if mode s =? 2 then
    exists r, d < r /\ out_tick s r = 1 /\ (forall d', d < d' < r -> out_tick s d' = 0)
      /\ pit_next_tick s d = Ok (Some (if out_tick s d =? 1 then r else r + 1))
  else if (mode s =? 3) && (count s =? 1) then
    pit_next_tick s d = Ok (Some (d + 1)) /\ forall d', out_tick s d' = 1
  else
    match pit_next_tick s d with
    | Ok (Some n) =>
        d < n /\ (forall d', d <= d' < n -> out_tick s d' = out_tick s d)
        /\ out_tick s n <> out_tick s d
    | Ok None => forall d', d <= d' -> out_tick s d' = out_tick s d
    | Fault _ => False
    end.
Proof.
  intros Hs Hd. rewrite pit_next_tick_eq by done. cbv zeta.
  pose proof (fun x => out_tick_eq s x Hs) as E. pose proof (wf_count _ Hs) as Hc.
  destruct (Z.eqb_spec (mode s) 2) as [E2|E2].
  - assert ((mode s =? 1) = false) as Hm1 by lia. rewrite Hm1 in E.
    destruct (rate_generator_next (count s) d) as (H1 & H2 & H3); [lia..|].
    exists (d - d mod count s + count s). rewrite E. setoid_rewrite E.
    split_and!; [done..|]. unfold b2z. repeat case_match; do 2 f_equal; lia.
  - destruct (Z.eqb_spec (mode s) 3) as [E3|E3]; cbn [andb].
    + assert ((mode s =? 1) = false) as Hm1 by lia. rewrite Hm1 in E.
      destruct (Z.eqb_spec (count s) 1) as [E1|?]; setoid_rewrite E.
      * rewrite E1. split; [|intros d']; rewrite Z.mod_1_r; [|done].
        change ((1 + 1) / 2) with 1. change (0 <? 1) with true. cbn [Z.sub]. do 2 f_equal. lia.
      * apply square_wave_next; lia.
    + destruct ((mode s =? 4) || (mode s =? 5)) eqn:E45; repeat case_match;
        simplify_eq; setoid_rewrite E; repeat split; intros; unfold b2z; repeat case_match; lia.
Qed.

(** The timer chain of the square-wave and rate-generator modes never
    stops: an expiry callback of the enabled channel 0 sets the interrupt line
    to the waveform's output and re-arms the one-shot timer at a time strictly
    after the expiry it serves. *)
Lemma pit_chain_rearms {L : UtilsLaws U} (s : PITChannelState) (w : World) :
  ch_wf s -> loaded_before s (next_transition_time s) ->
  irq_timer s <> 0 -> irq_disabled s = 0 -> mode s = 2 \/ mode s = 3 ->
  exists e, next_transition_time s < e /\
    pit_irq_timer (s, w) =
      Ok (tt, (s <| next_transition_time := e |>,
               logged [SetIrqLevel TIMER_IRQ
                         (out_tick s (pit_ticks s (next_transition_time s)));
                       TimerOneshotAbs TIMER_PIT e] w)).
Proof.
  intros Hs Ht Hi Hd Hm.
  destruct (pit_irq_timer_update_spec s _ w Hs Ht Hi Hd) as (e & He & Hrun).
  destruct (pit_next_time_spec s _ Hs Ht) as (e' & He' & Hfut).
  assert (e' = e) as -> by congruence.
  destruct (pit_ticks_range s _ Ht) as [_ Hr].
  rewrite pit_next_tick_eq in Hfut by (done || lia). cbv zeta in Hfut.
  assert (next_transition_time s < e < 2 ^ 62) as He''.
  { destruct Hm as [Hm|Hm]; rewrite Hm in Hfut; exact Hfut. }
  destruct Ht. exists e. split; [lia|].
  assert ((e =? -1) = false) as E by lia. rewrite E in Hrun. exact Hrun.
Qed.

(** The counter latch: after a latch command of a channel in word mode,
    two reads of the data port return the low and the high byte of the count
    at the time of the latch, whatever time passes between them; a second
    latch command in between is ignored; and only the latch register of the
    channel changes. *)
Lemma pit_latch_coherent (f : Z) (s : PITChannelState) (w : World) :
  ch_wf s -> rw_mode s = RW_STATE_WORD0 -> count_latched s = 0 -> status_latched s = 0 ->
  wp (pit_latch_count f;;
      lo ← pit_read_count f;
      pit_latch_count f;;
      hi ← pit_read_count f;
      mret (lo + 256 * hi))
     (fun v s' => exists t c,
        pit_counter s (pit_ticks s t) = Ok c /\ v = u16 c /\
        fst s' = s <| latched_count := u16 c |> /\ w_log (snd s') = w_log w)
     (s, w).
Proof.
  intros Hs Hrw Hcl Hsl. wp_step.
  apply wp_latch_count_free; [done..|]. intros c t w' Hc Hlog.
  wp_step. apply wp_read_latched_word; [done..|]. wp_step.
  apply wp_latch_count_busy; [done|]. wp_step.
  apply wp_read_latched_msb; [done..|]. apply wp_ret.
  exists t, c. split_and!; [done| | |done]; cbn.
  - rewrite Z.shiftr_div_pow2, (Z.land_ones _ 8) by lia.
    pose proof (Z.div_mod (u16 c) (2 ^ 8)). lia.
  - destruct s; cbn in *; by subst.
Qed.

(** Loading a count: a control word selecting word access followed by
    two data-port writes leaves the channel programmed with that mode, ready
    for the next word, and counting from [lo + 256 * hi], a zero standing for
    65536. *)
Lemma pit_load_word (f cw lo hi : Z) (s : PITChannelState) (w : World) :
  ch_wf s -> (cw .>> 4) .& 3 = 3 -> inw 8 lo -> inw 8 hi ->
  wp (pit_control_word f cw;; pit_write_count f lo;; pit_write_count f hi)
     (fun _ s' =>
        count (fst s') = (if lo + 256 * hi =? 0 then 65536 else lo + 256 * hi) /\
        mode (fst s') = (cw .>> 1) .& 7 /\ rw_mode (fst s') = RW_STATE_WORD0 /\
        write_state (fst s') = RW_STATE_WORD0)
     (s, w).
Proof.
  intros Hs Hacc Hlo Hhi.
  unfold pit_control_word, pit_write_count. rewrite Hacc. cbn [Z.eqb].
  wp_run; cbn in *; try discriminate.
  unfold pit_load_count. wp_run. rewrite u64_hi, lor_hi by (done || width).
  rewrite u8_small by done. unfold inw in Hlo, Hhi.
  rewrite s32_pit by lia. replace (lo + hi * 256) with (lo + 256 * hi) by lia.
  eapply wp_mono.
  - apply (pit_irq_timer_update_frame _ _ _
      (fun c => mode c = (cw .>> 1) .& 7 /\ rw_mode c = 3 /\
                count c = if lo + 256 * hi =? 0 then 65536 else lo + 256 * hi)); cbn.
    + destruct (Z.eqb_spec (lo + 256 * hi) 0); ch_wf_tac.
    + done.
    + naive_solver.
  - intros [] [s' w'] (? & ? & ?). wp_run. done.
Qed.

(** Accesses of the i8254 ports of a size other than one byte are
    reported as errors and touch neither the timer nor the world. *)
Lemma pit_bad_size (port size value : Z) (p : PITCommonState) (w : World) :
  size <> 1 ->
  i8254_port_in port size (p, w) = Ok ((IO_FAULT_ERROR, None), (p, w)) /\
  i8254_port_out port size value (p, w) = Ok (IO_FAULT_ERROR, (p, w)).
Proof.
  intros Hsz. unfold i8254_port_in, i8254_port_out.
  by destruct (Z.eqb_spec size 1).
Qed.

End PIT.

(** ** Concrete runs, with the reference utilities *)

#[local] Existing Instance utils_ref.

(** A channel 0 programmed as Linux does: square wave, word access, 1000 Hz. *)
Definition channel_demo : PITChannelState :=
  channel_bss <| count := 1193 |> <| mode := 3 |> <| rw_mode := 3 |>
    <| read_state := 3 |> <| write_state := 3 |> <| irq_timer := 1 |>
    <| next_transition_time := 500000 |>.

Lemma channel_demo_wf : ch_wf channel_demo.
Proof. constructor; cbn; first [lia | width]. Qed.

Lemma pit_safe_witness :
  wp (pit_pre_init;;
      for_each [PitOut 0x43 1 0x36; PitOut 0x40 1 0xa9; PitOut 0x40 1 0x04; PitTimer;
                PitIn 0x40 1; PitIn 0x40 4; PitOut 0x43 1 0xc2] pit_exec)
     (fun _ s => pit_wf (fst s)) (pit_state_bss, world0).
Proof.
  apply pit_safe. repeat (apply List.Forall_cons; [simpl; intros; first [width | lia | done]|]).
  apply List.Forall_nil.
Defined.

(** The square wave, the rate generator and the square wave of count 1. *)
Lemma pit_next_tick_exact_witness :
  (exists n, pit_next_tick channel_demo 700 = Ok (Some n) /\
     700 < n /\ (forall d', 700 <= d' < n -> out_tick channel_demo d' = out_tick channel_demo 700)
     /\ out_tick channel_demo n <> out_tick channel_demo 700)
  /\ (exists r, 1193 < r /\ out_tick (channel_demo <| mode := 2 |>) r = 1 /\
       pit_next_tick (channel_demo <| mode := 2 |>) 1193 = Ok (Some r))
  /\ pit_next_tick (channel_demo <| count := 1 |>) 5 = Ok (Some 6).
Proof.
  split; [|split].
  - pose proof (pit_next_tick_exact channel_demo 700 channel_demo_wf ltac:(lia)) as H.
    exists 1193. split; [reflexivity|]. exact H.
  - assert (ch_wf (channel_demo <| mode := 2 |>)) as Hw by (constructor; cbn; first [lia | width]).
    destruct (pit_next_tick_exact _ 1193 Hw ltac:(lia)) as (r & H1 & H2 & _ & H3).
    exists r. split_and!; [exact H1|exact H2|exact H3].
  - assert (ch_wf (channel_demo <| count := 1 |>)) as Hw by (constructor; cbn; first [lia | width]).
    exact (proj1 (pit_next_tick_exact _ 5 Hw ltac:(lia))).
Defined.

Lemma pit_chain_rearms_witness :
  exists e, 500000 < e /\
    pit_irq_timer (channel_demo, world0) =
      Ok (tt, (channel_demo <| next_transition_time := e |>,
               logged [SetIrqLevel TIMER_IRQ (out_tick channel_demo
                         (pit_ticks channel_demo 500000));
                       TimerOneshotAbs TIMER_PIT e] world0)).
Proof.
  apply (pit_chain_rearms channel_demo world0);
    [apply channel_demo_wf | split; cbn; lia | cbn; lia | done | right; done].
Defined.

Lemma pit_latch_coherent_witness :
  wp (pit_latch_count 1000000000;;
      lo ← pit_read_count 1000000000;
      pit_latch_count 1000000000;;
      hi ← pit_read_count 1000000000;
      mret (lo + 256 * hi))
     (fun v s' => exists t c,
        pit_counter channel_demo (pit_ticks channel_demo t) = Ok c /\ v = u16 c /\
        fst s' = channel_demo <| latched_count := u16 c |> /\
        w_log (snd s') = w_log world0)
     (channel_demo, world0).
Proof. apply pit_latch_coherent; [apply channel_demo_wf|reflexivity..]. Defined.

Lemma pit_load_word_witness :
  wp (pit_control_word 0 0x36;; pit_write_count 0 0xa9;;
      pit_write_count 0 0x04)
     (fun _ s' => count (fst s') = 1193 /\ mode (fst s') = 3 /\
        rw_mode (fst s') = RW_STATE_WORD0 /\ write_state (fst s') = RW_STATE_WORD0)
     (channel_demo, world0).
Proof.
  apply (pit_load_word 0 0x36 0xa9 0x04 channel_demo world0);
    [apply channel_demo_wf|reflexivity|width..].
Defined.

Lemma pit_bad_size_witness :
  i8254_port_in 0x40 4 (pit_state_bss, world0)
    = Ok ((IO_FAULT_ERROR, None), (pit_state_bss, world0)) /\
  i8254_port_out 0x40 4 0 (pit_state_bss, world0)
    = Ok (IO_FAULT_ERROR, (pit_state_bss, world0)).
Proof. apply pit_bad_size. lia. Defined.
