(* ===== verification/Mc146818.v ===== *)
(** * The MC146818 real-time clock (components/Init/src/mc146818rtc.c)

    [RTCState] is the C struct; registers live in [cmos_data].  The fields of
    the platform library's [rtc_time_date_t] have a width the repository does
    not fix, so what an assignment stores in them is a parameter
    ([RtcTimeDate]), with the law that ordinary calendar values are stored
    unchanged.  The theorems: the 96-bit [muldiv64]; safety of every handler
    for byte-sized accesses; the calendar step of [rtc_next_second] against
    seconds on the proleptic Gregorian calendar; the BCD and time-register
    round trips; the periodic-timer grid; acknowledging register C; and the
    two-phase second update. *)

From S2P Require Import Prelude.

(** timers.h and virtio_irq.h *)
Definition TIMER_PERIODIC_TIMER : Z := 1.
Definition TIMER_COALESCED_TIMER : Z := 2.
Definition TIMER_SECOND_TIMER : Z := 3.
Definition TIMER_SECOND_TIMER2 : Z := 4.
Definition RTC_IRQ : Z := 8.

Definition RTC_REINJECT_ON_ACK_COUNT : Z := 20.
Definition RTC_SECONDS : Z := 0.
Definition RTC_SECONDS_ALARM : Z := 1.
Definition RTC_MINUTES : Z := 2.
Definition RTC_MINUTES_ALARM : Z := 3.
Definition RTC_HOURS : Z := 4.
Definition RTC_HOURS_ALARM : Z := 5.
Definition RTC_DAY_OF_WEEK : Z := 6.
Definition RTC_DAY_OF_MONTH : Z := 7.
Definition RTC_MONTH : Z := 8.
Definition RTC_YEAR : Z := 9.
Definition RTC_REG_A : Z := 10.
Definition RTC_REG_B : Z := 11.
Definition RTC_REG_C : Z := 12.
Definition RTC_REG_D : Z := 13.
Definition REG_A_UIP : Z := 0x80.
Definition REG_B_SET : Z := 0x80.
Definition REG_B_PIE : Z := 0x40.
Definition REG_B_AIE : Z := 0x20.
Definition REG_B_UIE : Z := 0x10.
Definition REG_B_SQWE : Z := 0x08.
Definition REG_B_DM : Z := 0x04.
Definition REG_B_24H : Z := 0x02.
Definition REG_C_UF : Z := 0x10.
Definition REG_C_IRQF : Z := 0x80.
Definition REG_C_PF : Z := 0x40.
Definition REG_C_AF : Z := 0x20.
Definition REG_IBM_CENTURY_BYTE : Z := 0x32.
Definition REG_IBM_PS2_CENTURY_BYTE : Z := 0x37.

(** What assigning an [int] to a field of [rtc_time_date_t] stores, and the
    value of an [int] expression in which the [year] field takes part. *)
Class RtcTimeDate := {
  st_second : Z -> Z; st_minute : Z -> Z; st_hour : Z -> Z;
  st_day : Z -> Z; st_month : Z -> Z; st_year : Z -> Z;
  arith_year : Z -> Z }.

Class RtcTimeDateLaws (T : RtcTimeDate) : Prop := {
  st_second_ok v : 0 <= v < 128 -> st_second v = v;
  st_minute_ok v : 0 <= v < 128 -> st_minute v = v;
  st_hour_ok v : 0 <= v < 128 -> st_hour v = v;
  st_day_ok v : 0 <= v < 128 -> st_day v = v;
  st_month_ok v : 0 <= v < 128 -> st_month v = v;
  st_year_ok v : 0 <= v < 10000 -> st_year v = v;
  arith_year_ok v : 0 <= v < 10000 -> arith_year v = v }.

(** One choice satisfying the laws: bytes, and an [int] year. *)
Definition rtc_time_date_ref : RtcTimeDate :=
  {| st_second := u8; st_minute := u8; st_hour := u8; st_day := u8;
     st_month := u8; st_year := s32; arith_year := s32 |}.

Record RTCState := mkRTCState {
  cmos_data : list Z;                (* uint8_t [128] *)
  cmos_index : Z;                    (* uint8_t *)
  current_tm : rtc_time_date;
  base_year : Z;                     (* int32_t *)
  it_shift : Z;                      (* int *)
  next_periodic_time : Z;            (* int64_t *)
  next_second_time : Z;              (* int64_t *)
  irq_reinject_on_ack_count : Z;     (* uint16_t *)
  irq_coalesced : Z;                 (* uint32_t *)
  period : Z                         (* uint32_t *) }.
#[export] Instance eta_RTCState : Eta RTCState := fun s =>
  mkRTCState (cmos_data s) (cmos_index s) (current_tm s) (base_year s) (it_shift s)
    (next_periodic_time s) (next_second_time s) (irq_reinject_on_ack_count s)
    (irq_coalesced s) (period s).

(** The zero-initialised static [rtc_state]. *)
Definition rtc_state_bss : RTCState :=
  mkRTCState (repeat 0 128) 0 (mkRtcTimeDate 0 0 0 0 0 0) 0 0 0 0 0 0 0.

(** [s->cmos_data[i]] and [s->cmos_data[i] = v] for the indexes the source
    writes as constants, all below 128; an access at a computed index is
    [cmos_get] and [cmos_put] below. *)
Definition reg (s : RTCState) (i : Z) : Z := arr (cmos_data s) i.
Definition set_reg (i v : Z) (s : RTCState) : RTCState :=
  s <| cmos_data := arr_set (cmos_data s) i (u8 v) |>.

(** static int rtc_td_hack = 0; nothing writes it *)
Definition rtc_td_hack : Z := 0.

Definition get_ticks_per_sec : Z := 1000000000.

(** compute with 96 bit intermediate result: (a*b)/c, on the two halves *)
Definition muldiv64 (a b c : Z) : Z :=
  let low := a mod 2 ^ 32 in
  let high := a / 2 ^ 32 in
  let rl := u64 (low * b) in
  let rh := u64 (u64 (high * b) + (rl .>> 32)) in
  let res_high := u32 (rh / c) in
  let res_low := u32 (u64 (u64 ((rh mod c) .<< 32) + (rl .& 0xffffffff)) / c) in
  res_high * 2 ^ 32 + res_low.

Definition rtc_to_bcd (s : RTCState) (a : Z) : Z :=
  if tst (reg s RTC_REG_B) REG_B_DM then a
  else ((Z.quot a 10) .<< 4) .| (Z.rem a 10).

Definition rtc_from_bcd (s : RTCState) (a : Z) : Z :=
  if tst (reg s RTC_REG_B) REG_B_DM then a
  else ((a .>> 4) * 10) + (a .& 0x0f).

Definition days_tab : list Z := [31; 28; 31; 30; 31; 30; 31; 31; 30; 31; 30; 31].

(** month is between 0 and 11. *)
Definition get_days_in_month (month year : Z) : Z :=
  if 12 <=? u32 month then 31
  else
    let d := arr days_tab month in
    if month =? 1 then
      if (Z.rem year 4 =? 0) && (negb (Z.rem year 100 =? 0) || (Z.rem year 400 =? 0))
      then d + 1 else d
    else d.

(** [s->cmos_data[i]] and [s->cmos_data[i] = v] at a computed index. *)
Definition cmos_get (i : Z) : Dev RTCState Z :=
  if (0 <=? i) && (i <? 128) then s ← getd; mret (reg s i) else fail OutOfBounds.
Definition cmos_put (i v : Z) : Dev RTCState unit :=
  if (0 <=? i) && (i <? 128) then modd (set_reg i v) else fail OutOfBounds.

Create HintDb rtc discriminated.

Section RTC.
Context {U : Utils} {T : RtcTimeDate}.

Definition rtc_coalesced_timer_update : Dev RTCState unit :=
  s ← getd;
  if irq_coalesced s =? 0 then emit (TimerStop TIMER_COALESCED_TIMER)
  else
    (* divide each RTC interval to 2 - 8 smaller intervals *)
    let c := MIN (irq_coalesced s) 7 + 1 in
    now ← init_timer_time;
    per ← lift (udiv (period s) c);
    let next_clock := s64 (u64 (now + muldiv64 per get_ticks_per_sec 32768)) in
    emit (TimerOneshotAbs TIMER_COALESCED_TIMER next_clock).

Definition rtc_coalesced_timer : Dev RTCState unit :=
  s ← getd;
  when (negb (irq_coalesced s =? 0))
    (modd (fun s => set_reg RTC_REG_C (reg s RTC_REG_C .| 0xc0) s);;
     emit (SetIrqLevel RTC_IRQ 1));;
  rtc_coalesced_timer_update.

Definition rtc_timer_update (current_time : Z) : Dev RTCState unit :=
  s ← getd;
  let period_code := reg s RTC_REG_A .& 0x0f in
  if negb (period_code =? 0)
     && (tst (reg s RTC_REG_B) REG_B_PIE || (tst (reg s RTC_REG_B) REG_B_SQWE && false))
  then
    let period_code := if period_code <=? 2 then period_code + 7 else period_code in
    (* period in 32 Khz cycles *)
    let per := 1 .<< (period_code - 1) in
    when (negb (per =? period s))
      (q ← lift (udiv (u32 (irq_coalesced s * period s)) per);
       modd (fun s => s <| irq_coalesced := q |>));;
    modd (fun s => s <| period := per |>);;
    (* compute 32 khz clock *)
    let cur_clock := s64 (muldiv64 (u64 current_time) 32768 get_ticks_per_sec) in
    let next_irq_clock := s64 ((cur_clock .& .~ (per - 1)) + per) in
    let next := s64 (u64 (muldiv64 (u64 next_irq_clock) get_ticks_per_sec 32768 + 1)) in
    modd (fun s => s <| next_periodic_time := next |>);;
    emit (TimerOneshotAbs TIMER_PERIODIC_TIMER next)
  else
    modd (fun s => s <| irq_coalesced := 0 |>);;
    emit (TimerStop TIMER_PERIODIC_TIMER).

Definition rtc_periodic_timer : Dev RTCState unit :=
  s ← getd;
  rtc_timer_update (next_periodic_time s);;
  s ← getd;
  when (tst (reg s RTC_REG_B) REG_B_PIE)
    (modd (fun s => set_reg RTC_REG_C (reg s RTC_REG_C .| 0xc0) s);;
     if z2b rtc_td_hack then
       modd (fun s => if RTC_REINJECT_ON_ACK_COUNT <=? irq_reinject_on_ack_count s
                      then s <| irq_reinject_on_ack_count := 0 |> else s);;
       emit (SetIrqLevel RTC_IRQ 1)
     else emit (SetIrqLevel RTC_IRQ 1));;
  when (tst (reg s RTC_REG_B) REG_B_SQWE) (emit (SetIrqLevel RTC_IRQ 1)).

Definition rtc_set_time (s : RTCState) : RTCState :=
  let h := st_hour (rtc_from_bcd s (reg s RTC_HOURS .& 0x7f)) in
  s <| current_tm := mkRtcTimeDate
         (st_second (rtc_from_bcd s (reg s RTC_SECONDS)))
         (st_minute (rtc_from_bcd s (reg s RTC_MINUTES)))
         (if negb (tst (reg s RTC_REG_B) REG_B_24H) && tst (reg s RTC_HOURS) 0x80
          then st_hour (h + 12) else h)
         (st_day (rtc_from_bcd s (reg s RTC_DAY_OF_MONTH)))
         (st_month (rtc_from_bcd s (reg s RTC_MONTH) - 1))
         (st_year (rtc_from_bcd s (reg s RTC_YEAR) + base_year s - 1900)) |>.

(** The hour register in 12 or 24 hour format. *)
Definition rtc_copy_hour (s : RTCState) : RTCState :=
  let tm := current_tm s in
  if tst (reg s RTC_REG_B) REG_B_24H then set_reg RTC_HOURS (rtc_to_bcd s (hour tm)) s
  else
    let s := set_reg RTC_HOURS (rtc_to_bcd s (Z.rem (hour tm) 12)) s in
    if 12 <=? hour tm then set_reg RTC_HOURS (reg s RTC_HOURS .| 0x80) s else s.

(** The two-digit year the year register shows. *)
Definition rtc_copy_year (s : RTCState) : Z :=
  let year := s32 (Z.rem (arith_year (year (current_tm s) - base_year s)) 100) in
  if year <? 0 then year + 100 else year.

Definition rtc_copy_date (s : RTCState) : RTCState :=
  let s := set_reg RTC_SECONDS (rtc_to_bcd s (second (current_tm s))) s in
  let s := set_reg RTC_MINUTES (rtc_to_bcd s (minute (current_tm s))) s in
  let s := rtc_copy_hour s in
  let s := set_reg RTC_DAY_OF_MONTH (rtc_to_bcd s (day (current_tm s))) s in
  let s := set_reg RTC_MONTH (rtc_to_bcd s (month (current_tm s))) s in
  set_reg RTC_YEAR (rtc_to_bcd s (rtc_copy_year s)) s.

Definition cmos_write_reg_a (data : Z) : Dev RTCState unit :=
  (* UIP bit is read only *)
  modd (fun s => set_reg RTC_REG_A ((data .& .~ REG_A_UIP)
                                    .| (reg s RTC_REG_A .& REG_A_UIP)) s);;
  now ← init_timer_time;
  rtc_timer_update (s64 now).

Definition cmos_write_reg_b (data : Z) : Dev RTCState unit :=
  s ← getd;
  (if tst data REG_B_SET then
     (* set mode: reset UIP mode *)
     modd (fun s => set_reg RTC_REG_A (reg s RTC_REG_A .& .~ REG_A_UIP) s)
   else
     (* if disabling set mode, update the time *)
     when (tst (reg s RTC_REG_B) REG_B_SET) (modd rtc_set_time));;
  let data := if tst data REG_B_SET then data .& .~ REG_B_UIE else data in
  s ← getd;
  (if tst (reg s RTC_REG_B .^ data) (REG_B_DM .| REG_B_24H) && negb (tst data REG_B_SET)
   then
     (* the time format has changed and not in set mode: update the
        registers immediately *)
     modd (fun s => rtc_copy_date (set_reg RTC_REG_B data s))
   else modd (set_reg RTC_REG_B data));;
  now ← init_timer_time;
  rtc_timer_update (s64 now).

Definition cmos_ioport_write (addr data : Z) : Dev RTCState unit :=
  if addr .& 1 =? 0 then modd (fun s => s <| cmos_index := data .& 0x7f |>)
  else
    s ← getd;
    let i := cmos_index s in
    if one_of i [RTC_SECONDS_ALARM; RTC_MINUTES_ALARM; RTC_HOURS_ALARM] then
      cmos_put i data
    else if one_of i [RTC_SECONDS; RTC_MINUTES; RTC_HOURS; RTC_DAY_OF_WEEK;
                      RTC_DAY_OF_MONTH; RTC_MONTH; RTC_YEAR] then
      cmos_put i data;;
      s ← getd;
      (* if in set mode, do not update the time *)
      when (negb (tst (reg s RTC_REG_B) REG_B_SET)) (modd rtc_set_time)
    else if one_of i [RTC_REG_A] then cmos_write_reg_a data
    else if one_of i [RTC_REG_B] then cmos_write_reg_b data
    else if one_of i [RTC_REG_C; RTC_REG_D] then mret tt   (* cannot write to them *)
    else cmos_put i data.

(** update 'tm' to the next second *)
Definition rtc_next_second (tm : rtc_time_date) : rtc_time_date :=
  let tm := tm <| second := st_second (second tm + 1) |> in
  if 60 <=? u32 (second tm) then
    let tm := tm <| second := st_second 0 |> in
    let tm := tm <| minute := st_minute (minute tm + 1) |> in
    if 60 <=? u32 (minute tm) then
      let tm := tm <| minute := st_minute 0 |> in
      let tm := tm <| hour := st_hour (hour tm + 1) |> in
      if 24 <=? u32 (hour tm) then
        let tm := tm <| hour := st_hour 0 |> in
        (* next day *)
        let days_in_month :=
          get_days_in_month (month tm) (arith_year (year tm + 1900)) in
        let tm := tm <| day := st_day (day tm + 1) |> in
        if day tm <? 1 then tm <| day := st_day 1 |>
        else if days_in_month <? day tm then
          let tm := tm <| day := st_day 1 |> in
          let tm := tm <| month := st_month (month tm + 1) |> in
          if 12 <=? month tm then
            let tm := tm <| month := st_month 0 |> in
            tm <| year := st_year (year tm + 1) |>
          else tm
        else tm
      else tm
    else tm
  else tm.

Definition rtc_update_second : Dev RTCState unit :=
  s ← getd;
  (* if the oscillator is not in normal operation, we do not update *)
  if negb (reg s RTC_REG_A .& 0x70 =? 0x20) then
    modd (fun s => s <| next_second_time := s64 (next_second_time s + get_ticks_per_sec) |>);;
    s ← getd;
    emit (TimerOneshotAbs TIMER_SECOND_TIMER (next_second_time s))
  else
    modd (fun s => s <| current_tm := rtc_next_second (current_tm s) |>);;
    s ← getd;
    (* update in progress bit *)
    when (negb (tst (reg s RTC_REG_B) REG_B_SET))
      (modd (fun s => set_reg RTC_REG_A (reg s RTC_REG_A .| REG_A_UIP) s));;
    let delay := Z.quot (get_ticks_per_sec * 1) 100 in
    let delay := if delay <? 1 then 1 else delay in
    s ← getd;
    emit (TimerOneshotAbs TIMER_SECOND_TIMER2 (s64 (next_second_time s + delay))).

(** One alarm register against the current value: don't care, or equal. *)
Definition alarm_match (s : RTCState) (i v : Z) : bool :=
  (reg s i .& 0xc0 =? 0xc0) || (rtc_from_bcd s (reg s i) =? v).

(** rtc_update_second2: check alarm *)
Definition rtc_check_alarm : Dev RTCState unit :=
  s ← getd;
  when (tst (reg s RTC_REG_B) REG_B_AIE)
    (when (alarm_match s RTC_SECONDS_ALARM (second (current_tm s))
           && alarm_match s RTC_MINUTES_ALARM (minute (current_tm s))
           && alarm_match s RTC_HOURS_ALARM (hour (current_tm s)))
       (modd (fun s => set_reg RTC_REG_C (reg s RTC_REG_C .| 0xa0) s);;
        emit (SetIrqLevel RTC_IRQ 1))).

(** rtc_update_second2: update ended interrupt *)
Definition rtc_update_ended : Dev RTCState unit :=
  modd (fun s => set_reg RTC_REG_C (reg s RTC_REG_C .| REG_C_UF) s);;
  s ← getd;
  when (tst (reg s RTC_REG_B) REG_B_UIE)
    (modd (fun s => set_reg RTC_REG_C (reg s RTC_REG_C .| REG_C_IRQF) s);;
     emit (SetIrqLevel RTC_IRQ 1)).

Definition rtc_update_second2 : Dev RTCState unit :=
  s ← getd;
  when (negb (tst (reg s RTC_REG_B) REG_B_SET)) (modd rtc_copy_date);;
  rtc_check_alarm;;
  rtc_update_ended;;
  (* clear update in progress bit *)
  modd (fun s => set_reg RTC_REG_A (reg s RTC_REG_A .& .~ REG_A_UIP) s);;
  modd (fun s => s <| next_second_time := s64 (next_second_time s + get_ticks_per_sec) |>);;
  s ← getd;
  emit (TimerOneshotAbs TIMER_SECOND_TIMER (next_second_time s)).

Definition cmos_ioport_read (addr : Z) : Dev RTCState Z :=
  if addr .& 1 =? 0 then mret 0xff
  else
    s ← getd;
    if cmos_index s =? RTC_REG_C then
      let ret := reg s RTC_REG_C in
      emit (SetIrqLevel RTC_IRQ 0);;
      (if negb (irq_coalesced s =? 0)
          && (irq_reinject_on_ack_count s <? RTC_REINJECT_ON_ACK_COUNT) then
         modd (fun s => s <| irq_reinject_on_ack_count :=
                            u16 (irq_reinject_on_ack_count s + 1) |>);;
         emit (SetIrqLevel RTC_IRQ 1)
       else modd (set_reg RTC_REG_C 0));;
      mret ret
    else cmos_get (cmos_index s).

Definition rtc_set_memory (addr val : Z) : Dev RTCState unit :=
  when ((0 <=? addr) && (addr <=? 127)) (cmos_put addr val).

Definition rtc_set_date (tm : rtc_time_date) (s : RTCState) : RTCState :=
  rtc_copy_date (s <| current_tm := tm |>).

Definition rtc_set_date_from_host : Dev RTCState unit :=
  (* set the CMOS date *)
  tm ← system_rtc_time_date;
  modd (rtc_set_date tm);;
  s ← getd;
  let val := rtc_to_bcd s (Z.quot (arith_year (year tm)) 100 + 19) in
  rtc_set_memory REG_IBM_CENTURY_BYTE val;;
  rtc_set_memory REG_IBM_PS2_CENTURY_BYTE val.

Definition rtc_reset : Dev RTCState unit :=
  modd (fun s => set_reg RTC_REG_B
    (reg s RTC_REG_B .& .~ (REG_B_PIE .| REG_B_AIE .| REG_B_SQWE)) s);;
  modd (fun s => set_reg RTC_REG_C
    (reg s RTC_REG_C .& .~ (REG_C_UF .| REG_C_IRQF .| REG_C_PF .| REG_C_AF)) s);;
  emit (SetIrqLevel RTC_IRQ 0);;
  when (z2b rtc_td_hack) (modd (fun s => s <| irq_coalesced := 0 |>)).

Definition rtc_initfn : Dev RTCState Z :=
  modd (set_reg RTC_REG_A 0x26);;
  modd (set_reg RTC_REG_B 0x02);;
  modd (set_reg RTC_REG_C 0x00);;
  modd (set_reg RTC_REG_D 0x80);;
  rtc_set_date_from_host;;
  now ← init_timer_time;
  modd (fun s => s <| next_second_time :=
                     s64 (now + Z.quot (get_ticks_per_sec * 99) 100) |>);;
  s ← getd;
  emit (TimerOneshotAbs TIMER_SECOND_TIMER2 (next_second_time s));;
  mret 0.

Definition rtc_timer_interrupt (completed : Z) : Dev RTCState unit :=
  when (tst completed (BIT TIMER_PERIODIC_TIMER)) rtc_periodic_timer;;
  when (tst completed (BIT TIMER_COALESCED_TIMER)) rtc_coalesced_timer;;
  when (tst completed (BIT TIMER_SECOND_TIMER)) rtc_update_second;;
  when (tst completed (BIT TIMER_SECOND_TIMER2)) rtc_update_second2.

Definition rtc_pre_init : Dev RTCState unit :=
  (* set the base year *)
  modd (fun s => s <| base_year := 1900 |>);;
  rtc_initfn;;
  rtc_reset.

Definition cmos_port_in (port_no size : Z) : Dev RTCState (ioport_fault_result * option Z) :=
  if negb (size =? 1) then assertC false;; mret (IO_FAULT_ERROR, None)
  else r ← cmos_ioport_read port_no; mret (IO_FAULT_HANDLED, Some r).

Definition cmos_port_out (port_no size value : Z) : Dev RTCState ioport_fault_result :=
  if negb (size =? 1) then assertC false;; mret IO_FAULT_ERROR
  else cmos_ioport_write port_no value;; mret IO_FAULT_HANDLED.

(** ** The handlers as one operation type *)

Inductive rtc_op :=
| RtcIn (port size : Z)
| RtcOut (port size value : Z)
| RtcTimer (completed : Z).

Definition rtc_exec (o : rtc_op) : Dev RTCState unit :=
  match o with
  | RtcIn p sz => cmos_port_in p sz;; mret tt
  | RtcOut p sz v => cmos_port_out p sz v;; mret tt
  | RtcTimer c => rtc_timer_interrupt c
  end.

Definition rtc_op_ok (o : rtc_op) : Prop :=
  match o with RtcIn _ sz | RtcOut _ sz _ => sz = 1 | RtcTimer _ => True end.

Record rtc_wf (s : RTCState) : Prop := {
  rwf_len : length (cmos_data s) = 128%nat;
  rwf_bytes : Forall (inw 8) (cmos_data s);
  rwf_index : 0 <= cmos_index s <= 127;
  rwf_coalesced : irq_coalesced s = 0 }.

(** ** Calendar *)

(** Days before January 1st of [y] on the proleptic Gregorian calendar. *)
Definition days_before_year (y : Z) : Z :=
  let p := y - 1 in 365 * p + p / 4 - p / 100 + p / 400.
(** Leap years, and the length of month [m] (0 is January) of year [y], as the
    calendar has them; nothing here is taken from the driver. *)
Definition leap (y : Z) : bool :=
  (y mod 400 =? 0) || ((y mod 4 =? 0) && negb (y mod 100 =? 0)).
Definition month_length (m y : Z) : Z :=
  match m with
  | 1 => if leap y then 29 else 28                 (* February *)
  | 3 | 5 | 8 | 10 => 30                           (* April, June, September, November *)
  | _ => 31
  end.
(** Days of year [y] before month [m] (0..11). *)
Definition days_before_month (m y : Z) : Z :=
  match m with
  | 0 => 0 | 1 => 31 | 2 => 59 | 3 => 90 | 4 => 120 | 5 => 151
  | 6 => 181 | 7 => 212 | 8 => 243 | 9 => 273 | 10 => 304 | _ => 334
  end + (if (2 <=? m) && leap y then 1 else 0).
(** Seconds since 0001-01-01 of the broken-down time the emulation keeps:
    month from 0, year from 1900. *)
Definition epoch_seconds (tm : rtc_time_date) : Z :=
  let y := year tm + 1900 in
  ((days_before_year y + days_before_month (month tm) y + (day tm - 1)) * 24 + hour tm)
    * 3600 + minute tm * 60 + second tm.

Record tm_valid (tm : rtc_time_date) : Prop := {
  tv_second : 0 <= second tm < 60;
  tv_minute : 0 <= minute tm < 60;
  tv_hour : 0 <= hour tm < 24;
  tv_month : 0 <= month tm < 12;
  tv_year : 0 <= year tm < 8100;
  tv_day : 1 <= day tm <= month_length (month tm) (year tm + 1900) }.

(** The Unix epoch, the leap day of 2000 and the last day of 2100. *)
Example epoch_1970 : epoch_seconds (mkRtcTimeDate 0 0 0 1 0 70) = 719162 * 86400.
Proof. reflexivity. Qed.
Example epoch_2000_02_29 :
  epoch_seconds (mkRtcTimeDate 56 34 12 29 1 100) = 719162 * 86400 + 951827696.
Proof. reflexivity. Qed.
Example epoch_2100_12_31 :
  epoch_seconds (mkRtcTimeDate 59 59 23 31 11 200) = 719162 * 86400 + 4133980799.
Proof. reflexivity. Qed.


(** * Proofs *)

(** ** Registers *)

Lemma reg_set_reg_eq s i v :
  rtc_wf s -> 0 <= i < 128 -> reg (set_reg i v s) i = u8 v.
Proof. intros [H _ _ _] Hi. unfold reg, set_reg. cbn. apply arr_set_eq. lia. Qed.

Lemma reg_set_reg_ne s i j v :
  0 <= i -> 0 <= j -> i <> j -> reg (set_reg i v s) j = reg s j.
Proof. intros. unfold reg, set_reg. cbn. by apply arr_set_ne. Qed.

Lemma rtc_wf_set_reg s i v : rtc_wf s -> rtc_wf (set_reg i v s).
Proof.
  intros [H1 H2 H3 H4]. split; cbn; [|width|done..].
  by rewrite length_arr_set.
Qed.

Lemma reg_byte s i : rtc_wf s -> 0 <= i < 128 -> inw 8 (reg s i).
Proof. intros [H1 H2 _ _] Hi. apply (arr_Forall (inw 8)); [done|lia]. Qed.

Lemma rtc_wf_set_time s : rtc_wf s -> rtc_wf (rtc_set_time s).
Proof. by intros []. Qed.

Lemma rtc_wf_copy_hour s : rtc_wf s -> rtc_wf (rtc_copy_hour s).
Proof.
  intros Hs. unfold rtc_copy_hour. destruct (tst _ _); [by apply rtc_wf_set_reg|].
  destruct (12 <=? _); by repeat apply rtc_wf_set_reg.
Qed.

Lemma rtc_wf_copy_date s : rtc_wf s -> rtc_wf (rtc_copy_date s).
Proof.
  intros Hs. unfold rtc_copy_date. repeat apply rtc_wf_set_reg.
  by apply rtc_wf_copy_hour; repeat apply rtc_wf_set_reg.
Qed.

#[local] Hint Resolve rtc_wf_set_reg rtc_wf_set_time rtc_wf_copy_date rtc_wf_copy_hour : rtc.

(** ** Safety *)

Definition rkeeps {A} (m : Dev RTCState A) : Prop :=
  forall s w, rtc_wf s -> wp m (fun _ s' => rtc_wf (fst s')) (s, w).

Lemma rkeeps_bind {A B} (m : Dev RTCState A) (k : A -> Dev RTCState B) :
  rkeeps m -> (forall a, rkeeps (k a)) -> rkeeps (m ≫= k).
Proof.
  intros Hm Hk s w Hs. apply wp_bind. eapply wp_mono; [by apply Hm|].
  intros a [s' w'] Hs'. by apply Hk.
Qed.

Lemma rkeeps_when b m : rkeeps m -> rkeeps (when b m).
Proof. intros Hm s w Hs. by apply wp_when; [intros; apply Hm|]. Qed.

Lemma rkeeps_modd f : (forall s, rtc_wf s -> rtc_wf (f s)) -> rkeeps (modd f).
Proof. intros Hf s w Hs. by apply wp_modd, Hf. Qed.

(** A state change outside the registers keeps well-formedness. *)
Lemma rtc_wf_other s s' :
  rtc_wf s -> cmos_data s' = cmos_data s -> cmos_index s' = cmos_index s ->
  irq_coalesced s' = 0 -> rtc_wf s'.
Proof. intros [H1 H2 H3 H4] E1 E2 E3. split; rewrite ?E1, ?E2, ?E3; done. Qed.

Ltac rtc_wf_tac :=
  cbn [fst snd];
  lazymatch goal with
  | |- rtc_wf (update _ ?s0) =>
      apply (rtc_wf_other s0);
        [rtc_wf_tac|reflexivity..|reflexivity || (cbn; by apply rwf_coalesced)]
  | |- _ => first [assumption | by eauto 8 with rtc]
  end.

(** The code of the periodic rate, in 32 kHz cycles. *)
Lemma period_pos c : 1 <= c <= 15 -> 1 .<< (c - 1) <> 0.
Proof. intros. rewrite Z.shiftl_1_l. pose proof (pow2_pos (c - 1)). lia. Qed.

Lemma rkeeps_timer_update t : rkeeps (rtc_timer_update t).
Proof.
  intros s w Hs. unfold rtc_timer_update. do 2 wp_step.
  assert (0 <= reg s RTC_REG_A .& 15 < 16) by (apply (inw_land_r 4); [lia|by split]).
  wp_step; cycle 1; [wp_run; rtc_wf_tac|].
  apply andb_prop in Hb as [Hc _]. apply negb_true_iff, Z.eqb_neq in Hc.
  wp_run; rewrite ?(rwf_coalesced s Hs); [|rtc_wf_tac].
  eapply wp_lift.
  - rewrite udiv_ok; [reflexivity|]. apply period_pos.
    destruct (Z.leb_spec (reg s RTC_REG_A .& 15) 2); lia.
  - wp_run. eapply rtc_wf_other; [exact Hs|reflexivity..].
Qed.

Lemma rkeeps_getd {B} (k : RTCState -> Dev RTCState B) :
  (forall s, rtc_wf s -> rkeeps (k s)) -> rkeeps (getd ≫= k).
Proof. intros Hk s w Hs. wp_run. by apply Hk. Qed.

Lemma rkeeps_put i v : 0 <= i < 128 -> rkeeps (cmos_put i v).
Proof.
  intros Hi s w Hs. unfold cmos_put.
  assert ((0 <=? i) && (i <? 128) = true) as -> by lia. apply wp_modd. rtc_wf_tac.
Qed.

Lemma rkeeps_get i : 0 <= i < 128 -> rkeeps (cmos_get i).
Proof.
  intros Hi s w Hs. unfold cmos_get.
  assert ((0 <=? i) && (i <? 128) = true) as -> by lia. by wp_run.
Qed.

Lemma rkeeps_set_memory i v : rkeeps (rtc_set_memory i v).
Proof.
  intros s w Hs. unfold rtc_set_memory. apply wp_when; [|done].
  intros. apply rkeeps_put; [lia|done].
Qed.

Lemma rkeeps_emit e : rkeeps (emit e).
Proof. by intros s w Hs. Qed.

Lemma rkeeps_time {B} (k : Z -> Dev RTCState B) :
  (forall t, rkeeps (k t)) -> rkeeps (init_timer_time ≫= k).
Proof. intros Hk s w Hs. wp_step. wp_step. by apply Hk. Qed.

Lemma rkeeps_if {A} (b : bool) (m1 m2 : Dev RTCState A) :
  rkeeps m1 -> rkeeps m2 -> rkeeps (if b then m1 else m2).
Proof. by destruct b. Qed.

Lemma rkeeps_ret {A} (a : A) : rkeeps (mret a).
Proof. by intros s w Hs. Qed.

(** Decomposes a routine built from the rules above. *)
Ltac rkeeps_tac :=
  repeat match goal with
  | |- rkeeps (getd ≫= _) => apply rkeeps_getd; intros ? ?
  | |- rkeeps (init_timer_time ≫= _) => apply rkeeps_time; intros ?
  | |- rkeeps (mbind _ _) => apply rkeeps_bind; [|intros ?]
  | |- rkeeps (when _ _) => apply rkeeps_when
  | |- rkeeps (if _ then _ else _) => apply rkeeps_if
  | |- rkeeps (rtc_timer_update _) => apply rkeeps_timer_update
  | |- rkeeps (emit _) => apply rkeeps_emit
  | H : rtc_wf ?s |- rkeeps (cmos_put (cmos_index ?s) _) =>
      apply rkeeps_put; pose proof (rwf_index _ H); lia
  | H : rtc_wf ?s |- rkeeps (cmos_get (cmos_index ?s)) =>
      apply rkeeps_get; pose proof (rwf_index _ H); lia
  | |- rkeeps (rtc_set_memory _ _) => apply rkeeps_set_memory
  | |- rkeeps (mret _) => apply rkeeps_ret
  | |- rkeeps (modd _) => apply rkeeps_modd; intros ? ?; try rtc_wf_tac
  | |- rkeeps (let _ := _ in _) => cbv zeta
  end.

Lemma rkeeps_periodic_timer : rkeeps rtc_periodic_timer.
Proof.
  unfold rtc_periodic_timer. rkeeps_tac. destruct (_ <=? _); rtc_wf_tac.
Qed.

Lemma rkeeps_coalesced_timer_update : rkeeps rtc_coalesced_timer_update.
Proof.
  intros s w Hs. unfold rtc_coalesced_timer_update. wp_run; [done|].
  by rewrite rwf_coalesced in Hb.
Qed.

Lemma rkeeps_timer_interrupt c : rkeeps (rtc_timer_interrupt c).
Proof.
  unfold rtc_timer_interrupt, rtc_coalesced_timer, rtc_update_second, rtc_update_second2,
    rtc_check_alarm, rtc_update_ended.
  rkeeps_tac; (apply rkeeps_periodic_timer || apply rkeeps_coalesced_timer_update).
Qed.

Lemma rkeeps_ioport_write addr data : rkeeps (cmos_ioport_write addr data).
Proof.
  unfold cmos_ioport_write, cmos_write_reg_a, cmos_write_reg_b. rkeeps_tac.
  match goal with H : rtc_wf ?s |- _ => destruct H as [H1 H2 H3 H4] end.
  split; cbn; [done..| |done].
  assert (0 <= data .& 127 < 2 ^ 7) by (apply inw_land_r; [lia|by split]). lia.
Qed.

Lemma rkeeps_ioport_read addr : rkeeps (cmos_ioport_read addr).
Proof. unfold cmos_ioport_read. rkeeps_tac. Qed.

Lemma rkeeps_exec o : rtc_op_ok o -> rkeeps (rtc_exec o).
Proof.
  destruct o as [p sz|p sz v|c]; simpl; [intros ->|intros ->|intros _].
  - unfold cmos_port_in. cbn [negb Z.eqb Pos.eqb]. rkeeps_tac. apply rkeeps_ioport_read.
  - unfold cmos_port_out. cbn [negb Z.eqb Pos.eqb]. rkeeps_tac. apply rkeeps_ioport_write.
  - apply rkeeps_timer_interrupt.
Qed.

Lemma rtc_wf_bss : rtc_wf rtc_state_bss.
Proof. split; [done| |by split|done]. cbn.
  repeat (apply List.Forall_cons; [by split|]). apply List.Forall_nil.
Qed.

Lemma rtc_wf_set_date tm s : rtc_wf s -> rtc_wf (rtc_set_date tm s).
Proof. intros Hs. apply rtc_wf_copy_date. rtc_wf_tac. Qed.

#[local] Hint Resolve rtc_wf_set_date : rtc.

Lemma rkeeps_pre_init : rkeeps rtc_pre_init.
Proof.
  unfold rtc_pre_init, rtc_initfn, rtc_reset, rtc_set_date_from_host.
  rkeeps_tac. by intros s w Hs.
Qed.

(** C40 -- From power-on, [rtc_pre_init] and then any sequence of byte-sized
    port accesses (any port, any value) and timer completions runs without a
    failed assertion, a division by zero or an access outside the 128 CMOS
    bytes; every CMOS register stays a byte, the index register stays below
    128, and the backlog of coalesced interrupts stays empty. *)
Theorem rtc_safe (ops : list rtc_op) (w : World) :
  Forall rtc_op_ok ops ->
  wp (rtc_pre_init;; for_each ops rtc_exec) (fun _ s => rtc_wf (fst s))
     (rtc_state_bss, w).
Proof.
  intros Hops. apply wp_bind.
  eapply wp_mono; [apply rkeeps_pre_init, rtc_wf_bss|]. intros [] s Hs.
  apply wp_for_each with (I := fun s => rtc_wf (fst s)); [done| |done].
  intros o [s' w'] Ho Hs'. apply rkeeps_exec; [|done].
  rewrite List.Forall_forall in Hops. by apply Hops.
Qed.

(** ** The 96-bit multiply and divide *)

Lemma land_ones32 x : x .& 0xffffffff = x mod 2 ^ 32.
Proof. apply (Z.land_ones x 32). lia. Qed.

(** [rh], the product shifted right by 32, does not overflow. *)
Lemma muldiv64_high a b :
  inw 64 a -> inw 32 b ->
  u64 (u64 (a / 2 ^ 32 * b) + (u64 (a mod 2 ^ 32 * b) .>> 32)) = a * b / 2 ^ 32.
Proof.
  intros Ha Hb. unfold inw in *.
  pose proof (Z.mod_pos_bound a (2 ^ 32) ltac:(lia)) as Hl.
  assert (0 <= a / 2 ^ 32 < 2 ^ 32) as Hh.
  { split; [apply Z.div_pos; lia|]. apply Z.div_lt_upper_bound; lia. }
  pose proof (Z.div_mod a (2 ^ 32) ltac:(lia)) as Ea.
  assert (0 <= a / 2 ^ 32 * b <= (2 ^ 32 - 1) * (2 ^ 32 - 1)) by nia.
  assert (0 <= a mod 2 ^ 32 * b <= (2 ^ 32 - 1) * (2 ^ 32 - 1)) by nia.
  rewrite (u64_small (a / 2 ^ 32 * b)), (u64_small (a mod 2 ^ 32 * b)) by (unfold inw; lia).
  rewrite Z.shiftr_div_pow2 by lia.
  assert (a * b / 2 ^ 32 = a / 2 ^ 32 * b + a mod 2 ^ 32 * b / 2 ^ 32) as ->.
  { rewrite Ea at 1. replace ((2 ^ 32 * (a / 2 ^ 32) + a mod 2 ^ 32) * b)
      with (a mod 2 ^ 32 * b + (a / 2 ^ 32 * b) * 2 ^ 32) by ring.
    rewrite Z.div_add by lia. lia. }
  apply u64_small. unfold inw.
  assert (0 <= a mod 2 ^ 32 * b / 2 ^ 32 <= 2 ^ 32 - 1).
  { split; [apply Z.div_pos; lia|]. apply Z.lt_le_pred, Z.div_lt_upper_bound; lia. }
  lia.
Qed.

(** Long division of a two-digit number by one digit. *)
Lemma long_division R L c :
  0 < c -> (R * 2 ^ 32 + L) / c = R / c * 2 ^ 32 + (R mod c * 2 ^ 32 + L) / c.
Proof.
  intros Hc. pose proof (Z.div_mod R c ltac:(lia)) as E.
  replace (R * 2 ^ 32 + L) with ((c * (R / c) + R mod c) * 2 ^ 32 + L) by (by rewrite <-E).
  replace ((c * (R / c) + R mod c) * 2 ^ 32 + L)
    with (R mod c * 2 ^ 32 + L + (R / c * 2 ^ 32) * c) by ring.
  rewrite Z.div_add by lia. lia.
Qed.

Lemma muldiv64_eq a b c :
  inw 64 a -> inw 32 b -> 0 < c < 2 ^ 32 -> muldiv64 a b c = u64 (a * b / c).
Proof.
  intros Ha Hb Hc. unfold muldiv64. cbv zeta.
  rewrite muldiv64_high by done. set (R := a * b / 2 ^ 32).
  rewrite land_ones32. set (L := u64 (a mod 2 ^ 32 * b) mod 2 ^ 32).
  assert (a * b = R * 2 ^ 32 + L) as E.
  { unfold R, L, u64, wrap. rewrite mod_mod_pow2_le by lia.
    rewrite Zmult_mod_idemp_l. pose proof (Z.div_mod (a * b) (2 ^ 32)). lia. }
  assert (0 <= L < 2 ^ 32) as HL by (apply Z.mod_pos_bound; lia).
  assert (0 <= R) as HR by (apply Z.div_pos; unfold inw in *; nia).
  clearbody R L.
  pose proof (Z.mod_pos_bound R c ltac:(lia)) as Hm.
  rewrite Z.shiftl_mul_pow2 by lia.
  rewrite (u64_small (R mod c * 2 ^ 32)), (u64_small (_ + L)) by (unfold inw; nia).
  assert (0 <= (R mod c * 2 ^ 32 + L) / c < 2 ^ 32) as Hlow.
  { split; [apply Z.div_pos; nia|]. apply Z.div_lt_upper_bound; nia. }
  rewrite (u32_small ((_ + L) / c)) by done.
  unfold u32, u64, wrap. rewrite E, (long_division R L c) by lia.
  replace (2 ^ 64) with (2 ^ 32 * 2 ^ 32) by lia.
  apply (Z.mod_unique_pos _ _ (R / c / 2 ^ 32)); [|].
  - pose proof (Z.mod_pos_bound (R / c) (2 ^ 32)). nia.
  - pose proof (Z.div_mod (R / c) (2 ^ 32)). nia.
Qed.

(** The 96-bit arithmetic by which the RTC converts between nanoseconds
    and clock ticks is exact: for a 64-bit [a] and 32-bit [b] and [c > 0],
    [muldiv64 a b c] is [a * b / c], truncated to 64 bits only if the quotient
    itself does not fit. *)
Lemma muldiv64_exact (a b c : Z) :
  inw 64 a -> inw 32 b -> 0 < c < 2 ^ 32 ->
  muldiv64 a b c = (a * b / c) mod 2 ^ 64.
Proof. apply muldiv64_eq. Qed.

(** ** The calendar *)

Lemma month_cases m : 0 <= m < 12 -> In m [0; 1; 2; 3; 4; 5; 6; 7; 8; 9; 10; 11].
Proof. intros. cbn. lia. Qed.

(** The driver's month lengths are the calendar's. *)
Lemma get_days_in_month_spec m y :
  0 <= m < 12 -> 0 <= y -> get_days_in_month m y = month_length m y.
Proof.
  intros Hm Hy. unfold get_days_in_month, month_length, leap.
  rewrite u32_small by (unfold inw; lia). rewrite !Z.rem_mod_nonneg by lia.
  apply month_cases in Hm as Hin. cbn in Hin.
  repeat destruct Hin as [<-|Hin]; cbn; try done.
  destruct (Z.eqb_spec (y mod 400) 0), (Z.eqb_spec (y mod 4) 0), (Z.eqb_spec (y mod 100) 0);
    try reflexivity; exfalso; Z.to_euclidean_division_equations; lia.
Qed.

Lemma month_length_range m y : 28 <= month_length m y <= 31.
Proof. unfold month_length. repeat case_match; lia. Qed.

Lemma days_before_month_succ m y :
  0 <= m < 11 -> days_before_month (m + 1) y = days_before_month m y + month_length m y.
Proof.
  intros Hm. assert (0 <= m < 12) as Hin%month_cases by lia. cbn in Hin.
  unfold month_length, days_before_month.
  repeat destruct Hin as [<-|Hin]; cbn; try lia; destruct (leap y); done.
Qed.

Lemma days_before_month_last y :
  days_before_month 11 y + month_length 11 y = 365 + b2z (leap y).
Proof. unfold days_before_month, month_length, b2z. by destruct (leap y). Qed.

Lemma days_before_year_succ y :
  0 < y -> days_before_year (y + 1) = days_before_year y + 365 + b2z (leap y).
Proof.
  intros Hy. unfold days_before_year, leap.
  replace (y + 1 - 1) with y by lia.
  destruct (Z.eqb_spec (y mod 4) 0), (Z.eqb_spec (y mod 100) 0), (Z.eqb_spec (y mod 400) 0);
    cbn; Z.to_euclidean_division_equations; lia.
Qed.

(** The day after the last one of the month. *)
Lemma epoch_next_month m y :
  0 <= m < 12 -> 0 <= y ->
  days_before_year (y + 1900) + days_before_month m (y + 1900)
    + month_length m (y + 1900)
  = if 12 <=? m + 1 then days_before_year (y + 1 + 1900)
    else days_before_year (y + 1900) + days_before_month (m + 1) (y + 1900).
Proof.
  intros Hm Hy. destruct (Z.leb_spec 12 (m + 1)).
  - replace (y + 1 + 1900) with (y + 1900 + 1) by lia.
    rewrite days_before_year_succ by lia.
    replace m with 11 by lia. pose proof (days_before_month_last (y + 1900)). lia.
  - rewrite days_before_month_succ by lia. lia.
Qed.

(** C21 -- [rtc_next_second] is the successor on the Gregorian calendar: from a
    valid time (month from 0, year from 1900, before the year 9999) it reaches
    a valid time exactly one second later, across minute, hour, day, month,
    leap-day and year boundaries. The calendar it is measured against -- leap
    years, month lengths, days before a month and a year -- is written down on
    its own and does not use the driver's [get_days_in_month] or its table. *)
Theorem rtc_next_second_correct {L : RtcTimeDateLaws T} (tm : rtc_time_date) :
  tm_valid tm -> year tm < 8099 ->
  tm_valid (rtc_next_second tm) /\ epoch_seconds (rtc_next_second tm) = epoch_seconds tm + 1.
Proof.
  destruct tm as [s mi h d mo y]. intros [Hs Hmi Hh Hmo Hy Hd] Hy'. cbn in * |-.
  pose proof (month_length_range mo (y + 1900)) as Hrange.
  pose proof (epoch_next_month mo y Hmo ltac:(lia)) as Hnext.
  unfold rtc_next_second. cbn -[epoch_seconds].
  rewrite !st_second_ok, !st_minute_ok, !st_hour_ok, !st_day_ok, !st_month_ok,
    !st_year_ok, arith_year_ok by lia.
  rewrite !u32_small by (unfold inw; lia). rewrite get_days_in_month_spec by lia.
  destruct (Z.leb_spec 60 (s + 1));
    [destruct (Z.leb_spec 60 (mi + 1));
      [destruct (Z.leb_spec 24 (h + 1));
        [destruct (Z.ltb_spec (d + 1) 1); [lia|];
         destruct (Z.ltb_spec (month_length mo (y + 1900)) (d + 1));
          [destruct (Z.leb_spec 12 (mo + 1))|]|]|]|];
    (split; [constructor|unfold epoch_seconds]);
    cbn -[days_before_year days_before_month month_length] in *; try lia.
  all: pose proof (month_length_range 0 (y + 1 + 1900));
    pose proof (month_length_range (mo + 1) (y + 1900)); try lia.
  - change (days_before_month 0 (y + 1 + 1900)) with 0. lia.
Qed.

(** ** The time registers *)

(** The value the hour register shows for [h], in 12 or 24 hour format. *)
Definition hour_code (s : RTCState) (h : Z) : Z :=
  if tst (reg s RTC_REG_B) REG_B_24H then u8 (rtc_to_bcd s h)
  else if 12 <=? h then u8 (u8 (rtc_to_bcd s (Z.rem h 12)) .| 0x80)
  else u8 (rtc_to_bcd s (Z.rem h 12)).

Lemma to_bcd_ext s s' a :
  reg s' RTC_REG_B = reg s RTC_REG_B -> rtc_to_bcd s' a = rtc_to_bcd s a.
Proof. unfold rtc_to_bcd. by intros ->. Qed.

Lemma from_bcd_ext s s' a :
  reg s' RTC_REG_B = reg s RTC_REG_B -> rtc_from_bcd s' a = rtc_from_bcd s a.
Proof. unfold rtc_from_bcd. by intros ->. Qed.

Lemma to_bcd_set_reg i v s a :
  0 <= i -> i <> RTC_REG_B -> rtc_to_bcd (set_reg i v s) a = rtc_to_bcd s a.
Proof. intros. apply to_bcd_ext, reg_set_reg_ne; [done|unfold RTC_REG_B; lia|done]. Qed.

Lemma copy_hour_regs s :
  rtc_wf s ->
  reg (rtc_copy_hour s) RTC_HOURS = hour_code s (hour (current_tm s)) /\
  (forall i, 0 <= i -> i <> RTC_HOURS -> reg (rtc_copy_hour s) i = reg s i).
Proof.
  intros Hs. unfold rtc_copy_hour, hour_code.
  destruct (tst _ _); [|destruct (12 <=? _)]; split; intros;
    rewrite ?reg_set_reg_eq, ?reg_set_reg_ne by (done || by apply rtc_wf_set_reg); done.
Qed.

(** Two states that agree on everything but the registers. *)
Definition same_but_regs (s s' : RTCState) : Prop := s' = s <| cmos_data := cmos_data s' |>.

Lemma same_but_regs_set_reg i v s : same_but_regs s (set_reg i v s).
Proof. done. Qed.

Lemma same_but_regs_trans s1 s2 s3 :
  same_but_regs s1 s2 -> same_but_regs s2 s3 -> same_but_regs s1 s3.
Proof. unfold same_but_regs. intros -> ->. done. Qed.

Lemma copy_date_frame s : same_but_regs s (rtc_copy_date s).
Proof.
  unfold rtc_copy_date, rtc_copy_hour. by destruct (tst _ _); [|destruct (12 <=? _)].
Qed.

Record date_shown (s s' : RTCState) : Prop := {
  ds_second : reg s' RTC_SECONDS = u8 (rtc_to_bcd s (second (current_tm s)));
  ds_minute : reg s' RTC_MINUTES = u8 (rtc_to_bcd s (minute (current_tm s)));
  ds_hour : reg s' RTC_HOURS = hour_code s (hour (current_tm s));
  ds_day : reg s' RTC_DAY_OF_MONTH = u8 (rtc_to_bcd s (day (current_tm s)));
  ds_month : reg s' RTC_MONTH = u8 (rtc_to_bcd s (month (current_tm s)));
  ds_year : reg s' RTC_YEAR = u8 (rtc_to_bcd s (rtc_copy_year s)) }.

(** The registers [rtc_copy_date] writes. *)
Definition date_regs : list Z :=
  [RTC_SECONDS; RTC_MINUTES; RTC_HOURS; RTC_DAY_OF_MONTH; RTC_MONTH; RTC_YEAR].

Lemma copy_date_other s i :
  rtc_wf s -> 0 <= i -> one_of i date_regs = false -> reg (rtc_copy_date s) i = reg s i.
Proof.
  intros Hs Hi Ho. apply one_of_false in Ho. cbn in Ho.
  unfold rtc_copy_date. cbv zeta. rewrite !reg_set_reg_ne by intuition (done || congruence).
  set (s2 := set_reg RTC_MINUTES _ _).
  assert (rtc_wf s2) as Hs2 by (by repeat apply rtc_wf_set_reg).
  destruct (copy_hour_regs s2 Hs2) as [_ Hoth].
  rewrite Hoth by intuition congruence. unfold s2.
  rewrite !reg_set_reg_ne by intuition (done || congruence). done.
Qed.

Lemma copy_date_regs s : rtc_wf s -> date_shown s (rtc_copy_date s).
Proof.
  intros Hs. unfold rtc_copy_date. cbv zeta.
  set (s2 := set_reg RTC_MINUTES _ _).
  assert (rtc_wf s2) as Hs2 by (by repeat apply rtc_wf_set_reg).
  destruct (copy_hour_regs s2 Hs2) as [Hh Ho]. set (s3 := rtc_copy_hour s2) in *.
  assert (rtc_wf s3) as Hs3 by (by apply rtc_wf_copy_hour).
  assert (forall a, rtc_to_bcd s3 a = rtc_to_bcd s a) as Eb.
  { intros a. rewrite (to_bcd_ext s2 s3) by (apply Ho; done).
    unfold s2. rewrite !to_bcd_set_reg; done. }
  assert (same_but_regs s s3) as Ef.
  { unfold s3, s2, rtc_copy_hour. by destruct (tst _ _); [|destruct (12 <=? _)]. }
  assert (current_tm s3 = current_tm s /\ base_year s3 = base_year s) as [Et Eby].
  { by rewrite Ef. }
  assert (hour_code s2 (hour (current_tm s2)) = hour_code s (hour (current_tm s))) as Eh.
  { unfold hour_code, s2. rewrite !to_bcd_set_reg, !reg_set_reg_ne by done. done. }
  clearbody s3.
  constructor; intros.
  all: rewrite ?reg_set_reg_eq, ?reg_set_reg_ne, ?reg_set_reg_eq
    by (done || (unfold RTC_SECONDS, RTC_MINUTES, RTC_HOURS, RTC_DAY_OF_MONTH, RTC_MONTH,
                 RTC_YEAR; lia) || by repeat apply rtc_wf_set_reg).
  all: rewrite ?to_bcd_set_reg, ?Eb by done; try (cbn; by rewrite Et).
  - rewrite Ho by done. unfold s2. rewrite reg_set_reg_ne, reg_set_reg_eq; done.
  - rewrite Ho by done. unfold s2. rewrite reg_set_reg_eq; [|by apply rtc_wf_set_reg|done].
    by rewrite to_bcd_set_reg.
  - by rewrite Hh.
  - unfold rtc_copy_year. cbn. by rewrite Et, Eby.
Qed.

(** ** BCD *)

Lemma bcd_roundtrip s s' v :
  reg s' RTC_REG_B = reg s RTC_REG_B -> 0 <= v < 100 ->
  rtc_from_bcd s' (u8 (rtc_to_bcd s v)) = v.
Proof.
  intros E Hv. rewrite (from_bcd_ext s s') by done. unfold rtc_from_bcd, rtc_to_bcd.
  destruct (tst _ _); [apply u8_small; unfold inw; lia|]. apply Z.eqb_eq.
  exact (zrange_forall 100
    (fun v => (u8 (((Z.quot v 10) .<< 4) .| Z.rem v 10) .>> 4) * 10
              + (u8 (((Z.quot v 10) .<< 4) .| Z.rem v 10) .& 0x0f) =? v) eq_refl v Hv).
Qed.

(** The hour register, decoded as [rtc_set_time] does. *)
Lemma hour_roundtrip s s' h :
  reg s' RTC_REG_B = reg s RTC_REG_B -> 0 <= h < 24 ->
  rtc_from_bcd s' (hour_code s h .& 0x7f)
    + (if negb (tst (reg s' RTC_REG_B) REG_B_24H) && tst (hour_code s h) 0x80 then 12 else 0)
  = h.
Proof.
  intros E Hh. rewrite (from_bcd_ext s s') by done. rewrite E.
  unfold hour_code, rtc_from_bcd, rtc_to_bcd. generalize (reg s RTC_REG_B). intros b.
  apply Z.eqb_eq. destruct (tst b REG_B_24H), (tst b REG_B_DM); revert h Hh;
    apply (zrange_forall 24); vm_compute; reflexivity.
Qed.

Lemma from_bcd_nonneg s v : 0 <= v -> 0 <= rtc_from_bcd s v.
Proof.
  intros Hv. unfold rtc_from_bcd. destruct (tst _ _); [done|].
  assert (0 <= v .>> 4) by (by apply Z.shiftr_nonneg).
  assert (0 <= v .& 15) by (apply Z.land_nonneg; lia). lia.
Qed.

(** What [rtc_set_time] decodes from registers that show [se], [mi], ... *)
Lemma set_time_decodes {L : RtcTimeDateLaws T} s se mi h d mo y :
  0 <= se < 60 -> 0 <= mi < 60 -> 0 <= h < 24 -> 1 <= d <= 31 -> 1 <= mo <= 12 ->
  0 <= y < 100 -> base_year s = 1900 ->
  reg s RTC_SECONDS = u8 (rtc_to_bcd s se) -> reg s RTC_MINUTES = u8 (rtc_to_bcd s mi) ->
  reg s RTC_HOURS = hour_code s h -> reg s RTC_DAY_OF_MONTH = u8 (rtc_to_bcd s d) ->
  reg s RTC_MONTH = u8 (rtc_to_bcd s mo) -> reg s RTC_YEAR = u8 (rtc_to_bcd s y) ->
  rtc_set_time s = s <| current_tm := mkRtcTimeDate se mi h d (mo - 1) y |>.
Proof.
  intros ? ? Hh ? ? ? Eb E1 E2 E3 E4 E5 E6. unfold rtc_set_time.
  assert ((if negb (tst (reg s RTC_REG_B) REG_B_24H) && tst (hour_code s h) 0x80
           then st_hour (st_hour (rtc_from_bcd s (hour_code s h .& 0x7f)) + 12)
           else st_hour (rtc_from_bcd s (hour_code s h .& 0x7f))) = h) as Er.
  { pose proof (hour_roundtrip s s h eq_refl Hh) as Er.
    pose proof (from_bcd_nonneg s (hour_code s h .& 0x7f)
      ltac:(apply Z.land_nonneg; lia)) as Hnn.
    destruct (negb _ && _);
      [rewrite (st_hour_ok (rtc_from_bcd _ _)) by lia|]; rewrite st_hour_ok by lia; lia. }
  rewrite E1, E2, E3, E4, E5, E6, Eb, Er, !bcd_roundtrip by (done || lia).
  rewrite st_second_ok, st_minute_ok, st_day_ok, st_month_ok, st_year_ok by lia.
  by replace (y + 1900 - 1900) with y by lia.
Qed.

(** The year register, for a full four-digit year. *)
Lemma copy_year_eq {L : RtcTimeDateLaws T} s :
  base_year s = 1900 -> 1900 <= year (current_tm s) < 10000 ->
  rtc_copy_year s = year (current_tm s) mod 100.
Proof.
  intros Eb Hy. unfold rtc_copy_year. rewrite Eb, arith_year_ok by lia.
  rewrite Z.rem_mod_nonneg by lia.
  assert ((year (current_tm s) - 1900) mod 100 = year (current_tm s) mod 100) as ->.
  { replace (year (current_tm s) - 1900) with (year (current_tm s) + (-19) * 100) by lia.
    by rewrite Z.mod_add. }
  pose proof (Z.mod_pos_bound (year (current_tm s)) 100). rewrite s32_small by lia.
  destruct (Z.ltb_spec (year (current_tm s) mod 100) 0); lia.
Qed.

Lemma same_regs_bcd s s' a :
  reg s' RTC_REG_B = reg s RTC_REG_B ->
  rtc_to_bcd s' a = rtc_to_bcd s a /\ hour_code s' a = hour_code s a.
Proof.
  intros E. split; [by apply to_bcd_ext|]. unfold hour_code.
  by rewrite E, !(to_bcd_ext s s').
Qed.

(** Showing a date in the registers and reading it back
    ([rtc_copy_date] then [rtc_set_time]) recovers, in every combination of
    the BCD/binary and 12/24-hour formats, the seconds, minutes, hours and day
    exactly and the last two digits of the year; the month comes back one
    less, since only the second of the two converts between the 1..12 and 0..11
    conventions. *)
Lemma rtc_date_roundtrip {L : RtcTimeDateLaws T} (s : RTCState) :
  rtc_wf s -> base_year s = 1900 ->
  0 <= second (current_tm s) < 60 -> 0 <= minute (current_tm s) < 60 ->
  0 <= hour (current_tm s) < 24 -> 1 <= day (current_tm s) <= 31 ->
  1 <= month (current_tm s) <= 12 -> 1900 <= year (current_tm s) < 10000 ->
  rtc_set_time (rtc_copy_date s) =
    (rtc_copy_date s) <| current_tm :=
      (current_tm s) <| month := month (current_tm s) - 1 |>
                   <| year := year (current_tm s) mod 100 |> |>.
Proof.
  intros Hs Eb ? ? ? ? ? Hy.
  destruct (copy_date_regs s Hs) as [D1 D2 D3 D4 D5 D6].
  pose proof (copy_date_other s RTC_REG_B Hs ltac:(done) eq_refl) as EB.
  rewrite copy_year_eq in D6 by done.
  pose proof (Z.mod_pos_bound (year (current_tm s)) 100 ltac:(lia)).
  pose proof (fun a => proj1 (same_regs_bcd s _ a EB)) as Ec.
  rewrite <-(proj2 (same_regs_bcd s _ _ EB)) in D3. rewrite <-Ec in D1, D2, D4, D5, D6.
  assert (base_year (rtc_copy_date s) = 1900) as Eb' by by rewrite (copy_date_frame s).
  by rewrite (set_time_decodes (rtc_copy_date s) (second (current_tm s))
    (minute (current_tm s)) (hour (current_tm s)) (day (current_tm s))
    (month (current_tm s)) (year (current_tm s) mod 100)).
Qed.


(** What the guest loses: when it sets the clock through the registers
    (in any format) and the emulation next refreshes them, seconds, minutes,
    hours and day of month read back as written, but the month register reads
    back one month less than the guest wrote. *)
Lemma rtc_guest_month_lost {L : RtcTimeDateLaws T} (s : RTCState) (se mi h d mo y : Z) :
  rtc_wf s -> base_year s = 1900 ->
  0 <= se < 60 -> 0 <= mi < 60 -> 0 <= h < 24 -> 1 <= d <= 31 -> 1 <= mo <= 12 ->
  0 <= y < 100 ->
  reg s RTC_SECONDS = u8 (rtc_to_bcd s se) -> reg s RTC_MINUTES = u8 (rtc_to_bcd s mi) ->
  reg s RTC_HOURS = hour_code s h -> reg s RTC_DAY_OF_MONTH = u8 (rtc_to_bcd s d) ->
  reg s RTC_MONTH = u8 (rtc_to_bcd s mo) -> reg s RTC_YEAR = u8 (rtc_to_bcd s y) ->
  let s' := rtc_copy_date (rtc_set_time s) in
  reg s' RTC_SECONDS = reg s RTC_SECONDS /\ reg s' RTC_MINUTES = reg s RTC_MINUTES /\
  reg s' RTC_HOURS = reg s RTC_HOURS /\ reg s' RTC_DAY_OF_MONTH = reg s RTC_DAY_OF_MONTH /\
  reg s' RTC_MONTH = u8 (rtc_to_bcd s (mo - 1)) /\ reg s' RTC_MONTH <> reg s RTC_MONTH.
Proof.
  intros Hs Eb ? ? ? ? ? ? E1 E2 E3 E4 E5 E6. cbv zeta.
  destruct (copy_date_regs (rtc_set_time s) (rtc_wf_set_time s Hs)) as [D1 D2 D3 D4 D5 _].
  assert (current_tm (rtc_set_time s) = mkRtcTimeDate se mi h d (mo - 1) y) as Et.
  { by rewrite (set_time_decodes s se mi h d mo y). }
  pose proof (fun a => same_regs_bcd s (rtc_set_time s) a eq_refl) as Ec.
  rewrite Et in D1, D2, D3, D4, D5. cbn [second minute hour day month] in D1, D2, D3, D4, D5.
  rewrite D1, D2, D3, D4, D5, E1, E2, E3, E4, E5, !(proj1 (Ec _)), (proj2 (Ec _)).
  split_and!; [reflexivity..|]. intros E.
  pose proof (bcd_roundtrip s s (mo - 1) eq_refl ltac:(lia)) as R1.
  pose proof (bcd_roundtrip s s mo eq_refl ltac:(lia)) as R2.
  rewrite E in R1. lia.
Qed.

(** Reading register C acknowledges the interrupt: the guest receives
    the flags pending at the access, the flags are cleared and the line is
    lowered, and nothing else changes.  Since the backlog of coalesced
    interrupts is always empty, the re-injection branch is never taken. *)
Lemma rtc_ack (s : RTCState) (w : World) (addr : Z) :
  rtc_wf s -> addr .& 1 = 1 -> cmos_index s = RTC_REG_C ->
  cmos_ioport_read addr (s, w) =
    Ok (reg s RTC_REG_C, (set_reg RTC_REG_C 0 s, logged [SetIrqLevel RTC_IRQ 0] w)) /\
  reg (set_reg RTC_REG_C 0 s) RTC_REG_C = 0.
Proof.
  intros Hs Ha Hi. split; [|by apply reg_set_reg_eq].
  unfold cmos_ioport_read. rewrite Ha.
  cbv [getd mbind M_bind fst snd]. cbn [Z.eqb].
  by rewrite Hi, (rwf_coalesced s Hs).
Qed.

(** ** The periodic timer *)

(** The programmed period, in 32 kHz cycles, as [rtc_timer_update] decodes it. *)
Definition rtc_period (s : RTCState) : Z :=
  let code := reg s RTC_REG_A .& 0x0f in
  1 .<< ((if code <=? 2 then code + 7 else code) - 1).
(** The deadline, in nanoseconds, of the [n]-th 32 kHz cycle. *)
Definition cycle_deadline (n : Z) : Z := n * 1000000000 / 32768 + 1.
(** The cycle the first interrupt after time [t] falls on. *)
Definition first_cycle (p t : Z) : Z := (t * 32768 / 1000000000 / p + 1) * p.

Definition periodic_on (s : RTCState) : Prop :=
  reg s RTC_REG_A .& 0x0f <> 0 /\ tst (reg s RTC_REG_B) REG_B_PIE = true.

Lemma rtc_period_pow s :
  rtc_wf s -> periodic_on s -> exists k, 2 <= k <= 14 /\ rtc_period s = 2 ^ k.
Proof.
  intros Hs [Hc _]. unfold rtc_period.
  assert (0 <= reg s RTC_REG_A .& 15 < 16) by (apply (inw_land_r 4); [lia|by split]).
  rewrite Z.shiftl_1_l. eexists. split; [|reflexivity].
  destruct (Z.leb_spec (reg s RTC_REG_A .& 15) 2); lia.
Qed.

Lemma land_lnot_pow2 x k : 0 <= k -> x .& .~ (2 ^ k - 1) = x / 2 ^ k * 2 ^ k.
Proof.
  intros Hk. rewrite Z.sub_1_r, <-Z.ones_equiv.
  change (Z.land x (Z.lnot (Z.ones k))) with (Z.land x (Z.lnot (Z.ones k))).
  rewrite <-Z.ldiff_land, Z.ldiff_ones_r by done.
  by rewrite Z.shiftl_mul_pow2, Z.shiftr_div_pow2 by done.
Qed.

(** The deadline of the first cycle after [t], as the code computes it. *)
Lemma periodic_deadline k t :
  2 <= k <= 14 -> 0 <= t < 2 ^ 62 ->
  let cur := s64 (muldiv64 (u64 t) 32768 get_ticks_per_sec) in
  let nirq := s64 ((cur .& .~ (2 ^ k - 1)) + 2 ^ k) in
  s64 (u64 (muldiv64 (u64 nirq) get_ticks_per_sec 32768 + 1)) =
    cycle_deadline (first_cycle (2 ^ k) t).
Proof.
  intros Hk Ht. cbv zeta. unfold get_ticks_per_sec.
  assert (4 <= 2 ^ k <= 16384).
  { change 4 with (2 ^ 2). change 16384 with (2 ^ 14).
    split; apply Z.pow_le_mono_r; lia. }
  rewrite (u64_small t) by (unfold inw; lia).
  rewrite (muldiv64_eq t) by (unfold inw; lia).
  assert (0 <= t * 32768 / 1000000000 < 2 ^ 48) as Hc.
  { split; [apply Z.div_pos; lia|]. apply Z.div_lt_upper_bound; lia. }
  rewrite (u64_small (_ / _)), (s64_small (_ / _)) by (unfold inw; lia).
  rewrite land_lnot_pow2 by lia. unfold first_cycle, cycle_deadline.
  set (c := t * 32768 / 1000000000) in *.
  replace (c / 2 ^ k * 2 ^ k + 2 ^ k) with ((c / 2 ^ k + 1) * 2 ^ k) by ring.
  assert (0 < (c / 2 ^ k + 1) * 2 ^ k <= c + 16384) as Hn.
  { assert (0 <= c / 2 ^ k) by (apply Z.div_pos; lia).
    pose proof (Z.mul_div_le c (2 ^ k) ltac:(lia)). split; [|lia].
    apply Z.mul_pos_pos; lia. }
  assert (c * 1000000000 <= t * 32768) as Hct.
  { unfold c. pose proof (Z.mul_div_le (t * 32768) 1000000000). lia. }
  set (n := (c / 2 ^ k + 1) * 2 ^ k) in *. clearbody n.
  rewrite (s64_small n), (u64_small n) by (unfold inw; lia).
  rewrite muldiv64_eq by (unfold inw; lia).
  assert (0 <= n * 1000000000 / 32768 < 2 ^ 62 + 2 ^ 30) as Hq.
  { split; [apply Z.div_pos; lia|]. apply Z.div_lt_upper_bound; lia. }
  rewrite (u64_small (_ / _)) by (unfold inw; lia). rewrite u64_small by (unfold inw; lia).
  apply s64_small. lia.
Qed.

(** [rtc_timer_update] with the periodic interrupt on. *)
Lemma timer_update_on s t w :
  rtc_wf s -> periodic_on s -> 0 <= t < 2 ^ 62 ->
  let e := cycle_deadline (first_cycle (rtc_period s) t) in
  wp (rtc_timer_update t)
     (fun _ s' => s' = (s <| period := rtc_period s |> <| next_periodic_time := e |>,
                        logged [TimerOneshotAbs TIMER_PERIODIC_TIMER e] w)) (s, w).
Proof.
  intros Hs Hon Ht. cbv zeta. destruct (rtc_period_pow s Hs Hon) as (k & Hk & Hp).
  destruct Hon as [Hc HB]. unfold rtc_timer_update. do 2 wp_step.
  rewrite HB. rewrite (proj2 (Z.eqb_neq _ _) Hc). cbn [negb andb orb].
  change (1 .<< ((if reg s RTC_REG_A .& 15 <=? 2 then reg s RTC_REG_A .& 15 + 7
                  else reg s RTC_REG_A .& 15) - 1)) with (rtc_period s).
  rewrite Hp, periodic_deadline by done.
  assert (s = s <| irq_coalesced := 0 |>) as Es.
  { destruct Hs as [_ _ _ H0]. destruct s. cbn in H0. by subst. }
  wp_run; [|done]. rewrite (rwf_coalesced s Hs), udiv_ok
    by (pose proof (pow2_pos k); lia).
  eapply wp_lift; [reflexivity|]. wp_run. by rewrite Es at 2.
Qed.

(** The interrupt of a cycle arms the next one exactly one period later. *)
Lemma first_cycle_deadline p n :
  0 < p -> 0 <= n -> (p | n) -> first_cycle p (cycle_deadline n) = n + p.
Proof.
  intros Hp Hn [q ->]. unfold first_cycle, cycle_deadline.
  assert ((q * p * 1000000000 / 32768 + 1) * 32768 / 1000000000 = q * p) as ->.
  { Z.to_euclidean_division_equations. nia. }
  rewrite Z.div_mul by lia. ring.
Qed.

(** What the periodic handler leaves alone, and the deadline it maintains. *)
Record periodic_at (p n : Z) (s : RTCState) : Prop := {
  pa_wf : rtc_wf s;
  pa_on : periodic_on s;
  pa_period : rtc_period s = p;
  pa_next : next_periodic_time s = cycle_deadline n }.

Lemma cycle_deadline_range n : 0 <= n <= 2 ^ 47 -> 0 <= cycle_deadline n < 2 ^ 62.
Proof.
  intros Hn. unfold cycle_deadline.
  assert (0 <= n * 1000000000 / 32768 < 2 ^ 62 - 1); [|lia].
  split; [apply Z.div_pos; lia|]. apply Z.div_lt_upper_bound; lia.
Qed.

(** Setting flags in register C is invisible to the periodic timer. *)
Lemma periodic_at_flag p n v s : periodic_at p n s -> periodic_at p n (set_reg RTC_REG_C v s).
Proof.
  intros [Hs Hon Hp Hn].
  assert (forall i, i = RTC_REG_A \/ i = RTC_REG_B -> reg (set_reg RTC_REG_C v s) i = reg s i)
    as E by (intros i [-> | ->]; by apply reg_set_reg_ne).
  split; [by apply rtc_wf_set_reg| | |done].
  - unfold periodic_on. rewrite !E by auto. done.
  - unfold rtc_period. rewrite !E by auto. done.
Qed.

Lemma periodic_step p n s w :
  periodic_at p n s -> 0 < p -> (p | n) -> 0 <= n <= 2 ^ 47 ->
  wp rtc_periodic_timer (fun _ s' =>
       periodic_at p (n + p) (fst s') /\ In (TimerOneshotAbs TIMER_PERIODIC_TIMER (cycle_deadline (n + p))) (w_log (snd s')) /\ In (SetIrqLevel RTC_IRQ 1) (w_log (snd s'))) (s, w).
Proof.
  intros [Hs Hon Hp Hn] Hpos Hdiv Hb.
  unfold rtc_periodic_timer. wp_step. wp_step. wp_step.
  eapply wp_mono.
  { apply timer_update_on; [done|done|]. rewrite Hn. by apply cycle_deadline_range. }
  intros [] s' ->. rewrite Hp, Hn, first_cycle_deadline by (done || lia).
  set (s1 := s <| period := p |> <| next_periodic_time := cycle_deadline (n + p) |>).
  assert (periodic_at p (n + p) s1) as H1 by (split; [by destruct Hs|by destruct Hon|done..]).
  assert (reg s1 RTC_REG_B = reg s RTC_REG_B) as EB by done.
  destruct Hon as [_ HB]. rewrite <-EB in HB. clearbody s1.
  do 4 wp_step; [|congruence]. change (z2b rtc_td_hack) with false. cbv iota.
  wp_run; (split; [by apply periodic_at_flag|]);
    rewrite ?w_log_logged, !in_app_iff; cbn; auto 10.
Qed.

Lemma first_cycle_bounds p t :
  0 < p -> 0 <= t ->
  0 <= first_cycle p t /\ (p | first_cycle p t) /\ t < cycle_deadline (first_cycle p t) <= t + cycle_deadline p.
Proof.
  intros Hp Ht. unfold first_cycle, cycle_deadline.
  set (c := t * 32768 / 1000000000).
  assert (0 <= c) by (apply Z.div_pos; lia).
  assert (c * 1000000000 <= t * 32768 < (c + 1) * 1000000000) as Hc.
  { unfold c. pose proof (Z.mod_pos_bound (t * 32768) 1000000000).
    pose proof (Z.div_mod (t * 32768) 1000000000). lia. }
  assert (c + 1 <= (c / p + 1) * p <= c + p) as Hn.
  { pose proof (Z.mod_pos_bound c p Hp). pose proof (Z.div_mod c p ltac:(lia)). nia. }
  clearbody c. set (n := (c / p + 1) * p) in *. split_and!; [lia|by exists (c / p + 1)| |].
  - assert (t <= n * 1000000000 / 32768); [|lia]. apply Z.div_le_lower_bound; lia.
  - assert (n * 1000000000 / 32768 <= t + p * 1000000000 / 32768); [|lia].
    rewrite <-Z.div_add_l by lia. apply Z.div_le_mono; lia.
Qed.

(** The periodic interrupt does not drift.  Programmed at time [t] (a
    write to register A or B) with rate code [c], the timer is armed for the
    first multiple of the period (2^(c-1) cycles of 32.768 kHz, c = 1, 2 meaning
    8, 9) strictly after [t]; and after any number [k] of periodic interrupts it
    is armed for exactly [k] periods later on the same grid, however late the
    handlers ran. *)
Lemma rtc_periodic_no_drift (s : RTCState) (t : Z) (k : nat) (w : World) :
  let p := rtc_period s in let n0 := first_cycle p t in
  rtc_wf s -> periodic_on s -> 0 <= t -> n0 + Z.of_nat k * p <= 2 ^ 47 ->
  (p | n0) /\ t < cycle_deadline n0 <= t + cycle_deadline p /\
  wp (rtc_timer_update t;; for_each (repeat tt k) (fun _ => rtc_periodic_timer))
     (fun _ s' => next_periodic_time (fst s') = cycle_deadline (n0 + Z.of_nat k * p) /\
                  rtc_wf (fst s') /\
                  In (TimerOneshotAbs TIMER_PERIODIC_TIMER
                        (cycle_deadline (n0 + Z.of_nat k * p))) (w_log (snd s')))
     (s, w).
Proof.
  cbv zeta. intros Hs Hon Ht Hb.
  destruct (rtc_period_pow s Hs Hon) as (e & He & Hp).
  assert (0 < rtc_period s) as Hpos by (rewrite Hp; apply pow2_pos; lia).
  destruct (first_cycle_bounds (rtc_period s) t Hpos Ht) as (H0 & Hdiv & Hlt).
  assert (t < 2 ^ 62).
  { pose proof (cycle_deadline_range (first_cycle (rtc_period s) t)). nia. }
  split; [done|]. split; [done|].
  remember (first_cycle (rtc_period s) t) as n0 eqn:En. set (p := rtc_period s) in *.
  apply wp_bind. eapply wp_mono; [by apply timer_update_on|]. intros [] s' ->.
  fold p. rewrite <-En.
  assert (periodic_at p n0 (s <| period := p |> <| next_periodic_time := cycle_deadline n0 |>))
    as Hat by (split; [by destruct Hs|by destruct Hon|done..]).
  revert Hat. set (s1 := s <| period := p |> <| _ := _ |>).
  assert (In (TimerOneshotAbs TIMER_PERIODIC_TIMER (cycle_deadline n0))
    (w_log (logged [TimerOneshotAbs TIMER_PERIODIC_TIMER (cycle_deadline n0)] w))) as Hin.
  { rewrite w_log_logged, in_app_iff. cbn; auto. }
  revert Hin. generalize (logged [TimerOneshotAbs TIMER_PERIODIC_TIMER (cycle_deadline n0)] w).
  clearbody s1 p. clear Hp En Hlt. revert n0 s1 Hb H0 Hdiv.
  induction k as [|k IH]; intros n s1 Hb H0 Hdiv w1 Hin Hat; cbn [repeat for_each].
  - wp_run. cbn [Z.of_nat]. rewrite Z.mul_0_l, Z.add_0_r.
    destruct Hat as [? ? ? ?]. done.
  - apply wp_bind. eapply wp_mono.
    { apply (periodic_step p n); [done..|]. nia. }
    intros [] [s2 w2] (Hat2 & Hin2 & _).
    replace (n + Z.of_nat (S k) * p) with (n + p + Z.of_nat k * p) by lia.
    apply IH; [lia|lia| |done|done]. apply Z.divide_add_r; [done|]. by exists 1; lia.
Qed.

(** ** The two-phase second update *)

(** The alarm interrupt: enabled, and every alarm register matches. *)
Definition alarm_fires (s : RTCState) : bool :=
  tst (reg s RTC_REG_B) REG_B_AIE &&
  (alarm_match s RTC_SECONDS_ALARM (second (current_tm s)) &&
   alarm_match s RTC_MINUTES_ALARM (minute (current_tm s)) &&
   alarm_match s RTC_HOURS_ALARM (hour (current_tm s))).

Lemma alarm_fires_ext s s' :
  current_tm s' = current_tm s ->
  (forall i, one_of i [RTC_REG_B; RTC_SECONDS_ALARM; RTC_MINUTES_ALARM; RTC_HOURS_ALARM] = true
             -> reg s' i = reg s i) ->
  alarm_fires s' = alarm_fires s.
Proof.
  intros Et E. unfold alarm_fires, alarm_match.
  rewrite Et, !(from_bcd_ext s s') by (by apply E). by rewrite !E.
Qed.

Lemma byte_uip a : inw 8 a ->
  tst (u8 (a .| REG_A_UIP)) REG_A_UIP = true /\ tst (u8 (a .& .~ REG_A_UIP)) REG_A_UIP = false.
Proof.
  intros Ha.
  assert ((tst (u8 (a .| REG_A_UIP)) REG_A_UIP
           && negb (tst (u8 (a .& .~ REG_A_UIP)) REG_A_UIP)) = true) as H.
  { revert a Ha. apply byte_forall. vm_compute. reflexivity. }
  apply andb_prop in H as [-> H]. by apply negb_true_iff in H as ->.
Qed.

Lemma byte_uf a : inw 8 a ->
  tst (u8 (a .| REG_C_UF)) REG_C_UF = true /\
  tst (u8 (u8 (a .| REG_C_UF) .| REG_C_IRQF)) REG_C_UF = true.
Proof.
  intros Ha.
  assert (tst (u8 (a .| REG_C_UF)) REG_C_UF
          && tst (u8 (u8 (a .| REG_C_UF) .| REG_C_IRQF)) REG_C_UF = true) as H.
  { revert a Ha. apply byte_forall. vm_compute. reflexivity. }
  by apply andb_prop in H.
Qed.

(** [s'] differs from [s] at most in register C, whose flags only grow. *)
Definition flags_only (s s' : RTCState) : Prop :=
  same_but_regs s s' /\ rtc_wf s' /\
  forall i, 0 <= i -> i <> RTC_REG_C -> reg s' i = reg s i.

Lemma flags_only_set v s : rtc_wf s -> flags_only s (set_reg RTC_REG_C v s).
Proof.
  intros Hs. split_and!; [done|by apply rtc_wf_set_reg|].
  intros. by apply reg_set_reg_ne.
Qed.

Lemma flags_only_trans s1 s2 s3 : flags_only s1 s2 -> flags_only s2 s3 -> flags_only s1 s3.
Proof.
  intros (A1 & _ & C1) (A2 & B2 & C2). split_and!; [by eapply same_but_regs_trans|done|].
  intros i Hi Hne. by rewrite C2, C1.
Qed.

Lemma date_shown_ext s s1 s2 :
  date_shown s s1 -> (forall i, In i date_regs -> reg s2 i = reg s1 i) -> date_shown s s2.
Proof.
  intros [] E. split; rewrite E by (cbn; auto 10); done.
Qed.

Definition irq_if (b : bool) : list event := if b then [SetIrqLevel RTC_IRQ 1] else [].

Lemma date_regs_small i : In i date_regs -> 0 <= i < 10.
Proof. intros H. repeat (destruct H as [<-|H]; [done|]). destruct H. Qed.

(** The end of the update: UIP is cleared and the next second scheduled. *)
Definition second_done (s : RTCState) : RTCState :=
  (set_reg RTC_REG_A (reg s RTC_REG_A .& .~ REG_A_UIP) s)
    <| next_second_time := s64 (next_second_time s + get_ticks_per_sec) |>.

Lemma second_done_spec s s1 s3 :
  date_shown s s1 -> flags_only s1 s3 -> tst (reg s3 RTC_REG_C) REG_C_UF = true ->
  date_shown s (second_done s3) /\ rtc_wf (second_done s3) /\
  current_tm (second_done s3) = current_tm s1 /\
  tst (reg (second_done s3) RTC_REG_A) REG_A_UIP = false /\
  tst (reg (second_done s3) RTC_REG_C) REG_C_UF = true.
Proof.
  intros Hd (Hf & Hw & Ho) Huf. unfold second_done. split_and!.
  - eapply date_shown_ext; [exact Hd|]. intros i Hi%date_regs_small.
    rewrite <-Ho by (unfold RTC_REG_C; lia).
    apply (reg_set_reg_ne s3 RTC_REG_A i); unfold RTC_REG_A; lia.
  - apply (rtc_wf_other (set_reg RTC_REG_A (reg s3 RTC_REG_A .& .~ REG_A_UIP) s3));
      [by apply rtc_wf_set_reg|done..|]. exact (rwf_coalesced s3 Hw).
  - by rewrite Hf.
  - change (tst (reg (set_reg RTC_REG_A (reg s3 RTC_REG_A .& .~ REG_A_UIP) s3) RTC_REG_A)
      REG_A_UIP = false).
    rewrite reg_set_reg_eq by done. apply byte_uip. by apply reg_byte.
  - change (tst (reg (set_reg RTC_REG_A (reg s3 RTC_REG_A .& .~ REG_A_UIP) s3) RTC_REG_C)
      REG_C_UF = true).
    by rewrite reg_set_reg_ne.
Qed.

Lemma flags_only_refl s : rtc_wf s -> flags_only s s.
Proof. intros Hs. split_and!; [by destruct s|done|done]. Qed.

Lemma check_alarm_spec s w :
  rtc_wf s ->
  wp rtc_check_alarm (fun _ s' =>
       flags_only s (fst s') /\ snd s' = logged (irq_if (alarm_fires s)) w) (s, w).
Proof.
  intros Hs. unfold rtc_check_alarm, alarm_fires. wp_run.
  all: rewrite ?Hb, ?Hb0; cbn [andb irq_if]; rewrite ?logged_nil.
  all: eauto using flags_only_set, flags_only_refl.
Qed.

Lemma update_ended_spec s w :
  rtc_wf s ->
  wp rtc_update_ended (fun _ s' =>
       flags_only s (fst s') /\ tst (reg (fst s') RTC_REG_C) REG_C_UF = true /\
       snd s' = logged (irq_if (tst (reg s RTC_REG_B) REG_B_UIE)) w) (s, w).
Proof.
  intros Hs. unfold rtc_update_ended. do 4 wp_step.
  pose proof (rtc_wf_set_reg s RTC_REG_C (reg s RTC_REG_C .| REG_C_UF) Hs) as Hs1.
  destruct (byte_uf (reg s RTC_REG_C) ltac:(by apply reg_byte)) as [U1 U2].
  rewrite !(reg_set_reg_ne s RTC_REG_C RTC_REG_B) by done.
  wp_run; rewrite Hb, !reg_set_reg_eq by done; split_and!; try done.
  - eapply flags_only_trans; by apply flags_only_set.
  - by apply flags_only_set.
  - by rewrite logged_nil.
Qed.

Lemma update_second2_spec s w :
  rtc_wf s -> tst (reg s RTC_REG_B) REG_B_SET = false -> 0 <= next_second_time s < 2 ^ 62 ->
  wp rtc_update_second2 (fun _ s' =>
       date_shown s (fst s') /\ rtc_wf (fst s') /\ current_tm (fst s') = current_tm s /\
       tst (reg (fst s') RTC_REG_A) REG_A_UIP = false /\
       tst (reg (fst s') RTC_REG_C) REG_C_UF = true /\
       next_second_time (fst s') = next_second_time s + 1000000000 /\
       snd s' = logged (irq_if (alarm_fires s) ++ irq_if (tst (reg s RTC_REG_B) REG_B_UIE)
                        ++ [TimerOneshotAbs TIMER_SECOND_TIMER
                              (next_second_time s + 1000000000)]) w) (s, w).
Proof.
  intros Hs Hset Hn. unfold rtc_update_second2.
  wp_step. wp_step. wp_step. rewrite Hset. cbn [negb when].
  wp_step. cbn [fst snd].
  pose proof (copy_date_regs s Hs) as Hd. pose proof (copy_date_other s) as Ho.
  pose proof (rtc_wf_copy_date s Hs) as Hw. pose proof (copy_date_frame s) as Hf.
  set (s1 := rtc_copy_date s) in *. clearbody s1.
  assert (alarm_fires s1 = alarm_fires s) as Ea.
  { apply alarm_fires_ext; [by rewrite Hf|]. intros i Hi%one_of_true.
    apply Ho; [done|..]; repeat (destruct Hi as [<-|Hi]; [done|]); destruct Hi. }
  assert (reg s1 RTC_REG_B = reg s RTC_REG_B) as EB by (by apply Ho).
  wp_step. eapply wp_mono; [by apply check_alarm_spec|].
  intros [] [s2 w2] [F2 E2]. cbn [fst snd] in F2, E2 |- *. subst w2.
  wp_step. eapply wp_mono; [apply update_ended_spec; by apply F2|].
  intros [] [s3 w3] (F3 & Huf & E3). cbn [fst snd] in F3, Huf, E3 |- *. subst w3.
  pose proof (flags_only_trans _ _ _ F2 F3) as F.
  pose proof (second_done_spec s s1 s3 Hd F Huf) as HD.
  assert (reg s2 RTC_REG_B = reg s RTC_REG_B) as EB2 by (rewrite <-EB; by apply F2).
  assert (next_second_time s3 = next_second_time s) as En.
  { destruct F as [F _]. by rewrite F, Hf. }
  assert (current_tm s1 = current_tm s) as Et by by rewrite Hf.
  destruct HD as (H1 & H2 & H3 & H4 & H5).
  assert (next_second_time (second_done s3) = next_second_time s + 1000000000) as En'.
  { unfold second_done, get_ticks_per_sec. cbn. rewrite En. apply s64_small. lia. }
  repeat wp_step. cbn [fst snd].
  split_and!; [exact H1|exact H2|rewrite <-Et; exact H3|exact H4|exact H5|exact En'|].
  rewrite EB2, Ea, !logged_logged, ?app_assoc. do 4 f_equal. exact En'.
Qed.

(** One second of the clock (oscillator running, guest not setting the
    time) takes two timer steps.  The first advances the internal time by
    [rtc_next_second] and announces the update by UIP while the registers
    still show the old time; the second, armed 10 ms later, shows the new time
    in all six registers, drops UIP, sets UF, raises the line once for a
    matching enabled alarm and once for an enabled update-ended interrupt, and
    arms the next second exactly one second after this one. *)
Lemma rtc_second_cycle (s : RTCState) (w : World) :
  rtc_wf s -> reg s RTC_REG_A .& 0x70 = 0x20 -> tst (reg s RTC_REG_B) REG_B_SET = false ->
  0 <= next_second_time s < 2 ^ 62 ->
  wp (rtc_update_second;; mid ← getd; rtc_update_second2;; mret mid)
     (fun mid s' =>
        current_tm mid = rtc_next_second (current_tm s) /\
        tst (reg mid RTC_REG_A) REG_A_UIP = true /\
        (forall i, In i date_regs -> reg mid i = reg s i) /\
        date_shown mid (fst s') /\ current_tm (fst s') = current_tm mid /\
        tst (reg (fst s') RTC_REG_A) REG_A_UIP = false /\
        tst (reg (fst s') RTC_REG_C) REG_C_UF = true /\
        next_second_time (fst s') = next_second_time s + 1000000000 /\
        snd s' = logged ([TimerOneshotAbs TIMER_SECOND_TIMER2 (next_second_time s + 10000000)]
                         ++ irq_if (alarm_fires mid)
                         ++ irq_if (tst (reg s RTC_REG_B) REG_B_UIE)
                         ++ [TimerOneshotAbs TIMER_SECOND_TIMER
                               (next_second_time s + 1000000000)]) w)
     (s, w).
Proof.
  intros Hs Hosc Hset Hn. unfold rtc_update_second.
  do 3 wp_step. rewrite Hosc. cbn [negb Z.eqb Pos.eqb].
  do 4 wp_step. set (s1 := s <| current_tm := _ |>).
  assert (rtc_wf s1) as Hs1 by by destruct Hs.
  change (reg s1 RTC_REG_B) with (reg s RTC_REG_B). rewrite Hset. cbn [negb when].
  set (mid := set_reg RTC_REG_A (reg s1 RTC_REG_A .| REG_A_UIP) s1).
  assert (forall i, 0 <= i -> i <> RTC_REG_A -> reg mid i = reg s i) as Eo.
  { intros. unfold mid. by rewrite reg_set_reg_ne. }
  repeat wp_step. fold mid. cbn [fst snd].
  change (next_second_time mid) with (next_second_time s).
  change (if Z.quot (get_ticks_per_sec * 1) 100 <? 1 then 1
          else Z.quot (get_ticks_per_sec * 1) 100) with 10000000.
  rewrite s64_small by lia.
  eapply wp_mono.
  { apply update_second2_spec; [by apply rtc_wf_set_reg|by rewrite Eo|done]. }
  intros [] [s' w'] (D & W & Et & UIP & UF & En & E). apply wp_ret. cbn [fst snd] in *.
  subst w'.
  split_and!; try done.
  - unfold mid. rewrite reg_set_reg_eq by done. apply byte_uip. by apply reg_byte.
  - intros i Hi%date_regs_small. apply Eo; [lia|unfold RTC_REG_A; lia].
  - rewrite logged_logged, Eo by done. done.
Qed.
End RTC.

(** ** Concrete runs *)

#[local] Existing Instance utils_ref.
#[local] Existing Instance rtc_time_date_ref.

#[export] Instance rtc_time_date_ref_laws : RtcTimeDateLaws rtc_time_date_ref.
Proof.
  split; intros; cbn; first [apply u8_small; unfold inw; lia | apply s32_small; lia].
Qed.

(** A clock set by the host, with the 1024 Hz periodic interrupt on. *)
Definition rtc_demo : RTCState :=
  rtc_set_date (mkRtcTimeDate 59 59 23 28 2 2019)
    ((set_reg RTC_REG_A 0x26 (set_reg RTC_REG_B 0x52 rtc_state_bss))
       <| base_year := 1900 |> <| next_second_time := 5000000000 |>
       <| cmos_index := RTC_REG_C |>).

Lemma rtc_demo_wf : rtc_wf rtc_demo.
Proof.
  unfold rtc_demo, rtc_set_date. apply rtc_wf_copy_date. split; try done.
  repeat (apply List.Forall_cons; [by split|]). apply List.Forall_nil.
Qed.

Lemma rtc_safe_witness :
  wp (rtc_pre_init;;
      for_each [RtcOut 0x70 1 0x8b; RtcOut 0x71 1 0x42; RtcTimer 0x1e; RtcOut 0x70 1 0x0c;
                RtcIn 0x71 1; RtcTimer 0x18] rtc_exec)
     (fun _ s => rtc_wf (fst s)) (rtc_state_bss, world0).
Proof.
  apply rtc_safe. repeat (apply List.Forall_cons; [simpl; done|]). apply List.Forall_nil.
Defined.

Lemma muldiv64_exact_witness :
  muldiv64 5000000000 1000000000 32768 = (5000000000 * 1000000000 / 32768) mod 2 ^ 64.
Proof. apply muldiv64_exact; unfold inw; lia. Defined.

Lemma rtc_next_second_correct_witness :
  let tm := mkRtcTimeDate 59 59 23 28 1 119 in
  tm_valid (rtc_next_second tm) /\ epoch_seconds (rtc_next_second tm) = epoch_seconds tm + 1.
Proof.
  apply rtc_next_second_correct; [|cbn; lia].
  constructor; cbn -[month_length]; [lia..|].
  change (month_length 1 (119 + 1900)) with 28. lia.
Defined.

Lemma rtc_date_roundtrip_witness :
  rtc_set_time (rtc_copy_date rtc_demo) =
    (rtc_copy_date rtc_demo) <| current_tm :=
      (current_tm rtc_demo) <| month := month (current_tm rtc_demo) - 1 |>
                            <| year := year (current_tm rtc_demo) mod 100 |> |>.
Proof. 
  apply rtc_date_roundtrip; [apply rtc_demo_wf|..];
    first [reflexivity | vm_compute; split; first [reflexivity | discriminate]].
 Defined.

Lemma rtc_guest_month_lost_witness :
  let s' := rtc_copy_date (rtc_set_time rtc_demo) in
  reg s' RTC_SECONDS = reg rtc_demo RTC_SECONDS /\
  reg s' RTC_MINUTES = reg rtc_demo RTC_MINUTES /\
  reg s' RTC_HOURS = reg rtc_demo RTC_HOURS /\
  reg s' RTC_DAY_OF_MONTH = reg rtc_demo RTC_DAY_OF_MONTH /\
  reg s' RTC_MONTH = u8 (rtc_to_bcd rtc_demo 1) /\ reg s' RTC_MONTH <> reg rtc_demo RTC_MONTH.
Proof.
  apply (rtc_guest_month_lost rtc_demo 59 59 23 28 2 19);
    [apply rtc_demo_wf|first [lia|vm_compute; reflexivity]..].
Defined.

Lemma rtc_ack_witness :
  cmos_ioport_read 0x71 (rtc_demo, world0) =
    Ok (reg rtc_demo RTC_REG_C,
        (set_reg RTC_REG_C 0 rtc_demo, logged [SetIrqLevel RTC_IRQ 0] world0)) /\
  reg (set_reg RTC_REG_C 0 rtc_demo) RTC_REG_C = 0.
Proof. apply rtc_ack; [apply rtc_demo_wf|reflexivity..]. Defined.

Lemma rtc_periodic_no_drift_witness :
  let n0 := first_cycle (rtc_period rtc_demo) 7000000 in
  (rtc_period rtc_demo | n0) /\
  7000000 < cycle_deadline n0 <= 7000000 + cycle_deadline (rtc_period rtc_demo) /\
  wp (rtc_timer_update 7000000;; for_each (repeat tt 5) (fun _ => rtc_periodic_timer))
     (fun _ s' =>
        next_periodic_time (fst s') = cycle_deadline (n0 + 5 * rtc_period rtc_demo) /\
        rtc_wf (fst s') /\
        In (TimerOneshotAbs TIMER_PERIODIC_TIMER
              (cycle_deadline (n0 + 5 * rtc_period rtc_demo))) (w_log (snd s')))
     (rtc_demo, world0).
Proof.
  apply (rtc_periodic_no_drift rtc_demo 7000000 5 world0);
    [apply rtc_demo_wf|split; vm_compute; congruence|lia|].
  apply Z.leb_le. vm_compute. reflexivity.
Defined.

Lemma rtc_second_cycle_witness :
  wp (rtc_update_second;; mid ← getd; rtc_update_second2;; mret mid)
     (fun mid s' =>
        current_tm mid = rtc_next_second (current_tm rtc_demo) /\
        tst (reg mid RTC_REG_A) REG_A_UIP = true /\
        (forall i, In i date_regs -> reg mid i = reg rtc_demo i) /\
        date_shown mid (fst s') /\ current_tm (fst s') = current_tm mid /\
        tst (reg (fst s') RTC_REG_A) REG_A_UIP = false /\
        tst (reg (fst s') RTC_REG_C) REG_C_UF = true /\
        next_second_time (fst s') = 6000000000 /\
        snd s' = logged ([TimerOneshotAbs TIMER_SECOND_TIMER2 5010000000]
                         ++ irq_if (alarm_fires mid) ++ irq_if true
                         ++ [TimerOneshotAbs TIMER_SECOND_TIMER 6000000000]) world0)
     (rtc_demo, world0).
Proof.
  apply (rtc_second_cycle rtc_demo world0);
    [apply rtc_demo_wf|vm_compute; reflexivity..|].
  vm_compute. split; first [reflexivity | discriminate].
Defined.
