(* ===== verification/Serial.v ===== *)
(** * The 16550A serial port (components/Init/src/serial.c)

    [SerialState] is the C struct (the fields the compiled code uses) together
    with the file's static [tsc_frequency]; [Serial] adds the page shared with
    the serial server, a ring of received characters.  The theorems: safety of
    every handler, with termination of the two receive loops; the FIFO as a
    bounded queue; the interrupt line always agreeing with IIR; received
    characters delivered in order with no lost wake-up; transmitted characters
    neither lost, duplicated nor reordered; and the output throttle. *)

From S2P Require Import Prelude.

(** timers.h and virtio_irq.h *)
Definition TIMER_FIFO_TIMEOUT : Z := 5.
Definition TIMER_TRANSMIT_TIMER : Z := 6.
Definition TIMER_MODEM_STATUS_TIMER : Z := 7.
Definition TIMER_MORE_CHARS : Z := 8.
Definition TTYS0_IRQ : Z := 4.

Definition UART_LCR_DLAB : Z := 0x80.
Definition UART_IER_MSI : Z := 0x08.
Definition UART_IER_RLSI : Z := 0x04.
Definition UART_IER_THRI : Z := 0x02.
Definition UART_IER_RDI : Z := 0x01.
Definition UART_IIR_NO_INT : Z := 0x01.
Definition UART_IIR_ID : Z := 0x06.
Definition UART_IIR_MSI : Z := 0x00.
Definition UART_IIR_THRI : Z := 0x02.
Definition UART_IIR_RDI : Z := 0x04.
Definition UART_IIR_RLSI : Z := 0x06.
Definition UART_IIR_CTI : Z := 0x0C.
Definition UART_IIR_FE : Z := 0xC0.
Definition UART_MCR_LOOP : Z := 0x10.
Definition UART_MCR_OUT2 : Z := 0x08.
Definition UART_MSR_DCD : Z := 0x80.
Definition UART_MSR_RI : Z := 0x40.
Definition UART_MSR_DSR : Z := 0x20.
Definition UART_MSR_CTS : Z := 0x10.
Definition UART_MSR_TERI : Z := 0x04.
Definition UART_MSR_ANY_DELTA : Z := 0x0F.
Definition UART_LSR_TEMT : Z := 0x40.
Definition UART_LSR_THRE : Z := 0x20.
Definition UART_LSR_BI : Z := 0x10.
Definition UART_LSR_OE : Z := 0x02.
Definition UART_LSR_DR : Z := 0x01.
Definition UART_LSR_INT_ANY : Z := 0x1E.
Definition UART_FCR_ITL_1 : Z := 0x00.
Definition UART_FCR_ITL_2 : Z := 0x40.
Definition UART_FCR_ITL_3 : Z := 0x80.
Definition UART_FCR_ITL_4 : Z := 0xC0.
Definition UART_FCR_XFR : Z := 0x04.
Definition UART_FCR_RFR : Z := 0x02.
Definition UART_FCR_FE : Z := 0x01.
Definition UART_FIFO_LENGTH : Z := 16.
Definition XMIT_FIFO : Z := 0.
Definition RECV_FIFO : Z := 1.
Definition MAX_XMIT_RETRY : Z := 4.

Record SerialFIFO := mkSerialFIFO {
  data : list Z;              (* uint8_t [UART_FIFO_LENGTH] *)
  count : Z;                  (* uint8_t *)
  itl : Z;                    (* uint8_t, Interrupt Trigger Level *)
  tail : Z;                   (* uint8_t *)
  head : Z                    (* uint8_t *) }.
#[export] Instance eta_SerialFIFO : Eta SerialFIFO := fun f =>
  mkSerialFIFO (data f) (count f) (itl f) (tail f) (head f).

Record SerialState := mkSerialState {
  divider : Z;                (* uint16_t *)
  rbr : Z; thr : Z; tsr : Z; ier : Z; iir : Z; lcr : Z; mcr : Z; lsr : Z; msr : Z;
  scr : Z; fcr : Z;           (* uint8_t *)
  thr_ipending : Z; last_break_enable : Z; baudbase : Z; tsr_retry : Z;    (* int *)
  last_xmit_ts : Z;           (* uint64_t *)
  recv_fifo : SerialFIFO;
  xmit_fifo : SerialFIFO;
  timeout_ipending : Z;       (* int *)
  char_transmit_time : Z;     (* uint64_t *)
  poll_msl : Z; serial_level : Z; chars_sent : Z;    (* int *)
  tsc_frequency : Z           (* static uint64_t of the file *) }.
#[export] Instance eta_SerialState : Eta SerialState := fun s =>
  mkSerialState (divider s) (rbr s) (thr s) (tsr s) (ier s) (iir s) (lcr s) (mcr s) (lsr s)
    (msr s) (scr s) (fcr s) (thr_ipending s) (last_break_enable s) (baudbase s)
    (tsr_retry s) (last_xmit_ts s) (recv_fifo s) (xmit_fifo s) (timeout_ipending s)
    (char_transmit_time s) (poll_msl s) (serial_level s) (chars_sent s) (tsc_frequency s).

(** The zero-initialised statics. *)
Definition fifo_bss : SerialFIFO := mkSerialFIFO (repeat 0 16) 0 0 0 0.
Definition serialstate_bss : SerialState :=
  mkSerialState 0 0 0 0 0 0 0 0 0 0 0 0 0 0 0 0 0 fifo_bss fifo_bss 0 0 0 0 0 0.

(** [(fifo) ? &s->recv_fifo : &s->xmit_fifo] *)
Definition fifo_of (fifo : Z) (s : SerialState) : SerialFIFO :=
  if z2b fifo then recv_fifo s else xmit_fifo s.
Definition set_fifo (fifo : Z) (f : SerialFIFO) (s : SerialState) : SerialState :=
  if z2b fifo then s <| recv_fifo := f |> else s <| xmit_fifo := f |>.

(** The page shared with the serial server. *)
Record getchar_buffer := mkGetchar {
  gb_head : Z;                (* uint32_t *)
  gb_tail : Z;                (* uint32_t *)
  gb_buf : list Z             (* char [4096 - 8] *) }.
#[export] Instance eta_getchar_buffer : Eta getchar_buffer := fun b =>
  mkGetchar (gb_head b) (gb_tail b) (gb_buf b).
Definition GETCHAR_SIZE : Z := 4096 - 8.

Record Serial := mkSerial { serialstate : SerialState; serial_getchar_buf : getchar_buffer }.
#[export] Instance eta_Serial : Eta Serial := fun d =>
  mkSerial (serialstate d) (serial_getchar_buf d).

(** Assignments to the 8-bit registers truncate. *)
Definition set_lsr (v : Z) (s : SerialState) : SerialState := s <| lsr := u8 v |>.
Definition set_msr (v : Z) (s : SerialState) : SerialState := s <| msr := u8 v |>.

Section SERIAL.
Context {U : Utils}.

Definition get_ticks_per_sec : Z := 1000000000.

Definition fifo_clear (fifo : Z) (s : SerialState) : SerialState :=
  let f := fifo_of fifo s in
  set_fifo fifo (f <| data := repeat 0 16 |> <| count := 0 |> <| head := 0 |> <| tail := 0 |>) s.

Definition fifo_put (fifo chr : Z) : Dev SerialState unit :=
  s ← getd;
  let f := fifo_of fifo s in
  (* Receive overruns do not overwrite FIFO contents. *)
  f ← (if (fifo =? XMIT_FIFO) || (count f <? UART_FIFO_LENGTH) then
         d ← lift (idx_set (data f) (head f) chr);
         let f := f <| data := d |> <| head := u8 (head f + 1) |> in
         mret (if head f =? UART_FIFO_LENGTH then f <| head := 0 |> else f)
       else mret f);
  if count f <? UART_FIFO_LENGTH then
    modd (set_fifo fifo (f <| count := u8 (count f + 1) |>))
  else
    modd (set_fifo fifo f);;
    when (fifo =? RECV_FIFO) (modd (fun s => set_lsr (lsr s .| UART_LSR_OE) s)).

Definition fifo_get (fifo : Z) : Dev SerialState Z :=
  s ← getd;
  let f := fifo_of fifo s in
  if count f =? 0 then mret 0
  else
    c ← lift (idx (data f) (tail f));
    let f := f <| tail := u8 (tail f + 1) |> in
    let f := if tail f =? UART_FIFO_LENGTH then f <| tail := 0 |> else f in
    modd (set_fifo fifo (f <| count := u8 (count f - 1) |>));;
    mret c.

(** The highest-priority enabled interrupt condition. *)
Definition pending_iir (s : SerialState) : Z :=
  if tst (ier s) UART_IER_RLSI && tst (lsr s) UART_LSR_INT_ANY then UART_IIR_RLSI
  else if tst (ier s) UART_IER_RDI && z2b (timeout_ipending s) then UART_IIR_CTI
  else if tst (ier s) UART_IER_RDI && tst (lsr s) UART_LSR_DR &&
          (negb (tst (fcr s) UART_FCR_FE) || (itl (recv_fifo s) <=? count (recv_fifo s)))
  then UART_IIR_RDI
  else if tst (ier s) UART_IER_THRI && z2b (thr_ipending s) then UART_IIR_THRI
  else if tst (ier s) UART_IER_MSI && tst (msr s) UART_MSR_ANY_DELTA then UART_IIR_MSI
  else UART_IIR_NO_INT.

Definition serial_update_irq : Dev SerialState unit :=
  s ← getd;
  let tmp_iir := pending_iir s in
  modd (fun s => s <| iir := tmp_iir .| (iir s .& 0xF0) |>);;
  if negb (tmp_iir =? UART_IIR_NO_INT) then emit (SetIrqLevel TTYS0_IRQ 1)
  else emit (SetIrqLevel TTYS0_IRQ 0).

Definition serial_update_parameters : Dev SerialState unit :=
  s ← getd;
  if divider s =? 0 then mret tt
  else
    (* Start bit, parity bit, data bits, stop bits. *)
    let frame_size := if tst (lcr s) 0x08 then 2 else 1 in
    let stop_bits := if tst (lcr s) 0x04 then 2 else 1 in
    let data_bits := (lcr s .& 0x03) + 5 in
    let frame_size := frame_size + (data_bits + stop_bits) in
    let speed := Z.quot (baudbase s) (divider s) in
    assertC (0 <? speed);;
    modd (fun s => s <| char_transmit_time :=
                       u64 (Z.quot get_ticks_per_sec speed * frame_size) |>).

Definition serial_update_msl : Dev SerialState unit :=
  s ← getd;
  let omsr := msr s in
  modd (fun s => set_msr (msr s .| UART_MSR_CTS) s);;
  modd (fun s => set_msr (msr s .| UART_MSR_DCD) s);;
  s ← getd;
  when (negb (msr s =? omsr))
    (* Set delta bits *)
    (modd (fun s => set_msr (msr s .| ((msr s .>> 4) .^ (omsr .>> 4))) s);;
     (* UART_MSR_TERI only if change was from 1 -> 0 *)
     modd (fun s => if tst (msr s) UART_MSR_TERI && negb (tst omsr UART_MSR_RI)
                    then set_msr (msr s .& .~ UART_MSR_TERI) s else s);;
     serial_update_irq).

(** serial_receive1 with a buffer of bytes *)
Definition serial_receive1 (buf : list Z) : Dev SerialState unit :=
  s ← getd;
  (if tst (fcr s) UART_FCR_FE then
     for_each buf (fun c => fifo_put RECV_FIFO c);;
     modd (fun s => set_lsr (lsr s .| UART_LSR_DR) s);;
     (* call the timeout receive callback in 4 char transmit time *)
     now ← current_time_ns (tsc_frequency s);
     s ← getd;
     emit (TimerOneshotAbs TIMER_FIFO_TIMEOUT (u64 (now + u64 (char_transmit_time s * 4))))
   else
     when (tst (lsr s) UART_LSR_DR) (modd (fun s => set_lsr (lsr s .| UART_LSR_OE) s));;
     c ← lift (idx buf 0);
     modd (fun s => s <| rbr := c |>);;
     modd (fun s => set_lsr (lsr s .| UART_LSR_DR) s));;
  serial_update_irq.

(** serial_xmit: load the shift register unless a retry is pending *)
Definition xmit_load : Dev SerialState unit :=
  s ← getd;
  when (tsr_retry s <=? 0)
    (if tst (fcr s) UART_FCR_FE then
       c ← fifo_get XMIT_FIFO;
       modd (fun s => s <| tsr := c |>);;
       s ← getd;
       when (negb (z2b (count (xmit_fifo s))))
         (modd (fun s => set_lsr (lsr s .| UART_LSR_THRE) s))
     else
       modd (fun s => s <| tsr := thr s |>);;
       modd (fun s => set_lsr (lsr s .| UART_LSR_THRE) s)).

(** serial_xmit: after the character left the shift register *)
Definition xmit_done : Dev SerialState unit :=
  s ← getd;
  now ← current_time_ns (tsc_frequency s);
  modd (fun s => s <| last_xmit_ts := now |>);;
  s ← getd;
  when (negb (tst (lsr s) UART_LSR_THRE))
    (emit (TimerOneshotAbs TIMER_TRANSMIT_TIMER
             (u64 (last_xmit_ts s + char_transmit_time s))));;
  when (tst (lsr s) UART_LSR_THRE)
    (modd (fun s => set_lsr (lsr s .| UART_LSR_TEMT) s);;
     modd (fun s => s <| thr_ipending := 1 |>);;
     serial_update_irq).

Definition serial_xmit : Dev SerialState unit :=
  s ← getd;
  new_xmit_ts ← current_time_ns (tsc_frequency s);
  xmit_load;;
  s ← getd;
  if tst (mcr s) UART_MCR_LOOP then
    (* in loopback mode, say that we just received a char *)
    serial_receive1 [tsr s];; xmit_done
  else if 16 <=? chars_sent s then
    if tsr_retry s <=? MAX_XMIT_RETRY then
      modd (fun s => s <| tsr_retry := tsr_retry s + 1 |>);;
      s ← getd;
      emit (TimerOneshotAbs TIMER_TRANSMIT_TIMER (u64 (new_xmit_ts + char_transmit_time s)))
    else
      when (poll_msl s <? 0) (modd (fun s => s <| tsr_retry := -1 |>));;
      xmit_done
  else
    emit (PutChar (tsr s));;
    modd (fun s => s <| chars_sent := chars_sent s + 1 |>);;
    modd (fun s => s <| tsr_retry := 0 |>);;
    xmit_done.

(** serial_ioport_write, by register *)
Definition write_data (val : Z) : Dev SerialState unit :=
  s ← getd;
  if tst (lcr s) UART_LCR_DLAB then
    modd (fun s => s <| divider := u16 ((divider s .& 0xff00) .| val) |>);;
    serial_update_parameters
  else
    modd (fun s => s <| thr := u8 val |>);;
    s ← getd;
    (if tst (fcr s) UART_FCR_FE then
       fifo_put XMIT_FIFO (thr s);;
       modd (fun s => s <| thr_ipending := 0 |>);;
       modd (fun s => set_lsr (lsr s .& .~ UART_LSR_TEMT) s);;
       modd (fun s => set_lsr (lsr s .& .~ UART_LSR_THRE) s);;
       serial_update_irq
     else
       modd (fun s => s <| thr_ipending := 0 |>);;
       modd (fun s => set_lsr (lsr s .& .~ UART_LSR_THRE) s);;
       serial_update_irq);;
    serial_xmit.

Definition write_ier (val : Z) : Dev SerialState unit :=
  s ← getd;
  if tst (lcr s) UART_LCR_DLAB then
    modd (fun s => s <| divider := u16 ((divider s .& 0x00ff) .| u32 (val .<< 8)) |>);;
    serial_update_parameters
  else
    modd (fun s => s <| ier := val .& 0x0f |>);;
    s ← getd;
    when (0 <=? poll_msl s)
      (if tst (ier s) UART_IER_MSI then
         modd (fun s => s <| poll_msl := 1 |>);;
         serial_update_msl
       else modd (fun s => s <| poll_msl := 0 |>));;
    s ← getd;
    when (tst (lsr s) UART_LSR_THRE)
      (modd (fun s => s <| thr_ipending := 1 |>);;
       serial_update_irq).

(** The receive trigger level the two top bits of FCR select. *)
Definition fcr_itl (val : Z) : Z :=
  if val .& 0xC0 =? UART_FCR_ITL_1 then 1
  else if val .& 0xC0 =? UART_FCR_ITL_2 then 4
  else if val .& 0xC0 =? UART_FCR_ITL_3 then 8
  else 14.

Definition write_fcr (val : Z) : Dev SerialState unit :=
  let val := val .& 0xFF in
  s ← getd;
  if fcr s =? val then mret tt
  else
    (* Did the enable/disable flag change? If so, make sure FIFOs get flushed *)
    let val := if tst (val .^ fcr s) UART_FCR_FE
               then val .| (UART_FCR_XFR .| UART_FCR_RFR) else val in
    (* FIFO clear *)
    when (tst val UART_FCR_RFR)
      (emit (TimerStop TIMER_FIFO_TIMEOUT);;
       modd (fun s => s <| timeout_ipending := 0 |>);;
       modd (fifo_clear RECV_FIFO));;
    when (tst val UART_FCR_XFR) (modd (fifo_clear XMIT_FIFO));;
    (if tst val UART_FCR_FE then
       modd (fun s => s <| iir := iir s .| UART_IIR_FE |>);;
       modd (fun s => s <| recv_fifo := (recv_fifo s) <| itl := fcr_itl val |> |>)
     else modd (fun s => s <| iir := u8 (iir s .& .~ UART_IIR_FE) |>));;
    (* Set fcr - or at least the bits in it that are supposed to "stick" *)
    modd (fun s => s <| fcr := val .& 0xC9 |>);;
    serial_update_irq.

Definition write_lcr (val : Z) : Dev SerialState unit :=
  modd (fun s => s <| lcr := u8 val |>);;
  serial_update_parameters;;
  let break_enable := (val .>> 6) .& 1 in
  modd (fun s => if negb (break_enable =? last_break_enable s)
                 then s <| last_break_enable := break_enable |> else s).

Definition serial_ioport_write (addr val : Z) : Dev SerialState unit :=
  let addr := addr .& 7 in
  if addr =? 1 then write_ier val
  else if addr =? 2 then write_fcr val
  else if addr =? 3 then write_lcr val
  else if addr =? 4 then modd (fun s => s <| mcr := val .& 0x1f |>)
  else if addr =? 5 then mret tt
  else if addr =? 6 then mret tt
  else if addr =? 7 then modd (fun s => s <| scr := u8 val |>)
  else write_data val.

Definition serial_can_receive (s : SerialState) : Z :=
  if tst (fcr s) UART_FCR_FE then
    if count (recv_fifo s) <? UART_FIFO_LENGTH then
      (* Advertise (fifo.itl - fifo.count) bytes when count < ITL, and 1 if above. *)
      if count (recv_fifo s) <=? itl (recv_fifo s)
      then itl (recv_fifo s) - count (recv_fifo s) else 1
    else 0
  else b2z (negb (tst (lsr s) UART_LSR_DR)).

(** serial_ioport_read, by register *)
Definition read_data : Dev SerialState Z :=
  s ← getd;
  if tst (lcr s) UART_LCR_DLAB then mret (divider s .& 0xff)
  else
    ret ← (if tst (fcr s) UART_FCR_FE then
             ret ← fifo_get RECV_FIFO;
             s ← getd;
             (if count (recv_fifo s) =? 0 then
                modd (fun s => set_lsr (lsr s .& .~ (UART_LSR_DR .| UART_LSR_BI)) s)
              else
                now ← current_time_ns (tsc_frequency s);
                emit (TimerOneshotAbs TIMER_FIFO_TIMEOUT
                        (u64 (now + u64 (char_transmit_time s * 4)))));;
             modd (fun s => s <| timeout_ipending := 0 |>);;
             mret ret
           else
             modd (fun s => set_lsr (lsr s .& .~ (UART_LSR_DR .| UART_LSR_BI)) s);;
             mret (rbr s));
    serial_update_irq;;
    mret ret.

Definition read_iir : Dev SerialState Z :=
  s ← getd;
  let ret := iir s in
  when (ret .& UART_IIR_ID =? UART_IIR_THRI)
    (modd (fun s => s <| thr_ipending := 0 |>);; serial_update_irq);;
  mret ret.

Definition read_lsr : Dev SerialState Z :=
  s ← getd;
  let ret := lsr s in
  (* Clear break and overrun interrupts *)
  when (tst (lsr s) (UART_LSR_BI .| UART_LSR_OE))
    (modd (fun s => set_lsr (lsr s .& .~ (UART_LSR_BI .| UART_LSR_OE)) s);;
     serial_update_irq);;
  mret ret.

Definition read_msr : Dev SerialState Z :=
  s ← getd;
  if tst (mcr s) UART_MCR_LOOP then
    (* in loopback, the modem output pins are connected to the inputs *)
    mret ((((mcr s .& 0x0c) .<< 4) .| ((mcr s .& 0x02) .<< 3)) .| ((mcr s .& 0x01) .<< 5))
  else
    when (0 <=? poll_msl s) serial_update_msl;;
    s ← getd;
    let ret := msr s in
    (* Clear delta bits & msr int after read, if they were set *)
    when (tst (msr s) UART_MSR_ANY_DELTA)
      (modd (fun s => set_msr (msr s .& 0xF0) s);; serial_update_irq);;
    mret ret.

Definition serial_ioport_read (addr : Z) : Dev SerialState Z :=
  let addr := addr .& 7 in
  s ← getd;
  if addr =? 1 then
    if tst (lcr s) UART_LCR_DLAB then mret ((divider s .>> 8) .& 0xff) else mret (ier s)
  else if addr =? 2 then read_iir
  else if addr =? 3 then mret (lcr s)
  else if addr =? 4 then mret (mcr s)
  else if addr =? 5 then read_lsr
  else if addr =? 6 then read_msr
  else if addr =? 7 then mret (scr s)
  else read_data.

(** There's data in recv_fifo and s->rbr has not been read for 4 char
    transmit times *)
Definition fifo_timeout_int : Dev SerialState unit :=
  s ← getd;
  when (z2b (count (recv_fifo s)))
    (modd (fun s => s <| timeout_ipending := 1 |>);; serial_update_irq).

Definition serial_reset : Dev SerialState unit :=
  modd (fun s => s <| rbr := 0 |> <| ier := 0 |> <| iir := UART_IIR_NO_INT |> <| lcr := 0 |>
    <| lsr := UART_LSR_TEMT .| UART_LSR_THRE |>
    <| msr := UART_MSR_DCD .| UART_MSR_DSR .| UART_MSR_CTS |>
    (* Default to 9600 baud, 1 start bit, 8 data bits, 1 stop bit, no parity. *)
    <| divider := 0x0C |> <| mcr := UART_MCR_OUT2 |> <| scr := 0 |> <| tsr_retry := 0 |>
    <| char_transmit_time := Z.quot get_ticks_per_sec 9600 * 10 |> <| poll_msl := 0 |>);;
  modd (fifo_clear RECV_FIFO);;
  modd (fifo_clear XMIT_FIFO);;
  s ← getd;
  now ← current_time_ns (tsc_frequency s);
  modd (fun s => s <| last_xmit_ts := now |>);;
  modd (fun s => s <| thr_ipending := 0 |> <| last_break_enable := 0 |>
                   <| serial_level := 0 |>).

Definition serial_init_core : Dev SerialState unit := serial_reset.

(** From the port to the file's state. *)
Definition on_port {A} (m : Dev SerialState A) : Dev Serial A :=
  on_dev (fun d => Some (serialstate d)) (fun s d => d <| serialstate := s |>) m.

(** serial_buffer_dequeue: the next received character, if any *)
Definition serial_buffer_dequeue : Dev Serial (option Z) :=
  d ← getd;
  let b := serial_getchar_buf d in
  if negb (gb_head b =? gb_tail b) then
    c ← lift (idx (gb_buf b) (gb_head b));
    modd (fun d => d <| serial_getchar_buf :=
      (serial_getchar_buf d) <| gb_head := (gb_head b + 1) mod GETCHAR_SIZE |> |>);;
    mret (Some c)
  else mret None.

(** while (serial_can_receive(s) && serial_buffer_dequeue(&c)) serial_receive1(s, &c, 1); *)
Fixpoint receive_loop (fuel : nat) : Dev Serial unit :=
  match fuel with
  | O => fail OutOfFuel
  | S fuel =>
      d ← getd;
      if z2b (serial_can_receive (serialstate d)) then
        c ← serial_buffer_dequeue;
        match c with
        | Some c => on_port (serial_receive1 [u8 c]);; receive_loop fuel
        | None => mret tt
        end
      else mret tt
  end.

(** At most one character per FIFO place is received (see [receive_loop_ok]). *)
Definition RECEIVE_FUEL : nat := 17.

Definition serial_character_interrupt : Dev Serial unit :=
  receive_loop RECEIVE_FUEL;;
  d ← getd;
  (* Set up a timeout so we go get more chars later *)
  when (negb (z2b (serial_can_receive (serialstate d))))
    (emit (TimerOneshotRel TIMER_MORE_CHARS (3 * NS_IN_MS))).

Definition serial_timer_interrupt (completed : Z) : Dev Serial unit :=
  when (tst completed (BIT TIMER_FIFO_TIMEOUT)) (on_port fifo_timeout_int);;
  when (tst completed (BIT TIMER_TRANSMIT_TIMER))
    (on_port (modd (fun s => s <| chars_sent := 0 |>);; serial_xmit));;
  when (tst completed (BIT TIMER_MODEM_STATUS_TIMER)) (on_port serial_update_msl);;
  when (tst completed (BIT TIMER_MORE_CHARS)) serial_character_interrupt.

Definition serial_pre_init : Dev SerialState unit :=
  modd (fun s => s <| serial_level := 0 |>);;
  freq ← init_timer_tsc_frequency;
  modd (fun s => s <| tsc_frequency := freq |>);;
  modd (fun s => s <| baudbase := 115200 |>);;
  serial_init_core;;
  serial_update_msl.

Definition serial_port_in (port_no size : Z) : Dev SerialState (ioport_fault_result * option Z) :=
  if negb (size =? 1) then mret (IO_FAULT_ERROR, None)
  else r ← serial_ioport_read port_no; mret (IO_FAULT_HANDLED, Some r).

Definition serial_port_out (port_no size value : Z) : Dev SerialState ioport_fault_result :=
  if negb (size =? 1) then mret IO_FAULT_ERROR
  else serial_ioport_write port_no value;; mret IO_FAULT_HANDLED.

(** ** The handlers as one operation type *)

Inductive serial_op :=
| SerIn (port size : Z)
| SerOut (port size value : Z)
| SerTimer (completed : Z)
| SerChars
| SerPush (cs : list Z)         (* the serial server appends to the shared ring *).

(** The producer's side of the ring, while it does not overrun. *)
Definition ring_push (cs : list Z) (b : getchar_buffer) : getchar_buffer :=
  fold_left (fun b c =>
    b <| gb_buf := arr_set (gb_buf b) (gb_tail b) c |>
      <| gb_tail := (gb_tail b + 1) mod GETCHAR_SIZE |>) cs b.

Definition serial_exec (o : serial_op) : Dev Serial unit :=
  match o with
  | SerIn p sz => on_port (serial_port_in p sz;; mret tt)
  | SerOut p sz v => on_port (serial_port_out p sz v;; mret tt)
  | SerTimer c => serial_timer_interrupt c
  | SerChars => serial_character_interrupt
  | SerPush cs => modd (fun d => d <| serial_getchar_buf := ring_push cs (serial_getchar_buf d) |>)
  end.

(** * The FIFOs as bounded queues *)

Record fifo_wf (f : SerialFIFO) : Prop := {
  fwf_len : length (data f) = 16%nat;
  fwf_bytes : Forall (inw 8) (data f);
  fwf_count : 0 <= count f <= 16;
  fwf_itl : 0 <= itl f <= 14;
  fwf_tail : 0 <= tail f < 16;
  fwf_head : 0 <= head f < 16 }.

(** The head is where the next character goes. *)
Definition fifo_sync (f : SerialFIFO) : Prop := head f = (tail f + count f) mod 16.

(** The queued characters, oldest first. *)
Definition fifo_contents (f : SerialFIFO) : list Z :=
  map (fun i => arr (data f) ((tail f + i) mod 16)) (zrange (Z.to_nat (count f))).

(** What [fifo_put] and [fifo_get] do to the struct. *)
Definition put_fifo (c : Z) (f : SerialFIFO) : SerialFIFO :=
  f <| data := arr_set (data f) (head f) c |> <| head := (head f + 1) mod 16 |>
    <| count := Z.min 16 (count f + 1) |>.
Definition get_fifo (f : SerialFIFO) : SerialFIFO :=
  f <| tail := (tail f + 1) mod 16 |> <| count := count f - 1 |>.

Lemma put_fifo_wf c f : inw 8 c -> fifo_wf f -> fifo_wf (put_fifo c f).
Proof.
  intros Hc []. split; cbn -[Z.min Z.modulo]; try lia.
  - by rewrite length_arr_set.
  - by apply arr_set_Forall.
  - apply Z.mod_pos_bound. lia.
Qed.

Lemma get_fifo_wf f : fifo_wf f -> count f <> 0 -> fifo_wf (get_fifo f).
Proof.
  intros [] Hc. split; cbn -[Z.modulo]; try done; try lia. apply Z.mod_pos_bound. lia.
Qed.

Lemma length_contents f : length (fifo_contents f) = Z.to_nat (count f).
Proof. unfold fifo_contents. by rewrite length_map, length_zrange. Qed.

Lemma put_contents c f :
  fifo_wf f -> fifo_sync f -> count f < 16 ->
  fifo_contents (put_fifo c f) = fifo_contents f ++ [c] /\ fifo_sync (put_fifo c f).
Proof.
  intros [] Hsync Hlt. unfold fifo_contents, fifo_sync in *. cbn -[Z.min Z.modulo arr].
  rewrite Z.min_r by lia. split.
  - replace (Z.to_nat (count f + 1)) with (S (Z.to_nat (count f))) by lia.
    rewrite zrange_S, map_app. cbn -[arr Z.modulo]. f_equal.
    + apply map_ext_in. intros i Hi%in_zrange. apply arr_set_ne; [lia| |].
      * apply Z.mod_pos_bound. lia.
      * rewrite Hsync. Z.to_euclidean_division_equations. lia.
    + rewrite Z2Nat.id, <-Hsync by lia. by rewrite arr_set_eq by lia.
  - rewrite Hsync. Z.to_euclidean_division_equations. lia.
Qed.

Lemma get_contents f :
  fifo_wf f -> count f <> 0 ->
  fifo_contents f = arr (data f) (tail f) :: fifo_contents (get_fifo f).
Proof.
  intros [] Hc. unfold fifo_contents. cbn -[Z.modulo arr].
  replace (Z.to_nat (count f)) with (S (Z.to_nat (count f - 1))) by lia.
  rewrite zrange_S_l. cbn -[arr Z.modulo]. f_equal.
  - f_equal. rewrite Z.add_0_r. apply Z.mod_small. lia.
  - rewrite map_map. apply map_ext. intros i. f_equal.
    rewrite Zplus_mod_idemp_l. f_equal. lia.
Qed.

Lemma get_sync f : fifo_sync f -> fifo_sync (get_fifo f).
Proof.
  unfold fifo_sync. cbn -[Z.modulo]. intros ->. rewrite Zplus_mod_idemp_l. f_equal. lia.
Qed.

Lemma set_fifo_of fifo f s :
  fifo_of fifo (set_fifo fifo f s) = f.
Proof. unfold fifo_of, set_fifo. by destruct (z2b fifo). Qed.

Lemma set_fifo_set_fifo fifo f g s :
  set_fifo fifo f (set_fifo fifo g s) = set_fifo fifo f s.
Proof. unfold set_fifo. by destruct (z2b fifo). Qed.

Lemma succ_mod16 i : 0 <= i < 16 -> (i + 1) mod 16 = if i =? 15 then 0 else i + 1.
Proof. intros. destruct (Z.eqb_spec i 15); Z.to_euclidean_division_equations; lia. Qed.

(** Advancing an index of the ring, as the code does it. *)
Lemma bump16 i : 0 <= i < 16 -> u8 (i + 1) = if i =? 15 then 16 else (i + 1) mod 16.
Proof.
  intros. rewrite u8_small by (unfold inw; lia). rewrite succ_mod16 by lia.
  destruct (Z.eqb_spec i 15); lia.
Qed.

Lemma bump_head f d :
  0 <= head f < 16 ->
  (let f := f <| data := d |> <| head := u8 (head f + 1) |> in
   if head f =? UART_FIFO_LENGTH then f <| head := 0 |> else f)
  = f <| data := d |> <| head := (head f + 1) mod 16 |>.
Proof.
  intros Hh. destruct f as [d0 n i t h]. cbn -[Z.modulo] in *. rewrite bump16, succ_mod16 by done.
  destruct (Z.eqb_spec h 15); [done|]. destruct (Z.eqb_spec (h + 1) UART_FIFO_LENGTH); [|done].
  unfold UART_FIFO_LENGTH in *. lia.
Qed.

Lemma bump_tail f :
  0 <= tail f < 16 ->
  (let f := f <| tail := u8 (tail f + 1) |> in
   if tail f =? UART_FIFO_LENGTH then f <| tail := 0 |> else f)
  = f <| tail := (tail f + 1) mod 16 |>.
Proof.
  intros Hh. destruct f as [d0 n i h t]. cbn -[Z.modulo] in *. rewrite bump16, succ_mod16 by done.
  destruct (Z.eqb_spec h 15); [done|]. destruct (Z.eqb_spec (h + 1) UART_FIFO_LENGTH); [|done].
  unfold UART_FIFO_LENGTH in *. lia.
Qed.

(** The whole of [fifo_put]: a full receive FIFO drops the character and
    flags the overrun. *)
Lemma wp_fifo_put fifo c s w (Q : unit -> SerialState * World -> Prop) :
  fifo_wf (fifo_of fifo s) -> fifo = XMIT_FIFO \/ fifo = RECV_FIFO ->
  Q tt (if (fifo =? RECV_FIFO) && (count (fifo_of fifo s) =? 16)
        then set_lsr (lsr s .| UART_LSR_OE) s
        else set_fifo fifo (put_fifo c (fifo_of fifo s)) s, w) ->
  wp (fifo_put fifo c) Q (s, w).
Proof.
  intros Hf Hk HQ. pose proof Hf as [_ _ Hc _ _ Hh].
  assert (set_fifo fifo (fifo_of fifo s) s = s) as Eid.
  { unfold set_fifo, fifo_of. destruct (z2b fifo); by destruct s. }
  unfold fifo_put. do 2 wp_step. wp_step. unfold UART_FIFO_LENGTH.
  set (f := fifo_of fifo s) in *.
  assert ((fifo =? XMIT_FIFO) = negb (fifo =? RECV_FIFO)) as EX by (by destruct Hk as [-> | ->]).
  rewrite EX. wp_step.
  - apply wp_bind. eapply wp_lift; [apply idx_set_ok; destruct Hf; lia|]. apply wp_ret.
    pose proof (bump_head f (arr_set (data f) (head f) c) Hh) as Eb.
    cbv zeta in Eb. change UART_FIFO_LENGTH with 16 in Eb. rewrite Eb.
    change (count (f <| data := _ |> <| head := _ |>)) with (count f).
    destruct (Z.ltb_spec (count f) 16) as [Hlt|Hge].
    + apply wp_modd. cbn [fst snd]. rewrite u8_small by (unfold inw; lia).
      destruct (Z.eqb_spec (count f) 16); [lia|]. rewrite andb_false_r in HQ.
      unfold put_fifo in HQ. rewrite Z.min_r in HQ by lia. exact HQ.
    + rewrite orb_false_r in Hb. apply negb_true_iff in Hb. rewrite Hb in HQ |- *.
      wp_run; [done|]. unfold put_fifo in HQ. cbn [andb] in HQ. rewrite Z.min_l in HQ by lia.
      match type of HQ with Q tt (set_fifo _ ?g _, _) => match g with ?h <| count := _ |> =>
        replace g with h in HQ end end; [exact HQ|].
      clearbody f. destruct f as [d n i t h]. cbn in Hc, Hge.
      cbv [update data count itl tail head]. f_equal. lia.
  - apply orb_false_iff in Hb as [Hb1 Hb2]. apply negb_false_iff in Hb1. apply Z.ltb_ge in Hb2.
    apply wp_ret. rewrite (proj2 (Z.ltb_ge (count f) 16)) by lia.
    assert ((count f =? 16) = true) as E16 by (apply Z.eqb_eq; lia).
    rewrite Hb1, E16 in HQ. rewrite Hb1. do 2 wp_step. wp_step; [|done].
    apply wp_modd. cbn [fst snd]. by rewrite Eid.
Qed.

Lemma wp_fifo_get_empty fifo s w (Q : Z -> SerialState * World -> Prop) :
  count (fifo_of fifo s) = 0 -> Q 0 (s, w) -> wp (fifo_get fifo) Q (s, w).
Proof. intros Hc HQ. unfold fifo_get. do 2 wp_step. by rewrite Hc. Qed.

Lemma wp_fifo_get fifo s w (Q : Z -> SerialState * World -> Prop) :
  fifo_wf (fifo_of fifo s) -> count (fifo_of fifo s) <> 0 ->
  Q (arr (data (fifo_of fifo s)) (tail (fifo_of fifo s)))
    (set_fifo fifo (get_fifo (fifo_of fifo s)) s, w) ->
  wp (fifo_get fifo) Q (s, w).
Proof.
  intros Hf Hc HQ. pose proof Hf as [Hl _ Hcr _ Ht _].
  unfold fifo_get. do 2 wp_step. set (f := fifo_of fifo s) in *. wp_step; [by apply Z.eqb_eq in Hb|].
  apply wp_bind. eapply wp_lift; [apply idx_ok; lia|].
  pose proof (bump_tail f Ht) as Eb. cbv zeta in Eb. rewrite Eb.
  wp_run. change (count (f <| tail := _ |>)) with (count f).
  rewrite u8_small by (unfold inw; lia). exact HQ.
Qed.

(** The abstract queue of sixteen characters. *)
Inductive fifo_op := FPut (c : Z) | FGet.

(** Puts onto a full queue are dropped; gets from an empty one answer 0. *)
Definition queue_step (q : list Z) (o : fifo_op) : list Z * Z :=
  match o with
  | FPut c => (if (length q <? 16)%nat then q ++ [c] else q, 0)
  | FGet => match q with [] => ([], 0) | c :: q' => (q', c) end
  end.
Fixpoint queue_run (q : list Z) (ops : list fifo_op) : list Z :=
  match ops with
  | [] => []
  | o :: ops => let '(q', r) := queue_step q o in r :: queue_run q' ops
  end.

Definition recv_fifo_exec (o : fifo_op) : Dev SerialState Z :=
  match o with
  | FPut c => fifo_put RECV_FIFO c;; mret 0
  | FGet => fifo_get RECV_FIFO
  end.
Fixpoint recv_fifo_run (ops : list fifo_op) : Dev SerialState (list Z) :=
  match ops with
  | [] => mret []
  | o :: ops => r ← recv_fifo_exec o; rs ← recv_fifo_run ops; mret (r :: rs)
  end.

Definition fifo_op_ok (o : fifo_op) : Prop :=
  match o with FPut c => inw 8 c | FGet => True end.

(** One operation refines one step of the queue. *)
Lemma recv_fifo_step o s w :
  fifo_op_ok o -> fifo_wf (recv_fifo s) -> fifo_sync (recv_fifo s) ->
  wp (recv_fifo_exec o) (fun r s' =>
       (fifo_contents (recv_fifo (fst s')), r) = queue_step (fifo_contents (recv_fifo s)) o /\
       fifo_wf (recv_fifo (fst s')) /\ fifo_sync (recv_fifo (fst s'))) (s, w).
Proof.
  intros Ho Hf Hs. pose proof (length_contents (recv_fifo s)) as Hl.
  pose proof (fwf_count _ Hf) as Hc. destruct o as [c|]; cbn [recv_fifo_exec queue_step].
  - apply wp_bind. apply wp_fifo_put; [done|by right|].
    change (fifo_of RECV_FIFO s) with (recv_fifo s). change (RECV_FIFO =? RECV_FIFO) with true.
    cbn [andb]. apply wp_ret. cbn [fst].
    destruct (Nat.ltb_spec (length (fifo_contents (recv_fifo s))) 16),
      (Z.eqb_spec (count (recv_fifo s)) 16); try lia; [|done].
    destruct (put_contents c (recv_fifo s) Hf Hs ltac:(lia)) as [Ep Hp].
    split_and!; [|by apply put_fifo_wf|done]. cbn [set_fifo]. by rewrite <-Ep.
  - destruct (Z.eqb_spec (count (recv_fifo s)) 0) as [E|E].
    + apply wp_fifo_get_empty; [done|]. cbn [fst].
      rewrite E in Hl. by destruct (fifo_contents (recv_fifo s)).
    + apply wp_fifo_get; [done|done|]. change (fifo_of RECV_FIFO s) with (recv_fifo s).
      cbn [fst]. rewrite (get_contents (recv_fifo s)) by done.
      split_and!; [done|by apply get_fifo_wf|by apply get_sync].
Qed.

(** The receive FIFO is a queue of at most sixteen characters: any
    sequence of [fifo_put] and [fifo_get] answers exactly as the abstract
    queue does, first in first out, a put onto a full FIFO leaving its
    contents alone. *)
Lemma recv_fifo_refines (ops : list fifo_op) (s : SerialState) (w : World) :
  Forall fifo_op_ok ops -> fifo_wf (recv_fifo s) -> fifo_sync (recv_fifo s) ->
  wp (recv_fifo_run ops)
     (fun rs s' => rs = queue_run (fifo_contents (recv_fifo s)) ops /\
                   fifo_wf (recv_fifo (fst s')) /\ fifo_sync (recv_fifo (fst s')))
     (s, w).
Proof.
  intros Hops. revert s w. induction Hops as [|o ops Ho _ IH]; intros s w Hf Hs;
    cbn [recv_fifo_run queue_run]; [by apply wp_ret|].
  apply wp_bind. eapply wp_mono; [by apply recv_fifo_step|].
  intros r [s1 w1] (E & Hf1 & Hs1). cbn [fst] in *.
  destruct (queue_step (fifo_contents (recv_fifo s)) o) as [q r'] eqn:Eq.
  injection E as E1 E2. subst q r'.
  apply wp_bind. eapply wp_mono; [by apply IH|].
  intros rs [s2 w2] (-> & ? & ?). by apply wp_ret.
Qed.

(** * The state invariant *)

Record ser_wf (s : SerialState) : Prop := {
  sw_recv : fifo_wf (recv_fifo s);
  sw_sync : fifo_sync (recv_fifo s);
  sw_xmit : fifo_wf (xmit_fifo s);
  sw_divider : inw 16 (divider s);
  sw_baud : baudbase s = 115200;
  sw_rbr : inw 8 (rbr s); sw_thr : inw 8 (thr s); sw_tsr : inw 8 (tsr s);
  sw_ier : inw 8 (ier s); sw_iir : inw 8 (iir s); sw_lcr : inw 8 (lcr s);
  sw_mcr : inw 8 (mcr s); sw_lsr : inw 8 (lsr s); sw_msr : inw 8 (msr s);
  sw_scr : inw 8 (scr s); sw_fcr : inw 8 (fcr s);
  sw_itl : tst (fcr s) UART_FCR_FE = true -> 1 <= itl (recv_fifo s);
  sw_poll : 0 <= poll_msl s <= 1;
  sw_retry : 0 <= tsr_retry s <= 5;
  sw_chars : 0 <= chars_sent s <= 16 }.

(** The level of the port's interrupt line after the calls made so far. *)
Definition line_level (log : list event) : Z :=
  fold_left (fun l e => match e with
                        | SetIrqLevel irq v => if irq =? TTYS0_IRQ then v else l
                        | _ => l
                        end) log 0.
(** The line agrees with IIR. *)
Definition line_ok (x : SerialState * World) : Prop :=
  line_level (w_log (snd x)) = b2z (negb (iir (fst x) .& 0x0f =? UART_IIR_NO_INT)).
(** IIR shows the highest-priority enabled condition. *)
Definition fresh (s : SerialState) : Prop := iir s .& 0x0f = pending_iir s.

Definition sinv (fr : bool) (x : SerialState * World) : Prop :=
  ser_wf (fst x) /\ line_ok x /\ (fr = true -> fresh (fst x)).

(** [m] leads from the invariant to the invariant, without a fault. *)
Definition sk (fr fr' : bool) {A} (m : Dev SerialState A) : Prop :=
  forall x, sinv fr x -> wp m (fun _ x' => sinv fr' x') x.

Lemma sk_bind fr1 fr2 fr3 {A B} (m : Dev SerialState A) (k : A -> Dev SerialState B) :
  sk fr1 fr2 m -> (forall a, sk fr2 fr3 (k a)) -> sk fr1 fr3 (m ≫= k).
Proof.
  intros Hm Hk x Hx. apply wp_bind. eapply wp_mono; [by apply Hm|]. intros a x' Hx'. by apply Hk.
Qed.

Lemma sk_ret fr {A} (a : A) : sk fr fr (mret a).
Proof. intros x Hx. by apply wp_ret. Qed.

Lemma sk_weaken fr {A} (m : Dev SerialState A) : sk fr true m -> sk fr false m.
Proof.
  intros Hm x Hx. eapply wp_mono; [by apply Hm|]. intros a x' (? & ? & ?). by split_and!.
Qed.

Lemma sk_getd fr fr' {B} (k : SerialState -> Dev SerialState B) :
  (forall s, ser_wf s -> sk fr fr' (k s)) -> sk fr fr' (getd ≫= k).
Proof. intros Hk x Hx. wp_step. wp_step. apply Hk; [apply Hx|done]. Qed.

Lemma sk_when fr b m : sk fr fr m -> sk fr fr (when b m).
Proof. intros Hm x Hx. by apply wp_when; [intros; apply Hm|]. Qed.

Lemma sk_if fr fr' {A} (b : bool) (m1 m2 : Dev SerialState A) :
  (b = true -> sk fr fr' m1) -> (b = false -> sk fr fr' m2) -> sk fr fr' (if b then m1 else m2).
Proof. destruct b; auto. Qed.

(** An assignment that keeps the registers in range, leaves the interrupt
    identification alone, and, when that matters, the pending conditions. *)
Definition quiet (fr : bool) (f : SerialState -> SerialState) : Prop :=
  forall s, ser_wf s ->
    ser_wf (f s) /\ iir (f s) .& 0x0f = iir s .& 0x0f /\
    (fr = true -> pending_iir (f s) = pending_iir s).

Lemma sk_modd fr f : quiet fr f -> sk fr fr (modd f).
Proof.
  intros Hf [s w] (Hs & Hl & Hfr). apply wp_modd. destruct (Hf s Hs) as (H1 & H2 & H3).
  unfold sinv, line_ok, fresh in *. cbn [fst snd] in *. rewrite H2.
  split_and!; [done|done|]. intros E. by rewrite H3, Hfr.
Qed.

Definition other_event (e : event) : Prop :=
  match e with SetIrqLevel irq _ => irq <> TTYS0_IRQ | _ => True end.

Lemma line_level_app log e :
  line_level (log ++ [e]) =
    match e with
    | SetIrqLevel irq v => if irq =? TTYS0_IRQ then v else line_level log
    | _ => line_level log
    end.
Proof. unfold line_level. by rewrite fold_left_app. Qed.

Lemma sk_emit fr e : other_event e -> sk fr fr (emit e).
Proof.
  intros He [s w] (Hs & Hl & Hfr). apply wp_emit. split_and!; [done| |done].
  unfold line_ok in *. cbn [fst snd] in *. rewrite w_log_logged, line_level_app.
  destruct e; try done. cbn in He. by destruct (Z.eqb_spec irq TTYS0_IRQ).
Qed.

Lemma sk_time fr fr' freq {B} (k : Z -> Dev SerialState B) :
  (forall t, sk fr fr' (k t)) -> sk fr fr' (current_time_ns freq ≫= k).
Proof.
  intros Hk [s w] (Hs & Hl & Hfr). wp_step. wp_step. apply Hk. split_and!; [done| |done].
  unfold line_ok in *. cbn [fst snd] in *. congruence.
Qed.

(** ** Updating the interrupt *)

Lemma pending_cases s : In (pending_iir s) [UART_IIR_RLSI; UART_IIR_CTI; UART_IIR_RDI;
  UART_IIR_THRI; UART_IIR_MSI; UART_IIR_NO_INT].
Proof. unfold pending_iir. repeat case_match; cbn; auto 10. Qed.

Lemma iir_bits i b :
  inw 8 b -> In i [UART_IIR_RLSI; UART_IIR_CTI; UART_IIR_RDI; UART_IIR_THRI; UART_IIR_MSI;
                   UART_IIR_NO_INT] ->
  inw 8 (i .| (b .& 0xF0)) /\ (i .| (b .& 0xF0)) .& 0x0f = i.
Proof.
  intros Hb Hi. split.
  - apply inw_lor; [lia| |width].
    repeat (destruct Hi as [<-|Hi]; [by (split; vm_compute; congruence)|]). destruct Hi.
  - apply Z.eqb_eq. revert b Hb. apply byte_forall.
    repeat (destruct Hi as [<-|Hi]; [vm_compute; reflexivity|]). destruct Hi.
Qed.

(** A change of [iir] only. *)
Lemma ser_wf_iir s i : ser_wf s -> inw 8 i -> ser_wf (s <| iir := i |>).
Proof. intros [] Hi. by split. Qed.

Lemma sk_update_irq fr : sk fr true serial_update_irq.
Proof.
  intros [s w] (Hs & _ & _). unfold serial_update_irq.
  pose proof (pending_cases s) as Hp.
  destruct (iir_bits (pending_iir s) (iir s) (sw_iir s Hs) Hp) as [Hr Hi].
  do 5 wp_step; (split_and!; [by apply ser_wf_iir| |intros _; exact Hi]); unfold line_ok;
    cbn [fst snd]; rewrite w_log_logged, line_level_app;
    change (iir (s <| iir := ?i |>)) with i; by rewrite Hi, Hb.
Qed.

(** ** The handlers, one by one *)

Ltac ser_field :=
  first [ assumption | by width | (unfold fifo_sync, fcr_itl in *; cbn; lia) | done ].
(** [quiet] of an assignment to registers. *)
Ltac quiet_tac :=
  let s := fresh "s" in let H := fresh "H" in
  intros s H; split_and!;
    [ destruct H; split; cbn; try ser_field
    | cbn; try reflexivity
    | intros; try discriminate; try reflexivity ].

(** Registers of the line status other than the interrupt conditions. *)
Lemma pending_lsr s v :
  v .& UART_LSR_INT_ANY = lsr s .& UART_LSR_INT_ANY ->
  v .& UART_LSR_DR = lsr s .& UART_LSR_DR ->
  pending_iir (s <| lsr := v |>) = pending_iir s.
Proof.
  intros E1 E2. unfold pending_iir. cbn -[tst].
  unfold tst. by rewrite E1, E2.
Qed.

Lemma lsr_bits m v :
  one_of m [UART_LSR_TEMT; UART_LSR_THRE] = true -> inw 8 v ->
  (u8 (v .| m) .& UART_LSR_INT_ANY = v .& UART_LSR_INT_ANY /\
   u8 (v .| m) .& UART_LSR_DR = v .& UART_LSR_DR) /\
  (u8 (v .& .~ m) .& UART_LSR_INT_ANY = v .& UART_LSR_INT_ANY /\
   u8 (v .& .~ m) .& UART_LSR_DR = v .& UART_LSR_DR).
Proof.
  intros Hm Hv.
  assert ((u8 (v .| m) .& UART_LSR_INT_ANY =? v .& UART_LSR_INT_ANY) &&
          (u8 (v .| m) .& UART_LSR_DR =? v .& UART_LSR_DR) &&
          (u8 (v .& .~ m) .& UART_LSR_INT_ANY =? v .& UART_LSR_INT_ANY) &&
          (u8 (v .& .~ m) .& UART_LSR_DR =? v .& UART_LSR_DR) = true) as H.
  { revert v Hv. apply byte_forall. apply one_of_true in Hm.
    destruct Hm as [<-|[<-|[]]]; vm_compute; reflexivity. }
  rewrite !andb_true_iff, !Z.eqb_eq in H. tauto.
Qed.

Lemma quiet_lsr_set fr m :
  one_of m [UART_LSR_TEMT; UART_LSR_THRE] = true ->
  quiet fr (fun s => set_lsr (lsr s .| m) s).
Proof.
  intros Hm s Hs. destruct (lsr_bits m (lsr s) Hm (sw_lsr s Hs)) as [[E1 E2] _].
  split_and!; [destruct Hs; split; cbn; try ser_field|done|intros _; by apply pending_lsr].
Qed.

Lemma quiet_lsr_clear fr m :
  one_of m [UART_LSR_TEMT; UART_LSR_THRE] = true ->
  quiet fr (fun s => set_lsr (lsr s .& .~ m) s).
Proof.
  intros Hm s Hs. destruct (lsr_bits m (lsr s) Hm (sw_lsr s Hs)) as [_ [E1 E2]].
  split_and!; [destruct Hs; split; cbn; try ser_field|done|intros _; by apply pending_lsr].
Qed.

Lemma quiet_lsr v : quiet false (fun s => set_lsr (v s) s).
Proof. quiet_tac. Qed.

(** Replacing a FIFO. *)
Lemma ser_wf_xmit s f : ser_wf s -> fifo_wf f -> ser_wf (set_fifo XMIT_FIFO f s).
Proof. intros [] Hf. by split. Qed.

Lemma ser_wf_recv s f :
  ser_wf s -> fifo_wf f -> fifo_sync f -> itl f = itl (recv_fifo s) ->
  ser_wf (set_fifo RECV_FIFO f s).
Proof. intros [] Hf Hs Ei. split; try done. cbn. by rewrite Ei. Qed.

(** [sinv] after a change that the interrupt logic cannot see. *)
Lemma sinv_quiet fr s s' w :
  sinv fr (s, w) -> ser_wf s' -> iir s' = iir s ->
  (fr = true -> pending_iir s' = pending_iir s) -> sinv fr (s', w).
Proof.
  intros (Hs & Hl & Hf) Hw Ei Hp. unfold sinv, line_ok, fresh in *. cbn [fst snd] in *.
  rewrite Ei. split_and!; [done..|]. intros E. by rewrite Hp, Hf.
Qed.

Lemma sk_put_xmit fr c : inw 8 c -> sk fr fr (fifo_put XMIT_FIFO c).
Proof.
  intros Hc [s w] H. pose proof (proj1 H) as Hs. cbn [fst] in Hs.
  apply wp_fifo_put; [apply Hs|by left|]. change (XMIT_FIFO =? RECV_FIFO) with false.
  cbn [andb]. apply (sinv_quiet _ s); [done| |done..].
  apply ser_wf_xmit, put_fifo_wf; [done..|apply Hs].
Qed.

Lemma sk_put_recv c : inw 8 c -> sk false false (fifo_put RECV_FIFO c).
Proof.
  intros Hc [s w] H. pose proof (proj1 H) as Hs. cbn [fst] in Hs.
  apply wp_fifo_put; [apply Hs|by right|]. change (RECV_FIFO =? RECV_FIFO) with true.
  change (fifo_of RECV_FIFO s) with (recv_fifo s). cbn [andb].
  pose proof (fwf_count _ (sw_recv s Hs)).
  destruct (Z.eqb_spec (count (recv_fifo s)) 16) as [E|E]; apply (sinv_quiet _ s); try done.
  - by apply (quiet_lsr (fun s => lsr s .| UART_LSR_OE) s).
  - apply ser_wf_recv; [done|apply put_fifo_wf; [done|apply Hs]| |done].
    apply put_contents; [apply Hs..|lia].
Qed.

Lemma sk_get_xmit fr fr' {B} (k : Z -> Dev SerialState B) :
  (forall c, inw 8 c -> sk fr fr' (k c)) -> sk fr fr' (fifo_get XMIT_FIFO ≫= k).
Proof.
  intros Hk [s w] H. pose proof (proj1 H) as Hs. cbn [fst] in Hs. pose proof (sw_xmit s Hs) as Hf.
  apply wp_bind. destruct (Z.eqb_spec (count (xmit_fifo s)) 0) as [E|E].
  - apply wp_fifo_get_empty; [done|]. by apply Hk.
  - apply wp_fifo_get; [done..|]. apply Hk.
    + destruct Hf. apply (arr_Forall (inw 8)); [done|cbn in *; lia].
    + apply (sinv_quiet _ s); [done| |done..]. by apply ser_wf_xmit, get_fifo_wf.
Qed.

Lemma sk_get_recv fr' {B} (k : Z -> Dev SerialState B) :
  (forall c, inw 8 c -> sk false fr' (k c)) -> sk false fr' (fifo_get RECV_FIFO ≫= k).
Proof.
  intros Hk [s w] H. pose proof (proj1 H) as Hs. cbn [fst] in Hs. pose proof (sw_recv s Hs) as Hf.
  apply wp_bind. destruct (Z.eqb_spec (count (recv_fifo s)) 0) as [E|E].
  - apply wp_fifo_get_empty; [done|]. by apply Hk.
  - apply wp_fifo_get; [done..|]. apply Hk.
    + destruct Hf. apply (arr_Forall (inw 8)); [done|cbn in *; lia].
    + apply (sinv_quiet _ s); [done| |done..].
      apply ser_wf_recv; [done|by apply get_fifo_wf|by apply get_sync, Hs|done].
Qed.

Lemma sk_seq fr1 fr2 fr3 {A} (m1 : Dev SerialState A) {B} (m2 : Dev SerialState B) :
  sk fr1 fr2 m1 -> sk fr2 fr3 m2 -> sk fr1 fr3 (m1 ;; m2).
Proof. intros H1 H2. by apply sk_bind with fr2. Qed.

(** The conditions may become stale in the middle of a handler that ends by
    updating the interrupt. *)
Lemma sinv_weaken fr x : sinv fr x -> sinv false x.
Proof. intros (? & ? & _). by split_and!. Qed.

Lemma sk_stale fr fr' {A} (m : Dev SerialState A) : sk false fr' m -> sk fr fr' m.
Proof. intros Hm x Hx. by eapply Hm, sinv_weaken. Qed.

Ltac quiet_solve :=
  try first [ by apply quiet_lsr_set | by apply quiet_lsr_clear | by apply quiet_lsr
            | solve [quiet_tac] ].
Ltac sk_step :=
  lazymatch goal with
  | |- sk _ _ (getd ≫= _) => apply sk_getd; intros ?s ?Hs
  | |- sk _ _ (current_time_ns _ ≫= _) => apply sk_time; intros ?t
  | |- sk _ _ (fifo_get XMIT_FIFO ≫= _) => apply sk_get_xmit; intros ?c ?Hc
  | |- sk _ _ (fifo_get RECV_FIFO ≫= _) => apply sk_get_recv; intros ?c ?Hc
  | |- sk ?a _ (modd _ ≫= _) => apply (sk_bind _ a); [apply sk_modd; quiet_solve|intros _]
  | |- sk ?a _ (emit _ ≫= _) => apply (sk_bind _ a); [by apply sk_emit|intros _]
  | |- sk ?a _ (when _ _ ≫= _) => apply (sk_bind _ a); [apply sk_when|intros _]
  | |- sk _ _ (serial_update_irq ≫= _) => apply (sk_bind _ true); [apply sk_update_irq|intros _]
  | |- sk _ _ serial_update_irq => apply sk_update_irq
  | |- sk _ _ (modd _) => apply sk_modd; quiet_solve
  | |- sk _ _ (emit _) => by apply sk_emit
  | |- sk _ _ (when _ _) => apply sk_when
  | |- sk _ _ (mret _) => apply sk_ret
  | |- sk _ _ (if _ then _ else _) => apply sk_if; intros ?Hb
  end.
Ltac sk_run := repeat (cbv zeta; sk_step).

Lemma for_each_sk l : Forall (inw 8) l -> sk false false (for_each l (fun c => fifo_put RECV_FIFO c)).
Proof.
  intros Hl. induction Hl as [|c l Hc _ IH]; [apply sk_ret|]. cbn [for_each].
  eapply sk_seq; [by apply sk_put_recv|exact IH].
Qed.

Lemma sk_receive1 fr l : Forall (inw 8) l -> l <> [] -> sk fr true (serial_receive1 l).
Proof.
  intros Hl Hne. apply sk_stale. unfold serial_receive1. sk_step.
  apply (sk_seq _ false); [|apply sk_update_irq]. sk_step.
  - apply (sk_seq _ false); [by apply for_each_sk|]. sk_run.
  - sk_step; [sk_run|]. destruct l as [|c l]; [done|]. inversion_clear Hl.
    intros x Hx. apply wp_bind. eapply wp_lift; [reflexivity|]. revert x Hx.
    change (sk false false (modd (fun s => s <| rbr := c |>);;
                            modd (fun s => set_lsr (lsr s .| UART_LSR_DR) s))).
    sk_run.
Qed.

Lemma sk_xmit_load fr : sk fr fr xmit_load.
Proof. unfold xmit_load. sk_run. Qed.

(** A block that ends by updating the interrupt is safe anywhere. *)
Lemma sk_fresh fr fr' {A} (m : Dev SerialState A) : sk false true m -> sk fr fr' m.
Proof.
  intros Hm x Hx. eapply wp_mono; [by eapply Hm, sinv_weaken|].
  intros a x' (H1 & H2 & H3). split_and!; [done|done|]. intros _. by apply H3.
Qed.

Lemma sk_xmit_done fr : sk fr fr xmit_done.
Proof.
  unfold xmit_done. do 4 sk_step. apply (sk_bind _ fr); [sk_run|intros _].
  sk_step. apply sk_fresh. sk_run.
Qed.

Lemma sk_serial_xmit fr : sk fr fr serial_xmit.
Proof.
  unfold serial_xmit. sk_step. sk_step. apply (sk_seq _ fr); [apply sk_xmit_load|].
  intros [s1 w1] H1. pose proof (proj1 H1) as Hs1. cbn [fst] in Hs1. pose proof Hs1 as [].
  wp_step. wp_step. wp_step; [|wp_step].
  - apply wp_bind. eapply wp_mono; [|intros ? ? Hx; apply (sk_xmit_done fr), Hx].
    eapply (sk_fresh fr fr); [|done]. apply sk_receive1; [|done].
    apply List.Forall_cons; [done|apply List.Forall_nil].
  - wp_step.
    + do 2 wp_step. assert (sinv fr (s1 <| tsr_retry := tsr_retry s1 + 1 |>, w1)) as H2.
      { apply (sinv_quiet _ s1); [done| |done..].
        unfold MAX_XMIT_RETRY in *. split; cbn; try done; lia. }
      wp_step. wp_step. by eapply sk_emit.
    + wp_step. wp_step; [|by apply sk_xmit_done]. apply Z.ltb_lt in Hb2. lia.
  - wp_step. wp_step. do 2 wp_step. wp_step. wp_step. apply (sk_xmit_done fr). cbn [fst snd].
    apply (sk_emit fr (PutChar (tsr s1))) in H1; [|done]. unfold wp in H1. cbn in H1.
    apply (sinv_quiet _ s1); [done| |done..].
    split; cbn; try done; lia.
Qed.

Lemma sk_update_parameters fr : sk fr fr serial_update_parameters.
Proof.
  intros [s w] H. pose proof (proj1 H) as Hs. cbn [fst] in Hs. pose proof Hs as [].
  unfold serial_update_parameters. wp_step. wp_step. wp_step; [by wp_step|].
  apply Z.eqb_neq in Hb. unfold inw in sw_divider0. wp_step.
  apply wp_assertC.
  { apply Z.ltb_lt. rewrite sw_baud0. apply Z.quot_str_pos. lia. }
  apply wp_modd. apply (sinv_quiet _ s); [done| |done..]. by split.
Qed.

Lemma quiet_msr v : quiet false (fun s => set_msr (v s) s).
Proof. quiet_tac. Qed.

Lemma sk_update_msl fr : sk fr fr serial_update_msl.
Proof.
  intros [s w] H. pose proof (proj1 H) as Hs. cbn [fst] in Hs.
  unfold serial_update_msl. wp_step. wp_step.
  do 2 (wp_step; wp_step). do 2 wp_step. cbn [fst snd].
  match goal with |- wp (when (negb (msr ?s0 =? _)) _) _ _ => set (s1 := s0) end.
  assert (ser_wf s1) as Hs1 by (destruct Hs; split; cbn; try ser_field).
  wp_step.
  - assert (sinv false (s1, w)) as H1.
    { apply (sinv_quiet _ s); [by eapply sinv_weaken|done..]. }
    revert H1. generalize (s1, w). change (sk false fr
      (modd (fun s2 => set_msr (msr s2 .| ((msr s2 .>> 4) .^ (msr s .>> 4))) s2);;
       modd (fun s2 => if tst (msr s2) UART_MSR_TERI && negb (tst (msr s) UART_MSR_RI)
                       then set_msr (msr s2 .& .~ UART_MSR_TERI) s2 else s2);;
       serial_update_irq)).
    apply (sk_seq _ false); [apply sk_modd, quiet_msr|].
    apply (sk_seq _ false); [|apply sk_fresh, sk_update_irq].
    apply sk_modd. intros s2 H2. destruct (_ && _); [|done].
    by apply (quiet_msr (fun s2 => msr s2 .& .~ UART_MSR_TERI)).
  - apply negb_false_iff, Z.eqb_eq in Hb. apply (sinv_quiet _ s); [done..|].
    intros _. unfold pending_iir. rewrite Hb. done.
Qed.

Lemma sk_write_data fr v : sk fr fr (write_data v).
Proof.
  unfold write_data. sk_step. sk_step.
  - sk_step. apply sk_update_parameters.
  - sk_step. sk_step. apply (sk_seq _ fr); [|apply sk_serial_xmit].
    sk_step; apply sk_fresh; [|sk_run].
    apply (sk_seq _ false); [|sk_run]. apply sk_put_xmit, Hs0.
Qed.

Lemma wp_update_irq_frame (P : SerialState -> Prop) x :
  P (fst x) -> (forall s i, P s -> P (s <| iir := i |>)) ->
  wp serial_update_irq (fun _ x' => P (fst x')) x.
Proof. intros HP Hi. unfold serial_update_irq. wp_run; by apply Hi. Qed.

Lemma wp_update_msl_lsr x :
  wp serial_update_msl (fun _ x' => lsr (fst x') = lsr (fst x)) x.
Proof.
  unfold serial_update_msl. wp_run; [|done].
  apply (wp_update_irq_frame (fun s => lsr s = lsr (fst x))); [|done]. by destruct (_ && _).
Qed.

(** The one access that can leave a condition unreported: changing the
    enabled interrupts while the transmitter is busy. *)
Lemma wp_write_ier fr v s w :
  sinv fr (s, w) ->
  (fr = true -> tst (lsr s) UART_LSR_THRE = true \/ tst (lcr s) UART_LCR_DLAB = true) ->
  wp (write_ier v) (fun _ x' => sinv fr x') (s, w).
Proof.
  intros H Hfr. pose proof (proj1 H) as Hs. cbn [fst] in Hs. unfold write_ier.
  wp_step. wp_step. wp_step.
  { revert H. generalize (s, w). change (sk fr fr
      (modd (fun s => s <| divider := u16 ((divider s .& 0x00ff) .| u32 (v .<< 8)) |>);;
       serial_update_parameters)). sk_step. apply sk_update_parameters. }
  do 2 wp_step. do 2 wp_step. set (s1 := s <| ier := _ |>).
  assert (sinv false (s1, w)) as H1.
  { apply (sinv_quiet _ s); [by eapply sinv_weaken| |done..]. destruct Hs; split; cbn; ser_field. }
  assert (wp (when (0 <=? poll_msl s1)
      (if tst (ier s1) UART_IER_MSI then modd (fun s => s <| poll_msl := 1 |>);; serial_update_msl
       else modd (fun s => s <| poll_msl := 0 |>)))
    (fun _ x' => sinv false x' /\ lsr (fst x') = lsr s) (s1, w)) as Hp.
  { apply wp_and.
    - revert H1. generalize (s1, w). fold (sk false false (when (0 <=? poll_msl s1)
      (if tst (ier s1) UART_IER_MSI then modd (fun s => s <| poll_msl := 1 |>);; serial_update_msl
       else modd (fun s => s <| poll_msl := 0 |>)))). sk_run. apply sk_update_msl.
    - wp_run; try done. change (lsr s) with (lsr (fst (s1 <| poll_msl := 1 |>, w))).
      apply wp_update_msl_lsr. }
  wp_step. eapply wp_mono; [exact Hp|]. intros [] [s2 w2] [H2 E2]. cbn [fst] in E2.
  wp_step. wp_step. rewrite E2. wp_step.
  - revert H2. generalize (s2, w2). change (sk false fr
      (modd (fun s => s <| thr_ipending := 1 |>);; serial_update_irq)).
    apply sk_fresh. sk_run.
  - destruct fr; [|done]. destruct (Hfr eq_refl); congruence.
Qed.

Lemma fcr_itl_range v : 1 <= fcr_itl v <= 14 /\ 0 <= fcr_itl v <= 14.
Proof. unfold fcr_itl. repeat case_match; lia. Qed.

Lemma iir_fe b : inw 8 b ->
  inw 8 (b .| UART_IIR_FE) /\ (b .| UART_IIR_FE) .& 0x0f = b .& 0x0f /\
  inw 8 (u8 (b .& .~ UART_IIR_FE)) /\ u8 (b .& .~ UART_IIR_FE) .& 0x0f = b .& 0x0f.
Proof.
  intros Hb. split_and!; [apply inw_lor; [lia|done|by (split; vm_compute; congruence)]| |width|].
  all: apply Z.eqb_eq; revert b Hb; apply byte_forall; vm_compute; reflexivity.
Qed.

Lemma tst_fe_c9 v : tst (v .& 0xC9) UART_FCR_FE = tst v UART_FCR_FE.
Proof. unfold tst. rewrite <-Z.land_assoc. by change (0xC9 .& UART_FCR_FE) with UART_FCR_FE. Qed.

Lemma fifo_clear_wf f : fifo_wf f ->
  let f' := f <| data := repeat 0 16 |> <| count := 0 |> <| head := 0 |> <| tail := 0 |> in
  fifo_wf f' /\ fifo_sync f'.
Proof.
  intros []. cbv zeta. split; [split; cbn; try lia|done].
  repeat (apply List.Forall_cons; [by split|]). apply List.Forall_nil.
Qed.

Lemma quiet_clear_recv : quiet false (fifo_clear RECV_FIFO).
Proof.
  intros s Hs. destruct (fifo_clear_wf _ (sw_recv s Hs)) as [H1 H2].
  split_and!; [by apply ser_wf_recv|done|done].
Qed.

Lemma quiet_clear_xmit : quiet false (fifo_clear XMIT_FIFO).
Proof.
  intros s Hs. destruct (fifo_clear_wf _ (sw_xmit s Hs)) as [H1 H2].
  split_and!; [by apply ser_wf_xmit|done|done].
Qed.

Lemma sk_write_fcr fr v : sk fr fr (write_fcr v).
Proof.
  unfold write_fcr. cbv zeta. sk_step. sk_step; [apply sk_ret|].
  set (val := if tst _ UART_FCR_FE then _ else _). clearbody val.
  apply sk_fresh. sk_step.
  { sk_run. apply quiet_clear_recv. }
  sk_step. { sk_step. apply quiet_clear_xmit. }
  intros [s0 w0] H. pose proof (proj1 H) as Hs0. cbn [fst] in Hs0.
  destruct (iir_fe (iir s0) (sw_iir _ Hs0)) as (F1 & F2 & F3 & F4).
  apply wp_bind. wp_step.
  - do 3 wp_step. do 2 wp_step. apply sk_update_irq with false. cbn [fst snd].
    split_and!; [|unfold line_ok; cbn [fst snd]|done].
    + destruct (fcr_itl_range val) as [R1 R2].
      destruct Hs0 as [[] ? ? ? ? ? ? ? ? ? ? ? ? ? ? ? ? ? ? ?].
      split; cbn; ser_field.
    + rewrite (proj1 (proj2 H)). cbn [fst]. by rewrite <-F2.
  - do 3 wp_step. apply sk_update_irq with false. cbn [fst snd].
    split_and!; [|unfold line_ok; cbn [fst snd]|done].
    + destruct Hs0. split; try assumption; cbn -[tst]; [by width|].
      intros Hfe. by rewrite tst_fe_c9, Hb0 in Hfe.
    + rewrite (proj1 (proj2 H)). cbn [fst]. by rewrite <-F4.
Qed.

Lemma sk_write_lcr fr v : sk fr fr (write_lcr v).
Proof.
  unfold write_lcr. sk_step. apply (sk_seq _ fr); [apply sk_update_parameters|].
  cbv zeta. sk_step. intros s Hs. destruct (negb _); [|done].
  split_and!; [by destruct Hs|done|done].
Qed.

(** A register access that is not a write of IER with the transmitter busy. *)
Definition reports (s : SerialState) (addr : Z) : Prop :=
  addr .& 7 = 1 -> tst (lsr s) UART_LSR_THRE = true \/ tst (lcr s) UART_LCR_DLAB = true.

Lemma sk_ioport_write fr addr v s w :
  sinv fr (s, w) -> (fr = true -> reports s addr) ->
  wp (serial_ioport_write addr v) (fun _ x' => sinv fr x') (s, w).
Proof.
  intros H Hr. unfold serial_ioport_write. cbv zeta.
  destruct (Z.eqb_spec (addr .& 7) 1) as [E|_].
  { apply wp_write_ier; [done|]. intros Hf. by apply Hr. }
  revert H. clear Hr. generalize (s, w). clear s w.
  change (sk fr fr (if addr .& 7 =? 2 then write_fcr v
    else if addr .& 7 =? 3 then write_lcr v
    else if addr .& 7 =? 4 then modd (fun s => s <| mcr := v .& 0x1f |>)
    else if addr .& 7 =? 5 then mret tt
    else if addr .& 7 =? 6 then mret tt
    else if addr .& 7 =? 7 then modd (fun s => s <| scr := u8 v |>)
    else write_data v)).
  sk_step; [apply sk_write_fcr|]. sk_step; [apply sk_write_lcr|]. sk_run.
  apply sk_write_data.
Qed.

Lemma sk_read_iir fr : sk fr fr read_iir.
Proof.
  unfold read_iir. sk_step. cbv zeta. sk_step; [|sk_step]. apply sk_fresh. sk_run.
Qed.

Lemma sk_read_lsr fr : sk fr fr read_lsr.
Proof.
  unfold read_lsr. sk_step. cbv zeta. sk_step; [|sk_step]. apply sk_fresh. sk_run.
Qed.

Lemma sk_read_msr fr : sk fr fr read_msr.
Proof.
  unfold read_msr. sk_step. sk_step; [sk_step|]. sk_step; [apply sk_update_msl|].
  sk_step. cbv zeta. sk_step; [|sk_step]. apply sk_fresh. sk_run.
Qed.

Lemma sk_read_data fr : sk fr fr read_data.
Proof.
  unfold read_data. sk_step. sk_step; [sk_step|]. apply sk_fresh.
  apply (sk_bind _ false); [|intros ret; sk_run]. sk_step; [|sk_run].
  sk_step. sk_step. apply (sk_seq _ false); [|sk_run]. sk_run.
Qed.

Lemma sk_ioport_read fr addr : sk fr fr (serial_ioport_read addr).
Proof.
  unfold serial_ioport_read. cbv zeta. sk_step. sk_run.
  - apply sk_read_iir.
  - apply sk_read_lsr.
  - apply sk_read_msr.
  - apply sk_read_data.
Qed.

(** ** The shared ring *)

Record ring_wf (b : getchar_buffer) : Prop := {
  gw_len : length (gb_buf b) = 4088%nat;
  gw_head : 0 <= gb_head b < 4088;
  gw_tail : 0 <= gb_tail b < 4088 }.

(** The characters in the ring, oldest first, as the port receives them. *)
Definition ring_contents (b : getchar_buffer) : list Z :=
  map (fun i => u8 (arr (gb_buf b) ((gb_head b + i) mod 4088)))
      (zrange (Z.to_nat ((gb_tail b - gb_head b) mod 4088))).

Definition ring_drop (b : getchar_buffer) : getchar_buffer :=
  b <| gb_head := (gb_head b + 1) mod GETCHAR_SIZE |>.

Lemma ring_drop_wf b : ring_wf b -> ring_wf (ring_drop b).
Proof. intros []. split; cbn -[Z.modulo]; try done. apply Z.mod_pos_bound. done. Qed.

Lemma ring_contents_cons b :
  ring_wf b -> gb_head b <> gb_tail b ->
  ring_contents b = u8 (arr (gb_buf b) (gb_head b)) :: ring_contents (ring_drop b).
Proof.
  intros [_ Hh Ht] Hne. unfold ring_contents, ring_drop, GETCHAR_SIZE. cbn -[Z.modulo arr u8 zrange].
  replace (Z.to_nat ((gb_tail b - gb_head b) mod 4088))
    with (S (Z.to_nat ((gb_tail b - (gb_head b + 1) mod 4088) mod 4088)))
    by (Z.to_euclidean_division_equations; lia).
  rewrite zrange_S_l. cbn [map]. f_equal.
  - f_equal. f_equal. rewrite Z.add_0_r. apply Z.mod_small. lia.
  - rewrite map_map. apply map_ext. intros i. do 2 f_equal.
    rewrite Zplus_mod_idemp_l. f_equal. lia.
Qed.

Lemma ring_contents_nil b : gb_head b = gb_tail b -> ring_contents b = [].
Proof. intros E. unfold ring_contents. by rewrite E, Z.sub_diag. Qed.

Lemma wp_dequeue d w (Q : option Z -> Serial * World -> Prop) :
  ring_wf (serial_getchar_buf d) ->
  (gb_head (serial_getchar_buf d) = gb_tail (serial_getchar_buf d) -> Q None (d, w)) ->
  (gb_head (serial_getchar_buf d) <> gb_tail (serial_getchar_buf d) ->
   Q (Some (arr (gb_buf (serial_getchar_buf d)) (gb_head (serial_getchar_buf d))))
     (d <| serial_getchar_buf := ring_drop (serial_getchar_buf d) |>, w)) ->
  wp serial_buffer_dequeue Q (d, w).
Proof.
  intros [Hl Hh _] HN HS. unfold serial_buffer_dequeue. do 3 wp_step.
  - apply negb_true_iff, Z.eqb_neq in Hb. apply wp_bind.
    eapply wp_lift; [apply idx_ok; lia|]. wp_run. by apply HS.
  - apply negb_false_iff, Z.eqb_eq in Hb. wp_step. by apply HN.
Qed.

(** ** Receiving *)

Lemma wp_on_port {A} (m : Dev SerialState A) d w (Q : A -> Serial * World -> Prop) :
  wp m (fun a x => Q a (d <| serialstate := fst x |>, snd x)) (serialstate d, w) ->
  wp (on_port m) Q (d, w).
Proof. intros H. by eapply wp_on_dev. Qed.

(** What one received character does to the FIFO, or to the receive register. *)
Definition received (c : Z) (s s' : SerialState) : Prop :=
  fcr s' = fcr s /\
  if tst (fcr s) UART_FCR_FE then recv_fifo s' = put_fifo c (recv_fifo s)
  else rbr s' = c /\ tst (lsr s') UART_LSR_DR = true.

Lemma lsr_dr v : inw 8 v -> tst (u8 (v .| UART_LSR_DR)) UART_LSR_DR = true.
Proof. revert v. apply byte_forall. vm_compute. reflexivity. Qed.

Lemma wp_receive1 c s w :
  ser_wf s -> serial_can_receive s <> 0 ->
  wp (serial_receive1 [c]) (fun _ x => received c s (fst x)) (s, w).
Proof.
  intros Hs Hcan. unfold serial_receive1, received, serial_can_receive in *.
  pose proof (sw_lsr s Hs) as Hlsr.
  wp_step. wp_step. wp_step. wp_step.
  - cbn [for_each]. do 2 wp_step. apply wp_fifo_put; [apply Hs|by right|].
    change (RECV_FIFO =? RECV_FIFO) with true. change (fifo_of RECV_FIFO s) with (recv_fifo s).
    rewrite Hb in Hcan |- *. cbn [andb].
    destruct (Z.eqb_spec (count (recv_fifo s)) 16) as [E|E].
    { by rewrite E in Hcan. }
    wp_run.
    apply (wp_update_irq_frame (fun s' => fcr s' = fcr s /\
      recv_fifo s' = put_fifo c (recv_fifo s))); [done|]. intros s' i []. done.
  - rewrite Hb in Hcan |- *. destruct (tst (lsr s) UART_LSR_DR) eqn:Ed; [done|].
    wp_step. wp_step; [done|]. apply wp_bind. eapply wp_lift; [reflexivity|].
    wp_run.
    apply (wp_update_irq_frame (fun s' => fcr s' = fcr s /\
      (rbr s' = c /\ tst (lsr s') UART_LSR_DR = true))); [|intros s' i; done].
    split_and!; [done..|]. by apply lsr_dr.
Qed.

Definition dinv (fr : bool) (x : Serial * World) : Prop :=
  sinv fr (serialstate (fst x), snd x) /\ ring_wf (serial_getchar_buf (fst x)).

(** How many characters the port can still take. *)
Definition room (s : SerialState) : Z :=
  if tst (fcr s) UART_FCR_FE then 16 - count (recv_fifo s)
  else b2z (negb (tst (lsr s) UART_LSR_DR)).

Lemma room_received c s s' :
  ser_wf s -> serial_can_receive s <> 0 -> received c s s' -> 0 <= room s' < room s.
Proof.
  intros Hs Hcan [Ef Hr]. unfold room, serial_can_receive in *. rewrite Ef.
  pose proof (fwf_count _ (sw_recv s Hs)).
  destruct (tst (fcr s) UART_FCR_FE).
  - rewrite Hr. destruct (Z.ltb_spec (count (recv_fifo s)) UART_FIFO_LENGTH); [|done].
    unfold UART_FIFO_LENGTH in *. cbn -[Z.min]. lia.
  - destruct Hr as [_ ->]. by destruct (tst (lsr s) UART_LSR_DR).
Qed.

(** What the receive loop achieves: it moves a prefix of the ring, in order,
    and stops only when the ring is empty or the port is full. *)
Definition drained (d d' : Serial) : Prop :=
  fcr (serialstate d') = fcr (serialstate d) /\
  exists moved,
    ring_contents (serial_getchar_buf d) = moved ++ ring_contents (serial_getchar_buf d') /\
    (if tst (fcr (serialstate d)) UART_FCR_FE then
       fifo_contents (recv_fifo (serialstate d'))
         = fifo_contents (recv_fifo (serialstate d)) ++ moved
     else rbr (serialstate d') = List.last moved (rbr (serialstate d))) /\
    (ring_contents (serial_getchar_buf d') = [] \/ serial_can_receive (serialstate d') = 0).

Lemma last_cons_default {A} (l : list A) c x : List.last (c :: l) x = List.last l c.
Proof. revert c. induction l as [|m l IH]; intros c; [done|]. cbn in *. destruct l; [done|]. apply IH. Qed.

Lemma drained_step c d s2 d' :
  ser_wf (serialstate d) -> serial_can_receive (serialstate d) <> 0 ->
  ring_contents (serial_getchar_buf d) = c :: ring_contents (ring_drop (serial_getchar_buf d)) ->
  received c (serialstate d) s2 ->
  drained (d <| serial_getchar_buf := ring_drop (serial_getchar_buf d) |> <| serialstate := s2 |>) d' ->
  drained d d'.
Proof.
  intros Hs Hcan Er [Ef Hrec] (Ef' & moved & Em & Hq & Hstop). cbn in Ef', Em, Hq.
  split; [congruence|]. exists (c :: moved). rewrite Er, Em. split_and!; [done| |done].
  rewrite Ef in Hq. destruct (tst (fcr (serialstate d)) UART_FCR_FE) eqn:Efe.
  - rewrite Hq, Hrec. pose proof (fwf_count _ (sw_recv _ Hs)) as Hc.
    assert (count (recv_fifo (serialstate d)) < 16) as Hlt.
    { unfold serial_can_receive in Hcan. rewrite Efe in Hcan.
      destruct (Z.ltb_spec (count (recv_fifo (serialstate d))) UART_FIFO_LENGTH); done. }
    destruct (put_contents c (recv_fifo (serialstate d))) as [-> _]; [apply Hs..|done|].
    by rewrite <-app_assoc.
  - rewrite Hq. destruct Hrec as [-> _]. symmetry. apply last_cons_default.
Qed.

Lemma receive_loop_ok fuel fr d w :
  dinv fr (d, w) -> 0 <= room (serialstate d) < Z.of_nat fuel ->
  wp (receive_loop fuel) (fun _ x => dinv fr x /\ drained d (fst x)) (d, w).
Proof.
  revert d w. induction fuel as [|fuel IH]; intros d w [Hd Hr] Hroom; [lia|].
  pose proof (proj1 Hd) as Hs. cbn [fst snd] in *.
  assert (forall d, ring_contents (serial_getchar_buf d) = [] \/
                    serial_can_receive (serialstate d) = 0 -> drained d d) as Hstop.
  { intros d0 Hd0. split; [done|]. exists []. rewrite app_nil_r.
    split_and!; [done| |done]. by destruct (tst _ _). }
  cbn [receive_loop]. wp_step. wp_step. wp_step; cycle 1.
  { wp_step. split; [done|]. apply Hstop. right.
    unfold z2b in Hb. apply negb_false_iff, Z.eqb_eq in Hb. done. }
  assert (serial_can_receive (serialstate d) <> 0) as Hcan.
  { unfold z2b in Hb. by apply negb_true_iff, Z.eqb_neq in Hb. }
  wp_step. apply wp_dequeue; [done| |]; intros Hht.
  { wp_step. split; [done|]. apply Hstop. left. by apply ring_contents_nil. }
  set (c := u8 _). set (d1 := d <| serial_getchar_buf := _ |>).
  assert (inw 8 c) as Hc by width.
  wp_step. apply wp_on_port.
  eapply wp_mono.
  { apply wp_and; [apply wp_receive1; [exact Hs|done]|].
    apply (sk_receive1 fr [c]); [apply List.Forall_cons; [done|apply List.Forall_nil]|done|].
    exact Hd. }
  intros [] [s2 w2] [Hrec H2]. cbn [fst snd] in *.
  pose proof (room_received _ _ _ Hs Hcan Hrec) as Hlt.
  change (serialstate d1) with (serialstate d) in Hrec.
  set (d2 := d1 <| serialstate := s2 |>).
  eapply wp_mono.
  { apply (IH d2 w2); [|change (serialstate d2) with s2; lia].
    split; [|by apply ring_drop_wf].
    destruct H2 as (? & ? & Hf). split_and!; [done|done|]. intros _. by apply Hf. }
  intros [] x [Hx Hdr]. split; [done|].
  apply (drained_step c d s2); [done|done|by apply ring_contents_cons|done|done].
Qed.

Lemma room_range s : ser_wf s -> 0 <= room s < Z.of_nat RECEIVE_FUEL.
Proof.
  intros Hs. unfold room. pose proof (fwf_count _ (sw_recv s Hs)).
  change (Z.of_nat RECEIVE_FUEL) with 17.
  destruct (tst (fcr s) UART_FCR_FE); [lia|]. by destruct (tst _ _).
Qed.

Lemma character_interrupt_ok fr d w :
  dinv fr (d, w) ->
  wp serial_character_interrupt (fun _ x => dinv fr x /\ drained d (fst x) /\
       (serial_can_receive (serialstate (fst x)) = 0 ->
        In (TimerOneshotRel TIMER_MORE_CHARS (3 * NS_IN_MS)) (w_log (snd x)))) (d, w).
Proof.
  intros Hd. unfold serial_character_interrupt. wp_step. eapply wp_mono.
  { apply receive_loop_ok; [exact Hd|]. apply room_range, (proj1 (proj1 Hd)). }
  intros [] [d1 w1] [[H1 Hr1] Hdr]. cbn [fst snd] in *. do 3 wp_step.
  - wp_step. split_and!; [|done|].
    + split; [|done]. cbn [fst snd]. exact (sk_emit fr (TimerOneshotRel _ _) I _ H1).
    + intros _. rewrite w_log_logged, in_app_iff. cbn. auto.
  - split_and!; [by split|done|]. intros E. by rewrite E in Hb.
Qed.

(** From the port to the device. *)
Definition dk (fr : bool) {A} (m : Dev Serial A) : Prop :=
  forall x, dinv fr x -> wp m (fun _ x' => dinv fr x') x.

Lemma dk_bind fr {A B} (m : Dev Serial A) (k : A -> Dev Serial B) :
  dk fr m -> (forall a, dk fr (k a)) -> dk fr (m ≫= k).
Proof.
  intros Hm Hk x Hx. apply wp_bind. eapply wp_mono; [by apply Hm|]. intros a x' Hx'. by apply Hk.
Qed.

Lemma dk_when fr b m : dk fr m -> dk fr (when b m).
Proof. intros Hm x Hx. by apply wp_when; [intros; apply Hm|]. Qed.

Lemma dk_port fr {A} (m : Dev SerialState A) : sk fr fr m -> dk fr (on_port m).
Proof.
  intros Hm [d w] [Hs Hr]. apply wp_on_port. eapply wp_mono; [by apply Hm|].
  intros a [s' w'] H. by split.
Qed.

Lemma dk_timer_interrupt fr c : dk fr (serial_timer_interrupt c).
Proof.
  unfold serial_timer_interrupt. apply dk_bind; [|intros _; apply dk_bind; [|intros _; apply dk_bind]].
  - apply dk_when, dk_port. unfold fifo_timeout_int. sk_step. sk_step. apply sk_fresh. sk_run.
  - apply dk_when, dk_port. sk_step. apply sk_serial_xmit.
  - apply dk_when, dk_port, sk_update_msl.
  - intros _. apply dk_when. intros [d w] Hd. eapply wp_mono; [by apply character_interrupt_ok|].
    intros [] x [Hx _]. done.
Qed.

Lemma ring_push_wf cs b : ring_wf b -> ring_wf (ring_push cs b).
Proof.
  revert b. induction cs as [|c cs IH]; intros b Hb; [done|]. cbn. apply IH.
  destruct Hb. split; cbn -[Z.modulo]; [by rewrite length_arr_set|done|].
  apply Z.mod_pos_bound. done.
Qed.

(** The operation reports every condition it makes pending. *)
Definition op_reports (s : SerialState) (o : serial_op) : Prop :=
  match o with SerOut p 1 _ => reports s p | _ => True end.

Lemma serial_exec_ok fr o d w :
  dinv fr (d, w) -> (fr = true -> op_reports (serialstate d) o) ->
  wp (serial_exec o) (fun _ x => dinv fr x) (d, w).
Proof.
  intros Hd Hr. destruct o as [p sz|p sz v|c| |cs]; cbn [serial_exec].
  - revert Hd. generalize (d, w). fold (dk fr (on_port (serial_port_in p sz;; mret tt))).
    apply dk_port. unfold serial_port_in. apply (sk_seq _ fr); [|apply sk_ret].
    sk_step; [apply sk_ret|]. apply (sk_bind _ fr); [apply sk_ioport_read|intros; apply sk_ret].
  - apply wp_on_port. unfold serial_port_out. wp_step. wp_step; [by do 2 wp_step|]. wp_step.
    destruct Hd as [Hs Hring]. apply negb_false_iff, Z.eqb_eq in Hb. subst sz.
    eapply wp_mono; [by apply sk_ioport_write|]. intros [] [s' w'] H'. do 2 wp_step. by split.
  - by apply dk_timer_interrupt.
  - eapply wp_mono; [by apply character_interrupt_ok|]. by intros [] x [Hx _].
  - apply wp_modd. split; [apply Hd|]. apply ring_push_wf, Hd.
Qed.

(** Power-on. *)
Lemma fifo_bss_wf : fifo_wf fifo_bss.
Proof.
  split; cbn; try lia. repeat (apply List.Forall_cons; [by split|]). apply List.Forall_nil.
Qed.

Lemma serial_pre_init_ok w :
  line_level (w_log w) = 0 ->
  wp serial_pre_init (fun _ x => sinv true x) (serialstate_bss, w).
Proof.
  intros Hw. unfold serial_pre_init, serial_init_core, serial_reset. wp_run.
  apply (sk_update_msl true).
  split_and!; [|unfold line_ok; cbn [fst snd] in *|done].
  2: { transitivity (line_level (w_log w)); [f_equal; assumption|by rewrite Hw]. }
  cbn [fst].
  split; cbn; first [ apply fifo_bss_wf | done | lia | by width ].
Qed.

(** ** Counting what is sent *)

(** The characters sent to the host, in order. *)
Definition sent (log : list event) : list Z :=
  flat_map (fun e => match e with PutChar c => [c] | _ => [] end) log.
Definition n_sent (w : World) : Z := Z.of_nat (length (sent (w_log w))).

Lemma sent_app l l' : sent (l ++ l') = sent l ++ sent l'.
Proof. apply flat_map_app. Qed.

Lemma sent_logged e w :
  sent (w_log (logged [e] w)) = sent (w_log w) ++ match e with PutChar c => [c] | _ => [] end.
Proof. rewrite w_log_logged, sent_app. cbn. by destruct e. Qed.

(** [same f m]: a run of [m] changes [f] of the device by as much as it
    sends. *)
Definition same {D A} (f : D -> Z) (m : Dev D A) : Prop :=
  forall x a x', m x = Ok (a, x') -> n_sent (snd x') - f (fst x') = n_sent (snd x) - f (fst x).

Section Same.
Context {D : Type} (f : D -> Z).

Lemma same_log {A} (m : Dev D A) :
  (forall x a x', m x = Ok (a, x') -> fst x' = fst x /\ w_log (snd x') = w_log (snd x)) -> same f m.
Proof. intros H x a x' E. destruct (H _ _ _ E) as [E1 E2]. unfold n_sent. by rewrite E1, E2. Qed.
Lemma same_ret {A} (a : A) : same f (mret a).
Proof. apply same_log. by intros x b x' [= <- <-]. Qed.
Lemma same_bind {A B} (m : Dev D A) (k : A -> Dev D B) : same f m -> (forall a, same f (k a)) -> same f (m ≫= k).
Proof.
  intros Hm Hk x b x' (a & x1 & E1 & E2)%bind_inv. rewrite (Hk _ _ _ _ E2). by apply (Hm _ a).
Qed.
Lemma same_when (b : bool) (m : Dev D unit) : same f m -> same f (when b m).
Proof. destruct b; [done|]. intros _. apply same_ret. Qed.
Lemma same_if {A} (b : bool) (m1 m2 : Dev D A) : same f m1 -> same f m2 -> same f (if b then m1 else m2).
Proof. by destruct b. Qed.
Lemma same_fail {A} e : same f (A := A) (fail e).
Proof. by intros x a x'. Qed.
Lemma same_assertC b : same f (assertC b).
Proof. destruct b; [apply same_ret|apply same_fail]. Qed.
Lemma same_lift {A} (o : outcome A) : same f (lift o).
Proof. apply same_log. intros x a x'. unfold lift. by destruct o; intros [= <- <-]. Qed.
Lemma same_getd : same f getd.
Proof. apply same_log. by intros x a x' [= <- <-]. Qed.
Lemma same_modd g : (forall d, f (g d) = f d) -> same f (modd g).
Proof. intros Hg x a x' [= <- <-]. cbn. by rewrite Hg. Qed.
Lemma same_emit e : match e with PutChar _ => False | _ => True end -> same f (emit e).
Proof. intros He x a x' [= <- <-]. cbn [fst snd]. unfold n_sent. rewrite sent_logged. destruct e; try done; by rewrite app_nil_r. Qed.
Lemma same_freq : same f init_timer_tsc_frequency.
Proof. apply same_log. by intros x a x' [= <- <-]. Qed.
Lemma same_ns t : same f (current_time_ns t).
Proof. apply same_bind; [apply same_log; by intros x a x' [= <- <-]|]. intros. apply same_ret. Qed.
Lemma same_for_each {X} (l : list X) (body : X -> Dev D unit) : (forall x, same f (body x)) -> same f (for_each l body).
Proof. intros Hb. induction l as [|x l IH]; cbn; [apply same_ret|]. by apply same_bind. Qed.
End Same.

Lemma same_port {A} (f : SerialState -> Z) (m : Dev SerialState A) : same f m -> same (fun d => f (serialstate d)) (on_port m).
Proof.
  intros Hm [d w] a [d' w'] H. unfold on_port, on_dev in H. cbn in H.
  destruct (m (serialstate d, w)) as [[b [s w1]]|] eqn:E1; [|done]. injection H as <- <- <-. exact (Hm _ _ _ E1).
Qed.

Ltac same_head t := lazymatch t with ?f _ => same_head f | ?f => f end.
Ltac same_step :=
  lazymatch goal with
  | |- same _ (mbind _ _) => apply same_bind; [|intros ?]
  | |- same _ (mret _) => apply same_ret
  | |- same _ (when _ _) => apply same_when
  | |- same _ (if _ then _ else _) => apply same_if
  | |- same _ (match ?x with _ => _ end) => destruct x
  | |- same _ (let _ := _ in _) => cbv zeta
  | |- same _ (fail _) => apply same_fail
  | |- same _ (assertC _) => apply same_assertC
  | |- same _ (lift _) => apply same_lift
  | |- same _ getd => apply same_getd
  | |- same _ (modd _) => apply same_modd; intros d; unfold set_fifo; repeat case_match; reflexivity
  | |- same _ (emit _) => apply same_emit; exact I
  | |- same _ init_timer_tsc_frequency => apply same_freq
  | |- same _ (current_time_ns _) => apply same_ns
  | |- same _ (for_each _ _) => apply same_for_each; intros ?
  | |- same _ (on_port _) => apply (same_port chars_sent)
  | |- same _ serial_xmit => fail
  | |- same _ (receive_loop _) => fail
  | |- same _ ?m => let h := same_head m in unfold h
  end.
Ltac same_run := repeat same_step.

(** The transmitter counts each character it sends. *)
Lemma same_xmit : same chars_sent serial_xmit.
Proof.
  unfold serial_xmit. do 4 (apply same_bind; [same_run|intros ?]).
  apply same_if; [same_run|]. apply same_if; [same_run|].
  intros x b x' (u & x1 & E1 & (u2 & x2 & E2 & E3)%bind_inv)%bind_inv.
  assert (same chars_sent (modd (fun s => s <| tsr_retry := 0 |>);; xmit_done)) as Hk by same_run.
  rewrite (Hk _ _ _ E3). injection E1 as _ <-. injection E2 as _ <-. cbn [fst snd]. cbn.
  unfold n_sent. rewrite sent_logged, length_app. cbn [length]. lia.
Qed.

Lemma same_receive_loop fuel : same (fun d => chars_sent (serialstate d)) (receive_loop fuel).
Proof. induction fuel as [|fuel IH]; cbn [receive_loop]; same_run. exact IH. Qed.

Lemma same_ioport_write p v : same chars_sent (serial_ioport_write p v).
Proof. same_run; apply same_xmit. Qed.

(** The operations that start a new period of the transmitter. *)
Definition transmit_timer (o : serial_op) : bool :=
  match o with SerTimer c => tst c (BIT TIMER_TRANSMIT_TIMER) | _ => false end.

Lemma same_exec o : transmit_timer o = false -> same (fun d => chars_sent (serialstate d)) (serial_exec o).
Proof.
  intros Ho. destruct o as [p sz|p sz v|c| |cs]; cbn [serial_exec transmit_timer] in *.
  - same_run.
  - same_step. apply same_bind; [|intros; apply same_ret]. unfold serial_port_out.
    apply same_if; [apply same_ret|]. apply same_bind; [apply same_ioport_write|intros; apply same_ret].
  - unfold serial_timer_interrupt. rewrite Ho. cbn [when]. same_run. apply same_receive_loop.
  - same_run. apply same_receive_loop.
  - same_run.
Qed.

(** A new period starts at nothing sent. *)
Lemma timer_exec c x x' : tst c (BIT TIMER_TRANSMIT_TIMER) = true -> serial_exec (SerTimer c) x = Ok (tt, x') ->
  n_sent (snd x') - chars_sent (serialstate (fst x')) = n_sent (snd x).
Proof.
  intros Hc H. cbn [serial_exec] in H. unfold serial_timer_interrupt in H. rewrite Hc in H. cbn [when] in H.
  apply bind_inv in H as (u1 & x1 & E1 & (u2 & x2 & E2 & E3)%bind_inv).
  assert (same (fun d => chars_sent (serialstate d))
    (when (tst c (BIT TIMER_MODEM_STATUS_TIMER)) (on_port serial_update_msl);;
     when (tst c (BIT TIMER_MORE_CHARS)) serial_character_interrupt)) as H3 by (same_run; apply same_receive_loop).
  rewrite (H3 _ _ _ E3).
  assert (n_sent (snd x1) = n_sent (snd x)) as H1.
  { assert (same (fun _ => 0) (when (tst c (BIT TIMER_FIFO_TIMEOUT)) (on_port fifo_timeout_int))) as Hs.
    { apply same_when, (same_port (fun _ => 0)). same_run. }
    pose proof (Hs _ _ _ E1) as H0. cbv beta in H0. lia. }
  rewrite <-H1. destruct x1 as [d w]. unfold on_port, on_dev in E2. cbn [fst snd] in E2.
  destruct ((modd _;; serial_xmit) (serialstate d, w)) as [[b [s w1]]|] eqn:E; [|done]. injection E2 as _ <-.
  apply bind_inv in E as (u & y & Ey & E). injection Ey as _ <-. pose proof (same_xmit _ _ _ E) as Hx.
  cbn [fst snd] in *. cbn in Hx |- *. lia.
Qed.

Lemma dinv_chars fr x : dinv fr x -> 0 <= chars_sent (serialstate (fst x)) <= 16.
Proof. intros [[H _] _]. exact (sw_chars _ H). Qed.

(** In a period, started by the transmit timer or not, at most sixteen. *)
Lemma period_counts ops x : dinv false x -> Forall (fun o => transmit_timer o = false) (List.tl ops) ->
  wp (for_each ops serial_exec) (fun _ x' => dinv false x' /\ n_sent (snd x') <= n_sent (snd x) + 16) x.
Proof.
  intros Hx Hops.
  assert (forall ops x0 b, dinv false x0 -> Forall (fun o => transmit_timer o = false) ops ->
    n_sent (snd x0) - chars_sent (serialstate (fst x0)) <= b ->
    wp (for_each ops serial_exec) (fun _ x' => dinv false x' /\ n_sent (snd x') <= b + 16) x0) as Hrest.
  { intros ops0 x0 b H0 Hf Hb. apply wp_for_each with (I := fun x => dinv false x /\
      n_sent (snd x) - chars_sent (serialstate (fst x)) <= b); [done| |].
    - intros o [d w] Ho [Hd Hc]. rewrite List.Forall_forall in Hf. eapply wp_mono; [by apply wp_eqn, serial_exec_ok|].
      intros [] x' [Hd' E]. split; [done|]. pose proof (same_exec o (Hf o Ho) _ _ _ E) as Hs. cbv beta in Hs. lia.
    - intros x' [Hd Hc]. split; [done|]. pose proof (dinv_chars _ _ Hd). lia. }
  destruct ops as [|o ops]; cbn [List.tl for_each] in *.
  { apply (Hrest []); [done|constructor|]. pose proof (dinv_chars _ _ Hx). cbn [fst snd] in *. lia. }
  apply wp_bind. destruct x as [d w]. eapply wp_mono; [by apply wp_eqn, serial_exec_ok|]. intros [] x' [Hx' E].
  apply Hrest; [done|done|]. destruct (transmit_timer o) eqn:Ho.
  - destruct o as [| |c| |]; try done. pose proof (timer_exec c _ _ Ho E). lia.
  - pose proof (same_exec o Ho _ _ _ E) as Hs. cbn [fst snd] in *. pose proof (dinv_chars _ _ Hx). cbn [fst snd] in *. lia.
Qed.

(** C18 -- From power-on, [serial_pre_init] and then any sequence of port
    accesses (of any size), timer completions, character interrupts and
    arrivals of characters in the shared ring runs without a fault: the speed
    assertion holds, no FIFO or ring access is out of bounds, and the receive
    loops terminate.  All along, every register is in range and the interrupt
    line is raised exactly when IIR shows a pending interrupt; and during any
    part of the sequence in which the transmit timer does not complete, but
    perhaps at its beginning, at most sixteen characters are sent. *)
Theorem serial_safe (before during : list serial_op) (ring : getchar_buffer) (w : World) :
  ring_wf ring -> line_level (w_log w) = 0 -> Forall (fun o => transmit_timer o = false) (List.tl during) ->
  wp (on_port serial_pre_init;; for_each before serial_exec)
     (fun _ x =>
        ser_wf (serialstate (fst x)) /\ ring_wf (serial_getchar_buf (fst x)) /\ line_ok (serialstate (fst x), snd x) /\
        wp (for_each during serial_exec) (fun _ x' =>
          (length (sent (w_log (snd x'))) <= length (sent (w_log (snd x))) + 16)%nat) x)
     (mkSerial serialstate_bss ring, w).
Proof.
  intros Hring Hw Hf. apply wp_bind, wp_on_port.
  eapply wp_mono; [by apply serial_pre_init_ok|]. intros [] [s1 w1] H1. cbn [fst snd].
  apply wp_for_each with (I := dinv false).
  - split; [by eapply sinv_weaken|done].
  - intros o [d w2] _ Hd. by apply serial_exec_ok.
  - intros [d w2] Hd. pose proof Hd as [(? & ? & _) ?]. split_and!; [done..|].
    eapply wp_mono; [by apply period_counts|]. unfold n_sent. intros _ x' [_ Hn]. lia.
Qed.

(** No enabled condition goes unreported: if IIR shows the
    highest-priority enabled condition before an operation, it does so after
    it.  The exception is a write of IER while the transmitter is busy, which
    [serial_ier_stale] shows to be real. *)
Lemma serial_irq_prompt (o : serial_op) (d : Serial) (w : World) :
  ser_wf (serialstate d) -> ring_wf (serial_getchar_buf d) -> line_ok (serialstate d, w) ->
  fresh (serialstate d) -> op_reports (serialstate d) o ->
  wp (serial_exec o)
     (fun _ x => fresh (serialstate (fst x)) /\ line_ok (serialstate (fst x), snd x)) (d, w).
Proof.
  intros Hs Hr Hl Hf Ho. eapply wp_mono.
  { apply (serial_exec_ok true); [by split_and!|done]. }
  intros [] [d' w'] [(? & ? & Hf') _]. cbn in Hf'. auto.
Qed.


(** ** Transmitting *)

(** The characters accepted from the guest and not yet sent: the one in the
    shift register waiting for a retry, and the transmit FIFO. *)
Definition unsent (s : SerialState) : list Z :=
  (if 0 <? tsr_retry s then [tsr s] else []) ++ fifo_contents (xmit_fifo s).

(** All that transmission depends on. *)
Definition tx_view (x : SerialState * World) :=
  (xmit_fifo (fst x), tsr (fst x), tsr_retry (fst x), fcr (fst x), mcr (fst x), lcr (fst x),
   chars_sent (fst x), sent (w_log (snd x))).

Lemma tx_update_irq x : wp serial_update_irq (fun _ x' => tx_view x' = tx_view x) x.
Proof.
  unfold serial_update_irq. wp_run; unfold tx_view; cbn [fst snd]; rewrite sent_logged; cbn;
    by rewrite app_nil_r.
Qed.

Lemma tx_xmit_done x : wp xmit_done (fun _ x' => tx_view x' = tx_view x) x.
Proof.
  unfold xmit_done. wp_run.
  all: try (eapply wp_mono; [apply tx_update_irq|]; intros [] x' ->).
  all: unfold tx_view; cbn [fst snd]; rewrite ?sent_logged, ?app_nil_r; cbn; congruence.
Qed.

Lemma tx_xmit_load s w :
  ser_wf s -> tst (fcr s) UART_FCR_FE = true -> unsent s <> [] ->
  wp xmit_load (fun _ x => exists c,
       unsent s = c :: fifo_contents (xmit_fifo (fst x)) /\ tsr (fst x) = c /\
       tsr_retry (fst x) = tsr_retry s /\ fcr (fst x) = fcr s /\ mcr (fst x) = mcr s /\
       lcr (fst x) = lcr s /\ chars_sent (fst x) = chars_sent s /\ snd x = w /\
       poll_msl (fst x) = poll_msl s /\
       (fifo_sync (xmit_fifo s) -> fifo_sync (xmit_fifo (fst x)))) (s, w).
Proof.
  intros Hs Hfe Hne. unfold xmit_load, unsent in *. wp_step. wp_step. wp_step.
  - rewrite Hfe. apply Z.leb_le in Hb. destruct (Z.ltb_spec 0 (tsr_retry s)); [lia|].
    cbn [app] in *.
    assert (count (xmit_fifo s) <> 0) as Hc.
    { intros E. apply Hne. unfold fifo_contents. by rewrite E. }
    wp_step. apply wp_fifo_get; [apply Hs|done|].
    change (fifo_of XMIT_FIFO s) with (xmit_fifo s).
    wp_run; (eexists; split_and!; [by rewrite (get_contents (xmit_fifo s)) by (done || apply Hs)
      |done..|]; intros Hy; by apply get_sync).
  - apply Z.leb_gt in Hb. destruct (Z.ltb_spec 0 (tsr_retry s)); [|lia].
    eexists. split_and!; done.
Qed.

(** One attempt to transmit loses nothing. *)
Lemma tx_serial_xmit s w :
  ser_wf s -> tst (fcr s) UART_FCR_FE = true -> tst (mcr s) UART_MCR_LOOP = false ->
  unsent s <> [] ->
  wp serial_xmit (fun _ x =>
       sent (w_log (snd x)) ++ unsent (fst x) = sent (w_log w) ++ unsent s /\
       Z.of_nat (length (sent (w_log (snd x)))) - chars_sent (fst x) =
         Z.of_nat (length (sent (w_log w))) - chars_sent s /\
       fcr (fst x) = fcr s /\ mcr (fst x) = mcr s /\ lcr (fst x) = lcr s /\
       (fifo_sync (xmit_fifo s) -> fifo_sync (xmit_fifo (fst x)))) (s, w).
Proof.
  intros Hs Hfe Hloop Hne. unfold serial_xmit. do 3 wp_step. wp_step. wp_step.
  rename w0 into w1. rename H0 into Hw1. cbn [fst snd] in Hw1.
  eapply wp_mono; [by apply tx_xmit_load|].
  intros [] [s1 w2] (c & Eu & Et & Er & Ef & Em & El & Ec & Ew & Ep & Hsync). cbn [fst snd] in *.
  subst w2. rewrite <-Hw1, Eu. wp_step. wp_step. rewrite Em, Hloop.
  assert (forall s2 w2, fcr s2 = fcr s1 /\ mcr s2 = mcr s1 /\ lcr s2 = lcr s1 /\
      xmit_fifo s2 = xmit_fifo s1 ->
    sent (w_log w2) ++ unsent s2 = sent (w_log w1) ++ c :: fifo_contents (xmit_fifo s1) ->
    Z.of_nat (length (sent (w_log w2))) - chars_sent s2 =
      Z.of_nat (length (sent (w_log w1))) - chars_sent s ->
    wp xmit_done (fun _ x => sent (w_log (snd x)) ++ unsent (fst x) =
        sent (w_log w1) ++ c :: fifo_contents (xmit_fifo s1) /\
      Z.of_nat (length (sent (w_log (snd x)))) - chars_sent (fst x) =
        Z.of_nat (length (sent (w_log w1))) - chars_sent s /\
      fcr (fst x) = fcr s /\ mcr (fst x) = mcr s /\ lcr (fst x) = lcr s /\
      (fifo_sync (xmit_fifo s) -> fifo_sync (xmit_fifo (fst x)))) (s2, w2)) as Hdone.
  { intros s2 w2 (F1 & F2 & F3 & F4) F5 F6. eapply wp_mono; [apply tx_xmit_done|].
    intros [] [s3 w3] E. unfold tx_view in E. cbn [fst snd] in *. injection E as G1 G2 G3 G4 G5 G6 G7 G8.
    assert (unsent s3 = unsent s2) as Eu' by (unfold unsent; by rewrite G1, G2, G3).
    rewrite Eu', G8, G7, G4, G5, G6, G1, F4. split_and!; [done|done|congruence..|done]. }
  pose proof (sw_retry s Hs). wp_step; [wp_step|].
  - wp_run. rewrite sent_logged, app_nil_r. unfold unsent. cbn [fst snd].
    change (tsr_retry (s1 <| tsr_retry := ?n |>)) with n.
    split_and!; [|cbn; lia|done..]. rewrite Er. destruct (Z.ltb_spec 0 (tsr_retry s + 1)); [|lia].
    cbn. by rewrite Et.
  - apply Z.leb_gt in Hb0. unfold MAX_XMIT_RETRY in Hb0. rewrite Ep.
    pose proof (sw_poll s Hs). wp_step. wp_step; [apply Z.ltb_lt in Hb1; lia|].
    apply Hdone; [done| |by rewrite Ec]. f_equal. unfold unsent.
    destruct (Z.ltb_spec 0 (tsr_retry s1)); [|lia]. by rewrite Et.
  - do 6 wp_step. apply Hdone; cbn [fst snd]; [done|..]; rewrite ?sent_logged.
    + unfold unsent. cbn. by rewrite <-app_assoc, Et.
    + rewrite length_app. cbn. lia.
Qed.

(** What the guest and the timer do to the transmitter. *)
Inductive tx_op := TxWrite (c : Z) | TxTimer.
Definition tx_exec (o : tx_op) : Dev SerialState unit :=
  match o with
  | TxWrite c => serial_ioport_write 0x3f8 c
  | TxTimer => modd (fun s => s <| chars_sent := 0 |>);; serial_xmit
  end.
Definition tx_written (o : tx_op) : list Z := match o with TxWrite c => [u8 c] | TxTimer => [] end.
(** FIFO mode, neither divisor latch nor loopback selected. *)
Definition tx_mode (s : SerialState) : Prop :=
  tst (fcr s) UART_FCR_FE = true /\ tst (mcr s) UART_MCR_LOOP = false /\
  tst (lcr s) UART_LCR_DLAB = false /\ fifo_sync (xmit_fifo s).
(** The guest does not overrun the FIFO; the timer finds something to send. *)
Definition tx_op_ok (s : SerialState) (o : tx_op) : Prop :=
  match o with TxWrite _ => count (xmit_fifo s) < 16 | TxTimer => unsent s <> [] end.

(** The store into the FIFO before the attempt to transmit. *)
Definition tx_fifo_store (c : Z) : Dev SerialState unit :=
  fifo_put XMIT_FIFO c;;
  modd (fun s => s <| thr_ipending := 0 |>);;
  modd (fun s => set_lsr (lsr s .& .~ UART_LSR_TEMT) s);;
  modd (fun s => set_lsr (lsr s .& .~ UART_LSR_THRE) s);;
  serial_update_irq.

Lemma tx_store c s w :
  ser_wf s -> tx_mode s -> inw 8 c -> count (xmit_fifo s) < 16 ->
  wp (tx_fifo_store c)
     (fun _ x => tx_mode (fst x) /\
        unsent (fst x) = unsent s ++ [c] /\ chars_sent (fst x) = chars_sent s /\
        sent (w_log (snd x)) = sent (w_log w)) (s, w).
Proof.
  intros Hs (M1 & M2 & M3 & M4) Hc Hn.
  destruct (put_contents c _ (sw_xmit s Hs) M4 Hn) as [Ep Hsy].
  unfold tx_fifo_store. wp_step. apply wp_fifo_put; [apply Hs|by left|].
  change (XMIT_FIFO =? RECV_FIFO) with false.
  change (fifo_of XMIT_FIFO s) with (xmit_fifo s). cbn [andb].
  set (s1 := set_fifo XMIT_FIFO _ s) in *. wp_run.
  eapply wp_mono; [apply tx_update_irq|].
  intros [] [s3 w3] E. unfold tx_view in E. cbn [fst snd] in E.
  injection E as G1 G2 G3 G4 G5 G6 G7 G8. cbn [fst snd].
  unfold tx_mode, unsent. rewrite G1, G2, G3, G4, G5, G6, G7, G8.
  split_and!; try done. change (xmit_fifo (set_lsr _ _)) with (put_fifo c (xmit_fifo s)).
  rewrite Ep. by rewrite app_assoc.
Qed.

Lemma sk_tx_store c : inw 8 c -> sk false false (tx_fifo_store c).
Proof.
  intros Hc. unfold tx_fifo_store. apply (sk_seq _ false); [by apply sk_put_xmit|]. sk_run.
  apply sk_fresh, sk_update_irq.
Qed.

(** Transmission in FIFO mode loses, duplicates and reorders nothing:
    the characters already sent to the host followed by those still queued are
    always exactly the characters the guest wrote, in order, as long as it
    does not write to a full FIFO; and every character sent is counted, so at
    most sixteen leave between two transmit-timer interrupts. *)
Lemma serial_tx_conserves (o : tx_op) (s : SerialState) (w : World) :
  ser_wf s -> line_ok (s, w) -> tx_mode s -> tx_op_ok s o ->
  wp (tx_exec o) (fun _ x =>
       sent (w_log (snd x)) ++ unsent (fst x) = sent (w_log w) ++ unsent s ++ tx_written o /\
       Z.of_nat (length (sent (w_log (snd x)))) - chars_sent (fst x) =
         Z.of_nat (length (sent (w_log w)))
         - (match o with TxWrite _ => chars_sent s | TxTimer => 0 end) /\
       ser_wf (fst x) /\ line_ok x /\ tx_mode (fst x)) (s, w).
Proof.
  intros Hs Hl Hm Ho. assert (sinv false (s, w)) as Hinv by by split_and!.
  assert (wp (tx_exec o) (fun _ x => sinv false x) (s, w)) as Hwf.
  { destruct o as [c|]; cbn [tx_exec]; [by apply sk_ioport_write|].
    revert Hinv. generalize (s, w). fold (sk false false
      (modd (fun s => s <| chars_sent := 0 |>);; serial_xmit)).
    sk_step. apply sk_serial_xmit. }
  pose proof Hm as (M1 & M2 & M3 & M4).
  assert (wp (tx_exec o) (fun _ x =>
       sent (w_log (snd x)) ++ unsent (fst x) = sent (w_log w) ++ unsent s ++ tx_written o /\
       Z.of_nat (length (sent (w_log (snd x)))) - chars_sent (fst x) =
         Z.of_nat (length (sent (w_log w)))
         - (match o with TxWrite _ => chars_sent s | TxTimer => 0 end) /\
       tx_mode (fst x)) (s, w)) as Htx.
  { destruct o as [c|]; cbn [tx_exec tx_written tx_op_ok] in *.
    - change (serial_ioport_write 0x3f8 c) with (write_data c). unfold write_data.
      wp_step. wp_step. rewrite M3. do 2 wp_step. do 2 wp_step.
      set (s1 := s <| thr := u8 c |>).
      assert (sinv false (s1, w)) as H1.
      { apply (sinv_quiet _ s); [done| |done..]. destruct Hs; split; cbn; ser_field. }
      change (fcr s1) with (fcr s). rewrite M1. apply wp_bind.
      change (thr s1) with (u8 c). fold (tx_fifo_store (u8 c)).
      eapply wp_mono.
      { apply wp_and; [apply tx_store; [apply H1|done|width|done]|].
        by apply sk_tx_store; [width|]. }
      intros [] [s2 w2] [(N & Eu & Ec & Es) H2]. cbn [fst snd] in *.
      change (unsent s1) with (unsent s) in Eu. change (chars_sent s1) with (chars_sent s) in Ec.
      pose proof N as (N1 & N2 & N3 & N4).
      eapply wp_mono; [apply tx_serial_xmit; [apply H2|done|done|]|].
      { rewrite Eu. by destruct (unsent s). }
      intros [] [s3 w3] (E1 & E2 & E3 & E4 & E5 & E6). cbn [fst snd] in *.
      rewrite E1, E2, Eu, Ec, Es. unfold tx_mode. rewrite E3, E4, E5. auto 10.
    - wp_step. wp_step. set (s1 := s <| chars_sent := 0 |>).
      assert (ser_wf s1) as H1 by (destruct Hs; split; cbn; ser_field).
      eapply wp_mono; [by apply tx_serial_xmit|].
      intros [] [s3 w3] (E1 & E2 & E3 & E4 & E5 & E6). cbn [fst snd] in *.
      rewrite E1, E2, app_nil_r. unfold tx_mode. rewrite E3, E4, E5. auto 10. }
  eapply wp_mono; [exact (wp_and _ _ _ _ Hwf Htx)|].
  intros [] x [(W1 & W2 & _) (T1 & T2 & T3)]. auto.
Qed.
End SERIAL.

(** * Concrete runs *)

#[local] Existing Instance utils_ref.

(** The port as a driver sets it up: FIFOs on with trigger level 8, receive
    interrupt enabled. *)
Definition serial_demo : SerialState * World :=
  final (serial_pre_init;; serial_ioport_write 0x3fa 0x81;; serial_ioport_write 0x3f9 0x01)
        (serialstate_bss, world0).

Lemma serial_demo_inv : sinv false serial_demo.
Proof.
  unfold serial_demo. apply wp_final. apply wp_bind.
  eapply wp_mono; [by apply serial_pre_init_ok|]. intros [] [s1 w1] H1. apply sinv_weaken in H1.
  apply wp_bind. eapply wp_mono; [by apply (sk_ioport_write false)|]. intros [] [s2 w2] H2.
  by apply sk_ioport_write.
Qed.

Lemma serial_demo_wf : ser_wf (fst serial_demo).
Proof. apply serial_demo_inv. Qed.
Lemma serial_demo_line : line_ok (fst serial_demo, snd serial_demo).
Proof. pose proof (proj1 (proj2 serial_demo_inv)) as H. by destruct serial_demo. Qed.

(** "abc" waiting in the shared ring. *)
Definition ring_demo : getchar_buffer := mkGetchar 4087 2 (98 :: 99 :: repeat 97 4086).

Lemma ring_demo_wf : ring_wf ring_demo.
Proof. split; [reflexivity|cbn; lia|cbn; lia]. Qed.

Definition serial_dev_demo : Serial := mkSerial (fst serial_demo) ring_demo.

Lemma recv_fifo_refines_witness :
  wp (recv_fifo_run [FPut 97; FPut 98; FGet; FGet; FGet])
     (fun rs x => rs = queue_run (fifo_contents (recv_fifo (fst serial_demo)))
                                 [FPut 97; FPut 98; FGet; FGet; FGet] /\
                  fifo_wf (recv_fifo (fst x)) /\ fifo_sync (recv_fifo (fst x)))
     (fst serial_demo, snd serial_demo).
Proof.
  apply recv_fifo_refines; [|apply serial_demo_wf..].
  repeat (apply List.Forall_cons; [first [exact I | by split]|]). apply List.Forall_nil.
Defined.

Lemma serial_safe_witness :
  wp (on_port serial_pre_init;;
      for_each [SerOut 0x3fb 1 0x83; SerOut 0x3f8 1 1; SerOut 0x3fb 1 3; SerOut 0x3fa 1 0x81;
                SerOut 0x3f8 1 65; SerPush [97; 98]; SerChars; SerIn 0x3f8 1; SerIn 0x3fd 2;
                SerTimer 0x1e0] serial_exec)
     (fun _ x =>
        ser_wf (serialstate (fst x)) /\ ring_wf (serial_getchar_buf (fst x)) /\ line_ok (serialstate (fst x), snd x) /\
        wp (for_each (replicate 20 (SerOut 0x3f8 1 66)) serial_exec) (fun _ x' =>
          (length (sent (w_log (snd x'))) <= length (sent (w_log (snd x))) + 16)%nat) x)
     (mkSerial serialstate_bss ring_demo, world0).
Proof. apply serial_safe; [apply ring_demo_wf|reflexivity|by repeat constructor]. Defined.

Lemma serial_irq_prompt_witness :
  wp (serial_exec (SerOut 0x3f9 1 0x0f))
     (fun _ x => fresh (serialstate (fst x)) /\ line_ok (serialstate (fst x), snd x))
     (serial_dev_demo, snd serial_demo).
Proof.
  apply serial_irq_prompt; [apply serial_demo_wf|apply ring_demo_wf| | |].
  - exact serial_demo_line.
  - vm_compute. reflexivity.
  - left. vm_compute. reflexivity.
Defined.


Lemma serial_tx_conserves_witness :
  wp (tx_exec (TxWrite 65)) (fun _ x =>
       sent (w_log (snd x)) ++ unsent (fst x)
         = sent (w_log (snd serial_demo)) ++ unsent (fst serial_demo) ++ tx_written (TxWrite 65) /\
       Z.of_nat (length (sent (w_log (snd x)))) - chars_sent (fst x) =
         Z.of_nat (length (sent (w_log (snd serial_demo)))) - chars_sent (fst serial_demo) /\
       ser_wf (fst x) /\ line_ok x /\ tx_mode (fst x))
     (fst serial_demo, snd serial_demo).
Proof.
  apply (serial_tx_conserves (TxWrite 65)); [apply serial_demo_wf| | |].
  - exact serial_demo_line.
  - split_and!; vm_compute; reflexivity.
  - vm_compute. reflexivity.
Defined.

(** ** Behaviour at the limits *)

Lemma ser_wf_lsr_fcr s l : ser_wf s -> inw 8 l -> ser_wf (s <| lsr := l |> <| fcr := 0 |> <| ier := 0 |>).
Proof. intros [] Hl. split; cbn; first [assumption | by split | done]. Qed.

(** Enabling the receive interrupt while data is waiting and the transmitter
    is busy leaves the interrupt unreported. *)
Lemma serial_ier_stale :
  exists s, ser_wf s /\ fresh s /\
    match serial_ioport_write 0x3f9 UART_IER_RDI (s, world0) with
    | Ok (_, (s', _)) => pending_iir s' = UART_IIR_RDI /\ iir s' .& 0x0f = UART_IIR_NO_INT
    | Fault _ => False
    end.
Proof.
  exists ((fst serial_demo) <| lsr := UART_LSR_DR |> <| fcr := 0 |> <| ier := 0 |>). split_and!.
  - apply ser_wf_lsr_fcr; [apply serial_demo_wf|by split].
  - vm_compute. reflexivity.
  - vm_compute. split; reflexivity.
Qed.

(** Seventeen characters put into the transmit FIFO, seventeen taken out: the
    overrun leaves head and tail out of step. *)
Lemma serial_xmit_overrun :
  match (for_each (map (fun c => 65 + c) (zrange 17)) (fifo_put XMIT_FIFO);;
         c ← fifo_get XMIT_FIFO;
         for_each (zrange 15) (fun _ => fifo_get XMIT_FIFO;; mret tt);;
         fifo_put XMIT_FIFO 97;;
         d ← fifo_get XMIT_FIFO; mret (c, d)) serial_demo with
  | Ok ((c, d), _) => c = 65 + 16 /\ d <> 97
  | Fault _ => False
  end.
Proof. vm_compute. split; [reflexivity|discriminate]. Qed.

(** Clearing the transmit FIFO does not cancel the transmit timer: its next
    interrupt sends a NUL the guest never wrote. *)
Lemma serial_clear_sends_nul :
  match (for_each (zrange 24) (fun _ => serial_ioport_write 0x3f8 65);;
         tx_exec TxTimer;;
         serial_ioport_write 0x3fa 0x85;;
         tx_exec TxTimer) serial_demo with
  | Ok (_, (_, w)) => In 0 (sent (w_log w))
  | Fault _ => False
  end.
Proof. vm_compute. auto 30. Qed.
