(* ===== verification/Hpet.v ===== *)
(** * The HPET (components/Init/src/hpet.c)

    [HPETState] is the C struct with its three [HPETTimer]s; the timer's
    back-pointer to the state is the state itself, and a routine on a timer
    takes its index.  [seL4_Word] is 64 bits wide (the configuration with an
    HPET the code's format strings are written for).  The catch-up loops of
    [hpet_timer] take a fuel argument: the theorems show when some fuel is
    enough, and when none is.  The theorems: the one-shot delay is never zero
    and is the distance to the comparator when that lies ahead; the periodic
    timer catches up with the counter and terminates; a guest can make it not
    terminate; register accesses are safe exactly off the fourth timer's
    window; the write masks; and what enabling does to the main counter. *)

From S2P Require Import Prelude.

(** hpet.h *)
Definition HPET_BASE : Z := 0xfed00000.
Definition HPET_LEN : Z := 0x500.
Definition HPET_CLK_PERIOD : Z := 10.
Definition FS_PER_NS : Z := 1000000.
Definition HPET_MIN_TIMERS : Z := 3.
Definition HPET_MAX_TIMERS : Z := 3.
Definition HPET_LEGACY_PIT_INT : Z := 0.
Definition HPET_CFG_ENABLE : Z := 0x001.
Definition HPET_CFG_LEGACY : Z := 0x002.
Definition HPET_ID : Z := 0x000.
Definition HPET_PERIOD : Z := 0x004.
Definition HPET_CFG : Z := 0x010.
Definition HPET_STATUS : Z := 0x020.
Definition HPET_COUNTER : Z := 0x0f0.
Definition HPET_TN_CFG : Z := 0x000.
Definition HPET_TN_CMP : Z := 0x008.
Definition HPET_TN_ROUTE : Z := 0x010.
Definition HPET_CFG_WRITE_MASK : Z := 0x3.
Definition HPET_ID_NUM_TIM_SHIFT : Z := 8.
Definition HPET_ID_NUM_TIM_MASK : Z := 0x1f00.
Definition HPET_TN_TYPE_LEVEL : Z := 0x002.
Definition HPET_TN_ENABLE : Z := 0x004.
Definition HPET_TN_PERIODIC : Z := 0x008.
Definition HPET_TN_PERIODIC_CAP : Z := 0x010.
Definition HPET_TN_SIZE_CAP : Z := 0x020.
Definition HPET_TN_SETVAL : Z := 0x040.
Definition HPET_TN_32BIT : Z := 0x100.
Definition HPET_TN_INT_ROUTE_MASK : Z := 0x3e00.
Definition HPET_TN_FSB_ENABLE : Z := 0x4000.
Definition HPET_TN_FSB_CAP : Z := 0x8000.
Definition HPET_TN_CFG_WRITE_MASK : Z := 0x7f4e.
Definition HPET_TN_INT_ROUTE_SHIFT : Z := 9.
Definition HPET_MSI_SUPPORT : Z := 0.
Definition RTC_ISA_IRQ : Z := 8.
(** timers.h *)
Definition TIMER_HPET0 : Z := 9.

Record HPETTimer := mkHPETTimer {
  tn : Z;               (* uint8_t, timer number *)
  t_config : Z;         (* uint64_t config: configuration/cap *)
  cmp : Z;              (* uint64_t, comparator *)
  fsb : Z;              (* uint64_t, FSB route *)
  period : Z;           (* uint64_t, last value written to comparator *)
  wrap_flag : Z;        (* uint8_t *)
  tid : Z               (* int *) }.
#[export] Instance eta_HPETTimer : Eta HPETTimer := fun t =>
  mkHPETTimer (tn t) (t_config t) (cmp t) (fsb t) (period t) (wrap_flag t) (tid t).

Record HPETState := mkHPETState {
  hpet_offset : Z;      (* uint64_t *)
  hpet_offset_saved : bool;
  flags : Z;            (* uint32_t *)
  rtc_irq_level : Z;    (* uint8_t *)
  num_timers : Z;       (* uint8_t *)
  intcap : Z;           (* uint32_t *)
  timer : list HPETTimer;
  capability : Z; config : Z; isr : Z; hpet_counter : Z;     (* uint64_t *)
  hpet_id : Z;          (* uint8_t *)
  tsc_frequency : Z     (* static uint64_t of the file *) }.
#[export] Instance eta_HPETState : Eta HPETState := fun s =>
  mkHPETState (hpet_offset s) (hpet_offset_saved s) (flags s) (rtc_irq_level s) (num_timers s) (intcap s)
    (timer s) (capability s) (config s) (isr s) (hpet_counter s) (hpet_id s) (tsc_frequency s).

Definition timer_bss : HPETTimer := mkHPETTimer 0 0 0 0 0 0 0.
Definition hpet_state_bss : HPETState :=
  mkHPETState 0 false 0 0 0 0 [timer_bss; timer_bss; timer_bss] 0 0 0 0 0 0.

Definition hpet_in_legacy_mode (s : HPETState) : bool := tst (config s) HPET_CFG_LEGACY.
Definition timer_int_route (t : HPETTimer) : Z :=
  u32 ((t_config t .& HPET_TN_INT_ROUTE_MASK) .>> HPET_TN_INT_ROUTE_SHIFT).
Definition timer_fsb_route (t : HPETTimer) : bool := tst (t_config t) HPET_TN_FSB_ENABLE.
Definition hpet_enabled (s : HPETState) : bool := tst (config s) HPET_CFG_ENABLE.
Definition timer_is_periodic (t : HPETTimer) : bool := tst (t_config t) HPET_TN_PERIODIC.
Definition timer_enabled (t : HPETTimer) : bool := tst (t_config t) HPET_TN_ENABLE.

Definition hpet_time_after (a b : Z) : bool := s32 (u64 (b - a)) <? 0.
Definition hpet_time_after64 (a b : Z) : bool := s64 (u64 (b - a)) <? 0.
Definition ticks_to_ns (value : Z) : Z := u64 (value * HPET_CLK_PERIOD).
Definition ns_to_ticks (value : Z) : Z := value / HPET_CLK_PERIOD.
Definition hpet_fixup_reg (new old mask : Z) : Z := (new .& mask) .| (old .& .~ mask).
Definition activating_bit (old new mask : Z) : bool := negb (tst old mask) && tst new mask.
Definition deactivating_bit (old new mask : Z) : bool := tst old mask && negb (tst new mask).

(** calculate diff between comparator value and current ticks *)
Definition hpet_calculate_diff (t : HPETTimer) (current : Z) : Z :=
  if tst (t_config t) HPET_TN_32BIT then
    let diff := u32 (u32 (cmp t) - u32 current) in
    if 0 <? s32 diff then diff else 1
  else
    let diff := u64 (cmp t - current) in
    if 0 <? s64 diff then diff else 1.

Section HPET.
Context {U : Utils}.

(** The file's [current_time_ns], on its own tsc_frequency. *)
Definition hpet_time_ns : Dev HPETState Z :=
  s ← getd; current_time_ns (tsc_frequency s).

Definition hpet_get_ticks : Dev HPETState Z :=
  now ← hpet_time_ns;
  s ← getd;
  mret (ns_to_ticks (u64 (now + hpet_offset s))).

(** [t->f] and [t->f = v], through the timer's index. *)
Definition get_timer (i : Z) : Dev HPETState HPETTimer :=
  s ← getd; lift (idx (timer s) i).
Definition mod_timer (i : Z) (f : HPETTimer -> HPETTimer) : Dev HPETState unit :=
  s ← getd;
  t ← lift (idx (timer s) i);
  ts ← lift (idx_set (timer s) i (f t));
  modd (fun s => s <| timer := ts |>).

Definition timer_oneshot_callback (tid ns : Z) : Dev HPETState unit :=
  emit (TimerOneshotRel tid ns).

Definition update_irq (i : Z) (set : bool) : Dev HPETState unit :=
  t ← get_timer i;
  s ← getd;
  let route := if (tn t <=? 1) && hpet_in_legacy_mode s
               then (if tn t =? 0 then 0 else RTC_ISA_IRQ)
               else s32 (timer_int_route t) in
  let mask := 1 .<< tn t in
  if negb set || negb (timer_enabled t) || negb (hpet_enabled s) then
    modd (fun s => s <| isr := isr s .& .~ mask |>);;
    when (negb (timer_fsb_route t)) (emit (SetIrqLevel route 0))
  else if timer_fsb_route t then mret tt
  else if tst (t_config t) HPET_TN_TYPE_LEVEL then
    modd (fun s => s <| isr := isr s .| mask |>);;
    emit (SetIrqLevel route 1)
  else
    modd (fun s => s <| isr := isr s .& .~ mask |>);;
    emit (SetIrqLevel route 1);;
    emit (SetIrqLevel route 0).

(** while (after(cmp)) cmp = next(cmp); *)
Fixpoint catch_up (after : Z -> bool) (next : Z -> Z) (fuel : nat) (cmp : Z) : outcome Z :=
  match fuel with
  | O => Fault OutOfFuel
  | S fuel => if after cmp then catch_up after next fuel (next cmp) else Ok cmp
  end.

(** while (hpet_time_after(cur_tick, t->cmp)) t->cmp = (uint32_t)(t->cmp + t->period); *)
Definition catch_up32 (fuel : nat) (cur_tick period : Z) : Z -> outcome Z :=
  catch_up (hpet_time_after cur_tick) (fun cmp => u32 (u64 (cmp + period))) fuel.
(** while (hpet_time_after64(cur_tick, t->cmp)) t->cmp += period; *)
Definition catch_up64 (fuel : nat) (cur_tick period : Z) : Z -> outcome Z :=
  catch_up (hpet_time_after64 cur_tick) (fun cmp => u64 (cmp + period)) fuel.

(** timer expiration callback *)
Definition hpet_timer (fuel : nat) (i : Z) : Dev HPETState unit :=
  t ← get_timer i;
  cur_tick ← hpet_get_ticks;
  (if timer_is_periodic t && negb (period t =? 0) then
     c ← lift (if tst (t_config t) HPET_TN_32BIT
               then catch_up32 fuel cur_tick (period t) (cmp t)
               else catch_up64 fuel cur_tick (period t) (cmp t));
     mod_timer i (fun t => t <| cmp := c |>);;
     t ← get_timer i;
     let diff := hpet_calculate_diff t cur_tick in
     timer_oneshot_callback (tid t) (ticks_to_ns diff)
   else
     when (tst (t_config t) HPET_TN_32BIT && negb (timer_is_periodic t))
       (when (negb (wrap_flag t =? 0))
          (let diff := hpet_calculate_diff t cur_tick in
           timer_oneshot_callback (tid t) (ticks_to_ns diff);;
           mod_timer i (fun t => t <| wrap_flag := 0 |>))));;
  update_irq i true.

Definition hpet_set_timer (i : Z) : Dev HPETState unit :=
  cur_tick ← hpet_get_ticks;
  (* whenever new timer is being set up, make sure wrap_flag is 0 *)
  mod_timer i (fun t => t <| wrap_flag := 0 |>);;
  t ← get_timer i;
  let diff := hpet_calculate_diff t cur_tick in
  (* one-shot 32-bit mode: generate an interrupt when the counter wraps *)
  let wrap_diff := u32 (0xffffffff - u32 cur_tick) in
  (if (tst (t_config t) HPET_TN_32BIT && negb (timer_is_periodic t))
      && (wrap_diff <? u32 diff) then
     mod_timer i (fun t => t <| wrap_flag := 1 |>);;
     timer_oneshot_callback (tid t) (ticks_to_ns wrap_diff)
   else timer_oneshot_callback (tid t) (ticks_to_ns diff)).

Definition hpet_del_timer (i : Z) : Dev HPETState unit :=
  t ← get_timer i;
  emit (TimerStop (tid t));;
  update_irq i false.

Definition hpet_pre_save : Dev HPETState Z :=
  (* save current counter value *)
  s ← getd;
  when (hpet_enabled s) (c ← hpet_get_ticks; modd (fun s => s <| hpet_counter := c |>));;
  mret 0.

Definition hpet_pre_load : Dev HPETState Z :=
  modd (fun s => s <| num_timers := HPET_MIN_TIMERS |>);; mret 0.

Definition hpet_validate_num_timers (s : HPETState) : bool :=
  if num_timers s <? HPET_MIN_TIMERS then false
  else if HPET_MAX_TIMERS <? num_timers s then false else true.

(** The offset between the main counter and guest time *)
Definition counter_offset (ticks cur : Z) : Z := if ticks <? cur then 0 else u64 (ticks - cur).

Definition hpet_post_load : Dev HPETState Z :=
  s ← getd;
  when (negb (hpet_offset_saved s))
    (cur ← hpet_time_ns;
     modd (fun s => s <| hpet_offset := counter_offset (ticks_to_ns (hpet_counter s)) cur |>));;
  (* Push number of timers into capability returned via HPET_ID *)
  modd (fun s => s <| capability := capability s .& .~ HPET_ID_NUM_TIM_MASK |>);;
  modd (fun s => s <| capability := capability s
                        .| u64 ((num_timers s - 1) .<< HPET_ID_NUM_TIM_SHIFT) |>);;
  (* Derive HPET_MSI_SUPPORT from the capability of the first timer. *)
  modd (fun s => s <| flags := flags s .& .~ (1 .<< HPET_MSI_SUPPORT) |>);;
  t ← get_timer 0;
  when (tst (t_config t) HPET_TN_FSB_CAP)
    (modd (fun s => s <| flags := flags s .| (1 .<< HPET_MSI_SUPPORT) |>));;
  mret 0.

Definition hpet_offset_needed (s : HPETState) : bool := hpet_enabled s && hpet_offset_saved s.
Definition hpet_rtc_irq_level_needed (s : HPETState) : bool := negb (rtc_irq_level s =? 0).

(** The timer and register an offset selects. *)
Definition timer_id (offset : Z) : Z := u8 ((HPET_BASE + offset - 0x100) / 0x20).
Definition timer_reg (offset : Z) : Z := (HPET_BASE + offset - 0x100) mod 0x20.
Definition in_timers (offset : Z) : bool := (0x100 <=? offset) && (offset <=? 0x3ff).

Definition hpet_read_timer (t : HPETTimer) (reg : Z) : Z :=
  if reg =? HPET_TN_CFG then t_config t
  else if reg =? HPET_TN_CFG + 4 then t_config t .>> 32
  else if reg =? HPET_TN_CMP then cmp t
  else if reg =? HPET_TN_CMP + 4 then cmp t .>> 32
  else if reg =? HPET_TN_ROUTE then fsb t
  else if reg =? HPET_TN_ROUTE + 4 then fsb t .>> 32
  else 0.

(** The main counter, running or halted. *)
Definition hpet_read_counter : Dev HPETState Z :=
  s ← getd;
  if hpet_enabled s then hpet_get_ticks else mret (hpet_counter s).

Definition vm_hpet_mmio_read (offset : Z) : Dev HPETState Z :=
  s ← getd;
  if in_timers offset then
    if num_timers s <? timer_id offset then mret 0
    else
      t ← get_timer (timer_id offset);
      mret (hpet_read_timer t (timer_reg offset))
  else if offset =? HPET_ID then mret (capability s)
  else if offset =? HPET_PERIOD then mret (capability s .>> 32)
  else if offset =? HPET_CFG then mret (config s)
  else if offset =? HPET_CFG + 4 then mret 0
  else if offset =? HPET_COUNTER then hpet_read_counter
  else if offset =? HPET_COUNTER + 4 then c ← hpet_read_counter; mret (c .>> 32)
  else if offset =? HPET_STATUS then mret (isr s)
  else mret 0.

Definition HI32 : Z := 0xffffffff00000000.
Definition LO32 : Z := 0xffffffff.

(** Clamp period to reasonable max value *)
Definition period_clamp (t : HPETTimer) (v : Z) : Z :=
  v .& ((if tst (t_config t) HPET_TN_32BIT then 2 ^ 32 - 1 else 2 ^ 64 - 1) .>> 1).

(** vm_hpet_mmio_write, the timer's registers *)
Definition hpet_write_cfg (i old_val new_val : Z) : Dev HPETState unit :=
  when (activating_bit old_val new_val HPET_TN_FSB_ENABLE) (update_irq i false);;
  let val := hpet_fixup_reg new_val old_val HPET_TN_CFG_WRITE_MASK in
  mod_timer i (fun t => t <| t_config := (t_config t .& HI32) .| val |>);;
  when (tst new_val HPET_TN_32BIT)
    (mod_timer i (fun t => t <| cmp := u32 (cmp t) |> <| period := u32 (period t) |>));;
  s ← getd;
  (if activating_bit old_val new_val HPET_TN_ENABLE && hpet_enabled s then hpet_set_timer i
   else when (deactivating_bit old_val new_val HPET_TN_ENABLE) (hpet_del_timer i)).

Definition hpet_write_cmp (i new_val : Z) : Dev HPETState unit :=
  t ← get_timer i;
  let new_val := if tst (t_config t) HPET_TN_32BIT then u32 new_val else new_val in
  when (negb (timer_is_periodic t) || tst (t_config t) HPET_TN_SETVAL)
    (mod_timer i (fun t => t <| cmp := (cmp t .& HI32) .| new_val |>));;
  when (timer_is_periodic t)
    (mod_timer i (fun t => t <| period := (period t .& HI32) .| period_clamp t new_val |>));;
  mod_timer i (fun t => t <| t_config := t_config t .& .~ HPET_TN_SETVAL |>);;
  s ← getd;
  when (hpet_enabled s) (hpet_set_timer i).

Definition hpet_write_cmp_high (i new_val : Z) : Dev HPETState unit :=
  t ← get_timer i;
  (if negb (timer_is_periodic t) || tst (t_config t) HPET_TN_SETVAL then
     mod_timer i (fun t => t <| cmp := (cmp t .& LO32) .| u64 (new_val .<< 32) |>)
   else
     mod_timer i (fun t => t <| period := (period t .& LO32)
                                         .| u64 (period_clamp t new_val .<< 32) |>));;
  mod_timer i (fun t => t <| t_config := t_config t .& .~ HPET_TN_SETVAL |>);;
  s ← getd;
  when (hpet_enabled s) (hpet_set_timer i).

Definition hpet_write_timer (i reg old_val new_val : Z) : Dev HPETState unit :=
  if reg =? HPET_TN_CFG then hpet_write_cfg i old_val new_val
  else if reg =? HPET_TN_CFG + 4 then mret tt
  else if reg =? HPET_TN_CMP then hpet_write_cmp i new_val
  else if reg =? HPET_TN_CMP + 4 then hpet_write_cmp_high i new_val
  else if reg =? HPET_TN_ROUTE then
    mod_timer i (fun t => t <| fsb := (fsb t .& HI32) .| new_val |>)
  else if reg =? HPET_TN_ROUTE + 4 then
    mod_timer i (fun t => t <| fsb := u64 (new_val .<< 32) .| (fsb t .& LO32) |>)
  else mret tt.

(** for (i = 0; i < s->num_timers; i++) *)
Definition each_timer (body : Z -> Dev HPETState unit) : Dev HPETState unit :=
  s ← getd; for_each (zrange (Z.to_nat (num_timers s))) body.

(** vm_hpet_mmio_write, the general configuration register *)
Definition hpet_start_counter : Dev HPETState unit :=
  s ← getd;
  let ticks := ticks_to_ns (hpet_counter s) in
  cur ← hpet_time_ns;
  modd (fun s => s <| hpet_offset := counter_offset ticks cur |>).

Definition hpet_enable_counter : Dev HPETState unit :=
  (* Enable main counter and interrupt generation. *)
  hpet_start_counter;;
  each_timer (fun i =>
    t ← get_timer i;
    when (negb (cmp t =? 2 ^ 64 - 1)) (hpet_set_timer i)).

Definition hpet_write_config (old_val new_val : Z) : Dev HPETState unit :=
  let val := hpet_fixup_reg new_val old_val HPET_CFG_WRITE_MASK in
  modd (fun s => s <| config := (config s .& HI32) .| val |>);;
  (if activating_bit old_val new_val HPET_CFG_ENABLE then hpet_enable_counter
   else when (deactivating_bit old_val new_val HPET_CFG_ENABLE)
     (* Halt main counter and disable interrupt generation. *)
     (c ← hpet_get_ticks;
      modd (fun s => s <| hpet_counter := c |>);;
      each_timer hpet_del_timer));;
  (* i8254 and RTC output pins are disabled when HPET is in legacy mode *)
  (if activating_bit old_val new_val HPET_CFG_LEGACY then
     emit (SetIrqLevel 0 0);;
     emit (SetIrqLevel RTC_ISA_IRQ 0)
   else when (deactivating_bit old_val new_val HPET_CFG_LEGACY)
     (emit (SetIrqLevel 0 0);;
      s ← getd;
      emit (SetIrqLevel RTC_ISA_IRQ (rtc_irq_level s)))).

Definition vm_hpet_mmio_write (offset value : Z) : Dev HPETState unit :=
  old_val ← vm_hpet_mmio_read offset;
  let new_val := value in
  s ← getd;
  if in_timers offset then
    if num_timers s <? timer_id offset then mret tt
    else hpet_write_timer (timer_id offset) (timer_reg offset) old_val new_val
  else if offset =? HPET_ID then mret tt
  else if offset =? HPET_CFG then hpet_write_config old_val new_val
  else if offset =? HPET_CFG + 4 then mret tt
  else if offset =? HPET_STATUS then
    let val := new_val .& isr s in
    each_timer (fun i => when (tst val (1 .<< i)) (update_irq i false))
  else if offset =? HPET_COUNTER then
    modd (fun s => s <| hpet_counter := (hpet_counter s .& HI32) .| value |>)
  else if offset =? HPET_COUNTER + 4 then
    modd (fun s => s <| hpet_counter := (hpet_counter s .& LO32) .| u64 (value .<< 32) |>)
  else mret tt.

Definition hpet_reset : Dev HPETState unit :=
  each_timer (fun i =>
    hpet_del_timer i;;
    s ← getd;
    mod_timer i (fun t => t <| cmp := 2 ^ 64 - 1 |>
      <| t_config := HPET_TN_PERIODIC_CAP .| HPET_TN_SIZE_CAP |>);;
    when (tst (flags s) (1 .<< HPET_MSI_SUPPORT))
      (mod_timer i (fun t => t <| t_config := t_config t .| HPET_TN_FSB_CAP |>));;
    (* advertise availability of ioapic int *)
    mod_timer i (fun t => t <| t_config := t_config t .| (intcap s .<< 32) |>
      <| period := 0 |> <| wrap_flag := 0 |>));;
  modd (fun s => s <| hpet_counter := 0 |> <| hpet_offset := 0 |> <| config := 0 |>
    (* to document that the RTC lowers its output on reset as well *)
    <| rtc_irq_level := 0 |>).

Definition hpet_handle_legacy_irq (n level : Z) : Dev HPETState unit :=
  s ← getd;
  if n =? HPET_LEGACY_PIT_INT then
    when (negb (hpet_in_legacy_mode s)) (emit (SetIrqLevel 0 level))
  else
    modd (fun s => s <| rtc_irq_level := u8 level |>);;
    when (negb (hpet_in_legacy_mode s)) (emit (SetIrqLevel RTC_ISA_IRQ level)).

Definition hpet_realize (HPET_ID_BASE : Z) : Dev HPETState unit :=
  modd (fun s => s <| hpet_id := 0 |>);;
  for_each (zrange (Z.to_nat HPET_MAX_TIMERS)) (fun i =>
    mod_timer i (fun t => t <| tid := s32 (HPET_ID_BASE + i) |> <| tn := i |>));;
  modd (fun s => s <| num_timers := HPET_MIN_TIMERS |>);;
  (* 64-bit main counter; LegacyReplacementRoute. *)
  modd (fun s => s <| capability :=
    (0x8086a001 .| ((num_timers s - 1) .<< HPET_ID_NUM_TIM_SHIFT))
      .| u64 ((HPET_CLK_PERIOD * FS_PER_NS) .<< 32) |>).

Definition hpet_timer_interrupt (fuel : nat) (completed : Z) : Dev HPETState unit :=
  for_each (zrange (Z.to_nat HPET_MAX_TIMERS)) (fun i =>
    t ← get_timer i;
    when (tst completed (BIT (tid t))) (hpet_timer fuel i)).

Definition hpet_pre_init (initial_tsc_frequency hpet_id_base : Z) : Dev HPETState unit :=
  modd (fun s => s <| tsc_frequency := initial_tsc_frequency |>);;
  hpet_realize hpet_id_base;;
  hpet_reset.

(** hpet_fault_callback, on the data of the faulting access. *)
Inductive hpet_access := HpetRead | HpetWrite (data : Z).
Definition hpet_fault_callback (fault_addr : Z) (a : hpet_access) : Dev HPETState (option Z) :=
  match a with
  | HpetRead => v ← vm_hpet_mmio_read (u32 (fault_addr - HPET_BASE)); mret (Some v)
  | HpetWrite d => vm_hpet_mmio_write (u32 (fault_addr - HPET_BASE)) d;; mret None
  end.

(** * Proofs *)

Record timer_ok (t : HPETTimer) : Prop := {
  to_tn : 0 <= tn t <= 2;
  to_config : inw 64 (t_config t);
  to_cmp : inw 64 (cmp t);
  to_fsb : inw 64 (fsb t);
  to_period : inw 64 (period t) }.

Record hpet_wf (s : HPETState) : Prop := {
  hw_three : length (timer s) = 3%nat;
  hw_timers : Forall timer_ok (timer s);
  hw_num : num_timers s = 3;
  hw_config : inw 64 (config s);
  hw_isr : inw 64 (isr s);
  hw_cap : inw 64 (capability s);
  hw_counter : inw 64 (hpet_counter s) }.

(** ** Signed distances *)

Lemma signed_cong w a b : wrap w a = wrap w b -> signed w a = signed w b.
Proof. unfold signed. by intros ->. Qed.

(** Adding to a wrapped signed value, while the sum stays in range. *)
Lemma signed_add w x p :
  0 < w -> - 2 ^ (w - 1) <= signed w x + p < 2 ^ (w - 1) -> signed w (x + p) = signed w x + p.
Proof.
  intros Hw Hr. rewrite <-(signed_small w (signed w x + p)) by done. apply signed_cong.
  unfold wrap. rewrite <-(Zplus_mod_idemp_l x), <-(Zplus_mod_idemp_l (signed w x)).
  f_equal. f_equal. symmetry. by apply wrap_signed.
Qed.

Lemma dist64_step cur p c :
  0 < p mod 2 ^ 64 < 2 ^ 63 -> s64 (u64 (c - cur)) < 0 ->
  s64 (u64 (u64 (c + p) - cur)) = s64 (u64 (c - cur)) + p mod 2 ^ 64.
Proof.
  intros Hp Hd. unfold s64 in *. rewrite <-signed_add.
  - apply signed_cong. unfold u64, wrap.
    change (2 ^ 64) with 18446744073709551616. clear.
    Z.to_euclidean_division_equations. lia.
  - lia.
  - pose proof (signed_range 64 (u64 (c - cur)) ltac:(lia)). lia.
Qed.

Lemma dist32_step cur p c :
  0 < p mod 2 ^ 32 < 2 ^ 31 -> s32 (u64 (c - cur)) < 0 ->
  s32 (u64 (u32 (u64 (c + p)) - cur)) = s32 (u64 (c - cur)) + p mod 2 ^ 32.
Proof.
  intros Hp Hd. unfold s32 in *. rewrite <-signed_add.
  - apply signed_cong. unfold u32, u64, wrap.
    change (2 ^ 64) with 18446744073709551616. change (2 ^ 32) with 4294967296. clear.
    Z.to_euclidean_division_equations. lia.
  - lia.
  - pose proof (signed_range 32 (u64 (c - cur)) ltac:(lia)). lia.
Qed.

(** ** The catch-up loop *)

Section CatchUp.
Variables (after : Z -> bool) (next : Z -> Z) (dist : Z -> Z) (p : Z).
Hypothesis Hafter : forall c, after c = (dist c <? 0).
Hypothesis Hp : 0 < p.
Hypothesis Hnext : forall c, dist c < 0 -> dist (next c) = dist c + p.

(** How many periods the comparator is behind. *)
Definition behind (c : Z) : Z := if dist c <? 0 then (- dist c + p - 1) / p else 0.

Lemma catch_up_ok fuel c :
  behind c < Z.of_nat fuel ->
  catch_up after next fuel c = Ok (Nat.iter (Z.to_nat (behind c)) next c) /\
  dist (Nat.iter (Z.to_nat (behind c)) next c) = dist c + behind c * p /\
  0 <= dist c + behind c * p /\ (dist c < 0 -> dist c + behind c * p < p).
Proof using Hafter Hp Hnext.
  revert c. induction fuel as [|fuel IH]; intros c Hf.
  { unfold behind in Hf. destruct (Z.ltb_spec (dist c) 0); [|lia].
    assert (0 <= (- dist c + p - 1) / p) by (apply Z.div_pos; lia). lia. }
  cbn [catch_up]. rewrite Hafter. unfold behind in *.
  destruct (Z.ltb_spec (dist c) 0) as [Hd|Hd];
    [|change (Nat.iter (Z.to_nat 0) next c) with c; split_and!; [done|lia..]].
  specialize (Hnext c Hd). specialize (IH (next c)). rewrite Hnext in IH.
  assert ((if dist c + p <? 0 then (- (dist c + p) + p - 1) / p else 0)
          = (- dist c + p - 1) / p - 1) as Eb.
  { replace (- dist c + p - 1) with (- (dist c + p) + p - 1 + 1 * p) by lia.
    rewrite Z.div_add by lia. destruct (Z.ltb_spec (dist c + p) 0); [lia|].
    rewrite Z.div_small by lia. lia. }
  rewrite Eb in IH. set (k := (- dist c + p - 1) / p) in *.
  assert (0 < k) as Hk.
  { unfold k. apply Z.div_str_pos. lia. }
  destruct IH as (E1 & E2 & E3 & E4); [lia|].
  assert (Z.to_nat k = S (Z.to_nat (k - 1))) as Es by lia.
  rewrite Es, Nat.iter_succ_r. rewrite E1, E2.
  split_and!; [done|lia|lia|].
  intros _. assert (- dist c + p - 1 - p < p * k <= - dist c + p - 1) as Hk'; [|lia].
  unfold k. pose proof (Z.div_mod (- dist c + p - 1) p ltac:(lia)).
  pose proof (Z.mod_pos_bound (- dist c + p - 1) p Hp). lia.
Qed.
End CatchUp.

(** A step of nothing never catches up. *)
Lemma catch_up_hang after next (dist : Z -> Z) c :
  (forall c, after c = (dist c <? 0)) -> (forall c, dist (next c) = dist c) -> dist c < 0 ->
  forall fuel, catch_up after next fuel c = Fault OutOfFuel.
Proof.
  intros Ha Hn Hd fuel. revert c Hd. induction fuel as [|fuel IH]; intros c Hd; [done|].
  cbn [catch_up]. rewrite Ha, (proj2 (Z.ltb_lt _ _) Hd). apply IH. by rewrite Hn.
Qed.

Lemma dist32_same cur p c :
  p mod 2 ^ 32 = 0 -> s32 (u64 (u32 (u64 (c + p)) - cur)) = s32 (u64 (c - cur)).
Proof.
  intros Hp. apply signed_cong. unfold u32, u64, wrap in *. revert Hp.
  change (2 ^ 64) with 18446744073709551616. change (2 ^ 32) with 4294967296.
  Z.to_euclidean_division_equations. lia.
Qed.

(** ** The timer's view, at its width *)

Definition mode32 (t : HPETTimer) : bool := tst (t_config t) HPET_TN_32BIT.
Definition width_of (t : HPETTimer) : Z := if mode32 t then 32 else 64.
(** How far the comparator lies ahead of the counter (negative: behind). *)
Definition ahead (t : HPETTimer) (cur : Z) : Z := signed (width_of t) (u64 (cmp t - cur)).
(** The effective period. *)
Definition step_of (t : HPETTimer) : Z := wrap (width_of t) (period t).
(** The iterations the catch-up loop needs. *)
Definition catch_up_steps (t : HPETTimer) (cur : Z) : Z :=
  behind (fun c => ahead (t <| cmp := c |>) cur) (step_of t) (cmp t).

Lemma diff_max t cur : 0 <= ahead t cur -> hpet_calculate_diff t cur = Z.max 1 (ahead t cur).
Proof.
  unfold ahead, width_of, hpet_calculate_diff. fold (mode32 t). destruct (mode32 t); intros Hd.
  - assert (s32 (u32 (u32 (cmp t) - u32 cur)) = signed 32 (u64 (cmp t - cur))) as E.
    { apply signed_cong. unfold u32, u64, wrap. clear.
      change (2 ^ 64) with 18446744073709551616. change (2 ^ 32) with 4294967296.
      Z.to_euclidean_division_equations. lia. }
    rewrite E. destruct (Z.ltb_spec 0 (signed 32 (u64 (cmp t - cur)))) as [Hp|Hp]; [|lia].
    rewrite <-E in *. rewrite Z.max_r by lia.
    revert Hp. unfold s32, signed. unfold u32 at 1 3 6. rewrite !wrap_wrap by lia.
    destruct (_ <? _) eqn:Hlt; [done|]. intros Hp.
    pose proof (wrap_range 32 (u32 (cmp t) - u32 cur)). unfold inw in *. lia.
  - change (signed 64) with s64 in *.
    destruct (Z.ltb_spec 0 (s64 (u64 (cmp t - cur)))) as [Hp|Hp]; [|lia].
    rewrite Z.max_r by lia. revert Hp. unfold s64, signed, u64. rewrite !wrap_wrap by lia.
    destruct (_ <? _) eqn:Hlt; [done|]. intros Hp.
    pose proof (wrap_range 64 (cmp t - cur)). unfold inw in *. lia.
Qed.

(** The loop at either width. *)
Lemma catch_up_timer fuel t cur :
  0 < step_of t < 2 ^ (width_of t - 1) -> catch_up_steps t cur < Z.of_nat fuel ->
  exists c', (if mode32 t then catch_up32 fuel cur (period t) (cmp t)
              else catch_up64 fuel cur (period t) (cmp t)) = Ok c' /\
    ahead (t <| cmp := c' |>) cur = ahead t cur + catch_up_steps t cur * step_of t /\
    0 <= ahead (t <| cmp := c' |>) cur /\
    (ahead t cur < 0 -> ahead (t <| cmp := c' |>) cur < step_of t).
Proof.
  intros Hs Hf. unfold catch_up_steps in *.
  set (dist := fun c => ahead (t <| cmp := c |>) cur) in *.
  assert (ahead t cur = dist (cmp t)) as -> by (by destruct t).
  destruct (mode32 t) eqn:Em; unfold step_of, width_of in *; rewrite Em in *.
  - pose proof (catch_up_ok (hpet_time_after cur) (fun c => u32 (u64 (c + period t))) dist
      (wrap 32 (period t))) as H.
    assert (forall c, dist c = s32 (u64 (c - cur))) as Ed.
    { intros c. unfold dist, ahead, width_of. change (mode32 (t <| cmp := c |>)) with (mode32 t).
      by rewrite Em. }
    destruct (H ltac:(intros c; by rewrite Ed) ltac:(lia)) with (fuel := fuel) (c := cmp t)
      as (E1 & E2 & E3 & E4).
    + intros c Hc. rewrite !Ed in *. by apply dist32_step.
    + done.
    + eexists. split; [exact E1|]. fold (dist (Nat.iter (Z.to_nat (behind dist
        (wrap 32 (period t)) (cmp t))) (fun c => u32 (u64 (c + period t))) (cmp t))).
      rewrite E2. done.
  - pose proof (catch_up_ok (hpet_time_after64 cur) (fun c => u64 (c + period t)) dist
      (wrap 64 (period t))) as H.
    assert (forall c, dist c = s64 (u64 (c - cur))) as Ed.
    { intros c. unfold dist, ahead, width_of. change (mode32 (t <| cmp := c |>)) with (mode32 t).
      by rewrite Em. }
    destruct (H ltac:(intros c; by rewrite Ed) ltac:(lia)) with (fuel := fuel) (c := cmp t)
      as (E1 & E2 & E3 & E4).
    + intros c Hc. rewrite !Ed in *. by apply dist64_step.
    + done.
    + eexists. split; [exact E1|]. fold (dist (Nat.iter (Z.to_nat (behind dist
        (wrap 64 (period t)) (cmp t))) (fun c => u64 (c + period t)) (cmp t))).
      rewrite E2. done.
Qed.

(** ** Symbolic execution *)

Definition at_timer (s : HPETState) (i : Z) (t : HPETTimer) : Prop :=
  0 <= i /\ timer s !! Z.to_nat i = Some t.

(** What [hpet_get_ticks] reads. *)
Definition hpet_now (s : HPETState) (w : World) : Z :=
  ns_to_ticks (u64 (u64 (muldivu64 (u64 (w_tsc w (w_tsc_n w))) NS_IN_S (tsc_frequency s))
                    + hpet_offset s)).
Definition ticked (w : World) : World := w <| w_tsc_n := S (w_tsc_n w) |>.

Lemma wp_get_ticks s w (Q : Z -> HPETState * World -> Prop) :
  Q (hpet_now s w) (s, ticked w) -> wp hpet_get_ticks Q (s, w).
Proof. done. Qed.

Lemma wp_get_timer s w i t (Q : HPETTimer -> HPETState * World -> Prop) :
  at_timer s i t -> Q t (s, w) -> wp (get_timer i) Q (s, w).
Proof.
  intros [Hi Ht] HQ. unfold get_timer. do 2 wp_step. eapply wp_lift; [|done].
  unfold idx. destruct (Z.ltb_spec i 0); [lia|]. cbn [fst]. by rewrite Ht.
Qed.

Definition set_timer (i : Z) (t : HPETTimer) (s : HPETState) : HPETState :=
  s <| timer := <[Z.to_nat i := t]> (timer s) |>.

Lemma wp_mod_timer s w i t f (Q : unit -> HPETState * World -> Prop) :
  at_timer s i t -> Q tt (set_timer i (f t) s, w) -> wp (mod_timer i f) Q (s, w).
Proof.
  intros [Hi Ht] HQ. unfold mod_timer. do 2 wp_step. wp_step. eapply wp_lift.
  { unfold idx. destruct (Z.ltb_spec i 0); [lia|]. cbn [fst]. by rewrite Ht. }
  wp_step. eapply wp_lift; [|by apply wp_modd].
  unfold idx_set. cbn [fst]. apply lookup_lt_Some in Ht.
  destruct (Z.leb_spec 0 i), (Z.ltb_spec i (Z.of_nat (length (timer s)))); try lia. done.
Qed.

Lemma at_timer_set s i t t' : at_timer s i t -> at_timer (set_timer i t' s) i t'.
Proof.
  intros [Hi Ht]. split; [done|]. cbn. apply list_lookup_insert_eq. by eapply lookup_lt_Some.
Qed.

(** The interrupt line a timer drives. *)
Definition irq_route (s : HPETState) (t : HPETTimer) : Z :=
  if (tn t <=? 1) && hpet_in_legacy_mode s then (if tn t =? 0 then 0 else RTC_ISA_IRQ)
  else s32 (timer_int_route t).

(** [update_irq] changes only the status register, and only adds to the log. *)
Lemma update_irq_spec s w i t set :
  at_timer s i t -> 0 <= tn t <= 2 ->
  wp (update_irq i set) (fun _ x => exists v es,
        x = (s <| isr := v |>, logged es w) /\ (inw 64 (isr s) -> inw 64 v) /\
        (timer_fsb_route t = false -> set = true -> timer_enabled t = true ->
         hpet_enabled s = true -> In (SetIrqLevel (irq_route s t) 1) es)) (s, w).
Proof.
  intros Ht Htn. unfold update_irq. wp_step. eapply wp_get_timer; [exact Ht|].
  do 2 wp_step. cbv zeta. fold (irq_route s t).
  assert (inw 64 (1 .<< tn t)) as Hmask.
  { rewrite Z.shiftl_1_l. unfold inw. pose proof (Z.pow_le_mono_r 2 (tn t) 2). lia. }
  assert (forall a, inw 64 a -> inw 64 (a .& .~ (1 .<< tn t))) as Hand by (intros; width).
  wp_step.
  - assert (negb set || negb (timer_enabled t) || negb (hpet_enabled s) = true ->
      timer_fsb_route t = false -> set = true -> timer_enabled t = true ->
      hpet_enabled s = true -> forall es, In (SetIrqLevel (irq_route s t) 1) es) as Habs
      by (intros Hx _ -> E1 E2; by rewrite E1, E2 in Hx).
    wp_run; exists (isr s .& .~ (1 .<< tn t)).
    + exists [SetIrqLevel (irq_route s t) 0]. split_and!; [done|by apply Hand|auto].
    + exists []. rewrite logged_nil. split_and!; [done|by apply Hand|auto].
  - wp_run.
    + exists (isr s), []. rewrite logged_nil. split_and!; [by destruct s|done|congruence].
    + exists (isr s .| (1 .<< tn t)), [SetIrqLevel (irq_route s t) 1].
      split_and!; [done|intros; by apply inw_lor|cbn; auto].
    + exists (isr s .& .~ (1 .<< tn t)),
        ([SetIrqLevel (irq_route s t) 1] ++ [SetIrqLevel (irq_route s t) 0]).
      split_and!; [by rewrite <-logged_logged|by apply Hand|cbn; auto].
Qed.

(** ** The periodic timer *)

Lemma ahead_ext t t' cur :
  cmp t' = cmp t -> t_config t' = t_config t -> ahead t' cur = ahead t cur.
Proof. unfold ahead, width_of, mode32. by intros -> ->. Qed.

(** C28 -- A periodic timer that has fallen behind catches up: from an
    expiration at counter value [cur], with the period's effective value
    between 1 and half the counter's range, [catch_up_steps + 1] iterations are
    enough; the comparator advances by that many whole periods, the least
    number that brings it level with or ahead of the counter (so by less than
    one period past it), the timer is armed for exactly that distance, at least
    one tick, and an enabled timer raises its interrupt. *)
Theorem hpet_periodic_catches_up (fuel : nat) (i : Z) (t : HPETTimer)
    (s : HPETState) (w : World) :
  let cur := hpet_now s w in
  at_timer s i t -> timer_ok t -> timer_is_periodic t = true ->
  0 < step_of t < 2 ^ (width_of t - 1) -> catch_up_steps t cur < Z.of_nat fuel ->
  wp (hpet_timer fuel i) (fun _ x => exists t',
       at_timer (fst x) i t' /\ t' = t <| cmp := cmp t' |> /\
       ahead t' cur = ahead t cur + catch_up_steps t cur * step_of t /\
       0 <= ahead t' cur /\ (ahead t cur < 0 -> ahead t' cur < step_of t) /\
       In (TimerOneshotRel (tid t) (u64 (Z.max 1 (ahead t' cur) * 10))) (w_log (snd x)) /\
       (timer_enabled t = true -> hpet_enabled s = true -> timer_fsb_route t = false ->
        In (SetIrqLevel (irq_route s t) 1) (w_log (snd x)))) (s, w).
Proof.
  cbv zeta. intros Ht Hok Hper Hstep Hfuel. set (cur := hpet_now s w) in *.
  destruct (catch_up_timer fuel t cur Hstep Hfuel) as (c' & Ec & Ea & E0 & Elt).
  unfold hpet_timer. wp_step. eapply wp_get_timer; [exact Ht|].
  wp_step. apply wp_get_ticks. fold cur. rewrite Hper.
  assert ((period t =? 0) = false) as ->.
  { apply Z.eqb_neq. intros E. unfold step_of in Hstep. rewrite E in Hstep.
    unfold wrap in Hstep. rewrite Z.mod_0_l in Hstep; [lia|].
    unfold width_of. by destruct (mode32 t). }
  cbn [andb negb]. wp_step. wp_step. eapply wp_lift; [exact Ec|].
  wp_step. eapply wp_mod_timer; [exact Ht|]. set (t' := t <| cmp := c' |>) in *.
  pose proof (at_timer_set s i t t' Ht) as Ht'.
  wp_step. eapply wp_get_timer; [exact Ht'|]. unfold timer_oneshot_callback. wp_step.
  rewrite (diff_max t' cur E0).
  eapply wp_mono; [apply update_irq_spec; [exact Ht'|apply Hok]|].
  intros [] x (v & es & -> & _ & Hirq). exists t'. cbn [fst snd] in *.
  split_and!; try done.
  - rewrite !w_log_logged, !in_app_iff. cbn. auto.
  - intros H1 H2 H3. rewrite w_log_logged, in_app_iff. right. by apply Hirq.
Qed.

(** A guest can hang the VMM: for a periodic 32-bit timer whose period
    register holds a non-zero value with zero low half (which the guest can
    store through the comparator's high half), once the comparator is behind
    the counter the catch-up loop never ends, whatever fuel it is given. *)
Lemma hpet_32bit_hang (i : Z) (t : HPETTimer) (s : HPETState) (w : World) :
  at_timer s i t -> timer_is_periodic t = true -> mode32 t = true ->
  period t <> 0 -> u32 (period t) = 0 -> ahead t (hpet_now s w) < 0 ->
  forall fuel, hpet_timer fuel i (s, w) = Fault OutOfFuel.
Proof.
  intros [Hi Ht] Hper H32 Hp Hp0 Hbehind fuel.
  unfold hpet_timer, get_timer, mbind, M_bind, getd. cbn [fst].
  unfold idx at 1. destruct (Z.ltb_spec i 0); [lia|]. rewrite Ht. cbn [lift].
  change (hpet_get_ticks (s, w)) with (Ok (hpet_now s w, (s, ticked w))). cbv iota beta.
  fold (mode32 t). rewrite Hper, H32, (proj2 (Z.eqb_neq _ _) Hp). cbn [negb andb].
  unfold catch_up32. rewrite (catch_up_hang _ _ (fun c => s32 (u64 (c - hpet_now s w)))); [done|done| |].
  - intros c. by apply dist32_same.
  - unfold ahead, width_of in Hbehind. by rewrite H32 in Hbehind.
Qed.

(** ** Register accesses *)

Definition hk {A} (P : A -> Prop) (m : Dev HPETState A) : Prop :=
  forall s w, hpet_wf s -> wp m (fun a x => hpet_wf (fst x) /\ P a) (s, w).
Definition any {A} (_ : A) : Prop := True.

Lemma hk_bind {A B} P R (m : Dev HPETState A) (k : A -> Dev HPETState B) :
  hk P m -> (forall a, P a -> hk R (k a)) -> hk R (m ≫= k).
Proof.
  intros Hm Hk s w Hs. apply wp_bind. eapply wp_mono; [by apply Hm|].
  intros a [s' w'] [Hs' Ha]. by apply Hk.
Qed.

Lemma hk_ret {A} (P : A -> Prop) a : P a -> hk P (mret a).
Proof. intros Ha s w Hs. by apply wp_ret. Qed.

Lemma hk_emit e : hk any (emit e).
Proof. intros s w Hs. by apply wp_emit. Qed.

Lemma hk_modd f : (forall s, hpet_wf s -> hpet_wf (f s)) -> hk any (modd f).
Proof. intros Hf s w Hs. apply wp_modd. split; [by apply Hf|done]. Qed.

Lemma hk_when b m : hk any m -> hk any (when b m).
Proof. intros Hm s w Hs. by apply wp_when; [intros; apply Hm|]. Qed.

Lemma hk_if {A} P (b : bool) (m1 m2 : Dev HPETState A) :
  hk P m1 -> hk P m2 -> hk P (if b then m1 else m2).
Proof. by destruct b. Qed.

Lemma hk_getd {B} R (k : HPETState -> Dev HPETState B) :
  (forall s, hpet_wf s -> hk R (k s)) -> hk R (getd ≫= k).
Proof. intros Hk s w Hs. wp_step. wp_step. by apply Hk. Qed.

Lemma hk_for_each {X} (l : list X) body :
  (forall i, In i l -> hk any (body i)) -> hk any (for_each l body).
Proof.
  intros Hb s w Hs. apply wp_for_each with (I := fun x => hpet_wf (fst x)); [done| |done].
  intros i [s' w'] Hi Hs'. eapply wp_mono; [by apply Hb|]. by intros a x [].
Qed.

Lemma hpet_wf_timer s i : hpet_wf s -> 0 <= i < 3 -> exists t, at_timer s i t /\ timer_ok t.
Proof.
  intros [H3 HF _ _ _ _ _] Hi. destruct (lookup_lt_is_Some_2 (timer s) (Z.to_nat i)) as [t Ht]; [lia|].
  exists t. split; [split; [lia|done]|]. by eapply Forall_lookup_1.
Qed.

Lemma hk_get_timer {B} R i (k : HPETTimer -> Dev HPETState B) :
  0 <= i < 3 -> (forall t, timer_ok t -> hk R (k t)) -> hk R (get_timer i ≫= k).
Proof.
  intros Hi Hk s w Hs. destruct (hpet_wf_timer s i Hs Hi) as (t & Ht & Hok).
  wp_step. eapply wp_get_timer; [exact Ht|]. by apply Hk.
Qed.

Lemma hk_mod_timer i f :
  0 <= i < 3 -> (forall t, timer_ok t -> timer_ok (f t)) -> hk any (mod_timer i f).
Proof.
  intros Hi Hf s w Hs. destruct (hpet_wf_timer s i Hs Hi) as (t & Ht & Hok).
  eapply wp_mod_timer; [exact Ht|]. split; [|done]. destruct Hs. split; cbn; try done.
  - by rewrite length_insert.
  - apply Forall_insert; auto.
Qed.

Lemma hk_update_irq i set : 0 <= i < 3 -> hk any (update_irq i set).
Proof.
  intros Hi s w Hs. destruct (hpet_wf_timer s i Hs Hi) as (t & Ht & Hok).
  eapply wp_mono; [apply update_irq_spec; [exact Ht|apply Hok]|].
  intros [] x (v & es & -> & Hv & _). split; [|done]. destruct Hs. split; cbn; auto.
Qed.

Lemma inw_ticks s w : inw 64 (hpet_now s w).
Proof.
  unfold hpet_now, ns_to_ticks, HPET_CLK_PERIOD. pose proof (inw_u64
    (u64 (muldivu64 (u64 (w_tsc w (w_tsc_n w))) NS_IN_S (tsc_frequency s)) + hpet_offset s)).
  unfold inw in *. split; [apply Z.div_pos; lia|]. apply Z.div_lt_upper_bound; lia.
Qed.

Lemma hk_ticks {B} R (k : Z -> Dev HPETState B) :
  (forall c, inw 64 c -> hk R (k c)) -> hk R (hpet_get_ticks ≫= k).
Proof. intros Hk s w Hs. wp_step. apply wp_get_ticks. apply Hk; [apply inw_ticks|done]. Qed.

Lemma hk_time {B} R (k : Z -> Dev HPETState B) :
  (forall c, hk R (k c)) -> hk R (hpet_time_ns ≫= k).
Proof. intros Hk s w Hs. unfold hpet_time_ns. do 4 wp_step. by apply Hk. Qed.

Lemma inw64_const : inw 64 HI32 /\ inw 64 LO32 /\ inw 64 HPET_TN_CFG_WRITE_MASK
  /\ inw 64 HPET_CFG_WRITE_MASK.
Proof. split_and!; by split. Qed.

Lemma inw_u32_64 z : inw 64 (u32 z).
Proof. apply (inw_weaken 32); [lia|width]. Qed.

Ltac timer_tac :=
  let t := fresh "t" in let H := fresh "H" in
  intros t H; destruct H; split; cbn; first [assumption | by width | by apply inw_u32_64].
Ltac hk_run :=
  repeat match goal with
  | |- hk _ (getd ≫= _) => apply hk_getd; intros ?s ?Hs
  | |- hk _ (hpet_get_ticks ≫= _) => apply hk_ticks; intros ?c ?Hc
  | |- hk _ (hpet_time_ns ≫= _) => apply hk_time; intros ?c
  | |- hk _ (get_timer _ ≫= _) => apply hk_get_timer; [assumption|intros ?t ?Ht]
  | |- hk _ (mbind _ _) => apply (hk_bind any); [|intros ?a _]
  | |- hk _ (when _ _) => apply hk_when
  | |- hk _ (if _ then _ else _) => apply hk_if
  | |- hk _ (emit _) => apply hk_emit
  | |- hk _ (timer_oneshot_callback _ _) => apply hk_emit
  | |- hk _ (update_irq _ _) => apply hk_update_irq; assumption
  | |- hk _ (mod_timer _ _) => apply hk_mod_timer; [assumption|try solve [timer_tac]]
  | |- hk any (mret _) => by apply hk_ret
  | |- hk _ (let _ := _ in _) => cbv zeta
  end.

Lemma hk_set_timer i : 0 <= i < 3 -> hk any (hpet_set_timer i).
Proof. intros Hi. unfold hpet_set_timer. hk_run. Qed.

Lemma hk_del_timer i : 0 <= i < 3 -> hk any (hpet_del_timer i).
Proof. intros Hi. unfold hpet_del_timer. hk_run. Qed.

Lemma hk_each body : (forall i, 0 <= i < 3 -> hk any (body i)) -> hk any (each_timer body).
Proof.
  intros Hb. unfold each_timer. apply hk_getd. intros s Hs. apply hk_for_each.
  rewrite (hw_num s Hs). intros i Hi%in_zrange. by apply Hb.
Qed.

Lemma hk_write_cfg i old new :
  0 <= i < 3 -> inw 64 old -> inw 64 new -> hk any (hpet_write_cfg i old new).
Proof.
  intros Hi Ho Hn. unfold hpet_write_cfg, hpet_fixup_reg. hk_run;
    first [by apply hk_set_timer | by apply hk_del_timer].
Qed.

Lemma hk_write_cmp i v : 0 <= i < 3 -> inw 64 v -> hk any (hpet_write_cmp i v).
Proof.
  intros Hi Hv. unfold hpet_write_cmp, period_clamp. apply hk_get_timer; [done|]. intros t Ht.
  assert (inw 64 (if tst (t_config t) HPET_TN_32BIT then u32 v else v)) as Hv'.
  { destruct (tst _ _); [apply inw_u32_64|done]. }
  hk_run. by apply hk_set_timer.
Qed.

Lemma hk_write_cmp_high i v : 0 <= i < 3 -> hk any (hpet_write_cmp_high i v).
Proof. intros Hi. unfold hpet_write_cmp_high. hk_run. by apply hk_set_timer. Qed.

Lemma hk_write_timer i reg old new :
  0 <= i < 3 -> inw 64 old -> inw 64 new -> hk any (hpet_write_timer i reg old new).
Proof.
  intros Hi Ho Hn. unfold hpet_write_timer. hk_run.
  - by apply hk_write_cfg.
  - by apply hk_write_cmp.
  - by apply hk_write_cmp_high.
Qed.

Lemma hk_write_config old new : inw 64 old -> inw 64 new -> hk any (hpet_write_config old new).
Proof.
  intros Ho Hn. unfold hpet_write_config, hpet_enable_counter, hpet_start_counter, hpet_fixup_reg. hk_run.
  - apply hk_modd. intros s1 []. split; cbn; first [done | by width].
  - apply hk_modd. by intros s1 [].
  - apply hk_each. intros i Hi. hk_run. by apply hk_set_timer.
  - apply hk_modd. by intros s1 [].
  - apply hk_each. intros i Hi. by apply hk_del_timer.
Qed.

(** The window of the (absent) fourth timer. *)
Definition fourth_timer (offset : Z) : bool := (0x160 <=? offset) && (offset <=? 0x17f).

Lemma timer_id_eq offset :
  0x100 <= offset <= 0x3ff -> timer_id offset = (offset - 0x100) / 32.
Proof.
  intros Ho. unfold timer_id, HPET_BASE.
  replace (0xfed00000 + offset - 0x100) with (offset - 0x100 + 133595136 * 32) by lia.
  change 0x20 with 32. rewrite Z.div_add by lia. unfold u8, wrap.
  Z.to_euclidean_division_equations. lia.
Qed.

Lemma timer_id_cases offset :
  in_timers offset = true ->
  0 <= timer_id offset /\ (timer_id offset = 3 <-> fourth_timer offset = true).
Proof.
  unfold in_timers, fourth_timer. rewrite andb_true_iff, !Z.leb_le. intros Ho.
  rewrite timer_id_eq by lia. rewrite andb_true_iff, !Z.leb_le.
  Z.to_euclidean_division_equations. lia.
Qed.

Lemma inw_read_timer t reg : timer_ok t -> inw 64 (hpet_read_timer t reg).
Proof. intros []. unfold hpet_read_timer. repeat case_match; by width. Qed.

Lemma hk_read_counter : hk (inw 64) hpet_read_counter.
Proof.
  unfold hpet_read_counter. apply hk_getd. intros s Hs. apply hk_if.
  - intros s' w' Hs'. apply wp_get_ticks. split; [done|apply inw_ticks].
  - apply hk_ret, Hs.
Qed.

Lemma hk_mmio_read offset : fourth_timer offset = false -> hk (inw 64) (vm_hpet_mmio_read offset).
Proof.
  intros Hf. unfold vm_hpet_mmio_read. apply hk_getd. intros s Hs.
  destruct (in_timers offset) eqn:Hin.
  - destruct (timer_id_cases offset Hin) as [H0 H3]. rewrite (hw_num s Hs).
    destruct (Z.ltb_spec 3 (timer_id offset)); [apply hk_ret; by split|].
    assert (timer_id offset <> 3) by (intros E; apply H3 in E; congruence).
    apply hk_get_timer; [lia|]. intros t Ht. by apply hk_ret, inw_read_timer.
  - pose proof (hw_cap s Hs). pose proof (hw_config s Hs). pose proof (hw_isr s Hs).
    repeat apply hk_if; try (apply hk_ret; first [assumption | by width]);
      try apply hk_read_counter.
    apply (hk_bind (inw 64)); [apply hk_read_counter|]. intros c Hc. apply hk_ret. width.
Qed.

Lemma hk_mmio_write offset v :
  fourth_timer offset = false -> inw 64 v -> hk any (vm_hpet_mmio_write offset v).
Proof.
  intros Hf Hv. unfold vm_hpet_mmio_write.
  apply (hk_bind (inw 64)); [by apply hk_mmio_read|]. intros old Ho.
  apply hk_getd. intros s Hs. cbv zeta. destruct (in_timers offset) eqn:Hin.
  - destruct (timer_id_cases offset Hin) as [H0 H3]. rewrite (hw_num s Hs).
    destruct (Z.ltb_spec 3 (timer_id offset)); [by apply hk_ret|].
    assert (timer_id offset <> 3) by (intros E; apply H3 in E; congruence).
    apply hk_write_timer; [lia|done|done].
  - hk_run; try (apply hk_modd; intros s' []; split; cbn; first [done | by width]).
    + by apply hk_write_config.
    + apply hk_each. intros i Hi. hk_run.
Qed.

(** From a well-formed device every 32-bit register access with a
    64-bit value runs without a fault and keeps it well-formed, except in the
    window 0x160..0x17f of the fourth timer: there, because [timer_id] is
    compared with [>] against [num_timers], both the read and the write go
    past the end of the timer array. *)
Lemma hpet_mmio_safe (offset value : Z) (s : HPETState) (w : World) :
  hpet_wf s -> inw 32 offset -> inw 64 value ->
  if fourth_timer offset then
    vm_hpet_mmio_read offset (s, w) = Fault OutOfBounds /\
    vm_hpet_mmio_write offset value (s, w) = Fault OutOfBounds
  else
    wp (vm_hpet_mmio_read offset) (fun v x => hpet_wf (fst x) /\ inw 64 v) (s, w) /\
    wp (vm_hpet_mmio_write offset value) (fun _ x => hpet_wf (fst x)) (s, w).
Proof.
  intros Hs Ho Hv. destruct (fourth_timer offset) eqn:Hf.
  - assert (in_timers offset = true) as Hin.
    { unfold fourth_timer, in_timers in *. rewrite andb_true_iff, !Z.leb_le in *. lia. }
    destruct (timer_id_cases offset Hin) as [_ H3].
    assert (vm_hpet_mmio_read offset (s, w) = Fault OutOfBounds) as Er.
    { unfold vm_hpet_mmio_read, get_timer, mbind, M_bind, getd. cbn [fst].
      rewrite Hin, (hw_num s Hs), (proj2 H3 Hf). change (3 <? 3) with false. cbv iota.
      assert (idx (timer s) 3 = Fault OutOfBounds) as E3; [|cbn [fst]; by rewrite E3].
      unfold idx. change (3 <? 0) with false. cbv iota.
      by rewrite lookup_ge_None_2 by (rewrite (hw_three s Hs); simpl; lia). }
    split; [exact Er|]. unfold vm_hpet_mmio_write, mbind, M_bind at 1. by rewrite Er.
  - split; [by apply hk_mmio_read|]. eapply wp_mono; [by apply hk_mmio_write|]. by intros [] x [].
Qed.

(** ** The configuration register of a timer *)

(** Nothing of timer [i] but its wrap flag and interrupt changes. *)
Definition same_timer (t t' : HPETTimer) : Prop :=
  t_config t' = t_config t /\ cmp t' = cmp t /\ period t' = period t /\ fsb t' = fsb t.

Lemma set_timer_frame i t s w :
  at_timer s i t ->
  wp (hpet_set_timer i) (fun _ x => exists t', at_timer (fst x) i t' /\ same_timer t t') (s, w).
Proof.
  intros Ht. unfold hpet_set_timer. wp_step. apply wp_get_ticks. wp_step.
  eapply wp_mod_timer; [exact Ht|]. wp_step.
  pose proof (at_timer_set s i t (t <| wrap_flag := 0 |>) Ht) as Ht1.
  eapply wp_get_timer; [exact Ht1|]. cbv zeta. wp_step.
  - wp_step. eapply wp_mod_timer; [exact Ht1|]. apply wp_emit. cbn [fst].
    eexists. split; [by eapply at_timer_set|done].
  - apply wp_emit. cbn [fst]. eexists. split; [exact Ht1|done].
Qed.

Lemma del_timer_frame i t s w :
  at_timer s i t -> 0 <= tn t <= 2 ->
  wp (hpet_del_timer i) (fun _ x => exists t', at_timer (fst x) i t' /\ same_timer t t') (s, w).
Proof.
  intros Ht Htn. unfold hpet_del_timer. wp_step. eapply wp_get_timer; [exact Ht|]. do 2 wp_step.
  eapply wp_mono; [by apply update_irq_spec|]. intros [] x (v & es & -> & _).
  exists t. by split.
Qed.

Lemma testbit_fixup new old mask b :
  0 <= b ->
  Z.testbit (hpet_fixup_reg new old mask) b =
    if Z.testbit mask b then Z.testbit new b else Z.testbit old b.
Proof.
  intros Hb. unfold hpet_fixup_reg. rewrite Z.lor_spec, !Z.land_spec, Z.lnot_spec by done.
  by destruct (Z.testbit mask b), (Z.testbit new b), (Z.testbit old b).
Qed.

Lemma lor_hi_fixup new old b :
  0 <= b ->
  Z.testbit ((old .& HI32) .| hpet_fixup_reg new old HPET_TN_CFG_WRITE_MASK) b =
    if Z.testbit HPET_TN_CFG_WRITE_MASK b then Z.testbit new b else Z.testbit old b.
Proof.
  intros Hb. rewrite Z.lor_spec, testbit_fixup, Z.land_spec by done.
  destruct (Z.testbit HPET_TN_CFG_WRITE_MASK b) eqn:Em; [|by destruct (Z.testbit old b), (Z.testbit HI32 b)].
  assert (Z.testbit HI32 b = false) as ->; [|by rewrite andb_false_r].
  assert (b < 32) as Hlt.
  { destruct (Z.lt_ge_cases b 32) as [|Hge]; [done|].
    assert (inw 32 HPET_TN_CFG_WRITE_MASK) as Hw by by split.
    apply inw_testbit in Hw as [_ Hw]; [|lia]. by rewrite Hw in Em. }
  change HI32 with (Z.shiftl (Z.ones 32) 32). by apply Z.shiftl_spec_low.
Qed.

(** Writing the configuration register of timer [i] changes exactly the
    writable bits (HPET_TN_CFG_WRITE_MASK) to those written; all other bits,
    the capabilities in particular, keep their value, whatever else the write
    triggers.  Selecting 32-bit mode truncates comparator and period. *)
Lemma hpet_cfg_write_mask (i value : Z) (t : HPETTimer) (s : HPETState) (w : World) :
  hpet_wf s -> 0 <= i < 3 -> at_timer s i t -> inw 64 value ->
  wp (vm_hpet_mmio_write (0x100 + 0x20 * i) value) (fun _ x => exists t',
       at_timer (fst x) i t' /\
       (forall b, 0 <= b ->
          Z.testbit (t_config t') b =
            if Z.testbit HPET_TN_CFG_WRITE_MASK b then Z.testbit value b
            else Z.testbit (t_config t) b) /\
       cmp t' = (if tst value HPET_TN_32BIT then u32 (cmp t) else cmp t) /\
       period t' = (if tst value HPET_TN_32BIT then u32 (period t) else period t)) (s, w).
Proof.
  intros Hs Hi Ht Hv.
  assert (in_timers (0x100 + 0x20 * i) = true) as Hin.
  { unfold in_timers. rewrite andb_true_iff, !Z.leb_le. lia. }
  assert (timer_id (0x100 + 0x20 * i) = i) as Hid.
  { rewrite timer_id_eq by lia. replace (0x100 + 0x20 * i - 0x100) with (i * 32) by lia.
    by apply Z.div_mul. }
  assert (timer_reg (0x100 + 0x20 * i) = HPET_TN_CFG) as Hreg.
  { unfold timer_reg, HPET_BASE, HPET_TN_CFG. clear. Z.to_euclidean_division_equations. lia. }
  assert (timer_ok t) as Hok.
  { destruct Ht. eapply Forall_lookup_1; [apply Hs|done]. }
  assert ((num_timers s <? i) = false) as Hnum.
  { rewrite (hw_num s Hs). apply Z.ltb_ge. lia. }
  unfold vm_hpet_mmio_write, vm_hpet_mmio_read. rewrite Hin, Hid, Hreg.
  wp_step. do 2 wp_step. rewrite Hnum. wp_step. eapply wp_get_timer; [exact Ht|].
  wp_step. do 2 wp_step. rewrite Hnum. cbn [hpet_read_timer hpet_write_timer].
  change (hpet_read_timer t HPET_TN_CFG) with (t_config t).
  change (hpet_write_timer i HPET_TN_CFG) with (hpet_write_cfg i). unfold hpet_write_cfg.
  (* update_irq leaves the timers alone *)
  wp_step. eapply wp_mono with (Q := fun _ x => at_timer (fst x) i t).
  { wp_step; [|exact Ht]. eapply wp_mono; [apply update_irq_spec; [exact Ht|apply Hok]|].
    by intros [] x (v & es & -> & _). }
  intros [] [s1 w1] Ht1. cbn [fst] in Ht1. cbv zeta.
  wp_step. eapply wp_mod_timer; [exact Ht1|].
  set (t1 := t <| t_config := _ |>). pose proof (at_timer_set s1 i t t1 Ht1) as Ht2.
  set (t2 := if tst value HPET_TN_32BIT
             then t1 <| cmp := u32 (cmp t) |> <| period := u32 (period t) |> else t1).
  wp_step. eapply wp_mono with (Q := fun _ x => at_timer (fst x) i t2).
  { wp_step; unfold t2; rewrite Hb; [|exact Ht2].
    eapply wp_mod_timer; [exact Ht2|]. cbn [fst]. by eapply at_timer_set. }
  intros [] [s2 w2] Ht3. cbn [fst] in Ht3. wp_step. wp_step.
  eapply wp_mono with (Q := fun _ x => exists t', at_timer (fst x) i t' /\ same_timer t2 t').
  { wp_step; [by apply set_timer_frame|]. wp_step; [|by exists t2].
    apply del_timer_frame; [done|]. unfold t2. destruct (tst _ _); apply Hok. }
  intros [] [s3 w3] (t' & Ht' & Ec & Ecmp & Eper & _). exists t'.
  assert (t_config t2 = t_config t1) as E2 by (unfold t2; by destruct (tst _ _)).
  split_and!; [done| |rewrite Ecmp; unfold t2; by destruct (tst _ _)
                    |rewrite Eper; unfold t2; by destruct (tst _ _)].
  intros b Hb. rewrite Ec, E2. by apply lor_hi_fixup.
Qed.

(** ** The main counter *)

(** Enabling the main counter.  If the host clock has not yet passed the
    halted counter's value, counting resumes exactly there: when the clock
    has advanced by [d] nanoseconds the counter reads its old value plus
    [d / 10].  Otherwise ("Underflow" in the code) the guest's value is
    discarded and the counter reads the host clock itself. *)
Lemma hpet_counter_resumes (s : HPETState) (w : World) (d : Z) :
  let cur := u64 (muldivu64 (u64 (w_tsc w (w_tsc_n w))) NS_IN_S (tsc_frequency s)) in
  0 <= hpet_counter s -> hpet_counter s * 10 + d < 2 ^ 64 -> 0 <= d -> cur + d < 2 ^ 64 ->
  wp hpet_start_counter
     (fun _ x =>
        ns_to_ticks (u64 (cur + d + hpet_offset (fst x))) =
          if hpet_counter s * 10 <? cur then (cur + d) / 10
          else hpet_counter s + d / 10) (s, w).
Proof.
  cbv zeta. intros Hc Hcd Hd Hcur. unfold hpet_start_counter, hpet_time_ns. do 2 wp_step.
  cbv zeta. do 3 wp_step.
  set (cur := u64 (muldivu64 _ _ _)) in *.
  assert (inw 64 cur) as Hcw by (unfold cur; width).
  eapply wp_of_eq; [reflexivity|]. cbn [snd]. fold cur. apply wp_modd. cbn [fst].
  change (hpet_offset (s <| hpet_offset := ?n |>)) with n.
  unfold counter_offset, ticks_to_ns, ns_to_ticks, HPET_CLK_PERIOD. unfold inw in Hcw.
  rewrite (u64_small (hpet_counter s * 10)) by (unfold inw; lia).
  destruct (Z.ltb_spec (hpet_counter s * 10) cur).
  - rewrite Z.add_0_r. by rewrite u64_small by (unfold inw; lia).
  - rewrite (u64_small (_ - _)) by (unfold inw; lia).
    rewrite u64_small by (unfold inw; lia).
    replace (cur + d + (hpet_counter s * 10 - cur)) with (hpet_counter s * 10 + d) by lia.
    by rewrite Z.div_add_l.
Qed.
End HPET.

(** ** Concrete runs *)

#[local] Existing Instance utils_ref.

Definition hpet_boot : HPETState * World :=
  final (hpet_pre_init 1000000000 TIMER_HPET0) (hpet_state_bss, world0).

(** Timer 0 periodic (32 bits) every 1000 ticks, level-triggered on line 2, running. *)
Definition hpet_demo : HPETState * World :=
  final (vm_hpet_mmio_write 0x100 0x54e;; vm_hpet_mmio_write 0x108 1000;;
         vm_hpet_mmio_write 0x108 1000;; vm_hpet_mmio_write 0x10 1) hpet_boot.

(** Timer 0 periodic in 32-bit mode, the period stored through the high half. *)
Definition hpet_hung : HPETState * World :=
  final (vm_hpet_mmio_write 0x100 0x10c;; vm_hpet_mmio_write 0x10c 1;;
         vm_hpet_mmio_write 0x10 1) hpet_boot.

Definition hpet_timer0 (x : HPETState * World) : HPETTimer :=
  match timer (fst x) with t :: _ => t | [] => timer_bss end.

Ltac inw_const := by (split; vm_compute; congruence).

Lemma hpet_boot_wf : hpet_wf (fst hpet_boot).
Proof.
  assert (fst hpet_boot = ltac:(let v := eval vm_compute in (fst hpet_boot) in exact v)) as ->
    by (vm_compute; reflexivity).
  split; cbn [timer num_timers config isr capability hpet_counter];
    try reflexivity; try inw_const.
  repeat (apply List.Forall_cons; [split; cbn; first [lia | inw_const]|]). apply List.Forall_nil.
Qed.

Lemma hpet_periodic_catches_up_witness :
  let cur := hpet_now (fst hpet_demo) (world0 <| w_tsc_n := 57%nat |>) in
  let t := hpet_timer0 hpet_demo in
  catch_up_steps t cur = 5 /\
  wp (hpet_timer 6 0) (fun _ x => exists t',
       at_timer (fst x) 0 t' /\ t' = t <| cmp := cmp t' |> /\
       ahead t' cur = ahead t cur + catch_up_steps t cur * step_of t /\
       0 <= ahead t' cur /\ (ahead t cur < 0 -> ahead t' cur < step_of t) /\
       In (TimerOneshotRel (tid t) (u64 (Z.max 1 (ahead t' cur) * 10))) (w_log (snd x)) /\
       (timer_enabled t = true -> hpet_enabled (fst hpet_demo) = true ->
        timer_fsb_route t = false ->
        In (SetIrqLevel (irq_route (fst hpet_demo) t) 1) (w_log (snd x))))
    (fst hpet_demo, world0 <| w_tsc_n := 57%nat |>).
Proof.
  cbv zeta. split; [vm_compute; reflexivity|].
  apply (hpet_periodic_catches_up 6 0 (hpet_timer0 hpet_demo) (fst hpet_demo)
           (world0 <| w_tsc_n := 57%nat |>)).
  - split; [lia|vm_compute; reflexivity].
  - split; first [inw_const | split; vm_compute; congruence].
  - vm_compute. reflexivity.
  - inw_const.
  - vm_compute. reflexivity.
Defined.

Lemma hpet_32bit_hang_witness :
  hpet_timer (Z.to_nat 100000) 0 (fst hpet_hung, snd hpet_hung) = Fault OutOfFuel.
Proof.
  apply (hpet_32bit_hang 0 (hpet_timer0 hpet_hung)).
  - split; [lia|vm_compute; reflexivity].
  - vm_compute. reflexivity.
  - vm_compute. reflexivity.
  - vm_compute. discriminate.
  - vm_compute. reflexivity.
  - vm_compute. reflexivity.
Defined.

Lemma hpet_mmio_safe_witness :
  (vm_hpet_mmio_read 0x168 (fst hpet_boot, snd hpet_boot) = Fault OutOfBounds /\
   vm_hpet_mmio_write 0x168 7 (fst hpet_boot, snd hpet_boot) = Fault OutOfBounds) /\
  (wp (vm_hpet_mmio_read 0x128) (fun v x => hpet_wf (fst x) /\ inw 64 v)
      (fst hpet_boot, snd hpet_boot) /\
   wp (vm_hpet_mmio_write 0x128 7) (fun _ x => hpet_wf (fst x))
      (fst hpet_boot, snd hpet_boot)).
Proof.
  split; [apply (hpet_mmio_safe 0x168 7 (fst hpet_boot) (snd hpet_boot))
         |apply (hpet_mmio_safe 0x128 7 (fst hpet_boot) (snd hpet_boot))];
    first [apply hpet_boot_wf | inw_const].
Defined.

Lemma hpet_cfg_write_mask_witness :
  wp (vm_hpet_mmio_write (0x100 + 0x20 * 1) 0xffff) (fun _ x => exists t',
       at_timer (fst x) 1 t' /\
       (forall b, 0 <= b ->
          Z.testbit (t_config t') b =
            if Z.testbit HPET_TN_CFG_WRITE_MASK b then Z.testbit 0xffff b
            else Z.testbit (t_config (timer_bss <| t_config := 0x30 |>)) b) /\
       cmp t' = (if tst 0xffff HPET_TN_32BIT then u32 (2 ^ 64 - 1) else 2 ^ 64 - 1) /\
       period t' = (if tst 0xffff HPET_TN_32BIT then u32 0 else 0))
    (fst hpet_boot, snd hpet_boot).
Proof.
  apply (hpet_cfg_write_mask 1 0xffff (mkHPETTimer 1 0x30 (2 ^ 64 - 1) 0 0 0 10));
    [apply hpet_boot_wf|lia|split; [lia|vm_compute; reflexivity]|inw_const].
Defined.

Lemma hpet_counter_resumes_witness :
  wp hpet_start_counter
     (fun _ x =>
        ns_to_ticks (u64 (u64 (muldivu64 (u64 (w_tsc (snd hpet_boot) (w_tsc_n (snd hpet_boot))))
                                 NS_IN_S (tsc_frequency (fst hpet_boot)))
                          + 500 + hpet_offset (fst x))) =
          if hpet_counter (fst hpet_boot) * 10 <?
             u64 (muldivu64 (u64 (w_tsc (snd hpet_boot) (w_tsc_n (snd hpet_boot))))
                    NS_IN_S (tsc_frequency (fst hpet_boot)))
          then (u64 (muldivu64 (u64 (w_tsc (snd hpet_boot) (w_tsc_n (snd hpet_boot))))
                       NS_IN_S (tsc_frequency (fst hpet_boot))) + 500) / 10
          else hpet_counter (fst hpet_boot) + 500 / 10)
     (fst hpet_boot, snd hpet_boot).
Proof.
  apply (hpet_counter_resumes (fst hpet_boot) (snd hpet_boot) 500); vm_compute; congruence.
Defined.
