(* ===== verification/Sata.v ===== *)
(** The SATA server (components/Sataserver/src/sataserver.c) and the
    configuration function its template generates
    (templates/seL4Sataserver-to.template.c): the assignment of disk
    partitions to client VMs, the virtual partition tables, and the
    translation of a client's reads and writes to sectors of the disk.

    The disk driver, the RPC connector and the dataports are outside the
    repository: class [SataEnv] names what the code asks of them. *)

From stdpp Require Import sets.
From S2P Require Import Prelude.

(** * Data *)

Definition MAX_PARTITIONS : Z := 4.
Definition VIRT_START_SECTOR : Z := 64.
Definition BUF_SIZE : Z := 4096.
Definition MAX_NUM_CYL : Z := 1023.
Definition MAX_NUM_HEAD : Z := 255.
Definition MAX_NUM_SECT : Z := 63.
Definition START_SECTOR : Z := 0.

Definition SATASERVER_STATUS_GOOD : Z := 0.
Definition SATASERVER_STATUS_NOT_DONE : Z := 1.
Definition SATASERVER_STATUS_INVALID_CONF : Z := 2.

(** libsatadrivers' [partition_table_t], an entry of a master boot record:
    [sec_cyl] and [end_sec_cyl] are 16 bits wide, the last two fields 32, the
    others 8. *)
Record partition_table := mkPartitionTable {
  boot : Z; head : Z; sec_cyl : Z; sys_id : Z;
  end_head : Z; end_sec_cyl : Z; start_lba : Z; num_sectors : Z }.
#[export] Instance eta_partition_table : Eta partition_table :=
  fun t => mkPartitionTable (boot t) (head t) (sec_cyl t) (sys_id t)
                            (end_head t) (end_sec_cyl t) (start_lba t) (num_sectors t).

Definition partition_table_zero : partition_table := mkPartitionTable 0 0 0 0 0 0 0 0.

Record client := mkClient {
  client_id : Z;                          (* int *)
  partitions : list Z;                    (* uint8_t [MAX_PARTITIONS] *)
  num_partitions : Z;                     (* uint8_t *)
  partition_tables : list partition_table;
  capacity : Z;                           (* uint64_t *)
  dataport : Z }.                         (* void *, an opaque handle *)
#[export] Instance eta_client : Eta client :=
  fun c => mkClient (client_id c) (partitions c) (num_partitions c)
                    (partition_tables c) (capacity c) (dataport c).

(** What [calloc] returns. *)
Definition client_zero : client :=
  mkClient 0 (replicate 4 0) 0 (replicate 4 partition_table_zero) 0 0.

Inductive sata_event :=
| Lock
| Unlock
| ReadSectors (count sector : Z)
| WriteSectors (count sector : Z) (data : list Z).

#[export] Instance sata_event_eq_dec : EqDecision sata_event.
Proof. solve_decision. Defined.

(** The globals of sataserver.c, and the memory of the dataports and the
    calls to the driver and to the lock. *)
Record sataserver := mkSataserver {
  assigned_parts : list Z;
  g_part_data : list Z;
  phys_partition_tables : list partition_table;
  done_init : Z;
  invalid_config : Z;
  num_clients : Z;
  clients : list client;
  packets : Z -> list Z;
  sata_log : list sata_event }.
#[export] Instance eta_sataserver : Eta sataserver :=
  fun s => mkSataserver (assigned_parts s) (g_part_data s) (phys_partition_tables s)
    (done_init s) (invalid_config s) (num_clients s) (clients s) (packets s) (sata_log s).

(** What is not part of the repository. *)
Class SataEnv := {
  SATA_BLK_SIZE : Z;
  PART_OFFSET : Z;
  (* the bytes of a [partition_table_t] *)
  pt_bytes : partition_table -> list Z;
  (* the RPC connector *)
  client_num_badges : Z;
  client_enumerate_badge : Z -> Z;
  client_buf : Z -> Z;
  (* the configured (badge, partitions) pairs the template is filled with *)
  cfg_partitions : list (Z * list Z);
  (* what sata_get_partition_tables finds on the disk *)
  disk_tables : list partition_table;
  disk_part_data : list Z;
  (* the driver, given the calls before: error code (and the data read) *)
  sata_read_sectors : list sata_event -> Z -> Z -> Z * list Z;
  sata_write_sectors : list sata_event -> Z -> Z -> list Z -> Z }.

Class SataEnvLaws (E : SataEnv) : Prop := {
  SATA_BLK_SIZE_spec : SATA_BLK_SIZE = 512;
  client_num_badges_pos : 0 <= client_num_badges < 2 ^ 31;
  client_enumerate_badge_range i : 0 <= client_enumerate_badge i < 2 ^ 31;
  (* different clients have different badges *)
  client_enumerate_badge_inj i j :
    0 <= i < client_num_badges -> 0 <= j < client_num_badges ->
    client_enumerate_badge i = client_enumerate_badge j -> i = j;
  cfg_partitions_bytes :
    Forall (fun e => Forall (inw 8) (snd e)) cfg_partitions;
  disk_tables_length : length disk_tables = 4%nat }.

(** The state before [post_init]. *)
Definition sataserver_bss : sataserver :=
  mkSataserver (replicate 4 0) (replicate 512 0) (replicate 4 partition_table_zero)
               0 0 0 [] (fun _ => replicate 4096 0) [].

(** [a - b] on [int]s: overflow is undefined. *)
Definition int_sub (a b : Z) : outcome Z :=
  if (- 2 ^ 31 <=? a - b) && (a - b <? 2 ^ 31) then Ok (a - b) else Fault SignedOverflow.

Section Server.
Context {E : SataEnv}.

Definition log_call (e : sata_event) : M sataserver unit :=
  modify (fun s => s <| sata_log := sata_log s ++ [e] |>).
Definition sataserver_mux_lock : M sataserver unit := log_call Lock.
Definition sataserver_mux_unlock : M sataserver unit := log_call Unlock.

Definition get_client (i : Z) : M sataserver client :=
  s ← get; lift (idx (clients s) i).
Definition set_client (i : Z) (c : client) : M sataserver unit :=
  s ← get; l ← lift (idx_set (clients s) i c); put (s <| clients := l |>).

(** [memcpy] of [data] to the start of a dataport. *)
Definition packet_write (port : Z) (data : list Z) : M sataserver unit :=
  modify (fun s => s <| packets := fun p =>
    if p =? port then data ++ drop (length data) (packets s p) else packets s p |>).

(** [memcpy(&dst[off], data, len)]. *)
Definition overlay (dst : list Z) (off : Z) (data : list Z) : list Z :=
  take (Z.to_nat off) dst ++ data ++ drop (Z.to_nat off + length data) dst.

(** * Start-up *)

(** The [switch] the template generates: the partitions of the badge are
    copied to the caller's array, which holds [MAX_PARTITIONS] bytes. *)
Definition client_get_partitions (badge : Z) (c : client) : outcome client :=
  match find (fun e => fst e =? badge) cfg_partitions with
  | None => Ok c
  | Some (_, temp) =>
      if Z.of_nat (length temp) <=? MAX_PARTITIONS then
        Ok (c <| partitions := overlay (partitions c) 0 temp |>
              <| num_partitions := u8 (Z.of_nat (length temp)) |>)
      else Fault OutOfBounds
  end.

Definition check_part_is_assigned (partition : Z) : M sataserver Z :=
  let part := u8 (partition - 1) in
  s ← get;
  assigned ← (if part >=? MAX_PARTITIONS then mret true
              else (a ← lift (idx (assigned_parts s) part); mret (z2b a)));
  if assigned : bool then mret (-1)
  else modify (fun s => s <| assigned_parts := arr_set (assigned_parts s) part 1 |>);;
       mret 0.

(** The body of the first loop of [post_init]. *)
Definition validate_client (client : Z) : M sataserver bool :=
  c ← get_client client;
  let id := s32 (client_enumerate_badge client) in
  let c := c <| client_id := id |> <| dataport := client_buf (u32 id) |> in
  c ← lift (client_get_partitions (u32 id) c);
  set_client client c;;
  if num_partitions c >? MAX_PARTITIONS then
    modify (fun s => s <| invalid_config := 1 |>);; mret true
  else
    for_until (zrange (Z.to_nat (num_partitions c))) (fun i =>
      partition ← lift (idx (partitions c) i);
      error ← check_part_is_assigned partition;
      if z2b error then modify (fun s => s <| invalid_config := 1 |>);; mret true
      else mret false).

(** Cylinder, head and sector of a linear block address. *)
Definition lba_to_chs (lba : Z) : Z * Z * Z :=
  if lba / (MAX_NUM_HEAD * MAX_NUM_SECT) >? MAX_NUM_CYL
  then (MAX_NUM_CYL, MAX_NUM_HEAD, MAX_NUM_SECT)
  else (u16 (lba / (MAX_NUM_HEAD * MAX_NUM_SECT)),
        u8 ((lba / MAX_NUM_SECT) mod MAX_NUM_HEAD),
        u8 (lba mod MAX_NUM_SECT + 1)).

Definition pack_sec_cyl (sec cyl : Z) : Z :=
  u16 (sec .| ((cyl .& 0x300) .>> 2) .| ((cyl .& 0xff) .<< 8)).

(** The virtual entry of a partition whose physical entry is [phys], at
    [sectors]: the fields the loop body assigns. *)
Definition fill_entry (phys t : partition_table) (sectors : Z) : partition_table :=
  let t := t <| boot := boot phys |> <| sys_id := sys_id phys |>
             <| num_sectors := num_sectors phys |> <| start_lba := sectors |> in
  let '(cyl, hd, sec) := lba_to_chs (start_lba t) in
  let t := t <| head := hd |> <| sec_cyl := pack_sec_cyl sec cyl |> in
  let end_lba := u32 (start_lba t + num_sectors t - 1) in
  let '(cyl, hd, sec) := lba_to_chs end_lba in
  t <| end_head := hd |> <| end_sec_cyl := pack_sec_cyl sec cyl |>.

(** The inner loop over the partitions [ix] of a client, carrying [sectors]. *)
Fixpoint virt_tables (ix : list Z) (c : client) (sectors : Z) : M sataserver (client * Z) :=
  match ix with
  | [] => mret (c, sectors)
  | i :: ix' =>
      s ← get;
      p ← lift (idx (partitions c) i);
      phys ← lift (idx (phys_partition_tables s) (p - 1));
      t ← lift (idx (partition_tables c) i);
      let t := fill_entry phys t sectors in
      l ← lift (idx_set (partition_tables c) i t);
      virt_tables ix' (c <| partition_tables := l |>) (u32 (sectors + num_sectors t))
  end.

(** The body of the second loop of [post_init]. *)
Definition virtualize_client (client : Z) : M sataserver unit :=
  c ← get_client client;
  let c := c <| partition_tables := replicate 4 partition_table_zero |> in
  r ← virt_tables (zrange (Z.to_nat (num_partitions c))) c VIRT_START_SECTOR;
  let '(c, sectors) := r in
  set_client client (c <| capacity := sectors |>).

(** [post_init] after the allocators and the driver are set up (SataInit), and
    its effect on the globals from the beginning. *)
Definition post_init_tables : M sataserver unit :=
  modify (fun s => s <| phys_partition_tables := disk_tables |>
                     <| g_part_data := disk_part_data |>);;
  modify (fun s => s <| num_clients := s32 client_num_badges |>);;
  s ← get;
  let n := num_clients s in
  put (s <| clients := replicate (Z.to_nat n) client_zero |>);;
  out ← for_until (zrange (Z.to_nat n)) validate_client;
  (if out : bool then mret tt else for_each (zrange (Z.to_nat n)) virtualize_client);;
  modify (fun s => s <| done_init := 1 |>);;
  sataserver_mux_unlock.
Definition post_init : M sataserver unit := sataserver_mux_lock;; post_init_tables.

(** * The clients' interface *)

(** The [while] loop: [ix] are the indices still to be tried. *)
Fixpoint find_sector (phys : list partition_table) (c : client) (ix : list Z)
    (sector : Z) : outcome (option Z) :=
  match ix with
  | [] => Ok None
  | i :: ix' =>
      t ← idx (partition_tables c) i;
      let virt_start := start_lba t in
      if (sector >=? virt_start) && (sector <? u32 (virt_start + num_sectors t)) then
        p ← idx (partitions c) i;
        ph ← idx phys (u8 (p - 1));
        offset ← int_sub (s32 (start_lba ph)) (s32 virt_start);
        Ok (Some offset)
      else find_sector phys c ix' sector
  end.

Definition calulate_sector_offset (c : client) (sector : Z) : M sataserver (option Z) :=
  s ← get;
  lift (find_sector (phys_partition_tables s) c
          (zrange (Z.to_nat (num_partitions c))) sector).

(** The search of the sender's client: the last one with its id. *)
Definition find_client (id : Z) : M sataserver client :=
  s ← get;
  match fold_left (fun acc c => if client_id c =? id then Some c else acc)
                  (take (Z.to_nat (num_clients s)) (clients s)) None with
  | Some c => mret c
  | None => fail AssertFailed
  end.

(** [client_rx], called by the client with badge [sender]. *)
Definition client_rx (sender sector len : Z) : M sataserver Z :=
  s ← get;
  if negb (z2b (done_init s)) then mret 0
  else if len >? BUF_SIZE then mret 0
  else
    sataserver_mux_lock;;
    c ← find_client (s32 sender);
    ret ← (if START_SECTOR =? sector then
             s ← get;
             let part_data := overlay (g_part_data s) PART_OFFSET
                                (concat (map pt_bytes (partition_tables c))) in
             packet_write (dataport c) part_data;;
             mret len
           else if sector <? VIRT_START_SECTOR then
             packet_write (dataport c) (replicate (Z.to_nat len) 0);;
             mret len
           else
             found ← calulate_sector_offset c sector;
             match found with
             | Some offset =>
                 s ← get;
                 let n := len / SATA_BLK_SIZE in
                 let phys := u32 (sector + offset) in
                 let '(err, data) := sata_read_sectors (sata_log s) n phys in
                 log_call (ReadSectors n phys);;
                 if z2b err then mret 0
                 else packet_write (dataport c) data;; mret len
             | None => mret 0
             end);
    sataserver_mux_unlock;;
    mret ret.

(** [client_tx], called by the client with badge [sender]. *)
Definition client_tx (sender sector len : Z) : M sataserver Z :=
  s ← get;
  if negb (z2b (done_init s)) then mret 0
  else if len >? BUF_SIZE then mret 0
  else
    sataserver_mux_lock;;
    c ← find_client (s32 sender);
    ret ← (if sector >=? VIRT_START_SECTOR then
             found ← calulate_sector_offset c sector;
             match found with
             | Some offset =>
                 s ← get;
                 let n := len / SATA_BLK_SIZE in
                 let phys := u32 (sector + offset) in
                 let data := take (Z.to_nat (n * SATA_BLK_SIZE)) (packets s (dataport c)) in
                 let err := sata_write_sectors (sata_log s) n phys data in
                 log_call (WriteSectors n phys data);;
                 if z2b err then mret 0 else mret len
             | None => mret 0
             end
           else mret len);
    sataserver_mux_unlock;;
    mret ret.

Definition client_get_capacity (sender : Z) : M sataserver Z :=
  s ← get;
  if negb (z2b (done_init s)) then mret 0
  else
    c ← find_client (s32 sender);
    mret (u32 (capacity c)).

Definition client_get_status : M sataserver Z :=
  s ← get;
  mret (if z2b (invalid_config s) then SATASERVER_STATUS_INVALID_CONF
        else if negb (z2b (done_init s)) then SATASERVER_STATUS_NOT_DONE
        else SATASERVER_STATUS_GOOD).

End Server.

(** * The abstract configuration

    What the configuration and the partition table of the disk say each
    client's disk should be. *)

Definition list_sum_Z (l : list Z) : Z := fold_right Z.add 0 l.

Section Spec.
Context {E : SataEnv}.

(** The partitions configured for the [i]-th client. *)
Definition configured (i : Z) : list Z :=
  match find (fun e => fst e =? client_enumerate_badge i) cfg_partitions with
  | Some (_, temp) => temp
  | None => []
  end.

Definition all_parts (n : nat) : list Z := concat (map configured (zrange n)).

(** Every assigned partition is one of the four, and none is assigned twice. *)
Definition valid_config : bool :=
  let ps := all_parts (Z.to_nat client_num_badges) in
  forallb (fun p => (1 <=? p) && (p <=? MAX_PARTITIONS)) ps && bool_decide (NoDup ps).

Definition phys (p : Z) : partition_table :=
  nth (Z.to_nat (p - 1)) disk_tables partition_table_zero.

(** The physical sectors of a partition, and the disk a list of partitions
    makes when they are put one after the other. *)
Definition part_sectors (p : Z) : list Z :=
  map (fun k => start_lba (phys p) + k) (zrange (Z.to_nat (num_sectors (phys p)))).
Definition vdisk (ps : list Z) : list Z := concat (map part_sectors ps).

Definition total (ps : list Z) : Z := list_sum_Z (map (fun p => num_sectors (phys p)) ps).

(** The disk's own table is sane: its partitions are within the range of an
    [int], all together as well, and do not overlap. *)
Definition disk_ok : Prop :=
  (forall p, 1 <= p <= MAX_PARTITIONS ->
     0 <= start_lba (phys p) /\ 0 <= num_sectors (phys p) /\
     start_lba (phys p) + num_sectors (phys p) <= 2 ^ 31) /\
  VIRT_START_SECTOR + total [1; 2; 3; 4] <= 2 ^ 31 /\
  forall p q x, 1 <= p <= MAX_PARTITIONS -> 1 <= q <= MAX_PARTITIONS -> p <> q ->
    In x (part_sectors p) -> In x (part_sectors q) -> False.

(** The entries of a client's virtual table, and the client as the two loops
    of [post_init] leave it. *)
Fixpoint vtables (ps : list Z) (sectors : Z) : list partition_table :=
  match ps with
  | [] => []
  | p :: ps' =>
      fill_entry (phys p) partition_table_zero sectors
        :: vtables ps' (u32 (sectors + num_sectors (phys p)))
  end.

Fixpoint vend (ps : list Z) (sectors : Z) : Z :=
  match ps with
  | [] => sectors
  | p :: ps' => vend ps' (u32 (sectors + num_sectors (phys p)))
  end.

Definition configured_client (i : Z) : client :=
  client_zero <| client_id := client_enumerate_badge i |>
              <| dataport := client_buf (client_enumerate_badge i) |>
              <| partitions := overlay (replicate 4 0) 0 (configured i) |>
              <| num_partitions := Z.of_nat (length (configured i)) |>.

Definition virtual_client (i : Z) : client :=
  let ps := configured i in
  (configured_client i)
    <| partition_tables := vtables ps VIRT_START_SECTOR
                             ++ replicate (4 - length ps) partition_table_zero |>
    <| capacity := vend ps VIRT_START_SECTOR |>.

End Spec.

(** * Lemmas: running the loops *)

Definition zseq (k n : nat) : list Z := map Z.of_nat (seq k n).

Lemma zseq_S k n : zseq k (S n) = Z.of_nat k :: zseq (S k) n.
Proof. done. Qed.

Lemma zseq_snoc n : zseq 0 (S n) = zseq 0 n ++ [Z.of_nat n].
Proof. apply zrange_S. Qed.

(** Overwriting the front of an array. *)
Lemma overlay_0 dst data : overlay dst 0 data = data ++ drop (length data) dst.
Proof. done. Qed.

(** ** Checking the partitions of one client *)

(** The flags of [assigned_parts] when the partitions [ps] are taken. *)
Definition marks (ps : list Z) : list Z :=
  map (fun k => b2z (bool_decide (k + 1 ∈ ps))) (zrange 4).

Definition fresh1 (taken : list Z) (p : Z) : bool :=
  (1 <=? p) && (p <=? MAX_PARTITIONS) && negb (bool_decide (p ∈ taken)).

Fixpoint fresh (taken ps : list Z) : bool :=
  match ps with
  | [] => true
  | p :: ps' => fresh1 taken p && fresh (taken ++ [p]) ps'
  end.

Lemma fresh_app taken ps qs :
  fresh taken (ps ++ qs) = fresh taken ps && fresh (taken ++ ps) qs.
Proof.
  revert taken. induction ps as [|p ps IH]; intros taken; cbn; [by rewrite app_nil_r|].
  rewrite IH, <-app_assoc. cbn. by rewrite andb_assoc.
Qed.

Lemma fresh_spec taken ps :
  fresh taken ps = true <->
  Forall (fun p => 1 <= p <= MAX_PARTITIONS /\ p ∉ taken) ps /\ NoDup ps.
Proof.
  revert taken. induction ps as [|p ps IH]; intros taken; cbn.
  { split; [|done]. intros _. split; constructor. }
  rewrite andb_true_iff, IH. unfold fresh1.
  rewrite !andb_true_iff, !Z.leb_le, negb_true_iff, bool_decide_eq_false.
  rewrite list.NoDup_cons, list.Forall_cons, !list.Forall_forall. split.
  - intros [[[? ?] ?] [HF Hn]]. split_and!; try done.
    + intros x Hx. destruct (HF x Hx); set_solver.
    + intros Hp. destruct (HF p Hp); set_solver.
  - intros [[[[? ?] ?] HF] [Hp Hn]]. split_and!; try done.
    intros x Hx. destruct (HF x Hx). split; [done|]. set_solver.
Qed.

Lemma arr_marks ps i : 0 <= i < 4 -> arr (marks ps) i = b2z (bool_decide (i + 1 ∈ ps)).
Proof.
  intros Hi. assert (i = 0 \/ i = 1 \/ i = 2 \/ i = 3) as [->|[->|[->| ->]]] by lia; done.
Qed.

Lemma marks_snoc ps p :
  1 <= p <= 4 -> arr_set (marks ps) (p - 1) 1 = marks (ps ++ [p]).
Proof.
  intros Hp.
  assert (forall k, bool_decide (k ∈ ps ++ [p]) = bool_decide (k ∈ ps) || (k =? p)) as Hk.
  { intros k. apply eq_true_iff_eq.
    rewrite orb_true_iff, !bool_decide_eq_true, Z.eqb_eq. set_solver. }
  unfold marks. cbn [zrange map seq]. rewrite !Hk.
  assert (p = 1 \/ p = 2 \/ p = 3 \/ p = 4) as [->|[->|[->| ->]]] by lia;
    cbn; rewrite ?orb_false_r, ?orb_true_r; done.
Qed.

Section Config.
Context {E : SataEnv}.

(** ** What a valid configuration says *)

Lemma valid_config_fresh :
  valid_config = fresh [] (all_parts (Z.to_nat client_num_badges)).
Proof.
  apply eq_true_iff_eq. rewrite fresh_spec. unfold valid_config. cbv zeta.
  rewrite andb_true_iff, bool_decide_eq_true, forallb_forall, List.Forall_forall.
  setoid_rewrite andb_true_iff. setoid_rewrite Z.leb_le. split; intros [H ?]; (split; [|done]).
  - intros x Hx. split; [by apply H|]. set_solver.
  - intros x Hx. by apply H.
Qed.

Lemma valid_configured k :
  valid_config = true -> 0 <= k < client_num_badges ->
  Forall (fun p => 1 <= p <= MAX_PARTITIONS) (configured k) /\ NoDup (configured k).
Proof.
  rewrite valid_config_fresh, fresh_spec. intros [Hr Hn] Hk.
  assert (exists l1 l2, zrange (Z.to_nat client_num_badges) = l1 ++ k :: l2) as (l1 & l2 & El).
  { apply in_split. unfold zrange. apply in_map_iff. exists (Z.to_nat k).
    split; [lia|]. apply in_seq. lia. }
  unfold all_parts in *. rewrite El, map_app, concat_app in Hr, Hn. cbn [map concat] in *.
  rewrite !Forall_app in Hr. rewrite !list.NoDup_app in Hn. split; [|naive_solver].
  eapply List.Forall_impl; [|exact (proj1 (proj2 Hr))]. naive_solver.
Qed.

Lemma valid_exclusive j k p :
  valid_config = true -> 0 <= j < client_num_badges -> 0 <= k < client_num_badges -> j <> k ->
  p ∈ configured j -> p ∈ configured k -> False.
Proof.
  rewrite valid_config_fresh, fresh_spec. intros [_ Hn] Hj Hk Hjk Hpj Hpk.
  assert (forall i, 0 <= i < client_num_badges -> In i (zrange (Z.to_nat client_num_badges))) as Hin.
  { intros i Hi. apply in_map_iff. exists (Z.to_nat i). split; [lia|]. apply in_seq. lia. }
  apply Hin in Hj, Hk. apply in_split in Hj as (l1 & l2 & El).
  unfold all_parts in *. rewrite El, map_app, concat_app in Hn. cbn [map concat] in *.
  rewrite !list.NoDup_app in Hn. destruct Hn as (_ & H1 & _ & H2 & _).
  assert (forall l, In k l -> p ∈ concat (map configured l)) as Hc.
  { intros l Hl. apply list_elem_of_In, in_concat. exists (configured k).
    split; [by apply in_map|by apply list_elem_of_In]. }
  rewrite El in Hk. apply in_app_iff in Hk as [Hk|[Hk|Hk]]; [|done|].
  - apply (H1 p); [by apply Hc|]. apply elem_of_app. by left.
  - apply (H2 p); [done|by apply Hc].
Qed.

(** A duplicate-free choice of partitions is no larger than the disk. *)
Lemma total_cons p ps : total (p :: ps) = num_sectors (phys p) + total ps.
Proof. done. Qed.

Lemma total_app ps qs : total (ps ++ qs) = total ps + total qs.
Proof.
  induction ps as [|p ps IH]; [done|].
  rewrite <-app_comm_cons, !total_cons, IH. lia.
Qed.

Lemma total_nonneg ps :
  (forall p, p ∈ ps -> 0 <= num_sectors (phys p)) -> 0 <= total ps.
Proof.
  induction ps as [|p ps IH]; intros H; [done|]. rewrite total_cons.
  pose proof (H p ltac:(set_solver)). pose proof (IH ltac:(set_solver)). lia.
Qed.

Lemma total_perm ps qs : ps ≡ₚ qs -> total ps = total qs.
Proof. induction 1; rewrite ?total_cons in *; lia. Qed.

Lemma total_le ps :
  disk_ok -> Forall (fun p => 1 <= p <= MAX_PARTITIONS) ps -> NoDup ps ->
  total ps <= total [1; 2; 3; 4].
Proof.
  intros (Hr & _) Hps Hn. rewrite list.Forall_forall in Hps. unfold MAX_PARTITIONS in *.
  assert (ps ⊆+ [1; 2; 3; 4]) as Hs.
  { apply NoDup_submseteq; [done|]. intros p Hp. specialize (Hps p Hp).
    assert (p = 1 \/ p = 2 \/ p = 3 \/ p = 4) as [->|[->|[->| ->]]] by lia; set_solver. }
  apply submseteq_Permutation in Hs as [qs Hq]. rewrite (total_perm _ _ Hq), total_app.
  enough (0 <= total qs) by lia. apply total_nonneg. intros p Hp.
  enough (1 <= p <= 4) as Hp' by (by apply Hr).
  assert (p ∈ [1; 2; 3; 4]) as Hin by (rewrite Hq; set_solver).
  repeat (apply elem_of_cons in Hin as [->|Hin]; [lia|]). set_solver.
Qed.

Lemma length_part_sectors p :
  length (part_sectors p) = Z.to_nat (num_sectors (phys p)).
Proof. unfold part_sectors. by rewrite length_map, length_zrange. Qed.

Lemma part_sectors_lookup p i :
  (i < Z.to_nat (num_sectors (phys p)))%nat ->
  part_sectors p !! i = Some (start_lba (phys p) + Z.of_nat i).
Proof.
  intros Hi. unfold part_sectors, zrange.
  by rewrite !lookup_map, lookup_seq_lt by lia.
Qed.

Lemma length_vdisk ps :
  (forall p, p ∈ ps -> 0 <= num_sectors (phys p)) ->
  Z.of_nat (length (vdisk ps)) = total ps.
Proof.
  unfold vdisk. induction ps as [|p ps IH]; intros H; [done|].
  cbn [map concat]. rewrite length_app, length_part_sectors, total_cons.
  pose proof (H p ltac:(set_solver)). pose proof (IH ltac:(set_solver)). lia.
Qed.

Lemma vdisk_In ps x :
  In x (vdisk ps) -> exists p, p ∈ ps /\ In x (part_sectors p).
Proof.
  unfold vdisk. rewrite in_concat. intros (l & (p & <- & Hp)%in_map_iff & Hx).
  exists p. split; [by apply list_elem_of_In|done].
Qed.

End Config.

Section Run.
Context {E : SataEnv}.
Implicit Types s : sataserver.

Lemma check_part_run taken p s :
  inw 8 p -> assigned_parts s = marks taken ->
  check_part_is_assigned p s
  = if fresh1 taken p then Ok (0, s <| assigned_parts := marks (taken ++ [p]) |>)
    else Ok (-1, s).
Proof.
  intros Hp Ha. unfold check_part_is_assigned, fresh1. cbn [mbind M_bind get].
  unfold mbind, M_bind, get.
  destruct (Z.leb_spec 1 p), (Z.leb_spec p MAX_PARTITIONS); unfold MAX_PARTITIONS in *; cbn [andb].
  2,3: assert (u8 (p - 1) >= 4) as Hu
    by (unfold inw in Hp; unfold u8, wrap; Z.to_euclidean_division_equations; lia);
    destruct (Z.geb_spec (u8 (p - 1)) 4); [done|lia].
  2: unfold inw in Hp; lia.
  rewrite (u8_small (p - 1)) by (unfold inw in *; lia).
  destruct (Z.geb_spec (p - 1) 4); [lia|].
  rewrite Ha, idx_ok by (change (length (marks taken)) with 4%nat; lia). cbn [lift].
  rewrite arr_marks by lia. replace (p - 1 + 1) with p by lia.
  case_bool_decide; [done|]. rewrite <-marks_snoc by lia. rewrite <-Ha. reflexivity.
Qed.

(** The inner validation loop, from an index on. *)
Definition check_part_at (ps : list Z) (i : Z) : M sataserver bool :=
  partition ← lift (idx ps i);
  error ← check_part_is_assigned partition;
  if z2b error then modify (fun s => s <| invalid_config := 1 |>);; mret true
  else mret false.

Lemma parts_loop_run (ps : list Z) taken pre suf rest s :
  ps = pre ++ suf ++ rest -> Forall (inw 8) suf -> assigned_parts s = marks taken ->
  exists a, for_until (zseq (length pre) (length suf)) (check_part_at ps) s
  = if fresh taken suf then Ok (false, s <| assigned_parts := marks (taken ++ suf) |>)
    else Ok (true, s <| assigned_parts := a |> <| invalid_config := 1 |>).
Proof.
  revert taken pre s. induction suf as [|p suf IH]; intros taken pre s -> Hb Ha.
  { exists []. rewrite (app_nil_r taken), <-Ha. by destruct s. }
  inversion_clear Hb as [|?? Hp Hsuf]. cbn [length]. rewrite zseq_S. cbn [for_until fresh].
  assert (check_part_at (pre ++ (p :: suf) ++ rest) (Z.of_nat (length pre)) s
    = if fresh1 taken p then Ok (false, s <| assigned_parts := marks (taken ++ [p]) |>)
      else Ok (true, s <| invalid_config := 1 |>)) as E1.
  { unfold check_part_at. rewrite (idx_lookup _ _ p) by apply lookup_mid.
    rewrite (bind_ok _ _ s p s) by done.
    destruct (fresh1 taken p) eqn:Ef.
    - erewrite bind_ok; [|rewrite (check_part_run taken), Ef by done; reflexivity]. done.
    - erewrite bind_ok; [|rewrite (check_part_run taken), Ef by done; reflexivity]. done. }
  destruct (fresh1 taken p); cbn [andb].
  - destruct (IH (taken ++ [p]) (pre ++ [p]) (s <| assigned_parts := marks (taken ++ [p]) |>))
      as [a Ha']; [by rewrite <-app_assoc|done|done|].
    exists a. rewrite (bind_ok _ _ _ _ _ E1). rewrite length_app, Nat.add_comm in Ha'. change (length [p] + length pre)%nat with (S (length pre)) in Ha'.
    rewrite Ha', <-app_assoc. by destruct (fresh _ _).
  - exists (assigned_parts s). rewrite (bind_ok _ _ _ _ _ E1). by destruct s.
Qed.

(** ** Validating the clients *)

Context {L : SataEnvLaws E}.

(** The template's [memcpy] stays within the four-byte array. *)
Definition cfg_fits : Prop :=
  Forall (fun e => (length (snd e) <= 4)%nat) cfg_partitions.
(** ... for the partitions of one client. *)
Definition fits (ps : list Z) : Prop := (length ps <= 4)%nat.

Lemma configured_In k :
  configured k = [] \/ exists b, In (b, configured k) cfg_partitions.
Proof.
  unfold configured. destruct (find _ _) as [[b t]|] eqn:Ef; [|by left].
  right. exists b. by apply find_some in Ef as [? _].
Qed.

Lemma configured_bytes k : Forall (inw 8) (configured k).
Proof using L.
  destruct (configured_In k) as [->|[b Hin]]; [constructor|].
  pose proof cfg_partitions_bytes as H. rewrite List.Forall_forall in H. by apply (H _ Hin).
Qed.

Lemma length_configured k : cfg_fits -> fits (configured k).
Proof using Type.
  intros Hfits. unfold fits. destruct (configured_In k) as [->|[b Hin]]; [cbn; lia|].
  unfold cfg_fits in Hfits. rewrite List.Forall_forall in Hfits. by apply (Hfits _ Hin).
Qed.

Lemma badge_id k :
  s32 (client_enumerate_badge k) = client_enumerate_badge k
  /\ u32 (client_enumerate_badge k) = client_enumerate_badge k.
Proof using L.
  pose proof (client_enumerate_badge_range k).
  split; [apply s32_small|apply u32_small; unfold inw]; lia.
Qed.

Lemma partitions_run k :
  client_get_partitions (client_enumerate_badge k)
    (client_zero <| client_id := client_enumerate_badge k |>
                 <| dataport := client_buf (client_enumerate_badge k) |>)
  = if (length (configured k) <=? 4)%nat then Ok (configured_client k) else Fault OutOfBounds.
Proof using L.
  unfold client_get_partitions, configured_client, configured.
  destruct (find _ _) as [[b t]|]; [|done].
  destruct (Z.leb_spec (Z.of_nat (length t)) MAX_PARTITIONS), (Nat.leb_spec (length t) 4);
    unfold MAX_PARTITIONS in *; try lia; [|done].
  rewrite u8_small by (unfold inw; lia). done.
Qed.

Lemma validate_run k taken l1 l2 s :
  length l1 = k -> clients s = l1 ++ client_zero :: l2 -> assigned_parts s = marks taken ->
  let s1 := s <| clients := l1 ++ configured_client (Z.of_nat k) :: l2 |> in
  let ps := configured (Z.of_nat k) in
  exists a, validate_client (Z.of_nat k) s
  = if negb (length ps <=? 4)%nat then Fault OutOfBounds
    else if fresh taken ps then Ok (false, s1 <| assigned_parts := marks (taken ++ ps) |>)
    else Ok (true, s1 <| assigned_parts := a |> <| invalid_config := 1 |>).
Proof using L.
  intros <- Hc Ha s1 ps. unfold validate_client, get_client.
  destruct (badge_id (Z.of_nat (length l1))) as [-> Hu].
  erewrite bind_ok; cycle 1.
  { erewrite bind_ok; [|reflexivity]. apply lift_ok, idx_lookup. rewrite Hc. apply lookup_mid. }
  cbv zeta. rewrite Hu.
  rewrite partitions_run. fold ps. destruct (Nat.leb_spec (length ps) 4) as [Hl|Hl]; cbn [negb]; [|by exists []].
  erewrite (bind_ok (lift _)) by reflexivity.
  erewrite (bind_ok (set_client _ _)); cycle 1.
  { unfold set_client. erewrite bind_ok; [|reflexivity].
    erewrite bind_ok; [|apply lift_ok; rewrite Hc; apply idx_set_mid]. reflexivity. }
  change (num_partitions (configured_client _)) with (Z.of_nat (length ps)).
  destruct (Z.gtb_spec (Z.of_nat (length ps)) MAX_PARTITIONS);
    [unfold MAX_PARTITIONS, ps in *; lia|].
  rewrite Nat2Z.id.
  change (partitions (configured_client _)) with (ps ++ drop (length ps) (replicate 4 0)).
  destruct (parts_loop_run _ taken [] ps (drop (length ps) (replicate 4 0)) s1 eq_refl)
    as [a E1]; [apply configured_bytes|done|].
  exists a. exact E1.
Qed.

(** A client the validation has given up on, or not reached: it owns no
    sector. *)
Definition harmless (c : client) : Prop :=
  partition_tables c = replicate 4 partition_table_zero /\ capacity c = 0 /\
  0 <= num_partitions c <= 4.

Lemma harmless_configured k : fits (configured k) -> harmless (configured_client k).
Proof using Type. intros H. unfold fits in H. split_and!; try done; cbn; lia. Qed.

(** What start-up makes of the partitions of the clients: the first client for
    which anything is wrong decides. *)
Inductive verdict := Checked (valid : bool) | Overrun.
Fixpoint judge (taken : list Z) (clients : list (list Z)) : verdict :=
  match clients with
  | [] => Checked true
  | ps :: clients =>
      if (length ps <=? 4)%nat then
        if fresh taken ps then judge (taken ++ ps) clients else Checked false
      else Overrun
  end.
Definition config_verdict : verdict := judge [] (map configured (zrange (Z.to_nat client_num_badges))).

(** If all fit, it is the judgement on all their partitions together. *)
Lemma judge_fits taken clients : Forall fits clients -> judge taken clients = Checked (fresh taken (concat clients)).
Proof using Type.
  intros H. revert taken. induction H as [|ps clients Hp _ IH]; intros taken; cbn [judge concat]; [done|].
  destruct (Nat.leb_spec (length ps) 4); [|unfold fits in Hp; lia].
  rewrite fresh_app. by destruct (fresh taken ps).
Qed.
Lemma judge_valid taken clients : judge taken clients = Checked true ->
  Forall fits clients /\ fresh taken (concat clients) = true.
Proof using Type.
  revert taken. induction clients as [|ps clients IH]; intros taken; cbn [judge concat]; [done|].
  destruct (Nat.leb_spec (length ps) 4); [|done]. rewrite fresh_app.
  destruct (fresh taken ps); [|done]. intros (H1 & H2)%IH. split; [by constructor|done].
Qed.

Lemma validate_loop_run m k taken s :
  Forall fits (map configured (zseq 0 k)) ->
  clients s = map configured_client (zseq 0 k) ++ replicate m client_zero ->
  assigned_parts s = marks taken ->
  match judge taken (map configured (zseq k m)) with
  | Overrun => for_until (zseq k m) validate_client s = Fault OutOfBounds
  | Checked true => for_until (zseq k m) validate_client s
      = Ok (false, s <| clients := map configured_client (zseq 0 (k + m)) |>
                     <| assigned_parts := marks (taken ++ concat (map configured (zseq k m))) |>)
  | Checked false => exists a l, for_until (zseq k m) validate_client s
      = Ok (true, s <| clients := l |> <| assigned_parts := a |> <| invalid_config := 1 |>)
      /\ (length l = k + m)%nat /\ Forall harmless l
  end.
Proof using L.
  revert k taken s. induction m as [|m IH]; intros k taken s Hf Hc Ha.
  { cbn [zseq seq map concat for_until judge].
    rewrite !app_nil_r in *. rewrite Nat.add_0_r, <-Hc, <-Ha. by destruct s. }
  cbn [replicate] in Hc. rewrite zseq_S. cbn [map concat for_until judge].
  assert (length (map configured_client (zseq 0 k)) = k) as Hk
    by (unfold zseq; by rewrite !length_map, length_seq).
  destruct (validate_run k taken _ _ s Hk Hc Ha) as [a E1].
  destruct (Nat.leb_spec (length (configured (Z.of_nat k))) 4) as [Hl|Hl]; cbn [negb] in E1.
  2:{ unfold mbind, M_bind. by rewrite E1. }
  destruct (fresh taken (configured (Z.of_nat k))).
  - specialize (IH (S k) (taken ++ configured (Z.of_nat k))
      (s <| clients := map configured_client (zseq 0 k)
              ++ configured_client (Z.of_nat k) :: replicate m client_zero |>
         <| assigned_parts := marks (taken ++ configured (Z.of_nat k)) |>)).
    rewrite (bind_ok _ _ _ _ _ E1). rewrite <-Nat.add_succ_comm, app_assoc.
    destruct (judge _ _) as [[]|]; apply IH; try done;
      (rewrite zseq_snoc, map_app; first [apply Forall_app; split; [done|by constructor] | by rewrite <-app_assoc]).
  - eexists a, _. rewrite (bind_ok _ _ _ _ _ E1). split_and!; [reflexivity| |].
    + rewrite length_app, Hk. cbn [length]. rewrite length_replicate. lia.
    + apply Forall_app. split; [|constructor].
      * rewrite List.Forall_forall in *. intros c (i & <- & Hi)%in_map_iff. apply harmless_configured, Hf. by apply in_map.
      * by apply harmless_configured.
      * apply Forall_replicate. split_and!; cbn; done || lia.
Qed.

(** ** Building the virtual tables *)

Lemma fill_entry_num ph t n : num_sectors (fill_entry ph t n) = num_sectors ph.
Proof.
  unfold fill_entry. cbv zeta.
  destruct (lba_to_chs _) as [[? ?] ?], (lba_to_chs _) as [[? ?] ?]. done.
Qed.

Lemma fill_entry_start ph t n : start_lba (fill_entry ph t n) = n.
Proof.
  unfold fill_entry. cbv zeta.
  destruct (lba_to_chs _) as [[? ?] ?], (lba_to_chs _) as [[? ?] ?]. done.
Qed.

Lemma phys_lookup p : 1 <= p <= MAX_PARTITIONS -> idx disk_tables (p - 1) = Ok (phys p).
Proof using L.
  intros Hp. unfold idx, phys, MAX_PARTITIONS in *. destruct (Z.ltb_spec (p - 1) 0); [lia|].
  pose proof disk_tables_length. rewrite nth_lookup.
  destruct (lookup_lt_is_Some_2 disk_tables (Z.to_nat (p - 1))) as [t ->]; [lia|]. done.
Qed.

Lemma virt_tables_run pre suf rest tabs c sectors s :
  partitions c = pre ++ suf ++ rest ->
  partition_tables c = tabs ++ replicate (4 - length pre) partition_table_zero ->
  length tabs = length pre -> (length pre + length suf <= 4)%nat ->
  Forall (fun p => 1 <= p <= MAX_PARTITIONS) suf ->
  phys_partition_tables s = disk_tables ->
  virt_tables (zseq (length pre) (length suf)) c sectors s
  = Ok (c <| partition_tables := tabs ++ vtables suf sectors
              ++ replicate (4 - length pre - length suf) partition_table_zero |>,
        vend suf sectors, s).
Proof using L.
  revert pre tabs c sectors. induction suf as [|p suf IH]; intros pre tabs c sectors
    Hps Ht Hl Hle Hr Hd.
  { cbn. rewrite Nat.sub_0_r, <-Ht. by destruct c. }
  inversion_clear Hr as [|?? Hp Hr']. cbn [length] in *. rewrite zseq_S. cbn [virt_tables].
  erewrite (bind_ok get) by reflexivity.
  erewrite bind_ok; cycle 1.
  { apply lift_ok, idx_lookup. rewrite Hps. apply lookup_mid. }
  erewrite bind_ok; [|apply lift_ok; rewrite Hd; by apply phys_lookup].
  replace (4 - length pre)%nat with (S (4 - length pre - S (length suf) + length suf)) in Ht by lia.
  cbn [replicate] in Ht. rewrite <-Hl in Ht |- *.
  erewrite bind_ok; [|apply lift_ok, idx_lookup; rewrite Ht; apply lookup_mid].
  cbv zeta. erewrite bind_ok; [|apply lift_ok; rewrite Ht; apply idx_set_mid].
  rewrite fill_entry_num.
  replace (S (length tabs)) with (length (pre ++ [p])) by (rewrite length_app; cbn; lia).
  rewrite (IH (pre ++ [p]) (tabs ++ [fill_entry (phys p) partition_table_zero sectors])); try done.
  - cbn [vtables vend]. rewrite length_app. cbn [length]. do 2 f_equal.
    rewrite <-!app_assoc, Hl. cbn.
    replace (4 - (length pre + 1) - length suf)%nat with (4 - length pre - S (length suf))%nat by lia.
    done.
  - cbn. by rewrite Hps, <-app_assoc.
  - cbn. rewrite length_app, <-app_assoc. cbn. do 2 f_equal.
    rewrite <-Hl. f_equal. lia.
  - rewrite !length_app, Hl. done.
  - rewrite length_app. cbn. lia.
Qed.

Lemma virtualize_run k l1 l2 s :
  length l1 = k -> clients s = l1 ++ configured_client (Z.of_nat k) :: l2 ->
  phys_partition_tables s = disk_tables ->
  fits (configured (Z.of_nat k)) -> Forall (fun p => 1 <= p <= MAX_PARTITIONS) (configured (Z.of_nat k)) ->
  virtualize_client (Z.of_nat k) s
  = Ok (tt, s <| clients := l1 ++ virtual_client (Z.of_nat k) :: l2 |>).
Proof using L.
  intros <- Hc Hd Hl Hr. unfold fits in Hl. unfold virtualize_client, get_client.
  erewrite bind_ok; cycle 1.
  { erewrite bind_ok; [|reflexivity]. apply lift_ok, idx_lookup. rewrite Hc. apply lookup_mid. }
  cbv zeta. set (c := configured_client _).
  assert (num_partitions (c <| partition_tables := replicate 4 partition_table_zero |>)
          = Z.of_nat (length (configured (Z.of_nat (length l1))))) as -> by reflexivity.
  rewrite Nat2Z.id.
  erewrite bind_ok; cycle 1.
  { apply (virt_tables_run [] _ (drop (length (configured (Z.of_nat (length l1)))) (replicate 4 0)) []);
      try done. }
  cbn iota beta. unfold set_client.
  erewrite bind_ok; [|reflexivity].
  erewrite bind_ok; [|apply lift_ok; rewrite Hc; apply idx_set_mid].
  cbn [length app]. rewrite Nat.sub_0_r. reflexivity.
Qed.

Lemma virtualize_loop_run m k s :
  clients s = map virtual_client (zseq 0 k) ++ map configured_client (zseq k m) ->
  phys_partition_tables s = disk_tables -> Forall fits (map configured (zseq k m)) ->
  Forall (fun p => 1 <= p <= MAX_PARTITIONS) (concat (map configured (zseq k m))) ->
  for_each (zseq k m) virtualize_client s
  = Ok (tt, s <| clients := map virtual_client (zseq 0 (k + m)) |>).
Proof using L.
  revert k s. induction m as [|m IH]; intros k s Hc Hd Hf Hr.
  { cbn in *. rewrite app_nil_r in Hc. rewrite Nat.add_0_r, <-Hc. by destruct s. }
  rewrite zseq_S in *. cbn [map concat for_each] in *. apply Forall_app in Hr as [Hr1 Hr2].
  inversion_clear Hf as [|?? Hf1 Hf2].
  erewrite bind_ok; cycle 1.
  { apply (virtualize_run k (map virtual_client (zseq 0 k))); try done.
    unfold zseq. by rewrite !length_map, length_seq. }
  rewrite IH; [| |done|done|done].
  - rewrite <-Nat.add_succ_comm. done.
  - rewrite zseq_snoc, map_app, <-app_assoc. done.
Qed.

(** ** [post_init] *)

(** The state [post_init] leaves: the clients are [l], the flags [a]. *)
Definition booted (a : list Z) (invalid : Z) (l : list client) : sataserver :=
  mkSataserver a disk_part_data disk_tables 1 invalid client_num_badges l
    (packets sataserver_bss) [Lock; Unlock].

Definition all_clients : list client :=
  map virtual_client (zrange (Z.to_nat client_num_badges)).

(** Whatever is configured. *)
Lemma post_init_verdict :
  match config_verdict with
  | Overrun => post_init sataserver_bss = Fault OutOfBounds
  | Checked true =>
      post_init sataserver_bss = Ok (tt, booted (marks (all_parts (Z.to_nat client_num_badges))) 0 all_clients)
  | Checked false => exists a l, length l = Z.to_nat client_num_badges /\ Forall harmless l /\
      post_init sataserver_bss = Ok (tt, booted a 1 l)
  end.
Proof using L.
  set (n := Z.to_nat client_num_badges).
  assert (s32 client_num_badges = client_num_badges) as Hn.
  { pose proof client_num_badges_pos. apply s32_small. lia. }
  set (s1 := mkSataserver (replicate 4 0) disk_part_data disk_tables 0 0 client_num_badges
               (replicate n client_zero) (packets sataserver_bss) [Lock]).
  pose proof (validate_loop_run n 0 [] s1) as H. unfold config_verdict. fold n.
  change (zseq 0 n) with (zrange n) in H. unfold post_init, post_init_tables, sataserver_mux_lock, sataserver_mux_unlock, log_call.
  do 4 (erewrite bind_ok by reflexivity). cbv zeta. cbn [num_clients sata_log sataserver_bss].
  rewrite Hn. fold n. erewrite bind_ok by reflexivity.
  destruct (judge [] (map configured (zrange n))) as [[]|] eqn:Ej.
  - apply judge_valid in Ej as [Hf Hv]. change (concat (map configured (zrange n))) with (all_parts n) in *.
    erewrite (bind_ok (for_until _ _)); [|etransitivity; [|by apply H]; f_equal].
    erewrite bind_ok; cycle 1.
    { apply (virtualize_loop_run n 0); [done|done|done|].
      apply fresh_spec in Hv as [Ef _]. eapply List.Forall_impl; [|exact Ef]. naive_solver. }
    reflexivity.
  - destruct H as (a & l & E1 & Hl & Hh); [done..|]. exists a, l. split; [done|]. split; [done|].
    erewrite (bind_ok (for_until _ _)); [|etransitivity; [|exact E1]; f_equal]. reflexivity.
  - apply bind_fault. etransitivity; [|by apply H]. f_equal.
Qed.

Lemma verdict_fits : cfg_fits -> config_verdict = Checked valid_config.
Proof using Type.
  intros Hf. rewrite valid_config_fresh. apply judge_fits, List.Forall_forall.
  intros ps (k & <- & _)%in_map_iff. by apply length_configured.
Qed.

Context (Hfits : cfg_fits).

Lemma post_init_run :
  exists a l, length l = Z.to_nat client_num_badges /\ Forall harmless l /\
  post_init sataserver_bss
  = Ok (tt, if valid_config
            then booted (marks (all_parts (Z.to_nat client_num_badges))) 0 all_clients
            else booted a 1 l).
Proof using L Hfits.
  pose proof post_init_verdict as H. rewrite verdict_fits in H by done. destruct valid_config; [|exact H].
  exists [], (replicate (Z.to_nat client_num_badges) client_zero). rewrite length_replicate. split_and!; [done| |done].
  apply Forall_replicate. split_and!; cbn; done || lia.
Qed.

(** ** Finding the physical sector *)

Lemma find_sector_run pre suf rest tabs v rst c sector :
  partitions c = pre ++ suf ++ rest ->
  partition_tables c = tabs ++ vtables suf v ++ rst ->
  length tabs = length pre ->
  disk_ok -> Forall (fun p => 1 <= p <= MAX_PARTITIONS) suf ->
  0 <= v -> v + total suf <= 2 ^ 31 -> v <= sector ->
  find_sector disk_tables c (zseq (length pre) (length suf)) sector
  = Ok (option_map (fun x => x - sector) (vdisk suf !! Z.to_nat (sector - v))).
Proof using L.
  intros Hps Ht Hl Hd. clear Hfits. revert pre tabs v Hps Ht Hl.
  induction suf as [|p suf IH]; intros pre tabs v Hps Ht Hl Hr Hv Htot Hs.
  { done. }
  inversion_clear Hr as [|?? Hp Hr']. cbn [length]. rewrite zseq_S. cbn [find_sector].
  destruct (proj1 Hd p Hp) as (Hs0 & Hn0 & Hs1). rewrite total_cons in Htot.
  assert (0 <= total suf) as Hts.
  { apply total_nonneg. intros q Hq. rewrite list.Forall_forall in Hr'. by apply Hd, Hr'. }
  assert (idx (partition_tables c) (Z.of_nat (length pre))
          = Ok (fill_entry (phys p) partition_table_zero v)) as ->.
  { apply idx_lookup. rewrite Ht, <-Hl. cbn [vtables]. apply lookup_mid. }
  cbn [mbind outcome_bind]. cbv zeta. rewrite fill_entry_start, fill_entry_num.
  rewrite u32_small by (unfold inw; lia).
  destruct (Z.geb_spec sector v); [|lia].
  change (vdisk (p :: suf)) with (part_sectors p ++ vdisk suf).
  unfold mbind, outcome_bind.
  destruct (Z.ltb_spec sector (v + num_sectors (phys p))); cbn [andb].
  - assert (idx (partitions c) (Z.of_nat (length pre)) = Ok p) as ->
      by (apply idx_lookup; rewrite Hps; apply lookup_mid).
    rewrite u8_small by (unfold inw, MAX_PARTITIONS in *; lia).
    rewrite phys_lookup by done. rewrite !s32_small by lia. unfold int_sub.
    destruct (Z.leb_spec (- 2 ^ 31) (start_lba (phys p) - v)); [|lia].
    destruct (Z.ltb_spec (start_lba (phys p) - v) (2 ^ 31)); [|lia]. cbn [andb].
    rewrite lookup_app_l by (rewrite length_part_sectors; lia).
    rewrite part_sectors_lookup by lia. cbn. do 2 f_equal. lia.
  - rewrite lookup_app_r by (rewrite length_part_sectors; lia).
    rewrite length_part_sectors.
    specialize (IH (pre ++ [p]) (tabs ++ [fill_entry (phys p) partition_table_zero v])
                  (v + num_sectors (phys p))).
    replace (S (length pre)) with (length (pre ++ [p])) by (rewrite length_app; cbn; lia).
    etransitivity; [apply IH|].
    + by rewrite Hps, <-app_assoc.
    + rewrite Ht, <-app_assoc. cbn [vtables]. by rewrite u32_small by (unfold inw; lia).
    + rewrite !length_app, Hl. done.
    + done.
    + lia.
    + lia.
    + lia.
    + do 3 f_equal. lia.
Qed.

(** ** Finding the client *)

Lemma find_client_run k s :
  0 <= k < client_num_badges -> num_clients s = client_num_badges ->
  clients s = all_clients ->
  find_client (s32 (client_enumerate_badge k)) s = Ok (virtual_client k, s).
Proof using L.
  intros Hk Hn Hc. unfold find_client. rewrite (proj1 (badge_id k)).
  unfold mbind, M_bind, get. rewrite Hn, Hc.
  rewrite take_ge by (unfold all_clients; rewrite length_map, length_zrange; lia).
  enough (forall m acc, (Z.of_nat m <= client_num_badges) ->
    fold_left (fun acc c => if client_id c =? client_enumerate_badge k then Some c else acc)
      (map virtual_client (zrange m)) acc
    = if k <? Z.of_nat m then Some (virtual_client k) else acc) as H.
  { unfold all_clients. rewrite H by lia. by destruct (Z.ltb_spec k (Z.of_nat (Z.to_nat client_num_badges))); [|lia]. }
  induction m as [|m IH]; intros acc Hm.
  { destruct (Z.ltb_spec k (Z.of_nat 0)); [lia|done]. }
  rewrite zrange_S, map_app, fold_left_app, IH by lia. cbn [map fold_left].
  change (client_id (virtual_client ?x)) with (client_enumerate_badge x).
  destruct (Z.eqb_spec (client_enumerate_badge (Z.of_nat m)) (client_enumerate_badge k)) as [e|ne].
  - apply client_enumerate_badge_inj in e as <-; [|lia..].
    destruct (Z.ltb_spec (Z.of_nat m) (Z.of_nat (S m))); [done|lia].
  - assert (k <> Z.of_nat m) by (intros ->; done).
    destruct (Z.ltb_spec k (Z.of_nat m)), (Z.ltb_spec k (Z.of_nat (S m))); done || lia.
Qed.

(** ** Serving requests *)

(** The server after a start with a valid configuration, and any number of
    requests: only the dataports and the disk have changed. *)
Definition running s : Prop :=
  s = (booted (marks (all_parts (Z.to_nat client_num_badges))) 0 all_clients)
        <| packets := packets s |> <| sata_log := sata_log s |>.

Lemma running_fields s :
  running s ->
  done_init s = 1 /\ phys_partition_tables s = disk_tables /\
  num_clients s = client_num_badges /\ clients s = all_clients.
Proof. intros ->. done. Qed.

Lemma running_log s e : running s -> running (s <| sata_log := e |>).
Proof. intros H. unfold running in *. rewrite H at 1. done. Qed.

Lemma running_packets s e : running s -> running (s <| packets := e |>).
Proof. intros H. unfold running in *. rewrite H at 1. done. Qed.

Lemma wp_find_client k s (Q : client -> sataserver -> Prop) :
  running s -> 0 <= k < client_num_badges ->
  Q (virtual_client k) s -> wp (find_client (s32 (client_enumerate_badge k))) Q s.
Proof using L.
  intros Hr Hk HQ. destruct (running_fields s Hr) as (_ & _ & Hn & Hc).
  eapply wp_of_eq; [by apply find_client_run|done].
Qed.

(** The translation of a sector of the virtual disk. *)
Definition translate (k sector : Z) : option Z :=
  vdisk (configured k) !! Z.to_nat (sector - VIRT_START_SECTOR).

Lemma wp_calulate_sector_offset k sector s (Q : option Z -> sataserver -> Prop) :
  running s -> valid_config = true -> disk_ok -> 0 <= k < client_num_badges ->
  VIRT_START_SECTOR <= sector ->
  Q (option_map (fun x => x - sector) (translate k sector)) s ->
  wp (calulate_sector_offset (virtual_client k) sector) Q s.
Proof using L Hfits.
  intros Hr Hv Hd Hk Hs HQ. destruct (running_fields s Hr) as (_ & Hp & _ & _).
  destruct (valid_configured k Hv Hk) as [Hin Hnd].
  pose proof (length_configured k Hfits) as Hl. unfold fits in Hl. pose proof (total_le _ Hd Hin Hnd) as Ht.
  destruct Hd as (Hd1 & Hd2 & Hd3).
  unfold calulate_sector_offset. do 2 wp_step. eapply wp_lift; [|exact HQ]. rewrite Hp.
  change (num_partitions (virtual_client k)) with (Z.of_nat (length (configured k))).
  rewrite Nat2Z.id.
  apply (find_sector_run [] (configured k) (drop (length (configured k)) (replicate 4 0)) []
           VIRT_START_SECTOR (replicate (4 - length (configured k)) partition_table_zero));
    try done. lia.
Qed.

(** A sector the translation yields is a sector of the disk. *)
Lemma translate_range k sector x :
  valid_config = true -> disk_ok -> 0 <= k < client_num_badges ->
  translate k sector = Some x -> 0 <= x < 2 ^ 31.
Proof.
  clear Hfits L. intros Hv Hd Hk Hx. destruct (valid_configured k Hv Hk) as [Hin _].
  apply list_elem_of_lookup_2, list_elem_of_In, vdisk_In in Hx as (p & Hp & Hx).
  rewrite list.Forall_forall in Hin. destruct (proj1 Hd p (Hin p Hp)) as (? & ? & ?).
  unfold part_sectors in Hx. apply in_map_iff in Hx as (i & <- & Hi%in_zrange). lia.
Qed.

(** The server after a request whose calls were [es], ... *)
Definition after (es : list sata_event) s : sataserver :=
  s <| sata_log := sata_log s ++ es |>.
(** ... and which put [data] into the dataport [port]. *)
Definition after_copy (es : list sata_event) (port : Z) (data : list Z) s : sataserver :=
  (after es s) <| packets := fun p =>
    if p =? port then data ++ drop (length data) (packets s p) else packets s p |>.

Lemma rx_run k sector len s :
  running s -> valid_config = true -> disk_ok -> 0 <= k < client_num_badges ->
  VIRT_START_SECTOR <= sector -> len <= BUF_SIZE ->
  client_rx (client_enumerate_badge k) sector len s
  = Ok match translate k sector with
       | None => (0, after [Lock; Unlock] s)
       | Some x =>
           let n := len / SATA_BLK_SIZE in
           let es := [Lock; ReadSectors n x; Unlock] in
           let '(err, data) := sata_read_sectors (sata_log s ++ [Lock]) n x in
           if z2b err then (0, after es s)
           else (len, after_copy es (client_buf (client_enumerate_badge k)) data s)
       end.
Proof using L Hfits.
  intros Hr Hv Hd Hk Hs Hl.
  cut (wp (client_rx (client_enumerate_badge k) sector len) (fun ret s' => (ret, s')
    = match translate k sector with
      | None => (0, after [Lock; Unlock] s)
      | Some x =>
          let n := len / SATA_BLK_SIZE in
          let es := [Lock; ReadSectors n x; Unlock] in
          let '(err, data) := sata_read_sectors (sata_log s ++ [Lock]) n x in
          if z2b err then (0, after es s)
          else (len, after_copy es (client_buf (client_enumerate_badge k)) data s)
      end) s).
  { intros H. apply wp_ok in H as (ret & s' & -> & H). by rewrite H. }
  pose proof (running_fields s Hr) as (Hdi & _). unfold client_rx.
  do 2 wp_step. rewrite Hdi. change (negb (z2b 1)) with false. cbv iota.
  destruct (Z.gtb_spec len BUF_SIZE); [lia|]. wp_step. unfold sataserver_mux_lock, log_call.
  wp_step. wp_step.
  assert (running (after [Lock] s)) as Hr' by (by apply running_log). apply wp_find_client; [done|done|].
  unfold VIRT_START_SECTOR, START_SECTOR in *.
  destruct (Z.eqb_spec 0 sector); [lia|]. destruct (Z.ltb_spec sector 64); [lia|].
  do 2 wp_step. apply (wp_calulate_sector_offset k); [done..|].
  destruct (translate k sector) as [x|] eqn:Ex; cbn [option_map].
  - pose proof (translate_range _ _ _ Hv Hd Hk Ex) as Hx.
    do 2 wp_step. replace (sector + (x - sector)) with x by lia.
    rewrite u32_small by (unfold inw; lia). change (sata_log (update _ _ s)) with (sata_log s ++ [Lock]).
    destruct (sata_read_sectors _ _ x) as [err data]. unfold log_call, packet_write.
    do 2 wp_step. destruct (z2b err).
    + unfold sataserver_mux_unlock, log_call. wp_run.
      unfold after. cbn. by rewrite <-!app_assoc.
    + unfold sataserver_mux_unlock, log_call. wp_run.
      unfold after_copy, after. cbn. by rewrite <-!app_assoc.
  - unfold sataserver_mux_unlock, log_call. wp_run. unfold after. cbn. by rewrite <-!app_assoc.
Qed.

Lemma tx_run k sector len s :
  running s -> valid_config = true -> disk_ok -> 0 <= k < client_num_badges ->
  VIRT_START_SECTOR <= sector -> len <= BUF_SIZE ->
  client_tx (client_enumerate_badge k) sector len s
  = Ok match translate k sector with
       | None => (0, after [Lock; Unlock] s)
       | Some x =>
           let n := len / SATA_BLK_SIZE in
           let data := take (Z.to_nat (n * SATA_BLK_SIZE))
                            (packets s (client_buf (client_enumerate_badge k))) in
           let err := sata_write_sectors (sata_log s ++ [Lock]) n x data in
           (if z2b err then 0 else len, after [Lock; WriteSectors n x data; Unlock] s)
       end.
Proof using L Hfits.
  intros Hr Hv Hd Hk Hs Hl.
  cut (wp (client_tx (client_enumerate_badge k) sector len) (fun ret s' => (ret, s')
    = match translate k sector with
      | None => (0, after [Lock; Unlock] s)
      | Some x =>
          let n := len / SATA_BLK_SIZE in
          let data := take (Z.to_nat (n * SATA_BLK_SIZE))
                           (packets s (client_buf (client_enumerate_badge k))) in
          let err := sata_write_sectors (sata_log s ++ [Lock]) n x data in
          (if z2b err then 0 else len, after [Lock; WriteSectors n x data; Unlock] s)
      end) s).
  { intros H. apply wp_ok in H as (ret & s' & -> & H). by rewrite H. }
  pose proof (running_fields s Hr) as (Hdi & _). unfold client_tx.
  do 2 wp_step. rewrite Hdi. change (negb (z2b 1)) with false. cbv iota.
  destruct (Z.gtb_spec len BUF_SIZE); [lia|]. wp_step. unfold sataserver_mux_lock, log_call.
  wp_step. wp_step.
  assert (running (after [Lock] s)) as Hr' by (by apply running_log). apply wp_find_client; [done|done|].
  destruct (Z.geb_spec sector VIRT_START_SECTOR); [|lia].
  do 2 wp_step. apply (wp_calulate_sector_offset k); [done..|].
  destruct (translate k sector) as [x|] eqn:Ex; cbn [option_map].
  - pose proof (translate_range _ _ _ Hv Hd Hk Ex) as Hx.
    do 2 wp_step. replace (sector + (x - sector)) with x by lia.
    rewrite u32_small by (unfold inw; lia). change (sata_log (update _ _ s)) with (sata_log s ++ [Lock]).
    change (packets (update _ _ s)) with (packets s).
    change (dataport (virtual_client k)) with (client_buf (client_enumerate_badge k)).
    destruct (z2b _); unfold sataserver_mux_unlock, log_call; wp_run;
      unfold after; cbn; by rewrite <-!app_assoc.
  - unfold sataserver_mux_unlock, log_call. wp_run. unfold after. cbn. by rewrite <-!app_assoc.
Qed.

(** The boot sector and the gap before the first partition never reach the
    disk. *)
Lemma rx_low k sector len s :
  running s -> 0 <= k < client_num_badges -> sector < VIRT_START_SECTOR -> len <= BUF_SIZE ->
  client_rx (client_enumerate_badge k) sector len s
  = Ok (len, after_copy [Lock; Unlock] (client_buf (client_enumerate_badge k))
               (if sector =? 0
                then overlay (g_part_data s) PART_OFFSET
                       (concat (map pt_bytes (partition_tables (virtual_client k))))
                else replicate (Z.to_nat len) 0) s).
Proof using L.
  clear Hfits. intros Hr Hk Hs Hl.
  pose proof (running_fields s Hr) as (Hdi & _ & Hn & Hc). unfold client_rx.
  erewrite bind_ok by reflexivity. rewrite Hdi. change (negb (z2b 1)) with false. cbv iota.
  destruct (Z.gtb_spec len BUF_SIZE); [lia|].
  erewrite bind_ok by reflexivity.
  erewrite bind_ok by (by apply find_client_run).
  unfold START_SECTOR. rewrite Z.eqb_sym. destruct (Z.eqb_spec sector 0).
  - unfold mbind, M_bind. cbn. unfold after_copy, after. cbn. by rewrite <-!app_assoc.
  - destruct (Z.ltb_spec sector VIRT_START_SECTOR); [|lia].
    unfold mbind, M_bind. cbn. unfold after_copy, after. cbn. by rewrite <-!app_assoc.
Qed.

Lemma tx_low k sector len s :
  running s -> 0 <= k < client_num_badges -> sector < VIRT_START_SECTOR -> len <= BUF_SIZE ->
  client_tx (client_enumerate_badge k) sector len s = Ok (len, after [Lock; Unlock] s).
Proof using L.
  clear Hfits. intros Hr Hk Hs Hl.
  pose proof (running_fields s Hr) as (Hdi & _ & Hn & Hc). unfold client_tx.
  erewrite bind_ok by reflexivity. rewrite Hdi. change (negb (z2b 1)) with false. cbv iota.
  destruct (Z.gtb_spec len BUF_SIZE); [lia|].
  erewrite bind_ok by reflexivity.
  erewrite bind_ok by (by apply find_client_run).
  destruct (Z.geb_spec sector VIRT_START_SECTOR); [lia|].
  unfold mbind, M_bind. cbn. unfold after. cbn. by rewrite <-!app_assoc.
Qed.

(** ** The entries of the virtual tables *)

Lemma vtables_lookup ps v j p :
  (forall q, q ∈ ps -> 0 <= num_sectors (phys q)) -> 0 <= v -> v + total ps <= 2 ^ 31 ->
  ps !! j = Some p ->
  vtables ps v !! j
  = Some (fill_entry (phys p) partition_table_zero (v + total (take j ps))).
Proof.
  clear Hfits L. revert v j. induction ps as [|q ps IH]; intros v j Hq Hv Ht Hj; [done|].
  rewrite total_cons in Ht. pose proof (Hq q ltac:(set_solver)).
  assert (0 <= total ps) by (apply total_nonneg; set_solver).
  destruct j as [|j]; cbn [vtables].
  - injection Hj as ->. cbn. do 2 f_equal. lia.
  - cbn [take]. rewrite total_cons. cbn [lookup] in *.
    rewrite u32_small by (unfold inw; lia).
    etransitivity; [apply IH; [set_solver|lia|lia|exact Hj]|]. do 2 f_equal. lia.
Qed.

Lemma vend_total ps v :
  (forall q, q ∈ ps -> 0 <= num_sectors (phys q)) -> 0 <= v -> v + total ps <= 2 ^ 31 ->
  vend ps v = v + total ps.
Proof.
  clear Hfits L. revert v. induction ps as [|q ps IH]; intros v Hq Hv Ht; [cbn; lia|].
  rewrite total_cons in *. pose proof (Hq q ltac:(set_solver)).
  assert (0 <= total ps) by (apply total_nonneg; set_solver). cbn [vend].
  rewrite u32_small by (unfold inw; lia). rewrite IH; [lia|set_solver|lia|lia].
Qed.

Lemma fill_entry_copies ph t n :
  boot (fill_entry ph t n) = boot ph /\ sys_id (fill_entry ph t n) = sys_id ph.
Proof.
  clear Hfits L. unfold fill_entry. cbv zeta.
  destruct (lba_to_chs _) as [[? ?] ?], (lba_to_chs _) as [[? ?] ?]. done.
Qed.

Lemma configured_sizes k :
  valid_config = true -> disk_ok -> 0 <= k < client_num_badges ->
  (forall q, q ∈ configured k -> 0 <= num_sectors (phys q)) /\
  VIRT_START_SECTOR + total (configured k) <= 2 ^ 31.
Proof.
  clear Hfits L. intros Hv Hd Hk. destruct (valid_configured k Hv Hk) as [Hin Hnd].
  split.
  - intros q Hq. rewrite list.Forall_forall in Hin. by apply Hd, Hin.
  - pose proof (total_le _ Hd Hin Hnd). destruct Hd as (_ & ? & _). lia.
Qed.

Lemma lookup_all_clients k :
  0 <= k < client_num_badges -> all_clients !! Z.to_nat k = Some (virtual_client k).
Proof.
  clear Hfits L. intros Hk. unfold all_clients, zrange.
  rewrite !lookup_map, lookup_seq_lt by lia. cbn. do 2 f_equal. lia.
Qed.

End Run.

(** * Properties *)

(** A configuration with two clients: partitions 1 and 3 for the first,
    partition 2, which follows partition 1 on the disk, for the second. *)
Definition sata_demo : SataEnv := {|
  SATA_BLK_SIZE := 512;
  PART_OFFSET := 446;
  pt_bytes t := [boot t; head t; start_lba t mod 256; num_sectors t mod 256];
  client_num_badges := 2;
  client_enumerate_badge i := (i + 1) mod 16;
  client_buf b := 1000 + b;
  cfg_partitions := [(1, [1; 3]); (2, [2])];
  disk_tables := [mkPartitionTable 128 0 0 131 0 0 100 4; mkPartitionTable 0 0 0 131 0 0 104 4;
                  mkPartitionTable 0 0 0 7 0 0 200 6; mkPartitionTable 0 0 0 0 0 0 0 0];
  disk_part_data := replicate 512 170;
  sata_read_sectors log n x := (0, replicate (Z.to_nat (512 * n)) x);
  sata_write_sectors log n x data := 0 |}.

#[export] Instance sata_demo_laws : SataEnvLaws sata_demo.
Proof.
  split; try done.
  - intros i. change (0 <= (i + 1) mod 16 < 2 ^ 31).
    pose proof (Z.mod_pos_bound (i + 1) 16). lia.
  - intros i j. change (0 <= i < 2 -> 0 <= j < 2 -> (i + 1) mod 16 = (j + 1) mod 16 -> i = j).
    intros Hi Hj. rewrite !Z.mod_small by lia. lia.
  - cbn. unfold inw. repeat (constructor; cbn; try lia).
Qed.

Lemma sata_demo_fits : @cfg_fits sata_demo.
Proof. unfold cfg_fits. cbn. repeat (constructor; cbn; try lia). Qed.

Ltac eval_demo_disk :=
  repeat match goal with
  | |- context [start_lba (@phys sata_demo ?p)] =>
      let v := eval vm_compute in (start_lba (@phys sata_demo p)) in
      change (start_lba (@phys sata_demo p)) with v
  | |- context [num_sectors (@phys sata_demo ?p)] =>
      let v := eval vm_compute in (num_sectors (@phys sata_demo p)) in
      change (num_sectors (@phys sata_demo p)) with v
  end.

Lemma sata_demo_disk : @disk_ok sata_demo.
Proof.
  split_and!; [|vm_compute; congruence|].
  - unfold MAX_PARTITIONS. intros p Hp.
    assert (p = 1 \/ p = 2 \/ p = 3 \/ p = 4) as [->|[->|[->| ->]]] by lia;
      eval_demo_disk; lia.
  - unfold MAX_PARTITIONS. intros p q x Hp Hq Hpq. unfold part_sectors. rewrite !in_map_iff.
    intros (i & <- & Hi%in_zrange) (i' & E & Hi'%in_zrange). revert Hi Hi' E.
    assert (p = 1 \/ p = 2 \/ p = 3 \/ p = 4) as [->|[->|[->| ->]]] by lia;
    assert (q = 1 \/ q = 2 \/ q = 3 \/ q = 4) as [->|[->|[->| ->]]] by lia; eval_demo_disk; lia.
Qed.

Definition sata_demo_state : sataserver := final (@post_init sata_demo) sataserver_bss.

Lemma sata_demo_running : @running sata_demo sata_demo_state.
Proof. reflexivity. Qed.

(** What an MBR reader makes of a packed sector and cylinder. *)
Definition unpack_sec_cyl (v : Z) : Z * Z :=
  (v .& 0x3f, (v .>> 8) .| ((v .& 0xc0) .<< 2)).

Lemma bits_high w a i : 0 <= w -> inw w a -> w <= i -> Z.testbit a i = false.
Proof. intros Hw Ha Hi. by apply (inw_testbit w a Hw). Qed.

Lemma testbit_u16 a i : 0 <= i -> Z.testbit (u16 a) i = (i <? 16) && Z.testbit a i.
Proof.
  intros. unfold u16, wrap. rewrite <-Z.land_ones, Z.land_spec, Z.testbit_ones_nonneg by lia.
  apply andb_comm.
Qed.

(** The bits of a packed word below 16, one by one. *)
Ltac packed_bits sec cyl :=
  rewrite ?testbit_u16, ?Z.lor_spec, ?Z.shiftr_spec, ?Z.shiftl_spec, ?Z.land_spec by lia;
  cbn -[Z.testbit];
  repeat match goal with
  | |- context [Z.testbit sec ?j] => rewrite (bits_high 6 sec j) by (done || lia)
  | |- context [Z.testbit cyl ?j] => rewrite (bits_high 10 cyl j) by (done || lia)
  end;
  cbn; rewrite ?andb_true_r, ?andb_false_r, ?orb_false_r; done.

Lemma pack_unpack sec cyl :
  inw 6 sec -> inw 10 cyl -> unpack_sec_cyl (pack_sec_cyl sec cyl) = (sec, cyl).
Proof.
  intros Hs Hc. unfold unpack_sec_cyl, pack_sec_cyl.
  assert (forall i, 0 <= i < 16 ->
    In i [0; 1; 2; 3; 4; 5; 6; 7; 8; 9; 10; 11; 12; 13; 14; 15]) as Hin
    by (intros i Hi; cbn; lia).
  f_equal; apply Z.bits_inj'; intros i Hi; (destruct (Z.lt_ge_cases i 16) as [Hi'|Hi'];
    [specialize (Hin i ltac:(lia));
     rewrite ?Z.lor_spec, ?Z.shiftr_spec, ?Z.shiftl_spec, ?Z.land_spec by lia;
     repeat (destruct Hin as [<-|Hin]; [packed_bits sec cyl|]); done|]).
  - rewrite Z.land_spec, (bits_high 6 sec), (bits_high 6 0x3f) by (done || lia). apply andb_false_r.
  - rewrite Z.lor_spec, Z.shiftr_spec, Z.shiftl_spec, Z.land_spec, testbit_u16 by lia.
    rewrite (bits_high 10 cyl), (bits_high 8 0xc0) by (done || lia).
    destruct (Z.ltb_spec (i + 8) 16); [lia|]. apply andb_false_r.
Qed.

Section Properties.
Context {E : SataEnv} {L : SataEnvLaws E}.

(** C4 -- Start-up validates the configuration exactly, for every configuration.
    The clients are taken in order, and the first for which something is wrong
    decides: if it has more than the four partitions there is room for, the copy
    of its list runs over the array (before the number is checked); if one of its
    partitions is not one of the four or has been assigned before, to it or to
    another client, [post_init] completes and [client_get_status] reports
    INVALID_CONF; if nothing is wrong it completes and GOOD is reported.  So with
    at most four partitions for each client it always completes, and reports
    GOOD exactly when the partitions of all clients together are valid and
    different. *)
Theorem sata_config_checked :
  match config_verdict with
  | Overrun => post_init sataserver_bss = Fault OutOfBounds
  | Checked valid => exists s, post_init sataserver_bss = Ok (tt, s) /\
      client_get_status s = Ok (if valid then SATASERVER_STATUS_GOOD else SATASERVER_STATUS_INVALID_CONF, s)
  end /\
  (cfg_fits -> config_verdict = Checked valid_config).
Proof using L.
  split; [|apply verdict_fits]. pose proof post_init_verdict as H. destruct config_verdict as [[]|]; [| |done].
  - eexists. by rewrite H.
  - destruct H as (a & l & _ & _ & ->). by eexists.
Qed.

(** The capacity a client is told. *)
Lemma capacity_run k s :
  disk_ok -> valid_config = true -> running s -> 0 <= k < client_num_badges ->
  client_get_capacity (client_enumerate_badge k) s
  = Ok (VIRT_START_SECTOR + total (configured k), s).
Proof using L.
  intros Hd Hv Hr Hk. destruct (configured_sizes k Hv Hd Hk) as [Hq Ht].
  pose proof (total_nonneg (configured k) Hq). unfold VIRT_START_SECTOR in *.
  destruct (running_fields s Hr) as (Hdone & _ & Hn & Hc).
  unfold client_get_capacity. erewrite bind_ok by reflexivity. rewrite Hdone.
  change (negb (z2b 1)) with false. cbv iota.
  erewrite bind_ok by (by apply find_client_run).
  change (capacity (virtual_client k)) with (vend (configured k) 64).
  rewrite vend_total by (done || lia). by rewrite u32_small by (unfold inw; lia).
Qed.

(** The virtual disk of a client has no holes: after a start with a
    valid configuration the [j]-th entry of its table is the [j]-th configured
    partition, starting where the entry before it ends (the first at sector
    64), and the capacity the client is told is the end of the last one. *)
Lemma sata_virtual_disk (Hfits : cfg_fits) (Hd : disk_ok) (Hv : valid_config = true) :
  exists s, post_init sataserver_bss = Ok (tt, s) /\ running s /\
  forall k, 0 <= k < client_num_badges ->
  client_get_capacity (client_enumerate_badge k) s
  = Ok (VIRT_START_SECTOR + total (configured k), s) /\
  exists c, clients s !! Z.to_nat k = Some c /\
  client_id c = client_enumerate_badge k /\
  forall j p, configured k !! j = Some p ->
  exists t, partition_tables c !! j = Some t /\
    start_lba t = VIRT_START_SECTOR + total (take j (configured k)) /\
    num_sectors t = num_sectors (phys p) /\ boot t = boot (phys p) /\ sys_id t = sys_id (phys p).
Proof using L.
  destruct (post_init_run Hfits) as (a & l & _ & _ & ->). rewrite Hv.
  eexists. split; [reflexivity|]. split; [reflexivity|]. intros k Hk.
  destruct (configured_sizes k Hv Hd Hk) as [Hq Ht].
  pose proof (total_nonneg (configured k) Hq). unfold VIRT_START_SECTOR in *. split.
  - by apply capacity_run.
  - exists (virtual_client k). split; [by apply lookup_all_clients|]. split; [done|].
    intros j p Hj. eexists. split.
    + change (partition_tables (virtual_client k)) with (vtables (configured k) 64
        ++ replicate (4 - length (configured k)) partition_table_zero).
      rewrite lookup_app. rewrite (vtables_lookup _ 64 j p Hq ltac:(lia) ltac:(lia) Hj).
      reflexivity.
    + destruct (fill_entry_copies (phys p) partition_table_zero (64 + total (take j (configured k)))).
      by rewrite fill_entry_start, fill_entry_num.
Qed.

(** C3 -- A client's reads and writes are those of its virtual disk: at any
    virtual sector from 64 on, the driver is asked for the physical sector
    that the concatenation of the client's partitions has there, under the
    lock, and its data are delivered (or its error turned into 0); past the
    capacity the request returns 0 and the driver is not called. *)
Theorem sata_requests_translated (Hfits : cfg_fits) (Hd : disk_ok)
    (Hv : valid_config = true) k sector len s :
  running s -> 0 <= k < client_num_badges -> VIRT_START_SECTOR <= sector -> len <= BUF_SIZE ->
  let port := client_buf (client_enumerate_badge k) in
  let n := len / 512 in
  match vdisk (configured k) !! Z.to_nat (sector - VIRT_START_SECTOR) with
  | None =>
      VIRT_START_SECTOR + total (configured k) <= sector /\
      client_rx (client_enumerate_badge k) sector len s = Ok (0, after [Lock; Unlock] s) /\
      client_tx (client_enumerate_badge k) sector len s = Ok (0, after [Lock; Unlock] s)
  | Some x =>
      sector < VIRT_START_SECTOR + total (configured k) /\
      (let es := [Lock; ReadSectors n x; Unlock] in
       let '(err, data) := sata_read_sectors (sata_log s ++ [Lock]) n x in
       client_rx (client_enumerate_badge k) sector len s
       = Ok (if z2b err then (0, after es s) else (len, after_copy es port data s))) /\
      let data := take (Z.to_nat (n * 512)) (packets s port) in
      let err := sata_write_sectors (sata_log s ++ [Lock]) n x data in
      client_tx (client_enumerate_badge k) sector len s
      = Ok (if z2b err then 0 else len, after [Lock; WriteSectors n x data; Unlock] s)
  end.
Proof using L.
  intros Hr Hk Hs Hl port n.
  pose proof (rx_run Hfits k sector len s Hr Hv Hd Hk Hs Hl) as Hrx.
  pose proof (tx_run Hfits k sector len s Hr Hv Hd Hk Hs Hl) as Htx.
  rewrite SATA_BLK_SIZE_spec in *. unfold translate in *.
  destruct (configured_sizes k Hv Hd Hk) as [Hq _].
  pose proof (length_vdisk (configured k) Hq) as Hlen.
  destruct (vdisk (configured k) !! _) as [x|] eqn:Ex.
  - apply lookup_lt_Some in Ex. split; [lia|]. split; [|exact Htx].
    rewrite Hrx. cbv zeta. fold n. by destruct (sata_read_sectors _ n x) as [err data].
  - apply lookup_ge_None in Ex. split; [lia|]. by rewrite Hrx, Htx.
Qed.

(** The physical sectors a call to the driver names. *)
Definition touches (e : sata_event) : list Z :=
  match e with
  | ReadSectors n x | WriteSectors n x _ => map (fun i => x + i) (zrange (Z.to_nat n))
  | _ => []
  end.

Lemma vdisk_disjoint j k x :
  disk_ok -> valid_config = true -> 0 <= j < client_num_badges -> 0 <= k < client_num_badges ->
  j <> k -> In x (vdisk (configured j)) -> In x (vdisk (configured k)) -> False.
Proof using.
  clear L. intros Hd Hv Hj Hk Hjk (p & Hp & Hxp)%vdisk_In (q & Hq & Hxq)%vdisk_In.
  destruct (valid_configured j Hv Hj) as [Hrj _], (valid_configured k Hv Hk) as [Hrk _].
  rewrite list.Forall_forall in Hrj, Hrk. destruct (Z.eq_dec p q) as [<-|Hpq].
  - by eapply (valid_exclusive j k p).
  - eapply (proj2 (proj2 Hd) p q x); eauto.
Qed.

Lemma single_touch n x y e :
  (e = ReadSectors n x \/ exists data, e = WriteSectors n x data) -> n < 2 ->
  In y (touches e) -> y = x.
Proof.
  intros He Hn Hy.
  assert (In y (map (fun i => x + i) (zrange (Z.to_nat n)))) as Hy'
    by (destruct He as [->|[d ->]]; done).
  apply in_map_iff in Hy' as (i & <- & Hi%in_zrange). lia.
Qed.

(** A request whose driver calls stay on client [j]'s disk is invisible to
    client [k]. *)
Lemma isolated_by (m : M sataserver Z) j k ret s s' es :
  disk_ok -> valid_config = true -> 0 <= j < client_num_badges -> 0 <= k < client_num_badges ->
  j <> k -> running s -> m s = Ok (ret, s') -> s' = after es s \/
    (exists p d, s' = after_copy es p d s) ->
  (forall e y, In e es -> In y (touches e) -> In y (vdisk (configured j))) ->
  exists ret s' es, m s = Ok (ret, s') /\ running s' /\ sata_log s' = sata_log s ++ es /\
  forall e x, In e es -> In x (touches e) -> ~ In x (vdisk (configured k)).
Proof using.
  clear L. intros Hd Hv Hj Hk Hjk Hr Hm Hs' He. exists ret, s', es. split; [done|].
  assert (running s' /\ sata_log s' = sata_log s ++ es) as [Hr' Hl].
  { destruct Hs' as [->|(p & d & ->)]; (split; [|done]).
    - by apply running_log.
    - by apply running_packets, running_log. }
  split; [done|]. split; [done|]. intros e x Hin Hx Hxk.
  eapply (vdisk_disjoint j k x); eauto.
Qed.

Lemma request_isolated (Hfits : cfg_fits) (Hd : disk_ok) (Hv : valid_config = true)
    j k sector len s (m : M sataserver Z) :
  running s -> 0 <= j < client_num_badges -> 0 <= k < client_num_badges -> j <> k ->
  len < 1024 ->
  m = client_rx (client_enumerate_badge j) sector len \/
  m = client_tx (client_enumerate_badge j) sector len ->
  exists ret s' es, m s = Ok (ret, s') /\ running s' /\ sata_log s' = sata_log s ++ es /\
  forall e x, In e es -> In x (touches e) -> ~ In x (vdisk (configured k)).
Proof using L.
  intros Hr Hj Hk Hjk Hlen Hm.
  assert (len <= BUF_SIZE) as Hb by (unfold BUF_SIZE; lia).
  pose proof (fun ret s' es => isolated_by m j k ret s s' es Hd Hv Hj Hk Hjk Hr) as Hcut.
  assert (forall y e, In e [Lock; Unlock] -> In y (touches e) -> False) as Hlock
    by (intros y e [<-|[<-|[]]] []).
  destruct (Z.ltb_spec sector VIRT_START_SECTOR) as [Hs|Hs].
  { destruct Hm as [->| ->]; (eapply Hcut;
      [by first [apply rx_low|apply tx_low]|by eauto|intros ? ? H1 H2; by destruct (Hlock _ _ H1 H2)]). }
  set (n := len / SATA_BLK_SIZE).
  assert (n < 2) as Hn
    by (unfold n; rewrite SATA_BLK_SIZE_spec; Z.to_euclidean_division_equations; lia).
  pose proof (rx_run Hfits j sector len s Hr Hv Hd Hj Hs Hb) as Hrx.
  pose proof (tx_run Hfits j sector len s Hr Hv Hd Hj Hs Hb) as Htx. fold n in Hrx, Htx.
  destruct (translate j sector) as [x|] eqn:Ex; cbv zeta in *.
  - apply list_elem_of_lookup_2, list_elem_of_In in Ex.
    assert (forall c, (c = ReadSectors n x \/ exists d, c = WriteSectors n x d) -> forall e y,
      In e [Lock; c; Unlock] -> In y (touches e) -> In y (vdisk (configured j))) as Htouch.
    { intros c Hc e y [<-|[<-|[<-|[]]]] Hy; try done. by rewrite (single_touch n x y c). }
    destruct (sata_read_sectors _ n x) as [err data]. destruct Hm as [->| ->].
    + destruct (z2b err); (eapply Hcut; [exact Hrx|by eauto|by apply Htouch; eauto]).
    + eapply Hcut; [exact Htx|by eauto|apply Htouch; eauto].
  - destruct Hm as [->| ->]; (eapply Hcut;
      [eassumption|by eauto|intros ? ? H1 H2; by destruct (Hlock _ _ H1 H2)]).
Qed.

(** C2 -- Clients are isolated: whatever sector a client reads or writes, one
    sector at a time, the request succeeds or fails without touching a
    physical sector of another client's disk, and leaves the server running. *)
Theorem sata_isolation (Hfits : cfg_fits) (Hd : disk_ok) (Hv : valid_config = true)
    j k sector len s (m : M sataserver Z) :
  running s -> 0 <= j < client_num_badges -> 0 <= k < client_num_badges -> j <> k ->
  len < 1024 ->
  m = client_rx (client_enumerate_badge j) sector len \/
  m = client_tx (client_enumerate_badge j) sector len ->
  exists ret s', m s = Ok (ret, s') /\ running s' /\
  forall e x, In e (drop (length (sata_log s)) (sata_log s')) -> In x (touches e) ->
  ~ In x (vdisk (configured k)).
Proof using L.
  intros Hr Hj Hk Hjk Hlen Hm.
  destruct (request_isolated Hfits Hd Hv j k sector len s m Hr Hj Hk Hjk Hlen Hm)
    as (ret & s' & es & E1 & Hr' & El & Hes).
  exists ret, s'. split; [done|]. split; [done|]. by rewrite El, drop_app_length.
Qed.

(** A harmless client owns no sector, and a search among harmless clients
    finds a harmless one or none. *)
Lemma find_client_harmless id b :
  Forall harmless (clients b) ->
  find_client id b = Fault AssertFailed \/
  exists c, find_client id b = Ok (c, b) /\ harmless c.
Proof using.
  clear L. intros Hh. unfold find_client, mbind, M_bind, get.
  set (f := fun acc c => _). set (t := take _ _).
  assert (Forall harmless t) as Ht by (by apply Forall_take). clearbody t.
  enough (match fold_left f t None with Some c => harmless c | None => True end) as Hc.
  { destruct (fold_left f t None) as [c|]; [right; by exists c|by left]. }
  assert (match @None client with Some c => harmless c | None => True end) as H0 by done.
  revert H0. generalize (@None client).
  induction Ht as [|c t Hc Ht IH]; intros acc Hacc; [done|].
  cbn [fold_left]. apply IH. unfold f. by destruct (_ =? _).
Qed.

Lemma harmless_no_sector c sector b :
  harmless c -> 0 <= sector -> calulate_sector_offset c sector b = Ok (None, b).
Proof using.
  clear L. intros (Ht & _ & Hn) Hs. unfold calulate_sector_offset. erewrite bind_ok by reflexivity.
  apply lift_ok. generalize (phys_partition_tables b). intros ph.
  assert (Forall (fun i => 0 <= i < 4) (zrange (Z.to_nat (num_partitions c)))) as Hi.
  { apply List.Forall_forall. intros i Hi%in_zrange. lia. }
  induction Hi as [|i ix Hi _ IH]; [done|]. cbn [find_sector]. rewrite Ht.
  assert (idx (replicate 4 partition_table_zero) i = Ok partition_table_zero) as ->.
  { assert (i = 0 \/ i = 1 \/ i = 2 \/ i = 3) as [->|[->|[->| ->]]] by lia; done. }
  cbn [mbind outcome_bind]. unfold mbind, outcome_bind. cbv zeta.
  change (u32 (_ + _)) with 0. destruct (Z.ltb_spec sector 0); [lia|].
  rewrite andb_false_r. exact IH.
Qed.

(** The possible ends of a refused request. *)
Lemma denied_cases (m : M sataserver Z) b :
  m b = Ok (0, b) \/ m b = Fault AssertFailed \/ m b = Ok (0, after [Lock; Unlock] b) ->
  m b = Fault AssertFailed \/ exists s', m b = Ok (0, s') /\
  forall e, In e (drop (length (sata_log b)) (sata_log s')) -> e = Lock \/ e = Unlock.
Proof using.
  clear L. intros [H|[H|H]]; [right; exists b|by left|right; eexists]; (split; [exact H|]).
  - by rewrite drop_all.
  - intros e. change (sata_log (after ?x b)) with (sata_log b ++ x). rewrite drop_app_length.
    intros [<-|[<-|[]]]; auto.
Qed.

(** An invalid configuration gives no client a sector: whatever the
    sender, sector and length, a data request is refused (0, or the failed
    assertion of an unknown sender) and the driver is never called. *)
Lemma sata_invalid_denied (Hfits : cfg_fits) sender sector len :
  valid_config = false -> VIRT_START_SECTOR <= sector ->
  let s := final post_init sataserver_bss in
  forall m, m = client_rx sender sector len \/ m = client_tx sender sector len ->
  m s = Fault AssertFailed \/
  exists s', m s = Ok (0, s') /\
  forall e, In e (drop (length (sata_log s)) (sata_log s')) -> e = Lock \/ e = Unlock.
Proof using L.
  intros Hv Hs s. destruct (post_init_run Hfits) as (a & l & Hl & Hh & Hp). rewrite Hv in Hp.
  assert (s = booted a 1 l) as -> by (unfold s, final; by rewrite Hp).
  set (b := booted a 1 l). intros m Hm. unfold VIRT_START_SECTOR in Hs.
  assert (Forall harmless (clients (after [Lock] b))) as Hhb by done.
  apply denied_cases. destruct Hm as [->| ->]; unfold client_rx, client_tx;
    rewrite (bind_ok get _ b b b) by done; change (negb (z2b (done_init b))) with false; cbv iota;
    (destruct (len >? BUF_SIZE); [by left|]); right;
    rewrite (bind_ok sataserver_mux_lock _ b tt (after [Lock] b)) by done;
    (destruct (find_client_harmless (s32 sender) _ Hhb) as [Hf|(c & Hf & Hc)];
      [left; unfold mbind, M_bind; by rewrite Hf|right]); rewrite (bind_ok _ _ _ _ _ Hf).
  - destruct (Z.eqb_spec START_SECTOR sector); [unfold START_SECTOR in *; lia|].
    destruct (Z.ltb_spec sector VIRT_START_SECTOR); [unfold VIRT_START_SECTOR in *; lia|].
    unfold mbind, M_bind. rewrite harmless_no_sector by (done || lia). reflexivity.
  - destruct (Z.geb_spec sector VIRT_START_SECTOR); [|unfold VIRT_START_SECTOR in *; lia].
    unfold mbind, M_bind. rewrite harmless_no_sector by (done || lia). reflexivity.
Qed.

(** The boot sector and the gap after it are synthesised: reading
    sector 0 delivers the disk's boot sector with the client's virtual
    partition table in it, reading sectors 1 to 63 delivers zeros, writing
    there is acknowledged and dropped, and none of these calls the driver. *)
Lemma sata_boot_area k sector len s :
  running s -> 0 <= k < client_num_badges -> 0 <= sector < VIRT_START_SECTOR ->
  len <= BUF_SIZE ->
  client_rx (client_enumerate_badge k) sector len s
  = Ok (len, after_copy [Lock; Unlock] (client_buf (client_enumerate_badge k))
               (if sector =? 0
                then overlay disk_part_data PART_OFFSET
                       (concat (map pt_bytes (vtables (configured k) VIRT_START_SECTOR
                          ++ replicate (4 - length (configured k)) partition_table_zero)))
                else replicate (Z.to_nat len) 0) s) /\
  client_tx (client_enumerate_badge k) sector len s = Ok (len, after [Lock; Unlock] s).
Proof using L.
  intros Hr Hk Hs Hl. split; [|by apply tx_low; try lia].
  rewrite rx_low by (done || lia). replace (g_part_data s) with disk_part_data; [done|].
  by rewrite Hr.
Qed.

(** The cylinder/head/sector fields of a virtual entry are a valid MBR
    encoding: they are in range, unpack to what was packed, and denote the
    entry's block address whenever it is addressable that way. *)
Lemma sata_chs lba :
  0 <= lba < 2 ^ 32 ->
  let '(cyl, hd, sec) := lba_to_chs lba in
  0 <= cyl <= MAX_NUM_CYL /\ 0 <= hd <= MAX_NUM_HEAD /\ 1 <= sec <= MAX_NUM_SECT /\
  unpack_sec_cyl (pack_sec_cyl sec cyl) = (sec, cyl) /\
  (lba / (MAX_NUM_HEAD * MAX_NUM_SECT) <= MAX_NUM_CYL ->
   (cyl * MAX_NUM_HEAD + hd) * MAX_NUM_SECT + (sec - 1) = lba).
Proof using.
  clear L. intros Hl. unfold lba_to_chs.
  destruct (Z.gtb_spec (lba / (MAX_NUM_HEAD * MAX_NUM_SECT)) MAX_NUM_CYL);
    unfold MAX_NUM_HEAD, MAX_NUM_SECT, MAX_NUM_CYL in *.
  - split_and!; try lia. reflexivity.
  - rewrite (u16_small (lba / _)), (u8_small (_ mod 255)), (u8_small (lba mod 63 + 1))
      by (unfold inw; Z.to_euclidean_division_equations; lia).
    split_and!; try (Z.to_euclidean_division_equations; lia).
    apply pack_unpack; unfold inw; Z.to_euclidean_division_equations; lia.
Qed.

End Properties.

(** ** Witnesses *)

Lemma sata_config_checked_witness :
  @config_verdict sata_demo = Checked (@valid_config sata_demo) /\
  exists s, @post_init sata_demo sataserver_bss = Ok (tt, s) /\
  client_get_status s = Ok (SATASERVER_STATUS_GOOD, s).
Proof.
  destruct (@sata_config_checked sata_demo sata_demo_laws) as [H1 H2]. split; [exact (H2 sata_demo_fits)|].
  exact H1.
Defined.

Lemma sata_virtual_disk_witness :
  exists s, @post_init sata_demo sataserver_bss = Ok (tt, s) /\ @running sata_demo s /\
  forall k, 0 <= k < @client_num_badges sata_demo ->
  client_get_capacity (@client_enumerate_badge sata_demo k) s
  = Ok (VIRT_START_SECTOR + @total sata_demo (@configured sata_demo k), s) /\
  exists c, clients s !! Z.to_nat k = Some c /\
  client_id c = @client_enumerate_badge sata_demo k /\
  forall j p, @configured sata_demo k !! j = Some p ->
  exists t, partition_tables c !! j = Some t /\
    start_lba t = VIRT_START_SECTOR + @total sata_demo (take j (@configured sata_demo k)) /\
    num_sectors t = num_sectors (@phys sata_demo p) /\
    boot t = boot (@phys sata_demo p) /\ sys_id t = sys_id (@phys sata_demo p).
Proof.
  exact (@sata_virtual_disk sata_demo sata_demo_laws sata_demo_fits sata_demo_disk eq_refl).
Defined.

(** Sector 69 of the first client is the second sector of partition 3. *)
Lemma sata_requests_translated_witness :
  @client_tx sata_demo 1 69 512 sata_demo_state
  = Ok (512, after [Lock; WriteSectors 1 201 (replicate 512 0); Unlock] sata_demo_state).
Proof.
  exact (proj2 (proj2 (@sata_requests_translated sata_demo sata_demo_laws sata_demo_fits
    sata_demo_disk eq_refl 0 69 512 sata_demo_state sata_demo_running
    ltac:(change (0 <= 0 < 2); lia) ltac:(unfold VIRT_START_SECTOR; lia)
    ltac:(unfold BUF_SIZE; lia)))).
Defined.

Lemma sata_boot_area_witness :
  @client_rx sata_demo 2 5 3 sata_demo_state
  = Ok (3, after_copy [Lock; Unlock] 1002 [0; 0; 0] sata_demo_state).
Proof.
  exact (proj1 (@sata_boot_area sata_demo sata_demo_laws 1 5 3 sata_demo_state
    sata_demo_running ltac:(change (0 <= 1 < 2); lia) ltac:(unfold VIRT_START_SECTOR; lia)
    ltac:(unfold BUF_SIZE; lia))).
Defined.

Lemma sata_isolation_witness :
  exists ret s', @client_rx sata_demo 1 67 512 sata_demo_state = Ok (ret, s') /\
  @running sata_demo s' /\
  forall e x, In e (drop (length (sata_log sata_demo_state)) (sata_log s')) -> In x (touches e) ->
  ~ In x (@vdisk sata_demo (@configured sata_demo 1)).
Proof.
  apply (@sata_isolation sata_demo sata_demo_laws sata_demo_fits sata_demo_disk eq_refl
    0 1 67 512 sata_demo_state (@client_rx sata_demo 1 67 512) sata_demo_running).
  - change (0 <= 0 < 2). lia.
  - change (0 <= 1 < 2). lia.
  - lia.
  - lia.
  - by left.
Defined.

(** The same disk, with partition 2 given to both clients. *)
Definition sata_bad_demo : SataEnv := {|
  SATA_BLK_SIZE := 512;
  PART_OFFSET := 446;
  pt_bytes := @pt_bytes sata_demo;
  client_num_badges := 2;
  client_enumerate_badge i := (i + 1) mod 16;
  client_buf b := 1000 + b;
  cfg_partitions := [(1, [1; 2]); (2, [2])];
  disk_tables := @disk_tables sata_demo;
  disk_part_data := replicate 512 170;
  sata_read_sectors := @sata_read_sectors sata_demo;
  sata_write_sectors log n x data := 0 |}.

#[export] Instance sata_bad_demo_laws : SataEnvLaws sata_bad_demo.
Proof.
  split; try apply sata_demo_laws.
  cbn. unfold inw. repeat (constructor; cbn; try lia).
Qed.

Lemma sata_invalid_denied_witness :
  let s := final (@post_init sata_bad_demo) sataserver_bss in
  @client_rx sata_bad_demo 1 64 512 s = Fault AssertFailed \/
  exists s', @client_rx sata_bad_demo 1 64 512 s = Ok (0, s') /\
  forall e, In e (drop (length (sata_log s)) (sata_log s')) -> e = Lock \/ e = Unlock.
Proof.
  refine (@sata_invalid_denied sata_bad_demo sata_bad_demo_laws _ 1 64 512 eq_refl _
            (@client_rx sata_bad_demo 1 64 512) (or_introl eq_refl)).
  - unfold cfg_fits. cbn. repeat (constructor; cbn; try lia).
  - unfold VIRT_START_SECTOR. lia.
Defined.

Lemma sata_chs_witness :
  let '(cyl, hd, sec) := lba_to_chs 1000000 in
  0 <= cyl <= MAX_NUM_CYL /\ 0 <= hd <= MAX_NUM_HEAD /\ 1 <= sec <= MAX_NUM_SECT /\
  unpack_sec_cyl (pack_sec_cyl sec cyl) = (sec, cyl) /\
  (1000000 / (MAX_NUM_HEAD * MAX_NUM_SECT) <= MAX_NUM_CYL ->
   (cyl * MAX_NUM_HEAD + hd) * MAX_NUM_SECT + (sec - 1) = 1000000).
Proof. apply (sata_chs 1000000). lia. Defined.

(** * Behaviour outside the contract

    Only the first sector of a request is checked: a write of eight sectors
    at the last sector of the first client's partition 1 goes on into
    partition 2, which belongs to the second client. *)
Lemma sata_multi_sector_overrun :
  exists data s',
  @client_tx sata_demo 1 67 4096 sata_demo_state = Ok (4096, s') /\
  sata_log s' = sata_log sata_demo_state ++ [Lock; WriteSectors 8 103 data; Unlock] /\
  exists x, In x (touches (WriteSectors 8 103 data)) /\
            In x (@vdisk sata_demo (@configured sata_demo 1)).
Proof.
  eexists _, _. split; [vm_compute; reflexivity|]. split; [reflexivity|].
  exists 104. split; vm_compute; tauto.
Qed.

(** A fifth configured partition overflows the client's array before the
    number of partitions is checked. *)
Lemma sata_partitions_overflow :
  @client_get_partitions
    {| SATA_BLK_SIZE := 512; PART_OFFSET := 446; pt_bytes := @pt_bytes sata_demo;
       client_num_badges := 1; client_enumerate_badge i := 1; client_buf b := b;
       cfg_partitions := [(1, [1; 2; 3; 4; 5])]; disk_tables := @disk_tables sata_demo;
       disk_part_data := []; sata_read_sectors log n x := (0, []);
       sata_write_sectors log n x data := 0 |} 1 client_zero = Fault OutOfBounds.
Proof. reflexivity. Qed.
