(* ===== verification/SataInit.v ===== *)
(** The hardware half of the SATA server's start
    (components/Sataserver/src/sataserver.c: init_system, the DMA functions and
    the beginning of post_init): the allocators, the I/O spaces of the PCI
    devices named in the configuration, the DMA buffers and the driver; and
    post_init as a whole, over Sata.

    The list of PCI devices is a string that post_init copies, cuts into tokens
    and reads with sscanf.  The copy is modelled with the memory around it,
    because the C code leaves out its terminator; strtok and sscanf are those of
    the C library.  The seL4 libraries, the allocators and the driver are calls
    (Calls). *)

From Stdlib Require Import Ascii.
From S2P Require Import Prelude Calls Sata.

Open Scope Z_scope.
Open Scope list_scope.

(** * The C library *)

Definition is_nul (c : ascii) : bool := Ascii.eqb c zero.
Definition is_comma (c : ascii) : bool := Ascii.eqb c ","%char.

(** [strspn]: the length of the longest prefix of characters in [p]. *)
Fixpoint strspn (p : ascii -> bool) (l : list ascii) : nat :=
  match l with
  | c :: l => if p c then S (strspn p l) else O
  | [] => O
  end.

(** Memory from the start of a string on, and the pointer [strtok] keeps. *)
Record Tok := mkTok { mem : list ascii; saved : option nat }.
#[export] Instance eta_Tok : Eta Tok := fun t => mkTok (mem t) (saved t).

Definition char_at (m : list ascii) (i : nat) : outcome ascii :=
  match m !! i with Some c => Ok c | None => Fault OutOfBounds end.

(** [strtok(s, ",")] *)
Definition strtok (s : option nat) : M Tok (option nat) :=
  t ← get;
  match (match s with Some _ => s | None => saved t end) with
  | None => mret None
  | Some s =>
      let s := (s + strspn is_comma (drop s (mem t)))%nat in
      c ← lift (char_at (mem t) s);
      if is_nul c then put (t <| saved := None |>);; mret None
      else
        let p := (s + strspn (fun c => negb (is_comma c || is_nul c)) (drop s (mem t)))%nat in
        c ← lift (char_at (mem t) p);
        (if is_nul c then put (t <| saved := None |>)
         else put (t <| mem := <[p := zero]> (mem t) |> <| saved := Some (S p) |>));;
        mret (Some s)
  end.

(** The value of a digit, in any base up to 16. *)
Definition digit (c : ascii) : option Z :=
  let n := Z.of_nat (nat_of_ascii c) in
  if (48 <=? n) && (n <=? 57) then Some (n - 48)
  else if (65 <=? n) && (n <=? 70) then Some (n - 55)
  else if (97 <=? n) && (n <=? 102) then Some (n - 87)
  else None.
Definition is_digit (base : Z) (c : ascii) : bool :=
  match digit c with Some d => d <? base | None => false end.
Definition is_space (c : ascii) : bool :=
  let n := Z.of_nat (nat_of_ascii c) in (n =? 32) || ((9 <=? n) && (n <=? 13)).

Fixpoint read_digits (base acc : Z) (l : list ascii) : Z * list ascii :=
  match l with
  | c :: l' =>
      match digit c with
      | Some d => if d <? base then read_digits base (acc * base + d) l' else (acc, l)
      | None => (acc, l)
      end
  | [] => (acc, l)
  end.

(** Digits, at least one of them. *)
Definition scan_digits (base : Z) (l : list ascii) : option (Z * list ascii) :=
  match l with
  | c :: _ => if is_digit base c then Some (read_digits base 0 l) else None
  | [] => None
  end.

Definition skip_0x (base : Z) (l : list ascii) : list ascii :=
  match l with
  | z :: x :: l' => if (base =? 16) && Ascii.eqb z "0" && (Ascii.eqb x "x" || Ascii.eqb x "X") then l' else l
  | _ => l
  end.

Definition skip_sign (l : list ascii) : bool * list ascii :=
  match l with
  | c :: l' => if Ascii.eqb c "-" then (true, l') else if Ascii.eqb c "+" then (false, l') else (false, l)
  | [] => (false, l)
  end.

(** A [%x] or [%d] conversion to an [int]: [None] when nothing matches.  A number
    that does not fit is undefined behaviour. *)
Definition scan_int (base : Z) (l : list ascii) : outcome (option (Z * list ascii)) :=
  let (neg, l) := skip_sign (drop (strspn is_space l) l) in
  match scan_digits base (skip_0x base l) with
  | None => Ok None
  | Some (v, l) =>
      if v <? (if base =? 16 then 2 ^ 32 else 2 ^ 31) then Ok (Some (s32 (if neg then - v else v), l))
      else Fault SignedOverflow
  end.

Definition expect (x : ascii) (l : list ascii) : option (list ascii) :=
  match l with c :: l' => if Ascii.eqb c x then Some l' else None | [] => None end.

(** * The PCI devices *)

(** The three variables; they are not initialised. *)
Record Bdf := mkBdf { bus : option Z; dev : option Z; fun_ : option Z }.
#[export] Instance eta_Bdf : Eta Bdf := fun b => mkBdf (bus b) (dev b) (fun_ b).

(** [sscanf(s, "%x:%x.%d", &bus, &dev, &fun)]: what does not match is left as it
    was. *)
Definition sscanf_bdf (s : list ascii) (b : Bdf) : outcome Bdf :=
  r ← scan_int 16 s;
  match r with
  | None => mret b
  | Some (v, s) =>
      let b := b <| bus := Some v |> in
      match expect ":" s with
      | None => mret b
      | Some s =>
          r ← scan_int 16 s;
          match r with
          | None => mret b
          | Some (v, s) =>
              let b := b <| dev := Some v |> in
              match expect "." s with
              | None => mret b
              | Some s =>
                  r ← scan_int 10 s;
                  match r with
                  | None => mret b
                  | Some (v, _) => mret (b <| fun_ := Some v |>)
                  end
              end
          end
      end
  end.

Definition init_value (v : option Z) : outcome Z :=
  match v with Some v => Ok v | None => Fault Uninitialised end.
Definition int_value (v : Z) : outcome Z :=
  if (- 2 ^ 31 <=? v) && (v <? 2 ^ 31) then Ok v else Fault SignedOverflow.

(** [pci_bdf_int = bus * 256 + dev * 8 + fun] *)
Definition pci_bdf_int (b : Bdf) : outcome Z :=
  bus ← init_value (bus b);
  dev ← init_value (dev b);
  fun_ ← init_value (fun_ b);
  x ← int_value (bus * 256);
  y ← int_value (dev * 8);
  z ← int_value (x + y);
  int_value (z + fun_).

(** * The start *)

Record ahci_intel_config := mkAhciConfig {
  ahci_bar0 : Z; clb : Z; clb_size : Z; ctba : Z; ctba_size : Z;
  fb : Z; fb_size : Z; data : Z; data_size : Z }.

Inductive sata_call :=
| SetPutchar
| MakeSimple
| BootstrapAllocman
| AddSimpleUntypeds
| MakeVka
| BootstrapVspace
| ReserveBrk (size : Z)
| PsMallocOps
| Malloc (size : Z)
| AllocPath (i : Z)
| GetIospace (domain bdf cap : Z)
| MakeIommuDmaAlloc (n : Z) (iospaces : list Z)
| IoPortOps
| DmaPoolAlloc (size align cached : Z)
| IommuAllocIospace (vaddr size : Z)
| DmaPoolFree (vaddr size : Z)
| DmaGetCptr (vaddr : Z)
| OriginalGetCap (vaddr : Z)
| DmaPin (vaddr size : Z)
| SataInitAhci (c : ahci_intel_config)
| SataInitIde.

(** What is not part of the repository: the answers of the libraries (the slot
    vka_cspace_alloc_path finds, beside its error), the configuration, the
    memory that follows the copy of the device list, and what the stack holds
    where the three variables are. *)
Class SataHw := {
  hw_reply : list sata_call -> Z;
  path_cap : list sata_call -> Z;
  CONFIG_SATASERVER_USE_AHCI : bool;
  num_bdfs : Z;
  pci_bdfs : option (list ascii);
  iospace_id : Z;
  ahcidriver : Z;
  SIZEOF_CSPACEPATH : Z;
  heap_after : list ascii;
  stack_bdf : Bdf }.

(** What each call must return for the code to go on. *)
Definition hw_succeeded (c : sata_call) (r : Z) : bool :=
  match c with
  | BootstrapAllocman | Malloc _ | DmaPoolAlloc _ _ _ => negb (r =? 0)
  | BootstrapVspace | PsMallocOps | AllocPath _ | GetIospace _ _ _ | MakeIommuDmaAlloc _ _
  | IoPortOps | IommuAllocIospace _ _ | SataInitAhci _ | SataInitIde => r =? 0
  | DmaPin vaddr _ => r =? vaddr
  | _ => true
  end.
#[export] Instance hw_answers {H : SataHw} : Answers sata_call :=
  {| reply := hw_reply; succeeded := hw_succeeded |}.

(** The globals of Sata, those of the set-up (whether the two functions of the
    library are replaced), the local variables of [post_init], and the calls. *)
Record Server := mkServer {
  globals : sataserver;
  get_cap_hooked : bool;
  dma_alloc_hooked : bool;
  local_pci_bdfs : Tok;
  bdf : Bdf;
  iospace_caps : list Z;
  hw_calls : list sata_call }.
#[export] Instance eta_Server : Eta Server := fun s =>
  mkServer (globals s) (get_cap_hooked s) (dma_alloc_hooked s) (local_pci_bdfs s) (bdf s)
           (iospace_caps s) (hw_calls s).

#[export] Instance hw_log : CallLog Server sata_call.
Proof.
  refine {| calls_of := hw_calls; add_calls := fun es s => s <| hw_calls := hw_calls s ++ es |> |}.
  - intros s. rewrite app_nil_r. by destruct s.
  - intros e1 e2 s. cbn. by rewrite <-app_assoc.
  - done.
Defined.

Definition on_tok {A} (m : M Tok A) : M Server A :=
  zoom (fun s => Some (local_pci_bdfs s)) (fun t s => s <| local_pci_bdfs := t |>) m.
Definition on_globals {A} (m : M sataserver A) : M Server A :=
  zoom (fun s => Some (globals s)) (fun g s => s <| globals := g |>) m.

Definition BRK_VIRTUAL_SIZE : Z := 400000000.
Definition SIZEOF_CPTR : Z := 8.

Section Start.
Context {E : SataEnv} {H : SataHw}.

(** The result of adding the untypeds is overwritten. *)
Definition init_system : M Server unit :=
  do_ MakeSimple;;
  must_ptr BootstrapAllocman;;
  do_ AddSimpleUntypeds;;
  do_ MakeVka;;
  must BootstrapVspace;;
  do_ (ReserveBrk BRK_VIRTUAL_SIZE).

Definition get_dma_frame_cap (vaddr : Z) : M Server Z :=
  cap ← ask (DmaGetCptr vaddr);
  if cap =? 0 then ask (OriginalGetCap vaddr) else mret cap.

Definition camkes_iommu_dma_alloc (size align cached : Z) : M Server Z :=
  vaddr ← ask (DmaPoolAlloc size align cached);
  if vaddr =? 0 then mret 0
  else
    error ← ask (IommuAllocIospace vaddr size);
    if z2b error then do_ (DmaPoolFree vaddr size);; mret 0
    else mret vaddr.

(** [ps_dma_alloc] calls the function of the manager: it is the one above when
    it has been installed, and what the library made otherwise, which this
    program never calls. *)
Definition ps_dma_alloc (size align cached : Z) : M Server Z :=
  s ← get;
  if dma_alloc_hooked s then camkes_iommu_dma_alloc size align cached else fail AssertFailed.

(** A buffer, and its address as the device sees it. *)
Definition dma_buffer (size : Z) : M Server Z :=
  buf ← ps_dma_alloc size 4 0;
  assertC (negb (buf =? 0));;
  phys ← ask (DmaPin buf size);
  assertC (phys =? buf);;
  mret buf.

(** The copy has as many characters as the string, and no terminator. *)
Definition copy_bdfs (s : list ascii) : M Server unit :=
  must_ptr (Malloc (Z.of_nat (length s)));;
  on_tok (put (mkTok (s ++ heap_after) None)).

(** The body of the loop once it has a token. *)
Definition claim_token (cap : Z) (pci_bdf : option nat) : M Server unit :=
  match pci_bdf with
  | None => fail AssertFailed
  | Some p =>
      s ← get;
      b ← lift (sscanf_bdf (drop p (mem (local_pci_bdfs s))) (bdf s));
      id ← lift (pci_bdf_int b);
      modify (fun s => s <| bdf := b |>);;
      must (GetIospace iospace_id id cap);;
      modify (fun s => s <| iospace_caps := iospace_caps s ++ [cap] |>)
  end.

(** The body; [first] is the token found before the loop. *)
Definition claim_device (first : option nat) (i : Z) : M Server unit :=
  must (AllocPath i);;
  s ← get;
  let cap := path_cap (hw_calls s) in
  pci_bdf ← (if negb (i =? 0) then on_tok (strtok None) else mret first);
  claim_token cap pci_bdf.

Definition claim_devices : M Server unit :=
  assertC (negb (num_bdfs <=? 0));;
  must_ptr (Malloc (num_bdfs * SIZEOF_CPTR));;
  must_ptr (Malloc (num_bdfs * SIZEOF_CSPACEPATH));;
  match pci_bdfs with
  | None => fail AssertFailed
  | Some s =>
      copy_bdfs s;;
      first ← on_tok (strtok (Some O));
      for_each (zrange (Z.to_nat num_bdfs)) (claim_device first)
  end.

Definition init_ahci : M Server unit :=
  claim_devices;;
  modify (fun s => s <| get_cap_hooked := true |>);;
  s ← get;
  must (MakeIommuDmaAlloc num_bdfs (iospace_caps s));;
  modify (fun s => s <| dma_alloc_hooked := true |>);;
  must IoPortOps;;
  clb_buf ← dma_buffer BUF_SIZE;
  ctba_buf ← dma_buffer (BUF_SIZE * 16);
  fb_buf ← dma_buffer BUF_SIZE;
  data_buf ← dma_buffer BUF_SIZE;
  must (SataInitAhci (mkAhciConfig ahcidriver clb_buf BUF_SIZE ctba_buf (BUF_SIZE * 16)
                                   fb_buf BUF_SIZE data_buf BUF_SIZE)).

Definition post_init : M Server unit :=
  do_ SetPutchar;;
  on_globals sataserver_mux_lock;;
  init_system;;
  must PsMallocOps;;
  (if CONFIG_SATASERVER_USE_AHCI then init_ahci else must SataInitIde);;
  on_globals post_init_tables.

(** The globals before the first call. *)
Definition server_bss : Server := mkServer sataserver_bss false false (mkTok [] None) stack_bdf [] [].

End Start.

(** * Reading the list *)

(** An entry of the list, as the configuration describes the format: bus and
    device in hexadecimal, function in decimal. *)
Record device := mkDevice { d_bus : list ascii; d_dev : list ascii; d_fun : list ascii }.
Definition device_text (d : device) : list ascii :=
  d_bus d ++ ":"%char :: d_dev d ++ "."%char :: d_fun d.

Definition value (base : Z) (l : list ascii) : Z := fst (read_digits base 0 l).
Definition number_ok (base limit : Z) (l : list ascii) : bool :=
  negb (bool_decide (l = [])) && forallb (is_digit base) l && (value base l <? limit).
Definition device_ok (d : device) : bool :=
  number_ok 16 256 (d_bus d) && number_ok 16 32 (d_dev d) && number_ok 10 8 (d_fun d).

(** The number the kernel knows the device by. *)
Definition device_id (d : device) : Z :=
  value 16 (d_bus d) * 256 + value 16 (d_dev d) * 8 + value 10 (d_fun d).
Definition device_bdf (d : device) : Bdf :=
  mkBdf (Some (value 16 (d_bus d))) (Some (value 16 (d_dev d))) (Some (value 10 (d_fun d))).

(** The list as it is configured, and with some entries cut off by [strtok]. *)
Fixpoint join (ds : list device) : list ascii :=
  match ds with
  | [] => []
  | [d] => device_text d
  | d :: ds => device_text d ++ ","%char :: join ds
  end.
Definition cut (ds : list device) : list ascii := concat (map (fun d => device_text d ++ [zero]) ds).
Definition uncut (ds : list device) : list ascii := match ds with [] => [] | _ => join ds ++ [zero] end.

Lemma read_digits_run base l acc c rest :
  forallb (is_digit base) l = true -> is_digit base c = false ->
  read_digits base acc (l ++ c :: rest) = (fst (read_digits base acc l), c :: rest).
Proof.
  intros Hl Hc. revert acc. induction l as [|x l IH]; intros acc; cbn in *.
  - unfold is_digit in Hc. destruct (digit c) as [v|]; [by rewrite Hc|done].
  - apply andb_prop in Hl as [Hx Hl]. unfold is_digit in Hx. destruct (digit x) as [v|]; [|done].
    rewrite Hx. by apply IH.
Qed.

(** A digit starts neither white space, nor a sign, nor a prefix. *)
Lemma digit_cases base c : is_digit base c = true ->
  is_space c = false /\ Ascii.eqb c "-" = false /\ Ascii.eqb c "+" = false /\ is_comma c = false /\ is_nul c = false.
Proof.
  intros H. assert (exists v, digit c = Some v) as [v Hv].
  { unfold is_digit in H. destruct (digit c); [by eexists|done]. }
  clear H. destruct c as [[] [] [] [] [] [] [] []]; vm_compute in Hv; try discriminate Hv; by vm_compute.
Qed.
Lemma not_x base c : is_digit base c = true -> Ascii.eqb c "x" = false /\ Ascii.eqb c "X" = false.
Proof.
  intros H. assert (exists v, digit c = Some v) as [v Hv].
  { unfold is_digit in H. destruct (digit c); [by eexists|done]. }
  clear H. destruct c as [[] [] [] [] [] [] [] []]; vm_compute in Hv; try discriminate Hv; by vm_compute.
Qed.

Lemma value_nonneg base l acc : 0 <= base -> 0 <= acc -> 0 <= fst (read_digits base acc l).
Proof.
  intros Hb. revert acc. induction l as [|c l IH]; intros acc Ha; cbn; [done|].
  destruct (digit c) as [v|] eqn:Hv; [|done]. destruct (v <? base); [|done]. apply IH.
  assert (0 <= v); [|nia]. revert Hv. unfold digit.
  repeat case_match; intros; simplify_eq; rewrite ?andb_true_iff, ?Z.leb_le in *; lia.
Qed.

Lemma scan_int_run base limit l c rest :
  base = 16 \/ base = 10 -> limit <= 256 -> number_ok base limit l = true ->
  is_digit base c = false -> Ascii.eqb c "x" = false -> Ascii.eqb c "X" = false ->
  scan_int base (l ++ c :: rest) = Ok (Some (value base l, c :: rest)).
Proof.
  intros Hb Hlim Hl Hc Hx HX. unfold number_ok in Hl. apply andb_prop in Hl as [Hl Hv].
  apply andb_prop in Hl as [Hne Hd]. destruct l as [|a l]; [done|]. cbn [forallb] in Hd.
  apply andb_prop in Hd as [Ha Hd]. destruct (digit_cases _ _ Ha) as (Hsp & Hm & Hp & _ & _).
  unfold scan_int. cbn [app strspn drop]. rewrite Hsp. cbn [drop skip_sign]. rewrite Hm, Hp.
  assert (skip_0x base (a :: l ++ c :: rest) = a :: l ++ c :: rest) as ->.
  { destruct l as [|b l]; cbn [app skip_0x]; [by rewrite Hx, HX, andb_false_r|].
    cbn [forallb] in Hd. apply andb_prop in Hd as [Hb' _].
    destruct (not_x _ _ Hb') as [-> ->]. by rewrite andb_false_r. }
  unfold scan_digits. rewrite Ha.
  change (a :: l ++ c :: rest) with ((a :: l) ++ c :: rest).
  rewrite read_digits_run; [|cbn; by rewrite Ha, Hd|done]. fold (value base (a :: l)).
  assert (0 <= value base (a :: l)) by (apply value_nonneg; lia).
  apply Z.ltb_lt in Hv. rewrite (proj2 (Z.ltb_lt _ _)) by (case_match; lia).
  by rewrite s32_small by lia.
Qed.

Lemma sscanf_device d c rest b :
  device_ok d = true -> is_digit 10 c = false -> Ascii.eqb c "x" = false -> Ascii.eqb c "X" = false ->
  sscanf_bdf (device_text d ++ c :: rest) b = Ok (device_bdf d).
Proof.
  intros Hd Hc Hx HX. unfold device_ok in Hd. apply andb_prop in Hd as [Hd Hf]. apply andb_prop in Hd as [Hb Hv].
  unfold sscanf_bdf, device_text. rewrite <-!app_assoc. cbn [app]. rewrite <-app_assoc. cbn [app].
  rewrite (scan_int_run 16 256) by (try done; lia). cbn.
  rewrite (scan_int_run 16 32) by (try done; lia). cbn.
  by rewrite (scan_int_run 10 8) by (try done; lia).
Qed.

Lemma number_range base limit l : 0 <= base -> number_ok base limit l = true -> 0 <= value base l < limit.
Proof.
  intros Hb H. unfold number_ok in H. apply andb_prop in H as [_ H%Z.ltb_lt]. split; [|done]. by apply value_nonneg.
Qed.
Lemma device_ranges d : device_ok d = true ->
  0 <= value 16 (d_bus d) < 256 /\ 0 <= value 16 (d_dev d) < 32 /\ 0 <= value 10 (d_fun d) < 8.
Proof.
  unfold device_ok. rewrite !andb_true_iff. intros [[H1 H2] H3].
  split; [|split]; by apply number_range.
Qed.

Lemma pci_bdf_int_run d : device_ok d = true -> pci_bdf_int (device_bdf d) = Ok (device_id d).
Proof.
  intros Hd. destruct (device_ranges d Hd) as (? & ? & ?). unfold pci_bdf_int, device_id. cbn.
  unfold int_value. do 4 (rewrite (proj2 (Z.leb_le _ _)), (proj2 (Z.ltb_lt _ _)) by lia; cbn). done.
Qed.

(** Different devices have different numbers. *)
Lemma device_id_inj d d' : device_ok d = true -> device_ok d' = true -> device_id d = device_id d' ->
  device_bdf d = device_bdf d'.
Proof.
  intros (? & ? & ?)%device_ranges (? & ? & ?)%device_ranges. unfold device_id, device_bdf. intros E.
  assert (value 16 (d_bus d) = value 16 (d_bus d') /\ value 16 (d_dev d) = value 16 (d_dev d') /\
          value 10 (d_fun d) = value 10 (d_fun d')) as (-> & -> & ->) by lia.
  done.
Qed.

(** ** The tokens *)

Definition plain (l : list ascii) : bool := forallb (fun c => negb (is_comma c || is_nul c)) l.

Lemma plain_app l l' : plain (l ++ l') = plain l && plain l'.
Proof. apply forallb_app. Qed.
Lemma plain_cons c l : plain (c :: l) = negb (is_comma c || is_nul c) && plain l.
Proof. done. Qed.

Lemma digits_plain base l : forallb (is_digit base) l = true -> plain l = true.
Proof.
  unfold plain. rewrite !forallb_forall. intros H x Hx. by destruct (digit_cases _ _ (H x Hx)) as (_ & _ & _ & -> & ->).
Qed.
Lemma plain_device d : device_ok d = true -> plain (device_text d) = true.
Proof.
  unfold device_ok, number_ok. rewrite !andb_true_iff. intros [[[[_ H1] _] [[_ H2] _]] [[_ H3] _]].
  unfold device_text. rewrite plain_app, plain_cons, plain_app, plain_cons.
  by rewrite (digits_plain _ _ H1), (digits_plain _ _ H2), (digits_plain _ _ H3).
Qed.
Lemma device_text_cons d : device_ok d = true -> exists c l, device_text d = c :: l /\ is_comma c = false /\ is_nul c = false.
Proof.
  intros Hd. pose proof (plain_device d Hd) as Hp. destruct (device_text d) as [|c l] eqn:Et.
  - unfold device_text in Et. by destruct (d_bus d).
  - exists c, l. cbn in Hp. destruct (is_comma c), (is_nul c); done.
Qed.

Lemma strspn_plain l c rest : plain l = true -> is_comma c || is_nul c = true ->
  strspn (fun c => negb (is_comma c || is_nul c)) (l ++ c :: rest) = length l.
Proof.
  intros Hl Hc. induction l as [|x l IH]; cbn in *; [by rewrite Hc|]. apply andb_prop in Hl as [-> Hl]. by rewrite IH.
Qed.

Lemma char_at_mid l c rest : char_at (l ++ c :: rest) (length l) = Ok c.
Proof. unfold char_at. by rewrite lookup_mid. Qed.

(** A call of [strtok] that starts at a token. *)
Lemma strtok_run a pre tok c post sv :
  (match a with Some _ => a | None => sv end) = Some (length pre) ->
  (exists x l, tok = x :: l /\ is_comma x = false /\ is_nul x = false) -> plain tok = true -> is_comma c || is_nul c = true ->
  strtok a (mkTok (pre ++ tok ++ c :: post) sv) =
  Ok (Some (length pre), mkTok (pre ++ tok ++ zero :: post)
        (if is_nul c then None else Some (length (pre ++ tok ++ [zero])))).
Proof.
  intros Ha (x & l & Et & Hx1 & Hx2) Hp Hc. unfold strtok. rewrite (bind_ok get _ _ _ _ eq_refl). cbn [mem saved].
  rewrite Ha, drop_app_length.
  assert (strspn is_comma (tok ++ c :: post) = O) as -> by (rewrite Et; cbn; by rewrite Hx1).
  rewrite Nat.add_0_r.
  assert (char_at (pre ++ tok ++ c :: post) (length pre) = Ok x) as E1 by (rewrite Et; apply char_at_mid).
  assert (char_at (pre ++ tok ++ c :: post) (length pre + length tok) = Ok c) as E2
    by (rewrite app_assoc, <-length_app; apply char_at_mid).
  rewrite (bind_ok _ _ _ x _ (lift_ok _ _ _ E1)), Hx2; cbn [mem]; rewrite ?drop_app_length, strspn_plain by done.
  rewrite (bind_ok _ _ _ c _ (lift_ok _ _ _ E2)).
  destruct (is_nul c) eqn:Hn; cbn.
  - by apply Ascii.eqb_eq in Hn as ->.
  - assert (S (length pre + length tok) = length (pre ++ tok ++ [zero])) as E3
      by (rewrite !length_app; cbn; lia).
    assert (forall l : list ascii, <[length l:=zero]> (l ++ c :: post) = l ++ zero :: post) as E4.
    { intros l0. by rewrite insert_app_r_alt, Nat.sub_diag by done. }
    cbn. rewrite E3, <-length_app, (app_assoc pre tok (c :: post)), E4.
    by rewrite <-app_assoc.
Qed.

Lemma cut_snoc ds d : cut (ds ++ [d]) = cut ds ++ device_text d ++ [zero].
Proof. unfold cut. rewrite map_app, concat_app. cbn. by rewrite app_nil_r. Qed.

Lemma strtok_device a ds d rest after sv :
  device_ok d = true -> (match a with Some _ => a | None => sv end) = Some (length (cut ds)) ->
  strtok a (mkTok (cut ds ++ uncut (d :: rest) ++ after) sv) =
  Ok (Some (length (cut ds)), mkTok (cut (ds ++ [d]) ++ uncut rest ++ after)
        (match rest with [] => None | _ => Some (length (cut (ds ++ [d]))) end)).
Proof.
  intros Hd Ha. rewrite cut_snoc.
  assert (uncut (d :: rest) ++ after =
    device_text d ++ (match rest with [] => zero | _ => ","%char end) :: uncut rest ++ after) as ->.
  { destruct rest as [|d' rest]; unfold uncut; cbn [join]; by rewrite <-?app_assoc. }
  rewrite strtok_run; [|done|by apply device_text_cons|by apply plain_device|by destruct rest].
  rewrite <-!app_assoc. cbn. by destruct rest.
Qed.

(** * The calls *)

Section Calls.
Context {E : SataEnv} {H : SataHw}.

Definition init_calls : list sata_call :=
  [MakeSimple; BootstrapAllocman; AddSimpleUntypeds; MakeVka; BootstrapVspace; ReserveBrk BRK_VIRTUAL_SIZE].

Lemma init_system_straight : straight init_system init_calls.
Proof.
  unfold init_system, init_calls. repeat (apply (straight_bind _ _ [_]); [straight1|]). straight1.
Qed.

(** The slots and I/O spaces of the devices [ds], the first of which is device
    [i], after the calls [l]; and the capabilities. *)
Fixpoint claims (l : list sata_call) (i : Z) (ds : list device) : list sata_call * list Z :=
  match ds with
  | [] => ([], [])
  | d :: ds =>
      let cap := path_cap (l ++ [AllocPath i]) in
      let es := [AllocPath i; GetIospace iospace_id (device_id d) cap] in
      let r := claims (l ++ es) (i + 1) ds in (es ++ fst r, cap :: snd r)
  end.

Context (Hall : all_succeed).

Lemma must_run c s : (forall r, succeeded c r = (r =? 0)) -> must c s = Ok (tt, add_calls [c] s).
Proof using Hall. intros Hc. by rewrite (straight_must c Hc), all_checked. Qed.
Lemma must_ptr_run c s : (forall r, succeeded c r = negb (r =? 0)) -> must_ptr c s = Ok (tt, add_calls [c] s).
Proof using Hall. intros Hc. by rewrite (straight_must_ptr c Hc), all_checked. Qed.

Lemma claim_token_run cap p d post s :
  device_ok d = true -> drop p (mem (local_pci_bdfs s)) = device_text d ++ zero :: post ->
  claim_token cap (Some p) s =
  Ok (tt, mkServer (globals s) (get_cap_hooked s) (dma_alloc_hooked s) (local_pci_bdfs s) (device_bdf d)
            (iospace_caps s ++ [cap]) (hw_calls s ++ [GetIospace iospace_id (device_id d) cap])).
Proof using Hall.
  intros Hd Ht. unfold claim_token. rewrite (bind_ok get _ _ _ _ eq_refl), Ht.
  rewrite (bind_ok _ _ _ _ _ (lift_ok _ _ _ (sscanf_device d zero post (bdf s) Hd eq_refl eq_refl eq_refl))).
  rewrite (bind_ok _ _ _ _ _ (lift_ok _ _ _ (pci_bdf_int_run d Hd))).
  rewrite (bind_ok (modify _) _ _ _ _ eq_refl). by rewrite (bind_ok _ _ _ _ _ (must_run (GetIospace iospace_id (device_id d) cap) _ (fun _ => eq_refl))).
Qed.

(** [strtok]'s state once [ds] have been cut off, and the server's once they have
    been claimed. *)
Definition toks (ds rest : list device) (after : list ascii) : Tok :=
  mkTok (cut ds ++ uncut rest ++ after) (match rest with [] => None | _ => Some (length (cut ds)) end).
Definition claimed (ds rest : list device) (after : list ascii) (es : list sata_call) (caps : list Z) (s : Server) : Server :=
  mkServer (globals s) (get_cap_hooked s) (dma_alloc_hooked s) (toks ds rest after)
    (fold_left (fun _ d => device_bdf d) ds (bdf s)) (iospace_caps s ++ caps) (hw_calls s ++ es).

Lemma drop_cut ds d rest after : device_ok d = true ->
  exists post, drop (length (cut ds)) (mem (toks (ds ++ [d]) rest after)) = device_text d ++ zero :: post.
Proof using Type.
  intros Hd. eexists. cbn [mem toks]. rewrite cut_snoc, <-!app_assoc, drop_app_length. reflexivity.
Qed.

Lemma claim_first d rest after s : device_ok d = true ->
  let cap := path_cap (hw_calls s ++ [AllocPath 0]) in
  claim_device (Some O) 0 (s <| local_pci_bdfs := toks [d] rest after |>) =
  Ok (tt, claimed [d] rest after [AllocPath 0; GetIospace iospace_id (device_id d) cap] [cap] s).
Proof using Hall.
  intros Hd cap. unfold claim_device. rewrite (bind_ok _ _ _ _ _ (must_run (AllocPath 0) _ (fun _ => eq_refl))).
  rewrite (bind_ok get _ _ _ _ eq_refl). cbn [Z.eqb negb]. rewrite (bind_ok (mret _) _ _ _ _ eq_refl).
  destruct (drop_cut [] d rest after Hd) as [post Hp].
  rewrite (claim_token_run _ _ d post) by done. cbn -[toks]. unfold claimed, cap.
  by rewrite <-app_assoc.
Qed.

Lemma claim_step first i ds d rest after es caps s :
  device_ok d = true -> i <> 0 ->
  let cap := path_cap (hw_calls s ++ es ++ [AllocPath i]) in
  claim_device first i (claimed ds (d :: rest) after es caps s) =
  Ok (tt, claimed (ds ++ [d]) rest after
            (es ++ [AllocPath i; GetIospace iospace_id (device_id d) cap]) (caps ++ [cap]) s).
Proof using Hall.
  intros Hd Hi cap. unfold claim_device. rewrite (bind_ok _ _ _ _ _ (must_run (AllocPath i) _ (fun _ => eq_refl))).
  rewrite (bind_ok get _ _ _ _ eq_refl). rewrite (proj2 (Z.eqb_neq _ _) Hi). cbn [negb].
  destruct (drop_cut ds d rest after Hd) as [post Hp].
  assert (strtok None (toks ds (d :: rest) after) = Ok (Some (length (cut ds)), toks (ds ++ [d]) rest after)) as E1
    by by apply strtok_device.
  erewrite (bind_ok (on_tok _)); [|unfold on_tok, zoom; cbn -[strtok toks]; rewrite E1; reflexivity].
  rewrite (claim_token_run _ _ d post) by done. cbn -[toks]. unfold claimed, cap.
  by rewrite fold_left_app, <-!app_assoc.
Qed.

Lemma claim_loop first ds rest after es caps k s :
  forallb device_ok rest = true -> (0 < k)%nat ->
  let r := claims (hw_calls s ++ es) (Z.of_nat k) rest in
  for_each (map Z.of_nat (seq k (length rest))) (claim_device first) (claimed ds rest after es caps s) =
  Ok (tt, claimed (ds ++ rest) [] after (es ++ fst r) (caps ++ snd r) s).
Proof using Hall.
  revert ds es caps k. induction rest as [|d rest IH]; intros ds es caps k Hr Hk; cbn -[claimed claim_device].
  - by rewrite !app_nil_r.
  - cbn in Hr. apply andb_prop in Hr as [Hd Hr].
    rewrite (bind_ok _ _ _ _ _ (claim_step first (Z.of_nat k) ds d rest after es caps s Hd ltac:(lia))).
    rewrite IH by (done || lia). rewrite <-!app_assoc. cbn [app]. rewrite Nat2Z.inj_succ. done.
Qed.

Lemma copy_bdfs_run l s :
  copy_bdfs l s = Ok (tt, add_calls [Malloc (Z.of_nat (length l))] s <| local_pci_bdfs := mkTok (l ++ heap_after) None |>).
Proof using Hall.
  unfold copy_bdfs. by rewrite (bind_ok _ _ _ _ _ (must_ptr_run (Malloc (Z.of_nat (length l))) _ (fun _ => eq_refl))).
Qed.

Lemma first_strtok_run d ds after s :
  device_ok d = true -> local_pci_bdfs s = mkTok (join (d :: ds) ++ zero :: after) None ->
  on_tok (strtok (Some O)) s = Ok (Some O, s <| local_pci_bdfs := toks [d] ds after |>).
Proof using Type.
  intros Hd Hs. unfold on_tok, zoom. rewrite Hs.
  assert (join (d :: ds) ++ zero :: after = cut [] ++ uncut (d :: ds) ++ after) as ->.
  { unfold uncut, cut. cbn [map concat app]. by rewrite <-app_assoc. }
  by rewrite (strtok_device (Some O) [] d ds after None Hd eq_refl).
Qed.

Lemma claim_devices_run ds after s :
  pci_bdfs = Some (join ds) -> forallb device_ok ds = true -> num_bdfs = Z.of_nat (length ds) -> ds <> [] ->
  heap_after = zero :: after ->
  let es := [Malloc (num_bdfs * SIZEOF_CPTR); Malloc (num_bdfs * SIZEOF_CSPACEPATH);
             Malloc (Z.of_nat (length (join ds)))] in
  let r := claims (hw_calls s ++ es) 0 ds in
  claim_devices s = Ok (tt, claimed ds [] after (es ++ fst r) (snd r) s).
Proof using Hall.
  intros Hb Hd Hn Hne Ha es r. unfold claim_devices. rewrite Hb. destruct ds as [|d ds]; [done|].
  cbn [forallb] in Hd. apply andb_prop in Hd as [Hd Hds].
  rewrite (bind_ok (assertC _) _ _ tt s) by (rewrite Hn; reflexivity).
  rewrite (bind_ok _ _ _ _ _ (must_ptr_run (Malloc _) _ (fun _ => eq_refl))).
  rewrite (bind_ok _ _ _ _ _ (must_ptr_run (Malloc _) _ (fun _ => eq_refl))).
  rewrite (bind_ok _ _ _ _ _ (copy_bdfs_run _ _)), Ha.
  erewrite (bind_ok (on_tok _)); [|by apply first_strtok_run].
  rewrite Hn, Nat2Z.id. unfold zrange. cbn [length seq map for_each Z.of_nat].
  set (s1 := mkServer (globals s) (get_cap_hooked s) (dma_alloc_hooked s) (local_pci_bdfs s) (bdf s) (iospace_caps s)
               (hw_calls s ++ es)).
  erewrite bind_ok; cycle 1.
  { etransitivity; [|exact (claim_first d ds after s1 Hd)]. f_equal. unfold update; cbn -[toks].
    rewrite <-!app_assoc. unfold es. rewrite Hn. reflexivity. }
  rewrite (claim_loop _ [d] ds after _ _ 1 s1 Hds) by lia. unfold claimed, r. cbn -[toks claims].
  cbn [claims]. by rewrite <-!app_assoc.
Qed.

(** ** The buffers and the driver *)

Definition buffer_calls (size buf : Z) : list sata_call :=
  [DmaPoolAlloc size 4 0; IommuAllocIospace buf size; DmaPin buf size].

Lemma dma_buffer_run size s : dma_alloc_hooked s = true ->
  exists buf, buf <> 0 /\ dma_buffer size s = Ok (buf, add_calls (buffer_calls size buf) s).
Proof using Hall.
  intros Hh. set (l := hw_calls s ++ [DmaPoolAlloc size 4 0]). set (buf := hw_reply l). exists buf.
  pose proof (Hall (hw_calls s) (DmaPoolAlloc size 4 0)) as H1.
  pose proof (Hall l (IommuAllocIospace buf size)) as H2.
  pose proof (Hall (l ++ [IommuAllocIospace buf size]) (DmaPin buf size)) as H3.
  change (negb (buf =? 0) = true) in H1. apply negb_true_iff in H1.
  change ((hw_reply (l ++ [IommuAllocIospace buf size]) =? 0) = true) in H2.
  change ((hw_reply ((l ++ [IommuAllocIospace buf size]) ++ [DmaPin buf size]) =? buf) = true) in H3.
  set (s2 := add_calls [IommuAllocIospace buf size] (add_calls [DmaPoolAlloc size 4 0] s)).
  assert (camkes_iommu_dma_alloc size 4 0 s = Ok (buf, s2)) as E1.
  { unfold camkes_iommu_dma_alloc. rewrite (bind_ok (ask _) _ _ _ _ eq_refl). change (reply _) with buf. rewrite H1.
    rewrite (bind_ok (ask _) _ _ _ _ eq_refl). change (reply _) with (hw_reply (l ++ [IommuAllocIospace buf size])).
    unfold z2b. by rewrite H2. }
  split; [by apply Z.eqb_neq|]. unfold dma_buffer.
  assert (ps_dma_alloc size 4 0 s = Ok (buf, s2)) as E2.
  { unfold ps_dma_alloc. by rewrite (bind_ok get _ _ _ _ eq_refl), Hh. }
  rewrite (bind_ok _ _ _ _ _ E2), H1. rewrite (bind_ok (assertC (negb false)) _ _ _ _ eq_refl), (bind_ok (ask _) _ _ _ _ eq_refl).
  change (reply _) with (hw_reply ((l ++ [IommuAllocIospace buf size]) ++ [DmaPin buf size])). rewrite H3.
  rewrite (bind_ok (assertC true) _ _ _ _ eq_refl). cbn. by rewrite <-!app_assoc.
Qed.

Definition driver_calls (bufs : Z * Z * Z * Z) : list sata_call :=
  let '(a, b, c, d) := bufs in
  buffer_calls BUF_SIZE a ++ buffer_calls (BUF_SIZE * 16) b ++ buffer_calls BUF_SIZE c ++ buffer_calls BUF_SIZE d ++
  [SataInitAhci (mkAhciConfig ahcidriver a BUF_SIZE b (BUF_SIZE * 16) c BUF_SIZE d BUF_SIZE)].

Lemma hooked_add es s : dma_alloc_hooked s = true -> dma_alloc_hooked (add_calls es s) = true.
Proof using Type. by destruct s. Qed.

(** The end of [init_ahci]. *)
Lemma driver_run s : dma_alloc_hooked s = true ->
  exists a b c d, Forall (fun x => x <> 0) [a; b; c; d] /\
    (clb_buf ← dma_buffer BUF_SIZE;
     ctba_buf ← dma_buffer (BUF_SIZE * 16);
     fb_buf ← dma_buffer BUF_SIZE;
     data_buf ← dma_buffer BUF_SIZE;
     must (SataInitAhci (mkAhciConfig ahcidriver clb_buf BUF_SIZE ctba_buf (BUF_SIZE * 16)
                                      fb_buf BUF_SIZE data_buf BUF_SIZE))) s
    = Ok (tt, add_calls (driver_calls (a, b, c, d)) s).
Proof using Hall.
  intros Hh.
  destruct (dma_buffer_run BUF_SIZE s Hh) as (a & Ha & E1).
  destruct (dma_buffer_run (BUF_SIZE * 16) (add_calls (buffer_calls BUF_SIZE a) s) (hooked_add _ _ Hh)) as (b & Hb & E2).
  rewrite add_add in E2.
  destruct (dma_buffer_run BUF_SIZE (add_calls (buffer_calls BUF_SIZE a ++ buffer_calls (BUF_SIZE * 16) b) s) (hooked_add _ _ Hh))
    as (c & Hc & E3). rewrite add_add in E3.
  destruct (dma_buffer_run BUF_SIZE (add_calls ((buffer_calls BUF_SIZE a ++ buffer_calls (BUF_SIZE * 16) b) ++
    buffer_calls BUF_SIZE c) s) (hooked_add _ _ Hh)) as (d & Hd & E4). rewrite add_add in E4.
  exists a, b, c, d. split; [by repeat constructor|].
  rewrite (bind_ok _ _ _ _ _ E1), (bind_ok _ _ _ _ _ E2), (bind_ok _ _ _ _ _ E3), (bind_ok _ _ _ _ _ E4).
  rewrite must_run, add_add by done. unfold driver_calls. by rewrite <-!app_assoc.
Qed.

(** The calls of the whole start. *)
Definition list_calls (ds : list device) : list sata_call :=
  [Malloc (num_bdfs * SIZEOF_CPTR); Malloc (num_bdfs * SIZEOF_CSPACEPATH); Malloc (Z.of_nat (length (join ds)))].
Definition before_devices (ds : list device) : list sata_call :=
  [SetPutchar] ++ init_calls ++ [PsMallocOps] ++ list_calls ds.
Definition ahci_calls (ds : list device) (bufs : Z * Z * Z * Z) : list sata_call :=
  let r := claims (before_devices ds) 0 ds in
  before_devices ds ++ fst r ++ [MakeIommuDmaAlloc num_bdfs (snd r); IoPortOps] ++ driver_calls bufs.

Lemma init_ahci_run ds after s :
  pci_bdfs = Some (join ds) -> forallb device_ok ds = true -> num_bdfs = Z.of_nat (length ds) -> ds <> [] ->
  heap_after = zero :: after -> iospace_caps s = [] ->
  let r := claims (hw_calls s ++ list_calls ds) 0 ds in
  exists a b c d, Forall (fun x => x <> 0) [a; b; c; d] /\
    init_ahci s = Ok (tt, mkServer (globals s) true true (toks ds [] after)
      (fold_left (fun _ d => device_bdf d) ds (bdf s)) (snd r)
      (hw_calls s ++ list_calls ds ++ fst r ++ [MakeIommuDmaAlloc num_bdfs (snd r); IoPortOps] ++ driver_calls (a, b, c, d))).
Proof using Hall.
  intros Hb Hd Hn Hne Ha Hc r. unfold init_ahci.
  set (s1 := mkServer (globals s) true true (toks ds [] after) (fold_left (fun _ d => device_bdf d) ds (bdf s)) (snd r)
    (hw_calls s ++ list_calls ds ++ fst r ++ [MakeIommuDmaAlloc num_bdfs (snd r); IoPortOps])).
  destruct (driver_run s1 eq_refl) as (a & b & c & d & Hnz & Ed). exists a, b, c, d. split; [done|].
  rewrite (bind_ok _ _ _ _ _ (claim_devices_run ds after s Hb Hd Hn Hne Ha)).
  rewrite (bind_ok (modify _) _ _ _ _ eq_refl), (bind_ok get _ _ _ _ eq_refl).
  rewrite (bind_ok _ _ _ _ _ (must_run (MakeIommuDmaAlloc _ _) _ (fun _ => eq_refl))).
  rewrite (bind_ok (modify _) _ _ _ _ eq_refl), (bind_ok _ _ _ _ _ (must_run IoPortOps _ (fun _ => eq_refl))).
  match goal with |- _ ?st = _ => assert (st = s1) as -> end.
  { unfold s1, claimed, update. cbn -[toks claims].
    rewrite Hc, <-!app_assoc.
    done. }
  rewrite Ed. unfold s1. cbn -[toks claims driver_calls list_calls].
  rewrite <-!app_assoc.
  reflexivity.
Qed.

End Calls.

(** * Properties *)

Section Properties.
Context {E : SataEnv} {H : SataHw}.

(** The configuration names the devices [ds]. *)
Record devices_configured (ds : list device) : Prop := {
  dc_list : pci_bdfs = Some (join ds);
  dc_form : forallb device_ok ds = true;
  dc_count : num_bdfs = Z.of_nat (length ds);
  dc_some : ds <> [] }.

(** C37 -- The SATA server's start.  Configured with the AHCI driver and a
    well-formed list of PCI devices, with libraries that work, and provided that
    the memory after the unterminated copy of the list happens to begin with a
    NUL, [post_init] returns; it claims the I/O space of exactly the listed
    devices, in their order and under the numbers the list gives, hands their
    slots to the DMA allocator, and starts the driver with four buffers that are
    allocated through the replaced function, are in the I/O space and have the
    address the device sees; it writes over nothing but its copy; and the clients
    are configured as by the rest of [post_init] alone. *)
Theorem sata_start {L : SataEnvLaws E} (Hfits : cfg_fits) ds after :
  CONFIG_SATASERVER_USE_AHCI = true -> devices_configured ds -> heap_after = zero :: after -> all_succeed ->
  exists s a b c d, post_init server_bss = Ok (tt, s) /\
    hw_calls s = ahci_calls ds (a, b, c, d) /\ Forall (fun x => x <> 0) [a; b; c; d] /\
    iospace_caps s = snd (claims (before_devices ds) 0 ds) /\
    get_cap_hooked s = true /\ mem (local_pci_bdfs s) = cut ds ++ after /\
    Sata.post_init sataserver_bss = Ok (tt, globals s).
Proof.
  intros Hc [Hl Hf Hn Hne] Ha Hall. unfold post_init. rewrite Hc.
  destruct (post_init_run Hfits) as (a0 & l0 & _ & _ & E1). set (g := if valid_config then _ else _) in E1.
  set (g0 := final sataserver_mux_lock sataserver_bss).
  change (post_init_tables g0 = Ok (tt, g)) in E1.
  set (s1 := mkServer g0 false false (mkTok [] None) stack_bdf [] ([SetPutchar] ++ init_calls ++ [PsMallocOps])).
  destruct (init_ahci_run Hall ds after s1 Hl Hf Hn Hne Ha eq_refl) as (a & b & c & d & Hnz & E2).
  exists (mkServer g true true (toks ds [] after) (fold_left (fun _ d => device_bdf d) ds stack_bdf)
    (snd (claims (before_devices ds) 0 ds)) (ahci_calls ds (a, b, c, d))), a, b, c, d.
  split; [|by split_and!].
  rewrite (bind_ok (do_ SetPutchar) _ _ _ _ eq_refl).
  erewrite (bind_ok (on_globals sataserver_mux_lock)) by reflexivity.
  assert (forall s, init_system s = Ok (tt, add_calls init_calls s)) as Ei
    by (intros s; by rewrite init_system_straight, all_checked).
  rewrite (bind_ok _ _ _ _ _ (Ei _)), (bind_ok _ _ _ _ _ (must_run Hall PsMallocOps _ (fun _ => eq_refl))).
  match goal with |- _ ?st = _ => change st with s1 end. rewrite (bind_ok _ _ _ _ _ E2).
  unfold on_globals, zoom. cbn [globals s1].
  change (globals s1) with g0. rewrite E1. reflexivity.
Qed.

(** Whatever the libraries answer, the memory holds and the configuration says,
    [post_init] returns only after every call it checks has succeeded. *)
Definition all_checked_so_far (s : Server) : Prop := checked [] (hw_calls s) = true.

Lemma checked_snoc s es : all_checked_so_far s -> checked (hw_calls s) es = true -> all_checked_so_far (add_calls es s).
Proof using Type.
  intros Hs He. unfold all_checked_so_far. change (checked [] (hw_calls s ++ es) = true). by rewrite checked_app, Hs.
Qed.

Lemma wlp_hw_straight m es s : straight m es -> all_checked_so_far s -> wlp m (fun _ s' => all_checked_so_far s') s.
Proof using Type.
  intros Hm Hs. unfold wlp. rewrite Hm. destruct (checked _ es) eqn:Ec; [|done]. by apply checked_snoc.
Qed.

Lemma wlp_hw_ask c (Q : Z -> Server -> Prop) s : all_checked_so_far s ->
  (forall r s', (hw_succeeded c r = true -> all_checked_so_far s') -> Q r s') -> wlp (ask c) Q s.
Proof using Type.
  intros Hs HQ. apply HQ. intros Hc. apply checked_snoc; [done|]. cbn. by rewrite andb_true_r.
Qed.

Lemma wlp_dma_buffer size s : all_checked_so_far s -> wlp (dma_buffer size) (fun _ s' => all_checked_so_far s') s.
Proof using Type.
  intros Hs. unfold dma_buffer. apply wlp_bind.
  apply (wlp_mono _ (fun buf s' => buf = 0 \/ all_checked_so_far s')).
  - unfold ps_dma_alloc. apply wlp_bind. cbn. apply wlp_if; [intros _|done].
    apply wlp_bind, wlp_hw_ask; [done|]. intros vaddr s1 H1.
    apply wlp_if; intros Hb; [apply wlp_ret; by left|]. cbn in H1. rewrite Hb in H1.
    apply wlp_bind, wlp_hw_ask; [by apply H1|]. intros error s2 H2.
    apply wlp_if; intros He; [apply wlp_bind; cbn; by left|].
    apply wlp_ret. right. apply H2. by apply Z.eqb_eq, z2b_false.
  - intros buf s' Hb. apply wlp_bind, wlp_assertC. intros Hnz.
    destruct Hb as [->|Hs']; [done|]. apply wlp_bind, wlp_hw_ask; [done|]. intros phys s2 H2.
    apply wlp_bind, wlp_assertC. intros Hp. apply wlp_ret. by apply H2.
Qed.

(** Changing a local variable, and running a routine of Sata. *)
Lemma wlp_local {A} (m : M Server A) (Q : A -> Server -> Prop) s :
  (forall a s', m s = Ok (a, s') -> hw_calls s' = hw_calls s) -> (forall a s', hw_calls s' = hw_calls s -> Q a s') ->
  wlp m Q s.
Proof using Type. intros Hm HQ. unfold wlp. destruct (m s) as [[a s']|] eqn:E1; [|done]. by eapply HQ, Hm. Qed.

Lemma on_globals_local {A} (m : M sataserver A) a s s' : on_globals m s = Ok (a, s') -> hw_calls s' = hw_calls s.
Proof using Type. unfold on_globals, zoom. destruct (m _) as [[]|]; [|done]. by intros [= _ <-]. Qed.
Lemma on_tok_local {A} (m : M Tok A) a s s' : on_tok m s = Ok (a, s') -> hw_calls s' = hw_calls s.
Proof using Type. unfold on_tok, zoom. destruct (m _) as [[]|]; [|done]. by intros [= _ <-]. Qed.
Lemma all_checked_eq s s' : hw_calls s' = hw_calls s -> all_checked_so_far s -> all_checked_so_far s'.
Proof using Type. unfold all_checked_so_far. by intros ->. Qed.

Lemma wlp_claim_token cap p s : all_checked_so_far s -> wlp (claim_token cap p) (fun _ s' => all_checked_so_far s') s.
Proof using Type.
  intros Hs. destruct p as [p|]; [|done]. cbn [claim_token]. apply wlp_bind. cbn. apply wlp_bind.
  unfold wlp at 1, lift. destruct (sscanf_bdf _ _) as [b|]; [|done]. apply wlp_bind.
  unfold wlp at 1, lift. destruct (pci_bdf_int b) as [id|]; [|done]. apply wlp_bind. cbn. apply wlp_bind.
  apply (wlp_mono _ (fun _ s' => all_checked_so_far s')); [|by intros _ s' Hs'].
  eapply wlp_hw_straight; [by apply straight_must|done].
Qed.
Lemma wlp_claim_device first i s : all_checked_so_far s -> wlp (claim_device first i) (fun _ s' => all_checked_so_far s') s.
Proof using Type.
  intros Hs. unfold claim_device. apply wlp_bind.
  apply (wlp_mono _ (fun _ s' => all_checked_so_far s')); [eapply wlp_hw_straight; [by apply straight_must|done]|].
  intros _ s1 H1. apply wlp_bind. cbn. apply wlp_bind.
  apply (wlp_mono _ (fun _ s' => all_checked_so_far s')); [|intros; by apply wlp_claim_token].
  apply wlp_if; intros _; [|done].
  apply wlp_local; [intros a s'; apply on_tok_local|]. intros a s' Es. by eapply all_checked_eq.
Qed.

Lemma wlp_must_ptr c s : (forall r, hw_succeeded c r = negb (r =? 0)) -> all_checked_so_far s ->
  wlp (must_ptr c) (fun _ s' => all_checked_so_far s') s.
Proof using Type. intros Hc Hs. eapply wlp_hw_straight; [by apply straight_must_ptr|done]. Qed.
Lemma wlp_must c s : (forall r, hw_succeeded c r = (r =? 0)) -> all_checked_so_far s ->
  wlp (must c) (fun _ s' => all_checked_so_far s') s.
Proof using Type. intros Hc Hs. eapply wlp_hw_straight; [by apply straight_must|done]. Qed.

Lemma wlp_then {A B} (m : M Server A) (k : A -> M Server B) s :
  wlp m (fun _ s' => all_checked_so_far s') s ->
  (forall a s', all_checked_so_far s' -> wlp (k a) (fun _ s' => all_checked_so_far s') s') ->
  wlp (a ← m; k a) (fun _ s' => all_checked_so_far s') s.
Proof using Type. intros Hm Hk. apply wlp_bind. eapply wlp_mono; [exact Hm|]. intros a s' Hs. by apply Hk. Qed.
Lemma wlp_on_tok {A} (m : M Tok A) s : all_checked_so_far s -> wlp (on_tok m) (fun _ s' => all_checked_so_far s') s.
Proof using Type. intros Hs. apply wlp_local; [intros a s'; apply on_tok_local|]. intros a s' Es. by eapply all_checked_eq. Qed.
Lemma wlp_on_globals {A} (m : M sataserver A) s : all_checked_so_far s -> wlp (on_globals m) (fun _ s' => all_checked_so_far s') s.
Proof using Type. intros Hs. apply wlp_local; [intros a s'; apply on_globals_local|]. intros a s' Es. by eapply all_checked_eq. Qed.

Ltac step := intros; first
  [ by apply wlp_dma_buffer | by apply wlp_must | by apply wlp_must_ptr | by apply wlp_on_tok | by apply wlp_on_globals
  | by eapply wlp_hw_straight; [apply init_system_straight|] | done ].

Lemma wlp_init_ahci s : all_checked_so_far s -> wlp init_ahci (fun _ s' => all_checked_so_far s') s.
Proof using Type.
  intros Hs. unfold init_ahci. apply wlp_then; [|intros _ s1 H1].
  - unfold claim_devices. apply wlp_then; [by apply wlp_assertC|intros _ s1 H1].
    do 2 (apply wlp_then; [step|intros ? ? ?]). destruct pci_bdfs as [l|]; [|done].
    apply wlp_then; [apply wlp_then; step|intros]. apply wlp_then; [step|intros].
    by apply (wlp_for_each all_checked_so_far); [|intros; apply wlp_claim_device|].
  - do 3 (apply wlp_then; [step|intros ? ? ?]). do 6 (apply wlp_then; [step|intros ? ? ?]). step.
Qed.
Lemma sata_start_checked s : post_init server_bss = Ok (tt, s) -> checked [] (hw_calls s) = true.
Proof using Type.
  apply (wlp_inv _ (fun _ s => checked [] (hw_calls s) = true)). unfold post_init.
  do 4 (apply wlp_then; [step|intros ? ? ?]). apply wlp_then; [|step].
  apply wlp_if; intros _; [by apply wlp_init_ahci|step].
Qed.

(** A DMA buffer that cannot be used is given back. *)
Lemma dma_alloc_no_leak size align cached s r s' :
  camkes_iommu_dma_alloc size align cached s = Ok (r, s') ->
  (r <> 0 /\ s' = add_calls [DmaPoolAlloc size align cached; IommuAllocIospace r size] s) \/
  (r = 0 /\ (s' = add_calls [DmaPoolAlloc size align cached] s \/
             exists buf, s' = add_calls [DmaPoolAlloc size align cached; IommuAllocIospace buf size; DmaPoolFree buf size] s)).
Proof using Type.
  unfold camkes_iommu_dma_alloc. rewrite (bind_ok (ask _) _ _ _ _ eq_refl). set (buf := reply _). intros Hr.
  destruct (Z.eqb_spec buf 0) as [Hb|Hb]; [injection Hr as <- <-; by right; split; [|left]|].
  rewrite (bind_ok (ask _) _ _ _ _ eq_refl) in Hr.
  destruct (z2b _).
  - rewrite (bind_ok (do_ _) _ _ _ _ eq_refl) in Hr. injection Hr as <- <-. right. split; [done|]. right. exists buf.
    cbn. by rewrite <-!app_assoc.
  - injection Hr as <- <-. left. split; [done|]. cbn. by rewrite <-!app_assoc.
Qed.

End Properties.

(** * Examples *)

Definition demo_reply (l : list sata_call) : Z :=
  match list.last l with
  | Some BootstrapAllocman | Some (Malloc _) => 1
  | Some (DmaPoolAlloc _ _ _) => 4096 * Z.of_nat (length l)
  | Some (DmaPin v _) => v
  | _ => 0
  end.

Definition demo_devices : list device :=
  [mkDevice ["0"] ["1"; "f"] ["2"]; mkDevice ["0"; "0"] ["1"; "F"] ["5"]]%char.

Definition sata_hw_demo (text rest : list ascii) (n : Z) : SataHw := {|
  hw_reply := demo_reply;
  path_cap l := 100 + Z.of_nat (length l);
  CONFIG_SATASERVER_USE_AHCI := true;
  num_bdfs := n;
  pci_bdfs := Some text;
  iospace_id := 15;
  ahcidriver := 65536;
  SIZEOF_CSPACEPATH := 32;
  heap_after := rest;
  stack_bdf := mkBdf None None None |}.

Lemma sata_hw_demo_succeeds text rest n : @all_succeed _ (@hw_answers (sata_hw_demo text rest n)).
Proof.
  intros l c. cbn. unfold demo_reply. rewrite last_snoc. destruct c; cbn; try done; [|apply Z.eqb_refl].
  rewrite length_app. cbn. apply negb_true_iff, Z.eqb_neq. lia.
Qed.

(** The I/O spaces claimed. *)
Definition claimed_ids (s : Server) : list Z :=
  omap (fun c => match c with GetIospace _ id _ => Some id | _ => None end) (hw_calls s).

Lemma sata_start_witness :
  let H := sata_hw_demo (join demo_devices) [zero] 2 in
  exists s a b c d, @post_init sata_demo H (@server_bss H) = Ok (tt, s) /\
    hw_calls s = @ahci_calls H demo_devices (a, b, c, d) /\ Forall (fun x => x <> 0) [a; b; c; d] /\
    iospace_caps s = snd (@claims H (@before_devices H demo_devices) 0 demo_devices) /\
    get_cap_hooked s = true /\ mem (local_pci_bdfs s) = cut demo_devices ++ [] /\
    @Sata.post_init sata_demo sataserver_bss = Ok (tt, globals s).
Proof.
  intros H. apply (@sata_start sata_demo H sata_demo_laws sata_demo_fits demo_devices []).
  - reflexivity.
  - split; [reflexivity|vm_compute; reflexivity|reflexivity|discriminate].
  - reflexivity.
  - apply sata_hw_demo_succeeds.
Defined.

(** When the memory after the copy does not begin with a NUL, the last entry
    reads on: here the device 0:1f.2 is asked for and 1:1.7 claimed... *)
Lemma sata_list_overread :
  let text := device_text (mkDevice ["0"] ["1"; "f"] ["2"])%char in
  let run rest := let H := sata_hw_demo text rest 1 in claimed_ids (final (@post_init sata_demo H) (@server_bss H)) in
  run [zero] = [device_id (mkDevice ["0"] ["1"; "f"] ["2"])%char] /\
  run ["3"%char; zero] = [device_id (mkDevice ["1"] ["1"] ["7"])%char].
Proof. split; vm_compute; reflexivity. Qed.

(** ... and here [strtok] writes into that memory. *)
Lemma sata_list_overwrite :
  let text := device_text (mkDevice ["0"] ["1"; "f"] ["2"])%char in
  let H := sata_hw_demo text [","; "a"; zero]%char 1 in
  drop (length text) (mem (local_pci_bdfs (final (@post_init sata_demo H) (@server_bss H)))) = [zero; "a"%char; zero].
Proof. vm_compute. reflexivity. Qed.

(** An entry that does not parse takes the numbers of the entry before it. *)
Lemma sata_list_unchecked :
  let text := (device_text (mkDevice ["0"] ["1"; "f"] ["2"]) ++ [","; "x"])%char in
  let H := sata_hw_demo text [zero] 2 in
  claimed_ids (final (@post_init sata_demo H) (@server_bss H)) = [250; 250].
Proof. vm_compute. reflexivity. Qed.
