(* ===== verification/Blk.v ===== *)
(** The x86 VMM's virtio block device (components/Init/src/virtio_blk.c) over
    the SATA server: the transfers between a guest's buffer and the disk, and
    the start-up of the device.

    The interface functions of the [sataserver_iface] connection are the SATA
    server's handlers, called with the badge of this VMM; the shared dataport
    is the server's [packets].  The emulation layer and its constants
    (libsel4vmmplatsupport) are outside the repository. *)

From S2P Require Import Prelude Sata.

(** What the virtio headers and libsel4vmmplatsupport define. *)
Class BlkEnv := {
  VIRTIO_BLK_T_IN : Z;
  VIRTIO_BLK_T_OUT : Z;
  VIRTIO_BLK_XFER_COMPLETE : Z;
  VIRTIO_BLK_XFER_FAILED : Z }.

Class BlkEnvLaws (B : BlkEnv) : Prop := {
  T_IN_OUT : VIRTIO_BLK_T_IN <> VIRTIO_BLK_T_OUT }.

Definition VIRTIO_BLK_DISK_BLK_SIZE : Z := 512.
Definition VIRTIO_BLK_SIZE_MAX : Z := 4096.
Definition VIRTIO_BLK_SEG_MAX : Z := 1.

(** struct virtio_blk_config, as far as the code fills it. *)
Record virtio_blk_config := mkBlkConfig {
  cfg_capacity : Z; cfg_seg_max : Z; cfg_size_max : Z; cfg_blk_size : Z }.

Section Blk.
Context {E : SataEnv} {B : BlkEnv}.

(** The VMM is the client with badge [me]. *)
Variable me : Z.

(** Both buffers of a [memcpy] of [len] bytes are long enough. *)
Definition copy_ok (len : Z) (guest : list Z) : bool :=
  (len <=? BUF_SIZE) && (len <=? Z.of_nat (length guest)).

(** [guest] is the memory at [guest_buf_phys]; the answer is the status and
    what that memory then holds. *)
Definition virtio_blk_emul_transfer (direction sector len : Z) (guest : list Z)
    : M sataserver (Z * list Z) :=
  let n := Z.to_nat len in
  r ← (if direction =? VIRTIO_BLK_T_IN then
         status ← client_rx me (u32 sector) len;
         s ← get;
         if copy_ok len guest then
           mret (status, take n (packets s (client_buf me)) ++ drop n guest)
         else fail OutOfBounds
       else if direction =? VIRTIO_BLK_T_OUT then
         if copy_ok len guest then
           packet_write (client_buf me) (take n guest);;
           status ← client_tx me (u32 sector) len;
           mret (status, guest)
         else fail OutOfBounds
       else mret (0, guest));
  mret (if z2b (fst r) then VIRTIO_BLK_XFER_COMPLETE else VIRTIO_BLK_XFER_FAILED, snd r).

Definition emul_low_level_init : M sataserver virtio_blk_config :=
  cap ← client_get_capacity me;
  mret (mkBlkConfig cap VIRTIO_BLK_SEG_MAX VIRTIO_BLK_SIZE_MAX VIRTIO_BLK_DISK_BLK_SIZE).

(** [while (NOT_DONE == status) status = get_status();], with [fuel] calls. *)
Fixpoint wait_done (fuel : nat) (status : Z) : M sataserver Z :=
  if status =? SATASERVER_STATUS_NOT_DONE then
    match fuel with
    | O => fail OutOfFuel
    | S fuel => status ← client_get_status; wait_done fuel status
    end
  else mret status.

(** The configuration of the device, if one is made. *)
Definition make_virtio_blk (fuel : nat) : M sataserver (option virtio_blk_config) :=
  status ← client_get_status;
  status ← wait_done fuel status;
  if status =? SATASERVER_STATUS_INVALID_CONF then mret None
  else cfg ← emul_low_level_init; mret (Some cfg).

End Blk.

(** * The disk behind the driver *)

Section Disk.
Context {E : SataEnv}.

(** The last data written to sector [x] by the calls [log], made after the
    calls [pre]; [None] if there are none or the last such write failed. *)
Fixpoint last_write (pre log : list sata_event) (x : Z) (acc : option (list Z)) : option (list Z) :=
  match log with
  | [] => acc
  | e :: log' =>
      last_write (pre ++ [e]) log' x
        (match e with
         | WriteSectors n y data =>
             if (y <=? x) && (x <? y + n) then
               if sata_write_sectors pre n y data =? 0
               then Some (take 512 (drop (Z.to_nat (512 * (x - y))) data)) else None
             else acc
         | _ => acc
         end)
  end.
Definition on_disk (log : list sata_event) (x : Z) : option (list Z) := last_write [] log x None.

(** The driver drives a disk: a successful read of [n] sectors answers them
    whole, with what was last written to each. *)
Class DiskLaws : Prop := {
  read_length log n x data :
    sata_read_sectors log n x = (0, data) -> length data = Z.to_nat (n * 512);
  read_written log n x data i d :
    sata_read_sectors log n x = (0, data) -> 0 <= i < n -> on_disk log (x + i) = Some d ->
    length d = 512%nat ->
    take 512 (drop (Z.to_nat (512 * i)) data) = d }.

Lemma last_write_app pre l1 l2 x acc :
  last_write pre (l1 ++ l2) x acc = last_write (pre ++ l1) l2 x (last_write pre l1 x acc).
Proof.
  revert pre acc. induction l1 as [|e l1 IH]; intros pre acc; cbn; [by rewrite app_nil_r|].
  by rewrite IH, <-app_assoc.
Qed.

Lemma last_write_untouched pre log x acc :
  (forall e, In e log -> ~ In x (touches e)) -> last_write pre log x acc = acc.
Proof.
  revert pre acc. induction log as [|e log IH]; intros pre acc H; [done|]. cbn [last_write].
  rewrite IH by (intros; apply H; by right).
  destruct e as [| | |n y data]; try done. destruct (Z.leb_spec y x), (Z.ltb_spec x (y + n)); try done.
  destruct (H (WriteSectors n y data)); [by left|]. cbn. apply in_map_iff. exists (x - y).
  split; [lia|]. unfold zrange. apply in_map_iff. exists (Z.to_nat (x - y)). split; [lia|].
  apply in_seq. lia.
Qed.

Lemma slices_eq (a b : list Z) (n : nat) :
  length a = (n * 512)%nat -> length b = (n * 512)%nat ->
  (forall i, (i < n)%nat -> take 512 (drop (512 * i) a) = take 512 (drop (512 * i) b)) -> a = b.
Proof.
  revert a b. induction n as [|n IH]; intros a b Ha Hb H.
  { apply length_zero_iff_nil in Ha, Hb. congruence. }
  rewrite <-(take_drop 512 a), <-(take_drop 512 b). f_equal; [exact (H 0%nat ltac:(lia))|].
  apply IH; [rewrite length_drop; lia..|]. intros i Hi. rewrite !drop_drop.
  specialize (H (S i) ltac:(lia)). by replace (512 + 512 * i)%nat with (512 * S i)%nat by lia.
Qed.

End Disk.

(** * Transfers *)

Section Transfers.
Context {E : SataEnv} {B : BlkEnv} {L : SataEnvLaws E} {LB : BlkEnvLaws B}.
Context (Hfits : cfg_fits) (Hd : disk_ok) (Hv : valid_config = true).

Lemma copy_ok_spec len guest :
  copy_ok len guest = true <-> len <= BUF_SIZE /\ len <= Z.of_nat (length guest).
Proof. unfold copy_ok. by rewrite andb_true_iff, !Z.leb_le. Qed.

Lemma out_run k sector n guest s x :
  running s -> 0 <= k < client_num_badges -> VIRT_START_SECTOR <= sector < 2 ^ 32 -> 1 <= n ->
  copy_ok (n * 512) guest = true -> translate k sector = Some x ->
  let data := take (Z.to_nat (n * 512)) guest in
  exists s', virtio_blk_emul_transfer (client_enumerate_badge k) VIRTIO_BLK_T_OUT sector (n * 512) guest s
  = Ok ((if z2b (sata_write_sectors (sata_log s ++ [Lock]) n x data)
         then VIRTIO_BLK_XFER_FAILED else VIRTIO_BLK_XFER_COMPLETE, guest), s') /\
  running s' /\ sata_log s' = sata_log s ++ [Lock; WriteSectors n x data; Unlock].
Proof using L LB Hfits Hd Hv.
  intros Hr Hk Hs Hn Hc Hx data. pose proof Hc as [Hl1 Hl2]%copy_ok_spec.
  unfold virtio_blk_emul_transfer.
  destruct (Z.eqb_spec VIRTIO_BLK_T_OUT VIRTIO_BLK_T_IN) as [X|_]; [by pose proof T_IN_OUT|].
  rewrite Z.eqb_refl, Hc. fold data. set (port := client_buf (client_enumerate_badge k)).
  set (s1 := s <| packets := fun p =>
    if p =? port then data ++ drop (length data) (packets s p) else packets s p |>).
  assert (running s1) as Hr1 by exact (running_packets s _ Hr).
  assert (u32 sector = sector) as -> by (apply Z.mod_small; unfold VIRT_START_SECTOR in *; lia).
  pose proof (tx_run Hfits k sector (n * 512) s1 Hr1 Hv Hd Hk ltac:(lia) Hl1) as Htx.
  rewrite Hx in Htx. cbv zeta in Htx. rewrite SATA_BLK_SIZE_spec, Z.div_mul in Htx by lia.
  assert (take (Z.to_nat (n * 512)) (packets s1 port) = data) as Et.
  { assert (length data = Z.to_nat (n * 512)) as Hlen by (unfold data; rewrite length_take; lia).
    cbn. rewrite Z.eqb_refl, <-Hlen. apply take_app_length. }
  fold port in Htx. rewrite Et in Htx. change (sata_log s1) with (sata_log s) in Htx.
  eexists. split; [|split]; [| |].
  - erewrite bind_ok; cycle 1.
    { rewrite (bind_ok _ _ s tt s1) by done. rewrite (bind_ok _ _ s1 _ _ Htx). reflexivity. }
    cbn [fst snd]. unfold mret, M_ret. repeat f_equal.
    destruct (z2b (sata_write_sectors _ _ _ _)); [done|]. unfold z2b.
    destruct (Z.eqb_spec (n * 512) 0); [lia|done].
  - by apply running_log.
  - done.
Qed.

Lemma in_run k sector n guest s x err data :
  running s -> 0 <= k < client_num_badges -> VIRT_START_SECTOR <= sector < 2 ^ 32 -> 1 <= n ->
  copy_ok (n * 512) guest = true -> translate k sector = Some x ->
  sata_read_sectors (sata_log s ++ [Lock]) n x = (err, data) ->
  (z2b err = false -> length data = Z.to_nat (n * 512)) ->
  exists s' guest', virtio_blk_emul_transfer (client_enumerate_badge k) VIRTIO_BLK_T_IN sector (n * 512) guest s
  = Ok ((if z2b err then VIRTIO_BLK_XFER_FAILED else VIRTIO_BLK_XFER_COMPLETE, guest'), s') /\
  running s' /\ sata_log s' = sata_log s ++ [Lock; ReadSectors n x; Unlock] /\
  (z2b err = false -> guest' = data ++ drop (Z.to_nat (n * 512)) guest).
Proof using L Hfits Hd Hv.
  intros Hr Hk Hs Hn Hc Hx Hread Hlen. pose proof Hc as [Hl1 Hl2]%copy_ok_spec.
  unfold virtio_blk_emul_transfer. rewrite Z.eqb_refl.
  assert (u32 sector = sector) as -> by (apply Z.mod_small; unfold VIRT_START_SECTOR in *; lia).
  pose proof (rx_run Hfits k sector (n * 512) s Hr Hv Hd Hk ltac:(lia) Hl1) as Hrx.
  rewrite Hx in Hrx. cbv zeta in Hrx. rewrite SATA_BLK_SIZE_spec, Z.div_mul in Hrx by lia.
  rewrite Hread in Hrx. set (port := client_buf (client_enumerate_badge k)) in *.
  destruct (z2b err) eqn:Ez; eexists _, _; (split; [|split; [|split]]).
  - erewrite bind_ok; cycle 1.
    { rewrite (bind_ok _ _ s _ _ Hrx). rewrite (bind_ok get _ _ _ _ eq_refl). rewrite Hc. reflexivity. }
    reflexivity.
  - by apply running_log.
  - done.
  - done.
  - erewrite bind_ok; cycle 1.
    { rewrite (bind_ok _ _ s _ _ Hrx). rewrite (bind_ok get _ _ _ _ eq_refl). rewrite Hc. reflexivity. }
    cbn [fst snd]. unfold mret, M_ret, z2b. destruct (Z.eqb_spec (n * 512) 0); [lia|]. reflexivity.
  - by apply running_packets, running_log.
  - done.
  - intros _. cbn. rewrite Z.eqb_refl. f_equal. rewrite <-(Hlen eq_refl). apply take_app_length.
Qed.

(** A request of another VMM. *)
Record request := mkRequest {
  rq_client : Z; rq_direction : Z; rq_sector : Z; rq_len : Z; rq_guest : list Z }.

Definition perform (r : request) : M sataserver unit :=
  virtio_blk_emul_transfer (client_enumerate_badge (rq_client r)) (rq_direction r) (rq_sector r)
    (rq_len r) (rq_guest r);; mret tt.

(** One sector at a time, between existing buffers. *)
Definition request_ok (k : Z) (r : request) : Prop :=
  0 <= rq_client r < client_num_badges /\ rq_client r <> k /\ rq_len r < 1024 /\
  copy_ok (rq_len r) (rq_guest r) = true.

Lemma perform_isolated k r s :
  running s -> 0 <= k < client_num_badges -> request_ok k r ->
  exists s' es, perform r s = Ok (tt, s') /\ running s' /\ sata_log s' = sata_log s ++ es /\
  forall e x, In e es -> In x (touches e) -> ~ In x (vdisk (configured k)).
Proof using L Hfits Hd Hv.
  intros Hr Hk (Hj & Hjk & Hlen & Hc). unfold perform, virtio_blk_emul_transfer. rewrite Hc.
  set (j := rq_client r) in *.
  assert (forall s m, running s ->
    m = client_rx (client_enumerate_badge j) (u32 (rq_sector r)) (rq_len r) \/
    m = client_tx (client_enumerate_badge j) (u32 (rq_sector r)) (rq_len r) ->
    exists ret s' es, m s = Ok (ret, s') /\ running s' /\ sata_log s' = sata_log s ++ es /\
    forall e x, In e es -> In x (touches e) -> ~ In x (vdisk (configured k))) as Hiso
    by (intros s0 m Hr0 Hm; by eapply (request_isolated Hfits Hd Hv j k)).
  destruct (rq_direction r =? VIRTIO_BLK_T_IN).
  - destruct (Hiso s _ Hr (or_introl eq_refl)) as (ret & s' & es & E1 & Hr' & El & Hes).
    exists s', es. split; [|done]. unfold mbind, M_bind. by rewrite E1.
  - destruct (rq_direction r =? VIRTIO_BLK_T_OUT).
    + set (s1 := final (packet_write (client_buf (client_enumerate_badge j))
                          (take (Z.to_nat (rq_len r)) (rq_guest r))) s).
      assert (running s1) as Hr1 by exact (running_packets s _ Hr).
      destruct (Hiso s1 _ Hr1 (or_intror eq_refl)) as (ret & s' & es & E1 & Hr' & El & Hes).
      exists s', es. split; [|done]. unfold mbind, M_bind. unfold s1, final in E1. cbn in E1 |- *.
      by rewrite E1.
    + exists s, []. split; [done|]. split; [done|]. split; [by rewrite app_nil_r|]. by intros ? ? [].
Qed.

Lemma perform_all_isolated k rs s :
  running s -> 0 <= k < client_num_badges -> Forall (request_ok k) rs ->
  exists s' es, for_each rs perform s = Ok (tt, s') /\ running s' /\ sata_log s' = sata_log s ++ es /\
  forall e x, In e es -> In x (touches e) -> ~ In x (vdisk (configured k)).
Proof using L Hfits Hd Hv.
  intros Hr Hk Hrs. revert s Hr. induction Hrs as [|r rs Hok _ IH]; intros s Hr; cbn [for_each].
  { exists s, []. split; [done|]. split; [done|]. split; [by rewrite app_nil_r|]. by intros ? ? []. }
  destruct (perform_isolated k r s Hr Hk Hok) as (s1 & es1 & E1 & Hr1 & El1 & H1).
  destruct (IH s1 Hr1) as (s2 & es2 & E2 & Hr2 & El2 & H2).
  exists s2, (es1 ++ es2). rewrite (bind_ok _ _ _ _ _ E1). split; [done|]. split; [done|].
  split; [by rewrite El2, El1, app_assoc|]. intros e x [He|He]%in_app_iff; eauto.
Qed.

Lemma translate_In k v x : translate k v = Some x -> In x (vdisk (configured k)).
Proof. intros H. apply list_elem_of_In. by eapply list_elem_of_lookup_2. Qed.

(** What the disk holds after a successful write and calls elsewhere. *)
Lemma on_disk_after log n x data es i :
  sata_write_sectors (log ++ [Lock]) n x data = 0 -> 0 <= i < n ->
  (forall e, In e es -> ~ In (x + i) (touches e)) ->
  on_disk ((log ++ [Lock; WriteSectors n x data; Unlock]) ++ es ++ [Lock]) (x + i)
  = Some (take 512 (drop (Z.to_nat (512 * i)) data)).
Proof.
  intros Hw Hi He. unfold on_disk.
  replace ((log ++ [Lock; WriteSectors n x data; Unlock]) ++ es ++ [Lock])
    with ((log ++ [Lock]) ++ [WriteSectors n x data] ++ ([Unlock] ++ es ++ [Lock]))
    by (rewrite <-!app_assoc; done).
  rewrite (last_write_app [] (log ++ [Lock])), (last_write_app _ [WriteSectors n x data]).
  rewrite last_write_untouched.
  - cbn [last_write app]. destruct (Z.leb_spec x (x + i)), (Z.ltb_spec (x + i) (x + n)); try lia.
    cbn [andb]. rewrite Hw, Z.eqb_refl. do 3 f_equal. f_equal. lia.
  - intros e. rewrite !in_app_iff. intros [[<-|[]]|[H|[<-|[]]]]; [by intros []|by apply He|by intros []].
Qed.


(** ** Start-up *)

(** The block device starts exactly when the server's configuration is
    valid: run before the server's [post_init] it waits, however long; run
    after it, it comes up at the first status it reads, with the capacity of
    this VMM's virtual disk and blocks of 512 bytes, or not at all when the
    configuration is invalid. *)
Lemma blk_start k fuel :
  0 <= k < client_num_badges ->
  let me := client_enumerate_badge k in
  make_virtio_blk me fuel sataserver_bss = Fault OutOfFuel /\
  exists s, post_init sataserver_bss = Ok (tt, s) /\
  make_virtio_blk me fuel s
  = Ok (if valid_config
        then Some (mkBlkConfig (VIRT_START_SECTOR + total (configured k)) 1 4096 512) else None, s).
Proof using L Hfits Hd.
  clear Hv. intros Hk me. split.
  - unfold make_virtio_blk. rewrite (bind_ok _ _ _ SATASERVER_STATUS_NOT_DONE sataserver_bss) by done.
    assert (wait_done fuel SATASERVER_STATUS_NOT_DONE sataserver_bss = Fault OutOfFuel) as E1.
    { induction fuel as [|fuel IH]; [done|]. cbn [wait_done Z.eqb Pos.eqb SATASERVER_STATUS_NOT_DONE].
      rewrite (bind_ok _ _ _ SATASERVER_STATUS_NOT_DONE sataserver_bss) by done. exact IH. }
    unfold mbind, M_bind. by rewrite E1.
  - destruct (post_init_run Hfits) as (a & l & _ & _ & E1).
    eexists. split; [exact E1|]. destruct valid_config eqn:Hv.
    + set (s := booted _ _ _) in *. assert (running s) as Hr by done.
      unfold make_virtio_blk. rewrite (bind_ok _ _ s SATASERVER_STATUS_GOOD s) by done.
      rewrite (bind_ok _ _ s SATASERVER_STATUS_GOOD s) by (by destruct fuel).
      change (SATASERVER_STATUS_GOOD =? SATASERVER_STATUS_INVALID_CONF) with false. cbv iota.
      unfold emul_low_level_init, mbind, M_bind. unfold me.
      rewrite (capacity_run k s Hd Hv Hr Hk). done.
    + set (s := booted _ _ _) in *.
      unfold make_virtio_blk. rewrite (bind_ok _ _ s SATASERVER_STATUS_INVALID_CONF s) by done.
      rewrite (bind_ok _ _ s SATASERVER_STATUS_INVALID_CONF s) by (by destruct fuel). done.
Qed.

End Transfers.

(** * Witnesses *)

(** A disk that keeps what is written to it. *)
Definition demo_content (log : list sata_event) (x : Z) : option (list Z) :=
  fold_left (fun acc e =>
    match e with
    | WriteSectors n y data =>
        if (y <=? x) && (x <? y + n) then Some (take 512 (drop (Z.to_nat (512 * (x - y))) data)) else acc
    | _ => acc
    end) log None.
Definition demo_sector (log : list sata_event) (x : Z) : list Z :=
  match demo_content log x with
  | Some d => if (length d =? 512)%nat then d else replicate 512 0
  | None => replicate 512 0
  end.

Definition blk_sata : SataEnv := {|
  SATA_BLK_SIZE := 512; PART_OFFSET := 446; pt_bytes := @pt_bytes sata_demo;
  client_num_badges := 2; client_enumerate_badge := @client_enumerate_badge sata_demo;
  client_buf := @client_buf sata_demo; cfg_partitions := @cfg_partitions sata_demo;
  disk_tables := @disk_tables sata_demo; disk_part_data := @disk_part_data sata_demo;
  sata_read_sectors log n x := (0, concat (map (fun i => demo_sector log (x + i)) (zrange (Z.to_nat n))));
  sata_write_sectors log n x data := 0 |}.

#[local] Instance blk_sata_laws : SataEnvLaws blk_sata.
Proof. destruct sata_demo_laws. by split. Qed.

#[local] Instance blk_demo : BlkEnv :=
  {| VIRTIO_BLK_T_IN := 0; VIRTIO_BLK_T_OUT := 1; VIRTIO_BLK_XFER_COMPLETE := 1; VIRTIO_BLK_XFER_FAILED := -1 |}.
#[local] Instance blk_demo_laws : BlkEnvLaws blk_demo.
Proof. by split. Qed.

Lemma demo_sector_length log x : length (demo_sector log x) = 512%nat.
Proof.
  unfold demo_sector. destruct (demo_content log x) as [d|]; [|by rewrite length_replicate].
  destruct (Nat.eqb_spec (length d) 512); [done|by rewrite length_replicate].
Qed.

Lemma demo_on_disk log x : @on_disk blk_sata log x = demo_content log x.
Proof.
  unfold on_disk, demo_content. generalize (@nil sata_event), (@None (list Z)).
  induction log as [|e log IH]; intros pre acc; [done|]. cbn [last_write fold_left]. by rewrite IH.
Qed.

Lemma concat_slice (f : Z -> list Z) k n i :
  (forall x, length (f x) = 512%nat) -> (i < n)%nat ->
  take 512 (drop (512 * i) (concat (map f (map Z.of_nat (seq k n))))) = f (Z.of_nat (k + i)).
Proof.
  intros Hf. revert k i. induction n as [|n IH]; intros k i Hi; [lia|]. cbn [seq map concat].
  destruct i as [|i].
  - rewrite Nat.mul_0_r, Nat.add_0_r. cbn [drop]. rewrite <-(Hf (Z.of_nat k)). apply take_app_length.
  - replace (512 * S i)%nat with (length (f (Z.of_nat k)) + 512 * i)%nat by (rewrite Hf; lia).
    rewrite drop_app_add. rewrite IH by lia. f_equal. lia.
Qed.

#[local] Instance blk_disk : @DiskLaws blk_sata.
Proof.
  split.
  - intros log n x data [= <-]. assert (forall k m, length (concat (map (fun i => demo_sector log (x + i))
      (map Z.of_nat (seq k m)))) = (m * 512)%nat) as H.
    { intros k m. revert k. induction m as [|m IH]; intros k; [done|]. cbn [seq map concat].
      rewrite length_app, demo_sector_length, IH. lia. }
    unfold zrange. rewrite H. lia.
  - intros log n x data i d [= <-] Hi Hd Hl. rewrite demo_on_disk in Hd.
    replace (Z.to_nat (512 * i)) with (512 * Z.to_nat i)%nat by lia. unfold zrange.
    rewrite (concat_slice (fun i => demo_sector log (x + i))) by (first [intros; apply demo_sector_length | lia]).
    cbn [plus]. rewrite Z2Nat.id by lia. unfold demo_sector. rewrite Hd. by rewrite Hl.
Qed.

Definition blk_state : sataserver := final (@post_init blk_sata) sataserver_bss.

(** The first client writes two sectors, the second client writes and reads
    its own first sector and the boot sector in between. *)
Definition blk_requests : list request :=
  [mkRequest 1 1 64 512 (replicate 512 9); mkRequest 1 0 64 512 (replicate 512 0);
   mkRequest 1 0 0 512 (replicate 512 0); mkRequest 1 4 0 512 (replicate 512 0)].


Lemma blk_start_witness :
  make_virtio_blk 2 5 sataserver_bss = Fault OutOfFuel /\
  exists s, @post_init blk_sata sataserver_bss = Ok (tt, s) /\
  make_virtio_blk 2 5 s = Ok (Some (mkBlkConfig 68 1 4096 512), s).
Proof.
  apply (@blk_start blk_sata blk_sata_laws sata_demo_fits sata_demo_disk 1 5).
  change (0 <= 1 < 2). lia.
Defined.

(** ** Finding: sector numbers are cut to 32 bits

    A transfer at a sector beyond 2^32, which no disk has, reads an existing
    sector and reports completion. *)
Lemma blk_sector_wraps {E : SataEnv} {B : BlkEnv} me direction sector len guest :
  virtio_blk_emul_transfer me direction (2 ^ 32 + sector) len guest
  = virtio_blk_emul_transfer me direction sector len guest.
Proof.
  unfold virtio_blk_emul_transfer.
  assert (u32 (2 ^ 32 + sector) = u32 sector) as -> by (unfold u32, wrap;
    rewrite <-(Z.mod_add sector 1 (2 ^ 32)) by done; f_equal; lia). done.
Qed.
