(* ===== verification/Udp.v ===== *)
(** The UDP server's connectors (templates/seL4UDPRecv-to.template.c and
    -from, templates/seL4UDPSend-to.template.c and -from): the queues of
    received packets the server keeps for each client, the clients' polling of
    them, and the sending of datagrams.

    lwIP, the seL4 calls and the shared buffers are outside the repository:
    the calls are logged, a packet buffer is its chain of segments, and the
    values the templates are filled with are in class [UdpEnv]. *)

From stdpp Require Import sets.
From S2P Require Import Prelude.

(** * Data *)

(** lwIP's [struct pbuf]: the payloads of the chain. *)
Record pbuf := mkPbuf { pb_id : Z; pb_segs : list (list Z) }.

Record udp_message := mkUdpMessage {
  m_pbuf : option pbuf;
  m_addr : Z;
  m_port : Z;
  m_next : option nat }.   (* a pointer into the client's message_memory *)
#[export] Instance eta_udp_message : Eta udp_message :=
  fun m => mkUdpMessage (m_pbuf m) (m_addr m) (m_port m) (m_next m).

Record udp_client := mkUdpClient {
  client_id : Z;
  port : Z;
  need_signal : Z;
  notification : Z;
  free_head : option nat;
  used_head : option nat;
  used_tail : option nat;
  message_memory : list udp_message }.
#[export] Instance eta_udp_client : Eta udp_client :=
  fun c => mkUdpClient (client_id c) (port c) (need_signal c) (notification c)
    (free_head c) (used_head c) (used_tail c) (message_memory c).

Inductive udp_event :=
| Signal (notification : Z)
| PbufFree (id : Z)
| LwipLock
| LwipUnlock
| Reply (badge : Z) (mrs : list Z)
| UdpBind (port : Z)
| SendTo (pcb : nat) (data : list Z) (addr dest : Z).

#[export] Instance udp_event_eq_dec : EqDecision udp_event.
Proof. solve_decision. Defined.

(** A client with its shared buffer and the log of the server. *)
Record uctx := mkUctx { uc : udp_client; ubuf : list Z; ulog : list udp_event }.
#[export] Instance eta_uctx : Eta uctx := fun u => mkUctx (uc u) (ubuf u) (ulog u).

Record udp_server := mkUdpServer {
  udp_clients : list udp_client;
  udp_bufs : list (list Z);
  udp_log : list udp_event }.
#[export] Instance eta_udp_server : Eta udp_server :=
  fun s => mkUdpServer (udp_clients s) (udp_bufs s) (udp_log s).

(** What the templates are filled with. *)
Class UdpEnv := {
  udp_cfg : list (Z * Z * Z);   (* badge, port, notification of each client *)
  bufs : nat;                   (* num_client_recv_bufs *)
  buf_size : Z;                 (* of a shared buffer *)
  send_cfg : list (Z * Z * Z) }. (* badge, source, dest of each sender *)

Section Recv.
Context {E : UdpEnv}.

Definition emit_u (e : udp_event) : M uctx unit :=
  modify (fun u => u <| ulog := ulog u ++ [e] |>).
Definition set_uc (f : udp_client -> udp_client) : M uctx unit :=
  modify (fun u => u <| uc := f (uc u) |>).

(** Following a pointer into [message_memory]. *)
Definition deref (p : option nat) : M uctx udp_message :=
  u ← get;
  match p with
  | None => fail NullDeref
  | Some i => lift (idx (message_memory (uc u)) (Z.of_nat i))
  end.
Definition store (p : option nat) (m : udp_message) : M uctx unit :=
  u ← get;
  match p with
  | None => fail NullDeref
  | Some i =>
      l ← lift (idx_set (message_memory (uc u)) (Z.of_nat i) m);
      set_uc (fun c => c <| message_memory := l |>)
  end.

(** The callback lwIP runs for a datagram to the client's port. *)
Definition udprecv (p : pbuf) (addr port : Z) : M uctx unit :=
  u ← get;
  match free_head (uc u) with
  | None => emit_u (PbufFree (pb_id p))
  | Some mi =>
      m ← deref (free_head (uc u));
      set_uc (fun c => c <| free_head := m_next m |>);;
      store (Some mi) (m <| m_pbuf := Some p |> <| m_addr := addr |>
                         <| m_port := port |> <| m_next := None |>);;
      u ← get;
      when (z2b (need_signal (uc u)))
        (emit_u (Signal (notification (uc u)));;
         set_uc (fun c => c <| need_signal := 0 |>));;
      u ← get;
      match used_head (uc u) with
      | None => set_uc (fun c => c <| used_head := Some mi |> <| used_tail := Some mi |>)
      | Some _ =>
          t ← deref (used_tail (uc u));
          store (used_tail (uc u)) (t <| m_next := Some mi |>);;
          set_uc (fun c => c <| used_tail := Some mi |>)
      end
  end.

(** The copy loop over the chain, into a buffer of [buf_size] bytes. *)
Fixpoint copy_segs (segs : list (list Z)) (packet_len : Z) (buf : list Z)
    : outcome (Z * list Z) :=
  match segs with
  | [] => Ok (packet_len, buf)
  | seg :: segs' =>
      let len := Z.of_nat (length seg) in
      if packet_len + len <=? buf_size then
        copy_segs segs' (packet_len + len)
          (take (Z.to_nat packet_len) buf ++ seg ++ drop (Z.to_nat (packet_len + len)) buf)
      else Fault OutOfBounds
  end.

(** The server's answer to a poll of the client with badge [badge]. *)
Definition serve_client (badge : Z) : M uctx unit :=
  emit_u LwipLock;;
  u ← get;
  match used_head (uc u) with
  | None =>
      set_uc (fun c => c <| need_signal := 1 |>);;
      emit_u (Reply badge [u64 (-1)])
  | Some mi =>
      m ← deref (used_head (uc u));
      set_uc (fun c => c <| used_head := m_next m |>);;
      u ← get;
      when (negb (bool_decide (is_Some (used_head (uc u)))))
        (set_uc (fun c => c <| need_signal := 1 |>));;
      u ← get;
      match m_pbuf m with
      | None => fail NullDeref
      | Some p =>
          r ← lift (copy_segs (pb_segs p) 0 (ubuf u));
          modify (fun u => u <| ubuf := snd r |>);;
          emit_u (PbufFree (pb_id p));;
          u ← get;
          emit_u (Reply badge [if used_head (uc u) is Some _ then 0 else 1;
                               fst r; m_port m; m_addr m]);;
          store (Some mi) (m <| m_next := free_head (uc u) |>);;
          set_uc (fun c => c <| free_head := Some mi |>)
      end
  end;;
  emit_u LwipUnlock.

(** A client, its buffer and the log inside the server. *)
Definition get_ctx (i : nat) (s : udp_server) : option uctx :=
  match udp_clients s !! i, udp_bufs s !! i with
  | Some c, Some b => Some (mkUctx c b (udp_log s))
  | _, _ => None
  end.
Definition put_ctx (i : nat) (u : uctx) (s : udp_server) : udp_server :=
  mkUdpServer (<[i := uc u]> (udp_clients s)) (<[i := ubuf u]> (udp_bufs s)) (ulog u).
Definition on_client (i : nat) (m : M uctx unit) : M udp_server unit :=
  zoom (get_ctx i) (put_ctx i) m.

(** The body of the loop of [__run]: the first client with the badge is served,
    and there must be one. *)
Definition udp_run_body (badge : Z) : M udp_server unit :=
  s ← get;
  match list_find (fun c => client_id c = badge) (udp_clients s) with
  | None => fail AssertFailed
  | Some (i, _) => on_client i (serve_client badge)
  end.

(** The memory of a client: a free list from the last message to the first. *)
Definition init_memory : list udp_message :=
  map (fun j => mkUdpMessage None 0 0 (match j with 0%nat => None | S j' => Some j' end))
      (seq 0 bufs).

Definition init_client (c : Z * Z * Z) : udp_client :=
  let '(client, port, notification) := c in
  mkUdpClient client port 1 notification (Some (bufs - 1)%nat) None None init_memory.

(** The server after [__init]. *)
Definition udp_init : udp_server :=
  mkUdpServer (map init_client udp_cfg)
    (replicate (length udp_cfg) (replicate (Z.to_nat buf_size) 0))
    (LwipLock :: map (fun c => UdpBind (snd (fst c))) udp_cfg ++ [LwipUnlock]).

End Recv.

(** ** The client's side of a poll *)

(** [_poll], given the message registers of the reply. *)
Definition udp_poll (mrs : list Z) : outcome (Z * option (Z * Z * Z)) :=
  match mrs with
  | [] => Fault AssertFailed
  | mr0 :: _ =>
      let status := s32 mr0 in
      if status =? -1 then Ok (status, None)
      else
        let len := u32 (arr mrs 1) in
        if len <? 4096 then Ok (status, Some (len, u16 (arr mrs 2), u32 (arr mrs 3)))
        else Fault AssertFailed
  end.

(** * Sending *)

Section Send.
Context {E : UdpEnv}.

(** [_send] of the first [len] bytes at [p]: the message registers, the shared
    buffer and the result. *)
Definition udp_send (p : list Z) (len addr : Z) (buf : list Z) : list Z * list Z * Z :=
  let mrs := [len; addr] in
  let len := if len >? 4096 then 4096 else len in
  (mrs, take (Z.to_nat len) p ++ drop (Z.to_nat len) buf, len).

(** The body of the loop of [__run]; [pbuf_alloc] tells whether lwIP had a
    buffer. *)
Definition udp_send_body (pbuf_alloc : bool) (badge : Z) (mrs buf : list Z) : list udp_event :=
  let len := u32 (arr mrs 0) in
  if len <? 4096 then
    let addr := arr mrs 1 in
    LwipLock ::
    (if pbuf_alloc then
       match list_find (fun c => fst (fst c) = badge) send_cfg with
       | Some (i, (_, _, dest)) => [SendTo i (take (Z.to_nat len) buf) addr dest]
       | None => []
       end
     else []) ++ [LwipUnlock]
  else [].

End Send.

(** ** The server as a whole *)

Inductive udp_op :=
| Recv (i : nat) (p : pbuf) (addr port : Z)   (* lwIP runs the callback of client i *)
| Poll (i : nat).                             (* client i polls *)

Section Server.
Context {E : UdpEnv}.

Definition badge_of (i : nat) : Z :=
  match udp_cfg !! i with Some (b, _, _) => b | None => 0 end.
Definition notification_of (i : nat) : Z :=
  match udp_cfg !! i with Some (_, _, n) => n | None => 0 end.

Definition udp_exec (o : udp_op) : M udp_server unit :=
  match o with
  | Recv i p addr port => on_client i (udprecv p addr port)
  | Poll i => udp_run_body (badge_of i)
  end.

End Server.

(** * The abstract queue *)

(** A received datagram: its buffer, the sender's address and port. *)
Definition packet : Type := pbuf * Z * Z.

Definition packet_bytes (k : packet) : list Z := concat (pb_segs (fst (fst k))).
Definition packet_len (k : packet) : Z := Z.of_nat (length (packet_bytes k)).

Section Spec.
Context {E : UdpEnv}.

(** A bounded FIFO: a datagram that does not fit is dropped. *)
Definition q_recv (q : list packet) (k : packet) : list packet :=
  if (length q <? bufs)%nat then q ++ [k] else q.

(** The calls made for a datagram: the client is signalled when its queue was
    empty. *)
Definition recv_calls (n : Z) (q : list packet) (k : packet) : list udp_event :=
  if (length q <? bufs)%nat then match q with [] => [Signal n] | _ => [] end
  else [PbufFree (pb_id (fst (fst k)))].

(** The calls made for a poll: the first datagram, and whether it is the last
    one, or -1. *)
Definition serve_calls (badge : Z) (q : list packet) : list udp_event :=
  LwipLock ::
  match q with
  | [] => [Reply badge [u64 (-1)]]
  | k :: q' =>
      [PbufFree (pb_id (fst (fst k)));
       Reply badge [if q' is [] then 1 else 0; packet_len k; snd k; snd (fst k)]]
  end ++ [LwipUnlock].

(** The shared buffer after a poll. *)
Definition serve_buf (q : list packet) (buf : list Z) : list Z :=
  match q with
  | [] => buf
  | k :: _ => packet_bytes k ++ drop (length (packet_bytes k)) buf
  end.

(** [l] is the chain of [next] pointers from [h]. *)
Fixpoint chain (mem : list udp_message) (h : option nat) (l : list nat) : Prop :=
  match l with
  | [] => h = None
  | i :: l' => h = Some i /\ exists m, mem !! i = Some m /\ chain mem (m_next m) l'
  end.

Definition holds (mem : list udp_message) (i : nat) (k : packet) : Prop :=
  exists nx, mem !! i = Some (mkUdpMessage (Some (fst (fst k))) (snd (fst k)) (snd k) nx).

(** The two lists of a client, and the queue they represent. *)
Record client_lists (c : udp_client) (fl ul : list nat) (q : list packet) : Prop := {
  cl_free : chain (message_memory c) (free_head c) fl;
  cl_used : chain (message_memory c) (used_head c) ul;
  cl_nodup : NoDup (fl ++ ul);
  cl_count : (length fl + length ul)%nat = bufs;
  cl_holds : Forall2 (holds (message_memory c)) ul q;
  cl_tail : forall t, list.last ul = Some t -> used_tail c = Some t;
  cl_signal : need_signal c = b2z (bool_decide (ul = [])) }.

Definition client_rep (c : udp_client) (q : list packet) : Prop :=
  exists fl ul, client_lists c fl ul q.

Definition same_ids (c c' : udp_client) : Prop :=
  client_id c' = client_id c /\ port c' = port c /\ notification c' = notification c.

End Spec.

(** ** Chains *)

Lemma chain_lookup mem h l i : chain mem h l -> i ∈ l -> is_Some (mem !! i).
Proof.
  revert h. induction l as [|j l IH]; intros h; [set_solver|].
  intros [-> (m & Hm & Hc)] [->|Hi]%elem_of_cons; [by exists m|by eapply IH].
Qed.

Lemma chain_insert mem h l i m : i ∉ l -> chain mem h l -> chain (<[i := m]> mem) h l.
Proof.
  revert h. induction l as [|j l IH]; intros h Hi; [done|].
  intros [-> (m' & Hm & Hc)]. split; [done|]. exists m'.
  rewrite list_lookup_insert_ne by set_solver. split; [done|]. apply IH; [set_solver|done].
Qed.

(** Appending the message [i], unlinked, behind the last one. *)
Lemma chain_append mem h l t i mt mi :
  NoDup (l ++ [t; i]) -> chain mem h (l ++ [t]) -> mem !! t = Some mt ->
  mem !! i = Some mi -> m_next mi = None ->
  chain (<[t := mt <| m_next := Some i |>]> mem) h (l ++ [t; i]).
Proof.
  intros Hnd Hc Ht Hi Hn. revert h Hc Hnd.
  assert (t < length mem)%nat by (by apply lookup_lt_Some in Ht).
  induction l as [|j l IH]; intros h; cbn [app chain].
  - intros [-> (m & Hm & _)] Hnd. split; [done|]. eexists.
    split; [by apply list_lookup_insert_eq|]. split; [done|]. exists mi.
    rewrite list_lookup_insert_ne; [done|]. intros ->. inversion_clear Hnd; set_solver.
  - intros [-> (m & Hm & Hc)] Hnd. split; [done|]. apply list.NoDup_cons in Hnd as [Hj Hnd].
    exists m. rewrite list_lookup_insert_ne by set_solver. split; [done|]. by apply IH.
Qed.

Lemma holds_insert mem i j m k : i <> j -> holds mem j k -> holds (<[i := m]> mem) j k.
Proof. intros Hij [nx H]. exists nx. by rewrite list_lookup_insert_ne. Qed.

Lemma holds_insert_all mem i m l q :
  i ∉ l -> Forall2 (holds mem) l q -> Forall2 (holds (<[i := m]> mem)) l q.
Proof.
  intros Hi H. induction H as [|j k l q Hj H IH]; constructor.
  - apply holds_insert; [set_solver|done].
  - apply IH. set_solver.
Qed.

(** Changing a link of a message does not change what it holds. *)
Lemma holds_relink mem i m nx l q :
  mem !! i = Some m -> Forall2 (holds mem) l q ->
  Forall2 (holds (<[i := m <| m_next := nx |>]> mem)) l q.
Proof.
  intros Hi H. induction H as [|j k l q [nj Hj] H IH]; constructor; [|done].
  destruct (decide (i = j)) as [->|Hij].
  - exists nx. rewrite list_lookup_insert_eq by (by eapply lookup_lt_Some).
    rewrite Hj in Hi. by injection Hi as <-.
  - exists nj. by rewrite list_lookup_insert_ne.
Qed.

(** ** Steps on the client's memory *)

Section Steps.
Context {E : UdpEnv}.

Lemma wp_deref i m (Q : udp_message -> uctx -> Prop) u :
  message_memory (uc u) !! i = Some m -> Q m u -> wp (deref (Some i)) Q u.
Proof.
  intros Hm HQ. unfold deref. do 2 wp_step. eapply wp_lift; [|exact HQ].
  unfold idx. destruct (Z.ltb_spec (Z.of_nat i) 0); [lia|]. by rewrite Nat2Z.id, Hm.
Qed.

Lemma wp_store i m (Q : unit -> uctx -> Prop) u :
  (i < length (message_memory (uc u)))%nat ->
  Q tt (u <| uc := (uc u) <| message_memory := <[i := m]> (message_memory (uc u)) |> |>) ->
  wp (store (Some i) m) Q u.
Proof.
  intros Hi HQ. unfold store. do 2 wp_step. wp_step. eapply wp_lift.
  - unfold idx_set. destruct (Z.leb_spec 0 (Z.of_nat i)); [|lia].
    destruct (Z.ltb_spec (Z.of_nat i) (Z.of_nat (length (message_memory (uc u))))); [|lia].
    reflexivity.
  - unfold set_uc. wp_step. cbv beta. rewrite Nat2Z.id. exact HQ.
Qed.

Lemma copy_segs_spec segs pl buf :
  0 <= pl -> Z.of_nat (length buf) = buf_size ->
  pl + Z.of_nat (length (concat segs)) <= buf_size ->
  copy_segs segs pl buf
  = Ok (pl + Z.of_nat (length (concat segs)),
        take (Z.to_nat pl) buf ++ concat segs
          ++ drop (Z.to_nat (pl + Z.of_nat (length (concat segs)))) buf).
Proof.
  revert pl buf. induction segs as [|seg segs IH]; intros pl buf Hpl Hb Hfit.
  { cbn [copy_segs concat length app]. by rewrite Z.add_0_r, take_drop. }
  cbn [copy_segs concat] in *. rewrite length_app in *. cbv zeta.
  destruct (Z.leb_spec (pl + Z.of_nat (length seg)) buf_size); [|lia].
  rewrite IH; [|lia| |lia].
  2: { rewrite !length_app, length_take, length_drop. lia. }
  f_equal. f_equal; [lia|].
  set (n := Z.to_nat pl). assert (n + length seg <= length buf)%nat as Hn by lia.
  replace (Z.to_nat (pl + Z.of_nat (length seg))) with (n + length seg)%nat by lia.
  replace (Z.to_nat (pl + Z.of_nat (length seg) + Z.of_nat (length (concat segs))))
    with ((n + length seg) + length (concat segs))%nat by lia.
  replace (Z.to_nat (pl + Z.of_nat (length seg + length (concat segs))))
    with (length (concat segs) + (n + length seg))%nat by lia.
  rewrite (app_assoc (take n buf) seg).
  assert (length (take n buf ++ seg) = n + length seg)%nat as El
    by (rewrite length_app, length_take; lia).
  rewrite take_app_length' by done. rewrite drop_app_add' by done.
  rewrite drop_drop, <-!app_assoc. do 3 f_equal. apply (f_equal (fun k => drop k buf)). lia.
Qed.

(** A datagram that does not fit is copied past the end of the buffer. *)
Lemma copy_segs_over segs pl buf :
  pl <= buf_size -> buf_size < pl + Z.of_nat (length (concat segs)) -> copy_segs segs pl buf = Fault OutOfBounds.
Proof.
  revert pl buf. induction segs as [|seg segs IH]; intros pl buf Hpl Hover; cbn [copy_segs concat] in *;
    [cbn in Hover; lia|].
  rewrite length_app in Hover. cbv zeta. destruct (Z.leb_spec (pl + Z.of_nat (length seg)) buf_size); [|done].
  apply IH; lia.
Qed.

(** ** Receiving a datagram *)

(** Taking the first message off the free list and filling it. *)
Lemma take_free c mi fl ul q m k :
  client_lists c (mi :: fl) ul q -> message_memory c !! mi = Some m ->
  let m' := mkUdpMessage (Some (fst (fst k))) (snd (fst k)) (snd k) None in
  let mem := <[mi := m']> (message_memory c) in
  chain mem (m_next m) fl /\ chain mem (used_head c) ul /\
  Forall2 (holds mem) ul q /\ mem !! mi = Some m' /\ holds mem mi k.
Proof.
  intros H Hm m' mem. pose proof (cl_nodup _ _ _ _ H) as Hnd. cbn [app] in Hnd.
  apply list.NoDup_cons in Hnd as [Hmi Hnd]. rewrite not_elem_of_app in Hmi.
  assert (mem !! mi = Some m') as Hmem.
  { apply list_lookup_insert_eq. by eapply lookup_lt_Some. }
  split_and!; try done.
  - apply chain_insert; [tauto|]. pose proof (cl_free _ _ _ _ H) as [_ (m0 & Hm0 & Hc)].
    by simplify_eq.
  - apply chain_insert; [tauto|]. apply (cl_used _ _ _ _ H).
  - apply holds_insert_all; [tauto|]. apply (cl_holds _ _ _ _ H).
  - by exists None.
Qed.

Lemma last_snoc' {A} (l : list A) x : list.last (l ++ [x]) = Some x.
Proof. apply last_snoc. Qed.

(** Linking the filled message [mi] into the used list. *)
Lemma link_empty cid po no mem fh mi fl m k :
  chain mem fh fl -> mem !! mi = Some m -> m_next m = None -> holds mem mi k ->
  NoDup (mi :: fl) -> (S (length fl) = bufs)%nat ->
  client_lists (mkUdpClient cid po 0 no fh (Some mi) (Some mi) mem) fl [mi] [k].
Proof.
  intros Hc Hm Hn Hk Hnd Hl. split; cbn; try done.
  - split; [done|]. by exists m.
  - rewrite <-Permutation_cons_append. done.
  - lia.
  - by repeat constructor.
Qed.

Lemma link_more cid po no mem fh uh mi fl ul t mt q m k :
  chain mem fh fl -> chain mem uh (ul ++ [t]) ->
  mem !! mi = Some m -> m_next m = None -> holds mem mi k -> mem !! t = Some mt ->
  Forall2 (holds mem) (ul ++ [t]) q ->
  NoDup (mi :: fl ++ ul ++ [t]) -> (S (length fl + length (ul ++ [t])) = bufs)%nat ->
  client_lists (mkUdpClient cid po 0 no fh uh (Some mi)
                  (<[t := mt <| m_next := Some mi |>]> mem)) fl (ul ++ [t; mi]) (q ++ [k]).
Proof.
  intros Hf Hu Hm Hn Hk Ht Hq Hnd Hl.
  assert (NoDup (fl ++ ul ++ [t; mi])) as Hnd'.
  { change [t; mi] with ([t] ++ [mi]). rewrite !app_assoc, <-Permutation_cons_append.
    by rewrite <-!app_assoc. }
  pose proof Hnd' as Hnd2. apply list.NoDup_app in Hnd2 as (_ & Hft & Hu2).
  assert (mi <> t) as Hmt by (intros ->; apply list.NoDup_cons in Hnd as [? _]; set_solver).
  split; cbn.
  - apply chain_insert; [|done]. intros Hin. apply (Hft t Hin). set_solver.
  - by eapply chain_append.
  - done.
  - rewrite length_app in *. cbn in *. lia.
  - change [t; mi] with ([t] ++ [mi]). rewrite app_assoc. apply Forall2_app.
    + by apply holds_relink.
    + constructor; [|constructor]. by apply holds_insert.
  - intros t'. change [t; mi] with ([t] ++ [mi]). rewrite app_assoc, last_snoc'. by intros [= <-].
  - by destruct ul.
Qed.

Lemma udprecv_run p a t u q :
  client_rep (uc u) q ->
  wp (udprecv p a t) (fun _ u' =>
    ubuf u' = ubuf u /\
    ulog u' = ulog u ++ recv_calls (notification (uc u)) q (p, a, t) /\
    client_rep (uc u') (q_recv q (p, a, t)) /\ same_ids (uc u) (uc u')) u.
Proof.
  intros (fl & ul & H). destruct u as [[cid po ns no fh uh ut mm] ub lg].
  pose proof (Forall2_length (cl_holds _ _ _ _ H)) as Hlq.
  pose proof (cl_count _ _ _ _ H) as Hcnt. unfold udprecv, recv_calls, q_recv. do 2 wp_step.
  destruct fl as [|mi fl].
  { rewrite (cl_free _ _ _ _ H). destruct (Nat.ltb_spec (length q) bufs); [cbn in *; lia|].
    unfold emit_u. wp_step. split_and!; try done. by exists [], ul. }
  destruct (Nat.ltb_spec (length q) bufs); [|cbn in *; lia].
  pose proof (cl_free _ _ _ _ H) as [Hfh (m & Hm & _)]. rewrite Hfh.
  destruct (take_free _ _ _ _ _ _ (p, a, t) H Hm) as (Hc1 & Hc2 & Hh & Hmi & Hk).
  pose proof (cl_nodup _ _ _ _ H) as Hnd. pose proof (cl_signal _ _ _ _ H) as Hsig.
  wp_step. apply (wp_deref _ m); [exact Hm|]. unfold set_uc. do 2 wp_step.
  wp_step. apply wp_store; [by eapply lookup_lt_Some|]. do 2 wp_step. cbn [uc].
  set (mem := <[mi := _]> _) in *.
  destruct ul as [|t0 ul0] using rev_ind.
  - (* the queue was empty *)
    destruct q; [|cbn in Hlq; lia].
    cbn in Hsig |- *. rewrite Hsig. cbn. unfold emit_u. wp_run; cbn in *; try done.
    rewrite Hc2. wp_step. split_and!; try done.
    exists fl, [mi]. eapply (link_empty _ _ _ mem); try done.
    + by rewrite app_nil_r in Hnd.
    + cbn in *. lia.
  - (* behind the last message *)
    clear IHul0. pose proof (cl_tail _ _ _ _ H t0 ltac:(apply last_snoc')) as Htail.
    assert (ns = 0) as Hs0 by (etransitivity; [exact Hsig|]; by destruct ul0).
    assert (is_Some (mem !! t0)) as [mt Hmt] by (eapply chain_lookup; [exact Hc2|set_solver]).
    assert (exists h, uh = Some h) as [h Hh0].
    { pose proof (cl_used _ _ _ _ H) as Hu. destruct ul0; destruct Hu as [Hu _]; eexists; exact Hu. }
    cbn in *. rewrite Hs0. cbn. wp_run; cbn in *; try done. rewrite Hh0. wp_step.
    rewrite Htail. apply (wp_deref _ mt); [exact Hmt|].
    wp_step. apply wp_store; [by eapply lookup_lt_Some|]. cbv beta. wp_step. cbn.
    split_and!; try done.
    + destruct q; [|by rewrite app_nil_r]. cbn in Hlq. rewrite length_app in Hlq. cbn in *. lia.
    + exists fl, (ul0 ++ [t0; mi]). eapply (link_more _ _ _ mem); try done. by rewrite <-Hh0.
Qed.

(** ** Answering a poll *)

(** Putting the message just read back on the free list. *)
Lemma recycle cid po no ns mem fh uh ut mi m fl ul k q :
  client_lists (mkUdpClient cid po ns no fh uh ut mem) fl (mi :: ul) (k :: q) ->
  mem !! mi = Some m ->
  client_lists (mkUdpClient cid po (if m_next m is Some _ then 0 else 1) no (Some mi) (m_next m) ut
                  (<[mi := m <| m_next := fh |>]> mem)) (mi :: fl) ul q.
Proof.
  intros H Hm. pose proof (cl_nodup _ _ _ _ H) as Hnd.
  rewrite <-Permutation_middle in Hnd. pose proof Hnd as [Hmi _]%list.NoDup_cons.
  rewrite not_elem_of_app in Hmi.
  pose proof (cl_used _ _ _ _ H) as [_ (m0 & Hm0 & Hu)]. cbn in Hm0, Hu. simplify_eq.
  pose proof (cl_holds _ _ _ _ H) as Hh. inversion_clear Hh as [|? ? ? ? Hk Hq]. cbn in Hq.
  split; cbn.
  - split; [done|]. eexists. split; [apply list_lookup_insert_eq; by eapply lookup_lt_Some|].
    apply chain_insert; [tauto|]. apply (cl_free _ _ _ _ H).
  - apply chain_insert; [tauto|done].
  - done.
  - pose proof (cl_count _ _ _ _ H). cbn in *. lia.
  - apply holds_insert_all; [tauto|done].
  - intros t Ht. pose proof (cl_tail _ _ _ _ H t) as Htl. cbn in Htl. apply Htl.
    destruct ul; done.
  - destruct ul; cbn in Hu; [by rewrite Hu|]. by destruct Hu as [-> _].
Qed.

(** The datagram that a poll takes fits the shared buffer. *)
Definition head_fits (q : list packet) : Prop :=
  match q with [] => True | k :: _ => packet_len k <= buf_size end.

Lemma serve_run badge u q :
  client_rep (uc u) q -> Z.of_nat (length (ubuf u)) = buf_size -> head_fits q ->
  wp (serve_client badge) (fun _ u' =>
    ubuf u' = serve_buf q (ubuf u) /\
    ulog u' = ulog u ++ serve_calls badge q /\
    client_rep (uc u') (tail q) /\ same_ids (uc u) (uc u')) u.
Proof.
  intros (fl & ul & H) Hb Hfit. destruct u as [[cid po ns no fh uh ut mm] ub lg].
  pose proof (cl_used _ _ _ _ H) as Hu. pose proof (cl_holds _ _ _ _ H) as Hh. cbn -[wp] in *.
  unfold serve_client, emit_u, set_uc. wp_step. wp_step. wp_step. cbn -[wp]. wp_step. cbn -[wp].
  destruct ul as [|mi ul]; cbn in Hu.
  - inversion Hh; subst. wp_step. do 4 wp_step. cbn -[wp]. split_and!; try done.
    + by rewrite <-!app_assoc.
    + exists fl, []. split; cbn; try apply H; done.
  - destruct Hu as [-> (m & Hm & Hu)]. inversion Hh as [|? [[p a] t] ? q' [nx Hk] Hq]; subst.
    unfold head_fits, packet_len, packet_bytes in Hfit. cbn in Hfit.
    assert (m = mkUdpMessage (Some p) a t nx) as -> by (cbn in Hk; congruence). cbn -[wp] in *.
    wp_step. wp_step. apply (wp_deref _ (mkUdpMessage (Some p) a t nx)); [exact Hm|]. cbn -[wp].
    wp_step. wp_step. wp_step. wp_step. cbn -[wp].
    pose proof (recycle _ _ _ _ _ _ _ _ _ _ _ _ _ _ H Hm) as Hr. cbn in Hr.
    pose proof (cl_signal _ _ _ _ H) as Hs. cbn in Hs.
    assert (copy_segs (pb_segs p) 0 ub
      = Ok (Z.of_nat (length (concat (pb_segs p))),
            concat (pb_segs p) ++ drop (length (concat (pb_segs p))) ub)) as Hcopy.
    { rewrite copy_segs_spec by lia. by rewrite Z.add_0_l, Nat2Z.id. }
    assert ((if nx is Some _ then 0 else 1) = if q' is [] then 1 else 0) as Hnx.
    { destruct ul as [|j ul]; cbn in Hu; inversion Hq; [by rewrite Hu|].
      by destruct Hu as [Hu _]; rewrite Hu. }
    wp_step. apply wp_when; intros Hb'; [wp_step|];
      (wp_run; eapply wp_lift; [exact Hcopy|]; wp_run;
       apply wp_store; [cbn; by eapply lookup_lt_Some|]; wp_run;
       cbn; split_and!; [done| | |done]);
      try (by rewrite <-!app_assoc, Hnx); exists (mi :: fl), ul; (destruct nx; [|]); try done.
    by rewrite Hs.
Qed.

(** Otherwise the poll does not come to an end. *)
Lemma serve_over badge u k q :
  client_rep (uc u) (k :: q) -> 0 <= buf_size < packet_len k -> serve_client badge u = Fault OutOfBounds.
Proof.
  intros (fl & ul & H) Hover. destruct u as [[cid po ns no fh uh ut mm] ub lg].
  pose proof (cl_used _ _ _ _ H) as Hu. pose proof (cl_holds _ _ _ _ H) as Hh. cbn in Hu, Hh.
  inversion Hh as [|mi [[p a] t] ul' q' [nx Hm] Hq]; subst. cbn in Hu, Hm. destruct Hu as [-> _].
  unfold packet_len, packet_bytes in Hover. cbn in Hover.
  unfold serve_client, deref, emit_u, set_uc, when, modify, get, mbind, M_bind, lift. cbn.
  unfold idx. destruct (Z.ltb_spec (Z.of_nat mi) 0); [lia|]. rewrite Nat2Z.id, Hm. cbn.
  destruct nx; cbn; by rewrite copy_segs_over by lia.
Qed.

End Steps.

(** * The server as a set of bounded queues *)

Record udp_spec := mkUdpSpec {
  sp_queues : list (list packet);
  sp_bufs : list (list Z);
  sp_log : list udp_event }.

Section Refinement.
Context {E : UdpEnv}.

Definition spec_init : udp_spec :=
  mkUdpSpec (replicate (length udp_cfg) [])
    (replicate (length udp_cfg) (replicate (Z.to_nat buf_size) 0)) (udp_log udp_init).

Definition spec_exec (a : udp_spec) (o : udp_op) : udp_spec :=
  match o with
  | Recv i p addr port =>
      let q := nth i (sp_queues a) [] in
      mkUdpSpec (<[i := q_recv q (p, addr, port)]> (sp_queues a)) (sp_bufs a)
        (sp_log a ++ recv_calls (notification_of i) q (p, addr, port))
  | Poll i =>
      let q := nth i (sp_queues a) [] in
      mkUdpSpec (<[i := tail q]> (sp_queues a))
        (<[i := serve_buf q (nth i (sp_bufs a) [])]> (sp_bufs a))
        (sp_log a ++ serve_calls (badge_of i) q)
  end.

(** A poll takes a datagram that is longer than the buffer: it is copied past
    its end. *)
Definition overruns (a : udp_spec) (o : udp_op) : bool :=
  match o with
  | Poll i => match nth i (sp_queues a) [] with k :: _ => buf_size <? packet_len k | [] => false end
  | Recv _ _ _ _ => false
  end.
(** The state after [ops], if no poll overruns the buffer. *)
Fixpoint spec_run (ops : list udp_op) (a : udp_spec) : option udp_spec :=
  match ops with
  | [] => Some a
  | o :: ops => if overruns a o then None else spec_run ops (spec_exec a o)
  end.

(** An operation of a client that exists. *)
Definition udp_op_ok (o : udp_op) : Prop :=
  match o with Recv i _ _ _ | Poll i => (i < length udp_cfg)%nat end.
(** A datagram that fits the shared buffer. *)
Definition datagram_fits (o : udp_op) : Prop :=
  match o with Recv _ p _ _ => Z.of_nat (length (concat (pb_segs p))) <= buf_size | Poll _ => True end.

Lemma nth_insert {A} (l : list A) i j x d :
  (j < length l)%nat -> nth i (<[j := x]> l) d = if decide (i = j) then x else nth i l d.
Proof.
  intros Hj. rewrite !nth_lookup. case_decide as Hij.
  - subst. by rewrite list_lookup_insert_eq.
  - by rewrite list_lookup_insert_ne.
Qed.

Lemma spec_queues_length a o : length (sp_queues (spec_exec a o)) = length (sp_queues a).
Proof. destruct o; cbn; by rewrite length_insert. Qed.

(** If all datagrams fit, no poll overruns. *)
Lemma spec_run_fits ops a :
  Forall datagram_fits ops -> Forall udp_op_ok ops -> length (sp_queues a) = length udp_cfg ->
  (forall i, Forall (fun k => packet_len k <= buf_size) (nth i (sp_queues a) [])) ->
  spec_run ops a = Some (fold_left spec_exec ops a).
Proof.
  intros Hf. revert a. induction Hf as [|o ops Hfo _ IH]; intros a Hok Hl Hq; [done|].
  inversion_clear Hok as [|? ? Ho Hok']. cbn [spec_run fold_left].
  assert (overruns a o = false) as ->.
  { destruct o as [|i]; [done|]. cbn [overruns]. destruct (Hq i) as [|k q Hk _]; [done|]. by apply Z.ltb_ge. }
  apply IH; [done|by rewrite spec_queues_length|]. intros i.
  destruct o as [j p ad po|j]; cbn [spec_exec sp_queues udp_op_ok datagram_fits] in *; rewrite nth_insert by lia;
    case_decide; subst; try apply Hq.
  - unfold q_recv. destruct (_ <? _)%nat; [|apply Hq]. apply Forall_app. split; [apply Hq|]. by repeat constructor.
  - destruct (Hq j); [constructor|done].
Qed.

Record client_sim (i : nat) (c : udp_client) (b : list Z) (q : list packet) : Prop := {
  cs_rep : client_rep c q;
  cs_id : client_id c = badge_of i;
  cs_notification : notification c = notification_of i;
  cs_buf : Z.of_nat (length b) = buf_size }.

Record server_sim (s : udp_server) (a : udp_spec) : Prop := {
  ss_log : udp_log s = sp_log a;
  ss_bufs : udp_bufs s = sp_bufs a;
  ss_n1 : length (udp_clients s) = length udp_cfg;
  ss_n2 : length (udp_bufs s) = length udp_cfg;
  ss_n3 : length (sp_queues a) = length udp_cfg;
  ss_clients : forall i c b q, udp_clients s !! i = Some c -> udp_bufs s !! i = Some b ->
    sp_queues a !! i = Some q -> client_sim i c b q }.

Lemma nth_lookup_Some {A} (l : list A) i d x : l !! i = Some x -> nth i l d = x.
Proof. intros H. by rewrite nth_lookup, H. Qed.

(** Running an operation of client [i] that keeps the client's simulation. *)
Lemma on_client_sim i m s a q' b' es :
  server_sim s a -> (i < length udp_cfg)%nat ->
  let q := nth i (sp_queues a) [] in
  let b := nth i (sp_bufs a) [] in
  (forall c, client_sim i c b q -> wp m (fun _ u' =>
     ubuf u' = b' /\ ulog u' = sp_log a ++ es /\ client_sim i (uc u') b' q')
     (mkUctx c b (sp_log a))) ->
  exists s', on_client i m s = Ok (tt, s') /\
  server_sim s' (mkUdpSpec (<[i := q']> (sp_queues a)) (<[i := b']> (sp_bufs a)) (sp_log a ++ es)).
Proof.
  intros Hs Hi q b Hm. destruct Hs as [Hlog Hbufs H1 H2 H3 Hcl].
  destruct (lookup_lt_is_Some_2 (udp_clients s) i) as [c Hc]; [lia|].
  destruct (lookup_lt_is_Some_2 (udp_bufs s) i) as [b0 Hb]; [lia|].
  destruct (lookup_lt_is_Some_2 (sp_queues a) i) as [q0 Hq]; [lia|].
  assert (q = q0) as Eq by (by apply nth_lookup_Some).
  assert (b = b0) as Eb by (unfold b; rewrite <-Hbufs; by apply nth_lookup_Some).
  specialize (Hm c). rewrite Eq, Eb in Hm. specialize (Hm (Hcl i c b0 q0 Hc Hb Hq)).
  apply wp_ok in Hm as ([] & [c' b'' l'] & Hm & E1 & E2 & Hsim). cbn in E1, E2, Hsim. subst b'' l'.
  exists (mkUdpServer (<[i := c']> (udp_clients s)) (<[i := b']> (udp_bufs s)) (sp_log a ++ es)).
  split.
  { unfold on_client, zoom, get_ctx. by rewrite Hc, Hb, Hlog, Hm. }
  split; cbn; rewrite ?length_insert; try done; [by rewrite Hbufs|].
  intros j c1 b1 q1. destruct (decide (i = j)) as [<-|Hij].
  - rewrite !list_lookup_insert_eq by lia. by intros [= <-] [= <-] [= <-].
  - rewrite !list_lookup_insert_ne by done. apply Hcl.
Qed.

Lemma client_sim_step i c c' b b' q q' :
  client_sim i c b q -> client_rep c' q' -> same_ids c c' -> Z.of_nat (length b') = buf_size ->
  client_sim i c' b' q'.
Proof. intros [] Hr (H1 & _ & H3) Hb. split; congruence || done. Qed.

Lemma length_serve_buf q b :
  head_fits q -> Z.of_nat (length b) = buf_size -> Z.of_nat (length (serve_buf q b)) = buf_size.
Proof.
  destruct q as [|k q]; intros Hk Hb; [done|]. unfold serve_buf, head_fits, packet_len in *.
  rewrite length_app, length_drop. lia.
Qed.

Lemma find_badge s a i :
  NoDup (map (fun c => fst (fst c)) udp_cfg) -> server_sim s a -> (i < length udp_cfg)%nat ->
  exists c, list_find (fun c => client_id c = badge_of i) (udp_clients s) = Some (i, c).
Proof.
  intros Hnd Hs Hi.
  assert (forall j c, udp_clients s !! j = Some c -> client_id c = badge_of j) as Hid.
  { intros j c Hc. pose proof (lookup_lt_Some _ _ _ Hc) as Hj. destruct Hs.
    destruct (lookup_lt_is_Some_2 (udp_bufs s) j) as [b Hb]; [lia|].
    destruct (lookup_lt_is_Some_2 (sp_queues a) j) as [q Hq]; [lia|].
    by apply (ss_clients0 j c b q). }
  destruct (lookup_lt_is_Some_2 (udp_clients s) i) as [c Hc]; [rewrite (ss_n1 _ _ Hs); lia|].
  exists c. apply list_find_Some. split_and!; [done|by apply Hid|].
  intros j c' Hc' Hj E1. rewrite (Hid j c' Hc') in E1.
  assert (j = i); [|lia]. unfold badge_of in E1.
  destruct (lookup_lt_is_Some_2 udp_cfg j) as [[[b1 ?] ?] Hj1]; [lia|].
  destruct (lookup_lt_is_Some_2 udp_cfg i) as [[[b2 ?] ?] Hi1]; [lia|].
  rewrite Hj1, Hi1 in E1. subst b2.
  eapply (NoDup_lookup _ j i b1 Hnd); by rewrite lookup_map, ?Hj1, ?Hi1.
Qed.

(** ** The initial state *)

Lemma init_chain n : (n <= bufs)%nat ->
  chain init_memory (match n with 0%nat => None | S j => Some j end) (rev (seq 0 n)).
Proof.
  induction n as [|n IH]; intros Hn; [done|].
  rewrite seq_S, rev_app_distr. cbn [rev app chain Nat.add]. split; [done|].
  exists (mkUdpMessage None 0 0 (match n with 0%nat => None | S j => Some j end)).
  split; [|apply IH; lia]. unfold init_memory. rewrite lookup_map, lookup_seq_lt by lia. done.
Qed.

Lemma init_client_rep c : (1 <= bufs)%nat -> client_rep (init_client c) [].
Proof.
  intros Hb. destruct c as [[b p] n]. exists (rev (seq 0 bufs)), []. split; cbn; try done.
  - pose proof (init_chain bufs ltac:(lia)) as H. destruct bufs as [|m]; [lia|].
    cbn [Nat.sub]. by rewrite Nat.sub_0_r.
  - rewrite app_nil_r, <-Permutation_rev. apply NoDup_seq.
  - rewrite length_rev, length_seq. lia.
Qed.

Lemma init_sim : (1 <= bufs)%nat -> 0 <= buf_size -> server_sim udp_init spec_init.
Proof.
  intros Hb Hs. split; cbn; rewrite ?length_map, ?length_replicate; try done.
  intros i c b q. rewrite lookup_map.
  intros Hc [-> _]%lookup_replicate [-> _]%lookup_replicate.
  destruct (udp_cfg !! i) as [[[bd po] n]|] eqn:Ec; [|done]. injection Hc as <-.
  split; [by apply (init_client_rep (bd, po, n))| | |].
  - unfold badge_of. by rewrite Ec.
  - unfold notification_of. by rewrite Ec.
  - rewrite length_replicate. lia.
Qed.

(** ** Every operation *)

Lemma exec_sim o s a :
  NoDup (map (fun c => fst (fst c)) udp_cfg) -> udp_op_ok o -> overruns a o = false -> server_sim s a ->
  exists s', udp_exec o s = Ok (tt, s') /\ server_sim s' (spec_exec a o).
Proof.
  intros Hnd Ho Hov Hs. destruct o as [i p addr port|i].
  - cbn in Ho. rename Ho into Hi.
    assert (sp_bufs a = <[i := nth i (sp_bufs a) []]> (sp_bufs a)) as Eb.
    { symmetry. apply list_insert_id. rewrite nth_lookup, <-(ss_bufs _ _ Hs).
      destruct (lookup_lt_is_Some_2 (udp_bufs s) i) as [b ->]; [|done].
      rewrite (ss_n2 _ _ Hs). lia. }
    pose proof (on_client_sim i (udprecv p addr port) s a
      (q_recv (nth i (sp_queues a) []) (p, addr, port)) (nth i (sp_bufs a) [])
      (recv_calls (notification_of i) (nth i (sp_queues a) []) (p, addr, port)) Hs Hi) as Hstep.
    cbv zeta in Hstep. rewrite <-Eb in Hstep. apply Hstep. clear Hstep Eb.
    intros c Hc. eapply wp_mono; [apply udprecv_run, (cs_rep _ _ _ _ Hc)|]. cbn.
    intros _ u' (-> & -> & Hr & Hids). rewrite (cs_notification _ _ _ _ Hc). split_and!; try done.
    eapply client_sim_step; [exact Hc|exact Hr|exact Hids|apply (cs_buf _ _ _ _ Hc)].
  - cbn [udp_exec spec_exec udp_op_ok] in *. unfold udp_run_body.
    destruct (find_badge s a i Hnd Hs Ho) as [c0 Hfind].
    unfold mbind, M_bind, get. rewrite Hfind. apply on_client_sim; [done|done|].
    intros c Hc. pose proof Hc as [H1 H2 H3 H5].
    assert (head_fits (nth i (sp_queues a) [])) as H4.
    { cbn [overruns] in Hov. destruct (nth i (sp_queues a) []); [done|]. by apply Z.ltb_ge in Hov. }
    eapply wp_mono; [apply (serve_run (badge_of i)); [exact H1|exact H5|exact H4]|]. cbn.
    intros _ u' (-> & -> & Hr & Hids). split_and!; try done.
    eapply client_sim_step; [exact Hc|exact Hr|exact Hids|]. by apply length_serve_buf.
Qed.

Lemma exec_overruns o s a :
  NoDup (map (fun c => fst (fst c)) udp_cfg) -> 0 <= buf_size -> udp_op_ok o -> overruns a o = true ->
  server_sim s a -> udp_exec o s = Fault OutOfBounds.
Proof.
  intros Hnd Hb Ho Hov Hs. destruct o as [|i]; [done|]. cbn [udp_exec overruns udp_op_ok] in *. unfold udp_run_body.
  destruct (find_badge s a i Hnd Hs Ho) as [c0 Hfind]. unfold mbind, M_bind, get. rewrite Hfind.
  destruct (lookup_lt_is_Some_2 (udp_clients s) i) as [c Hc]; [rewrite (ss_n1 _ _ Hs); lia|].
  destruct (lookup_lt_is_Some_2 (udp_bufs s) i) as [b Hbf]; [rewrite (ss_n2 _ _ Hs); lia|].
  destruct (lookup_lt_is_Some_2 (sp_queues a) i) as [q Hq]; [rewrite (ss_n3 _ _ Hs); lia|].
  rewrite (nth_lookup_Some _ _ _ _ Hq) in Hov. destruct q as [|k q]; [done|]. apply Z.ltb_lt in Hov.
  unfold on_client, zoom, get_ctx. rewrite Hc, Hbf.
  erewrite serve_over; [done|apply (cs_rep _ _ _ _ (ss_clients _ _ Hs i c b _ Hc Hbf Hq))|lia].
Qed.

Lemma run_sim ops s a :
  NoDup (map (fun c => fst (fst c)) udp_cfg) -> 0 <= buf_size -> Forall udp_op_ok ops -> server_sim s a ->
  match spec_run ops a with
  | Some a' => exists s', for_each ops udp_exec s = Ok (tt, s') /\ server_sim s' a'
  | None => for_each ops udp_exec s = Fault OutOfBounds
  end.
Proof.
  intros Hnd Hb Hops. revert s a. induction Hops as [|o ops Ho _ IH]; intros s a Hs; cbn [spec_run for_each].
  { by exists s. }
  destruct (overruns a o) eqn:Hov.
  { by apply bind_fault, (exec_overruns o s a). }
  destruct (exec_sim o s a Hnd Ho Hov Hs) as (s1 & E1 & Hs1). specialize (IH _ _ Hs1).
  destruct (spec_run ops (spec_exec a o)) as [a'|]; [|by rewrite (bind_ok _ _ _ _ _ E1)].
  destruct IH as (s2 & E2 & Hs2). exists s2. by rewrite (bind_ok _ _ _ _ _ E1).
Qed.

(** ** Wake-ups *)

(** Whether the client has been signalled since it was last told that there
    was nothing more for it. *)
Definition awake_step (i : nat) (b : bool) (e : udp_event) : bool :=
  match e with
  | Signal n => if n =? notification_of i then true else b
  | Reply bd (mr0 :: _) => if bd =? badge_of i then mr0 =? 0 else b
  | _ => b
  end.
Definition awake (i : nat) (log : list udp_event) : bool :=
  fold_left (awake_step i) log false.

Lemma awake_app i l es : awake i (l ++ es) = fold_left (awake_step i) es (awake i l).
Proof. apply fold_left_app. Qed.

Lemma awake_init i : awake i (udp_log udp_init) = false.
Proof.
  assert (forall l, fold_left (awake_step i)
    (map (fun c : Z * Z * Z => UdpBind (snd (fst c))) l ++ [LwipUnlock]) false = false) as H
    by (induction l as [|c l IH]; [done|exact IH]).
  apply H.
Qed.

(** The calls of another client do not matter. *)
Lemma awake_other i j k q l :
  notification_of j <> notification_of i -> badge_of j <> badge_of i ->
  awake i (l ++ recv_calls (notification_of j) q k) = awake i l /\
  awake i (l ++ serve_calls (badge_of j) q) = awake i l.
Proof.
  intros Hn Hb. rewrite !awake_app. unfold recv_calls, serve_calls.
  destruct (Z.eqb_spec (notification_of j) (notification_of i)) as [|E1]; [done|].
  destruct (Z.eqb_spec (badge_of j) (badge_of i)) as [|E2]; [done|].
  apply Z.eqb_neq in E1, E2.
  split; [destruct (_ <? _)%nat, q|destruct q]; cbn; rewrite ?E1, ?E2; done.
Qed.

Definition all_awake (a : udp_spec) : Prop :=
  forall i, (i < length udp_cfg)%nat ->
  awake i (sp_log a) = negb (bool_decide (nth i (sp_queues a) [] = [])).

Lemma cfg_inj (f : Z * Z * Z -> Z) (g : nat -> Z) i j :
  (forall i c, udp_cfg !! i = Some c -> g i = f c) ->
  NoDup (map f udp_cfg) -> (i < length udp_cfg)%nat -> (j < length udp_cfg)%nat ->
  j <> i -> g j <> g i.
Proof.
  intros Hg Hnd Hi Hj Hij Heq. apply Hij.
  destruct (lookup_lt_is_Some_2 udp_cfg j) as [cj Hcj]; [lia|].
  destruct (lookup_lt_is_Some_2 udp_cfg i) as [ci Hci]; [lia|].
  rewrite (Hg _ _ Hcj), (Hg _ _ Hci) in Heq.
  eapply (NoDup_lookup _ j i (f cj) Hnd); rewrite lookup_map, ?Hcj, ?Hci; cbn; congruence.
Qed.

Lemma spec_awake a o :
  NoDup (map (fun c => fst (fst c)) udp_cfg) -> NoDup (map snd udp_cfg) -> (1 <= bufs)%nat ->
  udp_op_ok o -> length (sp_queues a) = length udp_cfg -> all_awake a ->
  all_awake (spec_exec a o) /\ length (sp_queues (spec_exec a o)) = length udp_cfg.
Proof.
  intros Hnb Hnn Hbufs Ho Hlen Ha.
  split; [|destruct o; cbn; by rewrite length_insert]. intros i Hi.
  assert (forall j, (j < length udp_cfg)%nat -> j <> i ->
    notification_of j <> notification_of i /\ badge_of j <> badge_of i) as Hinj.
  { intros j Hj Hij. split.
    - apply (cfg_inj snd notification_of); try done.
      intros k [[? ?] ?] Hk. unfold notification_of. by rewrite Hk.
    - apply (cfg_inj (fun c => fst (fst c)) badge_of); try done.
      intros k [[? ?] ?] Hk. unfold badge_of. by rewrite Hk. }
  pose proof (Ha i Hi) as Hai. destruct o as [j p ad po|j]; cbn [spec_exec sp_log sp_queues udp_op_ok] in *.
  - rename Ho into Hj. rewrite nth_insert by lia. case_decide as Hij; cycle 1.
    { rewrite (proj1 (awake_other i j _ _ _ (proj1 (Hinj j Hj ltac:(done))) (proj2 (Hinj j Hj ltac:(done))))).
      exact Hai. }
    subst j. rewrite awake_app, Hai. set (q := nth i _ _). unfold recv_calls, q_recv.
    destruct (Nat.ltb_spec (length q) bufs); [|done].
    destruct q; cbn; [by rewrite Z.eqb_refl|done].
  - rewrite nth_insert by lia. case_decide as Hij; cycle 1.
    { rewrite (proj2 (awake_other i j ((mkPbuf 0 []), 0, 0) _ _ (proj1 (Hinj j Ho ltac:(done))) (proj2 (Hinj j Ho ltac:(done))))).
      exact Hai. }
    subst j. rewrite awake_app, Hai. set (q := nth i _ _). unfold serve_calls.
    destruct q as [|k [|k' q]]; cbn; rewrite Z.eqb_refl; done.
Qed.

Lemma spec_run_awake ops a a' :
  NoDup (map (fun c => fst (fst c)) udp_cfg) -> NoDup (map snd udp_cfg) -> (1 <= bufs)%nat -> Forall udp_op_ok ops ->
  length (sp_queues a) = length udp_cfg -> all_awake a -> spec_run ops a = Some a' -> all_awake a'.
Proof.
  intros Hnb Hnn Hb Hops. revert a. induction Hops as [|o ops Ho _ IH]; intros a Hl Ha; cbn [spec_run]; [by intros [= <-]|].
  destruct (overruns a o); [done|]. destruct (spec_awake a o Hnb Hnn Hb Ho Hl Ha). by apply IH.
Qed.

Lemma spec_init_awake : all_awake spec_init.
Proof.
  intros j Hj. change (sp_log spec_init) with (udp_log udp_init). rewrite awake_init. cbn [spec_init sp_queues].
  by rewrite nth_lookup, lookup_replicate_2.
Qed.

(** What is in the implementation's queue. *)
Lemma sim_used_head s a i c :
  server_sim s a -> udp_clients s !! i = Some c -> used_head c <> None <-> nth i (sp_queues a) [] <> [].
Proof.
  intros Hs Hc. pose proof (lookup_lt_Some _ _ _ Hc) as Hi. rewrite (ss_n1 _ _ Hs) in Hi.
  destruct (lookup_lt_is_Some_2 (udp_bufs s) i) as [b Hb]; [rewrite (ss_n2 _ _ Hs); lia|].
  destruct (lookup_lt_is_Some_2 (sp_queues a) i) as [q Hq]; [rewrite (ss_n3 _ _ Hs); lia|].
  rewrite (nth_lookup_Some _ _ _ _ Hq).
  destruct (cs_rep _ _ _ _ (ss_clients _ _ Hs i c b q Hc Hb Hq)) as (fl & ul & Hcl).
  pose proof (cl_holds _ _ _ _ Hcl) as Hh. pose proof (cl_used _ _ _ _ Hcl) as Hu.
  inversion Hh; subst; cbn in Hu; [rewrite Hu|destruct Hu as [-> _]]; done.
Qed.

End Refinement.

(** * Properties *)

Section Properties.
Context {E : UdpEnv}.

(** C20 -- The receive server implements a bounded FIFO queue per client: over
    any sequence of datagrams, of whatever length, and polls the linked lists in
    [message_memory] behave as the queues of the specification, with the same
    replies, buffer contents, signals and freed buffers in the same order, up to
    the first poll that takes a datagram longer than the shared buffer; that
    one, and nothing else, is copied past the buffer's end (the server does not
    check the length).  So if the datagrams fit the buffer no step touches memory
    it should not.  A datagram is dropped only when all of the client's messages
    are in use.  (The clients have different badges and at least one message
    each.) *)
Theorem udp_queue_refines (Hbadges : NoDup (map (fun c => fst (fst c)) udp_cfg))
    (Hbufs : (1 <= bufs)%nat) (Hsize : 0 <= buf_size) ops :
  Forall udp_op_ok ops ->
  match spec_run ops spec_init with
  | Some a => exists s, for_each ops udp_exec udp_init = Ok (tt, s) /\ server_sim s a
  | None => for_each ops udp_exec udp_init = Fault OutOfBounds
  end /\
  (Forall datagram_fits ops -> spec_run ops spec_init = Some (fold_left spec_exec ops spec_init)).
Proof.
  intros Hops. split; [by apply run_sim, init_sim|]. intros Hf. apply spec_run_fits; [done|done|by cbn; rewrite length_replicate|].
  intros i. cbn [spec_init sp_queues]. rewrite nth_lookup. destruct (_ !! i) as [q|] eqn:E1; [|constructor].
  apply lookup_replicate in E1 as [-> _]. constructor.
Qed.

(** C29 -- No wake-up is lost: after any sequence of datagrams and polls that the
    server comes to the end of, a client with a datagram in its queue has been
    signalled since it was last told that there was nothing more, and a client
    without one has not.  It comes to the end of every sequence in which no poll
    takes a datagram longer than the shared buffer, and of no other.  (The
    clients have different badges and notifications and at least one message
    each.) *)
Theorem udp_no_lost_wakeup (Hbadges : NoDup (map (fun c => fst (fst c)) udp_cfg))
    (Hnotifications : NoDup (map snd udp_cfg)) (Hbufs : (1 <= bufs)%nat) (Hsize : 0 <= buf_size)
    ops i :
  Forall udp_op_ok ops -> (i < length udp_cfg)%nat ->
  match spec_run ops spec_init with
  | Some _ => exists s c, for_each ops udp_exec udp_init = Ok (tt, s) /\ udp_clients s !! i = Some c /\
      (awake i (udp_log s) = true <-> used_head c <> None)
  | None => for_each ops udp_exec udp_init = Fault OutOfBounds
  end.
Proof.
  intros Hops Hi. pose proof (run_sim ops _ _ Hbadges Hsize Hops (init_sim Hbufs Hsize)) as H.
  destruct (spec_run ops spec_init) as [a|] eqn:Ea; [|done]. destruct H as (s & Hrun & Hs).
  assert (all_awake a) as Haw.
  { eapply spec_run_awake; [..|exact Ea]; try done; [by cbn; rewrite length_replicate|apply spec_init_awake]. }
  destruct (lookup_lt_is_Some_2 (udp_clients s) i) as [c Hc]; [rewrite (ss_n1 _ _ Hs); lia|].
  exists s, c. split; [done|]. split; [done|].
  by rewrite (sim_used_head s a i c Hs Hc), (ss_log _ _ Hs), (Haw i Hi), negb_true_iff, bool_decide_eq_false.
Qed.

(** A poll hands the oldest datagram over whole: what the client's
    [_poll] decodes from the server's reply is -1 for an empty queue, and
    otherwise whether more follow, the length, port and address of the oldest
    datagram, whose bytes are then the first ones of the shared buffer. *)
Lemma udp_poll_roundtrip badge u q :
  client_rep (uc u) q -> Z.of_nat (length (ubuf u)) = buf_size ->
  Forall (fun k => packet_len k <= buf_size /\ packet_len k < 4096 /\
                   inw 16 (snd k) /\ inw 32 (snd (fst k))) q ->
  exists u' mrs pre, serve_client badge u = Ok (tt, u') /\
  ulog u' = ulog u ++ pre ++ [Reply badge mrs; LwipUnlock] /\
  client_rep (uc u') (tail q) /\
  match q with
  | [] => udp_poll mrs = Ok (-1, None)
  | k :: q' =>
      udp_poll mrs = Ok (b2z (bool_decide (q' = [])), Some (packet_len k, snd k, snd (fst k))) /\
      take (length (packet_bytes k)) (ubuf u') = packet_bytes k
  end.
Proof.
  intros Hr Hb Hq.
  assert (Forall (fun k => packet_len k <= buf_size) q) as Hfit
    by (eapply List.Forall_impl; [|exact Hq]; cbn; tauto).
  assert (head_fits q) as Hhead by (by destruct Hfit).
  destruct (wp_ok _ _ _ (serve_run badge u q Hr Hb Hhead)) as ([] & u' & E1 & Hbuf & Hlog & Hr' & _).
  destruct q as [|k q'].
  - exists u', [u64 (-1)], [LwipLock]. by split_and!.
  - apply List.Forall_cons_iff in Hq as [(_ & Hlen & Hport & Haddr) _].
    assert (0 <= packet_len k) by (unfold packet_len; lia).
    eexists u', _, [LwipLock; PbufFree _]. split; [exact E1|]. split; [exact Hlog|].
    split; [exact Hr'|]. split; [|rewrite Hbuf; apply take_app_length].
    unfold udp_poll. change (arr (?a :: ?b :: _) 1) with b.
    change (arr (?a :: ?b :: ?c :: _) 2) with c. change (arr (?a :: ?b :: ?c :: ?d :: _) 3) with d.
    rewrite (u32_small (packet_len k)), (u16_small (snd k)), (u32_small (snd (fst k)))
      by (unfold inw in *; lia).
    destruct (Z.ltb_spec (packet_len k) 4096); [|lia]. by destruct q'.
Qed.

(** A datagram of less than a page is sent whole, from the sender's own
    connection to its configured port; a longer one is silently not sent at
    all, although [_send] reports 4096 bytes. *)
Lemma udp_send_delivers (Hbadges : NoDup (map (fun c => fst (fst c)) send_cfg))
    i badge src dest p addr buf :
  send_cfg !! i = Some (badge, src, dest) -> Z.of_nat (length p) < 2 ^ 32 ->
  let len := Z.of_nat (length p) in
  let '(mrs, buf', ret) := udp_send p len addr buf in
  (len < 4096 -> ret = len /\
     udp_send_body true badge mrs buf' = [LwipLock; SendTo i p addr dest; LwipUnlock]) /\
  (4096 <= len -> ret = 4096 /\ udp_send_body true badge mrs buf' = []).
Proof.
  intros Hi Hlen len. unfold udp_send, udp_send_body. change (arr [len; addr] 0) with len.
  change (arr [len; addr] 1) with addr. rewrite (u32_small len) by (unfold inw; lia).
  split; intros Hl; destruct (Z.gtb_spec len 4096); try lia; (split; [lia|]);
    destruct (Z.ltb_spec len 4096); try lia; try done.
  assert (list_find (fun c => fst (fst c) = badge) send_cfg = Some (i, (badge, src, dest))) as ->.
  { apply list_find_Some. split_and!; [done|done|]. intros j [[b s] d] Hj Hji. cbn. intros ->.
    assert (j = i); [|lia]. eapply (NoDup_lookup _ j i badge Hbadges);
      rewrite lookup_map, ?Hj, ?Hi; done. }
  unfold len. rewrite Nat2Z.id, (take_ge p) by lia. cbn. by rewrite take_app_length.
Qed.

End Properties.

(** ** Witnesses *)

(** Two clients with two messages each. *)
Definition udp_demo : UdpEnv := {|
  udp_cfg := [(1, 7000, 11); (2, 7001, 12)];
  bufs := 2;
  buf_size := 4096;
  send_cfg := [(1, 5000, 6000); (2, 5001, 6001)] |}.

Definition demo_ops : list udp_op :=
  [Poll 0; Recv 0 (mkPbuf 1 [[1; 2]; [3]]) 167772161 9; Recv 1 (mkPbuf 2 [[4]]) 167772162 9;
   Recv 0 (mkPbuf 3 [[5]]) 167772161 9; Recv 0 (mkPbuf 4 [[6]]) 167772161 9; Poll 0].

Lemma demo_ops_ok : Forall (@udp_op_ok udp_demo) demo_ops.
Proof. repeat (constructor; cbn; try lia). Qed.

Lemma demo_badges : NoDup (map (fun c : Z * Z * Z => fst (fst c)) (@udp_cfg udp_demo)).
Proof. by apply (bool_decide_unpack _). Qed.

Lemma demo_notifications : NoDup (map snd (@udp_cfg udp_demo)).
Proof. by apply (bool_decide_unpack _). Qed.

(** A datagram of 6000 bytes, which then is polled. *)
Definition demo_large : list udp_op := demo_ops ++ [Poll 0; Recv 0 (mkPbuf 5 [replicate 3000 0; replicate 3000 0]) 0 0; Poll 0].

Lemma udp_queue_refines_witness :
  (exists s, for_each demo_ops (@udp_exec udp_demo) (@udp_init udp_demo) = Ok (tt, s) /\
   @server_sim udp_demo s (fold_left (@spec_exec udp_demo) demo_ops (@spec_init udp_demo))) /\
  for_each demo_large (@udp_exec udp_demo) (@udp_init udp_demo) = Fault OutOfBounds.
Proof.
  split.
  - destruct (@udp_queue_refines udp_demo demo_badges ltac:(cbn; lia) ltac:(cbn; lia) demo_ops demo_ops_ok) as [H1 H2].
    rewrite H2 in H1; [exact H1|]. repeat (constructor; cbn; try lia).
  - refine (proj1 (@udp_queue_refines udp_demo demo_badges ltac:(cbn; lia) ltac:(cbn; lia) demo_large _)).
    repeat (constructor; cbn; try lia).
Defined.

(** Two datagrams are queued for the first client, which asked and got -1; the
    third was dropped; one has been read. *)
Lemma demo_queues :
  sp_queues (fold_left (@spec_exec udp_demo) demo_ops (@spec_init udp_demo))
  = [[(mkPbuf 3 [[5]], 167772161, 9)]; [(mkPbuf 2 [[4]], 167772162, 9)]].
Proof. reflexivity. Qed.

Lemma udp_no_lost_wakeup_witness :
  exists s c, for_each demo_ops (@udp_exec udp_demo) (@udp_init udp_demo) = Ok (tt, s) /\
  udp_clients s !! 1%nat = Some c /\
  (@awake udp_demo 1 (udp_log s) = true <-> used_head c <> None).
Proof.
  refine (@udp_no_lost_wakeup udp_demo demo_badges demo_notifications _ _ demo_ops 1
            demo_ops_ok _); cbn; lia.
Defined.

Definition demo_uctx : uctx :=
  mkUctx (@init_client udp_demo (1, 7000, 11)) (replicate 4096 0) [].

(** The first client after a datagram of two segments. *)
Definition demo_packet : packet := (mkPbuf 1 [[1; 2]; [3]], 167772161, 9).
Definition demo_uctx1 : uctx :=
  final (udprecv (mkPbuf 1 [[1; 2]; [3]]) 167772161 9) demo_uctx.

Lemma demo_rep : @client_rep udp_demo (uc demo_uctx1) [demo_packet].
Proof.
  assert (@client_rep udp_demo (uc demo_uctx) []) as H0 by (apply init_client_rep; cbn; lia).
  exact (proj1 (proj2 (proj2 (wp_final _ _ _
    (@udprecv_run udp_demo (mkPbuf 1 [[1; 2]; [3]]) 167772161 9 demo_uctx [] H0))))).
Qed.

Lemma udp_poll_roundtrip_witness :
  exists u' mrs pre, @serve_client udp_demo 1 demo_uctx1 = Ok (tt, u') /\
  ulog u' = ulog demo_uctx1 ++ pre ++ [Reply 1 mrs; LwipUnlock] /\
  @client_rep udp_demo (uc u') [] /\
  udp_poll mrs = Ok (b2z (bool_decide (@nil packet = [])), Some (packet_len demo_packet, 9, 167772161)) /\
  take (length (packet_bytes demo_packet)) (ubuf u') = packet_bytes demo_packet.
Proof.
  refine (@udp_poll_roundtrip udp_demo 1 demo_uctx1 [demo_packet] demo_rep _ _).
  - reflexivity.
  - constructor; [|constructor]. unfold packet_len, inw. cbn. lia.
Defined.

Lemma udp_send_delivers_witness :
  let '(mrs, buf', ret) := udp_send [1; 2; 3] 3 167772161 (replicate 4096 0) in
  (3 < 4096 -> ret = 3 /\
     @udp_send_body udp_demo true 2 mrs buf'
     = [LwipLock; SendTo 1 [1; 2; 3] 167772161 6001; LwipUnlock]) /\
  (4096 <= 3 -> ret = 4096 /\ @udp_send_body udp_demo true 2 mrs buf' = []).
Proof.
  refine (@udp_send_delivers udp_demo _ 1 2 5001 6001 [1; 2; 3] 167772161 (replicate 4096 0)
            eq_refl _).
  - apply (bool_decide_unpack _). reflexivity.
  - cbn. lia.
Defined.

(** * Behaviour outside the contract

    A datagram longer than the shared buffer is copied past its end: the
    server does not check the length. *)
Lemma udp_large_datagram :
  for_each [Recv 0 (mkPbuf 1 [replicate 3000 0; replicate 3000 0]) 0 0; Poll 0]
    (@udp_exec udp_demo) (@udp_init udp_demo) = Fault OutOfBounds.
Proof. vm_compute. reflexivity. Qed.
