(* ===== verification/Vmm.v ===== *)
(** The x86 VMM around the devices (components/Init/src/main.c): the handler
    of asynchronous notifications, which completes the devices' timers and
    injects interrupts, the list of device notifications, and the VMM's own
    access to the PCI configuration ports.

    Building the guest's address space and starting it is in X86Boot. *)

From S2P Require Import Prelude I8254 Mc146818 Serial Hpet.

(** * The machine *)

(** The globals of the device models and of main.c. [use_hpet] is
    CONFIG_VMM_USE_HPET. *)
Record Machine := mkMachine {
  m_pit : PITCommonState;
  m_rtc : RTCState;
  m_serial : Serial;
  m_hpet : HPETState;
  device_notify_list : list (Z * Z) }.
#[export] Instance eta_Machine : Eta Machine :=
  fun m => mkMachine (m_pit m) (m_rtc m) (m_serial m) (m_hpet m) (device_notify_list m).

Definition VM_PIC_BADGE_IRQ (i : Z) : Z := Z.lor (2 ^ 27) (2 ^ (i + 1)).

Definition irq_badges : list Z :=
  [134217730; 134217732; 134217736; 134217744; 134217760; 134217792; 134217856; 134217984;
   134218240; 134218752; 134219776; 134221824; 134225920; 134234112; 134250496; 134283264].

Definition TIMER_HPET1 : Z := 10.
Definition TIMER_HPET2 : Z := 11.

(** What the templates are filled with: the notification badges, and the
    badge and function of each init connection that has an interrupt.  [malloc]
    is the address it returns for a size. *)
Class VmmEnv := {
  use_hpet : bool;
  init_timer_notification_badge : Z;
  serial_getchar_notification_badge : Z;
  init_cons : list (option (Z * Z));
  malloc : Z -> Z }.

Definition on_pit {A} : Dev PITCommonState A -> Dev Machine A :=
  on_dev (fun m => Some (m_pit m)) (fun d m => m <| m_pit := d |>).
Definition on_rtc {A} : Dev RTCState A -> Dev Machine A :=
  on_dev (fun m => Some (m_rtc m)) (fun d m => m <| m_rtc := d |>).
Definition on_serial {A} : Dev Serial A -> Dev Machine A :=
  on_dev (fun m => Some (m_serial m)) (fun d m => m <| m_serial := d |>).
Definition on_hpet {A} : Dev HPETState A -> Dev Machine A :=
  on_dev (fun m => Some (m_hpet m)) (fun d m => m <| m_hpet := d |>).

(** [(badge & b) == b] *)
Definition has_badge (badge b : Z) : bool := badge .& b =? b.

Section Vmm.
Context {U : Utils} {R : RtcTimeDate} {V : VmmEnv}.

(** ** Asynchronous events *)

(** The timers the time server reports as completed. *)
Definition handle_timers (fuel : nat) (completed : Z) : Dev Machine unit :=
  when (tst completed (BIT TIMER_PIT)) (on_pit pit_timer_interrupt);;
  when (tst completed (BIT TIMER_PERIODIC_TIMER .| BIT TIMER_COALESCED_TIMER
                       .| BIT TIMER_SECOND_TIMER .| BIT TIMER_SECOND_TIMER2))
    (on_rtc (rtc_timer_interrupt completed));;
  when (tst completed (BIT TIMER_FIFO_TIMEOUT .| BIT TIMER_TRANSMIT_TIMER
                       .| BIT TIMER_MODEM_STATUS_TIMER .| BIT TIMER_MORE_CHARS))
    (on_serial (serial_timer_interrupt completed));;
  when use_hpet
    (when (tst completed (BIT TIMER_HPET0 .| BIT TIMER_HPET1 .| BIT TIMER_HPET2))
       (on_hpet (hpet_timer_interrupt fuel completed))).

Definition inject_irqs (badge : Z) : Dev Machine unit :=
  for_each (zrange 16) (fun i =>
    b ← lift (idx irq_badges i);
    when (has_badge badge b) (emit (InjectIrq i))).

(** The loop over the device notifications; a badge without a function is
    fatal. *)
Definition notify_devices (badge : Z) : Dev Machine unit :=
  m ← getd;
  for_each (device_notify_list m) (fun d =>
    let device_badge := u32 (fst d) in
    when (has_badge badge device_badge)
      (assertC (negb (snd d =? 0));; emit (DeviceNotify (snd d)))).

(** [completed] is what [init_timer_completed] answers, if it is asked. *)
Definition handle_async_event (fuel : nat) (badge completed : Z) : Dev Machine Z :=
  when (tst badge (BIT 27))
    (when (has_badge badge init_timer_notification_badge) (handle_timers fuel completed);;
     when (has_badge badge serial_getchar_notification_badge)
       (on_serial serial_character_interrupt);;
     inject_irqs badge;;
     notify_devices badge);;
  mret 0.

(** ** Start-up *)

(** seL4InitConnection.template.c: the badge and function of connection
    [con], if it has an interrupt. *)
Definition init_cons_has_interrupt (con : Z) : option (Z * Z) :=
  match init_cons !! Z.to_nat con with Some (Some x) => Some x | _ => None end.

(** The second loop: connection [i] on, entry [notify_idx] on. *)
Fixpoint fill_notify_list (cons : list Z) (notify_idx : Z) : Dev Machine Z :=
  match cons with
  | [] => mret notify_idx
  | i :: cons' =>
      match init_cons_has_interrupt i with
      | None => fill_notify_list cons' notify_idx
      | Some (badge, fun_) =>
          m ← getd;
          l ← lift (idx_set (device_notify_list m) notify_idx (u32 badge, fun_));
          modd (fun m => m <| device_notify_list := l |>);;
          fill_notify_list cons' (notify_idx + 1)
      end
  end.

(** The size of an entry of the list, with the padding before the pointer. *)
Definition sizeof_device_notify : Z := 16.

(** First the interrupts are counted, then the list of that length is filled. *)
Definition init_con_irq_init : Dev Machine unit :=
  let cons := zrange (length init_cons) in
  let irqs := length (filter (fun i => is_Some (init_cons_has_interrupt i)) cons) in
  assertC (negb (malloc (sizeof_device_notify * Z.of_nat irqs) =? 0));;
  modd (fun m => m <| device_notify_list := replicate irqs (0, 0) |>);;
  notify_idx ← fill_notify_list cons 0;
  assertC (notify_idx =? Z.of_nat irqs).

(** The order of [main_continued]. *)
Definition vmm_start : Dev Machine unit :=
  init_con_irq_init;;
  on_serial (on_port serial_pre_init);;
  on_pit pit_pre_init;;
  on_rtc rtc_pre_init;;
  when use_hpet
    (freq ← init_timer_tsc_frequency; on_hpet (hpet_pre_init freq TIMER_HPET0)).

(** What happens to a running VMM: notifications, the guest's port accesses,
    and characters arriving in the ring shared with the serial server. *)
Inductive vmm_op :=
| Async (badge completed : Z)
| PitAccess (o : pit_op)
| RtcAccess (o : rtc_op)
| SerialAccess (o : serial_op).

Definition vmm_exec (fuel : nat) (o : vmm_op) : Dev Machine unit :=
  match o with
  | Async badge completed => handle_async_event fuel badge completed;; mret tt
  | PitAccess o => on_pit (pit_exec o)
  | RtcAccess o => on_rtc (rtc_exec o)
  | SerialAccess o => on_serial (serial_exec o)
  end.

End Vmm.

(** ** The VMM's PCI configuration ports *)

Definition PCI_CONF_PORT_ADDR : Z := 0xCF8.
Definition PCI_CONF_PORT_ADDR_END : Z := 0xCFC.
Definition PCI_CONF_PORT_DATA : Z := 0xCFC.
Definition PCI_CONF_PORT_DATA_END : Z := 0xD00.

(** A call to the PCI configuration component: width, function, register (and
    value). *)
Inductive pci_call :=
| PciRead (width bus dev fun_ reg : Z)
| PciWrite (width bus dev fun_ reg val : Z).

(** The bus, device, function and register an address names. *)
Definition pci_conf_decode (conf offset : Z) : Z * Z * Z * Z :=
  ((conf .>> 16) .& 0xff, (conf .>> 11) .& 0x1f, (conf .>> 8) .& 0x7,
   u8 ((conf .& 0xff) + offset)).

(** [memcpy] of [io_size] bytes between a register and byte [offset] of the
    address. *)
Definition conf_get (conf offset io_size : Z) : outcome Z :=
  if offset + io_size <=? 4 then Ok ((conf .>> (8 * offset)) mod 2 ^ (8 * io_size))
  else Fault OutOfBounds.
Definition conf_set (conf offset io_size val : Z) : outcome Z :=
  if offset + io_size <=? 4 then
    let m := Z.shiftl (Z.ones (8 * io_size)) (8 * offset) in
    Ok ((conf .& .~ m) .| ((val mod 2 ^ (8 * io_size)) .<< (8 * offset)))
  else Fault OutOfBounds.

(** Both return the code (0 or -1), the new address and the call made. *)
Definition pci_config_io_in (conf port io_size : Z) (read : pci_call -> Z)
    : outcome (Z * Z * option pci_call) :=
  if (PCI_CONF_PORT_ADDR <=? port) && (port <? PCI_CONF_PORT_ADDR_END) then
    r ← conf_get conf (u8 (port - PCI_CONF_PORT_ADDR)) io_size;
    mret (0, r, None)
  else if (port <? PCI_CONF_PORT_DATA) || (PCI_CONF_PORT_DATA_END <? u32 (port + io_size)) then
    mret (-1, 0, None)
  else
    let offset := u8 (port - PCI_CONF_PORT_DATA) in
    let '(bus, dev, fun_, reg) := pci_conf_decode conf offset in
    if one_of io_size [1; 2; 4] then
      let c := PciRead io_size bus dev fun_ reg in
      mret (0, read c, Some c)
    else mret (-1, 0, None).

Definition pci_config_io_out (conf port io_size val : Z)
    : outcome (Z * Z * option pci_call) :=
  if (PCI_CONF_PORT_ADDR <=? port) && (port <? PCI_CONF_PORT_ADDR_END) then
    let val := val .& .~ 3 in
    conf' ← conf_set conf (u8 (port - PCI_CONF_PORT_ADDR)) io_size val;
    mret (0, conf', None)
  else if (port <? PCI_CONF_PORT_DATA) || (PCI_CONF_PORT_DATA_END <? u32 (port + io_size)) then
    mret (-1, conf, None)
  else
    let offset := u8 (port - PCI_CONF_PORT_DATA) in
    let '(bus, dev, fun_, reg) := pci_conf_decode conf offset in
    if one_of io_size [1; 2; 4] then
      mret (0, conf, Some (PciWrite io_size bus dev fun_ reg (val mod 2 ^ (8 * io_size))))
    else mret (-1, conf, None).

(** * Frames

    [only P m]: the calls a run of [m] makes all satisfy [P]. *)
Definition only {D A} (P : event -> Prop) (m : Dev D A) : Prop :=
  forall x a x', m x = Ok (a, x') ->
  exists es, w_log (snd x') = w_log (snd x) ++ es /\ Forall P es.

Section Only.
Context {D : Type} (P : event -> Prop).

Lemma only_none {A} (m : Dev D A) :
  (forall x a x', m x = Ok (a, x') -> w_log (snd x') = w_log (snd x)) -> only P m.
Proof. intros H x a x' Hm. exists []. rewrite app_nil_r. split; [by eapply H|constructor]. Qed.

Lemma only_ret {A} (a : A) : only (D := D) P (mret a).
Proof. apply only_none. by intros x b x' [= <- <-]. Qed.

Lemma only_bind {A B} (m : Dev D A) (k : A -> Dev D B) :
  only P m -> (forall a, only P (k a)) -> only P (m ≫= k).
Proof.
  intros Hm Hk x b x' H. unfold mbind, M_bind in H.
  destruct (m x) as [[a x1]|] eqn:E1; [|done].
  destruct (Hm _ _ _ E1) as (es1 & L1 & F1), (Hk _ _ _ _ H) as (es2 & L2 & F2).
  exists (es1 ++ es2). rewrite L2, L1, app_assoc. split; [done|by apply Forall_app].
Qed.

Lemma only_when (b : bool) (m : Dev D unit) : (b = true -> only P m) -> only P (when b m).
Proof. destruct b; intros H; [by apply H|apply only_ret]. Qed.

Lemma only_if {A} (b : bool) (m1 m2 : Dev D A) :
  only P m1 -> only P m2 -> only P (if b then m1 else m2).
Proof. by destruct b. Qed.

Lemma only_fail {A} f : only (D := D) (A := A) P (fail f).
Proof. by intros x a x'. Qed.

Lemma only_assertC b : only (D := D) P (assertC b).
Proof. destruct b; [apply only_ret|apply only_fail]. Qed.

Lemma only_lift {A} (o : outcome A) : only (D := D) P (lift o).
Proof. apply only_none. intros x a x'. unfold lift. by destruct o; intros [= <- <-]. Qed.

Lemma only_getd : only (D := D) P getd.
Proof. apply only_none. by intros x a x' [= <- <-]. Qed.

Lemma only_modd f : only (D := D) P (modd f).
Proof. apply only_none. by intros x a x' [= <- <-]. Qed.

Lemma only_emit e : P e -> only (D := D) P (emit e).
Proof. intros He x a x' [= <- <-]. exists [e]. split; [done|]. by constructor. Qed.

Lemma only_rdtsc : only (D := D) P rdtsc_pure.
Proof. apply only_none. by intros x a x' [= <- <-]. Qed.

Lemma only_time : only (D := D) P init_timer_time.
Proof. apply only_none. by intros x a x' [= <- <-]. Qed.

Lemma only_freq : only (D := D) P init_timer_tsc_frequency.
Proof. apply only_none. by intros x a x' [= <- <-]. Qed.

Lemma only_host_rtc : only (D := D) P system_rtc_time_date.
Proof. apply only_none. by intros x a x' [= <- <-]. Qed.

Lemma only_ns {U : Utils} f : only (D := D) P (current_time_ns f).
Proof. apply only_bind; [apply only_rdtsc|]. intros t. apply only_ret. Qed.

Lemma only_for_each {X} (l : list X) (body : X -> Dev D unit) :
  (forall x, only P (body x)) -> only P (for_each l body).
Proof.
  intros Hb. induction l as [|x l IH]; cbn; [apply only_ret|].
  apply only_bind; [apply Hb|]. by intros _.
Qed.

Lemma only_dev {E A} (g : D -> option E) st (m : Dev E A) :
  only P m -> only P (on_dev g st m).
Proof.
  intros Hm [d w] a [d' w'] H. unfold on_dev in H. cbn in H.
  destruct (g d) as [e|]; [|done]. destruct (m (e, w)) as [[b [e' w1]]|] eqn:E1; [|done].
  injection H as <- <- <-. exact (Hm _ _ _ E1).
Qed.

Lemma only_mono (Q : event -> Prop) {A} (m : Dev D A) :
  (forall e, Q e -> P e) -> only Q m -> only P m.
Proof.
  intros HQ Hm x a x' H. destruct (Hm _ _ _ H) as (es & L & F). exists es. split; [done|].
  by eapply List.Forall_impl.
Qed.

End Only.

Ltac head_of t := lazymatch t with ?f _ => head_of f | ?f => f end.

(** One step of a frame proof. *)
Ltac only_step :=
  lazymatch goal with
  | |- only _ (mbind _ _) => apply only_bind; [|intros ?]
  | |- only _ (mret _) => apply only_ret
  | |- only _ (when _ _) => apply only_when; intros _
  | |- only _ (if _ then _ else _) => apply only_if
  | |- only _ (match ?x with _ => _ end) => destruct x
  | |- only _ (let _ := _ in _) => cbv zeta
  | |- only _ (fail _) => apply only_fail
  | |- only _ (assertC _) => apply only_assertC
  | |- only _ (lift _) => apply only_lift
  | |- only _ getd => apply only_getd
  | |- only _ (modd _) => apply only_modd
  | |- only _ (emit _) => apply only_emit
  | |- only _ rdtsc_pure => apply only_rdtsc
  | |- only _ init_timer_time => apply only_time
  | |- only _ init_timer_tsc_frequency => apply only_freq
  | |- only _ system_rtc_time_date => apply only_host_rtc
  | |- only _ (current_time_ns _) => apply only_ns
  | |- only _ (for_each _ _) => apply only_for_each; intros ?
  | |- only _ (on_dev _ _ _) => apply only_dev
  | |- only _ ?m => let h := head_of m in unfold h
  end.
Tactic Notation "only_run" := repeat only_step.


Section DeviceFrames.
Context {U : Utils} {R : RtcTimeDate}.

(** The timer and the clock call neither the interrupt controller's injection
    nor a device, and drive their own interrupt line only. *)
Definition line_event (irq : Z) (e : event) : Prop :=
  match e with
  | SetIrqLevel i _ => i = irq
  | InjectIrq _ | DeviceNotify _ => False
  | _ => True
  end.

Lemma only_pit o : only (line_event TIMER_IRQ) (pit_exec o).
Proof. destruct o; only_run; done. Qed.

Lemma only_pit_timer : only (line_event TIMER_IRQ) pit_timer_interrupt.
Proof. only_run; done. Qed.

Lemma only_pit_pre_init : only (line_event TIMER_IRQ) pit_pre_init.
Proof. only_run; done. Qed.

Lemma only_rtc o : only (line_event RTC_IRQ) (rtc_exec o).
Proof. destruct o; only_run; done. Qed.

Lemma only_rtc_timer c : only (line_event RTC_IRQ) (rtc_timer_interrupt c).
Proof. only_run; done. Qed.

Lemma only_rtc_pre_init : only (line_event RTC_IRQ) rtc_pre_init.
Proof. only_run; done. Qed.

Lemma only_receive_loop fuel : only (line_event TTYS0_IRQ) (receive_loop fuel).
Proof. induction fuel as [|fuel IH]; only_run; try done. Qed.

Lemma only_character_interrupt : only (line_event TTYS0_IRQ) serial_character_interrupt.
Proof. unfold serial_character_interrupt. only_run; try done; apply only_receive_loop. Qed.

Lemma only_serial_timer c : only (line_event TTYS0_IRQ) (serial_timer_interrupt c).
Proof. unfold serial_timer_interrupt. only_run; try done; apply only_receive_loop. Qed.

Lemma only_serial_pre_init : only (line_event TTYS0_IRQ) (on_port serial_pre_init).
Proof. only_run; done. Qed.

Lemma only_serial o : only (line_event TTYS0_IRQ) (serial_exec o).
Proof. destruct o; only_run; try done; try apply only_receive_loop. Qed.

End DeviceFrames.

(** * The machine invariant *)

Section Machine.
Context {U : Utils} {R : RtcTimeDate} {V : VmmEnv}.

(** Every device is well-formed, and the serial port's interrupt line shows
    its state. *)
Definition minv (x : Machine * World) : Prop :=
  pit_wf (m_pit (fst x)) /\ rtc_wf (m_rtc (fst x)) /\
  dinv false (m_serial (fst x), snd x) /\
  Forall (fun d => snd d <> 0) (device_notify_list (fst x)).

(** [x'] is [x] after calls that satisfy [P]. *)
Definition extends (P : event -> Prop) (x x' : World) : Prop :=
  exists es, w_log x' = w_log x ++ es /\ Forall P es.

Lemma extends_refl P x : extends P x x.
Proof. exists []. rewrite app_nil_r. split; [done|constructor]. Qed.

Lemma extends_trans P x y z : extends P x y -> extends P y z -> extends P x z.
Proof.
  intros (es & L & F) (es' & L' & F'). exists (es ++ es'). rewrite L', L, app_assoc.
  split; [done|by apply Forall_app].
Qed.

Lemma extends_mono (P Q : event -> Prop) x y :
  (forall e, P e -> Q e) -> extends P x y -> extends Q x y.
Proof. intros HP (es & L & F). exists es. split; [done|by eapply List.Forall_impl]. Qed.

Lemma wp_only {D A} (P : event -> Prop) (m : Dev D A) (Q : A -> D * World -> Prop) x :
  wp m Q x -> only P m -> wp m (fun a x' => Q a x' /\ extends P (snd x) (snd x')) x.
Proof.
  intros Hw Ho. apply wp_ok in Hw as (a & x' & E1 & HQ). eapply wp_of_eq; [exact E1|].
  split; [done|]. exact (Ho _ _ _ E1).
Qed.

Lemma line_level_others log es :
  Forall other_event es -> line_level (log ++ es) = line_level log.
Proof.
  intros H. revert log. induction H as [|e es He _ IH]; intros log; [by rewrite app_nil_r|].
  replace (log ++ e :: es) with ((log ++ [e]) ++ es) by (by rewrite <-app_assoc).
  rewrite IH, line_level_app. destruct e; try done. cbn in He.
  by destruct (Z.eqb_spec irq TTYS0_IRQ).
Qed.

Lemma dinv_frame d w w' : extends other_event w w' -> dinv false (d, w) -> dinv false (d, w').
Proof.
  intros (es & L & F) [(Hs & Hl & Hf) Hr]. split; [|done]. split_and!; [done| |done].
  unfold line_ok in *. cbn in *. by rewrite L, line_level_others.
Qed.

Lemma other_line irq e : irq <> TTYS0_IRQ -> line_event irq e -> other_event e.
Proof. destruct e; cbn; try done. by intros ? ->. Qed.

(** A device call: no injection and no notification. *)
Definition dev_event (e : event) : Prop :=
  match e with InjectIrq _ | DeviceNotify _ => False | _ => True end.

Lemma dev_line irq e : line_event irq e -> dev_event e.
Proof. by destruct e. Qed.

(** If [b], the handler [h] has run, from [x] to [x']. *)
Definition ran {D} (b : bool) (h : Dev D unit) (x x' : D * World) : Prop :=
  if b then h x = Ok (tt, x') else x' = x.

Lemma wp_on_pit {A} (m : Dev PITCommonState A) x :
  minv x -> pkeeps m -> only (line_event TIMER_IRQ) m ->
  wp (on_pit m) (fun a x' => minv x' /\ (exists d, fst x' = (fst x) <| m_pit := d |>) /\
    extends dev_event (snd x) (snd x') /\ m (m_pit (fst x), snd x) = Ok (a, (m_pit (fst x'), snd x'))) x.
Proof.
  intros (Hp & Hr & Hs & Hd) Hk Ho. destruct x as [m0 w]. unfold on_pit.
  eapply (wp_on_dev _ _ _ _ _ _ (m_pit m0)); [done|].
  eapply wp_mono; [apply wp_eqn, (wp_only _ _ _ _ (Hk _ _ Hp) Ho)|]. cbn. intros a [d w'] [[Hp' He] E].
  split_and!; [split_and!; try done|by exists d| |done].
  - eapply dinv_frame; [|exact Hs]. eapply extends_mono; [|exact He]. intros e.
    by apply other_line.
  - eapply extends_mono; [|exact He]. apply dev_line.
Qed.

Lemma wp_on_rtc {A} (m : Dev RTCState A) x :
  minv x -> rkeeps m -> only (line_event RTC_IRQ) m ->
  wp (on_rtc m) (fun a x' => minv x' /\ (exists d, fst x' = (fst x) <| m_rtc := d |>) /\
    extends dev_event (snd x) (snd x') /\ m (m_rtc (fst x), snd x) = Ok (a, (m_rtc (fst x'), snd x'))) x.
Proof.
  intros (Hp & Hr & Hs & Hd) Hk Ho. destruct x as [m0 w]. unfold on_rtc.
  eapply (wp_on_dev _ _ _ _ _ _ (m_rtc m0)); [done|].
  eapply wp_mono; [apply wp_eqn, (wp_only _ _ _ _ (Hk _ _ Hr) Ho)|]. cbn. intros a [d w'] [[Hr' He] E].
  split_and!; [split_and!; try done|by exists d| |done].
  - eapply dinv_frame; [|exact Hs]. eapply extends_mono; [|exact He]. intros e.
    by apply other_line.
  - eapply extends_mono; [|exact He]. apply dev_line.
Qed.

Lemma wp_on_serial {A} (m : Dev Serial A) x :
  minv x -> dk false m -> only (line_event TTYS0_IRQ) m ->
  wp (on_serial m) (fun a x' => minv x' /\ (exists d, fst x' = (fst x) <| m_serial := d |>) /\
    extends dev_event (snd x) (snd x') /\ m (m_serial (fst x), snd x) = Ok (a, (m_serial (fst x'), snd x'))) x.
Proof.
  intros (Hp & Hr & Hs & Hd) Hk Ho. destruct x as [m0 w]. unfold on_serial.
  eapply (wp_on_dev _ _ _ _ _ _ (m_serial m0)); [done|].
  eapply wp_mono; [apply wp_eqn, (wp_only _ _ _ _ (Hk _ Hs) Ho)|]. cbn. intros a [d w'] [[Hr' He] E].
  split_and!; [split_and!; try done|by exists d| |done].
  eapply extends_mono; [|exact He]. apply dev_line.
Qed.

(** A device's part of the machine, run if [b]. *)
Lemma wp_when_ran {D} b (m : Dev Machine unit) (h : Dev D unit) (get : Machine -> D) set (x : Machine * World) :
  minv x -> fst x = set (get (fst x)) (fst x) ->
  wp m (fun _ x' => minv x' /\ (exists d, fst x' = set d (fst x)) /\ extends dev_event (snd x) (snd x') /\
    h (get (fst x), snd x) = Ok (tt, (get (fst x'), snd x'))) x ->
  wp (when b m) (fun _ x' => minv x' /\ ran b h (get (fst x), snd x) (get (fst x'), snd x') /\
    (exists d, fst x' = set d (fst x)) /\ extends dev_event (snd x) (snd x')) x.
Proof.
  intros Hx Hset Hm. apply wp_when; intros ->; cbn [ran].
  - eapply wp_mono; [exact Hm|]. intros [] x' (? & ? & ? & ?). by split_and!.
  - split_and!; [done..|by eexists|apply extends_refl].
Qed.

Lemma wp_when_pit b (m : Dev PITCommonState unit) x :
  minv x -> pkeeps m -> only (line_event TIMER_IRQ) m ->
  wp (when b (on_pit m)) (fun _ x' => minv x' /\ ran b m (m_pit (fst x), snd x) (m_pit (fst x'), snd x') /\
    (exists d, fst x' = (fst x) <| m_pit := d |>) /\ extends dev_event (snd x) (snd x')) x.
Proof.
  intros Hx Hk Ho. apply (wp_when_ran _ _ _ m_pit (fun d m => m <| m_pit := d |>)); [done|by destruct (fst x)|].
  eapply wp_mono; [by apply wp_on_pit|]. by intros [].
Qed.

Lemma wp_when_rtc b (m : Dev RTCState unit) x :
  minv x -> rkeeps m -> only (line_event RTC_IRQ) m ->
  wp (when b (on_rtc m)) (fun _ x' => minv x' /\ ran b m (m_rtc (fst x), snd x) (m_rtc (fst x'), snd x') /\
    (exists d, fst x' = (fst x) <| m_rtc := d |>) /\ extends dev_event (snd x) (snd x')) x.
Proof.
  intros Hx Hk Ho. apply (wp_when_ran _ _ _ m_rtc (fun d m => m <| m_rtc := d |>)); [done|by destruct (fst x)|].
  eapply wp_mono; [by apply wp_on_rtc|]. by intros [].
Qed.

Lemma wp_when_serial b (m : Dev Serial unit) x :
  minv x -> dk false m -> only (line_event TTYS0_IRQ) m ->
  wp (when b (on_serial m)) (fun _ x' => minv x' /\ ran b m (m_serial (fst x), snd x) (m_serial (fst x'), snd x') /\
    (exists d, fst x' = (fst x) <| m_serial := d |>) /\ extends dev_event (snd x) (snd x')) x.
Proof.
  intros Hx Hk Ho. apply (wp_when_ran _ _ _ m_serial (fun d m => m <| m_serial := d |>)); [done|by destruct (fst x)|].
  eapply wp_mono; [by apply wp_on_serial|]. by intros [].
Qed.

(** ** Injection and notification *)

Lemma has_badge_spec b m :
  has_badge b m = true <-> forall n, 0 <= n -> Z.testbit m n = true -> Z.testbit b n = true.
Proof.
  unfold has_badge. rewrite Z.eqb_eq. split.
  - intros H n Hn Ht. rewrite <-H, Z.land_spec in Ht. by apply andb_true_iff in Ht as [? _].
  - intros H. apply Z.bits_inj'. intros n Hn. rewrite Z.land_spec.
    destruct (Z.testbit m n) eqn:Ht; [by rewrite (H n Hn Ht)|apply andb_false_r].
Qed.

Lemma testbit_pow2 k n : 0 <= k -> 0 <= n -> Z.testbit (2 ^ k) n = (n =? k).
Proof.
  intros Hk Hn. destruct (Z.eqb_spec n k) as [->|Hne]; [by apply Z.pow2_bits_true|].
  by apply Z.pow2_bits_false.
Qed.

(** The badges of main.c are the bits the comments of vm.h give. *)
Lemma irq_badges_bits i : 0 <= i < 16 -> idx irq_badges i = Ok (VM_PIC_BADGE_IRQ i).
Proof.
  intros Hi.
  assert (forallb (fun i => match idx irq_badges i with
                            | Ok v => v =? VM_PIC_BADGE_IRQ i | Fault _ => false end) (zrange 16)
    = true) as H by reflexivity.
  pose proof (zrange_forall 16 _ H i Hi) as Hi'. cbv beta in Hi'.
  destruct (idx irq_badges i); [|done]. by apply Z.eqb_eq in Hi' as ->.
Qed.

Lemma has_irq_badge badge i :
  Z.testbit badge 27 = true -> 0 <= i < 16 ->
  has_badge badge (VM_PIC_BADGE_IRQ i) = Z.testbit badge (i + 1).
Proof.
  intros H27 Hi. apply eq_true_iff_eq. rewrite has_badge_spec. unfold VM_PIC_BADGE_IRQ. split.
  - intros H. apply H; [lia|]. rewrite Z.lor_spec, !testbit_pow2, Z.eqb_refl by lia.
    apply orb_true_r.
  - intros Hb n Hn. rewrite Z.lor_spec, !testbit_pow2, orb_true_iff, !Z.eqb_eq by lia.
    by intros [->| ->].
Qed.

(** A loop that only makes calls makes exactly these. *)
Lemma wp_for_each_calls {X} (l : list X) (body : X -> Dev Machine unit) (c : X -> list event)
    m w (Q : unit -> Machine * World -> Prop) :
  (forall x w' Q', In x l -> Q' tt (m, logged (c x) w') -> wp (body x) Q' (m, w')) ->
  Q tt (m, logged (concat (map c l)) w) -> wp (for_each l body) Q (m, w).
Proof.
  revert w. induction l as [|x l IH]; intros w Hb HQ; cbn [for_each].
  { wp_step. by rewrite logged_nil in HQ. }
  wp_step. apply Hb; [by left|]. apply IH; [intros; apply Hb; [by right|done]|].
  by rewrite logged_logged.
Qed.

Lemma concat_filter {X Y} (f : X -> bool) (g : X -> Y) l :
  concat (map (fun x => if f x then [g x] else []) l) = map g (List.filter f l).
Proof. induction l as [|x l IH]; [done|]. cbn. rewrite IH. by destruct (f x). Qed.

Definition injected (badge : Z) : list event :=
  map InjectIrq (List.filter (fun i => Z.testbit badge (i + 1)) (zrange 16)).
Definition notified (badge : Z) (l : list (Z * Z)) : list event :=
  map (fun d => DeviceNotify (snd d)) (List.filter (fun d => has_badge badge (u32 (fst d))) l).

Lemma wp_inject_irqs badge m w (Q : unit -> Machine * World -> Prop) :
  Z.testbit badge 27 = true -> Q tt (m, logged (injected badge) w) ->
  wp (inject_irqs badge) Q (m, w).
Proof.
  intros H27 HQ. unfold inject_irqs, injected in *. rewrite <-concat_filter in HQ.
  eapply wp_for_each_calls; [|exact HQ]. cbn beta. intros i w' Q' Hi%in_zrange HQ'. wp_step.
  eapply wp_lift; [by apply irq_badges_bits|]. rewrite has_irq_badge by done.
  destruct (Z.testbit badge (i + 1)); unfold when; wp_run; [done|]. by rewrite logged_nil in HQ'.
Qed.

Lemma wp_notify_devices badge m w (Q : unit -> Machine * World -> Prop) :
  Forall (fun d => snd d <> 0) (device_notify_list m) ->
  Q tt (m, logged (notified badge (device_notify_list m)) w) ->
  wp (notify_devices badge) Q (m, w).
Proof.
  intros Hd HQ. unfold notify_devices, notified in *. rewrite <-concat_filter in HQ.
  do 2 wp_step. eapply wp_for_each_calls; [|exact HQ]. cbn beta. intros d w' Q' Hin HQ'.
  rewrite List.Forall_forall in Hd. specialize (Hd d Hin).
  destruct (has_badge badge (u32 (fst d))); unfold when; wp_run.
  - by apply wp_assertC, wp_emit; [apply negb_true_iff, Z.eqb_neq|].
  - by rewrite logged_nil in HQ'.
Qed.

Lemma extends_injected badge l w :
  extends other_event w (logged (notified badge l) (logged (injected badge) w)).
Proof.
  exists (injected badge ++ notified badge l). rewrite logged_logged. split; [done|].
  apply Forall_app. split; apply List.Forall_forall; intros e (? & <- & _)%in_map_iff; done.
Qed.

(** ** The timers *)

Definition rtc_timers : Z :=
  BIT TIMER_PERIODIC_TIMER .| BIT TIMER_COALESCED_TIMER .| BIT TIMER_SECOND_TIMER .| BIT TIMER_SECOND_TIMER2.
Definition serial_timers : Z :=
  BIT TIMER_FIFO_TIMEOUT .| BIT TIMER_TRANSMIT_TIMER .| BIT TIMER_MODEM_STATUS_TIMER .| BIT TIMER_MORE_CHARS.

(** The handlers of the devices with a timer in [completed] have run, one
    device after the other, and nothing else has changed. *)
Definition timers_ran (completed : Z) (x x' : Machine * World) : Prop :=
  exists w1 w2,
    ran (tst completed (BIT TIMER_PIT)) pit_timer_interrupt (m_pit (fst x), snd x) (m_pit (fst x'), w1) /\
    ran (tst completed rtc_timers) (rtc_timer_interrupt completed) (m_rtc (fst x), w1) (m_rtc (fst x'), w2) /\
    ran (tst completed serial_timers) (serial_timer_interrupt completed)
      (m_serial (fst x), w2) (m_serial (fst x'), snd x') /\
    m_hpet (fst x') = m_hpet (fst x) /\ device_notify_list (fst x') = device_notify_list (fst x).

Lemma wp_handle_timers fuel completed x :
  use_hpet = false -> minv x ->
  wp (handle_timers fuel completed) (fun _ x' => minv x' /\
    timers_ran completed x x' /\ extends dev_event (snd x) (snd x')) x.
Proof.
  intros Hh Hx. unfold handle_timers. rewrite Hh.
  assert (pkeeps pit_timer_interrupt) as Hkp by exact (pkeeps_exec PitTimer I).
  wp_step. eapply wp_mono; [exact (wp_when_pit _ _ _ Hx Hkp only_pit_timer)|].
  intros [] x1 (Hx1 & Hp1 & (d1 & E1) & He1). wp_step.
  eapply wp_mono; [exact (wp_when_rtc _ _ _ Hx1 (rkeeps_timer_interrupt _) (only_rtc_timer _))|].
  intros [] x2 (Hx2 & Hp2 & (d2 & E2) & He2). wp_step.
  eapply wp_mono; [exact (wp_when_serial _ _ _ Hx2 (dk_timer_interrupt _ _) (only_serial_timer _))|].
  intros [] x3 (Hx3 & Hp3 & (d3 & E3) & He3). apply wp_when; [done|]. intros _.
  split; [done|]. split; [|by eapply extends_trans, extends_trans].
  exists (snd x1), (snd x2). rewrite E3, E2, E1 in *. cbn in *. by split_and!.
Qed.

(** ** The list of notifications *)

(** The interrupts of the connections, in order. *)
Definition configured_irqs (l : list (option (Z * Z))) : list (Z * Z) :=
  map (fun d => (u32 (fst d), snd d)) (omap id l).

Lemma has_interrupt_at l1 o l2 :
  init_cons = l1 ++ o :: l2 -> init_cons_has_interrupt (Z.of_nat (length l1)) = o.
Proof.
  intros E. unfold init_cons_has_interrupt. rewrite E, Nat2Z.id, lookup_app_r, Nat.sub_diag by lia.
  by destruct o.
Qed.

Lemma count_interrupts l1 l2 :
  init_cons = l1 ++ l2 ->
  length (filter (fun i => is_Some (init_cons_has_interrupt i))
            (map Z.of_nat (seq (length l1) (length l2)))) = length (configured_irqs l2).
Proof.
  revert l1. induction l2 as [|o l2 IH]; intros l1 E; [done|]. cbn [length seq map].
  rewrite filter_cons, (has_interrupt_at _ _ _ E).
  specialize (IH (l1 ++ [o])). rewrite length_app, Nat.add_comm in IH. cbn [length plus] in IH.
  rewrite <-app_assoc in IH. specialize (IH E).
  destruct o as [d|]; [rewrite decide_True by done|rewrite decide_False by by intros []];
    cbn [length]; rewrite IH; done.
Qed.

Lemma fill_notify_list_run l1 l2 done_ m w :
  init_cons = l1 ++ l2 ->
  device_notify_list m = done_ ++ replicate (length (configured_irqs l2)) (0, 0) ->
  fill_notify_list (map Z.of_nat (seq (length l1) (length l2))) (Z.of_nat (length done_)) (m, w)
  = Ok (Z.of_nat (length (done_ ++ configured_irqs l2)),
        (m <| device_notify_list := done_ ++ configured_irqs l2 |>, w)).
Proof.
  revert l1 done_ m. induction l2 as [|o l2 IH]; intros l1 done_ m E Hm; cbn [length seq map fill_notify_list].
  { change (configured_irqs []) with (@nil (Z * Z)) in *. cbn [length replicate] in Hm.
    rewrite app_nil_r in *. unfold mret, M_ret. subst done_. by destruct m. }
  rewrite (has_interrupt_at _ _ _ E).
  specialize (IH (l1 ++ [o])). rewrite length_app, Nat.add_comm in IH. cbn [length plus] in IH.
  rewrite <-app_assoc in IH.
  destruct o as [[b f]|]; [|by apply IH].
  change (configured_irqs (Some (b, f) :: l2)) with ((u32 b, f) :: configured_irqs l2) in *.
  cbn [length replicate] in Hm.
  rewrite (bind_ok _ _ _ m (m, w)) by done; cbv beta.
  rewrite Hm, (bind_ok _ _ _ _ (m, w) (lift_ok _ _ _ (idx_set_mid _ _ _ _))). cbv beta.
  rewrite (bind_ok _ _ _ tt (m <| device_notify_list :=
    done_ ++ (u32 b, f) :: replicate (length (configured_irqs l2)) (0, 0) |>, w)) by done. cbv beta.
  replace (Z.of_nat (length done_) + 1) with (Z.of_nat (length (done_ ++ [(u32 b, f)])))
    by (rewrite length_app; cbn; lia).
  rewrite (IH (done_ ++ [(u32 b, f)])); [by rewrite <-!app_assoc|done|].
  cbn. by rewrite <-app_assoc.
Qed.

(** ** From power-on *)

Definition vmm_op_ok (o : vmm_op) : Prop :=
  match o with PitAccess o => pit_op_ok o | Async _ _ | RtcAccess _ | SerialAccess _ => True end.

(** An access to the clock's ports is of one byte. *)
Definition byte_wide (o : vmm_op) : bool :=
  match o with RtcAccess (RtcIn _ size | RtcOut _ size _) => size =? 1 | _ => true end.

Definition machine_bss (ring : getchar_buffer) : Machine :=
  mkMachine pit_state_bss rtc_state_bss (mkSerial serialstate_bss ring) hpet_state_bss [].

(** Every connection with an interrupt names a function. *)
Definition irq_functions : Prop := Forall (fun d => snd d <> 0) (omap id init_cons).
(** There is memory for the list of notifications. *)
Definition notify_list_fits : Prop := malloc (sizeof_device_notify * Z.of_nat (length (omap id init_cons))) <> 0.

Lemma configured_length l : length (configured_irqs l) = length (omap id l).
Proof. unfold configured_irqs. apply length_map. Qed.

Lemma init_con_irq_init_run m w : notify_list_fits ->
  init_con_irq_init (m, w) = Ok (tt, (m <| device_notify_list := configured_irqs init_cons |>, w)).
Proof.
  intros Hl. unfold init_con_irq_init, zrange. rewrite (count_interrupts [] init_cons) by done.
  rewrite (bind_ok _ _ _ tt (m, w)).
  2:{ rewrite configured_length. unfold assertC, notify_list_fits in *. by rewrite (proj2 (Z.eqb_neq _ _) Hl). }
  erewrite bind_ok by reflexivity. cbv beta.
  erewrite bind_ok by (apply (fill_notify_list_run [] init_cons []); done).
  cbn [app]. by rewrite Z.eqb_refl.
Qed.

Lemma configured_functions :
  irq_functions -> Forall (fun d => snd d <> 0) (configured_irqs init_cons).
Proof. unfold irq_functions, configured_irqs. by rewrite List.Forall_map. Qed.

Lemma vmm_start_wf ring w :
  use_hpet = false -> notify_list_fits -> irq_functions -> ring_wf ring -> line_level (w_log w) = 0 ->
  wp vmm_start (fun _ x => minv x) (machine_bss ring, w).
Proof.
  intros Hh Hl Hf Hring Hw. unfold vmm_start. rewrite Hh.
  wp_step. eapply wp_of_eq; [by apply init_con_irq_init_run|].
  wp_step. unfold on_serial. eapply wp_on_dev; [done|]. apply wp_on_port.
  eapply wp_mono; [by apply serial_pre_init_ok|]. intros [] [s1 w1] H1%sinv_weaken. cbn [fst snd].
  wp_step. unfold on_pit. eapply wp_on_dev; [done|].
  eapply wp_mono; [exact (wp_only _ _ _ _ (pit_pre_init_wf w1) only_pit_pre_init)|].
  intros [] [p2 w2] [H2 He2]. cbn [fst snd] in *.
  wp_step. unfold on_rtc. eapply wp_on_dev; [done|].
  eapply wp_mono; [exact (wp_only _ _ _ _ (rkeeps_pre_init _ w2 rtc_wf_bss) only_rtc_pre_init)|].
  intros [] [r3 w3] [H3 He3]. cbn [fst snd] in *. unfold when. wp_step.
  split; [done|]. split; [done|]. split; [|by apply configured_functions].
  eapply dinv_frame; [eapply extends_mono; [|exact He3]; intros e; by apply other_line|].
  eapply dinv_frame; [eapply extends_mono; [|exact He2]; intros e; by apply other_line|].
  by split.
Qed.

(** The timers a notification says have completed. *)
Definition event_timers (badge completed : Z) : Z :=
  if has_badge badge init_timer_notification_badge then completed else 0.

(** The notification [badge] has been dispatched, from [x] to [x']: the timers
    that completed are handled, then the characters received, and only then the
    interrupts and functions named by the badge. *)
Definition dispatched (badge completed : Z) (x x' : Machine * World) : Prop :=
  exists x1 w4,
    timers_ran (event_timers badge completed) x x1 /\
    ran (has_badge badge serial_getchar_notification_badge) serial_character_interrupt
      (m_serial (fst x1), snd x1) (m_serial (fst x'), w4) /\
    m_pit (fst x') = m_pit (fst x1) /\ m_rtc (fst x') = m_rtc (fst x1) /\
    m_hpet (fst x') = m_hpet (fst x) /\ device_notify_list (fst x') = device_notify_list (fst x) /\
    snd x' = logged (injected badge ++ notified badge (device_notify_list (fst x))) w4.

Lemma tst_0 b : tst 0 b = false.
Proof. done. Qed.

Lemma timers_ran_none x : timers_ran 0 x x.
Proof. exists (snd x), (snd x). unfold ran. rewrite !tst_0. by destruct x. Qed.

Lemma wp_event_timers fuel badge completed x :
  use_hpet = false -> minv x ->
  wp (when (has_badge badge init_timer_notification_badge) (handle_timers fuel completed))
    (fun _ x' => minv x' /\ timers_ran (event_timers badge completed) x x' /\
                 extends dev_event (snd x) (snd x')) x.
Proof.
  intros Hh Hx. unfold event_timers. apply wp_when; intros ->.
  - by apply wp_handle_timers.
  - split_and!; [done|apply timers_ran_none|apply extends_refl].
Qed.

Lemma minv_calls badge l m w :
  minv (m, w) -> minv (m, logged (notified badge l) (logged (injected badge) w)).
Proof.
  intros (? & ? & ? & ?). split_and!; try done.
  eapply dinv_frame; [apply extends_injected|done].
Qed.

Lemma wp_handle_async_event fuel badge completed m w :
  use_hpet = false -> minv (m, w) -> Z.testbit badge 27 = tst badge (BIT 27) ->
  wp (handle_async_event fuel badge completed) (fun r x => r = 0 /\ minv x /\
    if Z.testbit badge 27 then
      dispatched badge completed (m, w) x /\
      exists es, Forall dev_event es /\
        w_log (snd x) = w_log w ++ es ++ injected badge ++ notified badge (device_notify_list m)
    else x = (m, w)) (m, w).
Proof.
  intros Hh Hx Hb. unfold handle_async_event. rewrite <-Hb.
  wp_step. apply wp_when; intros E; rewrite E; [|by wp_step].
  wp_step. eapply wp_mono; [by apply wp_event_timers|]. cbn [fst snd].
  intros [] [m1 w1] (H1 & F & L1). pose proof F as (? & ? & _ & _ & _ & F4 & F5). cbn [fst snd] in *.
  wp_step. eapply wp_mono.
  { apply (wp_when_serial _ _ _ H1); [|apply only_character_interrupt].
    intros [d w'] Hd. eapply wp_mono; [by apply character_interrupt_ok|]. by intros [] ? [? _]. }
  intros [] [m2 w2] (H2 & F6 & [d Ed] & L2). cbn [fst snd] in *.
  assert (device_notify_list m2 = device_notify_list m) as El by (subst m2; exact F5).
  wp_step. apply wp_inject_irqs; [done|]. apply wp_notify_devices; [apply H2|].
  wp_step. split; [done|]. split; [by apply minv_calls|]. split.
  - exists (m1, w1), w2. split; [exact F|]. rewrite logged_logged. cbn [fst snd]. rewrite El.
    split; [exact F6|]. subst m2. by split_and!.
  - destruct (extends_trans _ _ _ _ L1 L2) as (es & Le & Fe). exists es. split; [done|].
    by rewrite !w_log_logged, El, Le, !app_assoc.
Qed.

Lemma vmm_exec_ok fuel o m w :
  use_hpet = false -> (forall badge, Z.testbit badge 27 = tst badge (BIT 27)) ->
  vmm_op_ok o -> byte_wide o = true -> minv (m, w) -> wp (vmm_exec fuel o) (fun _ x => minv x) (m, w).
Proof.
  intros Hh Hb Ho Hw Hx. destruct o as [badge c|o|o|o]; cbn [vmm_exec vmm_op_ok byte_wide] in *.
  - wp_step. eapply wp_mono; [by apply wp_handle_async_event|]. intros r x (_ & ? & _). by wp_step.
  - eapply wp_mono; [apply wp_on_pit; [done|by apply pkeeps_exec|apply only_pit]|]. by intros ? ? [].
  - eapply wp_mono; [apply wp_on_rtc; [done| |apply only_rtc]|]; [|by intros ? ? []].
    apply rkeeps_exec. destruct o; cbn; by try apply Z.eqb_eq.
  - eapply wp_mono; [apply wp_on_serial; [done| |apply only_serial]|]; [|by intros ? ? []].
    intros [d w'] Hd. apply serial_exec_ok; [done|]. by intros [=].
Qed.

(** Any other access to the clock's ports stops the VMM. *)
Lemma vmm_exec_stops fuel o x : byte_wide o = false -> vmm_exec fuel o x = Fault AssertFailed.
Proof.
  destruct o as [| |[p sz|p sz v|c]|]; cbn [byte_wide]; intros H; try discriminate H;
    cbn [vmm_exec rtc_exec]; unfold on_rtc, on_dev, cmos_port_in, cmos_port_out; by rewrite H.
Qed.

(** A sequence of operations up to the first that is not byte-wide. *)
Lemma vmm_ops_run fuel ops x :
  use_hpet = false -> (forall badge, Z.testbit badge 27 = tst badge (BIT 27)) -> Forall vmm_op_ok ops -> minv x ->
  if forallb byte_wide ops then wp (for_each ops (vmm_exec fuel)) (fun _ => minv) x
  else for_each ops (vmm_exec fuel) x = Fault AssertFailed.
Proof.
  intros Hh Hb Hops. revert x. induction Hops as [|o ops Ho _ IH]; intros x Hx; cbn [forallb for_each]; [done|].
  destruct (byte_wide o) eqn:Hw; cbn [andb].
  - destruct x as [m w]. destruct (wp_ok _ _ _ (vmm_exec_ok fuel o m w Hh Hb Ho Hw Hx)) as ([] & x' & E & Hx').
    rewrite (bind_ok _ _ _ _ _ E). specialize (IH x' Hx'). destruct (forallb byte_wide ops); [|exact IH].
    apply wp_bind. eapply wp_of_eq; [exact E|exact IH].
  - unfold mbind, M_bind. by rewrite vmm_exec_stops.
Qed.

Lemma badge_bit27 `{!UtilsLaws U} badge : Z.testbit badge 27 = tst badge (BIT 27).
Proof.
  rewrite BIT_spec by lia. unfold tst. apply eq_true_iff_eq. rewrite negb_true_iff, Z.eqb_neq.
  split; intros H.
  - intros E. apply (f_equal (fun z => Z.testbit z 27)) in E.
    by rewrite Z.land_spec, H, testbit_pow2, Z.bits_0 in E by lia.
  - destruct (Z.testbit badge 27) eqn:E; [done|]. destruct H. apply Z.bits_inj'. intros n Hn.
    rewrite Z.land_spec, testbit_pow2, Z.bits_0 by lia.
    destruct (Z.eqb_spec n 27) as [->|]; [by rewrite E|by rewrite andb_false_r].
Qed.

(** C1 -- The devices of the running VMM.  In the configuration without the HPET,
    with memory for the list of notifications and every configured interrupt
    naming a function, the start-up of [main_continued] from power-on and then
    any sequence of notifications, guest port accesses to the timer, clock and
    serial port, and characters put into the ring by the serial server has one
    of two results, and which one depends on the widths of the accesses to the
    clock's ports alone.  If these are all of one byte, nothing faults: no
    assertion fails, no array is overrun and the loops end, and in the end each
    device keeps its invariant, the serial interrupt line shows the UART's state
    although the devices share one machine, and no notification names a null
    function.  A wider access stops the VMM at the assertion of cmos_port_in or
    cmos_port_out, whatever came before.  (A one-byte write is assumed to carry
    a byte.) *)
Theorem vmm_safe `{!UtilsLaws U} (fuel : nat) (ops : list vmm_op) (ring : getchar_buffer) (w : World) :
  use_hpet = false -> notify_list_fits -> irq_functions -> ring_wf ring -> line_level (w_log w) = 0 ->
  Forall vmm_op_ok ops ->
  let run := (vmm_start;; for_each ops (vmm_exec fuel)) (machine_bss ring, w) in
  if forallb byte_wide ops then exists x, run = Ok (tt, x) /\ minv x else run = Fault AssertFailed.
Proof.
  intros Hh Hl Hf Hring Hw Hops run. destruct (wp_ok _ _ _ (vmm_start_wf ring w Hh Hl Hf Hring Hw)) as ([] & x & E & Hx).
  pose proof (vmm_ops_run fuel ops x Hh badge_bit27 Hops Hx) as H. unfold run. rewrite (bind_ok _ _ _ _ _ E).
  destruct (forallb byte_wide ops); [|exact H]. apply wp_ok in H as ([] & x' & E' & H'). by exists x'.
Qed.

(** C22 -- A notification is dispatched completely and to nobody else (in the
    configuration without the HPET, from a state that keeps the invariant).  One
    without bit 27 does nothing.  Any other one, if the badge has the time
    server's bits, runs the timer's, then the clock's, then the serial port's
    handler, each exactly if one of its timers is among those the time server
    reports; then, if the badge has the serial server's bits, it drains the
    ring; every device ends in the state its handlers leave, so those not
    concerned are as they were.  After the calls of the devices it injects
    precisely the interrupts whose bit is in the badge, in increasing order, and
    then calls precisely the functions whose badge it contains, in the order of
    the list. *)
Theorem vmm_event_dispatch `{!UtilsLaws U} (fuel : nat) (badge completed : Z) (m : Machine) (w : World) :
  use_hpet = false -> minv (m, w) ->
  wp (handle_async_event fuel badge completed) (fun r x => r = 0 /\ minv x /\
    if Z.testbit badge 27 then
      dispatched badge completed (m, w) x /\
      exists es, Forall dev_event es /\
        w_log (snd x) = w_log w ++ es ++ injected badge ++ notified badge (device_notify_list m)
    else x = (m, w)) (m, w).
Proof. intros. apply wp_handle_async_event; [done..|apply badge_bit27]. Qed.

(** [init_con_irq_init] builds the list of notifications of exactly the
    connections that have an interrupt, in the order of the configuration,
    with badges cut to 32 bits: the array allocated from the first loop's
    count is filled to its last entry and never beyond it, and the closing
    assertion holds. *)
Lemma init_con_irq_init_exact (m : Machine) (w : World) : notify_list_fits ->
  init_con_irq_init (m, w) = Ok (tt, (m <| device_notify_list :=
    map (fun d => (u32 (fst d), snd d)) (omap id init_cons) |>, w)).
Proof. apply init_con_irq_init_run. Qed.

End Machine.

(** * The PCI configuration ports *)

(** The address word of a configuration register. *)
Definition pci_addr (bus dev fun_ reg : Z) : Z :=
  2 ^ 31 + bus * 2 ^ 16 + dev * 2 ^ 11 + fun_ * 2 ^ 8 + reg.

Definition pci_ok (bus dev fun_ reg : Z) : Prop :=
  inw 8 bus /\ inw 5 dev /\ inw 3 fun_ /\ inw 8 reg.

Lemma clear_low2 v : v .& .~ 3 = v - v mod 4.
Proof.
  change 3 with (Z.ones 2). rewrite <-Z.ldiff_land, Z.ldiff_ones_r, Z.shiftl_mul_pow2,
    Z.shiftr_div_pow2 by lia. change (2 ^ 2) with 4. pose proof (Z.div_mod v 4). lia.
Qed.

Lemma field_of v k n m : m = Z.ones n -> 0 <= k -> 0 <= n -> (v .>> k) .& m = v / 2 ^ k mod 2 ^ n.
Proof. intros -> ? ?. by rewrite Z.shiftr_div_pow2, Z.land_ones. Qed.

Lemma conf_set_word conf v : inw 32 conf -> inw 32 v -> conf_set conf 0 4 v = Ok v.
Proof.
  intros Hc Hv. unfold conf_set. cbn [Z.leb Z.add Z.compare Pos.compare].
  change (8 * 0) with 0. rewrite !Z.shiftl_0_r. change (8 * 4) with 32.
  rewrite Z.mod_small by exact Hv. rewrite <-Z.ldiff_land, Z.ldiff_ones_r by lia.
  rewrite Z.shiftr_div_pow2, Z.div_small, Z.shiftl_0_l by (try exact Hc; lia). done.
Qed.

Lemma pci_addr_fields bus dev fun_ reg c :
  pci_ok bus dev fun_ reg -> c = pci_addr bus dev fun_ reg - reg mod 4 ->
  inw 32 c /\ c / 2 ^ 16 mod 2 ^ 8 = bus /\ c / 2 ^ 11 mod 2 ^ 5 = dev /\
  c / 2 ^ 8 mod 2 ^ 3 = fun_ /\ c mod 2 ^ 8 = reg - reg mod 4.
Proof.
  unfold pci_ok, pci_addr, inw. intros (Hb & Hd & Hf & Hr) ->.
  change (2 ^ 8) with 256 in *. change (2 ^ 5) with 32 in *. change (2 ^ 3) with 8 in *.
  change (2 ^ 16) with 65536. change (2 ^ 11) with 2048. change (2 ^ 31) with 2147483648.
  change (2 ^ 32) with 4294967296.
  pose proof (Z.mod_pos_bound reg 4 eq_refl). pose proof (Z.mod_le reg 4).
  split; [lia|]. split_and!; Z.to_euclidean_division_equations; lia.
Qed.

Lemma pci_decode bus dev fun_ reg c off :
  pci_ok bus dev fun_ reg -> c = pci_addr bus dev fun_ reg - reg mod 4 -> 0 <= off <= 3 ->
  pci_conf_decode c off = (bus, dev, fun_, reg - reg mod 4 + off).
Proof.
  intros Hok Hc Ho. destruct (pci_addr_fields _ _ _ _ _ Hok Hc) as (_ & E1 & E2 & E3 & E4).
  unfold pci_conf_decode. rewrite (field_of _ 16 8), (field_of _ 11 5), (field_of _ 8 3) by done.
  change 255 with (Z.ones 8). rewrite Z.land_ones, E1, E2, E3, E4 by lia. repeat f_equal.
  unfold u8, wrap. apply Z.mod_small. destruct Hok as (_ & _ & _ & Hr). unfold inw in Hr.
  pose proof (Z.div_mod reg 4). pose proof (Z.mod_pos_bound reg 4 eq_refl).
  change (2 ^ 8) with 256 in *. assert (reg / 4 < 64) by (apply Z.div_lt_upper_bound; lia).
  assert (0 <= reg / 4) by (apply Z.div_pos; lia). lia.
Qed.

(** A configuration access through the address and data ports reaches the
    register it names: after the address of (bus, dev, fun, reg) has been
    written to port 0xCF8, with whatever was there before, the address reads
    back with its low two bits cleared, and a read or write of 1, 2 or 4 bytes
    at offset [off] of the data port makes exactly one call to the PCI
    component, of that width, for that bus, device and function and byte
    [off] of the aligned register. *)
Lemma pci_conf_roundtrip (conf0 bus dev fun_ reg off size val : Z) (read : pci_call -> Z) :
  inw 32 conf0 -> pci_ok bus dev fun_ reg -> one_of size [1; 2; 4] = true ->
  0 <= off -> off + size <= 4 ->
  let conf := pci_addr bus dev fun_ reg - reg mod 4 in
  let r := PciRead size bus dev fun_ (reg - reg mod 4 + off) in
  pci_config_io_out conf0 0xCF8 4 (pci_addr bus dev fun_ reg) = Ok (0, conf, None) /\
  pci_config_io_in conf 0xCF8 4 read = Ok (0, conf, None) /\
  pci_config_io_in conf (0xCFC + off) size read = Ok (0, read r, Some r) /\
  pci_config_io_out conf (0xCFC + off) size val
    = Ok (0, conf, Some (PciWrite size bus dev fun_ (reg - reg mod 4 + off)
                           (val mod 2 ^ (8 * size)))).
Proof.
  intros Hc Hok Hsz Ho Hs conf r.
  assert (1 <= size) as H1 by (revert Hsz; cbn; destruct (Z.eqb_spec size 1), (Z.eqb_spec size 2),
    (Z.eqb_spec size 4); lia).
  destruct (pci_addr_fields _ _ _ _ conf Hok eq_refl) as (Hw & _).
  assert (pci_addr bus dev fun_ reg .& .~ 3 = conf) as Ea.
  { rewrite clear_low2. subst conf. f_equal. unfold pci_addr.
    change (2 ^ 31) with (536870912 * 4). change (2 ^ 16) with (16384 * 4).
    change (2 ^ 11) with (512 * 4). change (2 ^ 8) with (64 * 4).
    rewrite !Z.mul_assoc, <-!Z.mul_add_distr_r, Z.add_comm, Z.mod_add by lia. done. }
  unfold pci_config_io_out, pci_config_io_in. cbn [andb Z.leb Z.ltb Z.compare Pos.compare
    Pos.compare_cont PCI_CONF_PORT_ADDR PCI_CONF_PORT_ADDR_END].
  split; [|split].
  - change (u8 (3320 - 3320)) with 0. by rewrite Ea, conf_set_word.
  - change (u8 (3320 - 3320)) with 0. unfold conf_get. cbn [Z.leb Z.compare Z.add Pos.compare].
    by rewrite Z.shiftr_0_r, Z.mod_small by exact Hw.
  - unfold PCI_CONF_PORT_ADDR, PCI_CONF_PORT_ADDR_END, PCI_CONF_PORT_DATA, PCI_CONF_PORT_DATA_END.
    replace (3324 + off <? 3324) with false by (symmetry; apply Z.ltb_ge; lia).
    rewrite andb_false_r. unfold u32, u8, wrap. rewrite Z.mod_small by lia.
    replace (3328 <? 3324 + off + size) with false by (symmetry; apply Z.ltb_ge; lia). cbn [orb].
    replace (3324 + off - 3324) with off by lia. rewrite Z.mod_small by lia.
    by rewrite (pci_decode bus dev fun_ reg), Hsz by (done || lia).
Qed.

(** * Witnesses *)

#[local] Existing Instances utils_ref rtc_time_date_ref.

#[local] Instance vmm_env_demo : VmmEnv :=
  {| use_hpet := false;
     init_timer_notification_badge := 2 ^ 27 + 2 ^ 20;
     serial_getchar_notification_badge := 2 ^ 27 + 2 ^ 21;
     init_cons := [Some (2 ^ 27 + 2 ^ 17, 4096); None; Some (2 ^ 27 + 2 ^ 18, 8192)];
     malloc := fun size => 0x10000 |}.

Definition vmm_demo : Machine * World :=
  match vmm_start (machine_bss ring_demo, world0) with Ok (_, x) => x | Fault _ => (machine_bss ring_demo, world0) end.

Lemma vmm_demo_inv : minv vmm_demo.
Proof.
  assert (irq_functions) as Hf by (repeat (apply List.Forall_cons; [done|]); apply List.Forall_nil).
  assert (wp vmm_start (fun _ x => minv x) (machine_bss ring_demo, world0)) as Hw
    by (apply vmm_start_wf; [reflexivity|done|done|apply ring_demo_wf|reflexivity]).
  destruct (wp_ok _ _ _ Hw) as ([] & x & E & Hx).
  unfold vmm_demo. by rewrite E.
Qed.

(** A guest that programs the timer and reads the clock, a key and a
    notification; and one that reads the clock two bytes at a time. *)
Definition demo_guest : list vmm_op :=
  [PitAccess (PitOut 0x43 1 0x34); PitAccess (PitOut 0x40 1 0xff); RtcAccess (RtcIn 0x71 1);
   SerialAccess (SerPush [104; 105]); Async (2 ^ 27 + 2 ^ 20 + 2 ^ 21 + 2 ^ 5) 3].

Lemma demo_guest_ok : Forall vmm_op_ok demo_guest.
Proof. repeat (apply List.Forall_cons; [first [done | by intros _; width]|]); apply List.Forall_nil. Qed.

Lemma vmm_safe_witness :
  (exists x, (vmm_start;; for_each demo_guest (vmm_exec 4)) (machine_bss ring_demo, world0) = Ok (tt, x) /\ minv x) /\
  (vmm_start;; for_each (demo_guest ++ [RtcAccess (RtcIn 0x71 2)]) (vmm_exec 4)) (machine_bss ring_demo, world0)
  = Fault AssertFailed.
Proof.
  assert (irq_functions) as Hf by (repeat (apply List.Forall_cons; [done|]); apply List.Forall_nil).
  split.
  - apply (vmm_safe 4 demo_guest); [reflexivity|done|exact Hf|apply ring_demo_wf|reflexivity|apply demo_guest_ok].
  - apply (vmm_safe 4 (demo_guest ++ [RtcAccess (RtcIn 0x71 2)]));
      [reflexivity|done|exact Hf|apply ring_demo_wf|reflexivity|].
    apply Forall_app. split; [apply demo_guest_ok|by repeat constructor].
Defined.

Lemma vmm_event_dispatch_witness :
  wp (handle_async_event 4 (2 ^ 27 + 2 ^ 17 + 2 ^ 5) 3) (fun r x => r = 0 /\ minv x /\
    if Z.testbit (2 ^ 27 + 2 ^ 17 + 2 ^ 5) 27 then
      dispatched (2 ^ 27 + 2 ^ 17 + 2 ^ 5) 3 (fst vmm_demo, snd vmm_demo) x /\
      exists es, Forall dev_event es /\
        w_log (snd x) = w_log (snd vmm_demo) ++ es ++ injected (2 ^ 27 + 2 ^ 17 + 2 ^ 5)
          ++ notified (2 ^ 27 + 2 ^ 17 + 2 ^ 5) (device_notify_list (fst vmm_demo))
    else x = (fst vmm_demo, snd vmm_demo)) (fst vmm_demo, snd vmm_demo).
Proof.
  apply vmm_event_dispatch; [reflexivity|]. rewrite <-surjective_pairing. exact vmm_demo_inv.
Defined.

Example vmm_demo_calls :
  injected (2 ^ 27 + 2 ^ 17 + 2 ^ 5) = [InjectIrq 4] /\
  notified (2 ^ 27 + 2 ^ 17 + 2 ^ 5) (device_notify_list (fst vmm_demo)) = [DeviceNotify 4096].
Proof. by vm_compute. Qed.

Lemma pci_conf_roundtrip_witness :
  pci_config_io_out 0xffffffff 0xCF8 4 (pci_addr 1 2 3 0x46) = Ok (0, 0x80011344, None) /\
  pci_config_io_in 0x80011344 0xCF8 4 (fun _ => 7) = Ok (0, 0x80011344, None) /\
  pci_config_io_in 0x80011344 (0xCFC + 2) 2 (fun _ => 7)
    = Ok (0, 7, Some (PciRead 2 1 2 3 0x46)) /\
  pci_config_io_out 0x80011344 (0xCFC + 2) 2 0x12345
    = Ok (0, 0x80011344, Some (PciWrite 2 1 2 3 0x46 0x2345)).
Proof.
  apply (pci_conf_roundtrip 0xffffffff 1 2 3 0x46 2 2 0x12345 (fun _ => 7));
    try done; repeat split; done.
Defined.

(** ** Finding: the low two bits are cleared at any offset

    A byte written to the second byte of the address register loses its low
    two bits as well, so the function number cannot be set that way. *)
Lemma pci_byte_write_clears :
  pci_config_io_out 0 0xCF9 1 7 = Ok (0, 0x400, None).
Proof. reflexivity. Qed.
