(* ===== verification/Console.v ===== *)
(** The virtio consoles of the x86 VMM (components/Init/src/virtio_con.c), whose
    code the ARM VMM shares (see ConsoleArm): the rings of
    characters two VMMs share for each console connection, the forwarding of
    characters, and the callback that hands received ones to the guest.

    The emulation layer's [emul_putchar] and the notifications of a virtqueue
    channel are calls in a log.  The pages shared between VMMs are a store
    indexed by their address.  Each access to a shared page that the other VMM
    can observe is a definition of its own; the functions of the C files
    compose them, and [link_step] interleaves them. *)

From stdpp Require Import gmap.
From S2P Require Import Prelude.

(** * Data *)

(** 0x1000 - 2 * sizeof(uint32_t) *)
Definition BUFSIZE : Z := 4088.

Record serial_shmem := mkShmem {
  sh_head : Z;                (* uint32_t *)
  sh_tail : Z;                (* uint32_t *)
  sh_buf : list Z }.          (* char [BUFSIZE] *)
#[export] Instance eta_serial_shmem : Eta serial_shmem :=
  fun r => mkShmem (sh_head r) (sh_tail r) (sh_buf r).

(** The functions and pages are addresses; 0 is NULL. *)
Record serial_conn := mkConn { c_notify : Z; recv_buf : Z; send_buf : Z }.
#[export] Instance eta_serial_conn : Eta serial_conn :=
  fun c => mkConn (c_notify c) (recv_buf c) (send_buf c).

Inductive con_event :=
| Notify (fun_ : Z)
| EmulPutchar (port : Z) (buf : list Z) (head tail : Z)
| RegisterHandler (badge : Z).

(** A VMM's globals and the pages it can reach. *)
Record Console := mkConsole {
  connections : list serial_conn;
  shm : gmap Z serial_shmem;
  con_log : list con_event }.
#[export] Instance eta_Console : Eta Console :=
  fun s => mkConsole (connections s) (shm s) (con_log s).

(** camkes_virtqueue_channel_t, as far as the code uses it. *)
Record channel := mkChannel { ch_notify : Z; channel_buffer : Z; recv_badge : Z }.

Definition con_emit (e : con_event) : M Console unit :=
  modify (fun s => s <| con_log := con_log s ++ [e] |>).

(** [*p] for a page. *)
Definition page (p : Z) : M Console serial_shmem :=
  s ← get;
  match shm s !! p with
  | Some r => mret r
  | None => fail NullDeref
  end.
Definition set_page (p : Z) (r : serial_shmem) : M Console unit :=
  modify (fun s => s <| shm := <[p := r]> (shm s) |>).

(** * Access to a ring *)

Definition ring_store (c : Z) (r : serial_shmem) : outcome serial_shmem :=
  b ← idx_set (sh_buf r) (sh_tail r) c;
  mret (r <| sh_buf := b |>).
Definition ring_publish (r : serial_shmem) : serial_shmem :=
  r <| sh_tail := u32 (sh_tail r + 1) mod BUFSIZE |>.
(** [(tail + 1) % BUFSIZE == head] *)
Definition ring_full (r : serial_shmem) : bool :=
  u32 (sh_tail r + 1) mod BUFSIZE =? sh_head r.
(** Newline or staging area full. *)
Definition time_to_send (c : Z) (r : serial_shmem) : bool := (c =? 10) || ring_full r.

Section Console.
(** NUM_PORTS *)
Variable NUM_PORTS : Z.

(** The accesses of [tx_virtcon_forward] to the page the other VMM reads. *)
Definition tx_store (conn : serial_conn) (c : Z) : M Console unit :=
  r ← page (send_buf conn);
  r ← lift (ring_store c r);
  set_page (send_buf conn) r.
Definition tx_publish (conn : serial_conn) : M Console unit :=
  r ← page (send_buf conn);
  set_page (send_buf conn) (ring_publish r).
Definition tx_notify (conn : serial_conn) (c : Z) : M Console unit :=
  r ← page (send_buf conn);
  when (time_to_send c r) (con_emit (Notify (c_notify conn))).

(** Those of the callback and [virtio_con_notify_recv] to the page the other
    VMM writes. *)
Definition rx_waiting (conn : serial_conn) : M Console bool :=
  r ← page (recv_buf conn);
  mret (negb (sh_head r =? sh_tail r)).
Definition rx_call (port : Z) (conn : serial_conn) : M Console Z :=
  buffer ← page (recv_buf conn);
  let last_read_tail := sh_tail buffer in
  con_emit (EmulPutchar port (sh_buf buffer) (sh_head buffer) last_read_tail);;
  mret last_read_tail.
Definition rx_advance (conn : serial_conn) (last_read_tail : Z) : M Console unit :=
  buffer ← page (recv_buf conn);
  set_page (recv_buf conn) (buffer <| sh_head := last_read_tail |>).

(** Both VMMs compile the same text for these three. *)
Definition con_forward (port c : Z) : M Console unit :=
  if u64 port >=? NUM_PORTS then mret tt
  else
    s ← get;
    conn ← lift (idx (connections s) port);
    tx_store conn c;;
    tx_publish conn;;
    tx_notify conn c.

Definition con_notify_recv (port : Z) : M Console unit :=
  s ← get;
  conn ← lift (idx (connections s) port);
  last_read_tail ← rx_call port conn;
  rx_advance conn last_read_tail.

Definition con_handle : M Console unit :=
  for_each (zrange (Z.to_nat NUM_PORTS)) (fun i =>
    s ← get;
    conn ← lift (idx (connections s) i);
    b ← rx_waiting conn;
    when b (con_notify_recv i)).

End Console.

(** The configuration: the layout of the connections ([recv_id], [send_id])
    and the channels CAmkES answers; on ARM also the page shared with the
    serial server and whether a handler could be registered. *)
Class ConsoleEnv := {
  serial_layout : list (Z * Z);
  recv_channel : Z -> option channel;
  send_channel : Z -> option channel;
  batch_batch : Z;
  batch_buf : Z;
  serial_getchar_buf : Z;
  serial_getchar_badge : Z;
  register_async_event_handler : Z -> Z }.

Definition clear_page (p : Z) : M Console unit :=
  r ← page p;
  set_page p (r <| sh_head := 0 |>);;
  r ← page p;
  set_page p (r <| sh_tail := 0 |>).

Definition set_connection (i : Z) (c : serial_conn) : M Console unit :=
  s ← get;
  l ← lift (idx_set (connections s) i c);
  modify (fun s => s <| connections := l |>).

(** ** The x86 VMM *)

Section X86.
Context {E : ConsoleEnv}.

Definition NUM_PORTS : Z := Z.of_nat (length serial_layout).
Definition tx_virtcon_forward : Z -> Z -> M Console unit := con_forward NUM_PORTS.
Definition virtio_con_notify_recv : Z -> M Console unit := con_notify_recv.
Definition handle_serial_console : M Console unit := con_handle NUM_PORTS.

Definition make_virtio_con_virtqueues : M Console unit :=
  for_until (zrange (Z.to_nat NUM_PORTS)) (fun i =>
    ids ← lift (idx serial_layout i);
    match recv_channel (fst ids), send_channel (snd ids) with
    | Some rc, Some sc =>
        set_connection i (mkConn (ch_notify sc) (channel_buffer rc) (channel_buffer sc));;
        clear_page (channel_buffer rc);;
        clear_page (channel_buffer sc);;
        mret false
    | _, _ => mret true
    end);;
  mret tt.

End X86.


(** * One ring between two VMMs

    The producer is a VMM in [tx_virtcon_forward], the consumer one in
    [handle_serial_console]; the signal is the consumer's notification. *)

(** How far [b] is ahead of [a] on the ring. *)
Definition dist (a b : Z) : Z := (b - a) mod BUFSIZE.
(** [n] characters from [h] on. *)
Definition slice (buf : list Z) (h : Z) (n : nat) : list Z :=
  map (fun i => arr buf ((h + i) mod BUFSIZE)) (zrange n).
(** The characters between two positions. *)
Definition between (buf : list Z) (a b : Z) : list Z := slice buf a (Z.to_nat (dist a b)).

Inductive producer := PIdle | PStored (c : Z) | PPublished (c : Z).
Inductive consumer := CIdle | CWoken | CChecked | CCalling (last_read_tail : Z).

Record link := mkLink {
  l_ring : serial_shmem;
  l_prod : producer;
  l_cons : consumer;
  l_signal : bool;
  l_written : list Z;        (* every character published *)
  l_read : list Z }.         (* every character given to emul_putchar *)

(** The interleavings in which the producer does not write into a full ring:
    [link_step_next], [tx_next_code] and [rx_next_code] show that the steps are
    the accesses of the functions above, [forward_accesses] and
    [serve_accesses] that these are all the accesses the functions make. *)
Inductive link_step : link -> link -> Prop :=
| StepStore c r r' k s w d : ring_full r = false -> ring_store c r = Ok r' ->
    link_step (mkLink r PIdle k s w d) (mkLink r' (PStored c) k s w d)
| StepPublish c r k s w d :
    link_step (mkLink r (PStored c) k s w d)
              (mkLink (ring_publish r) (PPublished c) k s (w ++ [c]) d)
| StepNotify c r k s w d :
    link_step (mkLink r (PPublished c) k s w d) (mkLink r PIdle k (s || time_to_send c r) w d)
| StepWake r p s w d :
    link_step (mkLink r p CIdle s w d) (mkLink r p CWoken false w d)
| StepEmpty r p s w d : sh_head r = sh_tail r ->
    link_step (mkLink r p CWoken s w d) (mkLink r p CIdle s w d)
| StepCheck r p s w d : sh_head r <> sh_tail r ->
    link_step (mkLink r p CWoken s w d) (mkLink r p CChecked s w d)
| StepCall r p s w d :
    link_step (mkLink r p CChecked s w d)
              (mkLink r p (CCalling (sh_tail r)) s w
                 (d ++ between (sh_buf r) (sh_head r) (sh_tail r)))
| StepReturn last r p s w d :
    link_step (mkLink r p (CCalling last) s w d) (mkLink (r <| sh_head := last |>) p CIdle s w d).

Definition link_init (buf : list Z) : link := mkLink (mkShmem 0 0 buf) PIdle CIdle false [] [].

(** Where the consumer is. *)
Definition position (l : link) : Z :=
  match l_cons l with CCalling last => last | _ => sh_head (l_ring l) end.
(** What it has not been given. *)
Definition undelivered (l : link) : list Z :=
  between (sh_buf (l_ring l)) (position l) (sh_tail (l_ring l)).

Record shmem_wf (r : serial_shmem) : Prop := {
  shw_len : length (sh_buf r) = Z.to_nat BUFSIZE;
  shw_head : 0 <= sh_head r < BUFSIZE;
  shw_tail : 0 <= sh_tail r < BUFSIZE }.

(** ** Positions on the ring *)

Lemma dist_range a b : 0 <= dist a b < BUFSIZE.
Proof. by apply Z.mod_pos_bound. Qed.

Lemma dist_self a : dist a a = 0.
Proof. unfold dist. by rewrite Z.sub_diag. Qed.

Lemma dist_eq a b : 0 <= a < BUFSIZE -> 0 <= b < BUFSIZE -> dist a b = 0 -> a = b.
Proof. unfold dist, BUFSIZE. Z.to_euclidean_division_equations; lia. Qed.

Lemma dist_next a b :
  0 <= a < BUFSIZE -> 0 <= b < BUFSIZE -> dist a b < BUFSIZE - 1 ->
  dist a ((b + 1) mod BUFSIZE) = dist a b + 1.
Proof. unfold dist, BUFSIZE. Z.to_euclidean_division_equations; lia. Qed.

Lemma dist_split a b c :
  0 <= a < BUFSIZE -> 0 <= b < BUFSIZE -> 0 <= c < BUFSIZE -> dist a b <= dist a c ->
  dist b c = dist a c - dist a b.
Proof. unfold dist, BUFSIZE. Z.to_euclidean_division_equations; lia. Qed.

Lemma dist_free a b i :
  0 <= a < BUFSIZE -> 0 <= b < BUFSIZE -> 0 <= i < dist a b -> (a + i) mod BUFSIZE <> b.
Proof. unfold dist, BUFSIZE. Z.to_euclidean_division_equations; lia. Qed.

Lemma dist_end a b : 0 <= b < BUFSIZE -> (a + dist a b) mod BUFSIZE = b.
Proof.
  intros Hb. unfold dist. rewrite Zplus_mod_idemp_r. replace (a + (b - a)) with b by lia.
  by apply Z.mod_small.
Qed.

Lemma full_dist r : shmem_wf r -> ring_full r = true <-> dist (sh_head r) (sh_tail r) = BUFSIZE - 1.
Proof.
  intros [_ Hh Ht]. unfold ring_full, dist, u32, wrap, BUFSIZE in *. rewrite Z.eqb_eq.
  rewrite (Z.mod_small (sh_tail r + 1)) by lia. Z.to_euclidean_division_equations; lia.
Qed.

Lemma publish_tail r : shmem_wf r -> sh_tail (ring_publish r) = (sh_tail r + 1) mod BUFSIZE.
Proof.
  intros [_ _ Ht]. unfold ring_publish, u32, wrap, BUFSIZE in *. cbn -[Z.modulo].
  by rewrite (Z.mod_small (sh_tail r + 1) (2 ^ 32)) by lia.
Qed.

Lemma publish_wf r : shmem_wf r -> shmem_wf (ring_publish r).
Proof.
  intros Hr. pose proof (publish_tail r Hr) as Ht. destruct Hr. split; [done|done|].
  rewrite Ht. by apply Z.mod_pos_bound.
Qed.

Lemma store_ok c r : shmem_wf r -> ring_store c r = Ok (r <| sh_buf := arr_set (sh_buf r) (sh_tail r) c |>).
Proof.
  intros [Hl _ Ht]. unfold ring_store, BUFSIZE in *. rewrite idx_set_ok by (rewrite Hl; lia). done.
Qed.

Lemma store_wf c r : shmem_wf r -> shmem_wf (r <| sh_buf := arr_set (sh_buf r) (sh_tail r) c |>).
Proof. intros []. split; [|done..]. cbn. by rewrite length_arr_set. Qed.

Lemma slice_app buf h n m :
  slice buf h (n + m) = slice buf h n ++ slice buf ((h + Z.of_nat n) mod BUFSIZE) m.
Proof.
  unfold slice, zrange. rewrite seq_app, !map_app. f_equal.
  assert (seq (0 + n) m = map (Nat.add n) (seq 0 m)) as ->
    by (symmetry; replace (0 + n)%nat with (n + 0)%nat by lia; apply fmap_add_seq).
  rewrite !map_map. apply map_ext. intros i. f_equal. rewrite Zplus_mod_idemp_l. f_equal. lia.
Qed.

Lemma slice_store buf h n t c :
  0 <= t -> (forall i, 0 <= i < Z.of_nat n -> (h + i) mod BUFSIZE <> t) ->
  slice (arr_set buf t c) h n = slice buf h n.
Proof.
  intros Ht Hn. unfold slice. apply map_ext_in. intros i Hi%in_zrange.
  rewrite arr_set_ne; [done|done|by apply Z.mod_pos_bound|]. intros E. by apply (Hn i).
Qed.

Lemma between_split buf a b c :
  0 <= a < BUFSIZE -> 0 <= b < BUFSIZE -> 0 <= c < BUFSIZE -> dist a b <= dist a c ->
  between buf a c = between buf a b ++ between buf b c.
Proof.
  intros Ha Hb Hc Hle. unfold between. pose proof (dist_split a b c Ha Hb Hc Hle).
  pose proof (dist_range a b). pose proof (dist_range b c).
  replace (Z.to_nat (dist a c)) with (Z.to_nat (dist a b) + Z.to_nat (dist b c))%nat by lia.
  rewrite slice_app. do 2 f_equal. rewrite Z2Nat.id by lia. by apply dist_end.
Qed.

Lemma between_self buf a : between buf a a = [].
Proof. unfold between. by rewrite dist_self. Qed.

Lemma between_snoc buf a b :
  0 <= a < BUFSIZE -> 0 <= b < BUFSIZE -> dist a b < BUFSIZE - 1 ->
  between buf a ((b + 1) mod BUFSIZE) = between buf a b ++ [arr buf b].
Proof.
  intros Ha Hb Hd. pose proof (dist_range a b).
  rewrite (between_split buf a b _ Ha Hb) by (first [by apply Z.mod_pos_bound | rewrite dist_next by done; lia]).
  f_equal. unfold between. rewrite (dist_split a b _ Ha Hb), dist_next
    by (first [done | by apply Z.mod_pos_bound | rewrite dist_next by done; lia]).
  replace (dist a b + 1 - dist a b) with 1 by lia. change (Z.to_nat 1) with 1%nat.
  unfold slice. cbn [zrange seq map Z.of_nat]. by rewrite Z.add_0_r, Z.mod_small.
Qed.

Lemma between_store buf a b t c :
  0 <= a < BUFSIZE -> 0 <= b < BUFSIZE -> 0 <= t < BUFSIZE -> dist a b <= dist a t ->
  between (arr_set buf t c) a b = between buf a b.
Proof.
  intros Ha Hb Ht Hle. apply slice_store; [lia|]. intros i Hi. pose proof (dist_range a b).
  apply dist_free; [done|done|lia].
Qed.

(** ** The invariant of the link *)

(** The consumer's position is on the ring, between head and tail; what it is
    given stays in the ring until it returns. *)
Definition cons_ok (r : serial_shmem) (d : list Z) (k : consumer) : Prop :=
  match k with
  | CIdle | CWoken => True
  | CChecked => sh_head r <> sh_tail r
  | CCalling last =>
      0 <= last < BUFSIZE /\ last <> sh_head r /\
      dist (sh_head r) last <= dist (sh_head r) (sh_tail r) /\
      exists d0, d = d0 ++ between (sh_buf r) (sh_head r) last
  end.

Definition prod_ok (r : serial_shmem) (p : producer) : Prop :=
  match p with
  | PStored c => arr (sh_buf r) (sh_tail r) = c /\ dist (sh_head r) (sh_tail r) < BUFSIZE - 1
  | _ => True
  end.

(** A complete line, or a full ring, leaves the signal set or someone on the
    way. *)
Definition wake_ok (l : link) : Prop :=
  l_signal l = false ->
  match l_cons l with
  | CWoken | CChecked => True
  | CIdle =>
      (In 10 (undelivered l) -> l_prod l = PPublished 10) /\
      (ring_full (l_ring l) = true -> exists c, l_prod l = PPublished c)
  | CCalling _ => In 10 (undelivered l) -> l_prod l = PPublished 10
  end.

Record link_inv (l : link) : Prop := {
  li_wf : shmem_wf (l_ring l);
  li_prod : prod_ok (l_ring l) (l_prod l);
  li_cons : cons_ok (l_ring l) (l_read l) (l_cons l);
  li_fifo : l_written l = l_read l ++ undelivered l;
  li_wake : wake_ok l }.

Lemma position_range l : link_inv l -> 0 <= position l < BUFSIZE.
Proof.
  intros [[_ Hh _] _ Hc _ _]. unfold position. destruct (l_cons l); try done. by destruct Hc.
Qed.

Lemma position_dist l :
  link_inv l -> dist (position l) (sh_tail (l_ring l)) <= dist (sh_head (l_ring l)) (sh_tail (l_ring l)).
Proof.
  intros [[_ Hh Ht] _ Hc _ _]. unfold position. destruct (l_cons l); try lia.
  destruct Hc as (Hl & _ & Hle & _). rewrite (dist_split (sh_head (l_ring l))) by done.
  pose proof (dist_range (sh_head (l_ring l)) last_read_tail). lia.
Qed.

Lemma link_inv_init buf : length buf = Z.to_nat BUFSIZE -> link_inv (link_init buf).
Proof.
  intros Hb. split; [done..|]. intros _. cbn. split; [|done].
  unfold undelivered. cbn. by rewrite between_self.
Qed.

Lemma not_full r : shmem_wf r -> ring_full r = false -> dist (sh_head r) (sh_tail r) < BUFSIZE - 1.
Proof.
  intros Hr Hf. pose proof (dist_range (sh_head r) (sh_tail r)).
  enough (dist (sh_head r) (sh_tail r) <> BUFSIZE - 1) by lia.
  intros E%full_dist; [|done]. by rewrite E in Hf.
Qed.

Lemma inv_store c r r' k s w d :
  ring_full r = false -> ring_store c r = Ok r' ->
  link_inv (mkLink r PIdle k s w d) -> link_inv (mkLink r' (PStored c) k s w d).
Proof.
  intros Hf Hst Hi. pose proof (position_range _ Hi) as Hp. pose proof (position_dist _ Hi) as Hd.
  destruct Hi as [Hr _ Hc Hw Hk]. cbn in *. rewrite store_ok in Hst by done. injection Hst as <-.
  pose proof (not_full r Hr Hf) as Hn. pose proof Hr as [Hl Hh Ht].
  assert (undelivered (mkLink (r <| sh_buf := arr_set (sh_buf r) (sh_tail r) c |>) (PStored c) k s w d)
          = undelivered (mkLink r PIdle k s w d)) as Eu.
  { unfold undelivered. cbn. by apply between_store. }
  split; cbn [l_ring l_prod l_cons l_read l_written]; [by apply store_wf| | |by rewrite Eu|].
  - split; [|done]. cbn. apply arr_set_eq. rewrite Hl. unfold BUFSIZE in *. lia.
  - destruct k; try done. cbn in *. destruct Hc as (? & ? & Hle & d0 & ->).
    do 3 (split; [done|]). exists d0. f_equal. symmetry. by apply between_store.
  - intros Hs. specialize (Hk Hs). unfold wake_ok in Hk. cbn [l_cons l_prod l_ring] in *.
    destruct k; try done.
    + destruct Hk as [H1 H2]. split; [intros H; rewrite Eu in H; by apply H1 in H|].
      intros H. change (ring_full r = true) in H. congruence.
    + intros H. rewrite Eu in H. by apply Hk in H.
Qed.

Lemma inv_publish c r k s w d :
  link_inv (mkLink r (PStored c) k s w d) ->
  link_inv (mkLink (ring_publish r) (PPublished c) k s (w ++ [c]) d).
Proof.
  intros Hi. pose proof (position_range _ Hi) as Hp. pose proof (position_dist _ Hi) as Hd.
  destruct Hi as [Hr [Hc Hn] Hk Hw Hs]. cbn in *. pose proof Hr as [Hl Hh Ht].
  assert (undelivered (mkLink (ring_publish r) (PPublished c) k s (w ++ [c]) d)
          = undelivered (mkLink r (PStored c) k s w d) ++ [c]) as Eu.
  { unfold undelivered. cbn [l_ring]. rewrite publish_tail by done.
    change (sh_buf (ring_publish r)) with (sh_buf r).
    change (position (mkLink (ring_publish r) (PPublished c) k s (w ++ [c]) d))
      with (position (mkLink r (PStored c) k s w d)).
    rewrite between_snoc by (done || (cbn in Hd; lia)). by rewrite Hc. }
  split; cbn [l_ring l_prod l_cons l_read l_written]; [by apply publish_wf|done| | |].
  - destruct k; try done; cbn [cons_ok] in *; rewrite publish_tail by done;
      change (sh_head (ring_publish r)) with (sh_head r).
    + intros E. pose proof (dist_next _ _ Hh Ht Hn) as E'. rewrite <-E, dist_self in E'.
      pose proof (dist_range (sh_head r) (sh_tail r)). lia.
    + destruct Hk as (? & ? & Hle & ?). do 2 (split; [done|]). split; [|done].
      rewrite dist_next by done. lia.
  - by rewrite Eu, Hw, app_assoc.
  - intros H. specialize (Hs H). unfold wake_ok in Hs. cbn [l_cons l_prod l_signal] in *.
    assert (In 10 (undelivered (mkLink r (PStored c) k s w d) ++ [c]) ->
            ~ In 10 (undelivered (mkLink r (PStored c) k s w d)) -> c = 10) as Hc10.
    { rewrite in_app_iff. intros [?|[?|[]]] ?; [done|done]. }
    destruct k; rewrite ?Eu; try done.
    + destruct Hs as [H1 _]. split; [|by exists c]. intros X. f_equal. apply Hc10; [done|].
      intros Y. by apply H1 in Y.
    + intros X. f_equal. apply Hc10; [done|]. intros Y. by apply Hs in Y.
Qed.

Lemma inv_notify c r k s w d :
  link_inv (mkLink r (PPublished c) k s w d) ->
  link_inv (mkLink r PIdle k (s || time_to_send c r) w d).
Proof.
  intros [Hr _ Hc Hw Hk]. split; [done..|]. intros [-> Hn]%orb_false_iff. specialize (Hk eq_refl).
  apply orb_false_iff in Hn as [Hc10 Hfull]. apply Z.eqb_neq in Hc10.
  unfold wake_ok in Hk. cbn [l_cons l_prod l_ring] in *.
  change (undelivered (mkLink r PIdle k (false || time_to_send c r) w d))
    with (undelivered (mkLink r (PPublished c) k false w d)).
  destruct k; try done.
  - destruct Hk as [H1 _]. split; [intros X; apply H1 in X; congruence|].
    intros X. by rewrite X in Hfull.
  - intros X. apply Hk in X. congruence.
Qed.

Lemma inv_call r p s w d :
  link_inv (mkLink r p CChecked s w d) ->
  link_inv (mkLink r p (CCalling (sh_tail r)) s w (d ++ between (sh_buf r) (sh_head r) (sh_tail r))).
Proof.
  intros [Hr Hp Hc Hw _]. pose proof Hr as [_ Hh Ht]. cbn in Hc.
  unfold undelivered, position in Hw. cbn in Hw.
  split; [done|done| | |].
  - cbn. split; [done|]. split; [congruence|]. split; [lia|]. by exists d.
  - cbn. unfold undelivered. cbn. by rewrite between_self, app_nil_r.
  - intros _. cbn. unfold undelivered. cbn. by rewrite between_self.
Qed.

Lemma inv_return last r p s w d :
  link_inv (mkLink r p (CCalling last) s w d) ->
  link_inv (mkLink (r <| sh_head := last |>) p CIdle s w d).
Proof.
  intros [Hr Hp (Hl & Hne & Hle & _) Hw Hk]. pose proof Hr as [Hlen Hh Ht].
  cbn [l_ring l_prod l_cons l_read l_written] in *.
  pose proof (dist_split _ _ _ Hh Hl Ht Hle) as Hd.
  assert (0 < dist (sh_head r) last) as Hpos.
  { pose proof (dist_range (sh_head r) last). enough (dist (sh_head r) last <> 0) by lia.
    intros E. by apply dist_eq in E. }
  pose proof (dist_range (sh_head r) (sh_tail r)) as Hrange.
  split; cbn [l_ring l_prod l_cons l_read l_written]; [by split|destruct p; try done|done|done|].
  - cbn in *. destruct Hp. split; [done|]. rewrite Hd. lia.
  - intros Hs. specialize (Hk Hs). unfold wake_ok in Hk. cbn [l_cons l_prod l_ring] in *.
    split; [exact Hk|]. intros X%full_dist; [|by split]. cbn in X. rewrite Hd in X. lia.
Qed.

Lemma link_step_inv l l' : link_step l l' -> link_inv l -> link_inv l'.
Proof.
  intros Hs Hi. destruct Hs; [by eapply inv_store|by apply inv_publish|by apply inv_notify| | | |
                              by apply inv_call|by apply inv_return].
  - destruct Hi. by split.
  - destruct Hi as [Hr Hp _ Hw _]. split; try done. intros _. cbn. unfold undelivered, position. cbn.
    rewrite H, between_self. split; [done|]. intros X%full_dist; [|done]. by rewrite H, dist_self in X.
  - destruct Hi. by split.
Qed.

Lemma link_reach_inv buf l :
  length buf = Z.to_nat BUFSIZE -> rtc link_step (link_init buf) l -> link_inv l.
Proof.
  intros Hb Hr. enough (forall l0, rtc link_step l0 l -> link_inv l0 -> link_inv l) as H
    by (eapply H; [exact Hr|by apply link_inv_init]).
  induction 1; [done|]. intros Hi. apply IHrtc; [done|]. by eapply link_step_inv.
Qed.

(** C10 -- A console connection is a lock-free queue: in any interleaving of a VMM
    forwarding characters and the other VMM serving its notifications, at the
    granularity of single accesses to the shared page, and as long as nothing
    is written into a full ring, the characters given to the guest so far are
    the first ones written, each once and in order, the rest being in the
    ring, and the part of the ring a call of [emul_putchar] is given does not
    change while the call runs. *)
Theorem console_link_fifo (buf : list Z) (l : link) :
  length buf = Z.to_nat BUFSIZE -> rtc link_step (link_init buf) l ->
  l_written l = l_read l ++ undelivered l /\ shmem_wf (l_ring l) /\
  forall last, l_cons l = CCalling last ->
  exists before, l_read l = before ++ between (sh_buf (l_ring l)) (sh_head (l_ring l)) last.
Proof.
  intros Hb Hr. destruct (link_reach_inv buf l Hb Hr) as [Hwf _ Hc Hf _].
  split; [done|]. split; [done|]. intros last El. rewrite El in Hc. by destruct Hc as (_ & _ & _ & ?).
Qed.

(** C31 -- No line is stranded: in any such interleaving, whenever both VMMs are
    outside the code of the connection and no notification is pending, the
    ring holds no newline and is not full; so a complete line, and a full
    ring, always have a notification on the way. *)
Theorem console_no_lost_line (buf : list Z) (l : link) :
  length buf = Z.to_nat BUFSIZE -> rtc link_step (link_init buf) l ->
  l_prod l = PIdle -> l_cons l = CIdle -> l_signal l = false ->
  ~ In 10 (undelivered l) /\ ring_full (l_ring l) = false.
Proof.
  intros Hb Hr Hp Hc Hs. destruct (link_reach_inv buf l Hb Hr) as [_ _ _ _ Hw].
  specialize (Hw Hs). rewrite Hc in Hw. destruct Hw as [H1 H2]. split.
  - intros X. specialize (H1 X). congruence.
  - apply not_true_iff_false. intros X. destruct (H2 X). congruence.
Qed.

(** * The code of one VMM *)

Lemma wp_page p r (Q : serial_shmem -> Console -> Prop) s :
  shm s !! p = Some r -> Q r s -> wp (page p) Q s.
Proof. intros H HQ. unfold page. apply wp_bind, wp_get. by rewrite H. Qed.

(** The characters of a ring, oldest first. *)
Definition pending (r : serial_shmem) : list Z := between (sh_buf r) (sh_head r) (sh_tail r).

Definition page_ok (m : gmap Z serial_shmem) (p : Z) : Prop :=
  exists r, m !! p = Some r /\ shmem_wf r.

Definition conn_ok (m : gmap Z serial_shmem) (c : serial_conn) : Prop :=
  page_ok m (recv_buf c) /\ page_ok m (send_buf c).

(** Connected: every port has its two pages. *)
Definition con_wf (n : Z) (s : Console) : Prop :=
  Z.of_nat (length (connections s)) = n /\ Forall (conn_ok (shm s)) (connections s).

Lemma page_ok_insert m p r q : shmem_wf r -> page_ok m q -> page_ok (<[p := r]> m) q.
Proof.
  intros Hr (r0 & H0 & Hw). destruct (decide (p = q)) as [->|].
  - exists r. by rewrite lookup_insert_eq.
  - exists r0. by rewrite lookup_insert_ne.
Qed.

Lemma conn_ok_insert m p r c : shmem_wf r -> conn_ok m c -> conn_ok (<[p := r]> m) c.
Proof. intros Hr [H1 H2]. by split; apply page_ok_insert. Qed.

Lemma con_wf_page n s p r :
  con_wf n s -> shmem_wf r -> con_wf n (s <| shm := <[p := r]> (shm s) |>).
Proof.
  intros (Hl & Hc) Hr. split; [done|].
  eapply List.Forall_impl; [|exact Hc]. intros c. by apply conn_ok_insert.
Qed.

Lemma conn_in n s i c : con_wf n s -> idx (connections s) i = Ok c -> conn_ok (shm s) c.
Proof.
  intros (Hl & Hc) Hi. unfold idx in Hi. destruct (i <? 0); [done|].
  destruct (connections s !! Z.to_nat i) eqn:E; [|done]. injection Hi as ->.
  by eapply list.Forall_lookup in Hc.
Qed.

Lemma conn_at n s i :
  con_wf n s -> 0 <= i < n ->
  exists c, idx (connections s) i = Ok c /\ conn_ok (shm s) c.
Proof.
  intros Hs Hi. destruct (lookup_lt_is_Some_2 (connections s) (Z.to_nat i)) as [c Ec];
    [destruct Hs; lia|].
  assert (idx (connections s) i = Ok c) as E
    by (unfold idx; destruct (Z.ltb_spec i 0); [lia|]; by rewrite Ec).
  exists c. split; [done|]. by eapply conn_in.
Qed.

Lemma page_wf m p r : page_ok m p -> m !! p = Some r -> shmem_wf r.
Proof. intros (r0 & H & Hw) Hp. by simplify_eq. Qed.

(** What each access does on a connected port. *)
Lemma page_at p r (s : Console) : shm s !! p = Some r -> page p s = Ok (r, s).
Proof. intros H. unfold page. rewrite (bind_ok _ _ s s s) by done. by rewrite H. Qed.

Definition stored (c : Z) (r : serial_shmem) : serial_shmem :=
  r <| sh_buf := arr_set (sh_buf r) (sh_tail r) c |>.

Section Accesses.
Context (conn : serial_conn) (r : serial_shmem) (s : Console).

Lemma tx_store_run c :
  shm s !! send_buf conn = Some r -> shmem_wf r ->
  tx_store conn c s = Ok (tt, s <| shm := <[send_buf conn := stored c r]> (shm s) |>).
Proof.
  intros H Hw. unfold tx_store. rewrite (bind_ok _ _ s r s) by by apply page_at.
  by rewrite (bind_ok _ _ s _ s (lift_ok _ _ s (store_ok c r Hw))).
Qed.

Lemma tx_publish_run :
  shm s !! send_buf conn = Some r ->
  tx_publish conn s = Ok (tt, s <| shm := <[send_buf conn := ring_publish r]> (shm s) |>).
Proof. intros H. unfold tx_publish. by rewrite (bind_ok _ _ s r s) by by apply page_at. Qed.

Lemma tx_notify_run c :
  shm s !! send_buf conn = Some r ->
  tx_notify conn c s
  = Ok (tt, s <| con_log := con_log s ++ (if time_to_send c r then [Notify (c_notify conn)] else []) |>).
Proof.
  intros H. unfold tx_notify. rewrite (bind_ok _ _ s r s) by by apply page_at.
  destruct (time_to_send c r); unfold when; [done|]. cbn. rewrite app_nil_r. by destruct s.
Qed.

Lemma rx_waiting_run :
  shm s !! recv_buf conn = Some r -> rx_waiting conn s = Ok (negb (sh_head r =? sh_tail r), s).
Proof. intros H. unfold rx_waiting. by rewrite (bind_ok _ _ s r s) by by apply page_at. Qed.

Lemma rx_call_run port :
  shm s !! recv_buf conn = Some r ->
  rx_call port conn s
  = Ok (sh_tail r, s <| con_log := con_log s ++ [EmulPutchar port (sh_buf r) (sh_head r) (sh_tail r)] |>).
Proof.
  intros H. unfold rx_call. rewrite (bind_ok _ _ s r s) by by apply page_at. cbv zeta.
  by rewrite (bind_ok _ _ s tt (s <| con_log := con_log s ++
    [EmulPutchar port (sh_buf r) (sh_head r) (sh_tail r)] |>)) by done.
Qed.

Lemma rx_advance_run last :
  shm s !! recv_buf conn = Some r ->
  rx_advance conn last s = Ok (tt, s <| shm := <[recv_buf conn := r <| sh_head := last |>]> (shm s) |>).
Proof. intros H. unfold rx_advance. by rewrite (bind_ok _ _ s r s) by by apply page_at. Qed.

End Accesses.

(** What a call of [tx_virtcon_forward] does on a connected port. *)
Lemma forward_run n port c s conn r :
  con_wf n s -> 0 <= port < n -> n < 2 ^ 31 -> idx (connections s) port = Ok conn ->
  shm s !! send_buf conn = Some r ->
  let r' := ring_publish (r <| sh_buf := arr_set (sh_buf r) (sh_tail r) c |>) in
  con_forward n port c s
  = Ok (tt, s <| shm := <[send_buf conn := r']> (shm s) |>
              <| con_log := con_log s ++ (if time_to_send c r' then [Notify (c_notify conn)] else []) |>).
Proof.
  intros Hs Hp Hn Hi Hr r'. pose proof (page_wf _ _ r (proj2 (conn_in _ _ _ _ Hs Hi)) Hr) as Hw.
  unfold con_forward. replace (u64 port >=? n) with false
    by (symmetry; rewrite Z.geb_leb; apply Z.leb_gt; unfold u64, wrap; rewrite Z.mod_small; lia).
  rewrite (bind_ok _ _ s s s) by done. rewrite (bind_ok _ _ s conn s) by (by apply lift_ok).
  rewrite (bind_ok _ _ s _ _ (tx_store_run conn r s c Hr Hw)).
  rewrite (bind_ok _ _ _ _ _ (tx_publish_run conn (stored c r) _ (lookup_insert_eq _ _ _))).
  rewrite (tx_notify_run conn r') by exact (lookup_insert_eq _ _ _).
  destruct s. cbn. by rewrite insert_insert_eq.
Qed.

Lemma forward_out n port c s :
  0 <= n < 2 ^ 31 -> - 2 ^ 31 <= port < 2 ^ 31 -> ~ (0 <= port < n) ->
  con_forward n port c s = Ok (tt, s).
Proof.
  intros Hn Hp Ho. unfold con_forward. replace (u64 port >=? n) with true; [done|].
  symmetry. rewrite Z.geb_leb. apply Z.leb_le. unfold u64, wrap.
  destruct (Z.neg_nonneg_cases port).
  - rewrite <-(Z.mod_add port 1), Z.mod_small by lia. lia.
  - rewrite Z.mod_small; lia.
Qed.

Lemma forward_wf n port c s :
  con_wf n s -> n < 2 ^ 31 -> - 2 ^ 31 <= port < 2 ^ 31 ->
  wp (con_forward n port c) (fun _ => con_wf n) s.
Proof.
  intros Hs Hn Hp. destruct (decide (0 <= port < n)) as [Hin|Ho].
  - destruct (conn_at n s port Hs Hin) as (conn & Hi & _ & r & Hr & Hw).
    eapply wp_of_eq; [by eapply forward_run|]. apply con_wf_page; [done|].
    by apply publish_wf, store_wf.
  - eapply wp_of_eq; [apply forward_out; [|done|done]|done].
    destruct Hs as [<- _]. lia.
Qed.

(** ** The interleaved steps are these accesses

    One access of the forwarding VMM, at a point of [tx_virtcon_forward] ... *)
Definition tx_code (conn : serial_conn) (next : Z) (p : producer) : M Console producer :=
  match p with
  | PIdle => tx_store conn next;; mret (PStored next)
  | PStored c => tx_publish conn;; mret (PPublished c)
  | PPublished c => tx_notify conn c;; mret PIdle
  end.
(** ... and one of the receiving VMM, at a point of the callback. *)
Definition rx_code (port : Z) (conn : serial_conn) (k : consumer) : M Console consumer :=
  match k with
  | CIdle => mret CWoken
  | CWoken => b ← rx_waiting conn; mret (if b : bool then CChecked else CIdle)
  | CChecked => last ← rx_call port conn; mret (CCalling last)
  | CCalling last => rx_advance conn last;; mret CIdle
  end.

(** What a VMM's calls add to the link: notifications raise the signal, calls
    of [emul_putchar] hand the guest its characters. *)
Definition signals_raised (es : list con_event) : bool :=
  existsb (fun e => match e with Notify _ => true | _ => false end) es.
Definition given_out (es : list con_event) : list Z :=
  concat (map (fun e => match e with EmulPutchar _ buf h t => between buf h t | _ => [] end) es).

(** The link after an access. *)
Definition tx_next (next : Z) (l : link) : link :=
  let 'mkLink r p k s w d := l in
  match p with
  | PIdle => mkLink (stored next r) (PStored next) k s w d
  | PStored c => mkLink (ring_publish r) (PPublished c) k s (w ++ [c]) d
  | PPublished c => mkLink r PIdle k (s || time_to_send c r) w d
  end.
Definition rx_next (l : link) : link :=
  let 'mkLink r p k s w d := l in
  match k with
  | CIdle => mkLink r p CWoken false w d
  | CWoken => mkLink r p (if sh_head r =? sh_tail r then CIdle else CChecked) s w d
  | CChecked => mkLink r p (CCalling (sh_tail r)) s w (d ++ between (sh_buf r) (sh_head r) (sh_tail r))
  | CCalling last => mkLink (r <| sh_head := last |>) p CIdle s w d
  end.

(** [link_step] is: either VMM makes its next access, the forwarding one not
    entering [tx_virtcon_forward] while the ring is full. *)
Lemma link_step_next l l' :
  shmem_wf (l_ring l) ->
  link_step l l' <->
  (exists next, (l_prod l = PIdle -> ring_full (l_ring l) = false) /\ l' = tx_next next l) \/
  l' = rx_next l.
Proof.
  intros Hw. split.
  - intros Hs. destruct Hs as [c r r' k s w d Hf Hst|c r k s w d|c r k s w d|r p s w d
      |r p s w d E|r p s w d E|r p s w d|last r p s w d]; cbn in Hw |- *.
    + rewrite store_ok in Hst by done. injection Hst as <-. left. by exists c.
    + left. by exists 0.
    + left. by exists 0.
    + by right.
    + right. by rewrite E, Z.eqb_refl.
    + right. apply Z.eqb_neq in E. by rewrite E.
    + by right.
    + by right.
  - destruct l as [r p k s w d]. cbn in Hw |- *. intros [(next & Hf & ->)| ->].
    + destruct p; constructor; [by apply Hf|by apply store_ok].
    + destruct k; try constructor. destruct (Z.eqb_spec (sh_head r) (sh_tail r)); by constructor.
Qed.

(** And the accesses are the code: run on any VMM whose page holds the ring,
    it goes to the point and leaves the ring and signal the step says; nothing
    but that page and the log changes. *)
Lemma tx_next_code next l conn m :
  shm m !! send_buf conn = Some (l_ring l) -> shmem_wf (l_ring l) ->
  exists es,
    tx_code conn next (l_prod l) m
    = Ok (l_prod (tx_next next l), m <| shm := <[send_buf conn := l_ring (tx_next next l)]> (shm m) |>
                                     <| con_log := con_log m ++ es |>) /\
    l_signal (tx_next next l) = l_signal l || signals_raised es.
Proof.
  intros Hm Hw. destruct l as [r [|c|c] k s w d]; cbn [tx_code tx_next l_prod l_ring l_signal] in *.
  - exists []. rewrite (bind_ok _ _ m _ _ (tx_store_run conn r m next Hm Hw)).
    split; [by rewrite app_nil_r; destruct m|by rewrite orb_false_r].
  - exists []. rewrite (bind_ok _ _ m _ _ (tx_publish_run conn r m Hm)).
    split; [by rewrite app_nil_r; destruct m|by rewrite orb_false_r].
  - eexists. rewrite (bind_ok _ _ m _ _ (tx_notify_run conn r m c Hm)).
    split; [by rewrite insert_id by done; destruct m|by destruct (time_to_send c r)].
Qed.

Lemma console_same (s : Console) p r :
  shm s !! p = Some r -> s <| shm := <[p := r]> (shm s) |> <| con_log := con_log s ++ [] |> = s.
Proof. intros H. rewrite insert_id, app_nil_r by done. by destruct s. Qed.

Lemma rx_next_code port l conn m :
  shm m !! recv_buf conn = Some (l_ring l) ->
  exists es,
    rx_code port conn (l_cons l) m
    = Ok (l_cons (rx_next l), m <| shm := <[recv_buf conn := l_ring (rx_next l)]> (shm m) |>
                                <| con_log := con_log m ++ es |>) /\
    l_read (rx_next l) = l_read l ++ given_out es.
Proof.
  intros Hm. destruct l as [r p [| | |last] s w d]; cbn [rx_code rx_next l_cons l_ring l_read] in *.
  - exists []. by rewrite console_same, app_nil_r.
  - exists []. rewrite (bind_ok _ _ m _ _ (rx_waiting_run conn r m Hm)), console_same, app_nil_r by done.
    by destruct (sh_head r =? sh_tail r).
  - eexists. rewrite (bind_ok _ _ m _ _ (rx_call_run conn r m port Hm)).
    split; [by rewrite insert_id by done; destruct m|cbn; by rewrite app_nil_r].
  - exists []. rewrite (bind_ok _ _ m _ _ (rx_advance_run conn r m last Hm)).
    split; [by rewrite app_nil_r; destruct m|by rewrite app_nil_r].
Qed.

(** And nothing else happens in the functions: a call of [tx_virtcon_forward]
    on a port is the three accesses of the forwarding VMM, and a port served
    by the callback the accesses of the receiving VMM, one after the other. *)
Lemma forward_accesses n port c s conn :
  0 <= port < n -> n < 2 ^ 31 -> idx (connections s) port = Ok conn ->
  con_forward n port c s
  = (p ← tx_code conn c PIdle; p ← tx_code conn c p; tx_code conn c p;; mret tt) s.
Proof.
  intros Hp Hn Hi. unfold con_forward. replace (u64 port >=? n) with false
    by (symmetry; rewrite Z.geb_leb; apply Z.leb_gt; unfold u64, wrap; rewrite Z.mod_small; lia).
  rewrite (bind_ok _ _ s s s) by done. rewrite (bind_ok _ _ s conn s) by (by apply lift_ok).
  cbn [tx_code]. unfold mbind, M_bind, mret, M_ret.
  destruct (tx_store conn c s) as [[[] s1]|]; [|done]. cbn [tx_code].
  unfold mbind, M_bind, mret, M_ret.
  destruct (tx_publish conn s1) as [[[] s2]|]; [|done]. cbn [tx_code].
  unfold mbind, M_bind, mret, M_ret. by destruct (tx_notify conn c s2) as [[[] s3]|].
Qed.

(** Serving port [i]: nothing if its ring is empty, otherwise all of it is
    given to the guest and the ring is empty. *)
Definition served (i : Z) (conn : serial_conn) (r : serial_shmem) (s : Console) : Console :=
  if sh_head r =? sh_tail r then s
  else s <| shm := <[recv_buf conn := r <| sh_head := sh_tail r |>]> (shm s) |>
         <| con_log := con_log s ++ [EmulPutchar i (sh_buf r) (sh_head r) (sh_tail r)] |>.

Lemma con_notify_recv_run i conn r s :
  idx (connections s) i = Ok conn -> shm s !! recv_buf conn = Some r ->
  con_notify_recv i s
  = Ok (tt, s <| shm := <[recv_buf conn := r <| sh_head := sh_tail r |>]> (shm s) |>
              <| con_log := con_log s ++ [EmulPutchar i (sh_buf r) (sh_head r) (sh_tail r)] |>).
Proof.
  intros Hi Hr. unfold con_notify_recv.
  rewrite (bind_ok _ _ s s s) by done. rewrite (bind_ok _ _ s conn s) by (by apply lift_ok).
  rewrite (bind_ok _ _ s _ _ (rx_call_run conn r s i Hr)). by rewrite (rx_advance_run conn r).
Qed.

Definition serve (i : Z) : M Console unit :=
  s ← get;
  conn ← lift (idx (connections s) i);
  b ← rx_waiting conn;
  when b (con_notify_recv i).

Lemma serve_accesses i s conn :
  idx (connections s) i = Ok conn ->
  serve i s
  = (k ← rx_code i conn CIdle; k ← rx_code i conn k;
     match k with
     | CChecked => k ← rx_code i conn k; rx_code i conn k;; mret tt
     | _ => mret tt
     end) s.
Proof.
  intros Hi. unfold serve, con_notify_recv. rewrite (bind_ok _ _ s s s) by done.
  rewrite (bind_ok _ _ s conn s) by (by apply lift_ok).
  rewrite (bind_ok (rx_code i conn CIdle) (fun k => _) s CWoken s) by done.
  cbn [rx_code]. unfold mbind, M_bind, mret, M_ret.
  destruct (rx_waiting conn s) as [[b s1]|] eqn:Ew; [|done].
  assert (s1 = s) as ->.
  { revert Ew. unfold rx_waiting, page, mbind, M_bind, get, mret, M_ret, fail.
    destruct (shm s !! recv_buf conn); congruence. }
  destruct b; cbn [when]; [|done]. unfold mbind, M_bind, get, lift. rewrite Hi.
  cbn [rx_code]. unfold mbind, M_bind, mret, M_ret.
  destruct (rx_call i conn s) as [[last s2]|]; [|done]. cbn [rx_code].
  unfold mbind, M_bind, mret, M_ret. by destruct (rx_advance conn last s2) as [[[] s3]|].
Qed.

Lemma con_serve_run i conn r s :
  idx (connections s) i = Ok conn -> shm s !! recv_buf conn = Some r ->
  serve i s = Ok (tt, served i conn r s).
Proof.
  intros Hi Hr. unfold serve, served.
  rewrite (bind_ok _ _ s s s) by done. rewrite (bind_ok _ _ s conn s) by (by apply lift_ok).
  rewrite (bind_ok _ _ s _ _ (rx_waiting_run conn r s Hr)).
  destruct (sh_head r =? sh_tail r); [done|]. by apply con_notify_recv_run.
Qed.

Lemma served_wf n i conn r s :
  con_wf n s -> shmem_wf r -> con_wf n (served i conn r s).
Proof.
  intros Hs Hr. unfold served. destruct (_ =? _); [done|]. 
  apply (con_wf_page n s (recv_buf conn) (r <| sh_head := sh_tail r |>) Hs).
  destruct Hr. by split.
Qed.

Lemma serve_wf n i s : con_wf n s -> 0 <= i < n -> wp (serve i) (fun _ => con_wf n) s.
Proof.
  intros Hs Hi. destruct (conn_at n s i Hs Hi) as (conn & Hc & (r & Hr & Hw) & _).
  eapply wp_of_eq; [by apply con_serve_run|]. by apply served_wf.
Qed.

Lemma handle_wf n s : con_wf n s -> wp (con_handle n) (fun _ => con_wf n) s.
Proof.
  intros Hs. unfold con_handle. apply wp_for_each with (I := con_wf n); [done| |done].
  intros i s' Hi%in_zrange Hs'. apply serve_wf; [done|]. lia.
Qed.

(** What the guest is given by one run of the callback: for every port with
    characters, in the order of the ports, all of them. *)
Definition deliveries (m : gmap Z serial_shmem) (l : list serial_conn) : list con_event :=
  concat (imap (fun i c => match m !! recv_buf c with
                           | Some r => if sh_head r =? sh_tail r then []
                                       else [EmulPutchar (Z.of_nat i) (sh_buf r) (sh_head r) (sh_tail r)]
                           | None => [] end) l).

(** The pages after it: the receive rings are empty. *)
Definition drained (m : gmap Z serial_shmem) (l : list serial_conn) : gmap Z serial_shmem :=
  fold_left (fun m c => match m !! recv_buf c with
                        | Some r => <[recv_buf c := r <| sh_head := sh_tail r |>]> m
                        | None => m end) l m.

Lemma drained_lookup m l p r :
  NoDup (map recv_buf l) -> m !! p = Some r ->
  drained m l !! p = Some (if bool_decide (p ∈ map recv_buf l) then r <| sh_head := sh_tail r |> else r).
Proof.
  revert m r. induction l as [|c l IH]; intros m r Hn Hp; [by cbn|].
  cbn [map drained fold_left] in *. apply list.NoDup_cons in Hn as [Hni Hn].
  destruct (decide (p = recv_buf c)) as [->|Hne].
  - rewrite Hp. fold (drained (<[recv_buf c := r <| sh_head := sh_tail r |>]> m) l).
    rewrite (IH _ (r <| sh_head := sh_tail r |>)) by (done || apply lookup_insert_eq).
    rewrite bool_decide_eq_false_2, bool_decide_eq_true_2 by (done || left). done.
  - match goal with |- fold_left _ l ?m' !! _ = _ => fold (drained m' l) end.
    rewrite (IH _ r) by (first [done | destruct (m !! recv_buf c); [by rewrite lookup_insert_ne|done]]).
    f_equal. destruct (decide (p ∈ map recv_buf l)).
    + by rewrite !bool_decide_eq_true_2 by (try right; done).
    + rewrite !bool_decide_eq_false_2; [done| |done].
      intros [?|?]%list.elem_of_cons; done.
Qed.

Lemma console_eq s1 s2 m1 m2 l1 l2 :
  connections s1 = connections s2 -> m1 = m2 -> l1 = l2 ->
  s1 <| shm := m1 |> <| con_log := l1 |> = s2 <| shm := m2 |> <| con_log := l2 |>.
Proof. destruct s1, s2. cbn. by intros -> -> ->. Qed.

(** The loop of the callback from port [k] on. *)
Lemma handle_from k l pre s :
  connections s = pre ++ l -> length pre = k -> NoDup (map recv_buf l) ->
  Forall (conn_ok (shm s)) l ->
  for_each (map Z.of_nat (seq k (length l))) serve s
  = Ok (tt, s <| shm := drained (shm s) l |>
              <| con_log := con_log s ++
                   concat (imap (fun i c => match shm s !! recv_buf c with
                           | Some r => if sh_head r =? sh_tail r then []
                                       else [EmulPutchar (Z.of_nat (k + i)) (sh_buf r) (sh_head r) (sh_tail r)]
                           | None => [] end) l) |>).
Proof.
  revert k pre s. induction l as [|c l IH]; intros k pre s Hc Hk Hn Ho; cbn [length seq map for_each].
  { cbn. rewrite app_nil_r. by destruct s. }
  cbn [map] in Hn. apply list.NoDup_cons in Hn as [Hni Hn].
  inversion_clear Ho as [|?? [[r [Hr Hwr]] Hsend] Ho']. subst k.
  rewrite (bind_ok _ _ s tt (served (Z.of_nat (length pre)) c r s))
    by (apply con_serve_run; [apply idx_lookup; rewrite Hc; apply lookup_mid|done]).
  set (s' := served (Z.of_nat (length pre)) c r s).
  assert (forall p, p <> recv_buf c -> shm s' !! p = shm s !! p) as Hsame
    by (intros p Hp; unfold s', served; destruct (_ =? _); [done|]; cbn; by rewrite lookup_insert_ne).
  assert (connections s' = connections s) as Ec by (unfold s', served; by destruct (_ =? _)).
  rewrite (IH (S (length pre)) (pre ++ [c])); [| | |done|].
  - f_equal. f_equal. rewrite imap_cons. cbn [concat drained fold_left]. rewrite Hr.
    assert (shm s' = <[recv_buf c := r <| sh_head := sh_tail r |>]> (shm s)) as Es.
    { unfold s', served. destruct (Z.eqb_spec (sh_head r) (sh_tail r)) as [E|]; [|done].
      rewrite insert_id; [done|]. rewrite Hr. f_equal. rewrite <-E. by destruct r. }
    set (A := if sh_head r =? sh_tail r then [] else _).
    assert (con_log s' = con_log s ++ A) as El.
    { unfold s', served, A. rewrite Nat.add_0_r. destruct (_ =? _); [by rewrite app_nil_r|done]. }
    apply console_eq; [done|by rewrite Es|]. rewrite El, <-app_assoc. do 3 f_equal.
    apply imap_ext. intros i c' Hi. cbn. rewrite Nat.add_succ_r, Hsame; [done|].
    intros E. apply Hni. rewrite <-E. apply list.list_elem_of_fmap. exists c'.
    split; [done|by eapply list.list_elem_of_lookup_2].
  - by rewrite Ec, Hc, <-app_assoc.
  - rewrite length_app. cbn. lia.
  - eapply list.Forall_impl; [exact Ho'|]. intros c' [H1 H2]. unfold s', served.
    destruct (_ =? _); [by split|]. apply conn_ok_insert; [destruct Hwr; by split|by split].
Qed.

Lemma handle_run n s :
  con_wf n s -> NoDup (map recv_buf (connections s)) ->
  con_handle n s
  = Ok (tt, s <| shm := drained (shm s) (connections s) |>
              <| con_log := con_log s ++ deliveries (shm s) (connections s) |>).
Proof.
  intros (Hl & Hc) Hn. unfold con_handle. rewrite <-Hl, Nat2Z.id.
  change (zrange ?k) with (map Z.of_nat (seq 0 k)).
  exact (handle_from 0 (connections s) [] s eq_refl eq_refl Hn Hc).
Qed.

Definition sent_one (c : Z) (r : serial_shmem) : serial_shmem :=
  ring_publish (r <| sh_buf := arr_set (sh_buf r) (sh_tail r) c |>).

Lemma sent_one_wf c r : shmem_wf r -> shmem_wf (sent_one c r).
Proof. intros. by apply publish_wf, store_wf. Qed.

Lemma length_pending r : Z.of_nat (length (pending r)) = dist (sh_head r) (sh_tail r).
Proof.
  unfold pending, between, slice. rewrite length_map, length_zrange.
  pose proof (dist_range (sh_head r) (sh_tail r)). lia.
Qed.

Lemma sent_one_pending c r :
  shmem_wf r -> Z.of_nat (length (pending r)) < BUFSIZE - 1 ->
  pending (sent_one c r) = pending r ++ [c].
Proof.
  intros Hr Hn. rewrite length_pending in Hn. pose proof Hr as [Hl Hh Ht].
  assert (sh_tail (sent_one c r) = (sh_tail r + 1) mod BUFSIZE) as Et
    by exact (publish_tail _ (store_wf c r Hr)).
  unfold pending. rewrite Et. change (sh_head (sent_one c r)) with (sh_head r).
  change (sh_buf (sent_one c r)) with (arr_set (sh_buf r) (sh_tail r) c).
  rewrite between_snoc by done. rewrite between_store by (done || lia).
  rewrite arr_set_eq by (rewrite Hl; unfold BUFSIZE in *; lia). done.
Qed.

Lemma sends_run n port conn cs s r :
  con_wf n s -> 0 <= port < n -> n < 2 ^ 31 -> idx (connections s) port = Ok conn ->
  shm s !! send_buf conn = Some r ->
  exists es, for_each cs (con_forward n port) s
  = Ok (tt, s <| shm := <[send_buf conn := fold_left (fun r c => sent_one c r) cs r]> (shm s) |>
              <| con_log := con_log s ++ es |>) /\
  Forall (fun e => e = Notify (c_notify conn)) es /\ (In 10 cs -> es <> []).
Proof.
  revert s r. induction cs as [|c cs IH]; intros s r Hs Hp Hn Hi Hr; cbn [for_each fold_left].
  { exists []. rewrite insert_id, app_nil_r by done. split_and!; [by destruct s|constructor|done]. }
  pose proof (forward_run n port c s conn r Hs Hp Hn Hi Hr) as E1. cbv zeta in E1. fold (sent_one c r) in E1.
  rewrite (bind_ok _ _ _ _ _ E1).
  set (e1 := if time_to_send c (sent_one c r) then [Notify (c_notify conn)] else []) in *.
  set (s1 := s <| shm := <[send_buf conn := sent_one c r]> (shm s) |> <| con_log := con_log s ++ e1 |>) in *.
  pose proof (page_wf _ _ r (proj2 (conn_in _ _ _ _ Hs Hi)) Hr) as Hw.
  destruct (IH s1 (sent_one c r)) as (es & E2 & HF & H10); [|done|done|done|by cbn; apply lookup_insert_eq|].
  { exact (con_wf_page n s (send_buf conn) (sent_one c r) Hs (sent_one_wf c r Hw)). }
  exists (e1 ++ es). split_and!.
  - rewrite E2. do 2 f_equal. apply console_eq; [done| |].
    + cbn. by rewrite insert_insert_eq.
    + cbn. by rewrite <-app_assoc.
  - apply List.Forall_app. split; [|done]. unfold e1. destruct (time_to_send _ _); repeat constructor.
  - intros [->|H]; [done|]. intros [_ E]%app_eq_nil. by apply H10 in H.
Qed.

Lemma sends_pending cs r :
  shmem_wf r -> Z.of_nat (length (pending r ++ cs)) < BUFSIZE ->
  shmem_wf (fold_left (fun r c => sent_one c r) cs r) /\
  pending (fold_left (fun r c => sent_one c r) cs r) = pending r ++ cs.
Proof.
  revert r. induction cs as [|c cs IH]; intros r Hr Hl; cbn [fold_left]; [by rewrite app_nil_r|].
  rewrite length_app in Hl. cbn [length] in Hl.
  pose proof (sent_one_pending c r Hr ltac:(lia)) as E. destruct (IH (sent_one c r)) as [H1 H2].
  - by apply sent_one_wf.
  - rewrite E, <-app_assoc, length_app. cbn [app length]. lia.
  - split; [done|]. by rewrite H2, E, <-app_assoc.
Qed.

(** C36 -- What one VMM forwards on a port the other VMM's guest receives on the
    port connected to it, whole and in order: characters that fit in the ring
    are appended to what it holds, with a notification of the connection if a
    newline is among them, no other page changing; and when the other VMM
    serves its ports, the guest is given on that port exactly the characters
    then in the ring, on every other port exactly those in its ring, and all
    receive rings are empty afterwards. *)
Theorem console_roundtrip (EA EB : ConsoleEnv) (a b : Console) port q ca cb r cs :
  con_wf (@NUM_PORTS EA) a -> con_wf (@NUM_PORTS EB) b -> shm b = shm a ->
  @NUM_PORTS EA < 2 ^ 31 -> 0 <= port < @NUM_PORTS EA ->
  idx (connections a) port = Ok ca -> connections b !! q = Some cb ->
  send_buf ca = recv_buf cb -> NoDup (map recv_buf (connections b)) ->
  shm a !! send_buf ca = Some r -> 0 < Z.of_nat (length (pending r ++ cs)) < BUFSIZE ->
  exists a' es r',
    for_each cs (@tx_virtcon_forward EA port) a = Ok (tt, a') /\
    con_log a' = con_log a ++ es /\ (In 10 cs -> In (Notify (c_notify ca)) es) /\
    shm a' = <[send_buf ca := r']> (shm a) /\ pending r' = pending r ++ cs /\
    @handle_serial_console EB (b <| shm := shm a' |>)
    = Ok (tt, b <| shm := drained (shm a') (connections b) |>
                <| con_log := con_log b ++ deliveries (shm a') (connections b) |>) /\
    In (EmulPutchar (Z.of_nat q) (sh_buf r') (sh_head r') (sh_tail r')) (deliveries (shm a') (connections b)) /\
    forall p, In p (map recv_buf (connections b)) ->
      exists r0, drained (shm a') (connections b) !! p = Some r0 /\ pending r0 = [].
Proof.
  intros Ha Hb Eab Hn Hp Hca Hcb Epage Hnd Hr Hlen. rewrite length_app in Hlen.
  pose proof (page_wf _ _ r (proj2 (conn_in _ _ _ _ Ha Hca)) Hr) as Hw.
  destruct (sends_run _ _ _ cs a r Ha Hp Hn Hca Hr) as (es & E1 & HF & H10).
  destruct (sends_pending cs r Hw) as [Hw' Hpend]; [rewrite length_app; lia|].
  set (r' := fold_left (fun r c => sent_one c r) cs r) in *.
  eexists _, es, r'. split; [exact E1|]. split; [done|]. split.
  { intros H. specialize (H10 H). destruct es as [|e es]; [done|]. inversion HF. subst. by left. }
  split; [done|]. split; [done|].
  pose proof (con_wf_page _ b (send_buf ca) r' Hb Hw') as Hb'. rewrite Eab in Hb'.
  split; [|split].
  - exact (handle_run _ _ Hb' Hnd).
  - apply in_concat. eexists. split.
    + apply list_elem_of_In, list.elem_of_lookup_imap. exists q, cb. split; [reflexivity|done].
    + cbn. rewrite <-Epage, lookup_insert_eq. destruct (Z.eqb_spec (sh_head r') (sh_tail r')) as [E|]; [|by left].
      assert (length (pending r') = 0%nat) as X by (unfold pending; by rewrite E, between_self).
      rewrite Hpend, length_app in X. lia.
  - intros p Hin. cbn [shm]. 
    assert (exists r0, (<[send_buf ca := r']> (shm a)) !! p = Some r0) as [r0 Hr0].
    { apply in_map_iff in Hin as (c & <- & Hc). destruct Hb' as (_ & Hok).
      rewrite List.Forall_forall in Hok. destruct (Hok c Hc) as [(r0 & H0 & _) _]. by exists r0. }
    eexists. split; [by apply drained_lookup|]. rewrite bool_decide_eq_true_2 by by apply list_elem_of_In.
    unfold pending. cbn. by rewrite between_self.
Qed.

(** * Setting up the connections *)

Definition no_conn : serial_conn := mkConn 0 0 0.

(** The pages have the size of the struct. *)
Definition pages_sized (m : gmap Z serial_shmem) : Prop :=
  map_Forall (fun _ r => length (sh_buf r) = Z.to_nat BUFSIZE) m.

Definition page_clear (m : gmap Z serial_shmem) (p : Z) : Prop :=
  exists b, m !! p = Some (mkShmem 0 0 b) /\ length b = Z.to_nat BUFSIZE.
Definition conn_clear (m : gmap Z serial_shmem) (c : serial_conn) : Prop :=
  page_clear m (recv_buf c) /\ page_clear m (send_buf c).

Lemma page_clear_insert m p b q :
  length b = Z.to_nat BUFSIZE -> page_clear m q -> page_clear (<[p := mkShmem 0 0 b]> m) q.
Proof.
  intros Hb (b0 & H0 & Hl). destruct (decide (p = q)) as [->|].
  - exists b. by rewrite lookup_insert_eq.
  - exists b0. by rewrite lookup_insert_ne.
Qed.

Lemma page_clear_ok m p : page_clear m p -> page_ok m p.
Proof. intros (b & H & Hl). eexists. split; [exact H|]. by split. Qed.

Lemma clear_page_run p r s :
  shm s !! p = Some r ->
  clear_page p s = Ok (tt, s <| shm := <[p := mkShmem 0 0 (sh_buf r)]> (shm s) |>).
Proof.
  intros Hr. unfold clear_page. rewrite (bind_ok _ _ s r s) by by apply page_at.
  set (s1 := s <| shm := <[p := r <| sh_head := 0 |>]> (shm s) |>).
  rewrite (bind_ok _ _ s tt s1) by done.
  rewrite (bind_ok _ _ s1 (r <| sh_head := 0 |>) s1) by (apply page_at; cbn; apply lookup_insert_eq).
  unfold set_page, modify, s1. cbn. by rewrite insert_insert_eq.
Qed.

Lemma set_connection_run (s : Console) l1 l2 c0 c i :
  connections s = l1 ++ c0 :: l2 -> i = Z.of_nat (length l1) ->
  set_connection i c s = Ok (tt, s <| connections := l1 ++ c :: l2 |>).
Proof.
  intros E ->. unfold set_connection. rewrite (bind_ok _ _ s s s) by done.
  rewrite (bind_ok _ _ s (l1 ++ c :: l2) s) by (apply lift_ok; rewrite E; apply idx_set_mid). done.
Qed.

Section Setup.
Context {E : ConsoleEnv}.

Definition conn_of (ids : Z * Z) : serial_conn :=
  match recv_channel (fst ids), send_channel (snd ids) with
  | Some rc, Some sc => mkConn (ch_notify sc) (channel_buffer rc) (channel_buffer sc)
  | _, _ => no_conn
  end.

(** CAmkES answers every channel of the layout, with pages that exist. *)
Definition channels_ok (P : Z -> Prop) : Prop :=
  Forall (fun ids => exists rc sc, recv_channel (fst ids) = Some rc /\ send_channel (snd ids) = Some sc /\
                     P (channel_buffer rc) /\ P (channel_buffer sc)) serial_layout.

Lemma setup_x86 m :
  pages_sized m -> channels_ok (fun p => is_Some (m !! p)) ->
  wp make_virtio_con_virtqueues
     (fun _ s => connections s = map conn_of serial_layout /\
                 Forall (conn_clear (shm s)) (connections s) /\ con_log s = [])
     (mkConsole (replicate (length serial_layout) no_conn) m []).
Proof.
  intros Hm Hc. unfold make_virtio_con_virtqueues, NUM_PORTS. rewrite Nat2Z.id. apply wp_bind.
  apply (wp_for_until_zrange (fun i s =>
    connections s = map conn_of (take i serial_layout) ++ replicate (length serial_layout - i) no_conn /\
    Forall (conn_clear (shm s)) (map conn_of (take i serial_layout)) /\
    pages_sized (shm s) /\ (forall p, is_Some (m !! p) -> is_Some (shm s !! p)) /\ con_log s = [])).
  - cbn. rewrite Nat.sub_0_r. by split_and!.
  - intros i s Hi (Hcs & Hcl & Hsz & Hdom & Hlog).
    destruct (lookup_lt_is_Some_2 serial_layout i Hi) as [ids Eids].
    apply wp_bind. eapply wp_lift; [by apply idx_lookup|].
    unfold channels_ok in Hc. pose proof (list.Forall_lookup_1 _ _ _ _ Hc Eids) as (rc & sc & Er & Es & Hrc & Hsc).
    rewrite Er, Es. apply Hdom in Hrc as [r1 Hr1].
    set (c := mkConn (ch_notify sc) (channel_buffer rc) (channel_buffer sc)).
    assert (conn_of ids = c) as Ec by (unfold conn_of; by rewrite Er, Es).
    replace (length serial_layout - i)%nat with (S (length serial_layout - S i)) in Hcs by lia.
    cbn [replicate] in Hcs.
    apply wp_bind. eapply wp_of_eq; [eapply set_connection_run; [exact Hcs|]|].
    { rewrite length_map, length_take. f_equal. lia. }
    apply wp_bind. eapply wp_of_eq; [by apply clear_page_run|]. cbn [shm].
    pose proof (Hsz _ _ Hr1) as Hl1. cbn in Hl1.
    assert (exists r2, (<[channel_buffer rc := mkShmem 0 0 (sh_buf r1)]> (shm s)) !! channel_buffer sc = Some r2
            /\ length (sh_buf r2) = Z.to_nat BUFSIZE) as (r2 & Hr2 & Hl2).
    { apply Hdom in Hsc as [r2 Hr2]. destruct (decide (channel_buffer rc = channel_buffer sc)) as [<-|].
      - eexists. split; [by apply lookup_insert_eq|done].
      - exists r2. rewrite lookup_insert_ne by done. split; [done|]. exact (Hsz _ _ Hr2). }
    apply wp_bind. eapply wp_of_eq; [by apply clear_page_run|]. apply wp_ret. split; [done|].
    rewrite (take_S_r _ _ ids) by done. rewrite map_app. cbn [map connections shm con_log]. rewrite Ec. split_and!.
    + cbn. by rewrite <-app_assoc.
    + cbn. apply Forall_app. split.
      * eapply list.Forall_impl; [exact Hcl|]. intros c' [H1 H2].
        split; apply page_clear_insert; try done; by apply page_clear_insert.
      * constructor; [|constructor]. split; cbn.
        -- apply page_clear_insert; [done|]. exists (sh_buf r1). by rewrite lookup_insert_eq.
        -- exists (sh_buf r2). by rewrite lookup_insert_eq.
    + cbn. do 2 (apply map_Forall_insert_2; [done|]). done.
    + cbn. intros p Hp. do 2 (apply lookup_insert_is_Some'; right). by apply Hdom.
    + done.
  - intros s (Hcs & Hcl & _ & _ & Hlog). apply wp_ret.
    rewrite Nat.sub_diag, take_ge, app_nil_r in Hcs by done. rewrite take_ge in Hcl by done.
    by rewrite Hcs.
Qed.

End Setup.

(** What happens to a VMM with its consoles: its guest sends a character, its
    callback runs, or the other VMM changes a page. *)
Inductive con_op :=
| ConTx (port c : Z)
| ConServe
| ConPeer (p : Z) (r : serial_shmem).

Definition con_op_ok (o : con_op) : Prop :=
  match o with
  | ConTx port _ => - 2 ^ 31 <= port < 2 ^ 31
  | ConServe => True
  | ConPeer _ r => shmem_wf r
  end.

Definition con_exec (n : Z) (o : con_op) : M Console unit :=
  match o with
  | ConTx port c => con_forward n port c
  | ConServe => con_handle n
  | ConPeer p r => set_page p r
  end.

Lemma exec_wf n ops s :
  n < 2 ^ 31 -> Forall con_op_ok ops -> con_wf n s ->
  wp (for_each ops (con_exec n)) (fun _ => con_wf n) s.
Proof.
  intros Hn Hops Hs. apply wp_for_each with (I := con_wf n); [done| |done].
  intros o s' Ho Hs'. rewrite List.Forall_forall in Hops. specialize (Hops o Ho).
  destruct o as [port c| |p r]; cbn [con_exec con_op_ok] in *.
  - by apply forward_wf.
  - by apply handle_wf.
  - apply wp_modify. by apply con_wf_page.
Qed.

Section Safe.
Context {E : ConsoleEnv}.

(** Set-up and operation of the x86 consoles never fault when CAmkES
    provides every channel of the layout: [make_virtio_con_virtqueues]
    connects each port to its pages and empties all rings, whatever they held;
    after it any sequence of characters sent on any port number, existing or
    not, of callbacks, and of changes the other VMMs make to the shared pages
    dereferences no null pointer and writes outside no page, and the ring
    indices stay on the ring. *)
Lemma console_safe (m : gmap Z serial_shmem) (ops : list con_op) :
  pages_sized m -> channels_ok (fun p => is_Some (m !! p)) -> NUM_PORTS < 2 ^ 31 ->
  Forall con_op_ok ops ->
  wp (make_virtio_con_virtqueues;; for_each ops (con_exec NUM_PORTS))
     (fun _ => con_wf NUM_PORTS)
     (mkConsole (replicate (length serial_layout) no_conn) m []).
Proof.
  intros Hm Hc Hn Hops. apply wp_bind. eapply wp_mono; [by apply setup_x86|].
  intros [] s (Hcs & Hcl & _). apply exec_wf; [done|done|]. split.
  - unfold NUM_PORTS. by rewrite Hcs, length_map.
  - eapply list.Forall_impl; [exact Hcl|]. intros c [H1 H2]. by split; apply page_clear_ok.
Qed.

End Safe.

(** * Witnesses *)

Definition blank : list Z := replicate 4088 0.

#[local] Instance console_env_demo : ConsoleEnv :=
  {| serial_layout := [(1, 2); (3, 4)];
     recv_channel := fun id => Some (mkChannel (100 + id) (1000 * id) (id + 1));
     send_channel := fun id => Some (mkChannel (100 + id) (1000 * id) (id + 1));
     batch_batch := 1; batch_buf := 7000; serial_getchar_buf := 8000; serial_getchar_badge := 1;
     register_async_event_handler := fun _ => 0 |}.

(** Pages with garbage indices, as set-up finds them. *)
Definition pages_demo : gmap Z serial_shmem :=
  list_to_map (map (fun p => (p, mkShmem 9999 77 blank)) [1000; 2000; 3000; 4000]).

Lemma pages_demo_sized : pages_sized pages_demo.
Proof. repeat (apply map_Forall_insert_2; [reflexivity|]). apply map_Forall_empty. Qed.

Lemma console_safe_witness :
  wp (make_virtio_con_virtqueues;;
      for_each [ConTx 0 104; ConTx 1 10; ConTx (-1) 7; ConTx 2 7; ConPeer 1000 (mkShmem 5 9 blank); ConServe]
        (con_exec NUM_PORTS))
     (fun _ => con_wf NUM_PORTS)
     (mkConsole (replicate (length serial_layout) no_conn) pages_demo []).
Proof.
  apply console_safe; [apply pages_demo_sized| |reflexivity|].
  - repeat (apply List.Forall_cons; [eexists _, _; repeat split; eexists; reflexivity|]). apply List.Forall_nil.
  - repeat (apply List.Forall_cons; [repeat split; done|]). apply List.Forall_nil.
Defined.

(** A first character, then a newline while the consumer is woken early. *)
Definition link_demo : link :=
  mkLink (mkShmem 0 2 (104 :: 10 :: replicate 4086 0)) PIdle CWoken true [104; 10] [].

Lemma link_demo_reach : rtc link_step (link_init blank) link_demo.
Proof.
  eapply rtc_l; [by apply (StepStore 104)|]. eapply rtc_l; [apply StepPublish|].
  eapply rtc_l; [apply StepNotify|]. eapply rtc_l; [apply StepWake|].
  eapply rtc_l; [by apply (StepStore 10)|]. eapply rtc_l; [apply StepPublish|].
  eapply rtc_l; [apply StepNotify|]. apply rtc_refl.
Qed.

Lemma console_link_fifo_witness :
  l_written link_demo = l_read link_demo ++ undelivered link_demo /\ shmem_wf (l_ring link_demo) /\
  forall last, l_cons link_demo = CCalling last ->
  exists before, l_read link_demo
                 = before ++ between (sh_buf (l_ring link_demo)) (sh_head (l_ring link_demo)) last.
Proof. apply (console_link_fifo blank); [reflexivity|exact link_demo_reach]. Defined.

Definition link_idle : link :=
  mkLink (mkShmem 0 1 (104 :: replicate 4087 0)) PIdle CIdle false [104] [].

Lemma link_idle_reach : rtc link_step (link_init blank) link_idle.
Proof.
  eapply rtc_l; [by apply (StepStore 104)|]. eapply rtc_l; [apply StepPublish|].
  eapply rtc_l; [apply StepNotify|]. apply rtc_refl.
Qed.

Lemma console_no_lost_line_witness :
  ~ In 10 (undelivered link_idle) /\ ring_full (l_ring link_idle) = false.
Proof.
  apply (console_no_lost_line blank); [reflexivity|exact link_idle_reach|reflexivity..].
Defined.

Definition wf_pages : gmap Z serial_shmem :=
  list_to_map (map (fun p => (p, mkShmem 4080 4087 blank)) [1000; 2000; 3000; 4000]).
Definition vmm_a : Console := mkConsole [mkConn 102 1000 2000; mkConn 104 3000 4000] wf_pages [].
Definition vmm_b : Console := mkConsole [mkConn 5 4000 3000; mkConn 6 2000 1000] wf_pages [].

Lemma demo_page p : In p [1000; 2000; 3000; 4000] -> page_ok wf_pages p.
Proof.
  intros H. exists (mkShmem 4080 4087 blank). split; [|by repeat split].
  repeat (destruct H as [<-|H]; [reflexivity|]). destruct H.
Qed.

Lemma console_roundtrip_witness :
  exists a' es r',
    for_each [104; 105; 10] (tx_virtcon_forward 0) vmm_a = Ok (tt, a') /\
    con_log a' = [] ++ es /\ (In 10 [104; 105; 10] -> In (Notify 102) es) /\
    shm a' = <[2000 := r']> wf_pages /\ pending r' = replicate 7 0 ++ [104; 105; 10] /\
    handle_serial_console (vmm_b <| shm := shm a' |>)
    = Ok (tt, vmm_b <| shm := drained (shm a') (connections vmm_b) |>
                    <| con_log := [] ++ deliveries (shm a') (connections vmm_b) |>) /\
    In (EmulPutchar (Z.of_nat 1) (sh_buf r') (sh_head r') (sh_tail r')) (deliveries (shm a') (connections vmm_b)) /\
    forall p, In p [4000; 2000] ->
      exists r0, drained (shm a') (connections vmm_b) !! p = Some r0 /\ pending r0 = [].
Proof.
  apply (console_roundtrip _ _ vmm_a vmm_b 0 1 (mkConn 102 1000 2000) (mkConn 6 2000 1000)
           (mkShmem 4080 4087 blank) [104; 105; 10]); try reflexivity; try lia.
  - split; [reflexivity|]. repeat (apply List.Forall_cons; [split; apply demo_page; cbn; tauto|]).
    apply List.Forall_nil.
  - split; [reflexivity|]. repeat (apply List.Forall_cons; [split; apply demo_page; cbn; tauto|]).
    apply List.Forall_nil.
  - split; [lia|reflexivity].
  - cbn. apply list.NoDup_cons. split; [set_solver|]. apply list.NoDup_singleton.
  - split; reflexivity.
Defined.

(** ** Finding: nothing stops a writer from overrunning a full ring

    One character more and the whole contents are lost: the ring looks
    empty. *)
Lemma console_overrun c r : shmem_wf r -> ring_full r = true -> pending (sent_one c r) = [].
Proof.
  intros Hr Hf%full_dist; [|done]. pose proof Hr as [_ Hh Ht]. unfold pending.
  assert (sh_tail (sent_one c r) = (sh_tail r + 1) mod BUFSIZE) as ->
    by exact (publish_tail _ (store_wf c r Hr)).
  change (sh_head (sent_one c r)) with (sh_head r). unfold between.
  replace (dist (sh_head r) ((sh_tail r + 1) mod BUFSIZE)) with 0; [done|].
  unfold dist, BUFSIZE in *. Z.to_euclidean_division_equations; lia.
Qed.

(** ** Finding: a missing channel leaves null pages behind

    The remaining ports stay unconnected, and a character sent there
    dereferences a null pointer. *)
Lemma console_unconnected n port s c :
  0 <= port < n -> n < 2 ^ 31 -> shm s !! 0 = None -> idx (connections s) port = Ok no_conn ->
  con_forward n port c s = Fault NullDeref.
Proof.
  intros Hp Hn H0 Hi. unfold con_forward. replace (u64 port >=? n) with false
    by (symmetry; rewrite Z.geb_leb; apply Z.leb_gt; unfold u64, wrap; rewrite Z.mod_small; lia).
  rewrite (bind_ok _ _ s s s) by done. rewrite (bind_ok _ _ s no_conn s) by (by apply lift_ok).
  unfold mbind, M_bind, tx_store, page, mbind, M_bind, get. cbn. by rewrite H0.
Qed.
