(* ===== verification/ConsoleArm.v ===== *)
(** The virtio consoles of the ARM VMM (components/VM_Arm/src/modules/virtio_con.c).
    The functions that forward and serve characters are the text of the x86
    VMM's ([con_forward], [con_handle] of Console); here is the set-up, in
    which port 0 is connected to the serial server and the callback is
    registered for the badge of every connection. *)

From stdpp Require Import gmap.
From S2P Require Import Prelude Console.

(** ** The ARM VMM: port 0 is the serial server *)

Section Arm.
Context {E : ConsoleEnv}.

Definition NUM_PORTS : Z := Z.of_nat (length serial_layout) + 1.
Definition tx_virtcon_forward : Z -> Z -> M Console unit := con_forward NUM_PORTS.
Definition virtio_con_notify_recv : Z -> M Console unit := con_notify_recv.
Definition handle_serial_console : M Console Z := con_handle NUM_PORTS;; mret 0.

(** The answer of register_async_event_handler, called with [badge]. *)
Definition register (badge : Z) : M Console Z :=
  con_emit (RegisterHandler badge);; mret (register_async_event_handler badge).

(** The loop of [make_virtio_con]. *)
Definition make_virtio_con : M Console unit :=
  for_until (zrange (Z.to_nat NUM_PORTS)) (fun i =>
    if i =? 0 then
      set_connection 0 (mkConn batch_batch serial_getchar_buf batch_buf);;
      err ← register serial_getchar_badge;
      mret (z2b err)
    else
      ids ← lift (idx serial_layout (i - 1));
      match recv_channel (fst ids), send_channel (snd ids) with
      | Some rc, Some sc =>
          err ← register (recv_badge rc);
          if z2b err then mret true
          else
            set_connection i (mkConn (ch_notify sc) (channel_buffer rc) (channel_buffer sc));;
            mret false
      | _, _ => mret true
      end);;
  mret tt.

End Arm.

(** * Set-up and operation *)

Section Safe.
Context {E : ConsoleEnv}.

(** On ARM port 0 is the serial server's, and nobody clears the pages. *)
Lemma setup_arm m :
  (forall badge, register_async_event_handler badge = 0) ->
  page_ok m serial_getchar_buf -> page_ok m batch_buf -> channels_ok (page_ok m) ->
  wp make_virtio_con
     (fun _ s => connections s = mkConn batch_batch serial_getchar_buf batch_buf :: map conn_of serial_layout /\
                 shm s = m)
     (mkConsole (replicate (S (length serial_layout)) no_conn) m []).
Proof.
  intros Hreg H1 H2 Hc. unfold make_virtio_con, NUM_PORTS.
  replace (Z.to_nat (Z.of_nat (length serial_layout) + 1)) with (S (length serial_layout)) by lia.
  apply wp_bind. set (c0 := mkConn batch_batch serial_getchar_buf batch_buf).
  apply (wp_for_until_zrange (fun i s => shm s = m /\
    connections s = take i (c0 :: map conn_of (take (pred i) serial_layout)) ++
                    replicate (S (length serial_layout) - i) no_conn)).
  - by cbn.
  - intros i s Hi [Hm Hcs]. destruct i as [|i].
    + cbn [Z.of_nat Z.eqb]. apply wp_bind.
      eapply wp_of_eq; [by apply (set_connection_run s [] (replicate (length serial_layout) no_conn) no_conn)|].
      unfold register. rewrite Hreg. apply wp_bind, wp_bind, wp_modify, wp_ret, wp_ret.
      split; [done|]. split; [done|]. cbn. by rewrite Nat.sub_0_r.
    + replace (Z.of_nat (S i) =? 0) with false by (symmetry; apply Z.eqb_neq; lia).
      replace (Z.of_nat (S i) - 1) with (Z.of_nat i) by lia.
      destruct (lookup_lt_is_Some_2 serial_layout i ltac:(lia)) as [ids Eids].
      apply wp_bind. eapply wp_lift; [by apply idx_lookup|].
      unfold channels_ok in Hc. pose proof (list.Forall_lookup_1 _ _ _ _ Hc Eids) as (rc & sc & Er & Es & _).
      rewrite Er, Es. unfold register. rewrite Hreg. apply wp_bind, wp_bind, wp_modify, wp_ret.
      cbn [z2b Z.eqb negb]. apply wp_bind. cbn [pred] in Hcs.
      replace (S (length serial_layout) - S i)%nat with (S (length serial_layout - S i)) in Hcs by lia.
      cbn [replicate take] in Hcs. rewrite (take_ge (map _ _)) in Hcs by (rewrite length_map, length_take; lia).
      eapply wp_of_eq; [eapply (set_connection_run _ (c0 :: map conn_of (take i serial_layout))); [exact Hcs|]|].
      { cbn [length]. rewrite length_map, length_take. lia. }
      apply wp_ret. split; [done|]. split; [done|]. cbn [connections pred].
      replace (S (length serial_layout) - S (S i))%nat with (length serial_layout - S i)%nat by lia.
      cbn [take]. rewrite (take_ge (map _ _)) by (rewrite length_map, length_take; lia).
      rewrite (take_S_r _ _ ids) by done. rewrite map_app. cbn.
      assert (conn_of ids = mkConn (ch_notify sc) (channel_buffer rc) (channel_buffer sc)) as ->
        by (unfold conn_of; by rewrite Er, Es). by rewrite <-app_assoc.
  - intros s [Hm Hcs]. apply wp_ret. split; [|done]. rewrite Hcs, Nat.sub_diag. cbn [pred take replicate].
    rewrite app_nil_r, take_ge; rewrite ?take_ge by lia; [done|]. by rewrite length_map.
Qed.

(** The same for the ARM consoles, given that the pages start out valid. *)
Lemma arm_console_safe (m : gmap Z serial_shmem) (ops : list con_op) :
  (forall badge, register_async_event_handler badge = 0) ->
  page_ok m serial_getchar_buf -> page_ok m batch_buf -> channels_ok (page_ok m) ->
  NUM_PORTS < 2 ^ 31 -> Forall con_op_ok ops ->
  wp (make_virtio_con;; for_each ops (con_exec NUM_PORTS)) (fun _ => con_wf NUM_PORTS)
     (mkConsole (replicate (S (length serial_layout)) no_conn) m []).
Proof.
  intros Hreg H1 H2 Hc Hn Hops. apply wp_bind. eapply wp_mono; [by apply setup_arm|].
  intros [] s [Hcs Hm]. apply exec_wf; [done|done|]. split.
  - unfold NUM_PORTS. rewrite Hcs. cbn. rewrite length_map. lia.
  - rewrite Hcs, Hm. constructor; [by split|]. apply List.Forall_forall. intros c (ids & <- & Hin)%in_map_iff.
    unfold channels_ok in Hc. rewrite List.Forall_forall in Hc.
    destruct (Hc ids Hin) as (rc & sc & Er & Es & ? & ?). unfold conn_of. rewrite Er, Es. by split.
Qed.

End Safe.
