(* ===== verification/Vnet.v ===== *)
(** The virtual switch of the x86 VMM (components/Init/src/virtio_net_vswitch.c):
    forwarding the frames a guest sends to the virtqueues of the guests they
    are for, and handing received frames to the guest.

    The CAmkES virtqueues, the switch table (libvswitch) and the emulation
    layer are outside the repository.  [VirtQueue] is the interface of a
    virtqueue as this code uses it, with the laws that relate it to the frames
    and buffers it holds; [Vswitch] the interface of the table. *)

From S2P Require Import Prelude.

(** A frame is its bytes; its destination address comes first. *)
Definition frame := list Z.
Definition destaddr (f : frame) : list Z := take 6 f.

(** * The interfaces *)

(** The two ends of a virtqueue.  The device end takes available buffers: it
    learns their size and copies them, which fails when the buffers cannot be
    gathered; the driver end takes back used buffers piece by piece. *)
Class VirtQueue := {
  vq : Type;
  vq_handle : Type;
  virtqueue_get_available_buf : vq -> option (vq_handle * vq);
  virtqueue_scattered_available_size : vq -> vq_handle -> Z;
  gather_copy_buffer : vq -> vq_handle -> Z -> option (frame * vq);
  virtqueue_get_used_buf : vq -> option (vq_handle * vq);
  gather_buffer : vq -> vq_handle -> option (Z * vq_handle * vq);
  VQ_DEV_POLL : vq -> bool;
  VQ_DRV_POLL : vq -> bool }.

(** The frames available to the device and the buffers the driver has to take
    back. *)
Class VirtQueueLaws (Q : VirtQueue) := {
  vq_frames : vq -> list frame;
  vq_used : vq -> list (list Z);
  vq_rest : vq_handle -> list Z;
  available_none q : virtqueue_get_available_buf q = None -> vq_frames q = [];
  available_some q h q' : virtqueue_get_available_buf q = Some (h, q') ->
    exists f, vq_frames q = f :: vq_frames q' /\
      virtqueue_scattered_available_size q' h = Z.of_nat (length f) /\
      forall d q'', gather_copy_buffer q' h (Z.of_nat (length f)) = Some (d, q'') ->
        d = f /\ vq_frames q'' = vq_frames q';
  used_none q : virtqueue_get_used_buf q = None -> vq_used q = [];
  used_some q h q' : virtqueue_get_used_buf q = Some (h, q') ->
    vq_used q = vq_rest h :: vq_used q';
  gather_none q h : gather_buffer q h = None -> vq_rest h = [];
  gather_some q h b h' q' : gather_buffer q h = Some (b, h', q') ->
    vq_rest h = b :: vq_rest h' /\ vq_used q' = vq_used q;
  dev_poll q : VQ_DEV_POLL q = false -> vq_frames q = [];
  drv_poll q : VQ_DRV_POLL q = false -> vq_used q = [] }.

Inductive net_event :=
| SendBuffer (queue : Z) (f : frame)
| NotifyQueue (queue : Z)
| FreeBuffer (queue buf : Z)
| RxComplete (f : frame).

(** libvswitch's table; a node names its send queue. *)
Class Vswitch := {
  mac802_addr_eq_bcast : list Z -> bool;
  mac802_addr_eq_ipv6_mcast : list Z -> bool;
  n_connected : Z;
  vswitch_get_destnode_index_by_macaddr : list Z -> Z;
  vswitch_get_destnode_by_index : Z -> option Z;
  (* camkes_virtqueue_driver_scatter_send_buffer, given the calls before *)
  scatter_send_buffer : list net_event -> Z -> frame -> Z }.

(** The addresses of the connected nodes and their queues. *)
Class VswitchLaws (V : Vswitch) := {
  vs_nodes : list (list Z * Z);
  n_connected_spec : n_connected = Z.of_nat (length vs_nodes);
  by_index_spec i : 0 <= i < n_connected ->
    vswitch_get_destnode_by_index i = option_map snd (vs_nodes !! Z.to_nat i);
  by_macaddr_some a : 0 <= vswitch_get_destnode_index_by_macaddr a ->
    vswitch_get_destnode_index_by_macaddr a < n_connected /\
    exists q, vs_nodes !! Z.to_nat (vswitch_get_destnode_index_by_macaddr a) = Some (a, q);
  by_macaddr_none a : vswitch_get_destnode_index_by_macaddr a < 0 ->
    ~ In a (map fst vs_nodes) }.

(** * Transmission *)

(** The calls made so far. *)
Definition Net (A : Type) : Type := M (list net_event) A.
Definition net_emit (e : net_event) : Net unit := modify (fun l => l ++ [e]).

(** Results of a transmission (libethdrivers). *)
Inductive ethif_tx := ETHIF_TX_COMPLETE | ETHIF_TX_FAILED.

Section Tx.
Context {V : Vswitch}.

(** First node and number of nodes of a destination; [None] if there is none. *)
Definition destnodes (addr : list Z) : option (Z * Z) :=
  if mac802_addr_eq_bcast addr || mac802_addr_eq_ipv6_mcast addr then Some (0, n_connected)
  else
    let i := vswitch_get_destnode_index_by_macaddr addr in
    if i <? 0 then None else Some (i, 1).

(** [true] when the function returns. *)
Definition send_to_node (f : frame) (j : Z) : Net bool :=
  match vswitch_get_destnode_by_index j with
  | None => mret false
  | Some queue =>
      l ← get;
      net_emit (SendBuffer queue f);;
      if scatter_send_buffer l queue f <? 0 then mret true
      else net_emit (NotifyQueue queue);; mret false
  end.

Definition send_frame (f : frame) : Net bool :=
  match destnodes (destaddr f) with
  | None => mret true
  | Some (start, n) => for_until (map (fun j => start + j) (zrange (Z.to_nat n))) (send_to_node f)
  end.

Definition emul_raw_tx (frames : list frame) : Net ethif_tx :=
  for_until frames send_frame;;
  mret ETHIF_TX_COMPLETE.

End Tx.

(** * Reception *)

Section Rx.
Context {Q : VirtQueue}.
(** The guest's receive ring: has it room for a frame of this size, given the
    calls so far? *)
Variable allocate_rx_buf : list net_event -> Z -> bool.

(** [while (virtqueue_get_available_buf(..)) ..]; [break] when the frame is
    dropped. *)
Fixpoint notify_vswitch_recv (fuel : nat) (q : vq) : Net vq :=
  match virtqueue_get_available_buf q with
  | None => mret q
  | Some (h, q) =>
      match fuel with
      | O => fail OutOfFuel
      | S fuel =>
          let len := virtqueue_scattered_available_size q h in
          l ← get;
          if allocate_rx_buf l len then
            match gather_copy_buffer q h len with
            | None => mret q
            | Some (d, q) => net_emit (RxComplete d);; notify_vswitch_recv fuel q
            end
          else mret q
      end
  end.
Definition virtio_net_notify_vswitch_recv (fuel : nat) (id : Z) (q : vq) : Net vq :=
  q ← notify_vswitch_recv fuel q;
  net_emit (NotifyQueue id);;
  mret q.

(** The receive loop of the other two users of virtqueues, which goes on after
    a frame it cannot gather, and notifies the sender after each frame; it
    copies into a buffer of [mtu] bytes and hands the frame to [deliver]. *)
Fixpoint recv_each (mtu : Z) (deliver : frame -> Net unit) (fuel : nat) (id : Z) (q : vq) : Net vq :=
  match virtqueue_get_available_buf q with
  | None => mret q
  | Some (h, q) =>
      match fuel with
      | O => fail OutOfFuel
      | S fuel =>
          let len := virtqueue_scattered_available_size q h in
          if mtu <? len then fail OutOfBounds
          else match gather_copy_buffer q h len with
               | None => recv_each mtu deliver fuel id q
               | Some (d, q) => deliver d;; net_emit (NotifyQueue id);; recv_each mtu deliver fuel id q
               end
      end
  end.

(** The two loops that free what the other end has used. *)
Fixpoint free_pieces (fuel : nat) (id : Z) (q : vq) (h : vq_handle) : Net vq :=
  match gather_buffer q h with
  | None => mret q
  | Some (buf, h, q) =>
      match fuel with
      | O => fail OutOfFuel
      | S fuel => net_emit (FreeBuffer id buf);; free_pieces fuel id q h
      end
  end.
Fixpoint virtio_net_notify_vswitch_send (fuel : nat) (id : Z) (q : vq) : Net vq :=
  match virtqueue_get_used_buf q with
  | None => mret q
  | Some (h, q) =>
      match fuel with
      | O => fail OutOfFuel
      | S fuel => q ← free_pieces fuel id q h; virtio_net_notify_vswitch_send fuel id q
      end
  end.

(** ** Polling *)

(** The queues to and from one node, with their ids, if connected. *)
Record vnode := mkVnode { vn_recv : option (Z * vq); vn_send : option (Z * vq) }.

(** [if (queue && POLL(queue)) serve(queue)] *)
Definition poll_queue (poll : vq -> bool) (serve : Z -> vq -> Net vq) (q : option (Z * vq)) : Net (option (Z * vq)) :=
  match q with
  | Some (id, q) => if poll q then q ← serve id q; mret (Some (id, q)) else mret (Some (id, q))
  | None => mret None
  end.

Fixpoint poll_nodes (serve : vnode -> Net vnode) (nodes : list vnode) : Net (list vnode) :=
  match nodes with
  | [] => mret []
  | n :: nodes => n ← serve n; nodes ← poll_nodes serve nodes; mret (n :: nodes)
  end.

(** The body of the loop of the x86 callback. *)
Definition poll_vswitch_node (fuel : nat) (n : vnode) : Net vnode :=
  send ← poll_queue VQ_DRV_POLL (virtio_net_notify_vswitch_send fuel) (vn_send n);
  recv ← poll_queue VQ_DEV_POLL (virtio_net_notify_vswitch_recv fuel) (vn_recv n);
  mret (mkVnode recv send).
Definition virtio_net_notify_vswitch (fuel : nat) (nodes : list vnode) : Net (list vnode) :=
  poll_nodes (poll_vswitch_node fuel) nodes.

End Rx.

(** * Forwarding is by address *)

Section Forwarding.
Context {V : Vswitch} {L : VswitchLaws V}.

Definition is_group (a : list Z) : bool := mac802_addr_eq_bcast a || mac802_addr_eq_ipv6_mcast a.

(** The queues a frame has to reach. *)
Definition target_queues (f : frame) : list Z :=
  if is_group (destaddr f) then map snd vs_nodes
  else match vs_nodes !! Z.to_nat (vswitch_get_destnode_index_by_macaddr (destaddr f)) with
       | Some n => [snd n] | None => [] end.

(** Somebody is connected for it. *)
Definition reachable_dest (f : frame) : Prop :=
  is_group (destaddr f) = true \/ 0 <= vswitch_get_destnode_index_by_macaddr (destaddr f).

Definition delivered (f : frame) : list net_event :=
  concat (map (fun q => [SendBuffer q f; NotifyQueue q]) (target_queues f)).

(** A call puts the frame on a queue it is for. *)
Definition for_target (e : net_event) : Prop :=
  match e with
  | SendBuffer q f =>
      In q (map snd vs_nodes) /\
      (is_group (destaddr f) = true \/ exists a, In (a, q) vs_nodes /\ a = destaddr f)
  | NotifyQueue q => In q (map snd vs_nodes)
  | _ => False
  end.

Lemma for_until_ok {S X} (l : list X) (body : X -> M S bool) (P : S -> Prop) (Q : bool -> S -> Prop) s :
  P s -> (forall x s', In x l -> P s' -> wp (body x) (fun _ => P) s') ->
  (forall b s', P s' -> Q b s') -> wp (for_until l body) Q s.
Proof.
  revert s. induction l as [|x l IH]; intros s Hs Hb HQ; cbn [for_until]; [by apply wp_ret, HQ|].
  apply wp_bind. eapply wp_mono; [apply Hb; [by left|done]|]. intros [] s' Hs'; [by apply wp_ret, HQ|].
  apply IH; [done| |done]. intros. apply Hb; [by right|done].
Qed.

(** The log grows by calls satisfying [P]. *)
Definition grows (P : net_event -> Prop) (l l' : list net_event) : Prop :=
  exists es, l' = l ++ es /\ Forall P es.

Lemma grows_snoc P l l' e : grows P l l' -> P e -> grows P l (l' ++ [e]).
Proof.
  intros (es & -> & H) He. exists (es ++ [e]). rewrite app_assoc. split; [done|].
  apply List.Forall_app. split; [done|]. by repeat constructor.
Qed.

Lemma send_to_node_ok f j l l0 :
  0 <= j < n_connected ->
  (is_group (destaddr f) = true \/ exists q, vs_nodes !! Z.to_nat j = Some (destaddr f, q)) ->
  grows for_target l0 l ->
  wp (send_to_node f j) (fun _ => grows for_target l0) l.
Proof using L.
  intros Hj Hf Hl. unfold send_to_node. rewrite by_index_spec by done.
  destruct (vs_nodes !! Z.to_nat j) as [[a q]|] eqn:Ej; cbn [option_map snd]; [|by wp_run].
  assert (In (a, q) vs_nodes) as Hin by (apply list_elem_of_In; by eapply list_elem_of_lookup_2).
  assert (In q (map snd vs_nodes)) as Hq by (apply in_map_iff; by exists (a, q)).
  assert (for_target (SendBuffer q f)) as Hs.
  { split; [done|]. destruct Hf as [?|[q' E]]; [by left|]. right. injection E as -> _. by exists (destaddr f). }
  unfold net_emit. wp_run; by repeat (apply grows_snoc; [|done]).
Qed.

Lemma send_frame_ok f l l0 :
  grows for_target l0 l -> wp (send_frame f) (fun _ => grows for_target l0) l.
Proof using L.
  intros Hl. unfold send_frame, destnodes. fold (is_group (destaddr f)).
  destruct (is_group (destaddr f)) eqn:Hg.
  - apply for_until_ok with (P := grows for_target l0); [done| |done].
    intros x s' (j & <- & Hj%in_zrange)%in_map_iff Hs'. apply send_to_node_ok; [|by left|done].
    rewrite n_connected_spec in *. lia.
  - destruct (Z.ltb_spec (vswitch_get_destnode_index_by_macaddr (destaddr f)) 0) as [|H0]; [by wp_run|].
    destruct (by_macaddr_some _ H0) as (Hlt & q & Eq).
    apply for_until_ok with (P := grows for_target l0); [done| |done].
    intros x s' (j & <- & Hj%in_zrange)%in_map_iff Hs'. change (Z.of_nat (Z.to_nat 1)) with 1 in Hj.
    replace (vswitch_get_destnode_index_by_macaddr (destaddr f) + j)
      with (vswitch_get_destnode_index_by_macaddr (destaddr f)) by lia.
    apply send_to_node_ok; [lia| |done]. right. by exists q.
Qed.

Lemma send_to_node_all f j a q l :
  vs_nodes !! Z.to_nat j = Some (a, q) -> 0 <= j < n_connected ->
  (forall l q f, 0 <= scatter_send_buffer l q f) ->
  send_to_node f j l = Ok (false, l ++ [SendBuffer q f; NotifyQueue q]).
Proof using L.
  intros Hj Hr Hok. unfold send_to_node. rewrite by_index_spec, Hj by done. cbn [option_map snd].
  rewrite (bind_ok _ _ l l l) by done.
  rewrite (bind_ok _ _ l tt (l ++ [SendBuffer q f])) by done.
  replace (scatter_send_buffer l q f <? 0) with false by (symmetry; apply Z.ltb_ge, Hok).
  rewrite (bind_ok _ _ _ tt ((l ++ [SendBuffer q f]) ++ [NotifyQueue q])) by done.
  by rewrite <-app_assoc.
Qed.

Lemma send_group f pre suf l :
  vs_nodes = pre ++ suf -> (forall l q f, 0 <= scatter_send_buffer l q f) ->
  for_until (map Z.of_nat (seq (length pre) (length suf))) (send_to_node f) l
  = Ok (false, l ++ concat (map (fun q => [SendBuffer q f; NotifyQueue q]) (map snd suf))).
Proof using L.
  intros E Hok. revert pre l E. induction suf as [|[a q] suf IH]; intros pre l E; cbn [length seq map for_until].
  { cbn. by rewrite app_nil_r. }
  rewrite (bind_ok _ _ _ _ _ (send_to_node_all f (Z.of_nat (length pre)) a q l
    ltac:(rewrite Nat2Z.id, E; apply lookup_mid)
    ltac:(rewrite n_connected_spec, E, length_app; cbn [length]; lia) Hok)).
  specialize (IH (pre ++ [(a, q)])). rewrite length_app, Nat.add_comm in IH. cbn [length plus] in IH.
  rewrite IH by (by rewrite <-app_assoc). cbn [snd concat]. by rewrite <-app_assoc.
Qed.

Lemma send_frame_all f l :
  reachable_dest f -> (forall l q f, 0 <= scatter_send_buffer l q f) ->
  send_frame f l = Ok (false, l ++ delivered f).
Proof using L.
  intros Hf Hok. unfold send_frame, destnodes, delivered, target_queues, reachable_dest in *.
  fold (is_group (destaddr f)). destruct (is_group (destaddr f)) eqn:Hg.
  - rewrite map_id, n_connected_spec, Nat2Z.id. by apply (send_group f [] vs_nodes).
  - destruct Hf as [?|H0]; [done|]. destruct (by_macaddr_some _ H0) as (Hlt & q & Eq). rewrite Eq.
    destruct (Z.ltb_spec (vswitch_get_destnode_index_by_macaddr (destaddr f)) 0); [lia|].
    change (map _ (zrange (Z.to_nat 1))) with [vswitch_get_destnode_index_by_macaddr (destaddr f) + 0].
    rewrite Z.add_0_r. cbn [for_until].
    by rewrite (bind_ok _ _ _ _ _ (send_to_node_all f _ _ _ l Eq (conj H0 Hlt) Hok)).
Qed.

(** C14 -- The switch forwards by address.  Whatever fails, a frame is put only on
    queues of connected guests it is addressed to: the queue of the guest that
    has its destination address, or any queue when the address is a broadcast
    or multicast one.  When the queues accept the frames and every destination
    is known, each frame of a transmission reaches all the queues it is for,
    once each and in the order of the frames, each followed by a
    notification.  A frame for an unknown address ends the transmission, and
    the frames after it are dropped with it. *)
Theorem vswitch_forwards (frames : list frame) (l : list net_event) :
  wp (emul_raw_tx frames) (fun r l' => r = ETHIF_TX_COMPLETE /\ grows for_target l l') l /\
  ((forall l q f, 0 <= scatter_send_buffer l q f) -> forall sent rest,
   frames = sent ++ rest -> Forall reachable_dest sent ->
   match rest with [] => True | f :: _ => ~ reachable_dest f end ->
   emul_raw_tx frames l = Ok (ETHIF_TX_COMPLETE, l ++ concat (map delivered sent))).
Proof using L.
  split.
  - unfold emul_raw_tx. apply wp_bind.
    apply for_until_ok with (P := grows for_target l); [by exists []; rewrite app_nil_r| |].
    + intros f s' _ Hs'. by apply send_frame_ok.
    + intros b s' Hs'. by apply wp_ret.
  - intros Hok sent rest -> Hsent Hrest. unfold emul_raw_tx.
    enough (exists b, for_until (sent ++ rest) send_frame l = Ok (b, l ++ concat (map delivered sent)))
      as [b E1] by (by rewrite (bind_ok _ _ _ _ _ E1)).
    revert l. induction Hsent as [|f sent Hf _ IH]; intros l.
    + cbn. rewrite app_nil_r. destruct rest as [|f rest]; [by exists false|]. exists true. cbn [for_until].
      rewrite (bind_ok _ _ l true l); [done|]. unfold send_frame, destnodes.
      fold (is_group (destaddr f)). unfold reachable_dest in Hrest.
      destruct (is_group (destaddr f)); [destruct Hrest; by left|].
      destruct (Z.ltb_spec (vswitch_get_destnode_index_by_macaddr (destaddr f)) 0); [done|].
      destruct Hrest. by right.
    + cbn [app for_until map concat]. rewrite (bind_ok _ _ _ _ _ (send_frame_all f l Hf Hok)).
      destruct (IH (l ++ delivered f)) as [b E1]. exists b. by rewrite E1, <-app_assoc.
Qed.

(** ** Whatever the queues answer *)

(** What a frame makes happen on the queues it is for: they take it, until one
    does not; [true] when one did not. *)
Fixpoint send_all (f : frame) (l : list net_event) (qs : list Z) : list net_event * bool :=
  match qs with
  | [] => ([], false)
  | q :: qs =>
      if scatter_send_buffer l q f <? 0 then ([SendBuffer q f], true)
      else let r := send_all f (l ++ [SendBuffer q f; NotifyQueue q]) qs in
           (SendBuffer q f :: NotifyQueue q :: fst r, snd r)
  end.

Lemma send_to_node_exact f j a q l :
  vs_nodes !! Z.to_nat j = Some (a, q) -> 0 <= j < n_connected ->
  send_to_node f j l =
  if scatter_send_buffer l q f <? 0 then Ok (true, l ++ [SendBuffer q f])
  else Ok (false, l ++ [SendBuffer q f; NotifyQueue q]).
Proof using L.
  intros Hj Hr. unfold send_to_node. rewrite by_index_spec, Hj by done. cbn [option_map snd].
  rewrite (bind_ok _ _ l l l) by done.
  rewrite (bind_ok _ _ l tt (l ++ [SendBuffer q f])) by done.
  destruct (scatter_send_buffer l q f <? 0); [done|].
  rewrite (bind_ok _ _ _ tt ((l ++ [SendBuffer q f]) ++ [NotifyQueue q])) by done.
  by rewrite <-app_assoc.
Qed.

Lemma send_group_exact f pre suf post l :
  vs_nodes = pre ++ suf ++ post ->
  for_until (map Z.of_nat (seq (length pre) (length suf))) (send_to_node f) l
  = Ok (snd (send_all f l (map snd suf)), l ++ fst (send_all f l (map snd suf))).
Proof using L.
  intros E. revert pre l E. induction suf as [|[a q] suf IH]; intros pre l E; cbn [length seq map for_until send_all snd].
  { cbn. by rewrite app_nil_r. }
  unfold mbind, M_bind. rewrite (send_to_node_exact f (Z.of_nat (length pre)) a q l
    ltac:(rewrite Nat2Z.id, E; apply lookup_mid)
    ltac:(rewrite n_connected_spec, E, !length_app; cbn [length]; lia)).
  destruct (scatter_send_buffer l q f <? 0); [done|].
  specialize (IH (pre ++ [(a, q)])). rewrite length_app, Nat.add_comm in IH. cbn [length plus] in IH.
  rewrite IH by (by rewrite <-app_assoc). cbn [fst snd]. by rewrite <-app_assoc.
Qed.

(** A frame for somebody goes to its queues, the others end the transmission. *)
Lemma send_frame_exact f l :
  (reachable_dest f -> send_frame f l = Ok (snd (send_all f l (target_queues f)), l ++ fst (send_all f l (target_queues f)))) /\
  (~ reachable_dest f -> send_frame f l = Ok (true, l)).
Proof using L.
  unfold send_frame, destnodes, target_queues, reachable_dest.
  fold (is_group (destaddr f)). destruct (is_group (destaddr f)) eqn:Hg.
  - split; [|intros []; by left]. intros _. rewrite map_id, n_connected_spec, Nat2Z.id.
    apply (send_group_exact f [] vs_nodes []). by rewrite app_nil_r.
  - destruct (Z.ltb_spec (vswitch_get_destnode_index_by_macaddr (destaddr f)) 0) as [Hlt|H0].
    { split; [intros [?|?]; [done|lia]|done]. }
    split; [|intros []; by right]. intros _. destruct (by_macaddr_some _ H0) as (Hlt & q & Eq). rewrite Eq.
    change (Z.to_nat 1) with 1%nat. cbn [map zrange seq]. rewrite Z.add_0_r.
    pose proof (take_drop_middle _ _ _ Eq) as Em.
    pose proof (send_group_exact f _ [_] _ l (eq_sym Em)) as E1. rewrite length_take_le in E1
      by (apply lookup_lt_Some in Eq; lia). cbn [length seq map] in E1. rewrite Z2Nat.id in E1 by done. exact E1.
Qed.

End Forwarding.

(** * Reception is in order *)

Section Reception.
Context {Q : VirtQueue} {L : VirtQueueLaws Q}.
Variable allocate_rx_buf : list net_event -> Z -> bool.

(** The guest always has room, and buffers can always be gathered. *)
Definition rx_never_fails : Prop :=
  (forall l n, allocate_rx_buf l n = true) /\
  forall q h q', virtqueue_get_available_buf q = Some (h, q') ->
    gather_copy_buffer q' h (virtqueue_scattered_available_size q' h) <> None.

Lemma recv_run fuel q l :
  (length (vq_frames q) <= fuel)%nat ->
  exists q' got lost, notify_vswitch_recv allocate_rx_buf fuel q l = Ok (q', l ++ map RxComplete got) /\
    vq_frames q = got ++ lost ++ vq_frames q' /\ (length lost <= 1)%nat /\
    (lost = [] -> vq_frames q' = []) /\ (rx_never_fails -> lost = []).
Proof using L.
  revert q l. induction fuel as [|fuel IH]; intros q l Hf; cbn [notify_vswitch_recv];
    destruct (virtqueue_get_available_buf q) as [[h q1]|] eqn:Eg.
  - destruct (available_some _ _ _ Eg) as (f & E1 & _). rewrite E1 in Hf. cbn in Hf. lia.
  - exists q, [], []. rewrite (available_none _ Eg), app_nil_r. split_and!; first [done|cbn; lia].
  - destruct (available_some _ _ _ Eg) as (f & E1 & Es & Hg). rewrite E1 in Hf. cbn [length] in Hf.
    rewrite (bind_ok _ _ l l l) by done. cbv zeta. rewrite Es.
    assert (exists q' got lost, Ok (q1, l) = Ok (q', l ++ map RxComplete got) /\
      vq_frames q = got ++ lost ++ vq_frames q' /\ (length lost <= 1)%nat /\
      (lost = [] -> vq_frames q' = []) /\ (False -> lost = [])) as Hdrop.
    { exists q1, [], [f]. rewrite app_nil_r, E1. split_and!; first [done|cbn; lia]. }
    destruct (allocate_rx_buf l (Z.of_nat (length f))) eqn:Ea.
    + destruct (gather_copy_buffer q1 h (Z.of_nat (length f))) as [[d q2]|] eqn:Ed.
      * destruct (Hg d q2 eq_refl) as [-> E2].
        destruct (IH q2 (l ++ [RxComplete f]) ltac:(rewrite E2; lia)) as (q' & got & lost & E3 & E4 & H5 & H6 & H7).
        exists q', (f :: got), lost. rewrite (bind_ok _ _ l tt (l ++ [RxComplete f])) by done.
        rewrite E3, E1, <-E2, E4, <-app_assoc. split_and!; first [done|cbn; lia].
      * destruct Hdrop as (q' & got & lost & E3 & E4 & H5 & H6 & _). exists q', got, lost.
        split_and!; try first [done|cbn; lia]. intros [_ Hn]. by destruct (Hn q h q1 Eg); rewrite Es.
    + destruct Hdrop as (q' & got & lost & E3 & E4 & H5 & H6 & _). exists q', got, lost.
      split_and!; try first [done|cbn; lia]. intros [Hn _]. by rewrite Hn in Ea.
  - exists q, [], []. rewrite (available_none _ Eg), app_nil_r. split_and!; first [done|cbn; lia].
Qed.

(** Receiving from the switch ends, and gives the guest a prefix of the
    available frames, each once and in order, then notifies the sender.  It
    stops early only when the guest has no room or a frame cannot be gathered;
    then exactly one frame is lost and the others stay in the queue. *)
Lemma vswitch_rx_in_order (fuel : nat) (id : Z) (q : vq) (l : list net_event) :
  (length (vq_frames q) <= fuel)%nat ->
  exists q' got lost,
    virtio_net_notify_vswitch_recv allocate_rx_buf fuel id q l
    = Ok (q', l ++ map RxComplete got ++ [NotifyQueue id]) /\
    vq_frames q = got ++ lost ++ vq_frames q' /\ (length lost <= 1)%nat /\
    (lost = [] -> vq_frames q' = []) /\ (rx_never_fails -> got = vq_frames q).
Proof using L.
  intros Hf. destruct (recv_run fuel q l Hf) as (q' & got & lost & E1 & E2 & H3 & H4 & H5).
  exists q', got, lost. unfold virtio_net_notify_vswitch_recv. rewrite (bind_ok _ _ _ _ _ E1).
  rewrite (bind_ok _ _ _ tt ((l ++ map RxComplete got) ++ [NotifyQueue id])) by done.
  rewrite <-app_assoc. split_and!; try first [done|cbn; lia]. intros Hn. rewrite E2, (H5 Hn), (H4 (H5 Hn)). cbn.
  by rewrite app_nil_r.
Qed.

Lemma free_pieces_run fuel id q h l :
  (length (vq_rest h) <= fuel)%nat ->
  exists q', free_pieces fuel id q h l = Ok (q', l ++ map (FreeBuffer id) (vq_rest h)) /\ vq_used q' = vq_used q.
Proof using L.
  revert q h l. induction fuel as [|fuel IH]; intros q h l Hf; cbn [free_pieces];
    destruct (gather_buffer q h) as [[[b h'] q1]|] eqn:Eg.
  - destruct (gather_some _ _ _ _ _ Eg) as [E1 _]. rewrite E1 in Hf. cbn in Hf. lia.
  - exists q. rewrite (gather_none _ _ Eg), app_nil_r. done.
  - destruct (gather_some _ _ _ _ _ Eg) as [E1 E2]. rewrite E1 in Hf |- *. cbn [length] in Hf.
    rewrite (bind_ok _ _ l tt (l ++ [FreeBuffer id b])) by done.
    destruct (IH q1 h' (l ++ [FreeBuffer id b]) ltac:(lia)) as (q' & E3 & E4).
    exists q'. rewrite E3, <-app_assoc. split; [done|congruence].
  - exists q. rewrite (gather_none _ _ Eg), app_nil_r. done.
Qed.

(** Every buffer the other end has used is freed, once; two nested loops, both
    end. *)
Lemma free_all_run fuel id q l :
  (length (concat (vq_used q)) + length (vq_used q) <= fuel)%nat ->
  exists q', virtio_net_notify_vswitch_send fuel id q l
  = Ok (q', l ++ map (FreeBuffer id) (concat (vq_used q))) /\ vq_used q' = [].
Proof using L.
  revert q l. induction fuel as [|fuel IH]; intros q l Hf; cbn [virtio_net_notify_vswitch_send];
    destruct (virtqueue_get_used_buf q) as [[h q1]|] eqn:Eg.
  - rewrite (used_some _ _ _ Eg) in Hf. cbn [length] in Hf. lia.
  - exists q. rewrite (used_none _ Eg). cbn. by rewrite app_nil_r.
  - rewrite (used_some _ _ _ Eg) in Hf |- *. cbn [length concat] in *. rewrite length_app in Hf.
    destruct (free_pieces_run fuel id q1 h l ltac:(lia)) as (q2 & E1 & E2).
    rewrite (bind_ok _ _ _ _ _ E1).
    destruct (IH q2 (l ++ map (FreeBuffer id) (vq_rest h)) ltac:(rewrite E2; lia)) as (q' & E3 & E4).
    exists q'. rewrite E3, E2, map_app, <-app_assoc. done.
  - exists q. rewrite (used_none _ Eg). cbn. by rewrite app_nil_r.
Qed.

(** ** Polling *)

Definition frames_of (q : option (Z * vq)) : list frame := match q with Some (_, q) => vq_frames q | None => [] end.
Definition used_of (q : option (Z * vq)) : list (list Z) := match q with Some (_, q) => vq_used q | None => [] end.
(** Nothing is waiting at the node. *)
Definition node_idle (n : vnode) : Prop := frames_of (vn_recv n) = [] /\ used_of (vn_send n) = [].
(** The fuel is enough for the buffers waiting. *)
Definition fuel_for (fuel : nat) (n : vnode) : Prop :=
  (length (frames_of (vn_recv n)) <= fuel)%nat /\
  (length (concat (used_of (vn_send n))) + length (used_of (vn_send n)) <= fuel)%nat.

Definition freed (n : vnode) : list net_event :=
  match vn_send n with Some (id, q) => map (FreeBuffer id) (concat (vq_used q)) | None => [] end.

Lemma poll_send_run fuel q l :
  (length (concat (used_of q)) + length (used_of q) <= fuel)%nat ->
  exists q', poll_queue VQ_DRV_POLL (virtio_net_notify_vswitch_send fuel) q l
    = Ok (q', l ++ match q with Some (id, q) => map (FreeBuffer id) (concat (vq_used q)) | None => [] end) /\
    used_of q' = [].
Proof using L.
  destruct q as [[id q]|]; cbn [poll_queue used_of]; intros Hf; [|exists None; cbn; by rewrite app_nil_r].
  destruct (VQ_DRV_POLL q) eqn:Ep.
  - destruct (free_all_run fuel id q l Hf) as (q' & E1 & E2). exists (Some (id, q')).
    by rewrite (bind_ok _ _ _ _ _ E1).
  - exists (Some (id, q)). cbn [used_of]. rewrite (drv_poll _ Ep). cbn. by rewrite app_nil_r.
Qed.

(** Serving every node, where serving one is known. *)
Lemma poll_nodes_run serve ev nodes l :
  (forall n l, In n nodes -> exists n', serve n l = Ok (n', l ++ ev n) /\ node_idle n') ->
  exists nodes', poll_nodes serve nodes l = Ok (nodes', l ++ concat (map ev nodes)) /\ Forall node_idle nodes'.
Proof.
  revert l. induction nodes as [|n nodes IH]; intros l Hs; cbn [poll_nodes map concat].
  { exists []. by rewrite app_nil_r. }
  destruct (Hs n l ltac:(by left)) as (n' & E1 & H1). rewrite (bind_ok _ _ _ _ _ E1).
  destruct (IH (l ++ ev n)) as (nodes' & E2 & H2); [intros; apply Hs; by right|].
  exists (n' :: nodes'). rewrite (bind_ok _ _ _ _ _ E2), <-app_assoc. split; [done|]. by constructor.
Qed.

(** The frames of a polled queue, then the notification of its sender. *)
Definition received (n : vnode) : list net_event :=
  match vn_recv n with
  | Some (id, q) => if VQ_DEV_POLL q then map RxComplete (vq_frames q) ++ [NotifyQueue id] else []
  | None => []
  end.

Lemma poll_vswitch_run fuel n l :
  rx_never_fails -> fuel_for fuel n ->
  exists n', poll_vswitch_node allocate_rx_buf fuel n l = Ok (n', l ++ freed n ++ received n) /\ node_idle n'.
Proof using L.
  intros Hok [Hf1 Hf2]. unfold poll_vswitch_node, freed, received, node_idle.
  destruct (poll_send_run fuel (vn_send n) l Hf2) as (send & E1 & H1). rewrite (bind_ok _ _ _ _ _ E1), app_assoc.
  clear E1. revert H1. generalize (l ++ match vn_send n with Some (id, q) => map (FreeBuffer id) (concat (vq_used q)) | None => [] end).
  intros l1 H1. destruct (vn_recv n) as [[id q]|]; cbn [poll_queue frames_of] in *.
  2:{ exists (mkVnode None send). by rewrite app_nil_r. }
  destruct (VQ_DEV_POLL q) eqn:Ep.
  - destruct (recv_run fuel q l1 Hf1) as (q' & got & lost & E1 & E2 & _ & H4 & H5).
    exists (mkVnode (Some (id, q')) send).
    rewrite (bind_ok _ _ _ (Some (id, q')) ((l1 ++ map RxComplete got) ++ [NotifyQueue id])).
    + rewrite E2, (H5 Hok), (H4 (H5 Hok)), !app_nil_r, <-app_assoc. split; [done|]. split; [|done]. by apply H4, H5.
    + unfold virtio_net_notify_vswitch_recv, mbind, M_bind. rewrite E1. done.
  - exists (mkVnode (Some (id, q)) send). rewrite app_nil_r. split; [done|]. split; [|done]. by apply dev_poll.
Qed.

(** The callback leaves nothing waiting at any node. *)
Lemma notify_vswitch_all fuel nodes l :
  rx_never_fails -> Forall (fuel_for fuel) nodes ->
  exists nodes', virtio_net_notify_vswitch allocate_rx_buf fuel nodes l
    = Ok (nodes', l ++ concat (map (fun n => freed n ++ received n) nodes)) /\ Forall node_idle nodes'.
Proof using L.
  intros Hok Hf. apply poll_nodes_run. intros n l' Hn. apply poll_vswitch_run; [done|].
  by eapply List.Forall_forall in Hf.
Qed.

(** ** The loop that goes on *)

(** The frames that can be gathered. *)
Definition gathers : Prop :=
  forall q h q', virtqueue_get_available_buf q = Some (h, q') ->
    gather_copy_buffer q' h (virtqueue_scattered_available_size q' h) <> None.

(** Frames within the buffer all reach the guest, in order. *)
Lemma recv_each_run mtu deliver ev fuel id q l :
  (forall d l, deliver d l = Ok (tt, l ++ ev d)) -> gathers ->
  Forall (fun f => Z.of_nat (length f) <= mtu) (vq_frames q) ->
  (length (vq_frames q) <= fuel)%nat ->
  exists q', recv_each mtu deliver fuel id q l
    = Ok (q', l ++ concat (map (fun f => ev f ++ [NotifyQueue id]) (vq_frames q))) /\ vq_frames q' = [].
Proof using L.
  intros Hd Hg. revert q l. induction fuel as [|fuel IH]; intros q l Hm Hf; cbn [recv_each];
    destruct (virtqueue_get_available_buf q) as [[h q1]|] eqn:Eg.
  - destruct (available_some _ _ _ Eg) as (f & E1 & _). rewrite E1 in Hf. cbn in Hf. lia.
  - exists q. rewrite (available_none _ Eg). cbn. by rewrite app_nil_r.
  - destruct (available_some _ _ _ Eg) as (f & E1 & Es & Hc). rewrite E1 in Hf, Hm |- *. cbn [length] in Hf.
    inversion_clear Hm as [|?? Hlen Hm']. cbv zeta. pose proof (Hg q h q1 Eg) as Hg1. rewrite Es in Hg1 |- *.
    destruct (Z.ltb_spec mtu (Z.of_nat (length f))); [lia|].
    destruct (gather_copy_buffer q1 h (Z.of_nat (length f))) as [[d q2]|]; [|done].
    destruct (Hc d q2 eq_refl) as [-> E2].
    rewrite (bind_ok _ _ _ _ _ (Hd f l)).
    rewrite (bind_ok _ _ _ tt ((l ++ ev f) ++ [NotifyQueue id])) by done.
    destruct (IH q2 ((l ++ ev f) ++ [NotifyQueue id])) as (q' & E3 & E4); [by rewrite E2|rewrite E2; lia|].
    exists q'. rewrite E3, E2. cbn [map concat]. by rewrite <-!app_assoc.
  - exists q. rewrite (available_none _ Eg). cbn. by rewrite app_nil_r.
Qed.

(** A frame longer than the buffer is copied past its end. *)
Lemma recv_each_overflow mtu deliver fuel id q h q' l :
  virtqueue_get_available_buf q = Some (h, q') ->
  mtu < virtqueue_scattered_available_size q' h ->
  recv_each mtu deliver (S fuel) id q l = Fault OutOfBounds.
Proof.
  intros Eg Hm. cbn [recv_each]. rewrite Eg. cbv zeta.
  destruct (Z.ltb_spec mtu (virtqueue_scattered_available_size q' h)); [done|lia].
Qed.

End Reception.

(** * Witnesses *)

(** A virtqueue that is the list of its frames and of its used buffers. *)
#[export] Instance list_queue : VirtQueue := {|
  vq := list frame * list (list Z);
  vq_handle := frame * list Z;
  virtqueue_get_available_buf q :=
    match fst q with f :: fs => Some ((f, []), (fs, snd q)) | [] => None end;
  virtqueue_scattered_available_size q h := Z.of_nat (length (fst h));
  gather_copy_buffer q h n := Some (fst h, q);
  virtqueue_get_used_buf q :=
    match snd q with u :: us => Some (([], u), (fst q, us)) | [] => None end;
  gather_buffer q h :=
    match snd h with b :: bs => Some (b, (fst h, bs), q) | [] => None end;
  VQ_DEV_POLL q := match fst q with [] => false | _ => true end;
  VQ_DRV_POLL q := match snd q with [] => false | _ => true end |}.

#[export] Instance list_queue_laws : VirtQueueLaws list_queue.
Proof.
  refine {| vq_frames := fst : @vq list_queue -> _; vq_used := snd : @vq list_queue -> _;
            vq_rest := snd : @vq_handle list_queue -> _ |}; cbn.
  - by intros [[|] ?].
  - intros [[|f fs] us] h q' [= <- <-]. exists f. by repeat split; injection H as <- <-.
  - by intros [? [|]].
  - by intros [fs [|u us]] h q' [= <- <-].
  - by intros q [f [|]].
  - by intros q [f [|b bs]] b' h' q' [= <- <- <-].
  - by intros [[|f fs] us].
  - by intros [fs [|u us]].
Defined.

Definition demo_vnodes : list (list Z * Z) := [([2; 0; 0; 0; 0; 1], 11); ([2; 0; 0; 0; 0; 2], 12)].

#[local] Instance vswitch_demo : Vswitch := {|
  mac802_addr_eq_bcast a := bool_decide (a = replicate 6 255);
  mac802_addr_eq_ipv6_mcast a := bool_decide (take 2 a = [51; 51]);
  n_connected := 2;
  vswitch_get_destnode_index_by_macaddr a :=
    if bool_decide (a = [2; 0; 0; 0; 0; 1]) then 0
    else if bool_decide (a = [2; 0; 0; 0; 0; 2]) then 1 else -1;
  vswitch_get_destnode_by_index i := option_map snd (demo_vnodes !! Z.to_nat i);
  scatter_send_buffer l q f := 0 |}.

#[local] Instance vswitch_demo_laws : VswitchLaws vswitch_demo.
Proof.
  refine {| vs_nodes := demo_vnodes |}; cbn [n_connected vswitch_get_destnode_by_index
    vswitch_get_destnode_index_by_macaddr vswitch_demo].
  - done.
  - done.
  - intros a. repeat case_bool_decide; subst; [|intros _|by cbn]; (split; [lia|]).
    + by exists 11.
    + by exists 12.
  - intros a. repeat case_bool_decide; try lia. intros _. cbn. by intros [?|[?|[]]].
Defined.

Definition unicast : frame := [2; 0; 0; 0; 0; 2; 7; 7].
Definition broadcast : frame := replicate 6 255 ++ [1; 2].
Definition stray : frame := [2; 0; 0; 0; 0; 9; 7; 7].

Lemma stray_unreachable : ~ reachable_dest stray.
Proof. intros [H|H]; vm_compute in H; [done|by destruct H]. Qed.

Lemma vswitch_forwards_witness :
  emul_raw_tx [unicast; broadcast; stray; unicast] []
  = Ok (ETHIF_TX_COMPLETE, [SendBuffer 12 unicast; NotifyQueue 12; SendBuffer 11 broadcast; NotifyQueue 11;
            SendBuffer 12 broadcast; NotifyQueue 12]).
Proof.
  transitivity (Ok (ETHIF_TX_COMPLETE, [] ++ concat (map delivered [unicast; broadcast]))); [|reflexivity].
  apply (proj2 (vswitch_forwards [unicast; broadcast; stray; unicast] [])) with (rest := [stray; unicast]).
  - intros. cbn. lia.
  - reflexivity.
  - repeat (apply List.Forall_cons; [first [left; reflexivity | right; vm_compute; discriminate]|]).
    apply List.Forall_nil.
  - apply stray_unreachable.
Defined.

Definition demo_vq : @vq list_queue := ([unicast; replicate 200 1; broadcast], []).

Lemma vswitch_rx_in_order_witness :
  exists q' got lost,
    virtio_net_notify_vswitch_recv (fun l n => n <? 100) 3 5 demo_vq []
    = Ok (q', [] ++ map RxComplete got ++ [NotifyQueue 5]) /\
    vq_frames demo_vq = got ++ lost ++ vq_frames q' /\ (length lost <= 1)%nat /\
    (lost = [] -> vq_frames q' = []) /\
    (rx_never_fails (fun l n => n <? 100) -> got = vq_frames demo_vq).
Proof. apply (vswitch_rx_in_order (fun l n => n <? 100) 3 5 demo_vq []). cbn. lia. Defined.
