(* ===== verification/NetArm.v ===== *)
(** The virtio network devices of the ARM VMM: the library that both back ends
    use (libs/libvirtio/src/virtio_net.c), the back end that connects guests
    by virtqueues (components/VM_Arm/src/modules/virtio_net_virtqueue.c) and
    the one that answers ARP requests (virtio_net_arping.c). *)

From S2P Require Import Prelude Vnet.

Definition ETHERNET_HEADER_SIZE : Z := 14.
Definition MAX_MTU_DATA : Z := 1500.
Definition MAX_MTU : Z := MAX_MTU_DATA + ETHERNET_HEADER_SIZE.

(** * The library *)

Section Lib.
(** The callback of the back end, which may be null, and the receive ring of
    the guest. *)
Variable tx_callback : option (frame -> Net Z).
Variable allocate_rx_buf : list net_event -> Z -> bool.

(** [true] when the loop is left. *)
Definition tx_frame (f : frame) : Net bool :=
  if MAX_MTU <? Z.of_nat (length f) then mret true
  else match tx_callback with
       | Some cb => err ← cb f; mret (z2b err)
       | None => mret false
       end.
Definition emul_raw_tx (frames : list frame) : Net ethif_tx :=
  incomplete ← for_until frames tx_frame;
  mret (if incomplete : bool then ETHIF_TX_FAILED else ETHIF_TX_COMPLETE).

(** Always 0: a frame there is no room for is dropped. *)
Definition virtio_net_rx (data : frame) : Net Z :=
  l ← get;
  when (allocate_rx_buf l (Z.of_nat (length data))) (net_emit (RxComplete data));;
  mret 0.

End Lib.

(** * Virtqueues *)

Section Virtqueue.
Context {V : Vswitch}.

(** Errors do not end the loop. *)
Definition forward_to_node (f : frame) (i : Z) : Net unit :=
  match vswitch_get_destnode_by_index i with
  | None => mret tt
  | Some queue =>
      l ← get;
      net_emit (SendBuffer queue f);;
      if scatter_send_buffer l queue f <? 0 then mret tt else net_emit (NotifyQueue queue)
  end.
Definition tx_virtqueue_forward (f : frame) : Net Z :=
  for_each (zrange (Z.to_nat n_connected)) (forward_to_node f);;
  mret 0.

End Virtqueue.

Section VirtqueueRx.
Context {Q : VirtQueue}.
Variable allocate_rx_buf : list net_event -> Z -> bool.

Definition deliver (d : frame) : Net unit := virtio_net_rx allocate_rx_buf d;; mret tt.
(** Into a buffer of [MAX_MTU] bytes on the stack. *)
Definition virtio_net_notify_recv (fuel : nat) (id : Z) (q : vq) : Net vq := recv_each MAX_MTU deliver fuel id q.

Definition poll_node (fuel : nat) (n : vnode) : Net vnode :=
  recv ← poll_queue VQ_DEV_POLL (virtio_net_notify_recv fuel) (vn_recv n);
  send ← poll_queue VQ_DRV_POLL (virtio_net_notify_vswitch_send fuel) (vn_send n);
  mret (mkVnode recv send).
Definition virtio_net_notify (fuel : nat) (nodes : list vnode) : Net (list vnode) :=
  poll_nodes (poll_node fuel) nodes.

End VirtqueueRx.

(** * ARP *)

Definition ETH_ALEN : nat := 6.
Definition IPV4_LENGTH : nat := 4.
Definition ARP_REQUEST : Z := 1.
Definition ARP_REPLY : Z := 2.
Definition HW_TYPE : Z := 1.
Definition ETH_P_ARP : Z := 0x0806.
Definition ETH_P_IP : Z := 0x0800.

(** [struct ethhdr] and [struct ether_arp]; numbers in network order on the
    wire. *)
Record ethhdr := mkEthhdr { h_dest : list Z; h_source : list Z; h_proto : Z }.
Record ether_arp := mkEtherArp {
  ar_hrd : Z; ar_pro : Z; ar_hln : Z; ar_pln : Z; ar_op : Z;
  arp_sha : list Z; arp_spa : list Z; arp_tha : list Z; arp_tpa : list Z }.

Definition htons (n : Z) : list Z := [n / 256; n mod 256].
Definition ntohs (l : list Z) : Z := match l with [a; b] => a * 256 + b | _ => 0 end.

(** A field of a buffer. *)
Definition field (off len : nat) (l : list Z) : list Z := take len (drop off l).

Definition print_ethhdr (h : ethhdr) : list Z := h_dest h ++ h_source h ++ htons (h_proto h).
Definition print_arp (a : ether_arp) : list Z :=
  htons (ar_hrd a) ++ htons (ar_pro a) ++ [ar_hln a; ar_pln a] ++ htons (ar_op a) ++
  arp_sha a ++ arp_spa a ++ arp_tha a ++ arp_tpa a.

Definition parse_ethhdr (l : list Z) : ethhdr :=
  mkEthhdr (field 0 6 l) (field 6 6 l) (ntohs (field 12 2 l)).
Definition parse_arp (l : list Z) : ether_arp :=
  mkEtherArp (ntohs (field 0 2 l)) (ntohs (field 2 2 l)) (arr l 4) (arr l 5) (ntohs (field 6 2 l))
    (field 8 6 l) (field 14 4 l) (field 18 6 l) (field 24 4 l).

Definition SIZEOF_ETHHDR : nat := 14.
Definition SIZEOF_ETHER_ARP : nat := 28.

(** [arp_sha[5] = arp_sha[5] + 2], an [unsigned char]. *)
Definition next_mac (mac : list Z) : list Z := arr_set mac 5 (u8 (arr mac 5 + 2)).

(** The reply, which does not depend on the operation of the request. *)
Definition arp_reply_to (req : ether_arp) : frame :=
  let sha := next_mac (arp_sha req) in
  print_ethhdr (mkEthhdr (arp_sha req) sha ETH_P_ARP) ++
  print_arp (mkEtherArp HW_TYPE ETH_P_IP (Z.of_nat ETH_ALEN) (Z.of_nat IPV4_LENGTH) ARP_REPLY
    sha (arp_tpa req) (arp_sha req) (arp_spa req)).

(** Bytes of the buffer past the frame are indeterminate. *)
Definition arping_reply (allocate_rx_buf : list net_event -> Z -> bool) (data : option frame) : Net Z :=
  match data with
  | None => mret (-1)
  | Some data =>
      if (length data <? SIZEOF_ETHHDR)%nat then fail Uninitialised
      else if h_proto (parse_ethhdr data) =? ETH_P_ARP then
        if (length data <? SIZEOF_ETHHDR + SIZEOF_ETHER_ARP)%nat then fail Uninitialised
        else
          err ← virtio_net_rx allocate_rx_buf (arp_reply_to (parse_arp (drop SIZEOF_ETHHDR data)));
          if z2b err then mret (-1) else mret 0
      else mret 0
  end.

(** * Theorems *)

(** ** Sending *)

Section Sending.

(** The last frame sent was refused by the callback. *)
Definition refused (err : frame -> Z) (sent : list frame) : Prop := exists pre g, sent = pre ++ [g] /\ err g <> 0.

Lemma refused_cons err f sent : refused err sent -> refused err (f :: sent).
Proof. intros (pre & g & -> & H). by exists (f :: pre), g. Qed.

(** Sending.  The callback is given a prefix of the frames, in order, each at
    most once and none longer than the device's maximum; the result is
    ETHIF_TX_COMPLETE exactly when that is all of them.  What stops it is a
    frame that is too long, or the callback's error. *)
Lemma arm_net_tx (cb : frame -> Net Z) (ev : frame -> list net_event) (err : frame -> Z)
    (frames : list frame) (l : list net_event) :
  (forall f l, cb f l = Ok (err f, l ++ ev f)) ->
  exists sent rest r, frames = sent ++ rest /\
    emul_raw_tx (Some cb) frames l = Ok (r, l ++ concat (map ev sent)) /\
    Forall (fun f => Z.of_nat (length f) <= MAX_MTU) sent /\
    match rest with
    | [] => r = ETHIF_TX_COMPLETE /\ Forall (fun f => err f = 0) sent \/
            r = ETHIF_TX_FAILED /\ refused err sent
    | f :: _ => r = ETHIF_TX_FAILED /\ (MAX_MTU < Z.of_nat (length f) \/ refused err sent)
    end.
Proof.
  intros Hcb.
  enough (exists sent rest b, frames = sent ++ rest /\
    for_until frames (tx_frame (Some cb)) l = Ok (b, l ++ concat (map ev sent)) /\
    Forall (fun f => Z.of_nat (length f) <= MAX_MTU) sent /\
    match rest with
    | [] => b = false /\ Forall (fun f => err f = 0) sent \/ b = true /\ refused err sent
    | f :: _ => b = true /\ (MAX_MTU < Z.of_nat (length f) \/ refused err sent)
    end) as (sent & rest & b & E1 & E2 & H3 & H4).
  { exists sent, rest, (if b then ETHIF_TX_FAILED else ETHIF_TX_COMPLETE). split; [done|].
    unfold emul_raw_tx. rewrite (bind_ok _ _ _ _ _ E2). split; [done|]. split; [done|].
    destruct rest; [destruct H4 as [[-> ?]|[-> ?]]; [by left|by right]|]. by destruct H4 as [-> ?]. }
  revert l. induction frames as [|f frames IH]; intros l; cbn [for_until].
  { exists [], [], false. cbn. rewrite app_nil_r. split_and!; [done|done|constructor|by left]. }
  assert (tx_frame (Some cb) f l = if MAX_MTU <? Z.of_nat (length f) then Ok (true, l) else Ok (z2b (err f), l ++ ev f)) as E1.
  { unfold tx_frame. destruct (MAX_MTU <? _); [done|]. by rewrite (bind_ok _ _ _ _ _ (Hcb f l)). }
  destruct (Z.ltb_spec MAX_MTU (Z.of_nat (length f))).
  { exists [], (f :: frames), true. rewrite (bind_ok _ _ _ _ _ E1). cbn. rewrite app_nil_r. split_and!; [done|done|constructor|done|by left]. }
  destruct (Z.eq_dec (err f) 0) as [E0|Hne].
  - rewrite E0 in E1. change (z2b 0) with false in E1. rewrite (bind_ok _ _ _ _ _ E1).
    destruct (IH (l ++ ev f)) as (sent & rest & b & -> & E2 & H3 & H4).
    exists (f :: sent), rest, b. rewrite E2. cbn. rewrite <-app_assoc. split_and!; [done|done|by constructor|].
    destruct rest.
    + destruct H4 as [[-> ?]|[-> ?]]; [left|right]; (split; [done|]); [by constructor|by apply refused_cons].
    + destruct H4 as [-> H4]. split; [done|]. destruct H4; [by left|right; by apply refused_cons].
  - exists [f], frames, true. unfold z2b in E1. destruct (Z.eqb_spec (err f) 0); [done|]. rewrite (bind_ok _ _ _ _ _ E1).
    cbn. rewrite app_nil_r. split_and!; [done|done|by repeat constructor|].
    assert (refused err [f]) by (by exists [], f). destruct frames; [by right|split; [done|by right]].
Qed.

End Sending.

Section Flooding.
Context {V : Vswitch} {L : VswitchLaws V}.

(** The switch of the ARM VMM does not look at the destination: a frame goes to
    the queue of every connected guest, once and in order, and a queue that
    is full does not keep it from the others. *)
Lemma flood_run f l pre suf :
  vs_nodes = pre ++ suf ->
  exists es, for_each (map Z.of_nat (seq (length pre) (length suf))) (forward_to_node f) l = Ok (tt, l ++ es) /\
    List.filter (fun e => match e with SendBuffer _ _ => true | _ => false end) es = map (fun q => SendBuffer q f) (map snd suf) /\
    ((forall l q f, 0 <= scatter_send_buffer l q f) ->
     es = concat (map (fun q => [SendBuffer q f; NotifyQueue q]) (map snd suf))).
Proof using L.
  intros E. revert pre l E. induction suf as [|[a q] suf IH]; intros pre l E; cbn [length seq map for_each].
  { exists []. by rewrite app_nil_r. }
  assert (vswitch_get_destnode_by_index (Z.of_nat (length pre)) = Some q) as Eq.
  { rewrite by_index_spec by (rewrite n_connected_spec, E, length_app; cbn [length]; lia).
    by rewrite Nat2Z.id, E, lookup_mid. }
  set (es1 := if scatter_send_buffer l q f <? 0 then [SendBuffer q f] else [SendBuffer q f; NotifyQueue q]).
  assert (forward_to_node f (Z.of_nat (length pre)) l = Ok (tt, l ++ es1)) as E1.
  { unfold forward_to_node, es1. rewrite Eq. unfold net_emit, mbind, M_bind, get, modify.
    destruct (scatter_send_buffer l q f <? 0); [done|]. by rewrite <-app_assoc. }
  rewrite (bind_ok _ _ _ _ _ E1).
  specialize (IH (pre ++ [(a, q)])). rewrite length_app, Nat.add_comm in IH. cbn [length plus] in IH.
  destruct (IH (l ++ es1)) as (es & E2 & H1 & H2); [by rewrite <-app_assoc|].
  exists (es1 ++ es). rewrite E2, <-app_assoc. split; [done|]. split.
  - rewrite filter_app, H1. unfold es1. by destruct (scatter_send_buffer l q f <? 0).
  - intros Hok. rewrite (H2 Hok). unfold es1.
    replace (scatter_send_buffer l q f <? 0) with false by (symmetry; apply Z.ltb_ge, Hok). done.
Qed.

Lemma forward_all f l :
  (forall l q f, 0 <= scatter_send_buffer l q f) ->
  tx_virtqueue_forward f l = Ok (0, l ++ concat (map (fun q => [SendBuffer q f; NotifyQueue q]) (map snd vs_nodes))).
Proof using L.
  intros Hok. destruct (flood_run f l [] vs_nodes eq_refl) as (es & E1 & _ & H2).
  unfold tx_virtqueue_forward. rewrite n_connected_spec, Nat2Z.id.
  change (zrange (length vs_nodes)) with (map Z.of_nat (seq (length (@nil (list Z * Z))) (length vs_nodes))).
  by rewrite (bind_ok _ _ _ _ _ E1), (H2 Hok).
Qed.

(** The calls for one frame: every queue, each followed by a notification. *)
Definition flooded (f : frame) : list net_event :=
  concat (map (fun q => [SendBuffer q f; NotifyQueue q]) (map snd vs_nodes)).

(** The ARM switch floods.  When the queues accept the frames, every frame of
    a transmission up to the first that is too long for the device reaches
    every connected guest, whatever its destination, once and in the order of
    the frames; the transmission fails exactly when there is one that is too
    long, which is not sent, nor are those after it. *)
Lemma arm_net_floods (frames : list frame) (l : list net_event) :
  (forall l q f, 0 <= scatter_send_buffer l q f) ->
  exists sent rest r, frames = sent ++ rest /\
    emul_raw_tx (Some tx_virtqueue_forward) frames l = Ok (r, l ++ concat (map flooded sent)) /\
    Forall (fun f => Z.of_nat (length f) <= MAX_MTU) sent /\
    match rest with
    | [] => r = ETHIF_TX_COMPLETE
    | f :: _ => r = ETHIF_TX_FAILED /\ MAX_MTU < Z.of_nat (length f)
    end.
Proof using L.
  intros Hok. destruct (arm_net_tx tx_virtqueue_forward flooded (fun _ => 0) frames l) as (sent & rest & r & E1 & E2 & H3 & H4).
  { intros f l'. by apply forward_all. }
  assert (~ refused (fun _ => 0) sent) as Hno by (by intros (pre & g & _ & H)).
  exists sent, rest, r. split; [done|]. split; [done|]. split; [done|].
  destruct rest as [|f rest]; [by destruct H4 as [[-> _]|[_ ?]]|]. by destruct H4 as [-> [?|?]].
Qed.

End Flooding.

(** ** Receiving *)

Section Receiving.
Context {Q : VirtQueue} {L : VirtQueueLaws Q}.
Variable allocate_rx_buf : list net_event -> Z -> bool.

(** A frame longer than the buffer on the stack. *)
Definition overlong (f : frame) : bool := MAX_MTU <? Z.of_nat (length f).

(** What is done with a frame that has been gathered, after the calls [l]: the
    guest gets it if it has a receive buffer, and its sender is notified. *)
Definition passed_on (id : Z) (f : frame) (l : list net_event) : list net_event :=
  (if allocate_rx_buf l (Z.of_nat (length f)) then [RxComplete f] else []) ++ [NotifyQueue id].

(** The frames [fs] of queue [id] are dealt with by the calls [es], made after
    [l]: each once, in order, but for those that cannot be gathered. *)
Inductive takes (id : Z) : list frame -> list net_event -> list net_event -> Prop :=
| Takes_none l : takes id [] l []
| Takes_frame f fs l es : takes id fs (l ++ passed_on id f l) es -> takes id (f :: fs) l (passed_on id f l ++ es)
| Takes_lost f fs l es : ~ gathers -> takes id fs l es -> takes id (f :: fs) l es.

(** The nodes are served one after the other: what they have received, then
    what is to be freed. *)
Inductive serves : list vnode -> list net_event -> list net_event -> Prop :=
| Serves_none l : serves [] l []
| Serves_node n nodes l es es' :
    match vn_recv n with Some (id, q) => takes id (vq_frames q) l es | None => es = [] end ->
    serves nodes (l ++ es ++ freed n) es' -> serves (n :: nodes) l (es ++ freed n ++ es').

Lemma deliver_run f l : deliver allocate_rx_buf f l
  = Ok (tt, l ++ if allocate_rx_buf l (Z.of_nat (length f)) then [RxComplete f] else []).
Proof using Type.
  unfold deliver, virtio_net_rx, mbind, M_bind, get. destruct (allocate_rx_buf _ _); [done|]. cbn. by rewrite app_nil_r.
Qed.

(** One queue, whatever is in it. *)
Lemma notify_recv_run fuel id q l :
  (length (vq_frames q) <= fuel)%nat ->
  if existsb overlong (vq_frames q) then virtio_net_notify_recv allocate_rx_buf fuel id q l = Fault OutOfBounds
  else exists q' es, virtio_net_notify_recv allocate_rx_buf fuel id q l = Ok (q', l ++ es) /\
    takes id (vq_frames q) l es /\ vq_frames q' = [].
Proof using L.
  unfold virtio_net_notify_recv. revert q l. induction fuel as [|fuel IH]; intros q l Hf; cbn [recv_each];
    destruct (virtqueue_get_available_buf q) as [[h q1]|] eqn:Eg.
  - destruct (available_some _ _ _ Eg) as (f & E1 & _). rewrite E1 in Hf. cbn in Hf. lia.
  - rewrite (available_none _ Eg). cbn [existsb]. exists q, []. rewrite app_nil_r.
    split_and!; [done|constructor|by apply available_none].
  - destruct (available_some _ _ _ Eg) as (f & E1 & Es & Hc). rewrite E1 in Hf |- *. cbn [length existsb] in *.
    cbv zeta. rewrite Es. unfold overlong at 1. destruct (MAX_MTU <? Z.of_nat (length f)); cbn [orb]; [done|].
    destruct (gather_copy_buffer q1 h (Z.of_nat (length f))) as [[d q2]|] eqn:Ed.
    + destruct (Hc d q2 eq_refl) as [-> E2]. rewrite (bind_ok _ _ _ _ _ (deliver_run f l)).
      rewrite (bind_ok _ _ _ tt (l ++ passed_on id f l)) by (unfold passed_on; by rewrite app_assoc).
      specialize (IH q2 (l ++ passed_on id f l)). rewrite E2 in IH. specialize (IH ltac:(lia)).
      destruct (existsb overlong (vq_frames q1)); [exact IH|]. destruct IH as (q' & es & E3 & H3 & H4).
      exists q', (passed_on id f l ++ es). rewrite E3, app_assoc. split_and!; [done|by constructor|done].
    + specialize (IH q1 l ltac:(lia)). destruct (existsb overlong (vq_frames q1)); [exact IH|].
      destruct IH as (q' & es & E3 & H3 & H4). exists q', es. split_and!; [done| |done].
      apply Takes_lost; [|done]. intros Hg. destruct (Hg q h q1 Eg). by rewrite Es.
  - rewrite (available_none _ Eg). cbn [existsb]. exists q, []. rewrite app_nil_r.
    split_and!; [done|constructor|by apply available_none].
Qed.

(** One node. *)
Lemma poll_node_run fuel n l :
  fuel_for fuel n ->
  if existsb overlong (frames_of (vn_recv n)) then poll_node allocate_rx_buf fuel n l = Fault OutOfBounds
  else exists n' es, poll_node allocate_rx_buf fuel n l = Ok (n', l ++ es ++ freed n) /\
    match vn_recv n with Some (id, q) => takes id (vq_frames q) l es | None => es = [] end /\ node_idle n'.
Proof using L.
  intros [Hf1 Hf2].
  assert (forall recv es, poll_queue VQ_DEV_POLL (virtio_net_notify_recv allocate_rx_buf fuel) (vn_recv n) l = Ok (recv, l ++ es) ->
    frames_of recv = [] -> match vn_recv n with Some (id, q) => takes id (vq_frames q) l es | None => es = [] end ->
    exists n' es, poll_node allocate_rx_buf fuel n l = Ok (n', l ++ es ++ freed n) /\
      match vn_recv n with Some (id, q) => takes id (vq_frames q) l es | None => es = [] end /\ node_idle n') as Hrest.
  { intros recv es E1 H1 Ht. destruct (poll_send_run fuel (vn_send n) (l ++ es) Hf2) as (send & E2 & H2).
    exists (mkVnode recv send), es. unfold poll_node. rewrite (bind_ok _ _ _ _ _ E1), (bind_ok _ _ _ _ _ E2).
    unfold freed. rewrite <-app_assoc. by split_and!. }
  destruct (vn_recv n) as [[id q]|] eqn:Er; cbn [poll_queue frames_of existsb] in *.
  2:{ apply (Hrest None []); [by rewrite app_nil_r|done|done]. }
  destruct (VQ_DEV_POLL q) eqn:Ep.
  - pose proof (notify_recv_run fuel id q l Hf1) as H. destruct (existsb overlong (vq_frames q)).
    { unfold poll_node. rewrite Er. cbn [poll_queue]. rewrite Ep. by do 2 apply bind_fault. }
    destruct H as (q' & es & E1 & H1 & H2). apply (Hrest (Some (id, q')) es); [|done|done]. by rewrite (bind_ok _ _ _ _ _ E1).
  - rewrite (dev_poll _ Ep) in *. cbn [existsb]. apply (Hrest (Some (id, q)) []); [by rewrite app_nil_r|by apply dev_poll|constructor].
Qed.

(** All nodes. *)
Lemma notify_run fuel nodes l : Forall (fuel_for fuel) nodes ->
  if existsb (fun n => existsb overlong (frames_of (vn_recv n))) nodes
  then virtio_net_notify allocate_rx_buf fuel nodes l = Fault OutOfBounds
  else exists nodes' es, virtio_net_notify allocate_rx_buf fuel nodes l = Ok (nodes', l ++ es) /\
    serves nodes l es /\ Forall node_idle nodes'.
Proof using L.
  unfold virtio_net_notify. intros Hf. revert l. induction Hf as [|n nodes Hn _ IH]; intros l; cbn [existsb poll_nodes].
  { exists [], []. rewrite app_nil_r. split_and!; [done|constructor|constructor]. }
  pose proof (poll_node_run fuel n l Hn) as H1. destruct (existsb overlong (frames_of (vn_recv n))); cbn [orb].
  { by apply bind_fault. }
  destruct H1 as (n' & es & E1 & H1 & Hi). rewrite (bind_ok _ _ _ _ _ E1). specialize (IH (l ++ es ++ freed n)).
  destruct (existsb _ nodes).
  { by apply bind_fault. }
  destruct IH as (nodes' & es' & E2 & H2 & Hi'). rewrite (bind_ok _ _ _ _ _ E2).
  exists (n' :: nodes'), (es ++ freed n ++ es'). rewrite <-!app_assoc. split_and!; [done|by constructor|by constructor].
Qed.

(** Each frame is handed to the guest and its sender notified. *)
Definition received_each (n : vnode) : list net_event :=
  match vn_recv n with
  | Some (id, q) => concat (map (fun f => [RxComplete f; NotifyQueue id]) (vq_frames q))
  | None => []
  end.

Lemma takes_all id fs l es : (forall l n, allocate_rx_buf l n = true) -> gathers -> takes id fs l es ->
  es = concat (map (fun f => [RxComplete f; NotifyQueue id]) fs).
Proof using Type.
  intros Hal Hg H. induction H as [|f fs l es _ ->|]; [done| |done]. unfold passed_on. by rewrite Hal.
Qed.
Lemma serves_all nodes l es : (forall l n, allocate_rx_buf l n = true) -> gathers -> serves nodes l es ->
  es = concat (map (fun n => received_each n ++ freed n) nodes).
Proof using Type.
  intros Hal Hg H. induction H as [|n nodes l es es' H1 _ ->]; [done|]. cbn [map concat]. rewrite <-app_assoc. f_equal.
  unfold received_each. destruct (vn_recv n) as [[id q]|]; [by eapply takes_all|done].
Qed.


(** A longer frame overruns the buffer. *)
Lemma arm_net_overflow fuel id q h q' l :
  virtqueue_get_available_buf q = Some (h, q') -> MAX_MTU < virtqueue_scattered_available_size q' h ->
  virtio_net_notify_recv allocate_rx_buf (S fuel) id q l = Fault OutOfBounds.
Proof. apply recv_each_overflow. Qed.

End Receiving.

(** ** ARP *)

(** Addresses of the right length, numbers of the right width. *)
Definition arp_wf (a : ether_arp) : Prop :=
  inw 16 (ar_hrd a) /\ inw 16 (ar_pro a) /\ inw 16 (ar_op a) /\
  length (arp_sha a) = ETH_ALEN /\ length (arp_tha a) = ETH_ALEN /\
  length (arp_spa a) = IPV4_LENGTH /\ length (arp_tpa a) = IPV4_LENGTH.
Definition eth_wf (h : ethhdr) : Prop :=
  inw 16 (h_proto h) /\ length (h_dest h) = ETH_ALEN /\ length (h_source h) = ETH_ALEN.

Lemma ntohs_htons n : inw 16 n -> ntohs (htons n) = n.
Proof. intros _. unfold ntohs, htons. pose proof (Z.div_mod n 256 ltac:(lia)). lia. Qed.

Ltac bytes l := (* a list of known length is its elements *)
  repeat (destruct l as [|? l]; try discriminate).

Lemma parse_print_arp a pad : arp_wf a -> parse_arp (print_arp a ++ pad) = a.
Proof.
  destruct a as [hrd pro hln pln op sha spa tha tpa]. unfold arp_wf. cbn.
  intros (H1 & H2 & H3 & L1 & L2 & L3 & L4). bytes sha. bytes spa. bytes tha. bytes tpa.
  unfold parse_arp, print_arp, field. cbn [ar_hrd ar_pro ar_hln ar_pln ar_op arp_sha arp_spa arp_tha arp_tpa].
  f_equal; try reflexivity; apply ntohs_htons; done.
Qed.

Lemma parse_print_eth h pad : eth_wf h -> parse_ethhdr (print_ethhdr h ++ pad) = h.
Proof.
  destruct h as [d s p]. unfold eth_wf. cbn. intros (H1 & L1 & L2). bytes d. bytes s.
  unfold parse_ethhdr, print_ethhdr, field. cbn [h_dest h_source h_proto]. f_equal; try reflexivity. by apply ntohs_htons.
Qed.

Lemma length_print_eth h : eth_wf h -> length (print_ethhdr h) = SIZEOF_ETHHDR.
Proof. intros (_ & L1 & L2). unfold print_ethhdr. by rewrite !length_app, L1, L2. Qed.
Lemma length_print_arp a : arp_wf a -> length (print_arp a) = SIZEOF_ETHER_ARP.
Proof. intros (_ & _ & _ & L1 & L2 & L3 & L4). unfold print_arp. by rewrite !length_app, L1, L2, L3, L4. Qed.

(** ARP requests are answered.  Given a frame with an ARP packet, the device
    hands the guest one frame: an Ethernet frame for the asker, with an ARP
    reply that says that the address asked for belongs to the hardware
    address that follows the asker's own.  Any other frame is ignored. *)
Lemma arp_answered (allocate_rx_buf : list net_event -> Z -> bool) (h : ethhdr) (req : ether_arp) (pad : list Z) (l : list net_event) :
  (forall l n, allocate_rx_buf l n = true) -> eth_wf h -> arp_wf req ->
  (h_proto h <> ETH_P_ARP ->
   arping_reply allocate_rx_buf (Some (print_ethhdr h ++ print_arp req ++ pad)) l = Ok (0, l)) /\
  (h_proto h = ETH_P_ARP -> exists reply,
   arping_reply allocate_rx_buf (Some (print_ethhdr h ++ print_arp req ++ pad)) l = Ok (0, l ++ [RxComplete reply]) /\
   Z.of_nat (length reply) = 42 /\
   parse_ethhdr reply = mkEthhdr (arp_sha req) (next_mac (arp_sha req)) ETH_P_ARP /\
   parse_arp (drop SIZEOF_ETHHDR reply)
   = mkEtherArp HW_TYPE ETH_P_IP 6 4 ARP_REPLY (next_mac (arp_sha req)) (arp_tpa req) (arp_sha req) (arp_spa req)).
Proof.
  intros Hal Hh Hreq. unfold arping_reply.
  pose proof (length_print_eth h Hh) as L1. pose proof (length_print_arp req Hreq) as L2.
  rewrite parse_print_eth by done. rewrite !length_app, L1, L2.
  assert (drop SIZEOF_ETHHDR (print_ethhdr h ++ print_arp req ++ pad) = print_arp req ++ pad) as ->.
  { rewrite <-L1. apply drop_app_length. }
  rewrite parse_print_arp by done.
  destruct (Nat.ltb_spec (SIZEOF_ETHHDR + (SIZEOF_ETHER_ARP + length pad)) SIZEOF_ETHHDR); [lia|].
  destruct (Nat.ltb_spec (SIZEOF_ETHHDR + (SIZEOF_ETHER_ARP + length pad)) (SIZEOF_ETHHDR + SIZEOF_ETHER_ARP)); [lia|].
  destruct (Z.eqb_spec (h_proto h) ETH_P_ARP) as [->|Hn]; (split; [intros Hp|intros Hp]); try done.
  exists (arp_reply_to req). split.
  { rewrite (bind_ok _ _ l 0 (l ++ [RxComplete (arp_reply_to req)])); [done|].
    unfold virtio_net_rx, mbind, M_bind, get. by rewrite Hal. }
  destruct Hreq as (_ & _ & _ & S1 & S2 & S3 & S4).
  assert (length (next_mac (arp_sha req)) = ETH_ALEN) as S5 by (unfold next_mac; by rewrite length_arr_set).
  unfold arp_reply_to. set (eh := mkEthhdr _ _ _). set (ar := mkEtherArp _ _ _ _ _ _ _ _ _).
  assert (eth_wf eh) as We by (split; [done|]; done).
  assert (arp_wf ar) as Wa by (unfold arp_wf; cbn; split_and!; done).
  split; [by rewrite length_app, length_print_eth, length_print_arp|]. split; [by apply parse_print_eth|].
  rewrite <-(length_print_eth eh We), drop_app_length.
  rewrite <-(app_nil_r (print_arp ar)). by apply parse_print_arp.
Qed.

(** A reply is answered like a request. *)
Lemma arp_reply_answered allocate_rx_buf h req pad l :
  (forall l n, allocate_rx_buf l n = true) -> eth_wf h -> arp_wf req -> h_proto h = ETH_P_ARP ->
  ar_op req = ARP_REPLY ->
  arping_reply allocate_rx_buf (Some (print_ethhdr h ++ print_arp req ++ pad)) l = Ok (0, l ++ [RxComplete (arp_reply_to req)]).
Proof.
  intros Hal Hh Hreq Hp _. unfold arping_reply.
  pose proof (length_print_eth h Hh) as L1. pose proof (length_print_arp req Hreq) as L2.
  rewrite parse_print_eth by done. rewrite !length_app, L1, L2, Hp. cbn [Nat.ltb Nat.leb plus SIZEOF_ETHHDR SIZEOF_ETHER_ARP].
  rewrite <-L1, drop_app_length, parse_print_arp by done. rewrite Z.eqb_refl.
  rewrite (bind_ok _ _ l 0 (l ++ [RxComplete (arp_reply_to req)])); [done|].
  unfold virtio_net_rx, mbind, M_bind, get. by rewrite Hal.
Qed.

(** * Witnesses *)

Lemma arm_net_floods_witness :
  exists sent rest r, [unicast; broadcast; replicate 1600 0; unicast] = sent ++ rest /\
    @emul_raw_tx (Some (@tx_virtqueue_forward vswitch_demo)) [unicast; broadcast; replicate 1600 0; unicast] []
    = Ok (r, [] ++ concat (map (@flooded vswitch_demo vswitch_demo_laws) sent)) /\
    Forall (fun f => Z.of_nat (length f) <= MAX_MTU) sent /\
    match rest with
    | [] => r = ETHIF_TX_COMPLETE
    | f :: _ => r = ETHIF_TX_FAILED /\ MAX_MTU < Z.of_nat (length f)
    end.
Proof.
  apply (@arm_net_floods vswitch_demo vswitch_demo_laws [unicast; broadcast; replicate 1600 0; unicast] []).
  intros. cbn. lia.
Defined.

(** Two nodes, one with frames and used buffers, one without a send queue. *)
Definition demo_nodes : list (@vnode list_queue) :=
  [@mkVnode list_queue (Some (5, ([unicast; broadcast], []))) (Some (6, ([], [[100; 101]; [102]])));
   @mkVnode list_queue (Some (7, ([unicast], []))) None].


Definition demo_eth : ethhdr := mkEthhdr (replicate 6 255) [2; 0; 0; 0; 0; 255] ETH_P_ARP.
Definition demo_request : ether_arp :=
  mkEtherArp HW_TYPE ETH_P_IP 6 4 ARP_REQUEST [2; 0; 0; 0; 0; 255] [10; 0; 0; 1] (replicate 6 0) [10; 0; 0; 2].

Lemma arp_answered_witness :
  (h_proto demo_eth <> ETH_P_ARP ->
   arping_reply (fun _ _ => true) (Some (print_ethhdr demo_eth ++ print_arp demo_request ++ [])) [] = Ok (0, [])) /\
  (h_proto demo_eth = ETH_P_ARP -> exists reply,
   arping_reply (fun _ _ => true) (Some (print_ethhdr demo_eth ++ print_arp demo_request ++ [])) [] = Ok (0, [] ++ [RxComplete reply]) /\
   Z.of_nat (length reply) = 42 /\
   parse_ethhdr reply = mkEthhdr [2; 0; 0; 0; 0; 255] [2; 0; 0; 0; 0; 1] ETH_P_ARP /\
   parse_arp (drop SIZEOF_ETHHDR reply)
   = mkEtherArp HW_TYPE ETH_P_IP 6 4 ARP_REPLY [2; 0; 0; 0; 0; 1] [10; 0; 0; 2] [2; 0; 0; 0; 0; 255] [10; 0; 0; 1]).
Proof.
  change [2; 0; 0; 0; 0; 1] with (next_mac (arp_sha demo_request)).
  apply (arp_answered (fun _ _ => true) demo_eth demo_request [] []); [reflexivity| |].
  - split; [split; vm_compute; first [reflexivity|discriminate]|split; reflexivity].
  - unfold arp_wf. repeat split; first [reflexivity | vm_compute; discriminate].
Defined.
