(* ===== verification/Vsock.v ===== *)
(** The vsock back end of the x86 VMM (components/Init/src/virtio_vsock.c):
    guests exchange stream data over pairs of virtqueues, addressed by
    context id.  The virtqueue operations and the loops that free buffers and
    receive are those of Vnet. *)

From S2P Require Import Prelude Vnet.

(** * State *)

(** [socket_layout], generated from the configuration. *)
Record socket_mapping := mkSocket { sl_cid : Z; sl_send_id : Z; sl_recv_id : Z }.

Section Vsock.
Context {Q : VirtQueue}.

(** [conn_t]; queues are named by their id, [None] is the null pointer of the
    zeroed array. *)
Record conn := mkConn { cid : Z; send_queue : option (Z * vq); recv_queue : option (Z * vq) }.
Definition conn_bss : conn := mkConn 0 None None.

(** Memory for a port's queues, and the queues of the configuration, which may
    fail to initialise. *)
Variable calloc_ok : Z -> bool.
Variable camkes_virtqueue_driver_init : Z -> option vq.
Variable camkes_virtqueue_device_init : Z -> option vq.
Variable VIRTIO_VSOCK_CAMKES_MTU : Z.

(** * Set-up *)

(** One port; [None] is the return from the function. *)
Definition make_port (i : Z) (m : socket_mapping) : option conn :=
  if negb (calloc_ok (2 * i)) then None
  else if negb (calloc_ok (2 * i + 1)) then None
  else match camkes_virtqueue_driver_init (sl_send_id m) with
       | None => None
       | Some vq_send =>
           match camkes_virtqueue_device_init (sl_recv_id m) with
           | None => None
           | Some vq_recv => Some (mkConn (sl_cid m) (Some (sl_send_id m, vq_send)) (Some (sl_recv_id m, vq_recv)))
           end
       end.

(** The rest of the array keeps its zeros. *)
Fixpoint make_virtio_vsock_virtqueues (i : Z) (layout : list socket_mapping) : list conn :=
  match layout with
  | [] => []
  | m :: rest =>
      match make_port i m with
      | None => replicate (length layout) conn_bss
      | Some c => c :: make_virtio_vsock_virtqueues (i + 1) rest
      end
  end.

(** * Sending *)

(** The error of the queue is not looked at. *)
Fixpoint tx_forward (connections : list conn) (dest : Z) (buffer : frame) : Net unit :=
  match connections with
  | [] => mret tt
  | c :: rest =>
      if cid c =? dest then
        match send_queue c with
        | None => fail NullDeref
        | Some (id, _) =>
            net_emit (SendBuffer id buffer);;
            net_emit (NotifyQueue id)
        end
      else tx_forward rest dest buffer
  end.

(** * Receiving *)

Definition rx_complete (d : frame) : Net unit := net_emit (RxComplete d).
Definition virtio_vsock_notify_recv (fuel : nat) (id : Z) (q : vq) : Net vq :=
  recv_each VIRTIO_VSOCK_CAMKES_MTU rx_complete fuel id q.

Definition serve_conn (fuel : nat) (c : conn) : Net conn :=
  recv ← poll_queue VQ_DEV_POLL (virtio_vsock_notify_recv fuel) (recv_queue c);
  send ← poll_queue VQ_DRV_POLL (virtio_net_notify_vswitch_send fuel) (send_queue c);
  mret (mkConn (cid c) send recv).
Fixpoint handle_vsock_irq (fuel : nat) (connections : list conn) : Net (list conn) :=
  match connections with
  | [] => mret []
  | c :: cs => c ← serve_conn fuel c; cs ← handle_vsock_irq fuel cs; mret (c :: cs)
  end.

(** * Theorems *)

Context {L : VirtQueueLaws Q}.

(** The connections of a layout whose ports all come up. *)
Definition connected (m : socket_mapping) (c : conn) : Prop :=
  cid c = sl_cid m /\ (exists q, send_queue c = Some (sl_send_id m, q)) /\ (exists q, recv_queue c = Some (sl_recv_id m, q)).

(** Set-up connects the ports of the layout in order, up to the first that
    fails. *)
Lemma make_queues_run i layout :
  exists up down, layout = up ++ down /\
    exists cs, make_virtio_vsock_virtqueues i layout = cs ++ replicate (length down) conn_bss /\
      Forall2 connected up cs /\
      match down with
      | [] => True
      | m :: _ => make_port (i + Z.of_nat (length up)) m = None
      end.
Proof.
  revert i. induction layout as [|m rest IH]; intros i; cbn [make_virtio_vsock_virtqueues].
  { exists [], []. split; [done|]. exists []. split_and!; [done|constructor|done]. }
  destruct (make_port i m) as [c|] eqn:Em.
  - destruct (IH (i + 1)) as (up & down & -> & cs & E1 & H2 & H3). exists (m :: up), down. split; [done|].
    exists (c :: cs). rewrite E1. split; [done|]. split.
    + constructor; [|done]. unfold make_port in Em.
      destruct (negb (calloc_ok (2 * i))); [done|]. destruct (negb (calloc_ok (2 * i + 1))); [done|].
      destruct (camkes_virtqueue_driver_init (sl_send_id m)); [|done].
      destruct (camkes_virtqueue_device_init (sl_recv_id m)); [|done]. injection Em as <-. by split_and!; [|eexists..].
    + destruct down; [done|]. cbn [length]. by replace (i + Z.of_nat (S (length up))) with (i + 1 + Z.of_nat (length up)) by lia.
  - exists [], (m :: rest). split; [done|]. exists []. split_and!; [done|constructor|cbn; by rewrite Z.add_0_r].
Qed.

Lemma tx_forward_run up cs rest dest buffer l :
  Forall2 connected up cs ->
  tx_forward (cs ++ rest) dest buffer l
  = match find (fun m => sl_cid m =? dest) up with
    | Some m => Ok (tt, l ++ [SendBuffer (sl_send_id m) buffer; NotifyQueue (sl_send_id m)])
    | None => tx_forward rest dest buffer l
    end.
Proof.
  induction 1 as [|m c up cs (Hc & (q & Hq) & _) _ IH]; cbn [app tx_forward find]; [done|].
  rewrite Hc. destruct (sl_cid m =? dest); [|done]. rewrite Hq.
  rewrite (bind_ok _ _ l tt (l ++ [SendBuffer (sl_send_id m) buffer])) by done.
  unfold net_emit, modify. by rewrite <-app_assoc.
Qed.

Lemma tx_forward_unconnected n dest buffer l :
  tx_forward (replicate n conn_bss) dest buffer l
  = if (dest =? 0) && negb (Nat.eqb n 0) then Fault NullDeref else Ok (tt, l).
Proof.
  induction n as [|n IH]; cbn [replicate tx_forward]; [by rewrite andb_false_r|]. change (cid conn_bss) with 0.
  change (send_queue conn_bss) with (@None (Z * vq)). destruct (Z.eqb_spec 0 dest) as [<-|Hn]; [done|].
  rewrite IH. by destruct (Z.eqb_spec dest 0).
Qed.

(** Sending over vsock.  After set-up, which connects the ports in order up to
    the first that fails, data for a context id is put on the send queue of
    the first connected port with that id, once, and its peer is notified;
    data for any other id is dropped, except that when a port is not connected,
    id 0 finds its zeroed entry and the null queue. *)
Lemma vsock_send (layout : list socket_mapping) (dest : Z) (buffer : frame) (l : list net_event) :
  exists up down, layout = up ++ down /\
    match down with [] => True | m :: _ => make_port (Z.of_nat (length up)) m = None end /\
    tx_forward (make_virtio_vsock_virtqueues 0 layout) dest buffer l
    = match find (fun m => sl_cid m =? dest) up with
      | Some m => Ok (tt, l ++ [SendBuffer (sl_send_id m) buffer; NotifyQueue (sl_send_id m)])
      | None => if (dest =? 0) && negb (Nat.eqb (length down) 0) then Fault NullDeref else Ok (tt, l)
      end.
Proof.
  destruct (make_queues_run 0 layout) as (up & down & -> & cs & E1 & H2 & H3).
  exists up, down. split; [done|]. split; [done|]. rewrite E1, (tx_forward_run up cs) by done.
  by rewrite tx_forward_unconnected.
Qed.

Definition conn_idle (c : conn) : Prop := frames_of (recv_queue c) = [] /\ used_of (send_queue c) = [].
(** The data fits the temporary buffer, and the fuel is enough. *)
Definition conn_fits (fuel : nat) (c : conn) : Prop :=
  Forall (fun f => Z.of_nat (length f) <= VIRTIO_VSOCK_CAMKES_MTU) (frames_of (recv_queue c)) /\
  fuel_for fuel (mkVnode (recv_queue c) (send_queue c)).
Definition conn_calls (c : conn) : list net_event :=
  match recv_queue c with
  | Some (id, q) => concat (map (fun f => [RxComplete f; NotifyQueue id]) (vq_frames q))
  | None => []
  end ++ freed (mkVnode (recv_queue c) (send_queue c)).

Lemma serve_conn_run fuel c l :
  gathers -> conn_fits fuel c ->
  exists c', serve_conn fuel c l = Ok (c', l ++ conn_calls c) /\ conn_idle c' /\ cid c' = cid c.
Proof using L.
  intros Hg [Hm [Hf1 Hf2]]. cbn [vn_recv vn_send] in *. unfold serve_conn, conn_calls, freed, conn_idle. cbn [vn_recv vn_send].
  set (rx := match recv_queue c with Some (id, q) => concat (map (fun f => [RxComplete f; NotifyQueue id]) (vq_frames q)) | None => [] end).
  assert (exists recv, poll_queue VQ_DEV_POLL (virtio_vsock_notify_recv fuel) (recv_queue c) l = Ok (recv, l ++ rx) /\
    frames_of recv = []) as (recv & E1 & H1).
  { unfold rx. destruct (recv_queue c) as [[id q]|]; cbn [poll_queue frames_of] in *; [|exists None; cbn; by rewrite app_nil_r].
    destruct (VQ_DEV_POLL q) eqn:Ep.
    - destruct (recv_each_run VIRTIO_VSOCK_CAMKES_MTU rx_complete (fun f => [RxComplete f]) fuel id q l) as (q' & E1 & E2); [done..|].
      exists (Some (id, q')). unfold virtio_vsock_notify_recv. by rewrite (bind_ok _ _ _ _ _ E1).
    - exists (Some (id, q)). cbn [frames_of]. rewrite (dev_poll _ Ep). cbn. by rewrite app_nil_r. }
  rewrite (bind_ok _ _ _ _ _ E1). rewrite app_assoc.
  destruct (poll_send_run fuel (send_queue c) (l ++ rx) Hf2) as (send & E2 & H2).
  rewrite (bind_ok _ _ _ _ _ E2). by exists (mkConn (cid c) send recv).
Qed.

(** The vsock callback.  It ends; all data waiting on any connection, if it
    fits the temporary buffer, is handed to the guest once and in order, and
    the peer notified after each piece; the buffers the peers have used are
    freed, once; nothing is left waiting and the connections stay as they
    were. *)
Lemma vsock_receives (fuel : nat) (connections : list conn) (l : list net_event) :
  gathers -> Forall (conn_fits fuel) connections ->
  exists connections', handle_vsock_irq fuel connections l = Ok (connections', l ++ concat (map conn_calls connections)) /\
    Forall conn_idle connections' /\ map cid connections' = map cid connections.
Proof using L.
  intros Hg. revert l. induction connections as [|c cs IH]; intros l Hf; cbn [handle_vsock_irq map concat].
  { exists []. rewrite app_nil_r. by split_and!. }
  apply List.Forall_cons_iff in Hf as [Hc Hcs].
  destruct (serve_conn_run fuel c l Hg Hc) as (c' & E1 & H1 & Hid). rewrite (bind_ok _ _ _ _ _ E1).
  destruct (IH (l ++ conn_calls c) Hcs) as (cs' & E2 & H2 & H3). rewrite (bind_ok _ _ _ _ _ E2).
  exists (c' :: cs'). rewrite <-app_assoc. split; [done|]. split; [by constructor|]. cbn [map]. by rewrite Hid, H3.
Qed.

(** Larger data overruns the temporary buffer. *)
Lemma vsock_overflow fuel id q h q' l :
  virtqueue_get_available_buf q = Some (h, q') -> VIRTIO_VSOCK_CAMKES_MTU < virtqueue_scattered_available_size q' h ->
  virtio_vsock_notify_recv (S fuel) id q l = Fault OutOfBounds.
Proof. apply recv_each_overflow. Qed.

End Vsock.

(** * Witnesses *)

Definition demo_conn : @conn list_queue :=
  @mkConn list_queue 3 (Some (11, ([], [[500]]))) (Some (12, ([[1; 2; 3]; [4]], []))).

Lemma vsock_receives_witness :
  exists connections', handle_vsock_irq 16 5 [demo_conn] []
    = Ok (connections', [RxComplete [1; 2; 3]; NotifyQueue 12; RxComplete [4]; NotifyQueue 12; FreeBuffer 11 500]) /\
    Forall conn_idle connections' /\ map cid connections' = [3].
Proof.
  change [RxComplete [1; 2; 3]; NotifyQueue 12; RxComplete [4]; NotifyQueue 12; FreeBuffer 11 500]
    with ([] ++ concat (map conn_calls [demo_conn])).
  apply (vsock_receives 16 5 [demo_conn] []).
  - intros q h q' _. discriminate.
  - apply List.Forall_cons; [|apply List.Forall_nil]. split.
    + repeat (apply List.Forall_cons; [cbn; lia|]). apply List.Forall_nil.
    + split; cbn; lia.
Defined.
