(* ===== verification/Ethernet.v ===== *)
(** The network device of the x86 VMM that uses an Ethernet driver component
    (components/Init/src/virtio_net.c): frames are exchanged with the driver
    through one dataport, [ethdriver_buf]. *)

From S2P Require Import Prelude Vnet.

(** The size of a dataport of type [Buf]. *)
Definition BUF_SIZE : Z := 4096.

(** The driver component, as this code uses it: [ethdriver_rx] puts a frame in
    the dataport and says whether it was the last (0), there are more (1) or
    there was none (-1). *)
Class EthDriver := {
  eth : Type;
  ethdriver_rx : eth -> Z * frame * eth }.
Class EthDriverLaws (D : EthDriver) := {
  eth_pending : eth -> list frame;
  rx_spec d : match eth_pending d, ethdriver_rx d with
    | [], (status, _, d') => status = -1 /\ eth_pending d' = []
    | f :: fs, (status, f', d') =>
        status = (match fs with [] => 0 | _ => 1 end) /\ f' = f /\ eth_pending d' = fs
    end }.

(** * Sending *)

(** [memcpy(p + tot_len, ..)] for each buffer. *)
Fixpoint copy_frames (buf : list Z) (tot_len : nat) (frames : list frame) : outcome (list Z * nat) :=
  match frames with
  | [] => Ok (buf, tot_len)
  | f :: frames =>
      if BUF_SIZE <? Z.of_nat (tot_len + length f) then Fault OutOfBounds
      else copy_frames (take tot_len buf ++ f ++ drop (tot_len + length f) buf) (tot_len + length f) frames
  end.
(** What the driver is asked to send: the start of the dataport. *)
Definition eth_emul_raw_tx (buf : list Z) (frames : list frame) : outcome (list Z * frame) :=
  match copy_frames buf 0 frames with
  | Ok (buf, tot_len) => Ok (buf, take tot_len buf)
  | Fault f => Fault f
  end.

(** * Receiving *)

Section Poll.
Context {D : EthDriver} {S : Type}.
(** What is done with a frame, which is in the dataport. *)
Variable receive : frame -> M S unit.

(** [while (status != -1)], with the answer of the last call. *)
Fixpoint notify_loop (fuel : nat) (status : Z) (f : frame) (d : eth) : M S eth :=
  if status =? -1 then mret d
  else match fuel with
       | O => fail OutOfFuel
       | Datatypes.S fuel =>
           receive f;;
           if status =? 1 then
             let '(status, f, d) := ethdriver_rx d in notify_loop fuel status f d
           else assertC (status =? 0);; notify_loop fuel (-1) f d
       end.
Definition poll_frames (fuel : nat) (d : eth) : M S eth :=
  let '(status, f, d) := ethdriver_rx d in notify_loop fuel status f d.

(** The driver after [n] more answers. *)
Fixpoint eth_skip (n : nat) (d : eth) : eth :=
  match n with O => d | Datatypes.S n => eth_skip n (snd (ethdriver_rx d)) end.

Context {L : EthDriverLaws D}.

Lemma eth_skip_pending n d : eth_pending (eth_skip n d) = drop n (eth_pending d).
Proof using L.
  revert d. induction n as [|n IH]; intros d; cbn [eth_skip]; [done|]. rewrite IH. pose proof (rx_spec d) as Hs.
  destruct (eth_pending d) as [|f fs]; destruct (ethdriver_rx d) as [[status f'] d']; cbn [snd drop];
    [destruct Hs as [_ ->]; by rewrite drop_nil|by destruct Hs as (_ & _ & ->)].
Qed.

Lemma notify_loop_run fuel f fs d s :
  eth_pending d = fs -> (length (f :: fs) <= fuel)%nat ->
  notify_loop fuel (match fs with [] => 0 | _ => 1 end) f d s
  = (for_each (f :: fs) receive;; mret (eth_skip (length fs) d)) s.
Proof using L.
  revert f d s fs. induction fuel as [|fuel IH]; intros f d s fs Hd Hf; cbn [length] in Hf; [lia|].
  cbn [notify_loop for_each].
  replace (match fs with [] => 0 | _ :: _ => 1 end =? -1) with false by (by destruct fs).
  unfold mbind, M_bind in *. destruct (receive f s) as [[[] s1]|] eqn:E1; [|by destruct fs].
  destruct fs as [|f2 fs]; cbn [Z.eqb]; [cbn; by destruct fuel|].
  pose proof (rx_spec d) as Hs. rewrite Hd in Hs. cbn [eth_skip length].
  destruct (ethdriver_rx d) as [[status f'] d1]. destruct Hs as (-> & -> & Hs). change (1 =? 1)%positive with true. cbn [snd]. cbv beta iota.
  rewrite (IH f2 d1 s1 fs Hs) by (cbn [length] in *; lia). done.
Qed.

(** The loop does with each frame waiting what is done with one, in order, and
    empties the driver. *)
Lemma poll_frames_run fuel d s :
  (length (eth_pending d) <= fuel)%nat ->
  exists d', eth_pending d' = [] /\ poll_frames fuel d s = (for_each (eth_pending d) receive;; mret d') s.
Proof using L.
  intros Hf. unfold poll_frames. pose proof (rx_spec d) as Hs.
  destruct (eth_pending d) as [|f fs] eqn:Ed; destruct (ethdriver_rx d) as [[status f'] d'].
  - destruct Hs as (-> & Hs). exists d'. split; [done|]. by destruct fuel.
  - destruct Hs as (-> & -> & Hs). exists (eth_skip (length fs) d'). split; [by rewrite eth_skip_pending, Hs, drop_all|].
    by apply notify_loop_run.
Qed.

End Poll.

Section Eth.
Context {D : EthDriver}.
Variable allocate_rx_buf : list net_event -> Z -> bool.

(** One frame: copied to the guest if there is room. *)
Definition eth_rx (f : frame) : Net unit :=
  l ← get;
  if allocate_rx_buf l (Z.of_nat (length f)) then
    if BUF_SIZE <? Z.of_nat (length f) then fail OutOfBounds else net_emit (RxComplete f)
  else mret tt.

Definition virtio_net_notify (fuel : nat) (d : eth) : Net eth := poll_frames eth_rx fuel d.

(** [while (ethdriver_rx(&len) != -1);] in [make_virtio_net]. *)
Fixpoint drain (fuel : nat) (d : eth) : outcome eth :=
  let '(status, _, d) := ethdriver_rx d in
  if status =? -1 then Ok d
  else match fuel with O => Fault OutOfFuel | S fuel => drain fuel d end.

(** * Theorems *)

Context {L : EthDriverLaws D}.

Lemma drain_run fuel d : (length (eth_pending d) <= fuel)%nat -> exists d', drain fuel d = Ok d' /\ eth_pending d' = [].
Proof using L.
  revert d. induction fuel as [|fuel IH]; intros d Hf; cbn [drain]; pose proof (rx_spec d) as Hs;
    destruct (eth_pending d) as [|f fs]; cbn [length] in Hf; try lia; destruct (ethdriver_rx d) as [[status f'] d'];
    destruct Hs as (-> & Hs); [by exists d'|by exists d'|].
  destruct Hs as [_ Hs]. destruct (IH d') as (d'' & E1 & E2); [rewrite Hs; lia|]. exists d''. by destruct fs.
Qed.

(** What the guest is given of [fs], with the calls before [l]. *)
Fixpoint accepted (l : list net_event) (fs : list frame) : list net_event :=
  match fs with
  | [] => []
  | f :: fs =>
      if allocate_rx_buf l (Z.of_nat (length f)) then RxComplete f :: accepted (l ++ [RxComplete f]) fs else accepted l fs
  end.

Lemma eth_rx_run f l :
  Z.of_nat (length f) <= BUF_SIZE ->
  eth_rx f l = Ok (tt, l ++ if allocate_rx_buf l (Z.of_nat (length f)) then [RxComplete f] else []).
Proof.
  intros Hf. unfold eth_rx, mbind, M_bind, get. destruct (allocate_rx_buf l (Z.of_nat (length f))).
  - by destruct (Z.ltb_spec BUF_SIZE (Z.of_nat (length f))); [lia|].
  - by rewrite app_nil_r.
Qed.

Lemma eth_rx_all fs l :
  Forall (fun f => Z.of_nat (length f) <= BUF_SIZE) fs -> for_each fs eth_rx l = Ok (tt, l ++ accepted l fs).
Proof.
  intros H. revert l. induction H as [|f fs Hf _ IH]; intros l; cbn [for_each accepted]; [by rewrite app_nil_r|].
  rewrite (bind_ok _ _ _ _ _ (eth_rx_run f l Hf)), IH. destruct (allocate_rx_buf l (Z.of_nat (length f))).
  - by rewrite <-app_assoc.
  - by rewrite app_nil_r.
Qed.

(** Frames from the Ethernet driver.  A notification empties the driver: each
    frame waiting is given to the guest, in order and once, unless the guest
    has no room for it at that moment; the loop ends and its assertion on the
    driver's answer holds. *)
Lemma eth_notify_drains (fuel : nat) (d : eth) (l : list net_event) :
  (length (eth_pending d) <= fuel)%nat -> Forall (fun f => Z.of_nat (length f) <= BUF_SIZE) (eth_pending d) ->
  exists d', virtio_net_notify fuel d l = Ok (d', l ++ accepted l (eth_pending d)) /\ eth_pending d' = [].
Proof using L.
  intros Hf Hfit. unfold virtio_net_notify. destruct (poll_frames_run eth_rx fuel d l Hf) as (d' & Hd & ->).
  exists d'. split; [|done]. by rewrite (bind_ok _ _ _ _ _ (eth_rx_all _ _ Hfit)).
Qed.

End Eth.

Lemma copy_frames_run buf tot frames :
  (tot <= length buf)%nat -> Z.of_nat (length buf) = BUF_SIZE ->
  Z.of_nat (tot + length (concat frames)) <= BUF_SIZE ->
  exists buf', copy_frames buf tot frames = Ok (buf', (tot + length (concat frames))%nat) /\
    length buf' = length buf /\ take (tot + length (concat frames)) buf' = take tot buf ++ concat frames.
Proof.
  revert buf tot. induction frames as [|f frames IH]; intros buf tot Ht Hb Hf; cbn [copy_frames concat].
  { exists buf. rewrite Nat.add_0_r, app_nil_r. done. }
  cbn [concat] in Hf. rewrite length_app in Hf.
  destruct (Z.ltb_spec BUF_SIZE (Z.of_nat (tot + length f))); [lia|].
  set (buf1 := take tot buf ++ f ++ drop (tot + length f) buf).
  assert (length buf1 = length buf) as Hl.
  { unfold buf1. rewrite !length_app, length_take, length_drop. lia. }
  destruct (IH buf1 (tot + length f)%nat) as (buf' & E1 & E2 & E3); [lia|lia|lia|].
  exists buf'. rewrite length_app, Nat.add_assoc. split; [done|]. split; [lia|]. rewrite E3, app_assoc. f_equal.
  unfold buf1. rewrite app_assoc, take_app_length'; [done|]. rewrite length_app, length_take. lia.
Qed.

(** Frames to the Ethernet driver.  The buffers of one transmission are put
    one after the other in the dataport and sent as a single frame: what the
    driver sends is their concatenation, when it fits; when it does not, the
    copy leaves the dataport. *)
Lemma eth_tx_concatenates (buf : list Z) (frames : list frame) :
  Z.of_nat (length buf) = BUF_SIZE ->
  (Z.of_nat (length (concat frames)) <= BUF_SIZE ->
   exists buf', eth_emul_raw_tx buf frames = Ok (buf', concat frames) /\ length buf' = length buf) /\
  (BUF_SIZE < Z.of_nat (length (concat frames)) -> eth_emul_raw_tx buf frames = Fault OutOfBounds).
Proof.
  intros Hb. unfold eth_emul_raw_tx. split; intros Hf.
  - destruct (copy_frames_run buf 0 frames ltac:(lia) Hb Hf) as (buf' & E1 & E2 & E3). rewrite E1. exists buf'.
    by rewrite E3.
  - assert (forall frames buf tot, BUF_SIZE < Z.of_nat (tot + length (concat frames)) -> Z.of_nat tot <= BUF_SIZE ->
      copy_frames buf tot frames = Fault OutOfBounds) as H.
    { clear. induction frames as [|f frames IH]; intros buf tot H1 H2; cbn [copy_frames concat length] in *; [lia|].
      rewrite length_app in H1. destruct (Z.ltb_spec BUF_SIZE (Z.of_nat (tot + length f))); [done|]. apply IH; lia. }
    by rewrite (H frames buf 0%nat) by (unfold BUF_SIZE in *; lia).
Qed.

(** * Witnesses *)

(** A driver that is the list of its frames. *)
#[local] Instance list_eth : EthDriver := {|
  eth := list frame;
  ethdriver_rx d := match d with [] => (-1, [], []) | f :: fs => ((match fs with [] => 0 | _ => 1 end), f, fs) end |}.
#[local] Instance list_eth_laws : EthDriverLaws list_eth.
Proof. refine {| eth_pending := fun d : @eth list_eth => d |}. by intros [|f fs]. Defined.

Definition demo_driver : @eth list_eth := [unicast; broadcast; unicast].

Lemma eth_notify_drains_witness :
  exists d', virtio_net_notify (fun l n => Z.of_nat (length l) <? 2) 3 demo_driver [] = Ok (d', [RxComplete unicast; RxComplete broadcast]) /\
    eth_pending d' = [].
Proof.
  change [RxComplete unicast; RxComplete broadcast]
    with ([] ++ accepted (fun l n => Z.of_nat (length l) <? 2) [] (eth_pending demo_driver)).
  apply (eth_notify_drains (fun l n => Z.of_nat (length l) <? 2) 3 demo_driver []); [cbn; lia|].
  unfold BUF_SIZE. repeat (apply List.Forall_cons; [cbn; lia|]). apply List.Forall_nil.
Defined.

Lemma eth_tx_concatenates_witness :
  (Z.of_nat (length (concat [unicast; broadcast])) <= BUF_SIZE ->
   exists buf', eth_emul_raw_tx (replicate 4096 0) [unicast; broadcast] = Ok (buf', concat [unicast; broadcast]) /\
     length buf' = length (replicate 4096 0)) /\
  (BUF_SIZE < Z.of_nat (length (concat [unicast; broadcast])) -> eth_emul_raw_tx (replicate 4096 0) [unicast; broadcast] = Fault OutOfBounds).
Proof. apply (eth_tx_concatenates (replicate 4096 0) [unicast; broadcast]). rewrite length_replicate. reflexivity. Defined.
