(* ===== verification/NetServers.v ===== *)
(** The network servers above the drivers: UDPServer, which runs lwIP over an
    Ethernet driver component (components/UDPServer/src/udpserver.c), the
    firewall between a driver and its client (components/Firewall), and the echo
    server, a client of both UDP connectors (components/Echo), composed with the
    server ends of the connectors (Udp).

    lwIP and the driver component are outside the repository. *)

From S2P Require Import Prelude Udp Vnet Ethernet.

(** * UDPServer *)

Module UdpServer.

(** What the server does that can be seen: frames given to the driver with its
    answer, frames given to lwIP, the lock of lwIP, and the calls of [pre_init]. *)
Inductive srv_event :=
| EthTx (f : frame)
| RxComplete (f : frame)
| LwipLock
| LwipUnlock
| LwipNewDriver
| LwipInit
| NetifAdd
| NetifSetUp
| NetifSetDefault
| IgmpJoinGroup
| WaitNotification.

Record Srv {D : EthDriver} := mkSrv {
  ethdriver_buf : list Z;
  driver : eth;
  srv_log : list srv_event }.
#[global] Arguments Srv : clear implicits.
#[global] Arguments Srv D : assert.
#[export] Instance eta_Srv {D : EthDriver} : Eta (Srv D) :=
  fun s => mkSrv D (ethdriver_buf s) (driver s) (srv_log s).

Class SrvEnv := {
  (* the driver's answer to the frame just sent *)
  ethdriver_tx : list srv_event -> Z;
  ETHIF_TX_FAILED : Z;
  ETHIF_TX_COMPLETE : Z;
  (* a buffer of lwIP for a frame of this length *)
  allocate_rx_buf : list srv_event -> Z -> bool;
  (* while lwIP is not locked, does the thread of [run] handle an interrupt? *)
  interrupted : list srv_event -> bool;
  ethif_new_lwip_driver : bool;
  netif_add : bool;
  ip_addr_ismulticast : bool;
  ethdriver_mac : list Z;
  posix_memalign : Z -> Z -> option Z }.

Section Srv.
Context {D : EthDriver} {E : SrvEnv}.

Definition SrvM (A : Type) : Type := M (Srv D) A.
Definition emit_s (e : srv_event) : SrvM unit := modify (fun s => s <| srv_log := srv_log s ++ [e] |>).

(** ** Receiving *)

(** One frame: the driver has put it in the dataport. *)
Definition receive (f : frame) : SrvM unit :=
  (if BUF_SIZE <? Z.of_nat (length f) then fail OutOfBounds else mret tt);;
  modify (fun s => s <| ethdriver_buf := f ++ drop (length f) (ethdriver_buf s) |>);;
  s ← get;
  assertC (allocate_rx_buf (srv_log s) (Z.of_nat (length f)));;
  emit_s (RxComplete (take (length f) (ethdriver_buf s))).

Definition raw_poll (fuel : nat) : SrvM unit :=
  s ← get;
  d ← poll_frames receive fuel (driver s);
  modify (fun s => s <| driver := d |>).
Definition handle_irq (fuel : nat) : SrvM unit := raw_poll fuel.

(** ** Sending *)

(** [while ((err = ethdriver_tx(total_len)) == ETHIF_TX_FAILED)]: the dataport
    is sent again as it is then. *)
Fixpoint retry_tx (fuel rx_fuel : nat) (total_len : nat) : SrvM unit :=
  match fuel with
  | O => fail OutOfFuel
  | S fuel =>
      s ← get;
      emit_s (EthTx (take total_len (ethdriver_buf s)));;
      s ← get;
      if ethdriver_tx (srv_log s) =? ETHIF_TX_FAILED then
        emit_s LwipUnlock;;
        s ← get;
        when (interrupted (srv_log s)) (emit_s LwipLock;; handle_irq rx_fuel;; emit_s LwipUnlock);;
        emit_s LwipLock;;
        retry_tx fuel rx_fuel total_len
      else mret tt
  end.

Definition raw_tx (fuel rx_fuel : nat) (frames : list frame) : SrvM Z :=
  s ← get;
  '(buf, total_len) ← lift (copy_frames (ethdriver_buf s) 0 frames);
  modify (fun s => s <| ethdriver_buf := buf |>);;
  retry_tx fuel rx_fuel total_len;;
  mret ETHIF_TX_COMPLETE.

(** ** DMA memory, which is ordinary memory *)

Definition malloc_dma_alloc (size align : Z) (cached : bool) : SrvM (option Z) :=
  assertC cached;; mret (posix_memalign align size).
Definition malloc_dma_pin (addr : Z) : Z := addr.

(** ** Start-up and the loop *)

(** The address and the MTU. *)
Definition low_level_init : list Z * Z := (ethdriver_mac, 1500).

Definition pre_init : SrvM unit :=
  emit_s LwipNewDriver;;
  assertC ethif_new_lwip_driver;;
  emit_s LwipLock;;
  emit_s LwipInit;;
  emit_s NetifAdd;;
  assertC netif_add;;
  emit_s NetifSetUp;;
  emit_s NetifSetDefault;;
  when ip_addr_ismulticast (emit_s IgmpJoinGroup);;
  emit_s LwipUnlock.

Definition run_body (fuel : nat) : SrvM unit :=
  emit_s WaitNotification;;
  emit_s LwipLock;;
  handle_irq fuel;;
  emit_s LwipUnlock.

(** ** Theorems *)

Context {L : EthDriverLaws D}.

(** lwIP always has a buffer. *)
Definition lwip_buffers : Prop := forall l n, allocate_rx_buf l n = true.
Definition frame_fits (f : frame) : Prop := Z.of_nat (length f) <= BUF_SIZE.
(** The dataport after frames have been received into it. *)
Definition received (fs : list frame) (buf : list Z) : list Z :=
  foldl (fun b f => f ++ drop (length f) b) buf fs.

Lemma receive_run f s :
  lwip_buffers -> frame_fits f ->
  receive f s = Ok (tt, mkSrv D (f ++ drop (length f) (ethdriver_buf s)) (driver s) (srv_log s ++ [RxComplete f])).
Proof using Type.
  intros Hb Hf. unfold receive, mbind, M_bind, emit_s, modify, get. unfold frame_fits in Hf.
  destruct (Z.ltb_spec BUF_SIZE (Z.of_nat (length f))); [lia|]. cbn. rewrite Hb. cbn. by rewrite take_app_length.
Qed.

Lemma receive_all fs s :
  lwip_buffers -> Forall frame_fits fs ->
  for_each fs receive s = Ok (tt, mkSrv D (received fs (ethdriver_buf s)) (driver s) (srv_log s ++ map RxComplete fs)).
Proof using Type.
  intros Hb H. revert s. induction H as [|f fs Hf _ IH]; intros s; cbn [for_each map received foldl].
  - rewrite app_nil_r. by destruct s.
  - rewrite (bind_ok _ _ _ _ _ (receive_run f s Hb Hf)), IH. cbn. by rewrite <-app_assoc.
Qed.

Lemma raw_poll_run fuel s :
  lwip_buffers -> Forall frame_fits (eth_pending (driver s)) -> (length (eth_pending (driver s)) <= fuel)%nat ->
  exists d', eth_pending d' = [] /\
    raw_poll fuel s = Ok (tt, mkSrv D (received (eth_pending (driver s)) (ethdriver_buf s)) d'
                                (srv_log s ++ map RxComplete (eth_pending (driver s)))).
Proof using L.
  intros Hb Hfit Hf. destruct (poll_frames_run receive fuel (driver s) s Hf) as (d' & Hd & E1). exists d'. split; [done|].
  unfold raw_poll. rewrite (bind_ok _ _ s s s) by done. unfold mbind at 1, M_bind at 1. rewrite E1.
  by rewrite (bind_ok _ _ _ _ _ (receive_all _ s Hb Hfit)).
Qed.

(** The driver takes the frame after [n] failures, and no interrupt is handled
    in between. *)
Fixpoint taken_after (n : nat) (f : frame) (l : list srv_event) : Prop :=
  match n with
  | O => ethdriver_tx (l ++ [EthTx f]) <> ETHIF_TX_FAILED
  | S n =>
      ethdriver_tx (l ++ [EthTx f]) = ETHIF_TX_FAILED /\ interrupted (l ++ [EthTx f; LwipUnlock]) = false /\
      taken_after n f (l ++ [EthTx f; LwipUnlock; LwipLock])
  end.
Fixpoint attempts (n : nat) (f : frame) : list srv_event :=
  match n with
  | O => [EthTx f]
  | S n => [EthTx f; LwipUnlock; LwipLock] ++ attempts n f
  end.

Lemma retry_run n fuel rx_fuel total s :
  taken_after n (take total (ethdriver_buf s)) (srv_log s) -> (n < fuel)%nat ->
  retry_tx fuel rx_fuel total s =
    Ok (tt, s <| srv_log := srv_log s ++ attempts n (take total (ethdriver_buf s)) |>).
Proof using Type.
  revert fuel s. induction n as [|n IH]; intros [|fuel] s Ht Hf; try lia; cbn [retry_tx attempts].
  - set (s1 := s <| srv_log := srv_log s ++ [EthTx (take total (ethdriver_buf s))] |>).
    rewrite (bind_ok _ _ s s s), (bind_ok _ _ s tt s1), (bind_ok _ _ s1 s1 s1) by done.
    cbn in Ht. change (srv_log s1) with (srv_log s ++ [EthTx (take total (ethdriver_buf s))]).
    by destruct (Z.eqb_spec (ethdriver_tx (srv_log s ++ [EthTx (take total (ethdriver_buf s))])) ETHIF_TX_FAILED).
  - destruct Ht as (H1 & H2 & H3). set (f := take total (ethdriver_buf s)) in *.
    set (s1 := s <| srv_log := srv_log s ++ [EthTx f] |>).
    rewrite (bind_ok _ _ s s s), (bind_ok _ _ s tt s1), (bind_ok _ _ s1 s1 s1) by done.
    change (srv_log s1) with (srv_log s ++ [EthTx f]). rewrite H1, Z.eqb_refl.
    set (s2 := s <| srv_log := srv_log s ++ [EthTx f; LwipUnlock] |>).
    rewrite (bind_ok _ _ s1 tt s2) by (unfold emit_s, modify, s1, s2; cbn; by rewrite <-app_assoc).
    rewrite (bind_ok _ _ s2 s2 s2) by done. change (srv_log s2) with (srv_log s ++ [EthTx f; LwipUnlock]).
    rewrite H2, (bind_ok _ _ s2 tt s2) by done.
    set (s3 := s <| srv_log := srv_log s ++ [EthTx f; LwipUnlock; LwipLock] |>).
    rewrite (bind_ok _ _ s2 tt s3) by (unfold emit_s, modify, s2, s3; cbn; by rewrite <-app_assoc).
    rewrite (IH fuel s3) by (done || lia). unfold s3. cbn. by rewrite <-app_assoc.
Qed.

(** Sending over a link that is down for a while.  The buffers are joined to
    one frame, which fits the dataport; it is offered to the driver until it is
    taken, and once only after that; if no interrupt is handled while lwIP is
    unlocked, every attempt sends the same frame.  The result is always that
    the transmission is complete. *)
Lemma udp_server_tx (n fuel rx_fuel : nat) (frames : list frame) (s : Srv D) :
  Z.of_nat (length (ethdriver_buf s)) = BUF_SIZE -> Z.of_nat (length (concat frames)) <= BUF_SIZE ->
  taken_after n (concat frames) (srv_log s) -> (n < fuel)%nat ->
  exists s', raw_tx fuel rx_fuel frames s = Ok (ETHIF_TX_COMPLETE, s') /\
    srv_log s' = srv_log s ++ attempts n (concat frames) /\ driver s' = driver s /\
    length (ethdriver_buf s') = length (ethdriver_buf s).
Proof using Type.
  intros Hb Hfit Ht Hf.
  destruct (copy_frames_run (ethdriver_buf s) 0 frames ltac:(lia) Hb Hfit) as (buf & E1 & E2 & E3).
  cbn [Nat.add take app] in E1, E3. set (s1 := s <| ethdriver_buf := buf |>).
  exists (s1 <| srv_log := srv_log s ++ attempts n (concat frames) |>).
  unfold raw_tx. rewrite (bind_ok _ _ s s s) by done.
  rewrite (bind_ok _ _ s (buf, length (concat frames)) s) by (by apply lift_ok).
  rewrite (bind_ok _ _ s tt s1) by done.
  rewrite (bind_ok _ _ s1 tt (s1 <| srv_log := srv_log s1 ++ attempts n (take (length (concat frames)) (ethdriver_buf s1)) |>)).
  - change (ethdriver_buf s1) with buf. by rewrite E3.
  - apply retry_run; [|done]. change (ethdriver_buf s1) with buf. by rewrite E3.
Qed.

(** If an interrupt is handled while the link is down, the frames received have
    been put in the same dataport, and what is sent then is not the frame. *)
Lemma retry_clobbered rx_fuel total s :
  let f := take total (ethdriver_buf s) in
  let fs := eth_pending (driver s) in
  let l1 := srv_log s ++ [EthTx f; LwipUnlock] in
  let l2 := l1 ++ [LwipLock] ++ map RxComplete fs ++ [LwipUnlock; LwipLock] in
  let f' := take total (received fs (ethdriver_buf s)) in
  lwip_buffers -> Forall frame_fits fs -> (length fs <= rx_fuel)%nat ->
  ethdriver_tx (srv_log s ++ [EthTx f]) = ETHIF_TX_FAILED -> interrupted l1 = true ->
  ethdriver_tx (l2 ++ [EthTx f']) <> ETHIF_TX_FAILED ->
  exists s', retry_tx 2 rx_fuel total s = Ok (tt, s') /\ srv_log s' = l2 ++ [EthTx f'].
Proof using L.
  intros f fs l1 l2 f' Hb Hfit Hfuel H1 H2 H3.
  set (s1 := s <| srv_log := srv_log s ++ [EthTx f] |>). set (s2 := s <| srv_log := l1 |>).
  set (s3 := s <| srv_log := l1 ++ [LwipLock] |>).
  destruct (raw_poll_run rx_fuel s3 Hb Hfit Hfuel) as (d' & _ & E3).
  set (s4 := mkSrv D (received fs (ethdriver_buf s)) d' (l1 ++ [LwipLock] ++ map RxComplete fs)).
  set (s5 := s4 <| srv_log := l1 ++ [LwipLock] ++ map RxComplete fs ++ [LwipUnlock] |>). set (s6 := s4 <| srv_log := l2 |>).
  exists (s6 <| srv_log := l2 ++ [EthTx f'] |>). split; [|done].
  cbn [retry_tx]. rewrite (bind_ok _ _ s s s), (bind_ok _ _ s tt s1), (bind_ok _ _ s1 s1 s1) by done.
  change (srv_log s1) with (srv_log s ++ [EthTx f]). rewrite H1, Z.eqb_refl.
  rewrite (bind_ok _ _ s1 tt s2) by (unfold emit_s, modify, s1, s2, l1; cbn; by rewrite <-app_assoc).
  rewrite (bind_ok _ _ s2 s2 s2) by done. change (srv_log s2) with l1. rewrite H2. cbn [when].
  rewrite (bind_ok _ _ s2 tt s5).
  2:{ rewrite (bind_ok _ _ s2 tt s3) by done. rewrite (bind_ok _ _ s3 tt s4).
      - unfold emit_s, modify, s5, s4. cbn. by rewrite <-app_assoc.
      - unfold handle_irq. rewrite E3. unfold s3, s4. cbn. by rewrite <-app_assoc. }
  rewrite (bind_ok _ _ s5 tt s6).
  2:{ unfold emit_s, modify, s5, s6, l2, s4, update. cbn. rewrite <-!app_assoc. cbn. by rewrite <-!app_assoc. }
  rewrite (bind_ok _ _ s6 s6 s6), (bind_ok _ _ s6 tt (s6 <| srv_log := l2 ++ [EthTx f'] |>)) by done.
  set (s7 := s6 <| srv_log := l2 ++ [EthTx f'] |>). rewrite (bind_ok _ _ s7 s7 s7) by done.
  change (srv_log s7) with (l2 ++ [EthTx f']).
  by destruct (Z.eqb_spec (ethdriver_tx (l2 ++ [EthTx f'])) ETHIF_TX_FAILED).
Qed.

(** Receiving.  An interrupt gives lwIP every frame waiting in the driver, in
    order and once, under its lock. *)
Lemma udp_server_rx (fuel : nat) (s : Srv D) :
  lwip_buffers -> Forall frame_fits (eth_pending (driver s)) -> (length (eth_pending (driver s)) <= fuel)%nat ->
  exists s', run_body fuel s = Ok (tt, s') /\ eth_pending (driver s') = [] /\
    srv_log s' = srv_log s ++ [WaitNotification; LwipLock] ++ map RxComplete (eth_pending (driver s)) ++ [LwipUnlock].
Proof using L.
  intros Hb Hfit Hf. unfold run_body.
  set (s1 := s <| srv_log := srv_log s ++ [WaitNotification] |>). set (s2 := s <| srv_log := srv_log s ++ [WaitNotification; LwipLock] |>).
  rewrite (bind_ok _ _ s tt s1) by done.
  rewrite (bind_ok _ _ s1 tt s2) by (unfold emit_s, modify, s1, s2; cbn; by rewrite <-app_assoc).
  destruct (raw_poll_run fuel s2 Hb Hfit Hf) as (d' & Hd & E1). unfold handle_irq. rewrite (bind_ok _ _ _ _ _ E1).
  eexists. split; [reflexivity|]. split; [exact Hd|]. unfold s2. cbn. by rewrite <-!app_assoc.
Qed.

(** Start-up calls lwIP under its lock only, and gives the lock back: the server
    has its interface, or stops before the loop. *)
Lemma pre_init_run (s : Srv D) :
  pre_init s =
    (if negb ethif_new_lwip_driver || negb netif_add then Fault AssertFailed
     else Ok (tt, s <| srv_log := srv_log s ++ [LwipNewDriver; LwipLock; LwipInit; NetifAdd; NetifSetUp; NetifSetDefault]
                          ++ (if ip_addr_ismulticast then [IgmpJoinGroup] else []) ++ [LwipUnlock] |>)).
Proof using Type.
  unfold pre_init, emit_s, modify, mbind, M_bind, update. destruct s as [buf d l]. cbn.
  destruct ethif_new_lwip_driver, netif_add; cbn; try done. by destruct ip_addr_ismulticast; cbn; rewrite <-!app_assoc.
Qed.

End Srv.

(** ** Witnesses *)

#[local] Existing Instances list_eth list_eth_laws.

(** The link is down for the first attempt. *)
#[local] Instance demo_srv (irq : bool) : SrvEnv := {|
  ethdriver_tx l := if (length l <? 2)%nat then -1 else 0;
  ETHIF_TX_FAILED := -1;
  ETHIF_TX_COMPLETE := 2;
  allocate_rx_buf _ _ := true;
  interrupted _ := irq;
  ethif_new_lwip_driver := true;
  netif_add := true;
  ip_addr_ismulticast := true;
  ethdriver_mac := [2; 0; 0; 0; 170; 1];
  posix_memalign _ _ := None |}.
Definition demo_state : Srv list_eth := mkSrv list_eth (replicate 4096 0) [[7; 8]] [].

Lemma udp_server_tx_witness :
  exists s', @raw_tx list_eth (demo_srv false) 2 0 [[1; 2]; [3]] demo_state = Ok (2, s') /\
    srv_log s' = [EthTx [1; 2; 3]; LwipUnlock; LwipLock; EthTx [1; 2; 3]] /\ driver s' = [[7; 8]] /\
    length (ethdriver_buf s') = 4096%nat.
Proof.
  apply (@udp_server_tx list_eth (demo_srv false) 1 2 0 [[1; 2]; [3]] demo_state);
    [reflexivity|cbn; unfold BUF_SIZE; lia|cbn; split_and!; done|lia].
Defined.

Lemma udp_server_rx_witness :
  exists s', @run_body list_eth (demo_srv false) 1 demo_state = Ok (tt, s') /\ driver s' = [] /\
    srv_log s' = [WaitNotification; LwipLock; RxComplete [7; 8]; LwipUnlock].
Proof.
  apply (@udp_server_rx list_eth (demo_srv false) list_eth_laws 1 demo_state);
    [done|repeat constructor; unfold frame_fits, BUF_SIZE; cbn; lia|cbn; lia].
Defined.

(** A frame received during the retry is sent instead of the client's. *)
Lemma retry_sends_received :
  exists s', @raw_tx list_eth (demo_srv true) 2 1 [[1; 2]; [3]] demo_state = Ok (2, s') /\
    srv_log s' = [EthTx [1; 2; 3]; LwipUnlock; LwipLock; RxComplete [7; 8]; LwipUnlock; LwipLock; EthTx [7; 8; 3]].
Proof. vm_compute. eexists. done. Qed.

End UdpServer.

(** * Firewall *)

Module Firewall.

(** The two dataports, and the driver behind the one to it. *)
Record Fw {D : EthDriver} := mkFw {
  ethdriver_buf : list Z;
  client_buf : list Z;
  driver : eth;
  fw_tx : list frame;      (* what the driver was asked to send *)
  client_emits : nat }.
#[global] Arguments Fw : clear implicits.
#[global] Arguments Fw D : assert.

Section Fw.
Context {D : EthDriver}.
(** The driver's answer to the frame. *)
Variable ethdriver_tx : frame -> Z.

Definition memcpy (dest src : list Z) (len : Z) : outcome (list Z) :=
  if (0 <=? len) && (len <=? BUF_SIZE) then Ok (take (Z.to_nat len) src ++ drop (Z.to_nat len) dest)
  else Fault OutOfBounds.

Definition client_tx (len : Z) (s : Fw D) : outcome (Z * Fw D) :=
  match memcpy (ethdriver_buf s) (client_buf s) len with
  | Fault f => Fault f
  | Ok buf =>
      let f := take (Z.to_nat len) buf in
      Ok (ethdriver_tx f, mkFw D buf (client_buf s) (driver s) (fw_tx s ++ [f]) (client_emits s))
  end.

(** The driver puts the frame in its dataport. *)
Definition client_rx (s : Fw D) : outcome (Z * Z * Fw D) :=
  let '(result, f, d) := ethdriver_rx (driver s) in
  if result =? -1 then Ok (result, 0, mkFw D (ethdriver_buf s) (client_buf s) d (fw_tx s) (client_emits s))
  else
    let len := Z.of_nat (length f) in
    let buf := f ++ drop (length f) (ethdriver_buf s) in
    match memcpy (client_buf s) buf len with
    | Fault e => Fault e
    | Ok cbuf => Ok (result, len, mkFw D buf cbuf d (fw_tx s) (client_emits s))
    end.

Definition client_mac (mac : list Z) : list Z := mac.

Definition ethdriver_has_data_callback (s : Fw D) : Fw D :=
  mkFw D (ethdriver_buf s) (client_buf s) (driver s) (fw_tx s) (S (client_emits s)).

(** ** Theorems *)

(** The firewall filters nothing: what the client sends is what the driver is
    asked to send, with the driver's answer. *)
Lemma firewall_tx (len : Z) (s : Fw D) :
  0 <= len <= BUF_SIZE -> Z.of_nat (length (client_buf s)) = BUF_SIZE ->
  let f := take (Z.to_nat len) (client_buf s) in
  exists s', client_tx len s = Ok (ethdriver_tx f, s') /\ fw_tx s' = fw_tx s ++ [f] /\
    driver s' = driver s /\ client_buf s' = client_buf s.
Proof.
  intros Hl Hb f. unfold client_tx, memcpy.
  destruct (Z.leb_spec 0 len); [|lia]. destruct (Z.leb_spec len BUF_SIZE); [|lia]. cbn [andb].
  rewrite (take_app_length' (take _ _)) by (rewrite length_take; lia). by eexists.
Qed.

(** The length is the client's, and is not checked. *)
Lemma firewall_tx_unchecked (len : Z) (s : Fw D) : BUF_SIZE < len -> client_tx len s = Fault OutOfBounds.
Proof.
  intros Hl. unfold client_tx, memcpy. destruct (Z.leb_spec 0 len); [|done]. by destruct (Z.leb_spec len BUF_SIZE); [lia|].
Qed.

(** What the client gets from the firewall is what it would get from the
    driver: the same answer, and the frame in its own dataport. *)
Lemma firewall_rx (s : Fw D) :
  let '(result, f, d) := ethdriver_rx (driver s) in
  Z.of_nat (length f) <= BUF_SIZE ->
  exists len s', client_rx s = Ok (result, len, s') /\ driver s' = d /\ fw_tx s' = fw_tx s /\
    (result <> -1 -> len = Z.of_nat (length f) /\ take (Z.to_nat len) (client_buf s') = f).
Proof.
  unfold client_rx, memcpy. destruct (ethdriver_rx (driver s)) as [[result f] d]. intros Hf.
  destruct (Z.eqb_spec result (-1)).
  - eexists _, _. split_and!; done.
  - destruct (Z.leb_spec 0 (Z.of_nat (length f))); [|lia].
    destruct (Z.leb_spec (Z.of_nat (length f)) BUF_SIZE); [|lia]. cbn [andb].
    eexists _, _. split_and!; try done. intros _. split; [done|]. cbn [client_buf].
    by rewrite Nat2Z.id, !take_app_length.
Qed.

End Fw.

End Firewall.

(** * Echo *)

Module Echo.

(** The echo component between the two connectors of the UDP server. *)
Record Echo := mkEcho {
  server : udp_server;
  send_buf : list Z;
  sent : list udp_event }.

Section Echo.
Context {E : UdpEnv}.
Variable pbuf_alloc : list udp_event -> bool.

(** The message registers of the last reply. *)
Definition last_reply (log : list udp_event) : list Z :=
  fold_left (fun r e => match e with Reply _ mrs => mrs | _ => r end) log [].

(** The poll and the send of the generated stubs, with the server's part. *)
Definition poll (i : nat) : M Echo (Z * option (Z * Z * Z)) :=
  e ← get;
  '(_, s) ← lift (udp_run_body (badge_of i) (server e));
  modify (fun e => mkEcho s (send_buf e) (sent e));;
  lift (udp_poll (last_reply (udp_log s))).
Definition send (badge : Z) (p : list Z) (len addr : Z) : M Echo Z :=
  e ← get;
  let '(mrs, buf, r) := udp_send p len addr (send_buf e) in
  modify (fun e => mkEcho (server e) buf (sent e ++ udp_send_body (pbuf_alloc (sent e)) badge mrs buf));;
  mret r.

Fixpoint echo_recv_ready_callback (fuel i : nat) (badge : Z) : M Echo unit :=
  match fuel with
  | O => fail OutOfFuel
  | S fuel =>
      '(status, r) ← poll i;
      match r with
      | Some (len, _, ip4addr) =>
          e ← get;
          _ ← send badge (nth i (udp_bufs (server e)) []) len ip4addr;
          mret tt
      | None => mret tt
      end;;
      if status =? 0 then echo_recv_ready_callback fuel i badge else mret tt
  end.

(** One turn of [run]: the receiving connectors of clients 0 and 1 have these
    notification badges. *)
Definition echo_run (fuel : nat) (b1 b2 badge : Z) (send1 send2 : Z) : M Echo unit :=
  when (z2b (Z.land badge b1)) (echo_recv_ready_callback fuel 0 send1);;
  when (z2b (Z.land badge b2)) (echo_recv_ready_callback fuel 1 send2).

(** ** Theorems *)

(** A datagram comes from a 16-bit port and a 32-bit address. *)
Definition from_lwip (k : packet) : Prop := inw 16 (snd k) /\ inw 32 (snd (fst k)).
(** What is sent for a datagram of less than a page by the sender [j], after
    [log]: nothing if lwIP has no buffer for it. *)
Definition echoed (j : nat) (dest : Z) (log : list udp_event) (k : packet) : list udp_event :=
  LwipLock :: (if pbuf_alloc log then [SendTo j (packet_bytes k) (snd (fst k)) dest] else []) ++ [LwipUnlock].
Fixpoint echoes (j : nat) (dest : Z) (log : list udp_event) (q : list packet) : list udp_event :=
  match q with
  | [] => []
  | k :: q => let es := echoed j dest log k in es ++ echoes j dest (log ++ es) q
  end.
(** The fault at the first datagram of a page or more: the copy into the shared
    buffer, or the assertion of the stub. *)
Fixpoint too_long (q : list packet) : option fault :=
  match q with
  | [] => None
  | k :: q =>
      if buf_size <? packet_len k then Some OutOfBounds
      else if packet_len k <? 4096 then too_long q else Some AssertFailed
  end.

Lemma last_reply_serve l badge q :
  last_reply (l ++ serve_calls badge q) =
    match q with
    | [] => [u64 (-1)]
    | k :: q' => [if q' is [] then 1 else 0; packet_len k; snd k; snd (fst k)]
    end.
Proof using Type. unfold last_reply. rewrite fold_left_app. by destruct q as [|k [|k' q]]. Qed.

Lemma poll_sim i e a :
  NoDup (map (fun c => fst (fst c)) udp_cfg) -> (i < length udp_cfg)%nat -> 0 <= buf_size < 2 ^ 32 -> server_sim (server e) a ->
  Forall from_lwip (nth i (sp_queues a) []) ->
  match nth i (sp_queues a) [] with
  | [] => exists s', server_sim s' (spec_exec a (Poll i)) /\ poll i e = Ok (-1, None, mkEcho s' (send_buf e) (sent e))
  | k :: q =>
      if buf_size <? packet_len k then poll i e = Fault OutOfBounds
      else if packet_len k <? 4096 then
        exists s', server_sim s' (spec_exec a (Poll i)) /\
          poll i e = Ok (b2z (bool_decide (q = [])), Some (packet_len k, snd k, snd (fst k)), mkEcho s' (send_buf e) (sent e))
      else poll i e = Fault AssertFailed
  end.
Proof using Type.
  intros Hnd Hi Hb Hs Hq. unfold poll. rewrite (bind_ok _ _ e e e) by done.
  destruct (overruns a (Poll i)) eqn:Hov.
  { pose proof (exec_overruns (Poll i) (server e) a Hnd (proj1 Hb) Hi Hov Hs) as E1. cbn [udp_exec overruns] in *.
    destruct (nth i (sp_queues a) []) as [|k q]; [done|]. rewrite Hov. apply bind_fault. unfold lift. by rewrite E1. }
  destruct (exec_sim (Poll i) (server e) a Hnd Hi Hov Hs) as (s' & E1 & Hs'). cbn [udp_exec overruns] in *.
  rewrite (bind_ok _ _ e (tt, s') e) by (by apply lift_ok).
  rewrite (bind_ok _ _ e tt (mkEcho s' (send_buf e) (sent e))) by done.
  assert (last_reply (udp_log s') = match nth i (sp_queues a) [] with
    | [] => [u64 (-1)] | k :: q' => [if q' is [] then 1 else 0; packet_len k; snd k; snd (fst k)] end) as El.
  { rewrite (ss_log _ _ Hs'). cbn [spec_exec sp_log]. apply last_reply_serve. }
  destruct Hq as [|k q (Hp & Ha) _]; [exists s'; split; [done|]; apply lift_ok; by rewrite El|].
  rewrite Hov. assert (0 <= packet_len k) by (unfold packet_len; lia).
  assert (udp_poll (last_reply (udp_log s')) = if u32 (packet_len k) <? 4096
    then Ok (b2z (bool_decide (q = [])), Some (u32 (packet_len k), snd k, snd (fst k))) else Fault AssertFailed) as Ep.
  { rewrite El. unfold udp_poll.
    change (arr (?a :: ?b :: _) 1) with b. change (arr (?a :: ?b :: ?c :: _) 2) with c.
    change (arr (?a :: ?b :: ?c :: ?d :: _) 3) with d.
    rewrite (u16_small (snd k)), (u32_small (snd (fst k))) by done.
    by destruct q, (u32 (packet_len k) <? 4096). }
  apply Z.ltb_ge in Hov. rewrite (u32_small (packet_len k)) in Ep by (unfold inw; lia).
  destruct (packet_len k <? 4096).
  - exists s'. split; [done|]. by apply lift_ok.
  - unfold lift. by rewrite Ep.
Qed.

Lemma send_run j badge src dest k rest e :
  NoDup (map (fun c => fst (fst c)) send_cfg) -> send_cfg !! j = Some (badge, src, dest) ->
  packet_len k < 4096 ->
  exists e', send badge (packet_bytes k ++ rest) (packet_len k) (snd (fst k)) e = Ok (packet_len k, e') /\
    server e' = server e /\ sent e' = sent e ++ echoed j dest (sent e) k.
Proof using Type.
  intros Hnd Hj Hl. assert (0 <= packet_len k) by (unfold packet_len; lia).
  unfold send, udp_send. destruct (Z.gtb_spec (packet_len k) 4096); [lia|].
  eexists. split; [reflexivity|]. split; [done|]. cbn [sent]. f_equal.
  unfold udp_send_body, echoed. change (arr [packet_len k; snd (fst k)] 0) with (packet_len k).
  rewrite (u32_small (packet_len k)) by (unfold inw; lia). destruct (Z.ltb_spec (packet_len k) 4096); [|lia].
  assert (list_find (fun c => fst (fst c) = badge) send_cfg = Some (j, (badge, src, dest))) as ->.
  { apply list_find_Some. split_and!; [done|done|]. intros j' [[b s] d] Hj' Hlt. cbn. intros ->.
    assert (j' = j); [|lia]. eapply (NoDup_lookup _ j' j badge Hnd); by rewrite lookup_map, ?Hj', ?Hj. }
  assert (take (Z.to_nat (packet_len k)) (packet_bytes k ++ rest) = packet_bytes k) as ->
    by (unfold packet_len; by rewrite Nat2Z.id, take_app_length).
  assert (Z.to_nat (packet_len k) = length (packet_bytes k)) as -> by (unfold packet_len; apply Nat2Z.id).
  by rewrite take_app_length.
Qed.

(** The queues after the datagrams of client [i] have been read. *)
Fixpoint drained (n i : nat) (a : udp_spec) : udp_spec :=
  match n with O => a | S n => drained n i (spec_exec a (Poll i)) end.

Lemma drained_queues n i a :
  (i < length (sp_queues a))%nat -> (length (nth i (sp_queues a) []) <= n)%nat ->
  sp_queues (drained n i a) = <[i := []]> (sp_queues a).
Proof using Type.
  revert a. induction n as [|n IH]; intros a Hi Hn; cbn [drained].
  - symmetry. apply list_insert_id. rewrite nth_lookup in Hn.
    destruct (lookup_lt_is_Some_2 (sp_queues a) i Hi) as [q Hq]. rewrite Hq in Hn |- *. by destruct q; cbn in Hn; [|lia].
  - rewrite IH; cbn [spec_exec sp_queues].
    + by rewrite list_insert_insert_eq.
    + by rewrite length_insert.
    + rewrite nth_insert, decide_True by done. destruct (nth i (sp_queues a) []); cbn in *; lia.
Qed.

Lemma echo_loop (fuel i j : nat) (badge src dest : Z) (e : Echo) (a : udp_spec) :
  NoDup (map (fun c => fst (fst c)) udp_cfg) -> NoDup (map (fun c => fst (fst c)) send_cfg) -> 0 <= buf_size < 2 ^ 32 ->
  (i < length udp_cfg)%nat -> send_cfg !! j = Some (badge, src, dest) ->
  server_sim (server e) a -> Forall from_lwip (nth i (sp_queues a) []) ->
  (length (nth i (sp_queues a) []) < fuel)%nat ->
  match too_long (nth i (sp_queues a) []) with
  | Some f => echo_recv_ready_callback fuel i badge e = Fault f
  | None => exists e' n, echo_recv_ready_callback fuel i badge e = Ok (tt, e') /\
      (length (nth i (sp_queues a) []) <= n)%nat /\ server_sim (server e') (drained n i a) /\
      sent e' = sent e ++ echoes j dest (sent e) (nth i (sp_queues a) [])
  end.
Proof using Type.
  intros Hn1 Hn2 Hb Hi Hj. revert e a. induction fuel as [|fuel IH]; intros e a Hs Hq Hf; [lia|].
  cbn [echo_recv_ready_callback].
  pose proof (poll_sim i e a Hn1 Hi Hb Hs Hq) as E1.
  destruct (nth i (sp_queues a) []) as [|k q] eqn:Eq; cbn [too_long echoes] in *.
  { destruct E1 as (s' & Hs' & E1). rewrite (bind_ok _ _ _ _ _ E1). eexists _, 1%nat. split; [reflexivity|].
    split; [cbn; lia|]. split; [done|]. by rewrite app_nil_r. }
  destruct (buf_size <? packet_len k); [by apply bind_fault|].
  destruct (Z.ltb_spec (packet_len k) 4096) as [Hk|]; [|by apply bind_fault].
  destruct E1 as (s' & Hs' & E1). rewrite (bind_ok _ _ _ _ _ E1). set (e1 := mkEcho _ _ _) in *.
  apply list.Forall_cons in Hq as [_ Hq].
  assert (nth i (udp_bufs s') [] = packet_bytes k ++ drop (length (packet_bytes k)) (nth i (sp_bufs a) [])) as Hbuf.
  { rewrite (ss_bufs _ _ Hs'). cbn [spec_exec sp_bufs]. rewrite Eq, nth_insert.
    - by rewrite decide_True by done.
    - rewrite <-(ss_bufs _ _ Hs), (ss_n2 _ _ Hs). lia. }
  destruct (send_run j badge src dest k (drop (length (packet_bytes k)) (nth i (sp_bufs a) [])) e1 Hn2 Hj Hk)
    as (e2 & E2 & H1 & H2).
  rewrite (bind_ok _ _ e1 tt e2).
  2:{ rewrite (bind_ok _ _ e1 e1 e1) by done. change (udp_bufs (server e1)) with (udp_bufs s').
      rewrite Hbuf, (bind_ok _ _ _ _ _ E2). done. }
  assert (nth i (sp_queues (spec_exec a (Poll i))) [] = q) as Eq'.
  { cbn [spec_exec sp_queues]. rewrite nth_insert by (rewrite (ss_n3 _ _ Hs); lia). by rewrite decide_True, Eq by done. }
  change (sent e1) with (sent e) in H2.
  case_bool_decide as Hlast; cbn [b2z Z.eqb].
  - clear Eq'. subst q. exists e2, 1%nat. rewrite H1, H2. cbn [echoes]. rewrite app_nil_r.
    split_and!; [done|cbn; lia|exact Hs'|done].
  - pose proof (IH e2 (spec_exec a (Poll i))) as H. rewrite Eq', H1 in H.
    specialize (H Hs' Hq ltac:(cbn in Hf; lia)). destruct (too_long q) as [f|]; [exact H|].
    destruct H as (e3 & n & E3 & Hn & Hs3 & H3). exists e3, (S n). split; [done|]. split; [cbn; lia|].
    split; [done|]. by rewrite H3, H2, <-app_assoc.
Qed.

(** C30 -- The echo server on top of the UDP server.  After any sequence of
    datagrams and polls the UDP server comes to the end of, the callback of the
    echo component sends every datagram then in its queue back, whole, in order
    and once, to the address it came from, but for those lwIP has no buffer for,
    which are dropped; its loop ends, its queue is left empty and the other
    clients' queues are as they were.  That is so if all datagrams in its queue
    are of less than a page.  The first that is not stops the callback: by the
    assertion on the length in the stub of the poll, or, if it is longer than
    the shared buffer, in the server.  (The clients of each connector have
    different badges, the echo component being one of both, and datagrams come
    from 16-bit ports and 32-bit addresses.) *)
Theorem echo_returns (ops : list udp_op) (fuel i j : nat) (badge src dest : Z) (buf : list Z) (a : udp_spec) (s : udp_server) :
  let q := nth i (sp_queues a) [] in
  NoDup (map (fun c => fst (fst c)) udp_cfg) -> NoDup (map (fun c => fst (fst c)) send_cfg) ->
  (1 <= bufs)%nat -> 0 <= buf_size < 2 ^ 32 -> Forall udp_op_ok ops ->
  spec_run ops spec_init = Some a -> for_each ops udp_exec udp_init = Ok (tt, s) ->
  (i < length udp_cfg)%nat -> send_cfg !! j = Some (badge, src, dest) -> Forall from_lwip q -> (length q < fuel)%nat ->
  match too_long q with
  | None => exists e' a', echo_recv_ready_callback fuel i badge (mkEcho s buf []) = Ok (tt, e') /\
      sent e' = echoes j dest [] q /\ server_sim (server e') a' /\ sp_queues a' = <[i := []]> (sp_queues a)
  | Some f => echo_recv_ready_callback fuel i badge (mkEcho s buf []) = Fault f
  end.
Proof using Type.
  intros q Hn1 Hn2 Hb1 Hb2 Hops Ha Hrun Hi Hj Hq Hf.
  pose proof (run_sim ops udp_init spec_init Hn1 (proj1 Hb2) Hops (init_sim Hb1 (proj1 Hb2))) as H. rewrite Ha in H.
  destruct H as (s' & Hrun' & Hs). assert (s' = s) as -> by congruence.
  pose proof (echo_loop fuel i j badge src dest (mkEcho s buf []) a Hn1 Hn2 Hb2 Hi Hj Hs Hq Hf) as H.
  fold q in H. destruct (too_long q); [exact H|]. destruct H as (e' & n & E1 & Hn & Hs' & H1).
  exists e', (drained n i a). split_and!; [done|done|done|]. apply drained_queues; [|done].
  rewrite (ss_n3 _ _ Hs). exact Hi.
Qed.

End Echo.

(** ** Witness *)

(** The two clients of the demonstration, after its datagrams and polls. *)
Definition demo_server : udp_server := final (for_each demo_ops (@udp_exec udp_demo)) (@udp_init udp_demo).
Lemma demo_run : for_each demo_ops (@udp_exec udp_demo) (@udp_init udp_demo) = Ok (tt, demo_server).
Proof. vm_compute. reflexivity. Qed.

(** The queue of the echo component holds one byte. *)
Definition demo_spec : udp_spec := fold_left (@spec_exec udp_demo) demo_ops (@spec_init udp_demo).

(** A datagram of exactly a page comes behind it. *)
Definition demo_page : list udp_op := demo_ops ++ [Recv 0 (mkPbuf 5 [replicate 4096 0]) 0 0].
Definition demo_page_spec : udp_spec := fold_left (@spec_exec udp_demo) demo_page (@spec_init udp_demo).
Definition demo_page_server : udp_server := final (for_each demo_page (@udp_exec udp_demo)) (@udp_init udp_demo).

Lemma echo_returns_witness :
  (exists e' a', @echo_recv_ready_callback udp_demo (fun _ => true) 2 0 2 (mkEcho demo_server [] []) = Ok (tt, e') /\
     sent e' = [LwipLock; SendTo 1 [5] 167772161 6001; LwipUnlock] /\
     @server_sim udp_demo (server e') a' /\ sp_queues a' = [[]; [(mkPbuf 2 [[4]], 167772162, 9)]]) /\
  @echo_recv_ready_callback udp_demo (fun _ => true) 3 0 2 (mkEcho demo_page_server [] []) = Fault AssertFailed.
Proof.
  split.
  - apply (@echo_returns udp_demo (fun _ => true) demo_ops 2 0 1 2 5001 6001 [] demo_spec demo_server
      demo_badges ltac:(by apply (bool_decide_unpack _)) ltac:(cbn; lia) ltac:(cbn; lia) demo_ops_ok
      eq_refl demo_run ltac:(cbn; lia) eq_refl); [|cbn; lia].
    repeat constructor; unfold inw; cbn; lia.
  - refine (@echo_returns udp_demo (fun _ => true) demo_page 3 0 1 2 5001 6001 [] demo_page_spec demo_page_server
      demo_badges ltac:(by apply (bool_decide_unpack _)) ltac:(cbn; lia) ltac:(cbn; lia) _
      eq_refl _ ltac:(cbn; lia) eq_refl _ _).
    + repeat (constructor; cbn; try lia).
    + vm_compute. reflexivity.
    + repeat constructor; unfold inw; cbn; lia.
    + cbn. lia.
Defined.

End Echo.
