(* ===== verification/X86Virtio.v ===== *)
(** Setting up the virtio devices of the x86 VMM (components/Init/src:
    make_virtio_net of virtio_net.c, make_virtio_net_vswitch of
    virtio_net_vswitch.c, make_virtio_blk of virtio_blk.c, make_virtio_con of
    virtio_con.c and make_virtio_vsock of virtio_vsock.c): the functions given to
    the emulation layer, the ports and interrupts each device gets, and the
    nodes of the virtual switch.  What the devices do once they run is in
    Ethernet, Vnet, Blk, Console and Vsock.

    The emulation layer (libsel4vmmplatsupport), libsel4vm and libvswitch are
    outside the repository: their calls are logged, their answers a parameter
    (Calls). *)

From stdpp Require Import gmap sets.
From S2P Require Import Prelude Calls.
From S2P Require Import I8254.
From S2P Require Import Mc146818.
From S2P Require Import Serial.
From S2P Require Import Sata Blk.
From S2P Require Import Vsock.
From S2P Require Import Console Vnet.

Open Scope Z_scope.

(** * Data *)

(** A file that makes a device. *)
Inductive device := Eth | Switch | Blk | Con | Sock.
#[export] Instance device_eq_dec : EqDecision device.
Proof. solve_decision. Defined.

(** The functions of the files that are given to the emulation layer. *)
Inductive fn := FnTx (d : device) | FnLowLevelInit (d : device) | FnHandleIrq (d : device).

(** What [common_make_virtio_..] is given: a range of ports, which it chooses
    itself with [IOPORT_FREE], the interrupt twice, and the back end with its
    cookie. *)
Record registration := mkReg {
  rg_device : device;
  io_start : Z; io_end : Z; io_size : Z;
  io_fixed : bool;
  interrupt_pin : Z; interrupt_line : Z;
  rg_tx : fn; rg_low_level_init : option fn; rg_handle_irq : fn; rg_cookie : Z }.

Inductive virtio_call :=
| Calloc (d : device)
| CommonMake (r : registration)
| VmInjectIrq (irq : Z)
| VswitchInit
| MallocQueue
| QueueDriverInit (id : Z)
| QueueDeviceInit (id : Z)
| VswitchConnect (mac : list Z) (send recv : Z)
| EthdriverMac
| EthdriverRx                 (* 1, 0: a frame; -1: none *)
| SataStatus.                 (* sataserver_iface_get_status *)

(** [struct vswitch_mapping], and a node of libvswitch's table. *)
Record vswitch_mapping := mkMapping { mac_addr : list Z; recv_id : Z; send_id : Z }.
Record vswitch_node := mkNode { n_mac : list Z; n_send : Z; n_recv : Z }.

(** The static variables of the five files: which machine they inject into (a
    null pointer before it is set), the switch's table, the console's
    and the vsock's connections; the devices the emulation layer has, and the
    calls. *)
Record Virtio {Q : VirtQueue} := mkVirtio {
  the_vm : device -> Z;
  g_vswitch : list vswitch_node;
  console : Console;
  sock_connections : list Vsock.conn;
  made : list registration;
  v_calls : list virtio_call }.
#[export] Instance eta_Virtio {Q : VirtQueue} : Eta Virtio := fun s =>
  mkVirtio Q (the_vm s) (g_vswitch s) (console s) (sock_connections s) (made s) (v_calls s).
#[export] Instance virtio_log {Q : VirtQueue} : CallLog Virtio virtio_call.
Proof.
  refine {| calls_of := v_calls; add_calls := fun es s => s <| v_calls := v_calls s ++ es |> |}.
  - intros s. rewrite app_nil_r. by destruct s.
  - intros e1 e2 s. cbn. by rewrite <-app_assoc.
  - done.
Defined.
Definition X {Q : VirtQueue} (A : Type) : Type := M Virtio A.

(** What is not part of the repository, and the configuration. *)
Class VirtioEnv := {
  virtio_reply : list virtio_call -> Z;
  ether_aton_r : list Z -> option (list Z);
  vswitch_mac_address : list Z;
  vswitch_layout : list vswitch_mapping;
  ethdriver_mac : list Z;
  VIRTIO_CON_MAX_PORTS : Z;
  ZF_LOGF_aborts : bool }.

(** The vsock's memory, queues and configuration (Vsock). *)
Class SockEnv {Q : VirtQueue} := {
  sock_calloc : Z -> bool;
  sock_driver_init : Z -> option vq;
  sock_device_init : Z -> option vq;
  socket_layout : list socket_mapping }.

Definition virtio_ok (c : virtio_call) (r : Z) : bool :=
  match c with
  | Calloc _ | CommonMake _ | MallocQueue => negb (r =? 0)
  | VmInjectIrq _ | VswitchInit | QueueDeviceInit _ | VswitchConnect _ _ _ => r =? 0
  | QueueDriverInit _ => 0 <=? r
  | EthdriverMac | EthdriverRx => true
  | SataStatus => negb (r =? SATASERVER_STATUS_INVALID_CONF)
  end.
#[export] Instance virtio_answers {E : VirtioEnv} : Answers virtio_call :=
  {| reply := virtio_reply; succeeded := virtio_ok |}.

(** virtio_irq.h *)
Definition VIRTIO_NET_IRQ : Z := 6.
Definition VIRTIO_BLK_IRQ : Z := 7.
Definition VIRTIO_CON_IRQ : Z := 9.
Definition VIRTIO_SCK_IRQ : Z := 10.

(** The header of the block device has a size of its own. *)
Definition VIRTIO_BLK_IOBASE : Z := 0x8000.
Definition VIRTIO_BLK_IOPORT_SIZE : Z := 0x40.
Definition VIRTIO_IOPORT_SIZE : Z := 0x400.
Definition FREE_IOPORT_START : Z := 0x9000.
Definition ETH_MTU : Z := 1500.

Section Virtio.
Context {Q : VirtQueue} {E : VirtioEnv} {CE : ConsoleEnv} {SE : SockEnv}.

(** * The back ends' functions *)

(** [emul_raw_handle_irq] of the two network files and the block device; the
    result of the injection is not looked at. *)
Definition emul_raw_handle_irq (d : device) (irq : Z) : X unit :=
  s ← get;
  if the_vm s d =? 0 then fail NullDeref else do_ (VmInjectIrq irq).

(** [console_handle_irq] and [vsock_inject_irq], which check their cookie. *)
Definition cookie_handle_irq (d : device) (cookie irq : Z) : X unit :=
  s ← get;
  if (cookie =? 0) || (the_vm s d =? 0) then mret tt else do_ (VmInjectIrq irq).
Definition console_handle_irq (cookie : Z) : X unit := cookie_handle_irq Con cookie VIRTIO_CON_IRQ.
Definition vsock_inject_irq (cookie : Z) : X unit := cookie_handle_irq Sock cookie VIRTIO_SCK_IRQ.

(** The emulation layer raises the interrupt of a device: the function it was
    given runs. *)
Definition raise (r : registration) : X unit :=
  match rg_handle_irq r with
  | FnHandleIrq Eth => emul_raw_handle_irq Eth VIRTIO_NET_IRQ
  | FnHandleIrq Switch => emul_raw_handle_irq Switch VIRTIO_NET_IRQ
  | FnHandleIrq Blk => emul_raw_handle_irq Blk VIRTIO_BLK_IRQ
  | FnHandleIrq Con => console_handle_irq (rg_cookie r)
  | FnHandleIrq Sock => vsock_inject_irq (rg_cookie r)
  | _ => fail NullDeref
  end.

(** The address of the guest's device and its MTU. *)
Definition eth_low_level_init : X (list Z * Z) := do_ EthdriverMac;; mret (ethdriver_mac, ETH_MTU).
Definition vswitch_low_level_init : X (list Z * Z) :=
  match ether_aton_r vswitch_mac_address with
  | None => fail AssertFailed
  | Some mac => mret (mac, ETH_MTU)
  end.

(** * The virtual switch *)

(** The body of the loop; [true] when the function returns -1.  An address that
    does not parse leaves the variable undefined; a node that is not accepted is
    skipped. *)
Definition connect_node (m : vswitch_mapping) : X bool :=
  vq_send ← ask MallocQueue;
  if vq_send =? 0 then mret true else
  vq_recv ← ask MallocQueue;
  if vq_recv =? 0 then mret true else
  err ← ask (QueueDriverInit (send_id m));
  if err <? 0 then mret true else
  err ← ask (QueueDeviceInit (recv_id m));
  if z2b err then mret true else
  guest_macaddr ← lift (match ether_aton_r (mac_addr m) with Some a => Ok a | None => Fault Uninitialised end);
  err ← ask (VswitchConnect guest_macaddr (send_id m) (recv_id m));
  when (negb (z2b err))
    (modify (fun s => s <| g_vswitch := g_vswitch s ++ [mkNode guest_macaddr (send_id m) (recv_id m)] |>));;
  mret false.

(** The result is not used. *)
Definition make_vswitch_net : X unit :=
  err ← ask VswitchInit;
  if z2b err then mret tt
  else for_until vswitch_layout connect_node;; mret tt.

(** * Making the devices *)

Definition set_vm (d : device) (vm : Z) : X unit :=
  modify (fun s => s <| the_vm := fun x => if decide (x = d) then vm else the_vm s x |>).

(** The result of [common_make_virtio_..]: the device is on the bus unless it is
    a null pointer. *)
Definition common_make (r : registration) : X Z :=
  p ← ask (CommonMake r);
  when (negb (p =? 0)) (modify (fun s => s <| made := made s ++ [r] |>));;
  mret p.

Definition reg_net (d : device) : registration :=
  mkReg d 0 0 VIRTIO_IOPORT_SIZE false VIRTIO_NET_IRQ VIRTIO_NET_IRQ
    (FnTx d) (Some (FnLowLevelInit d)) (FnHandleIrq d) 0.
Definition reg_blk : registration :=
  mkReg Blk VIRTIO_BLK_IOBASE (VIRTIO_BLK_IOBASE + VIRTIO_BLK_IOPORT_SIZE) VIRTIO_BLK_IOPORT_SIZE true
    VIRTIO_BLK_IRQ VIRTIO_BLK_IRQ (FnTx Blk) (Some (FnLowLevelInit Blk)) (FnHandleIrq Blk) 0.
Definition reg_con (cookie : Z) : registration :=
  mkReg Con 0 0 VIRTIO_IOPORT_SIZE false VIRTIO_CON_IRQ VIRTIO_CON_IRQ (FnTx Con) None (FnHandleIrq Con) cookie.
Definition reg_sock (cookie : Z) : registration :=
  mkReg Sock 0 0 VIRTIO_IOPORT_SIZE false VIRTIO_SCK_IRQ VIRTIO_SCK_IRQ (FnTx Sock) None (FnHandleIrq Sock) cookie.

(** A call repeated until its answer is the one waited for, with [fuel]
    repetitions. *)
Fixpoint poll_until (c : virtio_call) (stop : Z -> bool) (fuel : nat) : X Z :=
  status ← ask c;
  if stop status then mret status
  else match fuel with O => fail OutOfFuel | S fuel => poll_until c stop fuel end.

(** [while (ethdriver_rx(&len) != -1);] *)
Definition drain (fuel : nat) : X unit := _ ← poll_until EthdriverRx (fun status => status =? -1) fuel; mret tt.
Definition make_virtio_net (fuel : nat) (vm : Z) : X unit :=
  set_vm Eth vm;;
  virtio_net ← common_make (reg_net Eth);
  assertC (negb (virtio_net =? 0));;
  drain fuel.

Definition make_virtio_net_vswitch (vm : Z) : X unit :=
  set_vm Switch vm;;
  make_vswitch_net;;
  virtio_net ← common_make (reg_net Switch);
  assertC (negb (virtio_net =? 0)).

(** The status is read until the server is done; without a valid
    configuration there is no device. *)
Definition make_virtio_blk (fuel : nat) (vm : Z) : X unit :=
  status ← poll_until SataStatus (fun status => negb (SATASERVER_STATUS_NOT_DONE =? status)) fuel;
  if SATASERVER_STATUS_INVALID_CONF =? status then when ZF_LOGF_aborts (fail AssertFailed)
  else
    set_vm Blk vm;;
    virtio_blk ← common_make reg_blk;
    assertC (negb (virtio_blk =? 0)).

Definition on_console {A} (m : M Console A) : X A :=
  zoom (fun s => Some (console s)) (fun c s => s <| console := c |>) m.

(** The cookie holds no machine while the device is made. *)
Definition make_virtio_con (vm : Z) : X unit :=
  assertC (negb (VIRTIO_CON_MAX_PORTS <? NUM_PORTS));;
  console_cookie ← ask (Calloc Con);
  assertC (negb (console_cookie =? 0));;
  set_vm Con 0;;
  virtio_con ← common_make (reg_con console_cookie);
  set_vm Con vm;;
  on_console make_virtio_con_virtqueues;;
  assertC (negb (virtio_con =? 0)).

(** [make_virtio_vsock_virtqueues()] (Vsock), on the zeroed array. *)
Definition connect_sockets : X unit :=
  modify (fun s => s <| sock_connections :=
    make_virtio_vsock_virtqueues sock_calloc sock_driver_init sock_device_init 0 socket_layout |>).

Definition make_virtio_vsock (vm : Z) : X unit :=
  vsock_cookie ← ask (Calloc Sock);
  assertC (negb (vsock_cookie =? 0));;
  set_vm Sock vm;;
  virtio_vsock ← common_make (reg_sock vsock_cookie);
  assertC (negb (virtio_vsock =? 0));;
  connect_sockets.

(** The function the configuration names for a device. *)
Definition make (fuel : nat) (vm : Z) (d : device) : X unit :=
  match d with
  | Eth => make_virtio_net fuel vm
  | Switch => make_virtio_net_vswitch vm
  | Blk => make_virtio_blk fuel vm
  | Con => make_virtio_con vm
  | Sock => make_virtio_vsock vm
  end.

End Virtio.

Definition virtio_bss {Q : VirtQueue} {SE : SockEnv} (m : Console) : Virtio :=
  mkVirtio Q (fun _ => 0) [] m (replicate (length socket_layout) conn_bss) [] [].

(** * Set-up with libraries that work *)

(** The interrupt of a device's file. *)
Definition line_of (d : device) : Z :=
  match d with Eth | Switch => VIRTIO_NET_IRQ | Blk => VIRTIO_BLK_IRQ | Con => VIRTIO_CON_IRQ | Sock => VIRTIO_SCK_IRQ end.

(** A registration that can be raised once its machine is set. *)
Definition sound (r : registration) : Prop :=
  rg_handle_irq r = FnHandleIrq (rg_device r) /\ interrupt_line r = line_of (rg_device r) /\
  interrupt_pin r = interrupt_line r /\
  (io_fixed r = true -> io_end r <= FREE_IOPORT_START) /\
  match rg_device r with Con | Sock => rg_cookie r <> 0 | _ => True end.

Section Setup.
Context {VQ : VirtQueue} {E : VirtioEnv} {CE : ConsoleEnv} {SE : SockEnv}.
Context (Hall : all_succeed) (fuel : nat) (vm : Z).

Lemma wp_ask c (Q : Z -> Virtio -> Prop) s :
  (forall r, virtio_ok c r = true -> Q r (add_calls [c] s)) -> wp (ask c) Q s.
Proof using Hall. intros HQ. apply HQ. exact (Hall (v_calls s) c). Qed.

(** The addresses of the nodes can be read, and the pages of the consoles are
    there. *)
Definition node_of (m : vswitch_mapping) : option vswitch_node :=
  a ← ether_aton_r (mac_addr m); Some (mkNode a (send_id m) (recv_id m)).
Definition console_bss (m : gmap Z serial_shmem) : Console :=
  mkConsole (replicate (length serial_layout) no_conn) m [].

Context (nodes : list vswitch_node) (Hnodes : mapM node_of vswitch_layout = Some nodes).
Context (pages : gmap Z serial_shmem) (Hsized : pages_sized pages).
Context (Hports : NUM_PORTS <= VIRTIO_CON_MAX_PORTS).
Context (Hchan : channels_ok (fun p => is_Some (pages !! p))).

(** The driver runs out of frames, and the disk server gets done, within
    [fuel] further calls. *)
Definition ends (c : virtio_call) (stop : Z -> bool) : Prop := forall l,
  exists n, (n <= fuel)%nat /\ stop (virtio_reply (l ++ replicate n c ++ [c])) = true.
Context (Hrx : ends EthdriverRx (fun status => status =? -1)).
Context (Hdone : ends SataStatus (fun status => negb (SATASERVER_STATUS_NOT_DONE =? status))).

(** What does not change when calls are made and nodes are added. *)
Definition same_devices (s s' : Virtio) : Prop :=
  the_vm s' = the_vm s /\ console s' = console s /\ sock_connections s' = sock_connections s /\ made s' = made s.

Lemma connect_node_run m n s : node_of m = Some n ->
  wp (connect_node m) (fun out s' => out = false /\ same_devices s s' /\ g_vswitch s' = g_vswitch s ++ [n]) s.
Proof using Hall.
  intros Hn. unfold node_of in Hn. destruct (ether_aton_r (mac_addr m)) as [a|] eqn:Ha; [|done].
  injection Hn as <-. unfold connect_node.
  apply wp_bind, wp_ask. intros p1 H1%negb_true_iff. rewrite H1.
  apply wp_bind, wp_ask. intros p2 H2%negb_true_iff. rewrite H2.
  apply wp_bind, wp_ask. intros r1 H3%Z.leb_le. rewrite (proj2 (Z.ltb_ge _ _)) by done.
  apply wp_bind, wp_ask. intros r2 H4. cbn in H4. unfold z2b at 1. rewrite H4. cbn [negb].
  apply wp_bind. rewrite Ha. eapply wp_lift; [done|].
  apply wp_bind, wp_ask. intros r3 H5. cbn in H5. unfold z2b. rewrite H5. cbn [negb].
  apply wp_bind, wp_modify, wp_ret. done.
Qed.

Lemma make_vswitch_net_run s :
  wp make_vswitch_net (fun _ s' => same_devices s s' /\ g_vswitch s' = g_vswitch s ++ nodes) s.
Proof using Hall Hnodes.
  unfold make_vswitch_net. apply wp_bind, wp_ask. intros r Hr. cbn in Hr. unfold z2b. rewrite Hr. cbn [negb].
  apply wp_bind. set (s0 := add_calls _ s). assert (same_devices s s0 /\ g_vswitch s0 = g_vswitch s) as [H0 H0'] by done.
  clearbody s0. revert s0 H0 H0'. clear Hr. generalize (g_vswitch s) as g. revert nodes Hnodes.
  induction vswitch_layout as [|m layout IH]; intros ns Hns g s0 H0 Hg.
  - injection Hns as <-. apply wp_ret, wp_ret. by rewrite app_nil_r.
  - apply mapM_Some in Hns. apply list.Forall2_cons_inv_l in Hns as (n & ns' & Hn & Hns & ->).
    apply mapM_Some in Hns. cbn [for_until]. apply wp_bind. eapply wp_mono; [by apply connect_node_run|].
    intros out s1 (-> & H1 & Hg1). eapply wp_mono; [apply (IH ns' Hns (g ++ [n]) s1)|].
    + destruct H0 as (F1 & F2 & F3 & F4), H1 as (G1 & G2 & G3 & G4). split_and!; congruence.
    + by rewrite Hg1, Hg.
    + intros u s2. by rewrite <-app_assoc.
Qed.

(** The vsock's connections once it is made. *)
Definition sockets : list Vsock.conn :=
  make_virtio_vsock_virtqueues sock_calloc sock_driver_init sock_device_init 0 socket_layout.

(** The devices [ds] have been made. *)
Definition ready (ds : list device) (s : Virtio) : Prop :=
  map rg_device (made s) = ds /\ Forall sound (made s) /\ (forall d, d ∈ ds -> the_vm s d = vm) /\
  g_vswitch s = (if decide (Switch ∈ ds) then nodes else []) /\
  sock_connections s = (if decide (Sock ∈ ds) then sockets else replicate (length socket_layout) conn_bss) /\
  (if decide (Con ∈ ds)
   then connections (console s) = map conn_of serial_layout /\
        Forall (conn_clear (shm (console s))) (connections (console s))
   else console s = console_bss pages).

(** A call repeated to its end. *)
Lemma poll_until_run c stop (Q : Z -> Virtio -> Prop) s :
  ends c stop ->
  (forall r s', stop r = true -> virtio_ok c r = true -> same_devices s s' -> g_vswitch s' = g_vswitch s -> Q r s') ->
  wp (poll_until c stop fuel) Q s.
Proof using Hall.
  intros He HQ. destruct (He (v_calls s)) as (n & Hn & Hs).
  enough (forall s0, same_devices s s0 -> g_vswitch s0 = g_vswitch s ->
    stop (virtio_reply (v_calls s0 ++ replicate n c ++ [c])) = true -> wp (poll_until c stop fuel) Q s0) as H by by apply H.
  clear Hs He. revert n Hn. induction fuel as [|k IH]; intros n Hn s0 H1 H2 Hs; cbn [poll_until];
    apply wp_bind; (eapply wp_of_eq; [reflexivity|]); cbn [reply virtio_answers];
    pose proof (Hall (v_calls s0) c) as Hok; cbn in Hok; change (calls_of s0) with (v_calls s0);
    destruct (stop (virtio_reply (v_calls s0 ++ [c]))) eqn:E1; try by apply wp_ret, HQ.
  - replace n with 0%nat in Hs by lia. cbn in Hs. congruence.
  - destruct n as [|n]; [cbn in Hs; congruence|].
    apply (IH n ltac:(lia)); [done|done|]. cbn in Hs |- *. by rewrite <-app_assoc.
Qed.

Lemma wp_common_make r (Q : Z -> Virtio -> Prop) s :
  (forall p s', p <> 0 -> the_vm s' = the_vm s -> g_vswitch s' = g_vswitch s -> console s' = console s ->
     sock_connections s' = sock_connections s -> made s' = made s ++ [r] -> Q p s') ->
  wp (common_make r) Q s.
Proof using Hall.
  intros HQ. unfold common_make. apply wp_bind, wp_ask. intros p Hp%negb_true_iff. rewrite Hp. cbn [negb].
  apply wp_bind, wp_modify, wp_ret. apply HQ; [|done..]. by apply Z.eqb_neq.
Qed.
Lemma wp_set_vm d v (Q : unit -> Virtio -> Prop) s :
  (forall s', the_vm s' d = v -> (forall x, x <> d -> the_vm s' x = the_vm s x) -> g_vswitch s' = g_vswitch s ->
     console s' = console s -> sock_connections s' = sock_connections s -> made s' = made s -> Q tt s') ->
  wp (set_vm d v) Q s.
Proof using Type.
  intros HQ. apply wp_modify, HQ; [| |done..]; cbn; [by rewrite decide_True|]. intros x Hx. by rewrite decide_False.
Qed.
Lemma wp_nonzero p (Q : unit -> Virtio -> Prop) s : p <> 0 -> Q tt s -> wp (assertC (negb (p =? 0))) Q s.
Proof using Type. intros Hp HQ. apply wp_assertC; [|done]. apply negb_true_iff. by apply Z.eqb_neq. Qed.

(** One more device. *)
Definition connected (c : Console) : Prop :=
  connections c = map conn_of serial_layout /\ Forall (conn_clear (shm c)) (connections c).

Lemma ready_add ds d r s s' :
  ready ds s -> d ∉ ds -> rg_device r = d -> sound r ->
  the_vm s' d = vm -> (forall x, x <> d -> the_vm s' x = the_vm s x) -> made s' = made s ++ [r] ->
  g_vswitch s' = (if decide (d = Switch) then nodes else g_vswitch s) ->
  sock_connections s' = (if decide (d = Sock) then sockets else sock_connections s) ->
  (if decide (d = Con) then connected (console s') else console s' = console s) -> ready (ds ++ [d]) s'.
Proof using Type.
  intros (H1 & H2 & H3 & H4 & H4' & H5) Hd Hr Hsr Hv Hvs Hm Hg Hso Hcon. unfold ready. rewrite Hm, Hg, Hso.
  assert (forall x, x ∈ ds ++ [d] <-> x ∈ ds \/ d = x) as Hin
    by (intros x; rewrite elem_of_app, list_elem_of_singleton; naive_solver).
  split_and!.
  - rewrite map_app, H1. cbn. by rewrite Hr.
  - apply List.Forall_app. split; [done|]. by constructor.
  - intros x [Hx| <-]%Hin; [|done]. rewrite Hvs; [by apply H3|]. by intros ->.
  - destruct (decide (d = Switch)) as [->|Hc]; [by rewrite decide_True by (apply Hin; by right)|].
    rewrite H4. apply decide_ext. rewrite Hin. naive_solver.
  - destruct (decide (d = Sock)) as [->|Hc]; [by rewrite decide_True by (apply Hin; by right)|].
    rewrite H4'. apply decide_ext. rewrite Hin. naive_solver.
  - destruct (decide (d = Con)) as [->|Hc]; [rewrite decide_True by (apply Hin; by right); exact Hcon|].
    rewrite (decide_ext _ (Con ∈ ds)), Hcon by (rewrite Hin; naive_solver). done.
Qed.

Lemma net_sound d : (d = Eth \/ d = Switch) -> sound (reg_net d).
Proof using Type. by intros [-> | ->]. Qed.

(** The devices without a table of their own. *)
Lemma simple_ready ds d r s s' :
  ready ds s -> d ∉ ds -> rg_device r = d -> sound r -> d <> Switch -> d <> Con -> d <> Sock ->
  the_vm s' d = vm -> (forall x, x <> d -> the_vm s' x = the_vm s x) -> made s' = made s ++ [r] ->
  g_vswitch s' = g_vswitch s -> console s' = console s -> sock_connections s' = sock_connections s ->
  ready (ds ++ [d]) s'.
Proof using Type.
  intros Hs Hd Hr Hsr Hsw Hc Hk Hv Hvs Hm Hg Hcon Hso.
  apply (ready_add ds d r s); try done; by rewrite decide_False.
Qed.

Lemma make_ready ds d s : ready ds s -> d ∉ ds -> wp (make fuel vm d) (fun _ => ready (ds ++ [d])) s.
Proof using All.
  intros Hs Hd. destruct d; cbn [make].
  - apply wp_bind, wp_set_vm. intros s1 A1 A2 A3 A4 A5 A6. apply wp_bind, wp_common_make.
    intros p s2 Hp B1 B2 B3 B4 B5. apply wp_bind, wp_nonzero; [done|].
    apply wp_bind, (poll_until_run _ _ _ _ Hrx). intros r s3 _ _ (C1 & C2 & C3 & C4) C5. apply wp_ret.
    apply (simple_ready ds Eth (reg_net Eth) s); rewrite ?C1, ?C2, ?C3, ?C4, ?C5, ?B1, ?B2, ?B3, ?B4, ?B5, ?A6; done.
  - apply wp_bind, wp_set_vm. intros s1 A1 A2 A3 A4 A5 A6.
    apply wp_bind. eapply wp_mono; [apply make_vswitch_net_run|]. intros _ s2 [(F1 & F2 & F3 & F4) F5].
    apply wp_bind, wp_common_make. intros p s3 Hp B1 B2 B3 B4 B5. apply wp_nonzero; [done|].
    apply (ready_add ds Switch (reg_net Switch) s); rewrite ?B1, ?B2, ?B3, ?B4, ?B5, ?F1, ?F2, ?F3, ?F4, ?A4, ?A5, ?A6; try done.
    rewrite F5, A3, decide_True by done. destruct Hs as (_ & _ & _ & -> & _). by rewrite decide_False.
  - apply wp_bind, (poll_until_run _ _ _ _ Hdone). intros r s0 _ Hr (C1 & C2 & C3 & C4) C5.
    cbn in Hr. apply negb_true_iff in Hr. rewrite Z.eqb_sym, Hr.
    apply wp_bind, wp_set_vm. intros s1 A1 A2 A3 A4 A5 A6. apply wp_bind, wp_common_make.
    intros p s2 Hp B1 B2 B3 B4 B5. apply wp_nonzero; [done|].
    apply (simple_ready ds Blk reg_blk s); rewrite ?B1, ?B2, ?B3, ?B4, ?B5, ?A6, ?A5, ?A4, ?A3; try done; try congruence.
    intros x Hx. by rewrite A2, C1.
  - apply wp_bind, wp_assertC; [apply negb_true_iff, Z.ltb_ge, Hports|].
    apply wp_bind, wp_ask. intros cookie Hk%negb_true_iff%Z.eqb_neq. apply wp_bind, wp_nonzero; [done|].
    apply wp_bind, wp_set_vm. intros s1 A1 A2 A3 A4 A5 A6. apply wp_bind, wp_common_make.
    intros p s2 Hp B1 B2 B3 B4 B5. apply wp_bind, wp_set_vm. intros s3 C1 C2 C3 C4 C5 C6.
    apply wp_bind. assert (console s3 = console_bss pages) as Ec.
    { destruct Hs as (_ & _ & _ & _ & _ & Hs). rewrite decide_False in Hs by done. rewrite C4, B3, A4. exact Hs. }
    unfold on_console. eapply wp_zoom; [reflexivity|]. rewrite Ec.
    eapply wp_mono; [by apply setup_x86|]. intros _ c (D1 & D2 & D3). apply wp_nonzero; [done|].
    apply (ready_add ds Con (reg_con cookie) s); try done.
    + intros x Hx. cbn. by rewrite C2, B1, A2 by done.
    + cbn. rewrite C6, B5, A6. done.
    + cbn. rewrite C3, B2, A3. done.
    + cbn. rewrite C5, B4, A5. done.
  - apply wp_bind, wp_ask. intros cookie Hk%negb_true_iff%Z.eqb_neq. apply wp_bind, wp_nonzero; [done|].
    apply wp_bind, wp_set_vm. intros s1 A1 A2 A3 A4 A5 A6. apply wp_bind, wp_common_make.
    intros p s2 Hp B1 B2 B3 B4 B5. apply wp_bind, wp_nonzero; [done|]. apply wp_modify.
    apply (ready_add ds Sock (reg_sock cookie) s); cbn; rewrite ?B1, ?B2, ?B3, ?B4, ?B5, ?A6; done.
Qed.

Lemma make_all_ready ds0 ds s :
  NoDup (ds0 ++ ds) -> ready ds0 s -> wp (for_each ds (make fuel vm)) (fun _ => ready (ds0 ++ ds)) s.
Proof using All.
  revert ds0 s. induction ds as [|d ds IH]; intros ds0 s Hnd Hs; cbn [for_each].
  - apply wp_ret. by rewrite app_nil_r.
  - assert (d ∉ ds0) as Hd by (apply list.NoDup_app in Hnd as (_ & H & _); intros Hin; apply (H d Hin); left).
    apply wp_bind. eapply wp_mono; [by apply make_ready|]. intros u s1 H1.
    assert (ds0 ++ d :: ds = (ds0 ++ [d]) ++ ds) as Eq by by rewrite <-app_assoc.
    rewrite Eq in *. by apply IH.
Qed.

(** A registered device can raise its interrupt, in any state where the machines
    are still set. *)
Lemma raise_run r s : sound r -> the_vm s (rg_device r) <> 0 ->
  raise r s = Ok (tt, add_calls [VmInjectIrq (interrupt_line r)] s).
Proof using Type.
  intros (H1 & H2 & _ & _ & H3) Hr. unfold raise. rewrite H1, H2.
  destruct (rg_device r); cbn [line_of];
    unfold emul_raw_handle_irq, console_handle_irq, vsock_inject_irq, cookie_handle_irq;
    rewrite (bind_ok get _ _ _ _ eq_refl), ?(proj2 (Z.eqb_neq _ _) H3), (proj2 (Z.eqb_neq _ _) Hr); done.
Qed.

(** C34 -- The virtio devices' interrupts.  With libraries that work, whichever of
    the five set-up functions are configured, each at most once and in any order,
    they return and the emulation layer has the devices in that order; from then
    on, whenever it raises the interrupt of a device, the function it was given
    injects into the machine, once, the interrupt the device was registered
    with, as pin and as line.  Only the two kinds of network share an interrupt,
    none has one of the timer, the serial port or the clock, fixed ports are
    below those that are given out, and the console's connections are the
    configured ones, the vsock's those its set-up makes.  The set-up functions
    return provided that the Ethernet driver, drained of old frames, and the
    disk server, asked for its status, come to an end within the fuel. *)
Theorem x86_virtio_interrupts ds : vm <> 0 -> NoDup ds ->
  exists s, for_each ds (make fuel vm) (virtio_bss (console_bss pages)) = Ok (tt, s) /\
    map rg_device (made s) = ds /\
    Forall (fun r =>
      (forall s', the_vm s' = the_vm s -> raise r s' = Ok (tt, add_calls [VmInjectIrq (interrupt_line r)] s')) /\
      interrupt_pin r = interrupt_line r /\ interrupt_line r ∉ [TIMER_IRQ; TTYS0_IRQ; RTC_IRQ] /\
      (io_fixed r = true -> io_end r <= FREE_IOPORT_START)) (made s) /\
    (forall r r', r ∈ made s -> r' ∈ made s -> interrupt_line r = interrupt_line r' ->
       rg_device r = rg_device r' \/ (rg_device r ∈ [Eth; Switch] /\ rg_device r' ∈ [Eth; Switch])) /\
    (Con ∈ ds -> connected (console s)) /\ (Sock ∈ ds -> sock_connections s = sockets).
Proof using All.
  intros Hvm Hnd. assert (ready [] (virtio_bss (console_bss pages))) as H0.
  { split_and!; try done. intros d Hd. by apply not_elem_of_nil in Hd. }
  pose proof (make_all_ready [] ds _ Hnd H0) as Hw. apply wp_ok in Hw as ([] & s & Es & H1 & H2 & H3 & _ & H4 & H5).
  cbn [app] in *. exists s. split; [exact Es|]. split; [exact H1|]. split_and!.
  - rewrite List.Forall_forall in *. intros r Hr. pose proof (H2 r Hr) as Hsr.
    assert (rg_device r ∈ ds) as Hin by (rewrite <-H1; apply list_elem_of_In, in_map_iff; by exists r).
    split; [|pose proof Hsr as (_ & -> & -> & Hf & _); split; [done|split; [|done]]].
    + intros s' Hs'. apply raise_run; [done|]. by rewrite Hs', (H3 _ Hin).
    + rewrite !elem_of_cons, elem_of_nil. destruct (rg_device r); intuition discriminate.
  - rewrite List.Forall_forall in H2. intros r r' (_ & -> & _)%list_elem_of_In%H2 (_ & -> & _)%list_elem_of_In%H2.
    destruct (rg_device r), (rg_device r'); intros Hl; try discriminate Hl; (by left) || (right; rewrite !elem_of_cons; tauto).
  - intros Hc. by rewrite decide_True in H5.
  - intros Hc. by rewrite decide_True in H4.
Qed.

Lemma same_queue (l : list (list Z * Z)) a q q' : NoDup (map fst l) -> (a, q) ∈ l -> (a, q') ∈ l -> q = q'.
Proof using Type.
  induction l as [|[b r] l IH]; intros Hnd Hq Hq'; [by apply elem_of_nil in Hq|].
  cbn in Hnd. apply list.NoDup_cons in Hnd as [Hb Hnd]. apply elem_of_cons in Hq, Hq'.
  assert (forall x, (b, x) ∈ l -> False) as Hn.
  { intros x Hx. apply Hb, list_elem_of_In, in_map_iff. exists (b, x). split; [done|by apply list_elem_of_In]. }
  destruct Hq as [[= <- <-]|Hq], Hq' as [E'|Hq']; [by injection E'|by destruct (Hn q')|injection E' as -> ->; by destruct (Hn q)|].
  by apply IH.
Qed.

(** The virtual switch is connected as configured.  With libraries that work
    and addresses that can be read, the switch has the configured nodes in their
    order, each with the queues configured for it; and then, provided that the
    switch's library keeps what was connected and the addresses differ, a frame
    the guest sends to the address of a node goes to the queue configured for
    that node and nowhere else, with a notification. *)
Lemma x86_vswitch_configured {V : Vswitch} {L : VswitchLaws V} ds :
  NoDup ds -> Switch ∈ ds ->
  exists s, for_each ds (make fuel vm) (virtio_bss (console_bss pages)) = Ok (tt, s) /\
    mapM node_of vswitch_layout = Some (g_vswitch s) /\
    (vs_nodes = map (fun n => (n_mac n, n_send n)) (g_vswitch s) -> NoDup (map n_mac (g_vswitch s)) ->
     (forall l q f, 0 <= scatter_send_buffer l q f) ->
     forall n f l, n ∈ g_vswitch s -> destaddr f = n_mac n -> is_group (n_mac n) = false ->
     emul_raw_tx [f] l = Ok (ETHIF_TX_COMPLETE, l ++ [SendBuffer (n_send n) f; NotifyQueue (n_send n)])).
Proof using All.
  intros Hnd Hsw. assert (ready [] (virtio_bss (console_bss pages))) as H0.
  { split_and!; try done. intros d Hd. by apply not_elem_of_nil in Hd. }
  pose proof (make_all_ready [] ds _ Hnd H0) as Hw. apply wp_ok in Hw as ([] & s & Es & _ & _ & _ & H4 & _).
  cbn [app] in *. rewrite decide_True in H4 by done. exists s. split; [exact Es|]. rewrite H4. split; [exact Hnodes|].
  intros Hvs Hmacs Hok n f l Hn Hf Hg.
  assert (In (n_mac n, n_send n) vs_nodes) as Hin
    by (rewrite Hvs; apply in_map_iff; exists n; split; [done|by apply list_elem_of_In]).
  assert (0 <= vswitch_get_destnode_index_by_macaddr (n_mac n)) as Hi.
  { destruct (Z.le_gt_cases 0 (vswitch_get_destnode_index_by_macaddr (n_mac n))) as [|Hlt]; [done|].
    destruct (by_macaddr_none _ Hlt). apply in_map_iff. by exists (n_mac n, n_send n). }
  unfold emul_raw_tx. cbn [for_until].
  rewrite (bind_ok _ _ l false (l ++ [SendBuffer (n_send n) f; NotifyQueue (n_send n)])); [done|].
  erewrite bind_ok; [|apply send_frame_all; [right; by rewrite Hf|done]].
  unfold delivered, target_queues. rewrite Hf, Hg.
  destruct (by_macaddr_some _ Hi) as (_ & q & Eq). rewrite Eq.
  assert (q = n_send n) as -> by (eapply (same_queue (map (fun n => (n_mac n, n_send n)) nodes));
    [by rewrite map_map|rewrite <-Hvs; by eapply list_elem_of_lookup_2|by rewrite <-Hvs; apply list_elem_of_In]).
  done.
Qed.

End Setup.

(** * What the set-up does not check *)

Section Unchecked.
Context {VQ : VirtQueue} {E : VirtioEnv} {CE : ConsoleEnv} {SE : SockEnv}.

(** The guest gets its network device even when the switch cannot be set up:
    nobody is connected to it, and the VMM goes on. *)
Lemma vswitch_failure_ignored vm s :
  g_vswitch s = [] -> (forall l, virtio_reply (l ++ [VswitchInit]) <> 0) ->
  (forall l r, virtio_reply (l ++ [CommonMake r]) <> 0) ->
  exists s', make_virtio_net_vswitch vm s = Ok (tt, s') /\ made s' = made s ++ [reg_net Switch] /\ g_vswitch s' = [].
Proof using Type.
  intros Hg Hi Hm. unfold make_virtio_net_vswitch. rewrite (bind_ok (set_vm _ _) _ _ _ _ eq_refl).
  set (s1 := _ <| the_vm := _ |>). set (s2 := add_calls [VswitchInit] s1).
  assert (make_vswitch_net s1 = Ok (tt, s2)) as E1.
  { unfold make_vswitch_net. rewrite (bind_ok (ask _) _ _ _ _ eq_refl). change (reply _) with (virtio_reply (v_calls s1 ++ [VswitchInit])).
    unfold z2b. by rewrite (proj2 (Z.eqb_neq _ _) (Hi _)). }
  rewrite (bind_ok _ _ _ _ _ E1). unfold common_make.
  assert ((virtio_reply (v_calls s2 ++ [CommonMake (reg_net Switch)]) =? 0) = false) as Hp by apply Z.eqb_neq, Hm.
  set (s3 := add_calls [CommonMake (reg_net Switch)] s2). set (s4 := s3 <| made := made s3 ++ [reg_net Switch] |>).
  exists s4. split; [|done].
  rewrite (bind_ok _ _ _ (virtio_reply (v_calls s2 ++ [CommonMake (reg_net Switch)])) s4); [by rewrite Hp|].
  rewrite (bind_ok (ask _) _ _ _ _ eq_refl). change (reply _) with (virtio_reply (v_calls s2 ++ [CommonMake (reg_net Switch)])).
  by rewrite Hp.
Qed.

(** An interrupt raised before the machine is set is lost by the console and the
    vsock, which look for it, and is a null pointer for the others. *)
Lemma early_interrupt d cookie s : the_vm s d = 0 ->
  match d with
  | Con => console_handle_irq cookie s = Ok (tt, s)
  | Sock => vsock_inject_irq cookie s = Ok (tt, s)
  | _ => emul_raw_handle_irq d (line_of d) s = Fault NullDeref
  end.
Proof using Type.
  intros Hd. destruct d; unfold emul_raw_handle_irq, console_handle_irq, vsock_inject_irq, cookie_handle_irq;
    rewrite (bind_ok get _ _ _ _ eq_refl), Hd; [done..| |]; by rewrite orb_true_r.
Qed.

End Unchecked.

(** * Witnesses *)

(** Libraries that work, a driver with two old frames, a disk server that is
    done at the third reading of its status. *)
Definition times (p : virtio_call -> bool) (l : list virtio_call) : nat := length (List.filter p l).
Definition is_rx (c : virtio_call) : bool := match c with EthdriverRx => true | _ => false end.
Definition is_status (c : virtio_call) : bool := match c with SataStatus => true | _ => false end.
#[local] Instance virtio_demo : VirtioEnv := {|
  virtio_reply l :=
    match list.last l with
    | Some (Calloc _ | CommonMake _ | MallocQueue) => 1
    | Some EthdriverRx => if (times is_rx l <=? 2)%nat then 1 else -1
    | Some SataStatus => if (times is_status l <=? 2)%nat then SATASERVER_STATUS_NOT_DONE else SATASERVER_STATUS_GOOD
    | _ => 0
    end;
  ether_aton_r a := Some a;
  vswitch_mac_address := [2; 0; 0; 0; 0; 3];
  vswitch_layout := [mkMapping [2; 0; 0; 0; 0; 1] 21 11; mkMapping [2; 0; 0; 0; 0; 2] 22 12];
  ethdriver_mac := [2; 0; 0; 0; 0; 4];
  VIRTIO_CON_MAX_PORTS := 4;
  ZF_LOGF_aborts := true |}.
#[local] Instance sock_demo : @SockEnv list_queue := {|
  sock_calloc _ := true; sock_driver_init id := Some ([], []); sock_device_init id := Some ([], []);
  socket_layout := [mkSocket 3 11 12] |}.

Lemma virtio_demo_all : all_succeed.
Proof. intros l c. cbn. rewrite last_snoc. destruct c; try done. by destruct (_ <=? 2)%nat. Qed.

Lemma times_after p l c : p c = true -> times p (l ++ replicate 2 c ++ [c]) = (times p l + 3)%nat.
Proof. intros Hc. unfold times. rewrite List.filter_app, length_app. cbn. by rewrite Hc. Qed.
Lemma demo_rx : ends 2 EthdriverRx (fun status => status =? -1).
Proof.
  intros l. exists 2%nat. split; [done|]. cbn [virtio_reply virtio_demo].
  rewrite times_after by done. rewrite app_assoc, last_snoc. destruct (Nat.leb_spec (times is_rx l + 3) 2); [lia|done].
Qed.
Lemma demo_done : ends 2 SataStatus (fun status => negb (SATASERVER_STATUS_NOT_DONE =? status)).
Proof.
  intros l. exists 2%nat. split; [done|]. cbn [virtio_reply virtio_demo].
  rewrite (times_after is_status) by done. rewrite app_assoc, last_snoc. destruct (Nat.leb_spec (times is_status l + 3) 2); [lia|done].
Qed.

Definition demo_nodes : list vswitch_node := [mkNode [2; 0; 0; 0; 0; 1] 11 21; mkNode [2; 0; 0; 0; 0; 2] 12 22].

Lemma demo_channels : @channels_ok console_env_demo (fun p => is_Some (pages_demo !! p)).
Proof.
  repeat (apply List.Forall_cons; [do 2 eexists; split_and!; [reflexivity|reflexivity|by eexists; vm_compute|by eexists; vm_compute]|]).
  apply List.Forall_nil.
Qed.

Lemma x86_virtio_interrupts_witness :
  exists s, for_each [Con; Switch; Sock; Blk; Eth] (@make list_queue virtio_demo console_env_demo sock_demo 2 7)
      (virtio_bss (@console_bss console_env_demo pages_demo)) = Ok (tt, s) /\
    map rg_device (made s) = [Con; Switch; Sock; Blk; Eth].
Proof.
  destruct (@x86_virtio_interrupts list_queue virtio_demo console_env_demo sock_demo virtio_demo_all 2 7 demo_nodes
    eq_refl pages_demo pages_demo_sized ltac:(vm_compute; discriminate) demo_channels demo_rx demo_done
    [Con; Switch; Sock; Blk; Eth]) as (s & E1 & E2 & _).
  - discriminate.
  - repeat (apply list.NoDup_cons; split; [rewrite ?elem_of_cons, ?elem_of_nil; intuition discriminate|]). apply NoDup_nil_2.
  - exists s. exact (conj E1 E2).
Defined.

Lemma x86_vswitch_configured_witness :
  exists s, for_each [Con; Switch] (@make list_queue virtio_demo console_env_demo sock_demo 2 7)
      (virtio_bss (@console_bss console_env_demo pages_demo)) = Ok (tt, s) /\
    @emul_raw_tx vswitch_demo [unicast] [] = Ok (ETHIF_TX_COMPLETE, [SendBuffer 12 unicast; NotifyQueue 12]).
Proof.
  destruct (@x86_vswitch_configured list_queue virtio_demo console_env_demo sock_demo virtio_demo_all 2 7 demo_nodes
    eq_refl pages_demo pages_demo_sized ltac:(vm_compute; discriminate) demo_channels demo_rx demo_done
    vswitch_demo vswitch_demo_laws [Con; Switch])
    as (s & E1 & E2 & E3).
  - repeat (apply list.NoDup_cons; split; [rewrite ?elem_of_cons, ?elem_of_nil; intuition discriminate|]). apply NoDup_nil_2.
  - apply list_elem_of_further, list_elem_of_here.
  - exists s. split; [exact E1|]. injection E2 as E2.
    apply (E3 ltac:(by rewrite <-E2)) with (n := mkNode [2; 0; 0; 0; 0; 2] 12 22) (l := []).
    + rewrite <-E2. repeat (apply list.NoDup_cons; split; [rewrite ?elem_of_cons, ?elem_of_nil; intuition discriminate|]). apply NoDup_nil_2.
    + intros. cbn. lia.
    + rewrite <-E2. apply list_elem_of_further, list_elem_of_here.
    + reflexivity.
    + reflexivity.
Defined.
