(* ===== verification/Assembly.v ===== *)
(** How the components are put together: the macros of
    components/VM/configurations/vm.h and sata.h, which an application's assembly
    expands once per VM.  The ARM ones are in AssemblyArm.

    A CAmkES description is data here: the interfaces of the component that runs
    a VM, the instances, the connections and the settings.  The preprocessor is
    the functions the macros are; pasting an argument is appending its text. *)

From Stdlib Require Import DecimalString DecimalN.
From stdpp Require Import strings.
From S2P Require Import Prelude.

Open Scope Z_scope.

(** * The preprocessor *)

(** The text of a numeric argument. *)
Definition text (n : N) : string := NilEmpty.string_of_uint (N.to_uint n).

(** Macros that call another for each of their arguments.  A token is an
    argument or one of the numbers of [__CALL_NARGS_FROM]; [None] stands for a
    macro that does not exist or gets the wrong number of arguments. *)
Section Call.
Context {A B : Type}.

(** [__CALL_NARGS_X(a,b,c,d,e,f,g,h,n,...) n] *)
Definition __CALL_NARGS_X (args : list (A + nat)) : option (A + nat) := args !! 8%nat.
Definition __CALL_NARGS_FROM1 (args : list A) : option (A + nat) :=
  __CALL_NARGS_X (map inl args ++ map inr [8; 7; 6; 5; 4; 3; 2; 1]%nat).
Definition __CALL_NARGS_FROM0 (args : list A) : option (A + nat) :=
  __CALL_NARGS_X (map inl args ++ map inr [7; 6; 5; 4; 3; 2; 1; 0]%nat).

(** [__CALL1], [__CALL2], .. up to [limit]: 4 in connections.h, 8 on ARM. *)
Definition __CALLn (limit k : nat) (f : A -> list B) (args : list A) : option (list B) :=
  if ((0 <? k) && (k <=? limit) && (length args =? k))%nat then Some (concat (map f args)) else None.
Definition __CALL (limit : nat) (f : A -> list B) (args : list A) : option (list B) :=
  match __CALL_NARGS_FROM1 args with Some (inr k) => __CALLn limit k f args | _ => None end.

(** The two kinds that pass their first argument to each call. *)
Definition __CALL_SINGLE (limit : nat) (f : A -> A -> list B) (p : A) (args : list A) : option (list B) :=
  match __CALL_NARGS_FROM0 (p :: args) with Some (inr k) => __CALLn limit k (f p) args | _ => None end.
Definition __CALL_NUMn (limit k : nat) (f : A -> A -> Z -> list B) (p : A) (args : list A) : option (list B) :=
  if ((0 <? k) && (k <=? limit) && (length args =? k))%nat
  then Some (concat (map (fun x => f p (snd x) (Z.of_nat (fst x))) (zip (seq 0 k) args))) else None.
Definition __CALL_NUM (limit : nat) (f : A -> A -> Z -> list B) (p : A) (args : list A) : option (list B) :=
  match __CALL_NARGS_FROM0 (p :: args) with Some (inr k) => __CALL_NUMn limit k f p args | _ => None end.

(** The number of arguments is counted right up to eight. *)
Lemma nargs_from1 args : (1 <= length args <= 8)%nat -> __CALL_NARGS_FROM1 args = Some (inr (length args)).
Proof. intros H. do 9 (destruct args as [|? args]; [cbn in *; (lia || done)|]). cbn in H. lia. Qed.
Lemma nargs_from0 p args : (length args <= 7)%nat -> __CALL_NARGS_FROM0 (p :: args) = Some (inr (length args)).
Proof. intros H. do 8 (destruct args as [|? args]; [done|]). cbn in H. lia. Qed.
Lemma nargs_many args : (8 < length args)%nat -> exists a, __CALL_NARGS_FROM1 args = Some (inl a).
Proof.
  intros H. do 9 (destruct args as [|? args]; [cbn in *; lia|]). by eexists.
Qed.
Lemma nargs_many0 p args : (7 < length args)%nat -> exists a, __CALL_NARGS_FROM0 (p :: args) = Some (inl a).
Proof.
  intros H. do 8 (destruct args as [|? args]; [cbn in *; lia|]). by eexists.
Qed.

Lemma CALLn_spec limit f args : (1 <= length args <= limit)%nat ->
  __CALLn limit (length args) f args = Some (concat (map f args)).
Proof.
  intros H. unfold __CALLn. rewrite (proj2 (Nat.ltb_lt _ _)), (proj2 (Nat.leb_le _ _)), Nat.eqb_refl by lia. done.
Qed.
Lemma CALLn_over limit k f args : (limit < k)%nat -> __CALLn limit k f args = None.
Proof.
  intros H. unfold __CALLn. rewrite (proj2 (Nat.leb_gt k limit)) by done. by rewrite andb_false_r.
Qed.

(** The macro is called for each argument, in order, and there is no macro for
    more than [limit]. *)
Lemma CALL_spec limit f args : (1 <= length args <= limit)%nat -> (limit <= 8)%nat ->
  __CALL limit f args = Some (concat (map f args)).
Proof. intros H Hl. unfold __CALL. rewrite nargs_from1 by lia. by apply CALLn_spec. Qed.
Lemma CALL_over limit f args : (limit < length args)%nat -> (limit <= 8)%nat -> __CALL limit f args = None.
Proof.
  intros H Hl. unfold __CALL. destruct (Nat.le_gt_cases (length args) 8).
  - rewrite nargs_from1 by lia. by apply CALLn_over.
  - by destruct (nargs_many args) as [a ->].
Qed.
Lemma CALL_SINGLE_spec limit f p args : (1 <= length args <= limit)%nat -> (limit <= 7)%nat ->
  __CALL_SINGLE limit f p args = Some (concat (map (f p) args)).
Proof. intros H Hl. unfold __CALL_SINGLE. rewrite nargs_from0 by lia. by apply CALLn_spec. Qed.
Lemma CALL_SINGLE_over limit f p args : (limit < length args)%nat -> (limit <= 7)%nat ->
  __CALL_SINGLE limit f p args = None.
Proof.
  intros H Hl. unfold __CALL_SINGLE. destruct (Nat.le_gt_cases (length args) 7).
  - rewrite nargs_from0 by lia. by apply CALLn_over.
  - by destruct (nargs_many0 p args) as [a ->].
Qed.
Lemma CALL_NUM_spec limit f p args : (1 <= length args <= limit)%nat -> (limit <= 7)%nat ->
  __CALL_NUM limit f p args =
  Some (concat (map (fun x => f p (snd x) (Z.of_nat (fst x))) (zip (seq 0 (length args)) args))).
Proof.
  intros H Hl. unfold __CALL_NUM. rewrite nargs_from0 by lia. unfold __CALL_NUMn.
  rewrite (proj2 (Nat.ltb_lt _ _)), (proj2 (Nat.leb_le _ _)), Nat.eqb_refl by lia. done.
Qed.

End Call.

(** * Names *)

Definition is_digit (c : Ascii.ascii) : bool :=
  let n := Ascii.nat_of_ascii c in ((48 <=? n) && (n <=? 57))%nat.
Arguments is_digit : simpl never.
Fixpoint all_chars (p : Ascii.ascii -> bool) (s : string) : bool :=
  match s with EmptyString => true | String c s => p c && all_chars p s end.

Lemma digits_uint u : all_chars is_digit (NilEmpty.string_of_uint u) = true.
Proof. by induction u. Qed.
Lemma text_digits n : all_chars is_digit (text n) = true.
Proof. apply digits_uint. Qed.
Lemma text_nonempty n : text n <> EmptyString.
Proof.
  unfold text. intros E. assert (N.to_uint n = Decimal.Nil) as E'.
  { apply (f_equal NilEmpty.uint_of_string) in E. rewrite NilEmpty.usu in E. cbn in E. by injection E. }
  by destruct n as [|p]; cbn in E'; [|destruct (DecimalPos.Unsigned.to_uint_nonnil p)].
Qed.

(** A number is known from its text. *)
#[export] Instance text_inj : Inj (=) (=) text.
Proof.
  intros m n E. apply (f_equal NilEmpty.uint_of_string) in E. unfold text in E. rewrite !NilEmpty.usu in E.
  injection E as E. apply (f_equal N.of_uint) in E. by rewrite !DecimalN.Unsigned.of_to in E.
Qed.

(** Where the digits of a name end is known. *)
Definition starts_other (p : Ascii.ascii -> bool) (s : string) : Prop :=
  match s with EmptyString => True | String c _ => p c = false end.
Lemma cut_unique p a b s t :
  all_chars p a = true -> all_chars p b = true -> starts_other p s -> starts_other p t ->
  a +:+ s = b +:+ t -> a = b /\ s = t.
Proof.
  revert b. induction a as [|c a IH]; intros [|d b] Ha Hb Hs Ht E; cbn in *.
  - done.
  - change (s = String d (b +:+ t)) in E. rewrite E in Hs. cbn in Hs. by rewrite Hs in Hb.
  - change (String c (a +:+ s) = t) in E. rewrite <-E in Ht. cbn in Ht. by rewrite Ht in Ha.
  - injection E as -> E. apply andb_true_iff in Ha as [_ Ha], Hb as [_ Hb].
    by destruct (IH b Ha Hb Hs Ht E) as [-> ->].
Qed.

(** A name made by pasting a number between two words. *)
Definition word (s : string) : bool := all_chars (fun c => negb (is_digit c)) s.
Definition paste (a : string) (n : N) (z : string) : string := a +:+ text n +:+ z.

Lemma word_starts s : word s = true -> starts_other is_digit s.
Proof. destruct s as [|c s]; [done|]. cbn. intros [H%negb_true_iff _]%andb_true_iff. done. Qed.
Lemma text_starts n s : starts_other (fun c => negb (is_digit c)) (text n +:+ s).
Proof.
  pose proof (text_digits n) as H. pose proof (text_nonempty n). destruct (text n) as [|c t]; [done|].
  cbn in H. apply andb_true_iff in H as [H _]. change (negb (is_digit c) = false). by rewrite H.
Qed.

Lemma paste_inj a b m n y z :
  word a = true -> word b = true -> starts_other is_digit y -> starts_other is_digit z ->
  paste a m y = paste b n z -> a = b /\ m = n /\ y = z.
Proof.
  intros Ha Hb Hy Hz E. apply (cut_unique (fun c => negb (is_digit c))) in E as [-> E]; [|done|done|apply text_starts..].
  apply (cut_unique is_digit) in E as [E ->]; [|apply text_digits..|done|done]. by apply text_inj in E.
Qed.
Lemma str_app_assoc a b c : (a +:+ b) +:+ c = a +:+ b +:+ c.
Proof. induction a as [|x a IH]; [done|]. change (String x ((a +:+ b) +:+ c) = String x (a +:+ b +:+ c)). by rewrite IH. Qed.
(** A word has no number in it. *)
Lemma paste_not_word a n z b : word b = true -> paste a n z <> b.
Proof.
  intros Hb <-. unfold paste, word in Hb. induction a as [|c a IH].
  - pose proof (text_digits n) as Hd. pose proof (text_nonempty n). destruct (text n) as [|c t]; [done|].
    cbn in Hd. apply andb_true_iff in Hd as [Hd _].
    change (negb (is_digit c) && word (t +:+ z) = true) in Hb. by rewrite Hd in Hb.
  - change (negb (is_digit c) && word (a +:+ text n +:+ z) = true) in Hb.
    apply IH. by apply andb_true_iff in Hb as [_ Hb].
Qed.

(** * Descriptions *)

(** Values of attributes; a dictionary is its entries. *)
Inductive value :=
| VInt (z : Z)
| VString (s : string)
| VBool (b : bool)
| VList (l : list value)
| VDict (l : list (string * value)).

(** What a component declares.  [Maybe] interfaces need not be connected. *)
Inductive role := Uses | Provides | Consumes | Emits | Dataport | Has.
Record interface := mkItf { i_maybe : bool; i_role : role; i_type : string; i_name : string }.
(** A field of a structured attribute has the attribute's name before its own. *)
Record attribute := mkAttr { a_type : string; a_name : string; a_default : option value }.

Inductive side := From | To.
#[export] Instance side_eq_dec : EqDecision side.
Proof. solve_decision. Defined.
(** One end of a connection: the instance and its interface. *)
Definition conn_end : Type := side * (string * string).
Record connection := mkConn { c_type : string; c_name : string; c_ends : list conn_end }.
Record instance := mkInst { n_type : string; n_name : string }.
Record setting := mkSetting { s_inst : string; s_attr : string; s_value : value }.

(** The name an application gives to a VM. *)
Definition vm (num : N) : string := paste "vm" num "".

(** [from a, to b] *)
Definition from_to (a b : string * string) : list conn_end := [(From, a); (To, b)].

(** * x86: components/VM/configurations/vm.h *)

Module X86.
Open Scope string_scope.

Definition VM_INIT_DEF : list interface := [
  mkItf false Uses "PutChar" "putchar";
  mkItf false Uses "PutChar" "guest_putchar";
  mkItf false Uses "PCIConfig" "pci_config";
  mkItf false Uses "RTC" "system_rtc";
  mkItf false Consumes "HaveInterrupt" "intready";
  mkItf false Emits "HaveInterrupt" "intready_connector";
  mkItf false Uses "Timer" "init_timer";
  mkItf false Uses "FileServerInterface" "fs";
  mkItf false Uses "GetChar" "serial_getchar" ].

Definition VM_INIT_DEF_attributes : list attribute := [
  mkAttr "string" "kernel_cmdline" None;
  mkAttr "string" "kernel_image" None;
  mkAttr "string" "kernel_relocs" None;
  mkAttr "string" "initrd_image" None;
  mkAttr "int" "iospace_domain" None;
  mkAttr "int" "guest_ram_mb" None;
  mkAttr "int" "cnode_size_bits" (Some (VInt 21));
  mkAttr "vswitch_mapping[]" "vswitch_layout" (Some (VList []));
  mkAttr "string" "vswitch_mac_address" (Some (VString ""));
  mkAttr "struct[]" "serial_layout" (Some (VList []));
  mkAttr "struct[]" "socket_layout" (Some (VList []));
  mkAttr "int" "guest_cid" (Some (VInt 0)) ].

Definition VM_PER_VM_COMPONENTS (num : N) : list instance := [mkInst (paste "Init" num "") (vm num)].

Definition VM_PER_VM_CONNECTIONS (num : N) : list connection := [
  mkConn "seL4GlobalAsynch" (paste "intreadycon" num "") (from_to (vm num, "intready_connector") (vm num, "intready"));
  mkConn "seL4RPCDataport" (paste "fs" num "") (from_to (vm num, "fs") ("fserv", "fs_ctrl"));
  mkConn "seL4RPCCall" (paste "serial_vm" num "") (from_to (vm num, "putchar") ("serial", "processed_putchar"));
  mkConn "seL4RPCCall" (paste "serial_guest_vm" num "") (from_to (vm num, "guest_putchar") ("serial", "raw_putchar"));
  mkConn "seL4SerialServer" (paste "serial_input" num "") (from_to (vm num, "serial_getchar") ("serial", "getchar"));
  mkConn "seL4RPCCall" (paste "rtctest" num "") (from_to (vm num, "system_rtc") ("rtc", "rtc"));
  mkConn "seL4TimeServer" (paste "pit" num "_timer") (from_to (vm num, "init_timer") ("time_server", "the_timer"));
  mkConn "seL4RPCCall" (paste "pciconfig" num "") (from_to (vm num, "pci_config") ("pci_config", "pci_config")) ].

(** The badges of a VM's own connections: bits of the mask, and the base. *)
Definition global_endpoint_mask : Z := 0x1fffffff .& .~ 0x1fffe.
Definition global_endpoint_base : Z := 1 .<< 27.

Definition VM_PER_VM_CONFIG_DEF (num : N) : list setting := [
  mkSetting (vm num) "fs_shmem_size" (VInt 0x1000);
  mkSetting (vm num) "serial_getchar_attributes" (VString (text num));
  mkSetting (vm num) "serial_getchar_shmem_size" (VInt 0x1000);
  mkSetting (vm num) "simple" (VBool true);
  mkSetting (vm num) "asid_pool" (VBool true);
  mkSetting (vm num) "global_endpoint_mask" (VInt global_endpoint_mask);
  mkSetting (vm num) "global_endpoint_base" (VInt global_endpoint_base) ].

Definition VM_COMPOSITION_DEF_instances : list instance := [
  mkInst "FileServer" "fserv"; mkInst "SerialServer" "serial"; mkInst "PCIConfigIO" "pci_config";
  mkInst "TimeServer" "time_server"; mkInst "RTC" "rtc" ].
Definition VM_COMPOSITION_DEF : list connection := [
  mkConn "seL4RPCCall" "serial_pci_config" (from_to ("pci_config", "putchar") ("serial", "processed_putchar"));
  mkConn "seL4RPCCall" "serial_time_server" (from_to ("time_server", "putchar") ("serial", "processed_putchar"));
  mkConn "seL4RPCCall" "serial_rtc" (from_to ("rtc", "putchar") ("serial", "processed_putchar"));
  mkConn "seL4TimeServer" "serialserver_timer" (from_to ("serial", "timeout") ("time_server", "the_timer")) ].

Definition VM_CONFIGURATION_DEF : list setting := [
  mkSetting "fserv" "heap_size" (VInt 0x30000);
  mkSetting "time_server" "timers_per_client" (VInt 12);
  mkSetting "time_server" "priority" (VInt 255);
  mkSetting "time_server" "simple_extra_bootinfo" (VList [VString "SEL4_BOOTINFO_HEADER_X86_TSC_FREQ"]);
  mkSetting "time_server" "simple" (VBool true);
  mkSetting "serial" "serial_irq_priority" (VInt 200) ].

(** sata.h: what a VM with a disk adds. *)
Definition VM_INIT_SATA : list interface := [
  mkItf false Has "mutex" "virtio_blk_mutex";
  mkItf false Uses "SataserverInterface" "sataserver_iface" ].
Definition SATA_COMPOSITION_DEF_instances : list instance := [mkInst "Sataserver" "sataserver"].
Definition SATA_COMPOSITION_DEF : list connection := [
  mkConn "seL4RPCCall" "sata_serial" (from_to ("sataserver", "putchar") ("serial", "processed_putchar"))].
Definition VM_SATA_CONNECTIONS (num : N) : list connection := [
  mkConn "seL4Sataserver" (paste "sataservercon" num "")
    (from_to (vm num, "sataserver_iface") ("sataserver", "client"))].
Definition VM_SATA_CONFIG : list setting := [
  mkSetting "sataserver" "simple" (VBool true);
  mkSetting "sataserver" "cnode_size_bits" (VInt 16);
  mkSetting "sataserver" "simple_untyped23_pool" (VInt 2);
  mkSetting "sataserver" "heap_size" (VInt 0x30000);
  mkSetting "sataserver" "dma_pool" (VInt 0x20000);
  mkSetting "sataserver" "putchar_attributes" (VInt 0) ].

(** An assembly with the given VMs; those in [disks] have the disk. *)
Definition instances (ids : list N) : list instance :=
  VM_COMPOSITION_DEF_instances ++ SATA_COMPOSITION_DEF_instances ++ concat (map VM_PER_VM_COMPONENTS ids).
Definition connections (ids disks : list N) : list connection :=
  VM_COMPOSITION_DEF ++ SATA_COMPOSITION_DEF ++ concat (map VM_PER_VM_CONNECTIONS ids) ++
  concat (map VM_SATA_CONNECTIONS disks).
Definition settings (ids : list N) : list setting :=
  VM_CONFIGURATION_DEF ++ VM_SATA_CONFIG ++ concat (map VM_PER_VM_CONFIG_DEF ids).
Definition interfaces (disk : bool) : list interface :=
  VM_INIT_DEF ++ (if disk then VM_INIT_SATA else []).

End X86.

(** * Nothing is left unconnected *)

(** The end at which an interface has to be connected, if it has to. *)
Definition needed (i : interface) : option (side * string) :=
  if i_maybe i then None
  else match i_role i with
       | Uses | Emits => Some (From, i_name i)
       | Consumes => Some (To, i_name i)
       | Provides | Dataport | Has => None
       end.

(** The interfaces of an instance that connections end at. *)
Definition end_at (inst : string) (e : conn_end) : list (side * string) :=
  if decide (fst (snd e) = inst) then [(fst e, snd (snd e))] else [].
Definition ends_at (inst : string) (l : list connection) : list (side * string) :=
  concat (map (end_at inst) (concat (map c_ends l))).

Lemma ends_at_app inst l l' : ends_at inst (l ++ l') = ends_at inst l ++ ends_at inst l'.
Proof. unfold ends_at. by rewrite map_app, concat_app, map_app, concat_app. Qed.

Lemma vm_inj m n : vm m = vm n -> m = n.
Proof. intros E. by apply paste_inj in E as (_ & ? & _). Qed.
Lemma end_at_word inst s w j : word w = true -> end_at (vm j) (s, (w, inst)) = [].
Proof. intros Hw. unfold end_at. cbn. rewrite decide_False; [done|]. intros E. by apply (paste_not_word "vm" j "" w). Qed.
Lemma end_at_vm inst s i j :
  end_at (vm j) (s, (vm i, inst)) = if decide (i = j) then [(s, inst)] else [].
Proof.
  unfold end_at. cbn. destruct (decide (i = j)) as [->|Hn]; [by rewrite decide_True|].
  rewrite decide_False; [done|]. by intros E%vm_inj.
Qed.

(** The ends at a VM of connections made once per VM. *)
Lemma ends_per_vm (g : N -> list connection) l ids i : NoDup ids ->
  (forall j, ends_at (vm i) (g j) = if decide (j = i) then l else []) ->
  ends_at (vm i) (concat (map g ids)) = if decide (i ∈ ids) then l else [].
Proof.
  intros Hnd Hg. induction ids as [|j ids IH]; [done|]. apply list.NoDup_cons in Hnd as [Hj Hnd].
  cbn [map concat]. rewrite ends_at_app, Hg, IH by done. clear Hg IH.
  destruct (decide (j = i)) as [->|Hn].
  - rewrite (decide_False (P := i ∈ ids)) by done. rewrite decide_True by apply list_elem_of_here. apply app_nil_r.
  - cbn [app]. apply decide_ext. rewrite elem_of_cons. split; [by right|]. by intros [->|].
Qed.

(** Names that are pasted from their parts, and names that have no number. *)
Definition shaped (shapes : list (string * string)) (ids : list N) : list (string * N * string) :=
  concat (map (fun n => map (fun s => (fst s, n, snd s)) shapes) ids).
Definition paste3 (x : string * N * string) : string := paste (fst (fst x)) (snd (fst x)) (snd x).
Definition shape_ok (s : string * string) : bool := word (fst s) && word (snd s).

Lemma in_shaped x shapes ids : x ∈ shaped shapes ids <-> (fst (fst x), snd x) ∈ shapes /\ snd (fst x) ∈ ids.
Proof.
  unfold shaped. rewrite !list_elem_of_In, in_concat. split.
  - intros (l & (n & <- & Hn)%in_map_iff & (s & <- & Hs)%in_map_iff). cbn. by destruct s.
  - intros [Hs Hn]. eexists. split; [apply in_map_iff; by exists (snd (fst x))|].
    apply in_map_iff. exists (fst (fst x), snd x). by destruct x as [[a n] z].
Qed.
Lemma shaped_nodup shapes ids : NoDup shapes -> NoDup ids -> NoDup (shaped shapes ids).
Proof.
  intros Hs. induction ids as [|n ids IH]; intros Hnd; [constructor|].
  apply list.NoDup_cons in Hnd as [Hn Hnd]. unfold shaped. cbn [map concat].
  apply list.NoDup_app. split_and!; [| |by apply IH].
  - apply NoDup_fmap_2_strong; [|done]. by intros [] [] _ _ [= -> ->].
  - intros x (s & <- & _)%list_elem_of_In%in_map_iff Hx%in_shaped. cbn in Hx. by destruct Hx.
Qed.

Lemma shaped_ok shapes ids : forallb shape_ok shapes = true ->
  Forall (fun x => shape_ok (fst (fst x), snd x) = true) (shaped shapes ids).
Proof.
  rewrite forallb_forall. intros H. apply List.Forall_forall.
  intros x [Hx _]%list_elem_of_In%in_shaped. by apply H, list_elem_of_In.
Qed.
Lemma shaped2_nodup shapes shapes' ids ids' : NoDup (shapes ++ shapes') -> NoDup ids -> NoDup ids' ->
  NoDup (shaped shapes ids ++ shaped shapes' ids').
Proof.
  intros (H & Hd & H')%list.NoDup_app Hi Hi'. apply list.NoDup_app.
  split_and!; [by apply shaped_nodup| |by apply shaped_nodup].
  intros x [Hx _]%in_shaped [Hx' _]%in_shaped. by apply (Hd _ Hx).
Qed.

Lemma names_nodup ws xs :
  NoDup ws -> forallb word ws = true -> NoDup xs -> Forall (fun x => shape_ok (fst (fst x), snd x) = true) xs ->
  NoDup (ws ++ map paste3 xs).
Proof.
  intros Hw Hws Hx Hxs. rewrite forallb_forall in Hws. rewrite List.Forall_forall in Hxs.
  apply list.NoDup_app. split_and!; [done| |].
  - intros w Hin%list_elem_of_In (x & <- & _)%list_elem_of_In%in_map_iff.
    by eapply (paste_not_word _ _ _ _ (Hws _ Hin)).
  - apply NoDup_fmap_2_strong; [|done].
    intros [[a m] y] [[b n] z] H1%list_elem_of_In%Hxs H2%list_elem_of_In%Hxs E.
    apply andb_true_iff in H1 as [H1 H1'], H2 as [H2 H2']. unfold paste3 in E. cbn in *.
    apply paste_inj in E as (-> & -> & ->); by first [done|apply word_starts].
Qed.

Lemma shaped_names {X} (f : X -> string) (g : N -> list X) shapes ids :
  (forall n, map f (g n) = map (fun s => paste (fst s) n (snd s)) shapes) ->
  map f (concat (map g ids)) = map paste3 (shaped shapes ids).
Proof.
  intros Hg. induction ids as [|n ids IH]; [done|]. unfold shaped in *. cbn [map concat].
  rewrite !map_app, Hg, IH. f_equal. by rewrite map_map.
Qed.

Lemma names_nodup_mid ws xs ys :
  NoDup ws -> forallb word ws = true -> NoDup (xs ++ ys) ->
  Forall (fun x => shape_ok (fst (fst x), snd x) = true) (xs ++ ys) ->
  NoDup (map paste3 xs ++ ws ++ map paste3 ys).
Proof.
  intros Hw Hws Hx Hs. assert (NoDup (ws ++ map paste3 (xs ++ ys))) as H by by apply names_nodup.
  rewrite map_app in H. revert H. by rewrite !app_assoc, (Permutation_app_comm ws).
Qed.
(** Instances: the servers, and the VMs. *)
Lemma vms_differ ws ids : NoDup ids -> bool_decide (NoDup ws) && forallb word ws = true -> NoDup (ws ++ map vm ids).
Proof.
  intros Hi [Hw%bool_decide_eq_true_1 Hws]%andb_true_iff.
  replace (map vm ids) with (map paste3 (shaped [("vm", "")]%string ids)).
  - apply names_nodup; [done..|apply shaped_nodup; [by apply NoDup_singleton|done]|by apply shaped_ok].
  - clear. induction ids as [|n l IH]; [done|]. unfold shaped in *. cbn [map concat app]. by rewrite <-IH.
Qed.

(** Settings of different VMs do not meet. *)
Definition setting_key (s : setting) : string * string := (s_inst s, s_attr s).
Definition vm_keys (attrs : list string) (ids : list N) : list (string * string) :=
  concat (map (fun n => map (fun a => (vm n, a)) attrs) ids).

Lemma in_vm_keys k attrs ids : k ∈ vm_keys attrs ids <-> snd k ∈ attrs /\ exists n, n ∈ ids /\ fst k = vm n.
Proof.
  unfold vm_keys. rewrite list_elem_of_In, in_concat. split.
  - intros (l & (n & <- & Hn)%in_map_iff & (a & <- & Ha)%in_map_iff). cbn. rewrite !list_elem_of_In.
    split; [done|]. exists n. by rewrite list_elem_of_In.
  - intros [Ha (n & Hn & E)]. eexists. split; [apply in_map_iff; exists n; split; [done|by apply list_elem_of_In]|].
    apply in_map_iff. exists (snd k). split; [by rewrite <-E; destruct k|by apply list_elem_of_In].
Qed.
Lemma vm_keys_nodup attrs ids : NoDup attrs -> NoDup ids -> NoDup (vm_keys attrs ids).
Proof.
  intros Ha. induction ids as [|n ids IH]; intros Hi; [constructor|]. apply list.NoDup_cons in Hi as [Hn Hi].
  unfold vm_keys. cbn [map concat]. apply list.NoDup_app. split_and!; [| |by apply IH].
  - apply NoDup_fmap_2_strong; [|done]. by intros ? ? _ _ [= ->].
  - intros x (a & <- & _)%list_elem_of_In%in_map_iff (_ & m & Hm & E)%in_vm_keys. cbn in E. apply vm_inj in E as ->. done.
Qed.
Lemma per_vm_keys (g : N -> list setting) attrs ids :
  (forall n, map setting_key (g n) = map (fun a => (vm n, a)) attrs) ->
  map setting_key (concat (map g ids)) = vm_keys attrs ids.
Proof.
  intros Hg. induction ids as [|n ids IH]; [done|]. unfold vm_keys in *. cbn [map concat].
  by rewrite map_app, Hg, IH.
Qed.
Lemma keys_nodup ws attrs ids attrs' ids' :
  NoDup ws -> forallb word (map fst ws) = true -> NoDup (attrs ++ attrs') -> NoDup ids -> NoDup ids' ->
  NoDup (ws ++ vm_keys attrs ids ++ vm_keys attrs' ids').
Proof.
  intros Hw Hws (Ha & Hd & Ha')%list.NoDup_app Hi Hi'. rewrite forallb_forall in Hws. apply list.NoDup_app.
  split_and!; [done| |apply list.NoDup_app; split_and!; [by apply vm_keys_nodup| |by apply vm_keys_nodup]].
  - intros x Hx Hk. assert (exists n, fst x = vm n) as [n E].
    { apply elem_of_app in Hk as [(_ & n & _ & ?)%in_vm_keys|(_ & n & _ & ?)%in_vm_keys]; by exists n. }
    apply (paste_not_word "vm" n "" (fst x)); [|done]. apply Hws, in_map, list_elem_of_In, Hx.
  - intros x [Hx _]%in_vm_keys [Hx' _]%in_vm_keys. by apply (Hd _ Hx).
Qed.

(** What makes an assembly of VMs: names that are all different, ends at
    instances that exist, settings that do not contradict each other, and each
    VM's interfaces connected, each once, at the end it has. *)
Record well_connected (insts : list instance) (conns : list connection) (sets : list setting)
    (ids : list N) (itfs : N -> list interface) : Prop := {
  instances_differ : NoDup (map n_name insts);
  connections_differ : NoDup (map c_name conns);
  ends_exist : Forall (fun e : conn_end => fst (snd e) ∈ map n_name insts) (concat (map c_ends conns));
  settings_differ : NoDup (map setting_key sets);
  vms_connected i : i ∈ ids -> Permutation (ends_at (vm i) conns) (omap needed (itfs i)) }.

Ltac nodup_strings :=
  apply (bool_decide_eq_true_1 (NoDup _)); vm_compute; reflexivity.

(** Deciding the ends of one VM's connections. *)
Ltac vm_ends def :=
  intros; unfold ends_at, def; cbn [map concat app c_ends from_to];
  repeat match goal with
    | |- context [end_at (vm ?i) (?s, (vm ?j, ?n))] => rewrite (end_at_vm n s j i)
    | |- context [end_at (vm ?i) (?s, (?w, ?n))] => rewrite (end_at_word n s w i eq_refl)
    end;
  cbn [map concat]; case_decide; reflexivity.

Section X86Connected.

Lemma x86_vm_ends i j : ends_at (vm i) (X86.VM_PER_VM_CONNECTIONS j) =
  if decide (j = i) then
    [(From, "intready_connector"); (To, "intready"); (From, "fs"); (From, "putchar"); (From, "guest_putchar");
     (From, "serial_getchar"); (From, "system_rtc"); (From, "init_timer"); (From, "pci_config")]%string
  else [].
Proof. vm_ends X86.VM_PER_VM_CONNECTIONS. Qed.
Lemma x86_disk_ends i j : ends_at (vm i) (X86.VM_SATA_CONNECTIONS j) =
  if decide (j = i) then [(From, "sataserver_iface")]%string else [].
Proof. vm_ends X86.VM_SATA_CONNECTIONS. Qed.

Lemma ends_at_words i l :
  forallb (fun e : conn_end => word (fst (snd e))) (concat (map c_ends l)) = true -> ends_at (vm i) l = [].
Proof.
  unfold ends_at. induction (concat (map c_ends l)) as [|[s [w n]] es IH]; [done|]. cbn.
  intros [Hw He]%andb_true_iff. by rewrite end_at_word, IH.
Qed.

(** The instances of one VM's connections exist. *)
Lemma per_vm_exist (insts : list string) (g : N -> list connection) ids :
  (forall i, i ∈ ids -> vm i ∈ insts) ->
  (forall i e, e ∈ concat (map c_ends (g i)) -> fst (snd e) = vm i \/ fst (snd e) ∈ insts) ->
  Forall (fun e : conn_end => fst (snd e) ∈ insts) (concat (map c_ends (concat (map g ids)))).
Proof.
  intros Hv Hg. induction ids as [|i ids IH]; [constructor|]. cbn [map concat]. rewrite map_app, concat_app.
  apply List.Forall_app. split.
  - apply List.Forall_forall. intros e He%list_elem_of_In. destruct (Hg i e He) as [-> |]; [|done].
    apply Hv, list_elem_of_here.
  - apply IH. intros j Hj. by apply Hv, list_elem_of_further.
Qed.

Lemma words_exist (ws vs : list string) l :
  forallb (fun e : conn_end => bool_decide (fst (snd e) ∈ ws)) (concat (map c_ends l)) = true ->
  Forall (fun e : conn_end => fst (snd e) ∈ ws ++ vs) (concat (map c_ends l)).
Proof.
  rewrite forallb_forall. intros H. apply List.Forall_forall. intros e He%H%bool_decide_eq_true_1.
  apply elem_of_app. by left.
Qed.
Lemma in_insts (w : string) (l : list string) : bool_decide (w ∈ l) = true -> w ∈ l.
Proof. apply bool_decide_eq_true_1. Qed.

End X86Connected.

(** Each end of a concrete list of connections is at the VM or at a server. *)
Ltac ends_known :=
  intros i e He; cbn in He; rewrite ?elem_of_cons, elem_of_nil in He;
  repeat match goal with H : _ \/ _ |- _ => destruct H as [->|H]; [first [left; reflexivity | right; apply elem_of_app; left; apply in_insts; vm_compute; reflexivity]|] end;
  done.

(** C39 -- An x86 assembly is put together completely.  However many VMs there are,
    and whichever have the disk, the macros give all instances and connections
    names of their own, connect only instances that exist, set no attribute
    twice, and connect each interface a VM needs exactly once, at the end it
    has, and no others. *)
Theorem x86_assembly_connected (ids disks : list N) :
  NoDup ids -> NoDup disks -> disks ⊆ ids ->
  well_connected (X86.instances ids) (X86.connections ids disks) (X86.settings ids) ids
    (fun i => X86.interfaces (bool_decide (i ∈ disks))).
Proof.
  intros Hi Hd Hsub.
  assert (forall l, map n_name (X86.instances l) =
    ["fserv"; "serial"; "pci_config"; "time_server"; "rtc"; "sataserver"]%string ++ map vm l) as En.
  { intros l. unfold X86.instances. rewrite !map_app. cbn [map X86.VM_COMPOSITION_DEF_instances X86.SATA_COMPOSITION_DEF_instances n_name app].
    do 6 f_equal. induction l as [|n l IH]; [done|]. cbn. by f_equal. }
  constructor.
  - rewrite En. by apply vms_differ.
  - unfold X86.connections. rewrite !map_app.
    rewrite (shaped_names _ _ [("intreadycon", ""); ("fs", ""); ("serial_vm", ""); ("serial_guest_vm", "");
      ("serial_input", ""); ("rtctest", ""); ("pit", "_timer"); ("pciconfig", "")]%string) by reflexivity.
    rewrite (shaped_names _ _ [("sataservercon", "")]%string) by reflexivity.
    rewrite <-map_app, app_assoc. apply names_nodup; [nodup_strings|reflexivity| |].
    + apply shaped2_nodup; [nodup_strings|done..].
    + apply List.Forall_app. split; by apply shaped_ok.
  - rewrite En. unfold X86.connections. rewrite !map_app, !concat_app, !List.Forall_app.
    assert (forall i, i ∈ ids -> vm i ∈ ["fserv"; "serial"; "pci_config"; "time_server"; "rtc"; "sataserver"]%string ++ map vm ids) as Hv.
    { intros i Hin. apply elem_of_app. right. apply list_elem_of_In, in_map, list_elem_of_In, Hin. }
    split_and!; [by apply words_exist..| |]; apply per_vm_exist.
    + exact Hv.
    + ends_known.
    + intros i Hin. by apply Hv, Hsub.
    + ends_known.
  - unfold X86.settings. rewrite app_assoc.
    rewrite map_app, (per_vm_keys _ ["fs_shmem_size"; "serial_getchar_attributes"; "serial_getchar_shmem_size";
      "simple"; "asid_pool"; "global_endpoint_mask"; "global_endpoint_base"]%string) by reflexivity.
    rewrite <-(app_nil_r (vm_keys _ _)). change (@nil (string * string)) with (vm_keys [] []).
    apply keys_nodup; [nodup_strings|reflexivity|nodup_strings|done|constructor].
  - intros i Hin. unfold X86.connections. rewrite !ends_at_app.
    rewrite (ends_per_vm _ _ ids i Hi (x86_vm_ends i)), (ends_per_vm _ _ disks i Hd (x86_disk_ends i)).
    rewrite !ends_at_words by done. rewrite decide_True by done. unfold X86.interfaces.
    case_bool_decide as Hdisk; [rewrite decide_True by done|rewrite decide_False by done];
      apply (bool_decide_eq_true_1 (Permutation _ _)); vm_compute; reflexivity.
Qed.

Lemma x86_assembly_connected_witness :
  well_connected (X86.instances [0; 1; 12]%N) (X86.connections [0; 1; 12]%N [12; 0]%N) (X86.settings [0; 1; 12]%N)
    [0; 1; 12]%N (fun i => X86.interfaces (bool_decide (i ∈ [12; 0]%N))).
Proof.
  apply x86_assembly_connected.
  - apply (bool_decide_eq_true_1 (NoDup _)). reflexivity.
  - apply (bool_decide_eq_true_1 (NoDup _)). reflexivity.
  - intros x Hx. rewrite !elem_of_cons in *. rewrite elem_of_nil in Hx. naive_solver.
Defined.
