(* ===== verification/AssemblyArm.v ===== *)
(** The assembly macros of the ARM VMM (components/VM_Arm/configurations/vm.h),
    over the descriptions of Assembly. *)

From stdpp Require Import strings.
From S2P Require Import Prelude.
From S2P Require Import Assembly.

Open Scope Z_scope.

Module Arm.
Open Scope string_scope.

(** Compile-time options of the platform. *)
Class Platform := { TK1DEVICEFWD : bool; KERNELARMPLATFORM_EXYNOS5410 : bool }.

Section Arm.
Context {P : Platform}.

Definition DEF_TK1DEVICEFWD : list interface :=
  if TK1DEVICEFWD then [mkItf false Uses "gen_fwd_inf" "uartfwd"; mkItf false Uses "gen_fwd_inf" "clkcarfwd"] else [].
Definition DEF_KERNELARMPLATFORM_EXYNOS5410 : list interface :=
  if KERNELARMPLATFORM_EXYNOS5410 then
    [mkItf false Uses "pwm_inf" "pwm"; mkItf false Dataport "Buf" "cmu_cpu"; mkItf false Dataport "Buf" "cmu_top";
     mkItf false Dataport "Buf" "gpio_right"; mkItf false Dataport "Buf" "cmu_core"]
  else [].

Definition VM_INIT_DEF : list interface :=
  [mkItf false Uses "FileServerInterface" "fs"] ++ DEF_TK1DEVICEFWD ++ DEF_KERNELARMPLATFORM_EXYNOS5410 ++ [
  mkItf true Consumes "restart" "restart_event";
  mkItf false Has "semaphore" "vm_sem";
  mkItf true Uses "Batch" "batch";
  mkItf true Uses "PutChar" "guest_putchar";
  mkItf true Uses "GetChar" "serial_getchar";
  mkItf true Uses "VirtQueueDev" "recv";
  mkItf true Uses "VirtQueueDrv" "send";
  mkItf false Consumes "HaveNotification" "notification_ready";
  mkItf false Emits "HaveNotification" "notification_ready_connector";
  mkItf true Uses "VMDTBPassthrough" "dtb_self";
  mkItf false Provides "VMDTBPassthrough" "dtb" ].

Definition VM_INIT_DEF_attributes : list attribute := [
  mkAttr "int" "base_prio" None;
  mkAttr "int" "num_vcpus" (Some (VInt 1));
  mkAttr "int" "num_extra_frame_caps" None;
  mkAttr "int" "extra_frame_map_address" None;
  mkAttr "string" "vm_address_config.ram_base" None;
  mkAttr "string" "vm_address_config.ram_paddr_base" None;
  mkAttr "string" "vm_address_config.ram_size" None;
  mkAttr "string" "vm_address_config.dtb_addr" None;
  mkAttr "string" "vm_address_config.initrd_addr" None;
  mkAttr "string" "vm_address_config.kernel_entry_addr" (Some (VString "-1"));
  mkAttr "string" "vm_image_config.kernel_name" (Some (VString "linux"));
  mkAttr "string" "vm_image_config.dtb_name" (Some (VString "linux-dtb"));
  mkAttr "string" "vm_image_config.initrd_name" (Some (VString "linux-initrd"));
  mkAttr "string" "vm_image_config.kernel_bootcmdline" (Some (VString ""));
  mkAttr "string" "vm_image_config.kernel_stdout" (Some (VString ""));
  mkAttr "string" "vm_image_config.dtb_base_name" (Some (VString ""));
  mkAttr "int" "vm_image_config.provide_dtb" (Some (VBool true));
  mkAttr "int" "vm_image_config.generate_dtb" (Some (VBool false));
  mkAttr "int" "vm_image_config.provide_initrd" (Some (VBool true));
  mkAttr "int" "vm_image_config.clean_cache" (Some (VBool false));
  mkAttr "int" "vm_image_config.map_one_to_one" (Some (VBool false));
  mkAttr "string" "linux_address_config.linux_ram_base" None;
  mkAttr "string" "linux_address_config.linux_ram_paddr_base" None;
  mkAttr "string" "linux_address_config.linux_ram_size" None;
  mkAttr "string" "linux_address_config.linux_ram_offset" (Some (VString "0"));
  mkAttr "string" "linux_address_config.dtb_addr" None;
  mkAttr "string" "linux_address_config.initrd_max_size" (Some (VString "-1"));
  mkAttr "string" "linux_address_config.initrd_addr" None;
  mkAttr "string" "linux_image_config.linux_name" (Some (VString "linux"));
  mkAttr "string" "linux_image_config.dtb_name" (Some (VString "linux-dtb"));
  mkAttr "string" "linux_image_config.initrd_name" (Some (VString "linux-initrd"));
  mkAttr "string" "linux_image_config.linux_bootcmdline" (Some (VString ""));
  mkAttr "string" "linux_image_config.linux_stdout" (Some (VString ""));
  mkAttr "string" "linux_image_config.dtb_base_name" (Some (VString ""));
  mkAttr "struct[]" "serial_layout" (Some (VList [])) ].

End Arm.

Definition VM_COMPONENT_DEF (num : N) : list instance := [mkInst "VM" (vm num)].
Definition VM_COMPONENT_CONNECTIONS_DEF (num : N) : list connection := [
  mkConn "seL4RPCDataport" (paste "fs" num "") (from_to (vm num, "fs") ("fserv", "fs_ctrl"));
  mkConn "seL4GlobalAsynch" (paste "notify_ready_vm" num "")
    (from_to (vm num, "notification_ready_connector") (vm num, "notification_ready")) ].

Definition VM_GENERAL_COMPOSITION_DEF : list instance := [mkInst "FileServer" "fserv"].
(** [VM_COMPOSITION_DEF] is the two above. *)
Definition VM_COMPOSITION_DEF (num : N) : list instance * list connection :=
  (VM_COMPONENT_DEF num, VM_COMPONENT_CONNECTIONS_DEF num).

Definition VM_GENERAL_CONFIGURATION_DEF : list setting := [mkSetting "fserv" "heap_size" (VInt 0x30000)].
Definition VM_CONFIGURATION_DEF (num : N) : list setting := [
  mkSetting (vm num) "fs_shmem_size" (VInt 0x100000);
  mkSetting (vm num) "global_endpoint_base" (VInt (1 .<< 27));
  mkSetting (vm num) "asid_pool" (VBool true);
  mkSetting (vm num) "simple" (VBool true);
  mkSetting (vm num) "base_prio" (VInt 100);
  mkSetting (vm num) "_priority" (VInt 101);
  mkSetting (vm num) "sem_value" (VInt 0);
  mkSetting (vm num) "heap_size" (VInt 0x300000) ].
Definition VM_DOMAIN_CONFIGURATION_DEF (num : N) (domain : Z) : list setting := [
  mkSetting (vm num) "_domain" (VInt domain);
  mkSetting (vm num) "tcb_pool" (VInt 2);
  mkSetting (vm num) "tcb_pool_domains" (VList [VInt domain; VInt domain]) ].

(** The VMs that share a console through the serial server; at most eight. *)
Definition VM_VIRTUAL_SERIAL_COMPONENTS_DEF_instances : list instance := [
  mkInst "SerialServer" "serial"; mkInst "TimeServer" "time_server" ].
Definition VM_VIRTUAL_SERIAL_COMPONENTS_DEF : list connection := [
  mkConn "seL4TimeServer" "serialserver_timer" (from_to ("serial", "timeout") ("time_server", "the_timer"))].
Definition PER_VM_VIRTUAL_SERIAL_CONNECTIONS_DEF (num : N) : list connection := [
  mkConn "seL4SerialServer" (paste "serial_vm" num "") (from_to (vm num, "batch") ("serial", "processed_batch"));
  mkConn "seL4SerialServer" (paste "serial_input_vm" num "") (from_to (vm num, "serial_getchar") ("serial", "getchar")) ].
Definition VM_VIRTUAL_SERIAL_COMPOSITION_DEF (vm_ids : list N) : option (list connection) :=
  per_vm ← __CALL 8 PER_VM_VIRTUAL_SERIAL_CONNECTIONS_DEF vm_ids;
  Some (VM_VIRTUAL_SERIAL_COMPONENTS_DEF ++ per_vm)%list.

Definition VM_VIRTUAL_SERIAL_GENERAL_CONFIGURATION_DEF : list setting := [
  mkSetting "time_server" "timers_per_client" (VInt 1);
  mkSetting "time_server" "priority" (VInt 255);
  mkSetting "time_server" "simple" (VBool true) ].
Definition PER_VM_VIRTUAL_SERIAL_CONFIGURATION_DEF (num : N) : list setting := [
  mkSetting (vm num) "serial_getchar_shmem_size" (VInt 0x1000);
  mkSetting (vm num) "batch_shmem_size" (VInt 0x1000) ].
Definition VM_VIRTUAL_SERIAL_CONFIGURATION_DEF (vm_ids : list N) : option (list setting) :=
  per_vm ← __CALL 8 PER_VM_VIRTUAL_SERIAL_CONFIGURATION_DEF vm_ids;
  Some (VM_VIRTUAL_SERIAL_GENERAL_CONFIGURATION_DEF ++ per_vm)%list.

(** An assembly with the given VMs, those in [consoles] sharing a console. *)
Definition instances (ids : list N) : list instance :=
  VM_GENERAL_COMPOSITION_DEF ++ VM_VIRTUAL_SERIAL_COMPONENTS_DEF_instances ++ concat (map VM_COMPONENT_DEF ids).
Definition connections (ids consoles : list N) : option (list connection) :=
  serial ← VM_VIRTUAL_SERIAL_COMPOSITION_DEF consoles;
  Some (concat (map (fun i => snd (VM_COMPOSITION_DEF i)) ids) ++ serial)%list.
Definition settings (ids consoles : list N) : option (list setting) :=
  serial ← VM_VIRTUAL_SERIAL_CONFIGURATION_DEF consoles;
  Some (VM_GENERAL_CONFIGURATION_DEF ++ concat (map VM_CONFIGURATION_DEF ids) ++ serial)%list.

End Arm.

(** * Nothing is left unconnected *)

Section ArmConnected.

Lemma arm_vm_ends i j : ends_at (vm i) (snd (Arm.VM_COMPOSITION_DEF j)) =
  if decide (j = i) then
    [(From, "fs"); (From, "notification_ready_connector"); (To, "notification_ready")]%string
  else [].
Proof. unfold Arm.VM_COMPOSITION_DEF; cbn [snd]. vm_ends Arm.VM_COMPONENT_CONNECTIONS_DEF. Qed.
Lemma arm_serial_ends i j : ends_at (vm i) (Arm.PER_VM_VIRTUAL_SERIAL_CONNECTIONS_DEF j) =
  if decide (j = i) then [(From, "batch"); (From, "serial_getchar")]%string else [].
Proof. vm_ends Arm.PER_VM_VIRTUAL_SERIAL_CONNECTIONS_DEF. Qed.

End ArmConnected.

(** On a platform without forwarded devices; a VM with a console needs its two
    interfaces too. *)
Definition arm_interfaces (console : bool) : list interface :=
  map (fun i => mkItf (i_maybe i && negb (console && bool_decide (i_name i ∈ ["batch"; "serial_getchar"]%string)))
                  (i_role i) (i_type i) (i_name i))
    (@Arm.VM_INIT_DEF {| Arm.TK1DEVICEFWD := false; Arm.KERNELARMPLATFORM_EXYNOS5410 := false |}).

(** The same of an ARM assembly whose console is shared by one to eight VMs; for
    more there is no macro. *)
Lemma arm_assembly_connected (ids consoles : list N) :
  NoDup ids -> NoDup consoles -> consoles ⊆ ids -> (1 <= length consoles <= 8)%nat ->
  exists conns sets, Arm.connections ids consoles = Some conns /\ Arm.settings ids consoles = Some sets /\
    well_connected (Arm.instances ids) conns sets ids (fun i => arm_interfaces (bool_decide (i ∈ consoles))).
Proof.
  intros Hi Hd Hsub Hlen. unfold Arm.connections, Arm.settings, Arm.VM_VIRTUAL_SERIAL_COMPOSITION_DEF,
    Arm.VM_VIRTUAL_SERIAL_CONFIGURATION_DEF. rewrite !CALL_spec by lia. cbn [mbind option_bind].
  eexists _, _. split; [done|]. split; [done|].
  assert (map n_name (Arm.instances ids) = ["fserv"; "serial"; "time_server"]%string ++ map vm ids) as En.
  { unfold Arm.instances. rewrite !map_app.
    cbn [map Arm.VM_GENERAL_COMPOSITION_DEF Arm.VM_VIRTUAL_SERIAL_COMPONENTS_DEF_instances n_name app].
    do 3 f_equal. clear. induction ids as [|n l IH]; [done|]. cbn. by f_equal. }
  assert (forall i, i ∈ ids -> vm i ∈ ["fserv"; "serial"; "time_server"]%string ++ map vm ids) as Hv.
  { intros i Hin. apply elem_of_app. right. apply list_elem_of_In, in_map, list_elem_of_In, Hin. }
  constructor.
  - rewrite En. by apply vms_differ.
  - rewrite !map_app.
    rewrite (shaped_names _ _ [("fs", ""); ("notify_ready_vm", "")]%string) by reflexivity.
    rewrite (shaped_names _ Arm.PER_VM_VIRTUAL_SERIAL_CONNECTIONS_DEF [("serial_vm", ""); ("serial_input_vm", "")]%string) by reflexivity.
    apply names_nodup_mid; [nodup_strings|reflexivity| |].
    + apply shaped2_nodup; [nodup_strings|done..].
    + apply List.Forall_app. split; by apply shaped_ok.
  - rewrite En, !map_app, !concat_app, !List.Forall_app. split_and!; [|by apply words_exist|]; apply per_vm_exist.
    + exact Hv.
    + ends_known.
    + intros i Hin. by apply Hv, Hsub.
    + ends_known.
  - rewrite !map_app, (per_vm_keys _ ["fs_shmem_size"; "global_endpoint_base"; "asid_pool"; "simple"; "base_prio";
      "_priority"; "sem_value"; "heap_size"]%string) by reflexivity.
    rewrite (per_vm_keys _ ["serial_getchar_shmem_size"; "batch_shmem_size"]%string) by reflexivity.
    rewrite (app_assoc (vm_keys _ _)), (Permutation_app_comm (vm_keys _ _)), <-(app_assoc (map _ _)), app_assoc.
    apply keys_nodup; [nodup_strings|reflexivity|nodup_strings|done..].
  - intros i Hin. rewrite !ends_at_app.
    rewrite (ends_per_vm _ _ ids i Hi (arm_vm_ends i)), (ends_per_vm _ _ consoles i Hd (arm_serial_ends i)).
    rewrite !ends_at_words by done. rewrite decide_True by done.
    case_bool_decide as Hdisk; [rewrite decide_True by done|rewrite decide_False by done];
      apply (bool_decide_eq_true_1 (Permutation _ _)); vm_compute; reflexivity.
Qed.

Lemma arm_consoles_limit ids consoles : (8 < length consoles)%nat -> Arm.connections ids consoles = None.
Proof.
  intros H. unfold Arm.connections, Arm.VM_VIRTUAL_SERIAL_COMPOSITION_DEF. by rewrite CALL_over by lia.
Qed.


(** Two VMs, the second with a console. *)
Example arm_assembly_example : exists conns,
  Arm.connections [0; 3]%N [3]%N = Some conns /\ map c_name conns =
  ["fs0"; "notify_ready_vm0"; "fs3"; "notify_ready_vm3"; "serialserver_timer"; "serial_vm3"; "serial_input_vm3"]%string.
Proof. eexists. split; [reflexivity|vm_compute; reflexivity]. Qed.
