(* ===== verification/Topology.v ===== *)
(** The virtual networks of an application
    (components/VM/configurations/connections.h): from a topology, which names
    for each VM the VMs it is connected to, the macros make the queues each VM's
    component declares, their numbers, the shared memory they lie in, the table
    of the virtual switch and the functions called at start-up.

    A topology macro is the list of its calls [f(base_id, vm_ids...)].  A name in
    shared memory is the text of two numbers, one after the other
    ([channel_key]): [keys_differ] and [keys_clash] show for which numbers that
    tells the channels apart. *)

From stdpp Require Import strings.
From S2P Require Import Prelude.
From S2P Require Import X86Virtio.
From S2P Require Import Assembly.

Open Scope Z_scope.

(** One call of [f] in a topology macro. *)
Record call := mkCall { base_id : N; vm_ids : list N }.
Definition topology : Type := list call.

(** [VM##vm_id##_##topology(f)]: the call of one VM. *)
Definition of_vm (id : N) (t : topology) : option call := List.find (fun n => N.eqb (base_id n) id) t.

Section Macros.
(** [VM##vm_id##_MACADDRESS], defined by the application. *)
Variable MACADDRESS : N -> list Z.

(** At most four connections per VM. *)
Definition limit : nat := 4.

(** [ether_##target_id##_send] *)
Definition ether (target_id : N) (suffix : string) : string := paste "ether_" target_id suffix.

(** ** Interfaces *)

Definition __COMPONENT_DECL_ADD_INTERFACE_END (vm_id : N) : list interface := [
  mkItf false Uses "VirtQueueDrv" (ether vm_id "_send");
  mkItf false Uses "VirtQueueDev" (ether vm_id "_recv") ].
Definition __COMPONENT_DECL (n : call) : option (list interface) :=
  __CALL limit __COMPONENT_DECL_ADD_INTERFACE_END (vm_ids n).

Definition __CONNECTION_ADD_INTERFACE_END (base_id target_id : N) : list conn_end := [
  (From, (vm base_id, ether target_id "_send")); (From, (vm base_id, ether target_id "_recv")) ].
Definition __CONNECTION_PERVM_ADD_INTERFACES (n : call) : option (list conn_end) :=
  __CALL_SINGLE limit __CONNECTION_ADD_INTERFACE_END (base_id n) (vm_ids n).

(** ** Settings *)

Definition send_attr (target_id : N) (a : string) : string := ether target_id ("_send" +:+ a).
Definition recv_attr (target_id : N) (a : string) : string := ether target_id ("_recv" +:+ a).
(** [VAR_STRINGIZE(base_id##target_id)] *)
Definition channel_key (from to : N) : string := text from +:+ text to.

Definition __CONFIG_PER_CONNECTION (base_id target_id : N) (idx : Z) : list setting := [
  mkSetting (vm base_id) (send_attr target_id "_id") (VInt (idx * 2));
  mkSetting (vm base_id) (send_attr target_id "_attributes") (VString (channel_key base_id target_id));
  mkSetting (vm base_id) (recv_attr target_id "_id") (VInt (idx * 2 + 1));
  mkSetting (vm base_id) (recv_attr target_id "_attributes") (VString (channel_key target_id base_id));
  mkSetting (vm base_id) (send_attr target_id "_shmem_size") (VInt 32768);
  mkSetting (vm base_id) (recv_attr target_id "_shmem_size") (VInt 32768) ].

Definition __ADD_MACADDR_MAPPING (base_id vm_id : N) (idx : Z) : list vswitch_mapping := [
  {| mac_addr := MACADDRESS vm_id; send_id := idx * 2; recv_id := idx * 2 + 1 |} ].

(** The settings of one VM, and the table of its switch. *)
Definition __CONFIG_EXPAND_PERVM (n : call) : option (list setting * list Z * list vswitch_mapping) :=
  per_connection ← __CALL_NUM limit __CONFIG_PER_CONNECTION (base_id n) (vm_ids n);
  layout ← __CALL_NUM limit __ADD_MACADDR_MAPPING (base_id n) (vm_ids n);
  Some (per_connection, MACADDRESS (base_id n), layout).

(** A driver end and the device end it is connected to. *)
Definition __ADD_TOPOLOGY (base_id target_id : N) : list (string * string) := [
  (vm base_id +:+ "." +:+ ether target_id "_send", vm target_id +:+ "." +:+ ether base_id "_recv") ].
Definition __CONFIG_EXPAND_TOPOLOGY (n : call) : option (list (string * string)) :=
  __CALL_SINGLE limit __ADD_TOPOLOGY (base_id n) (vm_ids n).

(** ** Functions called at start-up, and for a notification *)

Record init_con := mkInitCon { ic_init : string; ic_irq : option (string * string) }.

Definition send_badge (target_id : N) : string := ether target_id "_send_notification_badge()".
Definition recv_badge (target_id : N) : string := ether target_id "_recv_notification_badge()".

Definition __INIT_ADD_INTERFACE_END (base_id target_id : N) : list init_con := [
  mkInitCon "make_virtio_net_vswitch_driver_dummy" (Some (send_badge target_id, "virtio_net_notify_vswitch"%string));
  mkInitCon "make_virtio_net_vswitch_driver_dummy" (Some (recv_badge target_id, "virtio_net_notify_vswitch"%string)) ].
Definition __CONNECTION_PERVM_ADD_INIT (n : call) : option (list init_con) :=
  __CALL_SINGLE limit __INIT_ADD_INTERFACE_END (base_id n) (vm_ids n).

(** ** The public macros *)

Definition VM_CONNECTION_COMPONENT_DEF (vm_id : N) (t : topology) : option (list interface) :=
  n ← of_vm vm_id t; __COMPONENT_DECL n.

(** [to] is the component with the notification objects' connector. *)
Definition VM_CONNECTION_CONNECT_VMS (name : string) (to_end : string * string) (t : topology) : option connection :=
  ends ← mapM __CONNECTION_PERVM_ADD_INTERFACES t;
  Some (mkConn "seL4VirtQueues" (name +:+ "_conn") ((To, to_end) :: concat ends)).

Definition VM_CONNECTION_CONFIG (t : topology)
    : option (list (list setting * list Z * list vswitch_mapping) * list (string * string)) :=
  per_vm ← mapM __CONFIG_EXPAND_PERVM t;
  topo ← mapM __CONFIG_EXPAND_TOPOLOGY t;
  Some (per_vm, concat topo).

Definition VM_CONNECTION_INIT_HANDLER (vm_id : N) (t : topology) : option (list init_con) :=
  n ← of_vm vm_id t;
  handlers ← __CONNECTION_PERVM_ADD_INIT n;
  Some (handlers ++ [mkInitCon "make_virtio_net_vswitch" None])%list.

End Macros.

(** * What the macros make *)

Section Wiring.
Context (MACADDRESS : N -> list Z).

(** A topology the macros are meant for: each VM calls [f] once, for one to four
    others, and connections go both ways. *)
Definition call_ok (t : topology) (n : call) : bool :=
  (1 <=? length (vm_ids n))%nat && (length (vm_ids n) <=? 4)%nat && bool_decide (NoDup (vm_ids n)) &&
  bool_decide (base_id n ∉ vm_ids n) &&
  forallb (fun i => existsb (fun m => N.eqb (base_id m) i && bool_decide (base_id n ∈ vm_ids m)) t) (vm_ids n).
Definition topology_ok (t : topology) : bool :=
  bool_decide (NoDup (map base_id t)) && forallb (call_ok t) t.

(** The VMs that VM [id] is connected to, in order. *)
Definition neighbours (t : topology) (id : N) : list N := match of_vm id t with Some n => vm_ids n | None => [] end.

Lemma of_vm_in t n : topology_ok t = true -> n ∈ t -> of_vm (base_id n) t = Some n.
Proof.
  intros [Hn%bool_decide_eq_true_1 _]%andb_true_iff Hin. unfold of_vm.
  induction t as [|m t IH]; [by apply elem_of_nil in Hin|]. cbn in *. apply list.NoDup_cons in Hn as [Hm Hn].
  apply elem_of_cons in Hin as [->|Hin]; [by rewrite N.eqb_refl|].
  destruct (N.eqb_spec (base_id m) (base_id n)) as [E|]; [|by apply IH].
  destruct Hm. rewrite E. by apply list_elem_of_In, in_map, list_elem_of_In.
Qed.
Lemma of_vm_some t id n : of_vm id t = Some n -> n ∈ t /\ base_id n = id.
Proof. intros [H1 H2%N.eqb_eq]%List.find_some. by rewrite list_elem_of_In. Qed.

Lemma call_facts t n : topology_ok t = true -> n ∈ t ->
  (1 <= length (vm_ids n) <= 4)%nat /\ NoDup (vm_ids n) /\ base_id n ∉ vm_ids n /\
  forall i, i ∈ vm_ids n -> base_id n ∈ neighbours t i.
Proof.
  intros Ht Hn. pose proof Ht as [_ Ha]%andb_true_iff. rewrite forallb_forall in Ha.
  apply list_elem_of_In in Hn. specialize (Ha n Hn). unfold call_ok in Ha. rewrite !andb_true_iff in Ha.
  destruct Ha as [[[[H1%Nat.leb_le H2%Nat.leb_le] H3%bool_decide_eq_true_1] H4%bool_decide_eq_true_1] H5].
  split_and!; try done. intros i Hi. rewrite forallb_forall in H5. apply list_elem_of_In in Hi.
  destruct (proj1 (existsb_exists _ _) (H5 i Hi)) as (m & Hm & [<-%N.eqb_eq Hb%bool_decide_eq_true_1]%andb_true_iff).
  unfold neighbours. by rewrite (of_vm_in t m Ht) by by apply list_elem_of_In.
Qed.

Lemma neighbour_call t b i : i ∈ neighbours t b -> exists n, n ∈ t /\ base_id n = b /\ neighbours t b = vm_ids n.
Proof.
  unfold neighbours. destruct (of_vm b t) as [n|] eqn:E; [|by intros ?%elem_of_nil].
  intros _. apply of_vm_some in E as [? ?]. by exists n.
Qed.

(** Connections go both ways, and not from a VM to itself. *)
Lemma neighbours_sym t b i : topology_ok t = true -> i ∈ neighbours t b -> b ∈ neighbours t i.
Proof.
  intros Ht Hi. destruct (neighbour_call _ _ _ Hi) as (n & Hn & <- & E). rewrite E in Hi.
  by destruct (call_facts _ _ Ht Hn) as (_ & _ & _ & H); apply H.
Qed.
Lemma neighbours_irrefl t b : topology_ok t = true -> b ∉ neighbours t b.
Proof.
  intros Ht Hi. destruct (neighbour_call _ _ _ Hi) as (n & Hn & <- & E). rewrite E in Hi.
  by destruct (call_facts _ _ Ht Hn) as (_ & _ & H & _).
Qed.
Lemma neighbours_nodup t b : topology_ok t = true -> NoDup (neighbours t b).
Proof.
  intros Ht. unfold neighbours. destruct (of_vm b t) as [n|] eqn:E; [|constructor].
  apply of_vm_some in E as [Hn _]. by destruct (call_facts _ _ Ht Hn) as (_ & ? & _).
Qed.

(** ** The settings of the queues *)

(** What the macros make for the calls of a topology, without the limit. *)
Definition numbered (k : nat) (ids : list N) : list (nat * N) := zip (seq k (length ids)) ids.
Definition settings_from (b : N) (k : nat) (ids : list N) : list setting :=
  concat (map (fun x => __CONFIG_PER_CONNECTION b (snd x) (Z.of_nat (fst x))) (numbered k ids)).
Definition queue_settings (n : call) : list setting := settings_from (base_id n) 0 (vm_ids n).
Definition layout_of (n : call) : list vswitch_mapping :=
  concat (map (fun x => __ADD_MACADDR_MAPPING MACADDRESS (base_id n) (snd x) (Z.of_nat (fst x))) (numbered 0 (vm_ids n))).

Lemma config_perm n : (1 <= length (vm_ids n) <= 4)%nat ->
  __CONFIG_EXPAND_PERVM MACADDRESS n = Some (queue_settings n, MACADDRESS (base_id n), layout_of n).
Proof.
  intros H. unfold __CONFIG_EXPAND_PERVM, limit. by rewrite !CALL_NUM_spec by lia.
Qed.

(** The configuration of a topology. *)
Lemma config_spec t : topology_ok t = true ->
  VM_CONNECTION_CONFIG MACADDRESS t =
  Some (map (fun n => (queue_settings n, MACADDRESS (base_id n), layout_of n)) t,
        concat (map (fun n => concat (map (__ADD_TOPOLOGY (base_id n)) (vm_ids n))) t)).
Proof.
  intros Ht. unfold VM_CONNECTION_CONFIG.
  assert (forall n, n ∈ t -> (1 <= length (vm_ids n) <= 4)%nat) as Hl
    by (intros n Hn; by destruct (call_facts _ _ Ht Hn)).
  clear Ht. rewrite (proj2 (mapM_Some __CONFIG_EXPAND_TOPOLOGY t (map (fun n => concat (map (__ADD_TOPOLOGY (base_id n)) (vm_ids n))) t))).
  2:{ apply list.Forall2_fmap_r, Forall_Forall2_diag, List.Forall_forall. intros n Hn%list_elem_of_In%Hl.
      unfold __CONFIG_EXPAND_TOPOLOGY, limit. by rewrite CALL_SINGLE_spec by lia. }
  rewrite (proj2 (mapM_Some (__CONFIG_EXPAND_PERVM MACADDRESS) t
    (map (fun n => (queue_settings n, MACADDRESS (base_id n), layout_of n)) t))); [done|].
  apply list.Forall2_fmap_r, Forall_Forall2_diag, List.Forall_forall. intros n Hn%list_elem_of_In%Hl.
  by apply config_perm.
Qed.

(** The settings of all VMs. *)
Definition all_settings (t : topology) : list setting := concat (map queue_settings t).

(** The six attributes of a connection. *)
Definition suffixes : list string :=
  ["_send_id"; "_send_attributes"; "_recv_id"; "_recv_attributes"; "_send_shmem_size"; "_recv_shmem_size"]%string.

Lemma connection_keys b i idx :
  map setting_key (__CONFIG_PER_CONNECTION b i idx) = map (fun z => (vm b, ether i z)) suffixes.
Proof. reflexivity. Qed.

Lemma in_settings_from key b k ids : key ∈ map setting_key (settings_from b k ids) ->
  exists i z, i ∈ ids /\ z ∈ suffixes /\ key = (vm b, ether i z).
Proof.
  unfold settings_from. rewrite list_elem_of_In, in_map_iff. intros (s & <- & Hs).
  apply in_concat in Hs as (l & ([j i] & <- & Hi)%in_map_iff & Hs).
  assert (setting_key s ∈ map setting_key (__CONFIG_PER_CONNECTION b i (Z.of_nat j))) as Hk
    by (by apply list_elem_of_In, in_map). cbn [fst snd] in *.
  rewrite connection_keys in Hk. apply list_elem_of_In, in_map_iff in Hk as (z & <- & Hz).
  exists i, z. split_and!; [|by apply list_elem_of_In|done]. apply list_elem_of_In. by apply in_combine_r in Hi.
Qed.

Lemma suffix_words z : z ∈ suffixes -> word z = true.
Proof.
  intros Hz. assert (forallb word suffixes = true) as H by reflexivity. rewrite forallb_forall in H.
  by apply H, list_elem_of_In.
Qed.
Lemma ether_inj i j y z : y ∈ suffixes -> z ∈ suffixes -> ether i y = ether j z -> i = j /\ y = z.
Proof.
  intros Hy%suffix_words Hz%suffix_words E. apply paste_inj in E as (_ & ? & ?); [done|done|done|by apply word_starts..].
Qed.

(** No attribute is set twice. *)
Lemma settings_from_nodup b k ids : NoDup ids -> NoDup (map setting_key (settings_from b k ids)).
Proof.
  revert k. induction ids as [|i ids IH]; intros k Hl; [constructor|]. apply list.NoDup_cons in Hl as [Hi Hl].
  unfold settings_from, numbered. cbn [length seq zip zip_with map concat fst snd]. rewrite map_app.
  apply list.NoDup_app. rewrite connection_keys. split_and!; [| |by apply IH].
  - apply NoDup_fmap_2_strong; [|nodup_strings]. intros y z Hy Hz E%(f_equal snd). by apply ether_inj in E as [_ ->].
  - intros x (y & <- & Hy%list_elem_of_In)%list_elem_of_In%in_map_iff Hx%in_settings_from.
    destruct Hx as (j & z & Hj & Hz & E%(f_equal snd)). by apply ether_inj in E as [-> _].
Qed.
Lemma all_settings_nodup t : topology_ok t = true -> NoDup (map setting_key (all_settings t)).
Proof.
  intros Ht. assert (forall n, n ∈ t -> NoDup (vm_ids n)) as Hl
    by (intros n Hn; by destruct (call_facts _ _ Ht Hn) as (_ & ? & _)).
  apply andb_true_iff in Ht as [Ht%bool_decide_eq_true_1 _]. unfold all_settings.
  induction t as [|n t IH]; [constructor|]. cbn [map concat] in *. apply list.NoDup_cons in Ht as [Hn Ht].
  rewrite map_app. apply list.NoDup_app. split_and!.
  - apply settings_from_nodup, Hl, list_elem_of_here.
  - intros x (i & y & _ & _ & ->)%in_settings_from Hx. rewrite list_elem_of_In, concat_map, in_concat in Hx.
    destruct Hx as (l & (l' & <- & (m & <- & Hm)%in_map_iff)%in_map_iff & Hx%list_elem_of_In).
    apply in_settings_from in Hx as (j & z & _ & _ & E). apply (f_equal fst), vm_inj in E.
    destruct Hn. rewrite E. by apply list_elem_of_In, in_map.
  - apply IH; [done|]. intros m Hm. by apply Hl, list_elem_of_further.
Qed.

(** ** Finding a queue *)

(** The value of an attribute. *)
Definition attribute_of (sets : list setting) (inst attr : string) : option value :=
  s_value <$> List.find (fun s => bool_decide (setting_key s = (inst, attr))) sets.

Lemma attribute_found sets s : NoDup (map setting_key sets) -> s ∈ sets ->
  attribute_of sets (s_inst s) (s_attr s) = Some (s_value s).
Proof.
  unfold attribute_of. induction sets as [|x sets IH]; intros Hn Hs; [by apply elem_of_nil in Hs|].
  cbn [map List.find] in *. apply list.NoDup_cons in Hn as [Hx Hn]. apply elem_of_cons in Hs as [->|Hs].
  - by rewrite bool_decide_true.
  - rewrite bool_decide_false; [by apply IH|]. intros E. destruct Hx. rewrite E.
    change (s_inst s, s_attr s) with (setting_key s). by apply list_elem_of_In, in_map, list_elem_of_In.
Qed.

(** The interface of the queue with number [q], as the library of the virtqueues
    finds it, and the name of its shared memory. *)
Definition queue_interface (t : topology) (b : N) (q : Z) : option interface :=
  itfs ← VM_CONNECTION_COMPONENT_DEF b t;
  List.find (fun i => match attribute_of (all_settings t) (vm b) (i_name i +:+ "_id") with
                      | Some (VInt z) => Z.eqb z q | _ => false end) itfs.
Definition queue_end (t : topology) (b : N) (q : Z) : option (string * string) :=
  i ← queue_interface t b q;
  match attribute_of (all_settings t) (vm b) (i_name i +:+ "_attributes") with
  | Some (VString key) => Some (i_type i, key)
  | _ => None
  end.

Lemma ether_app i y z : ether i y +:+ z = ether i (y +:+ z).
Proof. unfold ether, paste. by rewrite !str_app_assoc. Qed.

Lemma in_all_settings t n j i s : n ∈ t -> vm_ids n !! j = Some i ->
  s ∈ __CONFIG_PER_CONNECTION (base_id n) i (Z.of_nat j) -> s ∈ all_settings t.
Proof.
  intros Hn%list_elem_of_In Hj Hs%list_elem_of_In. apply list_elem_of_In, in_concat. exists (queue_settings n). split; [by apply in_map|].
  apply in_concat. eexists. split; [|exact Hs]. apply in_map_iff. exists (j, i). split; [done|].
  apply list_elem_of_In, list_elem_of_lookup. exists j. unfold numbered. apply lookup_zip_with_Some.
  exists j, i. split_and!; [done| |done]. apply lookup_seq. split; [done|by eapply lookup_lt_Some].
Qed.

(** An attribute of a queue has the value the macros give it. *)
Lemma queue_attribute t n j i a v : topology_ok t = true -> n ∈ t -> vm_ids n !! j = Some i ->
  mkSetting (vm (base_id n)) a v ∈ __CONFIG_PER_CONNECTION (base_id n) i (Z.of_nat j) ->
  attribute_of (all_settings t) (vm (base_id n)) a = Some v.
Proof.
  intros Ht Hn Hj Hs. apply (attribute_found _ (mkSetting (vm (base_id n)) a v)); [by apply all_settings_nodup|].
  by eapply in_all_settings.
Qed.

(** The interface with a number, among interfaces numbered in order. *)
Lemma find_numbered (id_of : interface -> option Z) ids k j i :
  (forall m x, ids !! m = Some x ->
     id_of (mkItf false Uses "VirtQueueDrv" (ether x "_send")) = Some ((k + Z.of_nat m) * 2) /\
     id_of (mkItf false Uses "VirtQueueDev" (ether x "_recv")) = Some ((k + Z.of_nat m) * 2 + 1)) ->
  ids !! j = Some i ->
  let find q := List.find (fun x => match id_of x with Some z => Z.eqb z q | None => false end)
    (concat (map __COMPONENT_DECL_ADD_INTERFACE_END ids)) in
  find ((k + Z.of_nat j) * 2) = Some (mkItf false Uses "VirtQueueDrv" (ether i "_send")) /\
  find ((k + Z.of_nat j) * 2 + 1) = Some (mkItf false Uses "VirtQueueDev" (ether i "_recv")).
Proof.
  cbv zeta. revert k j. induction ids as [|x ids IH]; intros k j Hids Hj; [done|].
  pose proof (Hids 0%nat x eq_refl) as [E1 E2]. cbn [map concat app __COMPONENT_DECL_ADD_INTERFACE_END List.find].
  rewrite E1, E2. destruct j as [|j]; cbn in Hj.
  - injection Hj as ->. rewrite Z.eqb_refl. split; [done|].
    by rewrite (proj2 (Z.eqb_neq _ _)), Z.eqb_refl by lia.
  - rewrite !(proj2 (Z.eqb_neq _ _)) by lia. replace (k + Z.of_nat (S j)) with (k + 1 + Z.of_nat j) by lia.
    apply IH; [|done]. intros m y Hm. specialize (Hids (S m) y Hm).
    by replace (k + 1 + Z.of_nat m) with (k + Z.of_nat (S m)) by lia.
Qed.

(** The queues of the [j]-th connection of a VM, found by their numbers. *)
Lemma queue_ends t b j i : topology_ok t = true -> neighbours t b !! j = Some i ->
  (queue_interface t b (Z.of_nat j * 2) = Some (mkItf false Uses "VirtQueueDrv" (ether i "_send")) /\
   queue_interface t b (Z.of_nat j * 2 + 1) = Some (mkItf false Uses "VirtQueueDev" (ether i "_recv"))) /\
  queue_end t b (Z.of_nat j * 2) = Some ("VirtQueueDrv"%string, channel_key b i) /\
  queue_end t b (Z.of_nat j * 2 + 1) = Some ("VirtQueueDev"%string, channel_key i b).
Proof.
  intros Ht Hj. unfold neighbours in Hj. destruct (of_vm b t) as [n|] eqn:En; [|done].
  pose proof (of_vm_some _ _ _ En) as [Hn Hb]. destruct (call_facts _ _ Ht Hn) as (Hlen & _).
  unfold queue_end, queue_interface, VM_CONNECTION_COMPONENT_DEF. rewrite En. cbn [mbind option_bind].
  unfold __COMPONENT_DECL, limit. rewrite CALL_spec by lia. cbn [mbind option_bind].
  set (id_of := fun i : interface => match attribute_of (all_settings t) (vm b) (i_name i +:+ "_id") with
                          | Some (VInt z) => Some z | _ => None end).
  assert (forall q l, List.find (fun i => match attribute_of (all_settings t) (vm b) (i_name i +:+ "_id") with
                          | Some (VInt z) => Z.eqb z q | _ => false end) l =
    List.find (fun x => match id_of x with Some z => Z.eqb z q | None => false end) l) as Ef.
  { intros q l. induction l as [|x l IH]; [done|]. cbn [List.find]. rewrite IH. unfold id_of.
    by destruct (attribute_of _ _ _) as [[]|]. }
  rewrite !Ef. destruct (find_numbered id_of (vm_ids n) 0 j i) as [E1 E2]; [|done|].
  - intros m x Hm. unfold id_of. cbn [i_name]. rewrite !ether_app, <-Hb.
    pose proof (fun a v => queue_attribute t n m x a v Ht Hn Hm) as Ha. split.
    + fold (send_attr x "_id"). by rewrite (Ha (send_attr x "_id") (VInt (Z.of_nat m * 2))) by (by left).
    + fold (recv_attr x "_id"). by rewrite (Ha (recv_attr x "_id") (VInt (Z.of_nat m * 2 + 1))) by (by right; right; left).
  - pose proof (fun a v => queue_attribute t n j i a v Ht Hn Hj) as Ha.
    rewrite !Z.add_0_l in *. rewrite E1, E2. split; [done|]. cbn [mbind option_bind i_name i_type]. rewrite !ether_app, <-Hb. split.
    + fold (send_attr i "_attributes"). by rewrite (Ha (send_attr i "_attributes") (VString (channel_key (base_id n) i))) by (by right; left).
    + fold (recv_attr i "_attributes"). by rewrite (Ha (recv_attr i "_attributes") (VString (channel_key i (base_id n)))) by (by do 3 right; left).
Qed.

Lemma layout_lookup n j i : vm_ids n !! j = Some i ->
  layout_of n !! j = Some {| mac_addr := MACADDRESS i; send_id := Z.of_nat j * 2; recv_id := Z.of_nat j * 2 + 1 |}.
Proof.
  unfold layout_of, numbered. replace (Z.of_nat j) with (Z.of_nat (0 + j)) by done. generalize 0%nat as k.
  revert j. induction (vm_ids n) as [|x ids IH]; intros j k Hj; [done|].
  cbn [length seq zip zip_with map concat app __ADD_MACADDR_MAPPING fst snd]. destruct j as [|j]; cbn in Hj |- *.
  - injection Hj as ->. by rewrite Nat.add_0_r.
  - etransitivity; [exact (IH j (S k) Hj)|]. by rewrite Nat.add_succ_r.
Qed.
Lemma layout_length n : length (layout_of n) = length (vm_ids n).
Proof.
  unfold layout_of, numbered. generalize 0%nat as k. induction (vm_ids n) as [|x ids IH]; intros k; [done|].
  cbn. by rewrite IH.
Qed.

(** ** Names of shared memory *)

(** The ordered pairs of connected VMs. *)
Definition links (t : topology) : list (N * N) := concat (map (fun n => map (pair (base_id n)) (vm_ids n)) t).
(** Each pair has a memory of its own. *)
Definition keys_ok (t : topology) : bool :=
  bool_decide (NoDup (map (fun p => channel_key (fst p) (snd p)) (links t))).

Lemma in_links t b i : topology_ok t = true -> (b, i) ∈ links t <-> i ∈ neighbours t b.
Proof.
  intros Ht. unfold links. rewrite list_elem_of_In, in_concat. split.
  - intros (l & (n & <- & Hn)%in_map_iff & (x & [= <- <-] & Hx)%in_map_iff).
    unfold neighbours. rewrite (of_vm_in t n Ht) by by apply list_elem_of_In. by apply list_elem_of_In.
  - intros Hi. destruct (neighbour_call _ _ _ Hi) as (n & Hn & <- & E). rewrite E in Hi.
    eexists. split; [apply in_map_iff; exists n; split; [done|by apply list_elem_of_In]|].
    by apply in_map, list_elem_of_In.
Qed.

(** The key of a link is no other link's. *)
Lemma keys_inj t b i b' i' : topology_ok t = true -> keys_ok t = true ->
  i ∈ neighbours t b -> i' ∈ neighbours t b' -> channel_key b i = channel_key b' i' -> b = b' /\ i = i'.
Proof.
  intros Ht Hk%bool_decide_eq_true_1 Hi%(in_links _ _ _ Ht) Hi'%(in_links _ _ _ Ht) E.
  enough ((b, i) = (b', i')) as [= -> ->] by done.
  revert Hk Hi Hi' E. generalize (links t) as l. clear. intros l. induction l as [|x l IH]; intros Hn H1 H2 E.
  - by apply elem_of_nil in H1.
  - cbn in Hn. apply list.NoDup_cons in Hn as [Hx Hn].
    apply elem_of_cons in H1 as [H1|H1], H2 as [H2|H2]; [congruence|subst x|subst x|by apply IH]; destruct Hx;
      apply list_elem_of_In, in_map_iff; [exists (b', i')|exists (b, i)]; by rewrite list_elem_of_In in *.
Qed.

(** Numbers of one digit keep the names apart. *)
Lemma text_digit n : (n < 10)%N -> exists c, text n = String c EmptyString.
Proof.
  intros H. assert (n ∈ [0; 1; 2; 3; 4; 5; 6; 7; 8; 9]%N) as Hn.
  { rewrite !elem_of_cons. lia. }
  rewrite !elem_of_cons, elem_of_nil in Hn.
  repeat destruct Hn as [->|Hn]; [by eexists (Ascii.Ascii _ _ _ _ _ _ _ _)..|done].
Qed.
Lemma channel_key_inj b i b' i' : (b < 10)%N -> (b' < 10)%N ->
  channel_key b i = channel_key b' i' -> b = b' /\ i = i'.
Proof.
  intros [c E]%text_digit [c' E']%text_digit. unfold channel_key. intros Ek.
  pose proof (text_inj b b') as Hb. rewrite E, E' in *.
  change (String c (text i) = String c' (text i')) in Ek. injection Ek as -> Ei%text_inj. split; [by apply Hb|done].
Qed.
Lemma links_nodup t : topology_ok t = true -> NoDup (links t).
Proof.
  intros Ht. assert (forall n, n ∈ t -> NoDup (vm_ids n)) as Hl
    by (intros n Hn; by destruct (call_facts _ _ Ht Hn) as (_ & ? & _)).
  apply andb_true_iff in Ht as [Ht%bool_decide_eq_true_1 _]. unfold links.
  induction t as [|n t IH]; [constructor|]. cbn [map concat] in *. apply list.NoDup_cons in Ht as [Hn Ht].
  apply list.NoDup_app. split_and!.
  - apply NoDup_fmap_2_strong; [|apply Hl; left]. by intros ? ? _ _ [= ->].
  - intros x (i & <- & _)%list_elem_of_In%in_map_iff Hx. apply list_elem_of_In, in_concat in Hx.
    destruct Hx as (l & (m & <- & Hm)%in_map_iff & (i' & E & _)%in_map_iff).
    destruct Hn. injection E as <- _. by apply list_elem_of_In, in_map.
  - apply IH; [done|]. intros m Hm. by apply Hl, list_elem_of_further.
Qed.
Lemma keys_differ t : topology_ok t = true -> forallb (fun n => (base_id n <? 10)%N) t = true -> keys_ok t = true.
Proof.
  intros Ht Hs. rewrite forallb_forall in Hs. apply bool_decide_eq_true_2, NoDup_fmap_2_strong; [|by apply links_nodup].
  assert (forall b i, (b, i) ∈ links t -> (b < 10)%N) as Hd.
  { intros b i (n & Hn & <- & _)%(in_links _ _ _ Ht)%neighbour_call. by apply N.ltb_lt, Hs, list_elem_of_In. }
  intros [b i] [b' i'] H1%Hd H2%Hd E. cbn in E. by apply channel_key_inj in E as [-> ->].
Qed.

(** Larger ones do not: both channels between VM 1 and VM 11 lie in the memory
    111. *)
Lemma keys_clash :
  let t := [mkCall 1 [11]; mkCall 11 [1]]%N in
  topology_ok t = true /\ keys_ok t = false /\
  queue_end t 1 0 = Some ("VirtQueueDrv", "111")%string /\ queue_end t 1 1 = Some ("VirtQueueDev", "111")%string.
Proof. by vm_compute. Qed.

(** ** Connections and handlers *)

Lemma connect_spec name to_end t : topology_ok t = true ->
  VM_CONNECTION_CONNECT_VMS name to_end t = Some (mkConn "seL4VirtQueues" (name +:+ "_conn")
    ((To, to_end) :: concat (map (fun n => concat (map (__CONNECTION_ADD_INTERFACE_END (base_id n)) (vm_ids n))) t))).
Proof.
  intros Ht. unfold VM_CONNECTION_CONNECT_VMS.
  match goal with |- mbind _ ?m = _ => assert (m = Some
    (map (fun n => concat (map (__CONNECTION_ADD_INTERFACE_END (base_id n)) (vm_ids n))) t)) as ->; [|done] end.
  apply mapM_Some, list.Forall2_fmap_r, Forall_Forall2_diag, List.Forall_forall. intros n Hn%list_elem_of_In.
  destruct (call_facts _ _ Ht Hn) as [Hl _]. unfold __CONNECTION_PERVM_ADD_INTERFACES, limit.
  by rewrite CALL_SINGLE_spec by lia.
Qed.

(** A VM's own ends, and those of the others. *)
Lemma vm_call_ends b n : concat (map (end_at (vm b)) (concat (map (__CONNECTION_ADD_INTERFACE_END (base_id n)) (vm_ids n)))) =
  if decide (base_id n = b) then concat (map (fun i => [(From, ether i "_send"); (From, ether i "_recv")]) (vm_ids n)) else [].
Proof.
  induction (vm_ids n) as [|i ids IH]; [by case_decide|]. cbn [map concat app __CONNECTION_ADD_INTERFACE_END].
  rewrite !end_at_vm, IH. by case_decide.
Qed.

(** The queues a component declares are connected, each once. *)
Lemma queues_connected name to_end t b itfs : topology_ok t = true -> word (fst to_end) = true ->
  VM_CONNECTION_COMPONENT_DEF b t = Some itfs ->
  exists c, VM_CONNECTION_CONNECT_VMS name to_end t = Some c /\ ends_at (vm b) [c] = omap needed itfs.
Proof.
  intros Ht Hw Hi. eexists. split; [by apply connect_spec|].
  unfold VM_CONNECTION_COMPONENT_DEF in Hi. destruct (of_vm b t) as [n|] eqn:En; [|done].
  pose proof (of_vm_some _ _ _ En) as [Hn Hb]. destruct (call_facts _ _ Ht Hn) as (Hl & _).
  cbn [mbind option_bind] in Hi. unfold __COMPONENT_DECL, limit in Hi. rewrite CALL_spec in Hi by lia. injection Hi as <-.
  unfold ends_at. cbn [map c_ends concat]. rewrite app_nil_r. destruct to_end as [w x]. cbn [map concat].
  rewrite end_at_word by done. cbn [app].
  transitivity (concat (map (fun i => [(From, ether i "_send"); (From, ether i "_recv")]) (vm_ids n))).
  - apply andb_true_iff in Ht as [Hnd%bool_decide_eq_true_1 _]. clear En Hl Hw.
    induction t as [|m t IH]; [by apply elem_of_nil in Hn|]. cbn [map concat] in *. apply list.NoDup_cons in Hnd as [Hm Hnd].
    rewrite map_app, concat_app, vm_call_ends. apply elem_of_cons in Hn as [<-|Hn].
    + rewrite decide_True by done. rewrite <-(app_nil_r (concat (map _ (vm_ids n)))) at 2. f_equal.
      clear IH Hnd. subst b. induction t as [|m t IH]; [done|]. cbn [map concat] in *.
      rewrite map_app, concat_app, vm_call_ends, decide_False, IH; [done| |].
      * intros H. apply Hm. by apply list_elem_of_further.
      * intros E. apply Hm. rewrite E. apply list_elem_of_here.
    + rewrite decide_False; [by apply IH|]. rewrite <-Hb. intros E. apply Hm. rewrite E.
      by apply list_elem_of_In, in_map, list_elem_of_In.
  - clear. induction (vm_ids n) as [|i ids IH]; [done|]. cbn [map concat app __COMPONENT_DECL_ADD_INTERFACE_END].
    cbn. by rewrite IH.
Qed.

Definition handlers_of (n : call) : list init_con :=
  concat (map (__INIT_ADD_INTERFACE_END (base_id n)) (vm_ids n)) ++ [mkInitCon "make_virtio_net_vswitch" None].
Lemma init_spec t n : topology_ok t = true -> n ∈ t ->
  VM_CONNECTION_INIT_HANDLER (base_id n) t = Some (handlers_of n).
Proof.
  intros Ht Hn. unfold VM_CONNECTION_INIT_HANDLER. rewrite (of_vm_in _ _ Ht Hn). cbn [mbind option_bind].
  destruct (call_facts _ _ Ht Hn) as [Hl _]. unfold __CONNECTION_PERVM_ADD_INIT, limit. by rewrite CALL_SINGLE_spec by lia.
Qed.

(** C38 -- A topology is wired as it says.  For every topology the macros are meant
    for they all expand.  Then for every VM [b] and each VM [i] it is connected
    to: the entry of [b]'s switch for [i] has [i]'s address and the numbers of
    two queues, which [b]'s component declares; the one it sends on lies in the
    same memory as the one that [i]'s switch has for receiving from [b], and the
    two are connected as driver and device; both of [b]'s queues for [i] call
    the switch's function when they are signalled.  With VM numbers below 10, no
    other pair shares the memory. *)
Theorem topology_wired (t : topology) (b i : N) : topology_ok t = true -> i ∈ neighbours t b ->
  exists nb ni j j' per_vm pairs handlers,
    VM_CONNECTION_CONFIG MACADDRESS t = Some (per_vm, pairs) /\ nb ∈ t /\ ni ∈ t /\ base_id nb = b /\ base_id ni = i /\
    (queue_settings nb, MACADDRESS b, layout_of nb) ∈ per_vm /\ (queue_settings ni, MACADDRESS i, layout_of ni) ∈ per_vm /\
    layout_of nb !! j = Some {| mac_addr := MACADDRESS i; send_id := Z.of_nat j * 2; recv_id := Z.of_nat j * 2 + 1 |} /\
    layout_of ni !! j' = Some {| mac_addr := MACADDRESS b; send_id := Z.of_nat j' * 2; recv_id := Z.of_nat j' * 2 + 1 |} /\
    queue_end t b (Z.of_nat j * 2) = Some ("VirtQueueDrv"%string, channel_key b i) /\
    queue_end t i (Z.of_nat j' * 2 + 1) = Some ("VirtQueueDev"%string, channel_key b i) /\
    (vm b +:+ "." +:+ ether i "_send", vm i +:+ "." +:+ ether b "_recv") ∈ pairs /\
    VM_CONNECTION_INIT_HANDLER b t = Some handlers /\
    (forall badge, badge ∈ [send_badge i; recv_badge i] ->
       mkInitCon "make_virtio_net_vswitch_driver_dummy" (Some (badge, "virtio_net_notify_vswitch"%string)) ∈ handlers) /\
    (forallb (fun n => (base_id n <? 10)%N) t = true -> forall b' i', i' ∈ neighbours t b' ->
       channel_key b' i' = channel_key b i -> b' = b /\ i' = i).
Proof.
  intros Ht Hi. assert (forallb (fun n => (base_id n <? 10)%N) t = true -> forall b' i', i' ∈ neighbours t b' ->
       channel_key b' i' = channel_key b i -> b' = b /\ i' = i) as Hkeys.
  { intros Hs b' i' Hb' E. by apply (keys_inj t b' i' b i Ht (keys_differ t Ht Hs)). }
  pose proof (neighbours_sym _ _ _ Ht Hi) as Hi'.
  destruct (neighbour_call _ _ _ Hi) as (nb & Hnb & Eb & Enb), (neighbour_call _ _ _ Hi') as (ni & Hni & Ei & Eni).
  pose proof Hi as (j & Hj)%list_elem_of_lookup. pose proof Hi' as (j' & Hj')%list_elem_of_lookup.
  exists nb, ni, j, j'. eexists _, _, (handlers_of nb). split; [by apply config_spec|].
  destruct (queue_ends t b j i Ht Hj) as (_ & E1 & _), (queue_ends t i j' b Ht Hj') as (_ & _ & E2).
  rewrite Enb in *. rewrite Eni in *. subst b i.
  assert (forall n, n ∈ t -> (queue_settings n, MACADDRESS (base_id n), layout_of n) ∈
    map (fun n => (queue_settings n, MACADDRESS (base_id n), layout_of n)) t) as Hin.
  { intros n Hn. apply list_elem_of_In, (in_map (fun n => (queue_settings n, MACADDRESS (base_id n), layout_of n))), list_elem_of_In, Hn. }
  split_and!; try done; try by apply Hin.
  - by apply layout_lookup.
  - by apply layout_lookup.
  - apply list_elem_of_In, in_concat. eexists. split; [apply (in_map _ _ nb), list_elem_of_In, Hnb|].
    apply in_concat. eexists. split; [apply (in_map _ _ (base_id ni)), list_elem_of_In, Hi|]. by left.
  - by apply init_spec.
  - intros badge Hbadge. apply elem_of_app. left. apply list_elem_of_In, in_concat.
    eexists. split; [apply (in_map _ _ (base_id ni)), list_elem_of_In, Hi|]. rewrite !elem_of_cons, elem_of_nil in Hbadge.
    destruct Hbadge as [->|[->|[]]]; [by left|by right; left].
Qed.

End Wiring.

(** * Witnesses *)

(** The example of the header: three VMs, each connected to the others. *)
Definition topology_all : topology := [mkCall 0 [1; 2]; mkCall 1 [0; 2]; mkCall 2 [0; 1]]%N.
Definition demo_mac (id : N) : list Z := [2; 0; 0; 0; 0; Z.of_N id].

Lemma topology_wired_witness :
  topology_ok topology_all = true /\ 2%N ∈ neighbours topology_all 1 /\
  exists j j', layout_of demo_mac (mkCall 1 [0; 2]%N) !! j = Some {| mac_addr := demo_mac 2; send_id := Z.of_nat j * 2; recv_id := Z.of_nat j * 2 + 1 |} /\
    queue_end topology_all 1 (Z.of_nat j * 2) = Some ("VirtQueueDrv"%string, channel_key 1 2) /\
    queue_end topology_all 2 (Z.of_nat j' * 2 + 1) = Some ("VirtQueueDev"%string, channel_key 1 2).
Proof.
  split; [reflexivity|]. split; [by right; left|].
  destruct (topology_wired demo_mac topology_all 1 2) as (nb & ni & j & j' & ? & ? & ? & _ & Hb & _ & Eb & _ & _ & _ & H1 & _ & H2 & H3 & _).
  - reflexivity.
  - by right; left.
  - exists j, j'. split; [|by split]. assert (nb = mkCall 1 [0; 2]%N) as <-; [|exact H1].
    unfold topology_all in Hb. rewrite !elem_of_cons, elem_of_nil in Hb. by destruct Hb as [->|[->|[->|[]]]].
Defined.
