(* ===== verification/Network.v ===== *)
(** The network of an application: several x86 VMMs, configured by the macros of
    connections.h (Topology), each running make_vswitch_net, emul_raw_tx and
    virtio_net_notify_vswitch of virtio_net_vswitch.c (X86Virtio, Vnet), over
    shared memory and notifications.

    Each VMM is a process of its own: a step is one transmission of a guest or
    one notification served by a VMM, and the steps of different VMMs interleave
    in any order.  A virtqueue in shared memory is [VirtQueue] of Vnet with
    [SharedQueue], what its two ends do to each other. *)

From stdpp Require Import gmap strings.
From S2P Require Import Prelude Calls.
From S2P Require Import I8254 Mc146818 Serial Hpet Vmm.
From S2P Require Import Console Vnet.
From S2P Require Import X86Virtio.
From S2P Require Import Assembly.
From S2P Require Import Topology.

Open Scope Z_scope.

(** * Shared memory *)

(** A new virtqueue, and what the driver's [scatter_send_buffer] does to it.
    Taking back used buffers leaves those that are available. *)
Class SharedQueue (Q : VirtQueue) (L : VirtQueueLaws Q) := {
  vq_new : vq;
  vq_put : vq -> frame -> vq;
  new_frames : vq_frames vq_new = [];
  put_frames q f : vq_frames (vq_put q f) = vq_frames q ++ [f];
  used_keeps q h q' : virtqueue_get_used_buf q = Some (h, q') -> vq_frames q' = vq_frames q;
  gather_keeps q h b h' q' : gather_buffer q h = Some (b, h', q') -> vq_frames q' = vq_frames q }.

Section Network.
Context {Q : VirtQueue} {L : VirtQueueLaws Q} {SQ : SharedQueue Q L}.

(** The application: its topology, the addresses of its guests, and what the
    libraries answer while the VMMs start. *)
Context (t : topology) (MACADDRESS : N -> list Z) (boot : VirtioEnv).

(** The badges CAmkES gives to the queues of a VM, and the address of a
    function. *)
Context (badge_of : N -> string -> Z) (address_of : string -> Z).

(** libvswitch and the driver: the table of VM [v] as the VMM has left it, and a
    queue that answers [answers] to the frames put in it. *)
Context (vswitch_of : list (list Z * Z) -> (list net_event -> Z -> frame -> Z) -> Vswitch).

(** * A VMM of the network *)

(** What VM [v] is configured with. *)
Definition vm_env (v : N) : VirtioEnv := {|
  virtio_reply := virtio_reply;
  ether_aton_r := ether_aton_r;
  vswitch_mac_address := MACADDRESS v;
  vswitch_layout :=
    match n ← of_vm v t; __CONFIG_EXPAND_PERVM MACADDRESS n with Some (_, _, layout) => layout | None => [] end;
  ethdriver_mac := ethdriver_mac;
  VIRTIO_CON_MAX_PORTS := VIRTIO_CON_MAX_PORTS;
  ZF_LOGF_aborts := ZF_LOGF_aborts |}.

(** Its switch, as make_vswitch_net leaves it. *)
Definition vm_bss : Virtio := X86Virtio.mkVirtio Q (fun _ => 0) [] (mkConsole [] ∅ []) [] [] [].
Definition switch_nodes (v : N) : list vswitch_node :=
  match @make_vswitch_net Q (vm_env v) vm_bss with
  | Ok (_, s) => g_vswitch s
  | Fault _ => []
  end.
Definition table (v : N) : list (list Z * Z) := map (fun n => (n_mac n, n_send n)) (switch_nodes v).

(** The functions for notifications that [init_con_irq_init] finds. *)
Definition vm_cons (v : N) : list (option (Z * Z)) :=
  match VM_CONNECTION_INIT_HANDLER v t with
  | Some l => map (fun c => '(badge, fn) ← ic_irq c; Some (badge_of v badge, address_of fn)) l
  | None => []
  end.

(** The shared memory of a queue of [v], and the VM at its other end with the
    badge that one is signalled with. *)
Definition key_of (v : N) (q : Z) : string := match queue_end t v q with Some (_, key) => key | None => "" end.
Definition peer_of (v : N) (q : Z) : option (N * Z) :=
  i ← queue_interface t v q;
  match List.find (fun i' => bool_decide (i_name i = ether i' "_send")) (neighbours t v) with
  | Some i' => Some (i', badge_of i' (recv_badge v))
  | None =>
      i' ← List.find (fun i' => bool_decide (i_name i = ether i' "_recv")) (neighbours t v);
      Some (i', badge_of i' (send_badge v))
  end.

(** * The state *)

(** The queue in each shared memory and the notification word of each VMM.  The
    rest is history: what each guest has given to its device, what was put in and
    taken out of each memory, and what each guest was given. *)
Record network := mkNetwork {
  memory : string -> vq;
  pending : N -> Z;
  handed : N -> list frame;
  sent : string -> list frame;
  taken : string -> list frame;
  inbox : N -> list frame }.

Definition network_start : network :=
  mkNetwork (fun _ => vq_new) (fun _ => 0) (fun _ => []) (fun _ => []) (fun _ => []) (fun _ => []).

Definition set {A B} `{EqDecision A} (a : A) (b : B) (f : A -> B) : A -> B := fun x => if decide (x = a) then b else f x.

(** [notify()] of a queue of [v]. *)
Definition signal (v : N) (q : Z) (n : network) : network :=
  match peer_of v q with
  | Some (i, badge) =>
      mkNetwork (memory n) (set i (pending n i .| badge) (pending n)) (handed n) (sent n) (taken n) (inbox n)
  | None => n
  end.

(** ** A guest transmits *)

Definition put_frame (v : N) (q : Z) (f : frame) (n : network) : network :=
  let key := key_of v q in
  mkNetwork (set key (vq_put (memory n key) f) (memory n)) (pending n) (handed n)
    (set key (sent n key ++ [f]) (sent n)) (taken n) (inbox n).

(** The effects of the calls [es], made after [before]. *)
Fixpoint carry_out (answers : list net_event -> Z -> frame -> Z) (v : N) (before es : list net_event) (n : network) : network :=
  match es with
  | [] => n
  | e :: es =>
      carry_out answers v (before ++ [e]) es
        match e with
        | SendBuffer q f => if answers before q f <? 0 then n else put_frame v q f n
        | NotifyQueue q => signal v q n
        | _ => n
        end
  end.

Definition transmit (v : N) (frames : list frame) (answers : list net_event -> Z -> frame -> Z) (n : network)
    : outcome network :=
  '(_, es) ← @emul_raw_tx (vswitch_of (table v) answers) frames [];
  Ok (carry_out answers v [] es
       (mkNetwork (memory n) (pending n) (set v (handed n v ++ frames) (handed n)) (sent n) (taken n) (inbox n))).

(** ** A VMM serves a notification *)

(** The nodes of the switch with what is in their queues. *)
Definition vnodes_of (v : N) (n : network) : list vnode :=
  map (fun nd => mkVnode (Some (n_recv nd, memory n (key_of v (n_recv nd))))
                         (Some (n_send nd, memory n (key_of v (n_send nd))))) (switch_nodes v).

(** The frames a receive queue gave the guest: those before its notification. *)
Fixpoint received_on (q : Z) (acc : list frame) (es : list net_event) : list frame :=
  match es with
  | [] => []
  | RxComplete f :: es => received_on q (acc ++ [f]) es
  | NotifyQueue q' :: es => (if q' =? q then acc else []) ++ received_on q [] es
  | _ :: es => received_on q acc es
  end.
Definition rx_frames (es : list net_event) : list frame :=
  omap (fun e => match e with RxComplete f => Some f | _ => None end) es.
Definition notified_queues (es : list net_event) : list Z :=
  omap (fun e => match e with NotifyQueue q => Some q | _ => None end) es.

Definition queues_of (nd : vnode) : list (Z * vq) := option_list (vn_recv nd) ++ option_list (vn_send nd).

(** The callback has left the queues as in [nodes], having made the calls [es]. *)
Definition written (v : N) (nodes : list vnode) (es : list net_event) (n : network) : network :=
  mkNetwork
    (fun key => match List.find (fun p => bool_decide (key_of v (fst p) = key)) (concat (map queues_of nodes)) with
                | Some p => snd p | None => memory n key end)
    (pending n) (handed n) (sent n)
    (fun key => taken n key ++
                match List.find (fun nd => bool_decide (key_of v (n_recv nd) = key)) (switch_nodes v) with
                | Some nd => received_on (n_recv nd) [] es | None => [] end)
    (set v (inbox n v ++ rx_frames es) (inbox n)).
Definition called_back (v : N) (nodes : list vnode) (es : list net_event) (n : network) : network :=
  foldl (fun n q => signal v q n) (written v nodes es n) (notified_queues es).

Definition callback (v : N) (alloc : list net_event -> Z -> bool) (fuel : nat) (n : network) : outcome network :=
  '(nodes, es) ← virtio_net_notify_vswitch alloc fuel (vnodes_of v n) [];
  Ok (called_back v nodes es n).

(** The functions a notification calls, as handle_async_event does (Vmm); those
    of other devices do not concern the network. *)
Fixpoint call_all (v : N) (alloc : list net_event -> Z -> bool) (fuel : nat) (calls : list event) (n : network)
    : outcome network :=
  match calls with
  | [] => Ok n
  | DeviceNotify f :: calls =>
      n ← (if f =? address_of "virtio_net_notify_vswitch" then callback v alloc fuel n else Ok n);
      call_all v alloc fuel calls n
  | _ :: calls => call_all v alloc fuel calls n
  end.
Definition serve (v : N) (alloc : list net_event -> Z -> bool) (fuel : nat) (n : network) : outcome network :=
  let badge := pending n v in
  let n := mkNetwork (memory n) (set v 0 (pending n)) (handed n) (sent n) (taken n) (inbox n) in
  if Z.testbit badge 27 then call_all v alloc fuel (notified badge (configured_irqs (vm_cons v))) n else Ok n.

(** * The VMMs of a good application *)

Context (Ht : topology_ok t = true).
Context (Hall : all_succeed).
(** The guests' addresses can be read. *)
Context (mac : N -> list Z) (Hmac : forall v, ether_aton_r (MACADDRESS v) = Some (mac v)).

(** The switch of a VM has its neighbours, in order. *)
Definition expected_nodes (v : N) : list vswitch_node :=
  imap (fun j i => X86Virtio.mkNode (mac i) (Z.of_nat j * 2) (Z.of_nat j * 2 + 1)) (neighbours t v).

Lemma vm_layout v : mapM (@node_of (vm_env v)) (@vswitch_layout (vm_env v)) = Some (expected_nodes v).
Proof using Ht Hmac.
  cbn [vswitch_layout vm_env]. unfold expected_nodes, neighbours.
  destruct (of_vm v t) as [n|] eqn:En; cbn [mbind option_bind]; [|done].
  pose proof (of_vm_some _ _ _ En) as [Hn _]. destruct (call_facts _ _ Ht Hn) as (Hl & _).
  rewrite config_perm by done. apply mapM_Some, Forall2_same_length_lookup.
  split; [by rewrite layout_length, length_imap|]. intros j m x Hm Hx.
  rewrite list_lookup_imap in Hx. destruct (vm_ids n !! j) as [i|] eqn:Ei; [|done]. cbn in Hx. injection Hx as <-.
  rewrite (layout_lookup _ _ _ _ Ei) in Hm. injection Hm as <-. unfold node_of. cbn [mac_addr send_id recv_id].
  change (@ether_aton_r (vm_env v)) with (@ether_aton_r boot). by rewrite Hmac.
Qed.

Lemma switch_nodes_spec v : switch_nodes v = expected_nodes v.
Proof using Ht Hall Hmac.
  unfold switch_nodes.
  pose proof (@make_vswitch_net_run Q (vm_env v) Hall (expected_nodes v) (vm_layout v) vm_bss) as H.
  apply wp_ok in H as (u & s & -> & _ & ->). done.
Qed.

Lemma node_lookup v j i : neighbours t v !! j = Some i ->
  switch_nodes v !! j = Some (X86Virtio.mkNode (mac i) (Z.of_nat j * 2) (Z.of_nat j * 2 + 1)).
Proof using Ht Hall Hmac.
  intros Hj. rewrite switch_nodes_spec. unfold expected_nodes. by rewrite list_lookup_imap, Hj.
Qed.
Lemma node_some v j nd : switch_nodes v !! j = Some nd ->
  exists i, neighbours t v !! j = Some i /\ nd = X86Virtio.mkNode (mac i) (Z.of_nat j * 2) (Z.of_nat j * 2 + 1).
Proof using Ht Hall Hmac.
  rewrite switch_nodes_spec. unfold expected_nodes. rewrite list_lookup_imap.
  destruct (neighbours t v !! j) as [i|]; [|done]. intros [= <-]. by exists i.
Qed.

(** The first element that satisfies a test only one does. *)
Lemma find_only {X} (p : X -> bool) l x : x ∈ l -> p x = true -> (forall y, y ∈ l -> p y = true -> y = x) ->
  List.find p l = Some x.
Proof using Type.
  intros Hx Hp Hu. destruct (List.find p l) as [y|] eqn:E.
  - apply List.find_some in E as [Hy Hpy]. f_equal. apply Hu; [by apply list_elem_of_In|done].
  - exfalso. pose proof (List.find_none _ _ E x) as Hn. rewrite Hp in Hn.
    enough (true = false) by done. apply Hn. by apply list_elem_of_In.
Qed.

(** A VM's queues for its [j]-th neighbour. *)
Lemma queue_keys v j i : neighbours t v !! j = Some i ->
  key_of v (Z.of_nat j * 2) = channel_key v i /\ key_of v (Z.of_nat j * 2 + 1) = channel_key i v.
Proof using Ht.
  intros Hj. destruct (queue_ends t v j i Ht Hj) as (_ & E1 & E2). unfold key_of. by rewrite E1, E2.
Qed.
Lemma queue_peers v j i : neighbours t v !! j = Some i ->
  peer_of v (Z.of_nat j * 2) = Some (i, badge_of i (recv_badge v)) /\
  peer_of v (Z.of_nat j * 2 + 1) = Some (i, badge_of i (send_badge v)).
Proof using Ht.
  intros Hj. destruct (queue_ends t v j i Ht Hj) as ((E1 & E2) & _).
  assert (i ∈ neighbours t v) as Hi by by eapply list_elem_of_lookup_2.
  assert (forall x y z, word y = true -> word z = true -> ether i y = ether x z -> x = i /\ y = z) as Hinj.
  { intros x y z Hy Hz E. apply paste_inj in E as (_ & -> & ->); by first [done|apply word_starts]. }
  unfold peer_of. rewrite E1, E2. cbn [mbind option_bind i_name]. split.
  - rewrite (find_only _ _ i Hi); [done|by apply bool_decide_eq_true_2|].
    intros x _ E%bool_decide_eq_true_1. by destruct (Hinj x "_send" "_send" eq_refl eq_refl E)%string as [-> _].
  - destruct (List.find (fun i' => bool_decide (ether i "_recv" = ether i' "_send")) (neighbours t v)) as [x|] eqn:Ex.
    + apply List.find_some in Ex as [_ E%bool_decide_eq_true_1]. by destruct (Hinj x "_recv" "_send" eq_refl eq_refl E)%string as [_ E'].
    + rewrite (find_only _ _ i Hi); [done|by apply bool_decide_eq_true_2|].
      intros x _ E%bool_decide_eq_true_1. by destruct (Hinj x "_recv" "_recv" eq_refl eq_refl E)%string as [-> _].
Qed.

(** ** Transmission *)

(** libvswitch keeps the table it was given, its driver answers as told, and
    [group] are the addresses it sends to everybody. *)
Context (VL : forall nodes answers, VswitchLaws (vswitch_of nodes answers)).
Context (Hnodes : forall nodes answers, @vs_nodes _ (VL nodes answers) = nodes).
Context (Hanswers : forall nodes answers l q f, @scatter_send_buffer (vswitch_of nodes answers) l q f = answers l q f).
Context (group : list Z -> bool) (Hgroup : forall nodes answers a, @is_group (vswitch_of nodes answers) a = group a).

(** A frame is for VM [i]. *)
Definition for_vm (i : N) (f : frame) : Prop := group (destaddr f) = true \/ destaddr f = mac i.

(** A queue takes a frame and is signalled. *)
Definition send_one (v : N) (f : frame) (n : network) (q : Z) : network := signal v q (put_frame v q f n).

(** What a transmission does: each frame in turn goes to queues it is for, each
    once, and the rest may be dropped. *)
Inductive txs (v : N) : list frame -> network -> network -> Prop :=
| Txs_stop frames n : txs v frames n n
| Txs_frame f frames n n' qs :
    NoDup qs ->
    (forall q, q ∈ qs -> exists j i, neighbours t v !! j = Some i /\ q = Z.of_nat j * 2 /\ for_vm i f) ->
    txs v frames (foldl (send_one v f) n qs) n' -> txs v (f :: frames) n n'.

Section Transmit.
Context (v : N) (answers : list net_event -> Z -> frame -> Z).
#[local] Instance V_v : Vswitch := vswitch_of (table v) answers.
#[local] Instance L_v : VswitchLaws V_v := VL (table v) answers.

Lemma table_lookup j a q : table v !! j = Some (a, q) ->
  exists i, neighbours t v !! j = Some i /\ q = Z.of_nat j * 2 /\ a = mac i.
Proof using Ht Hall Hmac.
  unfold table. intros Hj. rewrite list_lookup_fmap in Hj. destruct (switch_nodes v !! j) as [nd|] eqn:E; [|done].
  apply node_some in E as (i & Hi & ->). cbn in Hj. injection Hj as <- <-. by exists i.
Qed.

Lemma targets_spec f : reachable_dest f -> NoDup (target_queues f) /\
  forall q, q ∈ target_queues f -> exists j i, neighbours t v !! j = Some i /\ q = Z.of_nat j * 2 /\ for_vm i f.
Proof using Ht Hall Hmac Hnodes Hgroup.
  unfold target_queues, reachable_dest, for_vm. change (@vs_nodes V_v L_v) with (@vs_nodes _ (VL (table v) answers)).
  change (@is_group V_v) with (@is_group (vswitch_of (table v) answers)). rewrite Hgroup, Hnodes.
  intros Hr. destruct (group (destaddr f)) eqn:Hg.
  - split.
    + apply NoDup_alt. intros x y q Hx Hy. rewrite !list_lookup_fmap in *.
      destruct (table v !! x) as [[a p]|] eqn:Ex; [|done]. destruct (table v !! y) as [[b r]|] eqn:Ey; [|done].
      apply table_lookup in Ex as (_ & _ & -> & _), Ey as (_ & _ & -> & _). cbn in *.
      injection Hx as <-. injection Hy as E. lia.
    + intros q ([a p] & <- & Hq)%list_elem_of_In%in_map_iff. apply list_elem_of_In, list_elem_of_lookup in Hq as [j Hj].
      apply table_lookup in Hj as (i & Hi & -> & _). exists j, i. split_and!; [done|done|by left].
  - destruct Hr as [|H0]; [done|]. destruct (by_macaddr_some _ H0) as (_ & q & Eq).
    change (@vs_nodes V_v L_v) with (@vs_nodes _ (VL (table v) answers)) in Eq. rewrite Hnodes in Eq. rewrite Eq.
    split; [apply NoDup_singleton|]. intros p ->%list_elem_of_singleton.
    apply table_lookup in Eq as (i & Hi & E & Ha). exists (Z.to_nat (vswitch_get_destnode_index_by_macaddr (destaddr f))), i.
    split_and!; [done|done|by right].
Qed.

(** Carrying out what one frame made happen. *)
Lemma carry_send_all f qs l :
  exists qs' rest, qs = qs' ++ rest /\ forall more n,
    carry_out answers v l (fst (send_all f l qs) ++ more) n =
    carry_out answers v (l ++ fst (send_all f l qs)) more (foldl (send_one v f) n qs').
Proof using Hanswers.
  revert l. induction qs as [|q qs IH]; intros l; cbn [send_all].
  { exists [], []. split; [done|]. intros. by rewrite app_nil_r. }
  change (@scatter_send_buffer V_v l q f) with (@scatter_send_buffer (vswitch_of (table v) answers) l q f).
  rewrite Hanswers. destruct (answers l q f <? 0) eqn:E.
  - exists [], (q :: qs). split; [done|]. intros. cbn [fst app carry_out foldl]. by rewrite E.
  - destruct (IH (l ++ [SendBuffer q f; NotifyQueue q])) as (qs' & rest & -> & Ec).
    exists (q :: qs'), rest. split; [done|]. intros more n. cbn [fst app carry_out foldl]. rewrite E.
    replace ((l ++ [SendBuffer q f]) ++ [NotifyQueue q]) with (l ++ [SendBuffer q f; NotifyQueue q]) by (by rewrite <-app_assoc).
    change (signal v q (put_frame v q f n)) with (send_one v f n q). rewrite Ec. by rewrite <-app_assoc.
Qed.

Lemma run_txs frames l n :
  exists b es, for_until frames (@send_frame V_v) l = Ok (b, l ++ es) /\ txs v frames n (carry_out answers v l es n).
Proof using Ht Hall Hmac Hnodes Hgroup Hanswers.
  revert l n. induction frames as [|f frames IH]; intros l n; cbn [for_until].
  { exists false, []. rewrite app_nil_r. split; [done|]. apply Txs_stop. }
  destruct (send_frame_exact f l) as [Hyes Hno].
  assert (reachable_dest f \/ ~ reachable_dest f) as [Hr|Hr].
  { unfold reachable_dest. destruct (is_group (destaddr f)); [by left; left|].
    destruct (Z.le_gt_cases 0 (vswitch_get_destnode_index_by_macaddr (destaddr f))); [by left; right|right].
    intros [?|?]; [done|lia]. }
  2:{ exists true, []. rewrite (bind_ok _ _ _ _ _ (Hno Hr)), app_nil_r. split; [done|]. apply Txs_stop. }
  destruct (targets_spec f Hr) as [Hnd Hq]. rewrite (bind_ok _ _ _ _ _ (Hyes Hr)).
  destruct (carry_send_all f (target_queues f) l) as (qs & rest & E & Ec).
  set (es1 := fst (send_all f l (target_queues f))) in *.
  assert (forall n', txs v frames (foldl (send_one v f) n qs) n' -> txs v (f :: frames) n n') as Hstep.
  { intros n' Hn'. apply Txs_frame with qs; [|intros q Hin; apply Hq; rewrite E; apply elem_of_app; by left|done].
    rewrite E in Hnd. by apply list.NoDup_app in Hnd as (? & _). }
  destruct (snd (send_all f l (target_queues f))).
  - exists true, es1. split; [done|]. apply Hstep. rewrite <-(app_nil_r es1), Ec. apply Txs_stop.
  - destruct (IH (l ++ es1) (foldl (send_one v f) n qs)) as (b & es & E1 & H1).
    exists b, (es1 ++ es). split; [by rewrite E1, app_assoc|]. apply Hstep. by rewrite Ec.
Qed.

End Transmit.

(** A transmission ends, and is one of these. *)
Lemma transmit_run v frames answers n :
  exists n', transmit v frames answers n = Ok n' /\
    txs v frames (mkNetwork (memory n) (pending n) (set v (handed n v ++ frames) (handed n)) (sent n) (taken n) (inbox n)) n'.
Proof using Ht Hall Hmac Hnodes Hgroup Hanswers VL.
  destruct (run_txs v answers frames []
    (mkNetwork (memory n) (pending n) (set v (handed n v ++ frames) (handed n)) (sent n) (taken n) (inbox n)))
    as (b & es & E & H).
  eexists. split; [|exact H]. unfold transmit.
  assert (@emul_raw_tx (vswitch_of (table v) answers) frames [] = Ok (ETHIF_TX_COMPLETE, es)) as ->; [|done].
  unfold emul_raw_tx. by rewrite (bind_ok _ _ _ _ _ E).
Qed.

(** * The invariant *)

(** No two connections share their memory. *)
Context (Hk : keys_ok t = true).
(** Whether the guests always have room and buffers can be gathered. *)
Context (reliable : Prop).

#[local] Instance for_vm_dec i f : Decision (for_vm i f).
Proof using Type. unfold for_vm. apply _. Defined.

(** The channel from [b] to [i]: what was taken and what is there are what was
    sent, in order; nothing is missing if receiving never fails, and then [i]
    knows, unless it is the VM [busy], which is looking. *)
Record link_ok (busy : option N) (n : network) (b i : N) : Prop := {
  link_order : taken n (channel_key b i) ++ vq_frames (memory n (channel_key b i)) `sublist_of` sent n (channel_key b i);
  link_all : reliable -> taken n (channel_key b i) ++ vq_frames (memory n (channel_key b i)) = sent n (channel_key b i);
  link_signalled : reliable -> busy <> Some i -> vq_frames (memory n (channel_key b i)) <> [] ->
    has_badge (pending n i) (badge_of i (recv_badge b)) = true }.

(** What was sent from [b] to [i] was given by [b]'s guest for [i]. *)
Definition for_receiver (n : network) (b i : N) : Prop :=
  sent n (channel_key b i) `sublist_of` filter (for_vm i) (handed n b).
(** A guest is given what is taken from its channels. *)
Definition inbox_ok (n : network) (i : N) : Prop :=
  Permutation (inbox n i) (concat (map (fun b => taken n (channel_key b i)) (neighbours t i))).

Definition net_inv (busy : option N) (n : network) : Prop :=
  (forall b i, i ∈ neighbours t b -> link_ok busy n b i /\ for_receiver n b i) /\ forall i, inbox_ok n i.

Lemma has_badge_lor w b : has_badge (w .| b) b = true.
Proof using Type.
  apply Z.eqb_eq, Z.bits_inj'. intros k _. rewrite Z.land_spec, Z.lor_spec.
  destruct (Z.testbit b k); [by rewrite orb_true_r|by rewrite andb_false_r].
Qed.
Lemma has_badge_more w c b : has_badge w b = true -> has_badge (w .| c) b = true.
Proof using Type.
  intros H%Z.eqb_eq. apply Z.eqb_eq. rewrite Z.land_lor_distr_l, H. apply Z.bits_inj'. intros k _.
  rewrite Z.lor_spec, Z.land_spec. destruct (Z.testbit b k); [done|]. by rewrite andb_false_r.
Qed.

Lemma set_same {A B} `{EqDecision A} (a : A) (b : B) f : set a b f a = b.
Proof using Type. unfold set. by rewrite decide_True. Qed.
Lemma set_other {A B} `{EqDecision A} (a x : A) (b : B) f : x <> a -> set a b f x = f x.
Proof using Type. intros H. unfold set. by rewrite decide_False. Qed.

Lemma same_key b i b' i' : i ∈ neighbours t b -> i' ∈ neighbours t b' -> (b, i) <> (b', i') ->
  channel_key b i <> channel_key b' i'.
Proof using Ht Hk. intros Hi Hi' Hn E. by destruct (keys_inj t b i b' i' Ht Hk Hi Hi' E) as [-> ->]. Qed.

(** One frame more in a channel, of which the receiver knows. *)
Lemma send_one_eq v f n j i : neighbours t v !! j = Some i ->
  send_one v f n (Z.of_nat j * 2) =
  mkNetwork (set (channel_key v i) (vq_put (memory n (channel_key v i)) f) (memory n))
    (set i (pending n i .| badge_of i (recv_badge v)) (pending n)) (handed n)
    (set (channel_key v i) (sent n (channel_key v i) ++ [f]) (sent n)) (taken n) (inbox n).
Proof using Ht.
  intros Hj. unfold send_one, signal, put_frame. destruct (queue_keys _ _ _ Hj) as [-> _].
  by destruct (queue_peers _ _ _ Hj) as [-> _].
Qed.

Lemma send_one_link v f n j i b x : neighbours t v !! j = Some i -> x ∈ neighbours t b ->
  link_ok None n b x -> link_ok None (send_one v f n (Z.of_nat j * 2)) b x.
Proof using Ht Hk.
  intros Hj Hx [H1 H2 H3]. assert (i ∈ neighbours t v) as Hi by by eapply list_elem_of_lookup_2.
  rewrite (send_one_eq v f n j i Hj). destruct (decide ((b, x) = (v, i))) as [[= -> ->]|Hn].
  - constructor; cbn [taken memory sent pending]; rewrite ?set_same, ?put_frames, ?app_assoc.
    + apply sublist_app; [done|]. reflexivity.
    + intros Hr. by rewrite H2.
    + intros _ _ _. apply has_badge_lor.
  - pose proof (same_key _ _ _ _ Hx Hi Hn) as Hne.
    constructor; cbn [taken memory sent pending]; rewrite ?set_other by done; [done..|].
    intros Hr Hb Hf. unfold set. case_decide as E; [|by apply H3]. subst i. by apply has_badge_more, H3.
Qed.

(** What a frame's round adds to the channels. *)
Lemma send_all_sent v f qs n j i :
  NoDup qs -> (forall q, q ∈ qs -> exists j i, neighbours t v !! j = Some i /\ q = Z.of_nat j * 2 /\ for_vm i f) ->
  neighbours t v !! j = Some i ->
  sent (foldl (send_one v f) n qs) (channel_key v i) =
  sent n (channel_key v i) ++ (if decide (Z.of_nat j * 2 ∈ qs) then [f] else []).
Proof using Ht Hk.
  intros Hnd Hqs Hj. revert n. induction qs as [|q qs IH]; intros n; cbn [foldl].
  { by rewrite app_nil_r. }
  apply list.NoDup_cons in Hnd as [Hq Hnd].
  destruct (Hqs q ltac:(by left)) as (jq & iq & Hjq & -> & _).
  rewrite IH; [|done|intros p Hp; by apply Hqs, list_elem_of_further]. rewrite (send_one_eq v f n jq iq Hjq). cbn [sent].
  destruct (decide (jq = j)) as [->|Hne].
  - assert (iq = i) as -> by congruence. rewrite set_same, decide_False, decide_True by (by first [left|done]).
    by rewrite app_nil_r.
  - rewrite set_other.
    + f_equal. apply decide_ext. rewrite elem_of_cons. split; [by right|]. intros [E|]; [lia|done].
    + apply same_key; [by eapply list_elem_of_lookup_2..|]. intros [= ->].
      apply Hne. eapply (NoDup_lookup _ _ _ iq); [by apply (neighbours_nodup t v)|done|done].
Qed.

(** The rest of the state. *)
Definition same_history (n n' : network) : Prop := handed n' = handed n /\ taken n' = taken n /\ inbox n' = inbox n.

Lemma send_all_keeps v f qs n :
  (forall q, q ∈ qs -> exists j i, neighbours t v !! j = Some i /\ q = Z.of_nat j * 2 /\ for_vm i f) ->
  same_history n (foldl (send_one v f) n qs) /\
  (forall b i, i ∈ neighbours t b -> b <> v -> sent (foldl (send_one v f) n qs) (channel_key b i) = sent n (channel_key b i)) /\
  ((forall b i, i ∈ neighbours t b -> link_ok None n b i) ->
   forall b i, i ∈ neighbours t b -> link_ok None (foldl (send_one v f) n qs) b i).
Proof using Ht Hk.
  intros Hqs. revert n. induction qs as [|q qs IH]; intros n; cbn [foldl]; [by split_and!|].
  destruct (Hqs q ltac:(by left)) as (j & i & Hj & -> & _).
  destruct (IH ltac:(intros p Hp; by apply Hqs, list_elem_of_further) (send_one v f n (Z.of_nat j * 2))) as ((A1 & A2 & A3) & B & C).
  split; [|split].
  - unfold same_history. rewrite A1, A2, A3, (send_one_eq v f n j i Hj). by split_and!.
  - intros b x Hx Hb. rewrite B by done. rewrite (send_one_eq v f n j i Hj). cbn [sent]. apply set_other, same_key;
      [done|by eapply list_elem_of_lookup_2|congruence].
  - intros Hl. apply C. intros b x Hx. apply (send_one_link v f n j i); [done|done|by apply Hl].
Qed.

Lemma txs_inv v frames n n' H : txs v frames n n' -> handed n v = H ++ frames ->
  (forall b i, i ∈ neighbours t b -> link_ok None n b i) ->
  (forall i, i ∈ neighbours t v -> sent n (channel_key v i) `sublist_of` filter (for_vm i) H) ->
  (forall b i, i ∈ neighbours t b -> b <> v -> for_receiver n b i) ->
  same_history n n' /\ forall b i, i ∈ neighbours t b -> link_ok None n' b i /\ for_receiver n' b i.
Proof using Ht Hk.
  intros Htx. revert H. induction Htx as [frames n|f frames n n' qs Hnd Hqs _ IH]; intros H Hh Hl Hv Ho.
  - split; [done|]. intros b i Hi. split; [by apply Hl|]. destruct (decide (b = v)) as [->|]; [|by apply Ho].
    unfold for_receiver. rewrite Hh, list.filter_app. apply sublist_inserts_r. by apply Hv.
  - destruct (send_all_keeps v f qs n Hqs) as ((A1 & A2 & A3) & B & C).
    destruct (IH (H ++ [f])) as ((D1 & D2 & D3) & E).
    + by rewrite A1, Hh, <-app_assoc.
    + by apply C.
    + intros i Hi. pose proof Hi as (j & Hj)%list_elem_of_lookup. rewrite (send_all_sent v f qs n j i Hnd Hqs Hj), list.filter_app.
      apply sublist_app; [by apply Hv|]. case_decide as Hq; [|apply sublist_nil_l].
      destruct (Hqs _ Hq) as (j' & i' & Hj' & Ej & Hf). assert (j' = j) as -> by lia. assert (i' = i) as -> by congruence.
      rewrite filter_cons_True by done. reflexivity.
    + intros b i Hi Hb. unfold for_receiver. rewrite B, A1 by done. by apply Ho.
    + split; [|done]. unfold same_history. by rewrite D1, D2, D3.
Qed.

(** A transmission keeps the invariant. *)
Lemma transmit_inv v frames answers n : net_inv None n ->
  exists n', transmit v frames answers n = Ok n' /\ net_inv None n'.
Proof using Ht Hall Hmac Hnodes Hgroup Hanswers VL Hk.
  intros [Hl Hb]. destruct (transmit_run v frames answers n) as (n' & E & Htx). exists n'. split; [done|].
  apply (txs_inv v frames _ n' (handed n v)) in Htx as ((A1 & A2 & A3) & B).
  - split; [done|]. intros i. unfold inbox_ok. rewrite A3, A2. apply Hb.
  - cbn [handed]. by rewrite set_same.
  - intros b i Hi. destruct (Hl b i Hi) as [[H1 H2 H3] _]. by constructor.
  - intros i Hi. by destruct (Hl v i Hi) as [_ H].
  - intros b i Hi Hn. unfold for_receiver. cbn [handed sent]. rewrite set_other by done. by destruct (Hl b i Hi) as [_ H].
Qed.

(** ** Reception *)

Section Callback.
Context (alloc : list net_event -> Z -> bool).

Lemma free_pieces_frames fuel id q h l q' l' : free_pieces fuel id q h l = Ok (q', l') -> vq_frames q' = vq_frames q.
Proof using SQ.
  revert q h l. induction fuel as [|fuel IH]; intros q h l; cbn [free_pieces];
    destruct (gather_buffer q h) as [[[b h1] q1]|] eqn:Eg; [done|by intros [= <- <-]| |by intros [= <- <-]].
  rewrite (bind_ok _ _ l tt (l ++ [FreeBuffer id b])) by done. intros H%IH. rewrite H. by eapply gather_keeps.
Qed.
Lemma free_all_frames fuel id q l q' l' :
  virtio_net_notify_vswitch_send fuel id q l = Ok (q', l') -> vq_frames q' = vq_frames q.
Proof using SQ.
  revert q l. induction fuel as [|fuel IH]; intros q l; cbn [virtio_net_notify_vswitch_send];
    destruct (virtqueue_get_used_buf q) as [[h q1]|] eqn:Eg; [done|by intros [= <- <-]| |by intros [= <- <-]].
  unfold mbind, M_bind. destruct (free_pieces fuel id q1 h l) as [[q2 l2]|] eqn:E; [|done].
  intros H%IH. rewrite H, (free_pieces_frames _ _ _ _ _ _ _ E). by eapply used_keeps.
Qed.

(** A node's receive and send queue, with their numbers. *)
Definition node_with (x : (Z * vq) * (Z * vq)) : vnode := mkVnode (Some (fst x)) (Some (snd x)).
(** The calls made for it: buffers are freed, frames given to the guest. *)
Definition node_calls (r : Z) (got : list frame) (es : list net_event) : Prop :=
  exists s bufs, es = map (FreeBuffer s) bufs ++ map RxComplete got ++ [NotifyQueue r] \/
                 (got = [] /\ es = map (FreeBuffer s) bufs).

Record polled (x : (Z * vq) * (Z * vq)) (y : ((Z * vq) * (Z * vq)) * (list frame * list net_event)) : Prop := {
  polled_recv_id : fst (fst (fst y)) = fst (fst x);
  polled_send_id : fst (snd (fst y)) = fst (snd x);
  polled_order : fst (snd y) ++ vq_frames (snd (fst (fst y))) `sublist_of` vq_frames (snd (fst x));
  polled_all : rx_never_fails alloc -> fst (snd y) = vq_frames (snd (fst x)) /\ vq_frames (snd (fst (fst y))) = [];
  polled_send : vq_frames (snd (snd (fst y))) = vq_frames (snd (snd x));
  polled_freed : vq_used (snd (snd (fst y))) = [];
  polled_calls : node_calls (fst (fst x)) (fst (snd y)) (snd (snd y)) }.

Definition fuel_enough (fuel : nat) (x : (Z * vq) * (Z * vq)) : Prop := fuel_for fuel (node_with x).

Lemma poll_one fuel x l : fuel_enough fuel x ->
  exists y, poll_vswitch_node alloc fuel (node_with x) l = Ok (node_with (fst y), l ++ snd (snd y)) /\ polled x y.
Proof using SQ.
  destruct x as [[r qr] [s qs]]. intros [Hf1 Hf2]. cbn [node_with fst snd vn_recv vn_send frames_of used_of] in *.
  unfold poll_vswitch_node, node_with. cbn [fst snd vn_recv vn_send].
  assert (exists qs' bufs, poll_queue VQ_DRV_POLL (virtio_net_notify_vswitch_send fuel) (Some (s, qs)) l =
    Ok (Some (s, qs'), l ++ map (FreeBuffer s) bufs) /\ vq_frames qs' = vq_frames qs /\ vq_used qs' = [])
    as (qs' & bufs & E1 & F1 & U1).
  { cbn [poll_queue]. destruct (VQ_DRV_POLL qs) eqn:Ep.
    - destruct (free_all_run fuel s qs l Hf2) as (qs' & E & U). exists qs', (concat (vq_used qs)).
      rewrite (bind_ok _ _ _ _ _ E). split_and!; [done|by eapply free_all_frames|done].
    - exists qs, []. rewrite app_nil_r. split_and!; [done|done|by apply drv_poll]. }
  rewrite (bind_ok _ _ _ _ _ E1). clear E1. cbn [poll_queue]. destruct (VQ_DEV_POLL qr) eqn:Ep.
  - destruct (recv_run alloc fuel qr (l ++ map (FreeBuffer s) bufs) Hf1) as (qr' & got & lost & E2 & Ef & _ & H4 & H5).
    exists ((r, qr'), (s, qs'), (got, map (FreeBuffer s) bufs ++ map RxComplete got ++ [NotifyQueue r])). split.
    + rewrite (bind_ok _ _ _ (Some (r, qr')) ((l ++ map (FreeBuffer s) bufs) ++ map RxComplete got ++ [NotifyQueue r])).
      * cbn. by rewrite <-app_assoc.
      * unfold virtio_net_notify_vswitch_recv, mbind, M_bind. rewrite E2. cbn. by rewrite <-!app_assoc.
    + constructor; cbn [fst snd]; try done.
      * rewrite Ef. apply sublist_app; [reflexivity|]. apply sublist_inserts_l. reflexivity.
      * intros Hn. rewrite Ef, (H5 Hn), (H4 (H5 Hn)). split; [|done]. cbn. by rewrite app_nil_r.
      * exists s, bufs. by left.
  - exists ((r, qr), (s, qs'), ([], map (FreeBuffer s) bufs)). split; [done|].
    pose proof (dev_poll _ Ep) as Ed. constructor; cbn [fst snd app]; try done.
    exists s, bufs. by right.
Qed.

Lemma poll_all fuel xs l : Forall (fuel_enough fuel) xs ->
  exists ys, virtio_net_notify_vswitch alloc fuel (map node_with xs) l =
    Ok (map (fun y => node_with (fst y)) ys, l ++ concat (map (fun y => snd (snd y)) ys)) /\ Forall2 polled xs ys.
Proof using SQ.
  unfold virtio_net_notify_vswitch. intros H. revert l. induction H as [|x xs Hx _ IH]; intros l; cbn [map poll_nodes].
  { exists []. cbn. by rewrite app_nil_r. }
  destruct (poll_one fuel x l Hx) as (y & E1 & H1). rewrite (bind_ok _ _ _ _ _ E1).
  destruct (IH (l ++ snd (snd y))) as (ys & E2 & H2). exists (y :: ys).
  rewrite (bind_ok _ _ _ _ _ E2). cbn [map concat]. rewrite <-app_assoc. split; [done|by constructor].
Qed.

(** What the calls of a node amount to. *)
Lemma calls_received r got es q more : node_calls r got es ->
  received_on q [] (es ++ more) = (if r =? q then got else []) ++ received_on q [] more.
Proof using Type.
  intros (s & bufs & H).
  assert (forall acc fs m, received_on q acc (map RxComplete fs ++ m) = received_on q (acc ++ fs) m) as Hrx.
  { intros acc fs. revert acc. induction fs as [|f fs IH]; intros acc m; cbn; [by rewrite app_nil_r|].
    by rewrite IH, <-app_assoc. }
  assert (forall m, received_on q [] (map (FreeBuffer s) bufs ++ m) = received_on q [] m) as Hfree
    by (intros m; clear; by induction bufs).
  destruct H as [-> |[-> ->]]; rewrite <-?app_assoc, Hfree.
  - rewrite Hrx. done.
  - by destruct (r =? q).
Qed.
Lemma calls_frames r got es : node_calls r got es -> rx_frames es = got.
Proof using Type.
  intros (s & bufs & H).
  assert (forall l, rx_frames (map (FreeBuffer s) l) = []) as Hfree by (intros l; by induction l).
  assert (forall l, rx_frames (map RxComplete l) = l) as Hrx by (intros l; induction l as [|f l IH]; [done|]; cbn; f_equal; exact IH).
  unfold rx_frames in *. destruct H as [-> |[-> ->]]; [|apply Hfree]. rewrite !omap_app, Hfree, Hrx. cbn. by rewrite app_nil_r.
Qed.
Lemma calls_notified r got es : node_calls r got es -> forall q, q ∈ notified_queues es -> q = r.
Proof using Type.
  intros (s & bufs & H) q.
  assert (forall l, notified_queues (map (FreeBuffer s) l) = []) as Hfree by (intros l; by induction l).
  assert (forall l, notified_queues (map RxComplete l) = []) as Hrx by (intros l; by induction l).
  unfold notified_queues in *. destruct H as [-> |[-> ->]].
  - rewrite !omap_app, Hfree, Hrx. cbn. by intros ?%list_elem_of_singleton.
  - rewrite Hfree. by intros ?%elem_of_nil.
Qed.

End Callback.

(** Signalling changes notification words only, and sets bits. *)
Lemma signal_keeps v q n :
  memory (signal v q n) = memory n /\ handed (signal v q n) = handed n /\ sent (signal v q n) = sent n /\
  taken (signal v q n) = taken n /\ inbox (signal v q n) = inbox n /\
  forall i b, has_badge (pending n i) b = true -> has_badge (pending (signal v q n) i) b = true.
Proof using Type.
  unfold signal. destruct (peer_of v q) as [[i b]|]; [|by split_and!]. split_and!; try done. cbn [pending].
  intros x c H. unfold set. case_decide as E; [|done]. subst x. by apply has_badge_more.
Qed.
Lemma signals_keep v qs n :
  let n' := foldl (fun n q => signal v q n) n qs in
  memory n' = memory n /\ handed n' = handed n /\ sent n' = sent n /\ taken n' = taken n /\ inbox n' = inbox n /\
  forall i b, has_badge (pending n i) b = true -> has_badge (pending n' i) b = true.
Proof using Type.
  revert n. induction qs as [|q qs IH]; intros n; cbn [foldl]; [by split_and!|].
  destruct (IH (signal v q n)) as (-> & -> & -> & -> & -> & H).
  destruct (signal_keeps v q n) as (-> & -> & -> & -> & -> & H'). split_and!; try done. intros i b Hb. by apply H, H'.
Qed.

(** The queues of a VM's nodes. *)
Definition endpoints (v : N) (n : network) : list ((Z * vq) * (Z * vq)) :=
  map (fun nd => ((n_recv nd, memory n (key_of v (n_recv nd))), (n_send nd, memory n (key_of v (n_send nd))))) (switch_nodes v).
Lemma vnodes_endpoints v n : vnodes_of v n = map node_with (endpoints v n).
Proof using Type. unfold vnodes_of, endpoints. by rewrite map_map. Qed.
Lemma endpoint_at v n j i : neighbours t v !! j = Some i ->
  endpoints v n !! j = Some ((Z.of_nat j * 2 + 1, memory n (channel_key i v)), (Z.of_nat j * 2, memory n (channel_key v i))).
Proof using Ht Hall Hmac.
  intros Hj. unfold endpoints. rewrite list_lookup_fmap, (node_lookup v j i Hj). cbn.
  by destruct (queue_keys v j i Hj) as [-> ->].
Qed.
Lemma endpoint_some v n j x : endpoints v n !! j = Some x -> exists i, neighbours t v !! j = Some i.
Proof using Ht Hall Hmac.
  unfold endpoints. rewrite list_lookup_fmap. destruct (switch_nodes v !! j) as [nd|] eqn:E; [|done].
  apply node_some in E as (i & Hi & _). by exists i.
Qed.

Lemma nbr_same v j j' i : neighbours t v !! j = Some i -> neighbours t v !! j' = Some i -> j = j'.
Proof using Ht. intros. eapply NoDup_lookup; [by apply (neighbours_nodup t v)|done|done]. Qed.

Section CalledBack.
Context (alloc : list net_event -> Z -> bool) (v : N) (n : network).
Context (ys : list (((Z * vq) * (Z * vq)) * (list frame * list net_event))).
Context (Hys : Forall2 (polled alloc) (endpoints v n) ys).
Abbreviation es := (concat (map (fun y => snd (snd y)) ys)).

(** The node of the [j]-th neighbour. *)
Lemma polled_at j i : neighbours t v !! j = Some i ->
  exists y, ys !! j = Some y /\ polled alloc ((Z.of_nat j * 2 + 1, memory n (channel_key i v)), (Z.of_nat j * 2, memory n (channel_key v i))) y.
Proof using Ht Hall Hmac Hys.
  intros Hj. destruct (Forall2_lookup_l _ _ _ _ _ Hys (endpoint_at v n j i Hj)) as (y & Hy & Hp). by exists y.
Qed.
Lemma polled_some j y : ys !! j = Some y -> exists i, neighbours t v !! j = Some i /\
  polled alloc ((Z.of_nat j * 2 + 1, memory n (channel_key i v)), (Z.of_nat j * 2, memory n (channel_key v i))) y.
Proof using Ht Hall Hmac Hys.
  intros Hy. destruct (Forall2_lookup_r _ _ _ _ _ Hys Hy) as (x & Hx & Hp).
  destruct (endpoint_some _ _ _ _ Hx) as (i & Hi). exists i. split; [done|].
  rewrite (endpoint_at v n j i Hi) in Hx. by injection Hx as <-.
Qed.

(** The queues written back. *)
Lemma in_written p : p ∈ concat (map queues_of (map (fun y => node_with (fst y)) ys)) <->
  exists j y, ys !! j = Some y /\ (p = fst (fst y) \/ p = snd (fst y)).
Proof using Type.
  rewrite map_map, list_elem_of_In, in_concat. split.
  - intros (l & (y & <- & Hy%list_elem_of_In%list_elem_of_lookup)%in_map_iff & Hp). destruct Hy as [j Hy].
    exists j, y. split; [done|]. unfold queues_of, node_with in Hp. cbn in Hp. destruct Hp as [<-|[<-|[]]]; [by left|by right].
  - intros (j & y & Hy & Hp). eexists. split; [apply (in_map _ _ y), list_elem_of_In; by eapply list_elem_of_lookup_2|].
    cbn. destruct Hp as [->| ->]; [by left|by right; left].
Qed.

(** The memory of a written queue. *)
Lemma written_key p : p ∈ concat (map queues_of (map (fun y => node_with (fst y)) ys)) ->
  exists j i y, neighbours t v !! j = Some i /\ ys !! j = Some y /\
    ((p = fst (fst y) /\ key_of v (fst p) = channel_key i v) \/ (p = snd (fst y) /\ key_of v (fst p) = channel_key v i)).
Proof using Ht Hall Hmac Hys.
  intros (j & y & Hy & Hp)%in_written. destruct (polled_some j y Hy) as (i & Hi & [E1 E2 _ _ _ _ _]). cbn in E1, E2.
  exists j, i, y. split; [done|]. split; [done|]. destruct (queue_keys v j i Hi) as [K1 K2].
  destruct Hp as [-> | ->]; [left|right]; by rewrite ?E1, ?E2.
Qed.

(** A key of one of [v]'s links is that link's. *)
Lemma link_key b x b' x' : x ∈ neighbours t b -> x' ∈ neighbours t b' -> channel_key b x = channel_key b' x' -> b = b' /\ x = x'.
Proof using Ht Hk. intros. by apply (keys_inj t b x b' x'). Qed.

Abbreviation wr := (written v (map (fun y => node_with (fst y)) ys) es n).

Lemma in_nbr j i : neighbours t v !! j = Some i -> i ∈ neighbours t v /\ v ∈ neighbours t i.
Proof using Ht. intros Hj. assert (i ∈ neighbours t v) by by eapply list_elem_of_lookup_2. split; [done|by apply neighbours_sym]. Qed.

Lemma memory_at j i y : neighbours t v !! j = Some i -> ys !! j = Some y ->
  memory wr (channel_key i v) = snd (fst (fst y)) /\ memory wr (channel_key v i) = snd (snd (fst y)).
Proof using Ht Hall Hmac Hys Hk.
  intros Hi Hy. destruct (in_nbr j i Hi) as [Hiv Hvi]. pose proof (neighbours_irrefl t v Ht) as Hirr.
  destruct (polled_some j y Hy) as (i' & Hi' & [E1 E2 _ _ _ _ _]). assert (i' = i) as -> by congruence. cbn in E1, E2.
  destruct (queue_keys v j i Hi) as [K1 K2]. cbn [memory written].
  split.
  - rewrite (find_only _ _ (fst (fst y))); [done| | |].
    + apply in_written. exists j, y. split; [done|by left].
    + apply bool_decide_eq_true_2. by rewrite E1.
    + intros p Hp%written_key E%bool_decide_eq_true_1. destruct Hp as (j' & x & z & Hx & Hz & [[-> Ek]|[-> Ek]]); rewrite Ek in E.
      * destruct (in_nbr j' x Hx) as [Hxv Hvx]. destruct (link_key x v i v Hvx Hvi E) as [-> _].
        assert (j' = j) as -> by (by eapply nbr_same). by assert (z = y) as -> by congruence.
      * destruct (in_nbr j' x Hx) as [Hxv Hvx]. destruct (link_key v x i v Hxv Hvi E) as [-> _]. done.
  - rewrite (find_only _ _ (snd (fst y))); [done| | |].
    + apply in_written. exists j, y. split; [done|by right].
    + apply bool_decide_eq_true_2. by rewrite E2.
    + intros p Hp%written_key E%bool_decide_eq_true_1. destruct Hp as (j' & x & z & Hx & Hz & [[-> Ek]|[-> Ek]]); rewrite Ek in E.
      * destruct (in_nbr j' x Hx) as [Hxv Hvx]. destruct (link_key x v v i Hvx Hiv E) as [-> _]. done.
      * destruct (in_nbr j' x Hx) as [Hxv Hvx]. destruct (link_key v x v i Hxv Hiv E) as [_ ->].
        assert (j' = j) as -> by (by eapply nbr_same). by assert (z = y) as -> by congruence.
Qed.

Lemma memory_other b x : x ∈ neighbours t b -> b <> v -> x <> v -> memory wr (channel_key b x) = memory n (channel_key b x).
Proof using Ht Hall Hmac Hys Hk.
  intros Hx Hb Hxv. cbn [memory written].
  destruct (List.find _ _) as [p|] eqn:E; [|done]. apply List.find_some in E as [Hp E%bool_decide_eq_true_1].
  apply list_elem_of_In, written_key in Hp as (j & i & y & Hi & _ & Hp). destruct (in_nbr j i Hi) as [H1 H2].
  destruct Hp as [[-> Ek]|[-> Ek]]; rewrite Ek in E;
    [destruct (link_key i v b x H2 Hx E) as [_ ->]|destruct (link_key v i b x H1 Hx E) as [-> _]]; done.
Qed.

(** What the guest was given of each channel. *)
Lemma received_at j i y : neighbours t v !! j = Some i -> ys !! j = Some y ->
  received_on (Z.of_nat j * 2 + 1) [] es = fst (snd y).
Proof using Ht Hall Hmac Hys.
  intros Hi Hy. assert (forall k (zs : list (((Z * vq) * (Z * vq)) * (list frame * list net_event))), Forall2 (fun m z => node_calls (Z.of_nat m * 2 + 1) (fst (snd z)) (snd (snd z))) (seq k (length zs)) zs ->
    received_on (Z.of_nat j * 2 + 1) [] (concat (map (fun y => snd (snd y)) zs)) =
    if decide (k <= j)%nat then match zs !! (j - k)%nat with Some z => fst (snd z) | None => [] end else []) as Hgen.
  { clear. intros k zs. revert k. induction zs as [|z zs IH]; intros k H; cbn [map concat]; [by case_decide; destruct (j - k)%nat|].
    inversion_clear H as [|? ? ? ? Hz Hzs]. rewrite (calls_received _ _ _ _ _ Hz), (IH _ Hzs).
    destruct (Z.eqb_spec (Z.of_nat k * 2 + 1) (Z.of_nat j * 2 + 1)) as [E|E].
    - assert (k = j) as -> by lia. rewrite Nat.sub_diag. repeat case_decide; try lia. apply app_nil_r.
    - cbn [app]. repeat case_decide; try lia; [|done]. by replace (j - k)%nat with (S (j - S k)) by lia. }
  rewrite (Hgen 0%nat ys); [by rewrite decide_True, Nat.sub_0_r, Hy by lia|].
  apply Forall2_same_length_lookup. split; [by rewrite length_seq|]. intros m k z Hm Hz.
  apply lookup_seq in Hm as [-> _]. destruct (polled_some _ _ Hz) as (x & _ & Hp). apply (polled_calls _ _ _ Hp).
Qed.

Lemma taken_at j i y : neighbours t v !! j = Some i -> ys !! j = Some y ->
  taken wr (channel_key i v) = taken n (channel_key i v) ++ fst (snd y).
Proof using Ht Hall Hmac Hys Hk.
  intros Hi Hy. cbn [taken written]. f_equal. destruct (in_nbr j i Hi) as [H1 H2]. destruct (queue_keys v j i Hi) as [_ K2].
  rewrite (find_only _ _ (X86Virtio.mkNode (mac i) (Z.of_nat j * 2) (Z.of_nat j * 2 + 1))).
  - by apply (received_at j i).
  - eapply list_elem_of_lookup_2. by apply node_lookup.
  - apply bool_decide_eq_true_2. exact K2.
  - intros nd (j' & Hnd)%list_elem_of_lookup E%bool_decide_eq_true_1. apply node_some in Hnd as (x & Hx & ->).
    cbn [n_recv] in E. destruct (queue_keys v j' x Hx) as [_ K3]. rewrite K3 in E. destruct (in_nbr j' x Hx) as [H3 H4].
    destruct (link_key x v i v H4 H2 E) as [-> _]. by assert (j' = j) as -> by (by eapply nbr_same).
Qed.
Lemma taken_other b x : x ∈ neighbours t b -> x <> v -> taken wr (channel_key b x) = taken n (channel_key b x).
Proof using Ht Hall Hmac Hys Hk.
  intros Hx Hxv. cbn [taken written]. destruct (List.find _ _) as [nd|] eqn:E; [|apply app_nil_r].
  apply List.find_some in E as [Hnd E%bool_decide_eq_true_1].
  apply list_elem_of_In, list_elem_of_lookup in Hnd as (j & Hnd). apply node_some in Hnd as (i & Hi & ->).
  cbn [n_recv] in E. destruct (queue_keys v j i Hi) as [_ K]. rewrite K in E. destruct (in_nbr j i Hi) as [H1 H2].
  by destruct (link_key i v b x H2 Hx E) as [_ ->].
Qed.

End CalledBack.

Lemma concat_zip_app {X} (l l' : list (list X)) : length l = length l' ->
  Permutation (concat (zip_with app l l')) (concat l ++ concat l').
Proof using Type.
  revert l'. induction l as [|a l IH]; intros [|b l'] Hl; try done. cbn. rewrite IH by (cbn in Hl; lia).
  rewrite <-!app_assoc. apply Permutation_app_head. rewrite !app_assoc. apply Permutation_app_tail, Permutation_app_comm.
Qed.

(** The fuel is enough for the buffers waiting at [v]. *)
Definition serves_with (fuel : nat) (v : N) (n : network) : Prop := Forall (fuel_enough fuel) (endpoints v n).

(** What a callback changes, in terms of its nodes. *)
Record call_effect (alloc : list net_event -> Z -> bool) (v : N) (n n' : network)
    (ys : list (((Z * vq) * (Z * vq)) * (list frame * list net_event))) : Prop := {
  effect_to j b : neighbours t v !! j = Some b -> exists y, ys !! j = Some y /\
    taken n' (channel_key b v) = taken n (channel_key b v) ++ fst (snd y) /\
    memory n' (channel_key b v) = snd (fst (fst y)) /\ memory n' (channel_key v b) = snd (snd (fst y)) /\
    polled alloc ((Z.of_nat j * 2 + 1, memory n (channel_key b v)), (Z.of_nat j * 2, memory n (channel_key v b))) y;
  effect_memory b x : x ∈ neighbours t b -> b <> v -> x <> v -> memory n' (channel_key b x) = memory n (channel_key b x);
  effect_taken b x : x ∈ neighbours t b -> x <> v -> taken n' (channel_key b x) = taken n (channel_key b x);
  effect_length : length ys = length (neighbours t v);
  effect_inbox : inbox n' = set v (inbox n v ++ concat (map (fun y => fst (snd y)) ys)) (inbox n);
  effect_sent : sent n' = sent n;
  effect_handed : handed n' = handed n;
  effect_pending i b : has_badge (pending n i) b = true -> has_badge (pending n' i) b = true }.

Lemma callback_run alloc v fuel n : serves_with fuel v n ->
  exists n' ys, callback v alloc fuel n = Ok n' /\ call_effect alloc v n n' ys.
Proof using Ht Hall Hmac Hk SQ.
  intros Hf. destruct (poll_all alloc fuel (endpoints v n) [] Hf) as (ys & E & Hys).
  set (es := concat (map (fun y => snd (snd y)) ys)) in *. set (nodes := map (fun y => node_with (fst y)) ys) in *.
  exists (called_back v nodes es n), ys. split; [unfold callback; rewrite vnodes_endpoints, E; done|].
  destruct (signals_keep v (notified_queues es) (written v nodes es n)) as (M1 & M2 & M3 & M4 & M5 & M6).
  fold (called_back v nodes es n) in *. constructor; rewrite ?M1, ?M2, ?M3, ?M4, ?M5; subst es nodes; try done.
  - intros j b Hj. destruct (polled_at alloc v n ys Hys j b Hj) as (y & Hy & Hp). exists y.
    destruct (memory_at alloc v n ys Hys j b y Hj Hy) as [-> ->].
    by rewrite (taken_at alloc v n ys Hys j b y Hj Hy).
  - intros b x Hx Hb Hxv. by apply (memory_other alloc v n ys Hys b x).
  - intros b x Hx Hxv. by apply (taken_other alloc v n ys Hys b x).
  - rewrite <-(list.Forall2_length _ _ _ Hys). unfold endpoints. rewrite length_map, switch_nodes_spec.
    unfold expected_nodes. by rewrite length_imap.
  - cbn [inbox written]. do 2 f_equal. clear -Hys. induction Hys as [|x y xs ys Hp _ IH]; [done|].
    cbn [map concat]. unfold rx_frames in *. rewrite omap_app, IH. f_equal. apply (calls_frames _ _ _ (polled_calls _ _ _ Hp)).
Qed.

Section AfterCall.
Context (alloc : list net_event -> Z -> bool) (v : N) (n n' : network).
Context (ys : list (((Z * vq) * (Z * vq)) * (list frame * list net_event))) (He : call_effect alloc v n n' ys).

(** A channel to [v], and another. *)
Lemma link_to_after b : (reliable -> rx_never_fails alloc) -> v ∈ neighbours t b ->
  link_ok (Some v) n b v -> link_ok (Some v) n' b v /\ (reliable -> vq_frames (memory n' (channel_key b v)) = []).
Proof using Ht He.
  intros Hrel Hb [H1 H2 _]. pose proof (neighbours_sym _ _ _ Ht Hb) as (j & Hj)%list_elem_of_lookup.
  destruct (effect_to _ _ _ _ _ He j b Hj) as (y & _ & ET & EM & _ & [_ _ P1 P2 _ _ _]). cbn in P1, P2.
  split; [constructor; [| |done]; rewrite ET, EM, (effect_sent _ _ _ _ _ He), <-app_assoc|].
  - etransitivity; [apply sublist_app; [reflexivity|exact P1]|done].
  - intros Hr. destruct (P2 (Hrel Hr)) as [-> ->]. rewrite app_nil_r. by apply H2.
  - intros Hr. rewrite EM. by apply P2, Hrel.
Qed.
Lemma link_other_after b i : i ∈ neighbours t b -> i <> v -> link_ok (Some v) n b i -> link_ok (Some v) n' b i.
Proof using Ht He.
  intros Hi Hiv [H1 H2 H3].
  assert (vq_frames (memory n' (channel_key b i)) = vq_frames (memory n (channel_key b i))) as EM.
  { destruct (decide (b = v)) as [->|Hbv].
    - pose proof Hi as (j & Hj)%list_elem_of_lookup.
      destruct (effect_to _ _ _ _ _ He j i Hj) as (y & _ & _ & _ & -> & [_ _ _ _ P _ _]). exact P.
    - by rewrite (effect_memory _ _ _ _ _ He b i). }
  constructor; rewrite ?EM, ?(effect_taken _ _ _ _ _ He b i Hi Hiv), ?(effect_sent _ _ _ _ _ He); [done..|].
  intros Hr Hbusy Hne. by apply (effect_pending _ _ _ _ _ He), H3.
Qed.

Lemma inbox_after i : (forall i, inbox_ok n i) -> inbox_ok n' i.
Proof using Ht He.
  intros Hb. unfold inbox_ok. rewrite (effect_inbox _ _ _ _ _ He). destruct (decide (i = v)) as [->|Hiv].
  - rewrite set_same, (Hb v).
    transitivity (concat (zip_with app (map (fun b => taken n (channel_key b v)) (neighbours t v)) (map (fun y => fst (snd y)) ys))).
    + by rewrite concat_zip_app by (by rewrite !length_map, (effect_length _ _ _ _ _ He)).
    + apply Permutation_refl'. f_equal. apply list_eq. intros j. rewrite lookup_zip_with, !list_lookup_fmap.
      destruct (neighbours t v !! j) as [b|] eqn:Hj; [|done].
      destruct (effect_to _ _ _ _ _ He j b Hj) as (y & Hy & ET & _). rewrite Hy. cbn. by rewrite ET.
  - rewrite set_other by done. rewrite (Hb i). apply Permutation_refl'. f_equal. apply map_ext_in. intros b Hbi.
    symmetry. apply (effect_taken _ _ _ _ _ He); [|done]. by apply neighbours_sym, list_elem_of_In.
Qed.

Lemma fuel_after fuel : serves_with fuel v n -> serves_with fuel v n'.
Proof using Ht Hall Hmac He.
  intros Hf. apply Forall_lookup. intros j x Hx. destruct (endpoint_some _ _ _ _ Hx) as (i & Hi).
  rewrite (endpoint_at v n' j i Hi) in Hx. injection Hx as <-.
  destruct (effect_to _ _ _ _ _ He j i Hi) as (y & _ & _ & -> & -> & [_ _ P1 _ _ P4 _]). cbn in P1.
  unfold serves_with in Hf. rewrite Forall_lookup in Hf. destruct (Hf j _ (endpoint_at v n j i Hi)) as [F1 F2]. cbn in F1.
  split; cbn [node_with fst snd vn_recv vn_send frames_of used_of].
  - apply sublist_length in P1. rewrite length_app in P1. lia.
  - rewrite P4. cbn. lia.
Qed.
End AfterCall.

Lemma callback_inv alloc v fuel n : (reliable -> rx_never_fails alloc) -> serves_with fuel v n -> net_inv (Some v) n ->
  exists n', callback v alloc fuel n = Ok n' /\ net_inv (Some v) n' /\ serves_with fuel v n' /\ sent n' = sent n /\
    (reliable -> forall b, b ∈ neighbours t v -> vq_frames (memory n' (channel_key b v)) = []).
Proof using Ht Hall Hmac Hk SQ.
  intros Hrel Hf [Hl Hb]. destruct (callback_run alloc v fuel n Hf) as (n' & ys & E & He). exists n'.
  split; [done|]. split; [split|split; [by apply (fuel_after alloc v n n' ys)|split; [by apply He|]]].
  - intros b i Hi. destruct (Hl b i Hi) as [H1 H2]. split.
    + destruct (decide (i = v)) as [->|Hiv]; [by apply (link_to_after alloc v n n' ys)|by apply (link_other_after alloc v n n' ys)].
    + unfold for_receiver. by rewrite (effect_sent _ _ _ _ _ He), (effect_handed _ _ _ _ _ He).
  - intros i. by apply (inbox_after alloc v n n' ys).
  - intros Hr b Hbv. pose proof (neighbours_sym _ _ _ Ht Hbv) as Hvb. destruct (Hl b v Hvb) as [H1 _].
    by apply (link_to_after alloc v n n' ys He b).
Qed.

(** ** Serving a notification *)

(** Badges are 32-bit values with the bit that marks them. *)
Context (Hbadges : forall v s, inw 32 (badge_of v s) /\ Z.testbit (badge_of v s) 27 = true).

Definition switch_call : event := DeviceNotify (address_of "virtio_net_notify_vswitch").
Definition drained (v : N) (n : network) : Prop :=
  forall b, b ∈ neighbours t v -> vq_frames (memory n (channel_key b v)) = [].

Lemma call_all_inv alloc v fuel calls n : (reliable -> rx_never_fails alloc) -> serves_with fuel v n -> net_inv (Some v) n ->
  exists n', call_all v alloc fuel calls n = Ok n' /\ net_inv (Some v) n' /\ sent n' = sent n /\
    (reliable -> switch_call ∈ calls \/ drained v n -> drained v n').
Proof using Ht Hall Hmac Hk SQ.
  intros Hrel. revert n. induction calls as [|e calls IH]; intros n Hf Hn; cbn [call_all].
  { exists n. split_and!; [done..|]. by intros _ [?%elem_of_nil|]. }
  assert (e <> switch_call -> exists n', call_all v alloc fuel calls n = Ok n' /\ net_inv (Some v) n' /\ sent n' = sent n /\
    (reliable -> switch_call ∈ e :: calls \/ drained v n -> drained v n')) as Hskip.
  { intros He. destruct (IH n Hf Hn) as (n' & E & H1 & H2 & H3). exists n'. split_and!; [done..|].
    intros Hr [[Hc|Hc]%elem_of_cons|Hd]; [by destruct He|apply H3; auto..]. }
  destruct e as [| | | | | |f]; try (apply Hskip; discriminate).
  destruct (Z.eqb_spec f (address_of "virtio_net_notify_vswitch")) as [->|Hne].
  - destruct (callback_inv alloc v fuel n Hrel Hf Hn) as (n1 & -> & H1 & H2 & H3 & H4). cbn [mbind outcome_bind].
    destruct (IH n1 H2 H1) as (n' & E & H5 & H6 & H7). exists n'. split_and!; [done|done|congruence|].
    intros Hr _. apply (H7 Hr). right. exact (H4 Hr).
  - cbn [mbind outcome_bind]. apply Hskip. by intros [= ->].
Qed.
Lemma call_all_none alloc v fuel calls n : switch_call ∉ calls -> call_all v alloc fuel calls n = Ok n.
Proof using Type.
  induction calls as [|e calls IH]; intros Hc; [done|]. rewrite not_elem_of_cons in Hc. destruct Hc as [He Hc].
  cbn [call_all]. destruct e as [| | | | | |f]; try by apply IH.
  destruct (Z.eqb_spec f (address_of "virtio_net_notify_vswitch")) as [->|]; [by destruct He|]. by apply IH.
Qed.

(** A signalled queue makes the switch's function run. *)
Lemma signal_calls v b w : b ∈ neighbours t v -> has_badge w (badge_of v (recv_badge b)) = true ->
  Z.testbit w 27 = true /\ switch_call ∈ notified w (configured_irqs (vm_cons v)).
Proof using Ht Hbadges.
  intros Hb Hw. destruct (Hbadges v (recv_badge b)) as [Hs H27]. split.
  - apply Z.eqb_eq in Hw. apply (f_equal (fun z => Z.testbit z 27)) in Hw. rewrite Z.land_spec, H27 in Hw.
    by rewrite andb_true_r in Hw.
  - destruct (neighbour_call _ _ _ Hb) as (n & Hn & <- & E). unfold vm_cons. rewrite (init_spec t n Ht Hn).
    unfold notified, configured_irqs. apply list_elem_of_In, in_map_iff.
    exists (u32 (badge_of (base_id n) (recv_badge b)), address_of "virtio_net_notify_vswitch"). split; [done|].
    apply filter_In. cbn [fst]. rewrite !u32_small by (rewrite ?u32_small; done). split; [|done].
    apply in_map_iff. exists (badge_of (base_id n) (recv_badge b), address_of "virtio_net_notify_vswitch").
    cbn [fst snd]. rewrite u32_small by done. split; [done|].
    apply list_elem_of_In, list_elem_of_omap. exists (Some (badge_of (base_id n) (recv_badge b), address_of "virtio_net_notify_vswitch")).
    split; [|done]. apply list_elem_of_In, in_map_iff.
    exists (mkInitCon "make_virtio_net_vswitch_driver_dummy" (Some (recv_badge b, "virtio_net_notify_vswitch"%string))).
    split; [done|]. unfold handlers_of. apply in_app_iff. left. apply in_concat. eexists.
    split; [apply (in_map _ _ b), list_elem_of_In; by rewrite <-E|]. by right; left.
Qed.

Lemma serve_inv alloc v fuel n : (reliable -> rx_never_fails alloc) -> serves_with fuel v n -> net_inv None n ->
  exists n', serve v alloc fuel n = Ok n' /\ net_inv None n' /\ sent n' = sent n /\ (reliable -> drained v n').
Proof using Ht Hall Hmac Hk SQ Hbadges.
  intros Hrel Hf [Hl Hb]. set (n0 := mkNetwork (memory n) (set v 0 (pending n)) (handed n) (sent n) (taken n) (inbox n)).
  assert (net_inv (Some v) n0) as H0.
  { split; [|exact Hb]. intros b i Hi. destruct (Hl b i Hi) as [[H1 H2 H3] H4]. split; [|exact H4].
    constructor; [done..|]. intros Hr Hbusy Hne. cbn [pending n0]. rewrite set_other by congruence. by apply H3. }
  assert (reliable -> switch_call ∉ notified (pending n v) (configured_irqs (vm_cons v)) \/ Z.testbit (pending n v) 27 = false ->
    drained v n0) as Hquiet.
  { intros Hr Hc b Hbv. destruct (decide (vq_frames (memory n (channel_key b v)) = [])) as [|Hne]; [done|exfalso].
    destruct (Hl b v (neighbours_sym _ _ _ Ht Hbv)) as [[_ _ H3] _]. specialize (H3 Hr ltac:(done) Hne).
    destruct (signal_calls v b (pending n v) Hbv H3) as [H27 Hin]. destruct Hc; congruence. }
  assert (exists n', serve v alloc fuel n = Ok n' /\ net_inv (Some v) n' /\ sent n' = sent n /\ (reliable -> drained v n')) as
    (n' & E & [Hl' Hb'] & H2 & H3).
  { unfold serve. fold n0. destruct (Z.testbit (pending n v) 27); [|exists n0; split_and!; try done; by intros Hr; apply Hquiet; auto].
    destruct (call_all_inv alloc v fuel (notified (pending n v) (configured_irqs (vm_cons v))) n0 Hrel Hf H0) as (n' & E & H1 & H2 & H3).
    exists n'. split_and!; [done..|]. intros Hr. apply (H3 Hr).
    destruct (decide (switch_call ∈ notified (pending n v) (configured_irqs (vm_cons v)))) as [|Hc]; [by left|].
    right. by apply Hquiet; auto. }
  exists n'. split_and!; [done| |done|done]. split; [|done]. intros b i Hi. destruct (Hl' b i Hi) as [[A1 A2 A3] A4].
  split; [|done]. constructor; [done..|]. intros Hr _ Hne. destruct (decide (i = v)) as [->|Hiv].
  - destruct Hne. apply (H3 Hr). by apply neighbours_sym.
  - by apply A3; [|congruence|].
Qed.

(** * Runs *)

Inductive net_step (n : network) : network -> Prop :=
| Step_transmit v frames answers n' : transmit v frames answers n = Ok n' -> net_step n n'
| Step_serve v alloc fuel n' : (reliable -> rx_never_fails alloc) -> serves_with fuel v n ->
    serve v alloc fuel n = Ok n' -> net_step n n'.
Definition reachable (n : network) : Prop := rtc net_step network_start n.

Lemma start_inv : net_inv None network_start.
Proof using Type.
  split.
  - intros b i Hi. split; [|by apply sublist_nil_l]. constructor; cbn [memory taken sent pending network_start app]; rewrite new_frames.
    + apply sublist_nil_l.
    + done.
    + done.
  - intros i. unfold inbox_ok. cbn [inbox taken network_start]. apply Permutation_refl'.
    by induction (neighbours t i).
Qed.

Lemma reachable_inv n : reachable n -> net_inv None n.
Proof using Ht Hall Hmac Hnodes Hgroup Hanswers VL Hk SQ Hbadges.
  revert n. unfold reachable. apply (rtc_ind_r (net_inv None) network_start); [apply start_inv|].
  intros n1 n2 _ Hs Hn. destruct Hs as [v frames answers n' E|v alloc fuel n' Hrel Hf E].
  - destruct (transmit_inv v frames answers n1 Hn) as (n'' & E' & H). congruence.
  - destruct (serve_inv alloc v fuel n1 Hrel Hf Hn) as (n'' & E' & H & _). congruence.
Qed.

(** C12 -- The network delivers what is sent, to whom it is for.  In an application
    configured by the macros, whatever the guests transmit, in whatever order
    the VMMs run and whether or not the queues accept the frames and the guests
    have room for them: what VM [i] has been given from its channel with [b]
    and what still waits there are frames that [b]'s guest handed to its device
    for [i] (its address, or everybody's), in that order and none of them twice;
    a guest is given nothing that did not come from one of its channels; and if
    receiving does not fail then nothing accepted by a queue is missing, and a
    VMM for which a frame waits has been notified. *)
Theorem network_delivers n : reachable n ->
  (forall b i, i ∈ neighbours t b ->
     taken n (channel_key b i) ++ vq_frames (memory n (channel_key b i)) `sublist_of` filter (for_vm i) (handed n b) /\
     (reliable ->
        taken n (channel_key b i) ++ vq_frames (memory n (channel_key b i)) = sent n (channel_key b i) /\
        (vq_frames (memory n (channel_key b i)) <> [] -> has_badge (pending n i) (badge_of i (recv_badge b)) = true))) /\
  forall i, Permutation (inbox n i) (concat (map (fun b => taken n (channel_key b i)) (neighbours t i))).
Proof using Ht Hall Hmac Hnodes Hgroup Hanswers VL Hk SQ Hbadges.
  intros [Hl Hb]%reachable_inv. split; [|exact Hb]. intros b i Hi. destruct (Hl b i Hi) as [[H1 H2 H3] H4]. split.
  - etransitivity; [exact H1|exact H4].
  - intros Hr. split; [by apply H2|]. by apply H3.
Qed.

Lemma enough_fuel v n : exists fuel, serves_with fuel v n.
Proof using Type.
  unfold serves_with. induction (endpoints v n) as [|x xs [fuel IH]]; [by exists 0%nat|].
  exists (Nat.max fuel (length (vq_frames (snd (fst x))) + (length (concat (vq_used (snd (snd x)))) + length (vq_used (snd (snd x)))))%nat).
  unfold fuel_enough, fuel_for, node_with in *. cbn [vn_recv vn_send frames_of used_of fst snd] in *.
  constructor; cbn [frames_of used_of].
  - destruct x as [[r qr] [s qs]]. cbn. lia.
  - eapply List.Forall_impl; [|exact IH]. intros [[r qr] [s qs]] [H1 H2]. cbn in *. lia.
Qed.


End Network.

(** * What vm.h guarantees *)

(** A badge CAmkES can give to a connection of a VM: the base and one bit of the
    mask. *)
Definition endpoint_badge (k : Z) : Z := X86.global_endpoint_base .| 2 ^ k.

Lemma below_29 k : 0 <= k <= 28 -> In k (zrange 29).
Proof. intros H. unfold zrange. apply in_map_iff. exists (Z.to_nat k). split; [lia|apply in_seq; lia]. Qed.
Lemma mask_bits k : Z.testbit X86.global_endpoint_mask k = true -> k = 0 \/ 17 <= k <= 28.
Proof.
  intros H. destruct (Z.le_gt_cases 0 k) as [H0|]; [|by rewrite Z.testbit_neg_r in H].
  destruct (Z.le_gt_cases k 28) as [H1|H1].
  - pose proof (below_29 k ltac:(lia)) as Hk. assert (forallb (fun k => negb (Z.testbit X86.global_endpoint_mask k) || (k =? 0) || (17 <=? k)) (zrange 29) = true) as Hall by reflexivity.
    rewrite forallb_forall in Hall. apply Hall in Hk. rewrite H in Hk. cbn [negb orb] in Hk.
    apply orb_true_iff in Hk as [?%Z.eqb_eq|?%Z.leb_le]; lia.
  - rewrite Z.bits_above_log2 in H; [done|done|]. change (Z.log2 X86.global_endpoint_mask) with 28. lia.
Qed.

Lemma endpoint_badge_ok k : Z.testbit X86.global_endpoint_mask k = true ->
  inw 32 (endpoint_badge k) /\ Z.testbit (endpoint_badge k) 27 = true.
Proof.
  intros Hk%mask_bits. unfold endpoint_badge. split.
  - pose proof (below_29 k ltac:(lia)) as Hin. assert (forallb (fun k => (0 <=? X86.global_endpoint_base .| 2 ^ k) && (X86.global_endpoint_base .| 2 ^ k <? 2 ^ 32)) (zrange 29) = true) as Hall by reflexivity.
    rewrite forallb_forall in Hall. apply Hall, andb_true_iff in Hin as [?%Z.leb_le ?%Z.ltb_lt]. by split.
  - by rewrite Z.lor_spec.
Qed.
Lemma endpoint_badge_bit k m : 0 <= k -> 0 <= m -> Z.testbit (endpoint_badge k) m = (m =? 27) || (m =? k).
Proof.
  intros Hk Hm. unfold endpoint_badge. rewrite Z.lor_spec. change X86.global_endpoint_base with (2 ^ 27).
  by rewrite !testbit_pow2 by lia.
Qed.

(** Such notifications, merged in any way, inject no interrupt: the hardware's
    bits are left out of the mask. *)
Lemma endpoint_badges_inject_nothing ks :
  Forall (fun k => Z.testbit X86.global_endpoint_mask k = true) ks ->
  injected (foldr Z.lor 0 (map endpoint_badge ks)) = [].
Proof.
  intros H. unfold injected. assert (forall i, 0 <= i < 16 -> Z.testbit (foldr Z.lor 0 (map endpoint_badge ks)) (i + 1) = false) as Hb.
  { intros i Hi. induction H as [|k ks Hk%mask_bits _ IH]; cbn [map foldr]; [apply Z.bits_0|].
    rewrite Z.lor_spec, IH, endpoint_badge_bit by lia.
    destruct (Z.eqb_spec (i + 1) 27), (Z.eqb_spec (i + 1) k); first [lia|done]. }
  assert (forall l, (forall i, In i l -> 0 <= i < 16) -> map InjectIrq (List.filter (fun i => Z.testbit (foldr Z.lor 0 (map endpoint_badge ks)) (i + 1)) l) = []) as Hl.
  { intros l. induction l as [|i l IH]; intros Hin; [done|]. cbn [List.filter]. rewrite (Hb i (Hin i ltac:(by left))).
    apply IH. intros j Hj. apply Hin. by right. }
  apply Hl. by intros i Hi%in_zrange.
Qed.

(** Different bits are told apart, but the mask has the base's own bit too: a
    connection that got it would be called for every notification. *)
Lemma endpoint_badges_apart k k' : Z.testbit X86.global_endpoint_mask k = true ->
  Z.testbit X86.global_endpoint_mask k' = true -> k' <> 27 ->
  has_badge (endpoint_badge k) (endpoint_badge k') = true -> k = k'.
Proof.
  intros Hk%mask_bits Hk'%mask_bits Hn H%Z.eqb_eq. apply (f_equal (fun z => Z.testbit z k')) in H.
  rewrite Z.land_spec, !endpoint_badge_bit, Z.eqb_refl, orb_true_r, andb_true_r in H by lia.
  apply orb_true_iff in H as [?%Z.eqb_eq|?%Z.eqb_eq]; lia.
Qed.
Lemma endpoint_badge_base w : Z.testbit X86.global_endpoint_mask 27 = true /\
  (Z.testbit w 27 = true -> has_badge w (endpoint_badge 27) = true).
Proof.
  split; [reflexivity|]. intros H. apply Z.eqb_eq. change (endpoint_badge 27) with (2 ^ 27).
  apply Z.bits_inj'. intros m Hm. rewrite Z.land_spec, testbit_pow2 by lia.
  destruct (Z.eqb_spec m 27) as [->|]; [by rewrite H|apply andb_false_r].
Qed.

(** The time server has a timer for each number the devices use. *)
Lemma timers_fit : Forall (fun id => 0 <= id < 12)
    [TIMER_PIT; TIMER_PERIODIC_TIMER; TIMER_COALESCED_TIMER; TIMER_SECOND_TIMER; TIMER_SECOND_TIMER2; TIMER_FIFO_TIMEOUT;
     TIMER_TRANSMIT_TIMER; TIMER_MODEM_STATUS_TIMER; TIMER_MORE_CHARS; TIMER_HPET0; TIMER_HPET1; TIMER_HPET2] /\
  mkSetting "time_server" "timers_per_client" (VInt 12) ∈ X86.VM_CONFIGURATION_DEF.
Proof. split; [by repeat constructor|by right; left]. Qed.

(** * Witnesses *)

(** The virtqueue that is a list (Vnet). *)
#[export] Instance list_shared : SharedQueue list_queue list_queue_laws.
Proof.
  refine {| vq_new := (([], []) : @vq list_queue); vq_put := fun (q : @vq list_queue) f => (fst q ++ [f], snd q) |}.
  - done.
  - done.
  - by intros [fs [|u us]] h q' [= <- <-].
  - by intros q [f [|b bs]] b' h' q' [= <- <- <-].
Defined.

(** A switch that looks its table up. *)
Definition table_index (nodes : list (list Z * Z)) (a : list Z) : Z :=
  match list_find (fun n => fst n = a) nodes with Some (i, _) => Z.of_nat i | None => -1 end.
Definition table_vswitch (nodes : list (list Z * Z)) (answers : list net_event -> Z -> frame -> Z) : Vswitch := {|
  mac802_addr_eq_bcast a := bool_decide (a = replicate 6 255);
  mac802_addr_eq_ipv6_mcast a := bool_decide (take 2 a = [51; 51]);
  n_connected := Z.of_nat (length nodes);
  vswitch_get_destnode_index_by_macaddr := table_index nodes;
  vswitch_get_destnode_by_index i := option_map snd (nodes !! Z.to_nat i);
  scatter_send_buffer := answers |}.
Definition table_vswitch_laws nodes answers : VswitchLaws (table_vswitch nodes answers).
Proof.
  refine {| vs_nodes := nodes |}; cbn [n_connected vswitch_get_destnode_by_index
    vswitch_get_destnode_index_by_macaddr table_vswitch]; unfold table_index; try done.
  - intros a. destruct (list_find _ nodes) as [[i [b q]]|] eqn:E; [|lia].
    apply list_find_Some in E as (E & Ha & _). cbn in Ha. subst b. intros _.
    split; [apply lookup_lt_Some in E; lia|]. rewrite Nat2Z.id. by exists q.
  - intros a. destruct (list_find _ nodes) as [[i [b q]]|] eqn:E; [lia|].
    apply list_find_None in E. rewrite List.Forall_forall in E. intros _ ((b & q) & Eb & Hin)%in_map_iff. by apply (E _ Hin).
Defined.

(** The three VMs of [topology_all]; VM 0 sends to VM 1, then to all, and VM 1
    serves its notification. *)
Definition demo_badge (v : N) (s : string) : Z := 2 ^ 27 + 2 ^ 17.
Definition demo_group (a : list Z) : bool := bool_decide (a = replicate 6 255) || bool_decide (take 2 a = [51; 51]).
Definition to_one : frame := demo_mac 1 ++ [7; 7].
Definition to_all : frame := replicate 6 255 ++ [8; 8].
Definition demo_sent : network :=
  match transmit topology_all demo_mac virtio_demo demo_badge table_vswitch 0 [to_one; to_all] (fun _ _ _ => 0) network_start with
  | Ok n => n | Fault _ => network_start end.

Lemma demo_reachable : reachable topology_all demo_mac virtio_demo demo_badge (fun _ => 1) table_vswitch True demo_sent.
Proof.
  unfold demo_sent.
  destruct (transmit_run topology_all demo_mac virtio_demo demo_badge table_vswitch eq_refl virtio_demo_all
    demo_mac (fun v => eq_refl) table_vswitch_laws (fun _ _ => eq_refl) (fun _ _ _ _ _ => eq_refl) demo_group
    (fun _ _ _ => eq_refl) 0%N [to_one; to_all] (fun _ _ _ => 0) network_start) as (n & E & _).
  rewrite E. eapply rtc_once, Step_transmit. exact E.
Qed.

Lemma demo_network_badges v s : inw 32 (demo_badge v s) /\ Z.testbit (demo_badge v s) 27 = true.
Proof. by split. Qed.

Lemma network_delivers_witness :
  reachable topology_all demo_mac virtio_demo demo_badge (fun _ => 1) table_vswitch True demo_sent /\
  vq_frames (memory demo_sent (channel_key 0 1)) = [to_one; to_all] /\
  taken demo_sent (channel_key 0 1) ++ vq_frames (memory demo_sent (channel_key 0 1)) = sent demo_sent (channel_key 0 1).
Proof.
  split; [exact demo_reachable|]. split; [vm_compute; reflexivity|].
  apply (network_delivers topology_all demo_mac virtio_demo demo_badge (fun _ => 1) table_vswitch eq_refl virtio_demo_all
    demo_mac (fun v => eq_refl) table_vswitch_laws (fun _ _ => eq_refl) (fun _ _ _ _ _ => eq_refl) demo_group
    (fun _ _ _ => eq_refl) eq_refl True demo_network_badges demo_sent demo_reachable); [by left|done].
Defined.

