(* ===== verification/ArmEvents.v ===== *)
(** The run-time part of the ARM VMM (components/VM_Arm/src/main.c): the
    notifications it receives and the handlers modules register for them, and
    the interrupts it passes through to the guest, from their routing at
    start-up to the acknowledgement when the guest is done with them.  The
    handler of the exynos5410 interrupt combiner is that platform's init.c.

    libsel4vm (the virtual interrupt controller), the interrupt server and the
    allocator are outside the repository: their answers are parameters. *)

From S2P Require Import Prelude.

(** * State *)

Record async_event_handler := mkAsyncHandler {
  ah_badge : Z;
  ah_callback : Z;               (* which function *)
  ah_cookie : Z }.

(** [struct irq_token].  Null pointers are [None]; [tok_vm] tells whether the
    [vm] field is set. *)
Record irq_token := mkToken {
  tok_vm : bool;
  tok_irq : Z;
  tok_virq : Z;
  tok_acknowledge_fn : option Z;
  tok_ack_data : option Z }.
#[export] Instance eta_irq_token : Eta irq_token :=
  fun t => mkToken (tok_vm t) (tok_irq t) (tok_virq t) (tok_acknowledge_fn t) (tok_ack_data t).
Definition token_calloc : irq_token := mkToken false 0 0 None None.

(** The functions an interrupt can be routed to. *)
Inductive irq_callback :=
| CbIrqHandler
| CbVcombinerIrqHandler.

(** The calls that leave the VMM. *)
Inductive arm_event :=
| IrqServerIpc
| VusbNotify
| RunCallback (f cookie : Z)
| VmRegisterIrq (irq : Z) (token : nat)
| ServerRegisterIrq (irq : Z) (h : irq_callback) (token : nat)
| VmInjectIrq (irq : Z)
| CombinerIrq (irq : Z)
| Acknowledge (token : nat) (fn data : Z).

(** [callback_arr] has the entries allocated for it, some not yet written. *)
Record VmArm := mkVmArm {
  callback_idx : Z;
  callback_arr : option (list (option async_event_handler));
  tokens : list irq_token;
  allocs : nat;                  (* allocations so far *)
  arm_log : list arm_event }.
#[export] Instance eta_VmArm : Eta VmArm :=
  fun s => mkVmArm (callback_idx s) (callback_arr s) (tokens s) (allocs s) (arm_log s).
Definition arm_bss : VmArm := mkVmArm 0 None [] 0 [].

Class ArmEnv := {
  alloc_ok : nat -> bool;        (* does the n-th allocation succeed? *)
  vm_register_irq : list arm_event -> Z -> Z;
  irq_server_register_irq : list arm_event -> Z -> Z;
  acknowledge : Z -> Z -> Z;
  linux_pt_irqs : list Z;
  (* weak symbols *)
  camkes_dtb_get_irqs : option (list Z);
  get_custom_irq_handler : option (Z -> option irq_callback);
  (* FEATURE_VUSB *)
  VUSB_NBADGE : option Z }.

Definition Arm (A : Type) : Type := M VmArm A.
Definition arm_emit (e : arm_event) : Arm unit :=
  modify (fun s => s <| arm_log := arm_log s ++ [e] |>).

Definition IRQ_MESSAGE_LABEL : Z := 0xCAFE.

Section Arm.
Context {E : ArmEnv}.

Definition alloc : Arm bool :=
  s ← get;
  put (s <| allocs := S (allocs s) |>);;
  mret (alloc_ok (allocs s)).

(** * Asynchronous events *)

(** [realloc] keeps the entries; [calloc] leaves a zeroed one. *)
Definition grow_callback_arr : Arm unit :=
  s ← get;
  ok ← alloc;
  modify (fun s' => s' <| callback_arr :=
    if ok : bool then
      match callback_arr s with
      | None => Some [None]
      | Some l => Some (take (Z.to_nat (callback_idx s + 1))
                          (l ++ replicate (Z.to_nat (callback_idx s + 1)) None))
      end
    else None |>).

Definition register_async_event_handler (h : async_event_handler) : Arm Z :=
  grow_callback_arr;;
  s ← get;
  match callback_arr s with
  | None => mret (-1)
  | Some l =>
      l ← lift (idx_set l (callback_idx s) (Some h));
      modify (fun s => s <| callback_arr := Some l |> <| callback_idx := callback_idx s + 1 |>);;
      mret 0
  end.

(** One round of the loop; an entry that was never written is read as the
    indeterminate memory it is. *)
Definition try_callback (badge i : Z) : Arm unit :=
  s ← get;
  match callback_arr s with
  | None => fail AssertFailed
  | Some l =>
      e ← lift (idx l i);
      match e with
      | None => fail Uninitialised
      | Some h => when (badge .& ah_badge h =? ah_badge h) (arm_emit (RunCallback (ah_callback h) (ah_cookie h)))
      end
  end.

Definition handle_async_event (badge label : Z) : Arm Z :=
  (if badge =? 0 then when (label =? IRQ_MESSAGE_LABEL) (arm_emit IrqServerIpc)
   else if (match VUSB_NBADGE with Some b => badge =? b | None => false end) then arm_emit VusbNotify
   else s ← get; for_each (zrange (Z.to_nat (callback_idx s))) (try_callback badge));;
  mret 0.

(** * Passed-through interrupts *)

Definition token_at (t : option nat) : Arm (nat * irq_token) :=
  match t with
  | None => fail AssertFailed
  | Some i => s ← get; tk ← lift (idx (tokens s) (Z.of_nat i)); mret (i, tk)
  end.
Definition set_token (i : nat) (tk : irq_token) : Arm unit :=
  modify (fun s => s <| tokens := <[i := tk]> (tokens s) |>).

Definition do_irq_server_ack (token : option nat) : Arm unit :=
  '(i, tk) ← token_at token;
  match tok_acknowledge_fn tk, tok_ack_data tk with
  | Some f, Some d =>
      arm_emit (Acknowledge i f d);;
      assertC (acknowledge f d =? 0);;
      set_token i (tk <| tok_ack_data := None |>)
  | _, _ => mret tt
  end.

Definition irq_handler (data : option nat) (f d : Z) : Arm unit :=
  '(i, tk) ← token_at data;
  set_token i (tk <| tok_acknowledge_fn := Some f |> <| tok_ack_data := Some d |>);;
  (if tok_vm tk then mret tt else fail NullDeref);;
  arm_emit (VmInjectIrq (tok_virq tk)).

(** exynos5410/init.c *)
Definition vcombiner_irq_handler (data : option nat) (f d : Z) : Arm unit :=
  '(i, tk) ← token_at data;
  set_token i (tk <| tok_acknowledge_fn := Some f |> <| tok_ack_data := Some d |>);;
  arm_emit (CombinerIrq (tok_irq tk));;
  arm_emit (Acknowledge i f d).

Definition exynos5410_get_custom_irq_handler (irq : Z) : option irq_callback :=
  if (32 <=? irq) && (irq <=? 63) then Some CbVcombinerIrqHandler else None.

(** The choice of the function at the top of [route_irq]. *)
Definition handler_for (irq : Z) : irq_callback :=
  match get_custom_irq_handler with
  | Some get => match get irq with Some h => h | None => CbIrqHandler end
  | None => CbIrqHandler
  end.

Definition route_irq (irq_num : Z) : Arm Z :=
  ok ← alloc;
  if negb ok then mret (-1)
  else
    s ← get;
    let token := length (tokens s) in
    put (s <| tokens := tokens s ++ [token_calloc] |>);;
    arm_emit (VmRegisterIrq irq_num token);;
    if vm_register_irq (arm_log s) irq_num =? -1 then mret (-1)
    else
      set_token token (token_calloc <| tok_virq := irq_num |> <| tok_irq := irq_num |> <| tok_vm := true |>);;
      s ← get;
      arm_emit (ServerRegisterIrq irq_num (handler_for irq_num) token);;
      if irq_server_register_irq (arm_log s) irq_num <? 0 then mret (-1) else mret 0.

(** Stops at the first interrupt that cannot be routed. *)
Fixpoint route_each (irqs : list Z) : Arm Z :=
  match irqs with
  | [] => mret 0
  | irq :: irqs =>
      err ← route_irq irq;
      if z2b err then mret err else route_each irqs
  end.

Definition route_irqs : Arm Z :=
  err ← route_each linux_pt_irqs;
  if z2b err then mret err
  else match camkes_dtb_get_irqs with
       | Some dtb_irqs => route_each dtb_irqs
       | None => mret 0
       end.

End Arm.

(** * Events reach the handlers registered for them *)

Inductive event_op :=
| OpRegister (h : async_event_handler)
| OpEvent (badge label : Z).

Definition registrations (ops : list event_op) : list async_event_handler :=
  flat_map (fun o => match o with OpRegister h => [h] | _ => [] end) ops.

Section Dispatch.
Context {E : ArmEnv}.

Definition event_exec (o : event_op) : Arm Z :=
  match o with
  | OpRegister h => register_async_event_handler h
  | OpEvent badge label => handle_async_event badge label
  end.
Fixpoint event_run (ops : list event_op) : Arm unit :=
  match ops with
  | [] => mret tt
  | o :: ops => event_exec o;; event_run ops
  end.

(** The handler waits for a subset of the bits of the badge. *)
Definition waits_for (badge : Z) (h : async_event_handler) : bool :=
  badge .& ah_badge h =? ah_badge h.
Definition run_handler (h : async_event_handler) : arm_event := RunCallback (ah_callback h) (ah_cookie h).
Definition event_calls (hs : list async_event_handler) (badge label : Z) : list arm_event :=
  if badge =? 0 then if label =? IRQ_MESSAGE_LABEL then [IrqServerIpc] else []
  else if (match VUSB_NBADGE with Some b => badge =? b | None => false end) then [VusbNotify]
  else map run_handler (List.filter (waits_for badge) hs).
(** The calls of a run, with the handlers of its registrations. *)
Fixpoint dispatched (hs : list async_event_handler) (ops : list event_op) : list arm_event :=
  match ops with
  | [] => []
  | OpRegister h :: ops => dispatched (hs ++ [h]) ops
  | OpEvent badge label :: ops => event_calls hs badge label ++ dispatched hs ops
  end.

(** The array holds exactly the registered handlers. *)
Definition handlers (hs : list async_event_handler) (s : VmArm) : Prop :=
  callback_idx s = Z.of_nat (length hs) /\
  callback_arr s = (if decide (hs = []) then None else Some (map Some hs)).
(** Nothing else has been allocated. *)
Definition registered (hs : list async_event_handler) (s : VmArm) : Prop :=
  handlers hs s /\ allocs s = length hs.

Definition logs (es : list arm_event) (s : VmArm) : VmArm := s <| arm_log := arm_log s ++ es |>.

Lemma logs_nil s : logs [] s = s.
Proof. unfold logs. rewrite app_nil_r. by destruct s. Qed.
Lemma logs_logs es es' s : logs es' (logs es s) = logs (es ++ es') s.
Proof. unfold logs. cbn. by rewrite app_assoc. Qed.

Lemma grow_run hs s :
  handlers hs s -> alloc_ok (allocs s) = true ->
  grow_callback_arr s = Ok (tt, s <| allocs := S (allocs s) |> <| callback_arr := Some (map Some hs ++ [None]) |>).
Proof.
  intros (Hi & Hr) Hok.
  unfold grow_callback_arr, alloc, mbind, M_bind, get, put, modify, mret, M_ret. cbn. rewrite Hok, Hr, Hi.
  destruct (decide (hs = [])) as [->|Hn]; [done|].
  rewrite Z.add_1_r, <-Nat2Z.inj_succ, Nat2Z.id, take_app, length_map.
  rewrite take_ge by (rewrite length_map; lia).
  by replace (S (length hs) - length hs)%nat with 1%nat by lia.
Qed.

Lemma register_run hs h s :
  handlers hs s -> alloc_ok (allocs s) = true ->
  exists s', register_async_event_handler h s = Ok (0, s') /\ handlers (hs ++ [h]) s' /\
    allocs s' = S (allocs s) /\ arm_log s' = arm_log s /\ tokens s' = tokens s.
Proof.
  intros Hr Hok. set (s1 := s <| allocs := S (allocs s) |> <| callback_arr := Some (map Some hs ++ [None]) |>).
  unfold register_async_event_handler. rewrite (bind_ok _ _ _ _ _ (grow_run hs s Hr Hok)), (bind_ok _ _ _ s1 s1) by done.
  change (callback_arr s1) with (Some (map Some hs ++ [None])). cbv iota. destruct Hr as [Hi _].
  rewrite (bind_ok _ _ _ (map Some hs ++ [Some h]) s1).
  2:{ apply lift_ok. change (callback_idx s1) with (callback_idx s). rewrite Hi, <-(length_map Some hs). apply idx_set_mid. }
  eexists. split; [done|]. split; [|done]. cbn. split; cbn; rewrite ?length_app; cbn [length].
  - rewrite Hi. lia.
  - destruct (decide (hs ++ [h] = [])) as [Hn|_]; [by destruct hs|]. by rewrite map_app.
Qed.

Lemma try_callback_run badge s l i h :
  callback_arr s = Some (map Some l) -> l !! i = Some h ->
  try_callback badge (Z.of_nat i) s = Ok (tt, logs (if waits_for badge h then [run_handler h] else []) s).
Proof.
  intros Hc Hi. unfold try_callback. rewrite (bind_ok _ _ s s s), Hc by done.
  rewrite (bind_ok _ _ s (Some h) s).
  2:{ apply lift_ok, idx_lookup. by rewrite lookup_map, Hi. }
  fold (waits_for badge h). destruct (waits_for badge h); cbn [when]; [done|by rewrite logs_nil].
Qed.

Lemma try_each_run badge l suf pre s :
  callback_arr s = Some (map Some l) -> l = pre ++ suf ->
  for_each (map Z.of_nat (seq (length pre) (length suf))) (try_callback badge) s
  = Ok (tt, logs (map run_handler (List.filter (waits_for badge) suf)) s).
Proof.
  revert pre s. induction suf as [|h suf IH]; intros pre s Hc El; cbn [length seq map for_each List.filter].
  { by rewrite logs_nil. }
  rewrite (bind_ok _ _ _ _ _ (try_callback_run badge s l (length pre) h Hc ltac:(rewrite El; apply lookup_mid))).
  specialize (IH (pre ++ [h])). rewrite length_app, Nat.add_comm in IH. cbn [length plus] in IH.
  rewrite IH; [|done|by rewrite <-app_assoc]. rewrite logs_logs. by destruct (waits_for badge h).
Qed.

Lemma event_run1 hs badge label s :
  handlers hs s -> handle_async_event badge label s = Ok (0, logs (event_calls hs badge label) s).
Proof.
  intros (Hi & Hc). unfold handle_async_event, event_calls.
  rewrite (bind_ok _ _ s tt (logs (event_calls hs badge label) s)); [done|]. unfold event_calls.
  destruct (badge =? 0). { destruct (label =? IRQ_MESSAGE_LABEL); cbn [when]; [done|by rewrite logs_nil]. }
  destruct (match VUSB_NBADGE with Some b => badge =? b | None => false end); [done|].
  rewrite (bind_ok _ _ s s s), Hi, Nat2Z.id by done.
  destruct hs as [|h hs]; [cbn; by rewrite logs_nil|]. cbn [decide] in Hc.
  apply (try_each_run badge (h :: hs) (h :: hs) [] s); [done|done].
Qed.

Lemma registered_logs hs es s : registered hs s -> registered hs (logs es s).
Proof. done. Qed.

Lemma event_run_ok hs ops s :
  registered hs s ->
  (forall n, (n < length hs + length (registrations ops))%nat -> alloc_ok n = true) ->
  exists s', event_run ops s = Ok (tt, s') /\ registered (hs ++ registrations ops) s' /\
    arm_log s' = arm_log s ++ dispatched hs ops.
Proof.
  revert hs s. induction ops as [|[h|badge label] ops IH]; intros hs s Hr Hok; cbn [event_run event_exec dispatched].
  - exists s. cbn. by rewrite !app_nil_r.
  - change (registrations (OpRegister h :: ops)) with (h :: registrations ops) in *. cbn [length] in Hok.
    destruct Hr as [Hr Ha]. destruct (register_run hs h s Hr) as (s1 & E1 & H1 & A1 & L1 & _); [rewrite Ha; apply Hok; lia|].
    rewrite (bind_ok _ _ _ _ _ E1). destruct (IH (hs ++ [h]) s1) as (s' & E2 & H2 & L2).
    { split; [done|]. rewrite length_app, A1, Ha. cbn. lia. }
    { intros n Hn. apply Hok. rewrite length_app in Hn. cbn [length] in Hn. lia. }
    exists s'. rewrite E2, L2, L1. by rewrite <-app_assoc in H2.
  - rewrite (bind_ok _ _ _ _ _ (event_run1 hs badge label s (proj1 Hr))).
    destruct (IH hs (logs (event_calls hs badge label) s)) as (s' & E2 & H2 & L2); [done|done|].
    exists s'. rewrite E2, L2. cbn. by rewrite <-app_assoc.
Qed.

Lemma registered_bss : registered [] arm_bss.
Proof. done. Qed.

(** C16 -- A notification of the ARM VMM reaches exactly the handlers registered
    for it.  In any sequence of registrations and notifications (with memory
    for the registrations) every notification calls the functions registered
    before it that wait for bits of its badge only, each once and in the
    order of registration; a zero badge is an interrupt server message.  No
    access leaves the array of handlers. *)
Theorem arm_event_dispatch (ops : list event_op) :
  (forall n, (n < length (registrations ops))%nat -> alloc_ok n = true) ->
  exists s', event_run ops arm_bss = Ok (tt, s') /\ arm_log s' = dispatched [] ops.
Proof.
  intros Hok. destruct (event_run_ok [] ops arm_bss registered_bss Hok) as (s' & E1 & _ & E2). by exists s'.
Qed.

(** ** The table under failed allocations *)

(** What the array holds: the handlers registered, or nothing any more, when an
    allocation failed after [n] registrations. *)
Inductive table :=
| Enrolled (hs : list async_event_handler)
| Lost (n : nat).
Definition table_is (t : table) (s : VmArm) : Prop :=
  match t with
  | Enrolled hs => handlers hs s
  | Lost n => (0 < n)%nat /\ callback_idx s = Z.of_nat n /\ callback_arr s = None
  end.
(** The handlers that can be called. *)
Definition table_handlers (t : table) : list async_event_handler :=
  match t with Enrolled hs => hs | Lost _ => [] end.
Definition lose (t : table) : table :=
  match t with
  | Enrolled [] => Enrolled []
  | Enrolled hs => Lost (length hs)
  | Lost n => Lost n
  end.

Lemma table_same t s s' :
  callback_idx s' = callback_idx s -> callback_arr s' = callback_arr s -> table_is t s -> table_is t s'.
Proof. intros H1 H2. destruct t; cbn; unfold handlers; by rewrite H1, H2. Qed.

(** A registration without memory. *)
Lemma register_failed t h s :
  table_is t s -> alloc_ok (allocs s) = false ->
  exists s', register_async_event_handler h s = Ok (-1, s') /\ table_is (lose t) s' /\
    allocs s' = S (allocs s) /\ arm_log s' = arm_log s /\ tokens s' = tokens s.
Proof.
  intros Ht Hno. exists (s <| allocs := S (allocs s) |> <| callback_arr := None |>). split.
  { unfold register_async_event_handler.
    rewrite (bind_ok _ _ s tt (s <| allocs := S (allocs s) |> <| callback_arr := None |>)); [done|].
    unfold grow_callback_arr, alloc. unfold mbind, M_bind, get, put, modify, mret, M_ret. by rewrite Hno. }
  split; [|done]. destruct t as [[|h0 hs]|n]; cbn in *; unfold handlers in *; cbn.
  - split; [apply Ht|done].
  - destruct Ht as [-> _]. split_and!; [lia|done|done].
  - tauto.
Qed.

(** With memory again after the handlers were lost, it writes outside the
    array. *)
Lemma register_lost n h s :
  table_is (Lost n) s -> alloc_ok (allocs s) = true -> register_async_event_handler h s = Fault OutOfBounds.
Proof.
  intros (Hn & Hi & Hc) Hok. unfold register_async_event_handler, grow_callback_arr, alloc.
  unfold mbind, M_bind, get, put, modify, mret, M_ret. cbn. rewrite Hok, Hc. cbn. unfold idx_set. rewrite Hi. cbn [length].
  destruct (Z.leb_spec 0 (Z.of_nat n)); [|lia]. destruct (Z.ltb_spec (Z.of_nat n) (Z.of_nat 1)); [lia|done].
Qed.

(** Does the notification find what it needs? *)
Definition notification_served (t : table) (badge : Z) : bool :=
  match t with
  | Enrolled _ => true
  | Lost _ => (badge =? 0) || match VUSB_NBADGE with Some b => badge =? b | None => false end
  end.

Lemma event_table_run t badge label s :
  table_is t s ->
  handle_async_event badge label s =
    if notification_served t badge then Ok (0, logs (event_calls (table_handlers t) badge label) s)
    else Fault AssertFailed.
Proof.
  intros Ht. destruct t as [hs|n]; cbn [notification_served table_handlers]; [by apply event_run1|].
  destruct Ht as (Hn & Hi & Hc). unfold handle_async_event, event_calls.
  destruct (badge =? 0); cbn [orb].
  { destruct (label =? IRQ_MESSAGE_LABEL); [done|by rewrite logs_nil]. }
  destruct (match VUSB_NBADGE with Some b => badge =? b | None => false end); [done|].
  unfold mbind, M_bind, get. cbn. rewrite Hi, Nat2Z.id. destruct n as [|n]; [lia|].
  rewrite zrange_S_l. cbn [for_each]. unfold try_callback, mbind, M_bind, get. by rewrite Hc.
Qed.

(** What happens when memory for a registration runs out: the registration
    fails with -1.  If it was the first, nothing is changed.  If handlers were
    registered before, they are all lost: the next notification fails the
    assertion on the array, and the next registration that is given memory
    writes outside it. *)
Lemma arm_register_failure (ops : list event_op) (h : async_event_handler) :
  let n := length (registrations ops) in
  (forall k, (k < n)%nat -> alloc_ok k = true) -> alloc_ok n = false ->
  exists s s', event_run ops arm_bss = Ok (tt, s) /\
    register_async_event_handler h s = Ok (-1, s') /\
    (n = 0%nat -> s' = s <| allocs := 1%nat |>) /\
    ((0 < n)%nat ->
     (forall badge label, badge <> 0 -> VUSB_NBADGE = None ->
        handle_async_event badge label s' = Fault AssertFailed) /\
     (forall h', alloc_ok (S n) = true -> register_async_event_handler h' s' = Fault OutOfBounds)).
Proof.
  intros n Hok Hno. destruct (event_run_ok [] ops arm_bss registered_bss Hok) as (s & E1 & ((Hi & Hc) & Ha) & _).
  cbn [app] in *. fold n in Hi, Ha.
  exists s, (s <| allocs := S n |> <| callback_arr := None |>). split; [done|]. split; [|split].
  - unfold register_async_event_handler.
    rewrite (bind_ok _ _ s tt (s <| allocs := S n |> <| callback_arr := None |>)); [done|].
    unfold grow_callback_arr, alloc. unfold mbind, M_bind, get, put, modify, mret, M_ret. by rewrite Ha, Hno.
  - intros H0. unfold n in *. destruct (registrations ops); [|done]. cbn in *.
    by destruct s; cbn in *; subst.
  - intros Hn. split.
    + intros badge label Hb Hv. unfold handle_async_event. rewrite Hv. destruct (Z.eqb_spec badge 0); [done|].
      cbn [mbind]. unfold mbind, M_bind, get. cbn. rewrite Hi, Nat2Z.id. by destruct n; [lia|].
    + intros h' Hok'. unfold register_async_event_handler, grow_callback_arr, alloc.
      unfold mbind, M_bind, get, put, modify, mret, M_ret. cbn. rewrite Hok'. cbn. unfold idx_set. rewrite Hi. cbn [length].
      destruct (Z.leb_spec 0 (Z.of_nat n)); [|lia]. destruct (Z.ltb_spec (Z.of_nat n) (Z.of_nat 1)); [lia|done].
Qed.

End Dispatch.

(** * Interrupts are routed, injected and acknowledged *)

Section Interrupts.
Context {E : ArmEnv}.

Definition routed_token (irq : Z) : irq_token := mkToken true irq irq None None.
Definition route_calls1 (token : nat) (irq : Z) : list arm_event :=
  [VmRegisterIrq irq token; ServerRegisterIrq irq (handler_for irq) token].
Fixpoint route_calls (token : nat) (irqs : list Z) : list arm_event :=
  match irqs with
  | [] => []
  | irq :: irqs => route_calls1 token irq ++ route_calls (S token) irqs
  end.
(** The interrupts of the configuration and of the device tree. *)
Definition all_irqs : list Z :=
  linux_pt_irqs ++ match camkes_dtb_get_irqs with Some l => l | None => [] end.

(** The outcome of routing the interrupts of [irqs] from [s]: those of [routed]
    are, up to the first failure, which leaves at most a token and the calls
    made for it. *)
Definition routing (irqs : list Z) (s : VmArm) (r : Z) (s' : VmArm) : Prop :=
  exists routed rest toks es,
    irqs = routed ++ rest /\ (r = 0 <-> rest = []) /\
    tokens s' = tokens s ++ map routed_token routed ++ toks /\
    arm_log s' = arm_log s ++ route_calls (length (tokens s)) routed ++ es /\
    match rest with
    | [] => toks = [] /\ es = []
    | irq :: _ => es `prefix_of` route_calls1 (length (tokens s) + length routed) irq
    end.

Lemma set_token_last (l : list irq_token) a b : <[length l := b]> (l ++ [a]) = l ++ [b].
Proof. by rewrite insert_app_r_alt, Nat.sub_diag by lia. Qed.

Lemma route_irq_run irq s :
  exists r s' toks es, route_irq irq s = Ok (r, s') /\ tokens s' = tokens s ++ toks /\ arm_log s' = arm_log s ++ es /\
    (r = 0 /\ toks = [routed_token irq] /\ es = route_calls1 (length (tokens s)) irq \/
     r = -1 /\ es `prefix_of` route_calls1 (length (tokens s)) irq).
Proof.
  unfold route_irq, alloc. destruct (alloc_ok (allocs s)) eqn:Ha.
  2:{ exists (-1), (s <| allocs := S (allocs s) |>), [], []. unfold mbind, M_bind, get, put, mret, M_ret. cbn.
      rewrite Ha, !app_nil_r. cbn. split_and!; [done|done|done|right; split; [done|apply prefix_nil]]. }
  set (s1 := s <| allocs := S (allocs s) |>).
  rewrite (bind_ok _ _ s true s1) by (unfold mbind, M_bind, get, put, mret, M_ret; by rewrite <-Ha).
  cbn [negb]. rewrite (bind_ok _ _ s1 s1 s1) by done. cbv zeta.
  change (tokens s1) with (tokens s). change (arm_log s1) with (arm_log s).
  set (s2 := s1 <| tokens := tokens s ++ [token_calloc] |>).
  rewrite (bind_ok _ _ s1 tt s2) by done.
  set (s3 := s2 <| arm_log := arm_log s ++ [VmRegisterIrq irq (length (tokens s))] |>).
  rewrite (bind_ok _ _ s2 tt s3) by done.
  destruct (vm_register_irq (arm_log s) irq =? -1).
  { exists (-1), s3, [token_calloc], [VmRegisterIrq irq (length (tokens s))].
    split_and!; [done..|]. right. split; [done|]. by eexists [_]. }
  set (s4 := s3 <| tokens := tokens s ++ [routed_token irq] |>).
  rewrite (bind_ok _ _ s3 tt s4) by (unfold set_token, modify; do 2 f_equal; unfold s4, s3, s2; cbn; by rewrite set_token_last).
  rewrite (bind_ok _ _ s4 s4 s4) by done.
  set (s5 := s4 <| arm_log := arm_log s ++ route_calls1 (length (tokens s)) irq |>).
  rewrite (bind_ok _ _ s4 tt s5).
  2:{ unfold arm_emit, modify. do 2 f_equal. unfold s5, s4, s3. cbn. by rewrite <-app_assoc. }
  destruct (_ <? 0); [exists (-1)|exists 0]; exists s5, [routed_token irq], (route_calls1 (length (tokens s)) irq);
    (split_and!; [done..|]); [right|by left]. done.
Qed.

Lemma route_each_run irqs s : exists r s', route_each irqs s = Ok (r, s') /\ routing irqs s r s'.
Proof.
  revert s. induction irqs as [|irq irqs IH]; intros s; cbn [route_each].
  { exists 0, s. split; [done|]. exists [], [], [], []. cbn. by rewrite !app_nil_r. }
  destruct (route_irq_run irq s) as (r & s1 & toks & es & E1 & Et & El & Hr). rewrite (bind_ok _ _ _ _ _ E1).
  destruct Hr as [(-> & -> & ->)|(-> & Hes)]; cbn [z2b negb Z.eqb].
  - destruct (IH s1) as (r & s' & E2 & routed & rest & toks & es & -> & Hr & Ht' & Hl' & Hm). exists r, s'. split; [done|].
    exists (irq :: routed), rest, toks, es. cbn [app map route_calls].
    rewrite Ht', Hl', Et, El, <-!app_assoc. cbn [app].
    rewrite Et in Hm. rewrite length_app, Nat.add_1_r in Hm |- *.
    split_and!; [done|done|done|done|]. destruct rest; [done|]. cbn [length]. by rewrite Nat.add_succ_r.
  - exists (-1), s1. split; [done|]. exists [], (irq :: irqs), toks, es. cbn [app map route_calls length].
    rewrite Nat.add_0_r. by split_and!.
Qed.

Lemma route_calls_app n l l' : route_calls n (l ++ l') = route_calls n l ++ route_calls (n + length l) l'.
Proof.
  revert n. induction l as [|irq l IH]; intros n; cbn [app route_calls length].
  - by rewrite Nat.add_0_r.
  - by rewrite IH, Nat.add_succ_r, <-app_assoc.
Qed.

(** Two routings in a row. *)
Lemma routing_app irqs irqs' s s1 s' r :
  routing irqs s 0 s1 -> routing irqs' s1 r s' -> routing (irqs ++ irqs') s r s'.
Proof.
  intros (routed & rest & toks & es & -> & Hr & Ht & Hl & Hm) (routed' & rest' & toks' & es' & -> & Hr' & Ht' & Hl' & Hm').
  assert (rest = []) as -> by (by apply Hr). destruct Hm as [-> ->]. rewrite !app_nil_r in *.
  exists (routed ++ routed'), rest', toks', es'.
  rewrite Ht, length_app, length_map in Hm'.
  rewrite Ht', Hl', Ht, Hl, !map_app, length_app, length_map, <-!app_assoc.
  split_and!; [done|done|done| |].
  - by rewrite route_calls_app, <-app_assoc.
  - destruct rest'; [done|]. by rewrite length_app, Nat.add_assoc.
Qed.

Lemma route_irqs_run (s : VmArm) : exists r s', route_irqs s = Ok (r, s') /\ routing all_irqs s r s'.
Proof.
  unfold route_irqs, all_irqs. destruct (route_each_run linux_pt_irqs s) as (r & s1 & E1 & R1).
  rewrite (bind_ok _ _ _ _ _ E1). unfold z2b. destruct (Z.eqb_spec r 0) as [->|Hr]; cbn [negb].
  - destruct camkes_dtb_get_irqs as [dtb_irqs|]; [|exists 0, s1; by rewrite app_nil_r].
    destruct (route_each_run dtb_irqs s1) as (r & s' & E2 & R2). exists r, s'. split; [done|]. by eapply routing_app.
  - exists r, s1. split; [done|]. destruct R1 as (routed & rest & toks & es & -> & Hr' & Ht & Hl & Hm).
    destruct rest as [|irq rest]; [by destruct Hr; apply Hr'|].
    exists routed, (irq :: rest ++ match camkes_dtb_get_irqs with Some l => l | None => [] end), toks, es.
    by rewrite <-app_assoc.
Qed.

(** Routing leaves the handlers of notifications alone. *)
Lemma route_irq_handlers hs irq s : handlers hs s -> wlp (route_irq irq) (fun _ => handlers hs) s.
Proof.
  intros H. unfold route_irq, alloc, arm_emit, set_token, modify, get, put, mbind, M_bind, mret, M_ret, wlp. cbn.
  repeat (case_match; simplify_eq/=); done.
Qed.

Lemma route_each_handlers hs irqs s : handlers hs s -> wlp (route_each irqs) (fun _ => handlers hs) s.
Proof.
  revert s. induction irqs as [|irq irqs IH]; intros s H; cbn [route_each]; [by apply wlp_ret|].
  apply wlp_bind. eapply wlp_mono; [by apply route_irq_handlers|]. intros err s1 H1.
  apply wlp_if; intros _; [by apply wlp_ret|by apply IH].
Qed.

Lemma route_each_allocs irqs s :
  wlp (route_each irqs) (fun r s' => r = 0 -> allocs s' = (allocs s + length irqs)%nat) s.
Proof.
  revert s. induction irqs as [|irq irqs IH]; intros s; cbn [route_each length]; [apply wlp_ret; lia|].
  apply wlp_bind. eapply wlp_mono with (Q := fun r s1 => r = 0 -> allocs s1 = S (allocs s)).
  - unfold route_irq, alloc, arm_emit, set_token, modify, get, put, mbind, M_bind, mret, M_ret, wlp. cbn.
    repeat (case_match; simplify_eq/=); done.
  - intros err s1 H1. apply wlp_if; intros Hb; [apply wlp_ret; intros ->; done|].
    eapply wlp_mono; [apply IH|]. cbn. intros r s2 H2 Hr. rewrite (H2 Hr), (H1 (z2b_false _ Hb)). lia.
Qed.

Lemma route_irqs_allocs s :
  wlp route_irqs (fun r s' => r = 0 -> allocs s' = (allocs s + length all_irqs)%nat) s.
Proof.
  unfold route_irqs, all_irqs. apply wlp_bind. eapply wlp_mono; [apply route_each_allocs|]. intros err s1 H1.
  rewrite length_app. apply wlp_if; intros Hb; [apply wlp_ret; intros ->; done|]. specialize (H1 (z2b_false _ Hb)).
  destruct camkes_dtb_get_irqs; [|apply wlp_ret; cbn; lia].
  eapply wlp_mono; [apply route_each_allocs|]. cbn. intros r s2 H2 Hr. rewrite (H2 Hr), H1. lia.
Qed.

Lemma route_irqs_handlers hs s : handlers hs s -> wlp route_irqs (fun _ => handlers hs) s.
Proof.
  intros H. unfold route_irqs. apply wlp_bind. eapply wlp_mono; [by apply route_each_handlers|]. intros err s1 H1.
  apply wlp_if; intros _; [by apply wlp_ret|].
  destruct camkes_dtb_get_irqs; [by apply route_each_handlers|by apply wlp_ret].
Qed.

(** When nothing fails, all of them are routed. *)
Record routing_succeeds : Prop := {
  rs_alloc n : alloc_ok n = true;
  rs_vm l irq : vm_register_irq l irq <> -1;
  rs_server l irq : 0 <= irq_server_register_irq l irq }.

Lemma route_each_ok irqs s : routing_succeeds -> wp (route_each irqs) (fun r _ => r = 0) s.
Proof.
  intros RS. revert s. induction irqs as [|irq irqs IH]; intros s; cbn [route_each]; [by apply wp_ret|].
  apply wp_bind. eapply wp_mono with (Q := fun r _ => r = 0); [|intros r s1 ->; apply IH].
  unfold route_irq, alloc, arm_emit, set_token, modify, get, put, mbind, M_bind, mret, M_ret, wp. cbn.
  rewrite (rs_alloc RS). cbn. destruct (Z.eqb_spec (vm_register_irq (arm_log s) irq) (-1)) as [E1|_]; [by destruct (rs_vm RS _ _ E1)|].
  cbn. by rewrite (proj2 (Z.ltb_ge _ _) (rs_server RS _ irq)).
Qed.

Lemma route_irqs_ok s : routing_succeeds -> wp route_irqs (fun r _ => r = 0) s.
Proof.
  intros RS. unfold route_irqs. apply wp_bind. eapply wp_mono; [by apply route_each_ok|]. intros r s1 ->.
  cbn [z2b negb Z.eqb]. destruct camkes_dtb_get_irqs; [by apply route_each_ok|by apply wp_ret].
Qed.

(** Routing at start-up.  The interrupts of the configuration and then those
    of the device tree are routed in order, each with a token of its own that
    names it: the virtual interrupt controller gets [do_irq_server_ack], the
    interrupt server the platform's handler or [irq_handler].  The result is 0
    exactly when all of them are routed; otherwise routing has stopped at the
    first that fails, and at most that one is half registered. *)
Lemma arm_irq_routing (s : VmArm) : exists r s', route_irqs s = Ok (r, s') /\ routing all_irqs s r s'.
Proof. apply route_irqs_run. Qed.

(** ** Acknowledgement *)

(** The interrupt server calls the handler routed for an interrupt; the guest
    ends an interrupt, and the interrupt controller calls what is registered
    for it.  [k] is the interrupt's place in the routing. *)
Inductive irq_op :=
| IrqArrive (k : nat) (f d : Z)
| IrqEoi (k : nat).

Definition run_irq_callback (h : irq_callback) : option nat -> Z -> Z -> Arm unit :=
  match h with CbIrqHandler => irq_handler | CbVcombinerIrqHandler => vcombiner_irq_handler end.
Definition irq_exec (irqs : list Z) (o : irq_op) : Arm unit :=
  match o with
  | IrqArrive k f d =>
      match irqs !! k with
      | Some irq => run_irq_callback (handler_for irq) (Some k) f d
      | None => fail OutOfBounds
      end
  | IrqEoi k => do_irq_server_ack (Some k)
  end.
Definition irq_run (irqs : list Z) (ops : list irq_op) : Arm unit := for_each ops (irq_exec irqs).

Definition irq_of (o : irq_op) : nat := match o with IrqArrive k _ _ => k | IrqEoi k => k end.
Definition irq_ops_ok (irqs : list Z) (ops : list irq_op) : Prop :=
  Forall (fun o => (irq_of o < length irqs)%nat) ops.

Definition arrivals (k : nat) (ops : list irq_op) : list (Z * Z) :=
  flat_map (fun o => match o with IrqArrive j f d => if decide (j = k) then [(f, d)] else [] | _ => [] end) ops.
Definition acks (k : nat) (es : list arm_event) : list (Z * Z) :=
  flat_map (fun e => match e with Acknowledge j f d => if decide (j = k) then [(f, d)] else [] | _ => [] end) es.
Definition pending_of (tk : irq_token) : list (Z * Z) :=
  match tok_acknowledge_fn tk, tok_ack_data tk with Some f, Some d => [(f, d)] | _, _ => [] end.
(** An interrupt that arrived and is not acknowledged. *)
Definition pending_ack (k : nat) (s : VmArm) : list (Z * Z) :=
  match tokens s !! k with Some tk => pending_of tk | None => [] end.
(** The interrupt does not arrive again before the guest has ended it. *)
Fixpoint masked (k : nat) (outstanding : bool) (ops : list irq_op) : Prop :=
  match ops with
  | [] => True
  | IrqArrive j _ _ :: ops =>
      if decide (j = k) then outstanding = false /\ masked k true ops else masked k outstanding ops
  | IrqEoi j :: ops => if decide (j = k) then masked k false ops else masked k outstanding ops
  end.

Definition injections (es : list arm_event) : list Z :=
  flat_map (fun e => match e with VmInjectIrq irq => [irq] | _ => [] end) es.
(** The calls made for notifications. *)
Definition is_notified (e : arm_event) : bool :=
  match e with IrqServerIpc | VusbNotify | RunCallback _ _ => true | _ => false end.
Definition notified (es : list arm_event) : list arm_event := List.filter is_notified es.
(** The interrupts of the default handler that arrive. *)
Definition to_inject (irqs : list Z) (ops : list irq_op) : list Z :=
  flat_map (fun o => match o with
    | IrqArrive k _ _ =>
        match irqs !! k with
        | Some irq => match handler_for irq with CbIrqHandler => [irq] | _ => [] end
        | None => []
        end
    | _ => []
    end) ops.

(** The tokens belong to the routed interrupts. *)
Definition tokens_of (irqs : list Z) (s : VmArm) : Prop :=
  Forall2 (fun irq tk => tok_vm tk = true /\ tok_irq tk = irq /\ tok_virq tk = irq) irqs (tokens s).

Lemma tokens_of_insert irqs s k irq tk :
  tokens_of irqs s -> irqs !! k = Some irq -> tok_vm tk = true /\ tok_irq tk = irq /\ tok_virq tk = irq ->
  tokens_of irqs (s <| tokens := <[k := tk]> (tokens s) |>).
Proof.
  intros H Hk Htk. unfold tokens_of. cbn. rewrite <-(list_insert_id irqs k irq) by done.
  by apply Forall2_insert.
Qed.

Lemma pending_insert k j s tk :
  (k < length (tokens s))%nat ->
  pending_ack j (s <| tokens := <[k := tk]> (tokens s) |>) = if decide (k = j) then pending_of tk else pending_ack j s.
Proof.
  intros Hk. unfold pending_ack. cbn. destruct (decide (k = j)) as [<-|Hn].
  - by rewrite list_lookup_insert_eq.
  - by rewrite list_lookup_insert_ne.
Qed.

(** The effect of one operation. *)
Definition irq_step (irqs : list Z) (o : irq_op) (s : VmArm) (es : list arm_event) (s' : VmArm) : Prop :=
  irq_exec irqs o s = Ok (tt, s') /\ tokens_of irqs s' /\ arm_log s' = arm_log s ++ es /\
  injections es = to_inject irqs [o] /\ notified es = [] /\
  forall k irq, irqs !! k = Some irq -> handler_for irq = CbIrqHandler ->
    match o with
    | IrqArrive j f d =>
        acks k es = [] /\ pending_ack k s' = if decide (j = k) then [(f, d)] else pending_ack k s
    | IrqEoi j =>
        acks k es = (if decide (j = k) then pending_ack k s else []) /\
        pending_ack k s' = if decide (j = k) then [] else pending_ack k s
    end.

Lemma token_at_run k s tk : tokens s !! k = Some tk -> token_at (Some k) s = Ok ((k, tk), s).
Proof.
  intros Hk. unfold token_at. rewrite (bind_ok _ _ s s s), (bind_ok _ _ s tk s) by (done || by apply lift_ok, idx_lookup).
  done.
Qed.

Lemma lookup_token irqs s k irq :
  tokens_of irqs s -> irqs !! k = Some irq ->
  exists tk, tokens s !! k = Some tk /\ (k < length (tokens s))%nat /\
    tok_vm tk = true /\ tok_irq tk = irq /\ tok_virq tk = irq.
Proof.
  intros H Hk. destruct (Forall2_lookup_l _ _ _ _ _ H Hk) as (tk & Ht & Hs). exists tk.
  split; [done|]. split; [by eapply lookup_lt_Some|done].
Qed.

Lemma arrive_step irqs k f d s :
  tokens_of irqs s -> (k < length irqs)%nat -> exists es s', irq_step irqs (IrqArrive k f d) s es s'.
Proof.
  intros Hs Hk. destruct (lookup_lt_is_Some_2 irqs k Hk) as [irq Hirq].
  destruct (lookup_token irqs s k irq Hs Hirq) as (tk & Ht & Hl & Hv & Hi & Hq).
  unfold irq_step, irq_exec, to_inject. cbn [flat_map]. rewrite Hirq.
  set (tk' := tk <| tok_acknowledge_fn := Some f |> <| tok_ack_data := Some d |>).
  set (s1 := s <| tokens := <[k := tk']> (tokens s) |>).
  assert (tokens_of irqs s1) as Hs1 by (by eapply tokens_of_insert).
  assert (forall j, pending_ack j s1 = if decide (k = j) then [(f, d)] else pending_ack j s) as Hp1
    by (intros j; by apply pending_insert).
  destruct (handler_for irq) eqn:Hh; cbn [run_irq_callback].
  - exists [VmInjectIrq irq], (logs [VmInjectIrq irq] s1).
    split; [|split_and!; [done|done|done|done|intros j irq' _ _; split; [done|apply Hp1]]].
    unfold irq_handler. rewrite (bind_ok _ _ _ _ _ (token_at_run k s tk Ht)). cbv beta iota.
    rewrite (bind_ok _ _ s tt s1) by done. rewrite Hv, (bind_ok _ _ s1 tt s1), Hq by done. done.
  - exists [CombinerIrq irq; Acknowledge k f d], (logs [CombinerIrq irq; Acknowledge k f d] s1).
    split; [|split_and!; [done|done|done|done|]].
    + unfold vcombiner_irq_handler. rewrite (bind_ok _ _ _ _ _ (token_at_run k s tk Ht)). cbv beta iota.
      rewrite (bind_ok _ _ s tt s1), Hi, (bind_ok _ _ s1 tt (logs [CombinerIrq irq] s1)) by done.
      unfold arm_emit, modify. f_equal. f_equal. exact (logs_logs [CombinerIrq irq] [Acknowledge k f d] s1).
    + intros j irq' Hj Hd. cbn. split; [by destruct (decide (k = j)) as [<-|Hn]; [congruence|]|apply Hp1].
Qed.

Lemma eoi_step irqs k s :
  (forall f d, acknowledge f d = 0) ->
  tokens_of irqs s -> (k < length irqs)%nat -> exists es s', irq_step irqs (IrqEoi k) s es s'.
Proof.
  intros Hack Hs Hk. destruct (lookup_lt_is_Some_2 irqs k Hk) as [irq Hirq].
  destruct (lookup_token irqs s k irq Hs Hirq) as (tk & Ht & Hl & Hv & Hi & Hq).
  unfold irq_step, irq_exec, to_inject, do_irq_server_ack. cbn [flat_map].
  rewrite (bind_ok _ _ _ _ _ (token_at_run k s tk Ht)). cbv beta iota.
  assert (pending_ack k s = pending_of tk) as Hp by (unfold pending_ack; by rewrite Ht).
  unfold pending_of in Hp.
  destruct (tok_acknowledge_fn tk) as [f|] eqn:Hf, (tok_ack_data tk) as [d|] eqn:Hd.
  { set (tk' := tk <| tok_ack_data := None |>).
    exists [Acknowledge k f d], (logs [Acknowledge k f d] (s <| tokens := <[k := tk']> (tokens s) |>)).
    assert (tokens_of irqs (s <| tokens := <[k := tk']> (tokens s) |>)) by (by eapply tokens_of_insert).
    rewrite (bind_ok _ _ s tt (logs [Acknowledge k f d] s)) by done.
    rewrite Hack, (bind_ok _ _ _ tt (logs [Acknowledge k f d] s)) by done.
    split_and!; [done..|]. intros j irq' Hj _.
    change (pending_ack j (logs [Acknowledge k f d] (s <| tokens := <[k := tk']> (tokens s) |>)))
      with (pending_ack j (s <| tokens := <[k := tk']> (tokens s) |>)).
    rewrite (pending_insert k j s tk' Hl). cbn [acks flat_map]. rewrite app_nil_r.
    destruct (decide (k = j)) as [<-|Hn]; [|done]. rewrite Hp. split; [done|].
    unfold pending_of. cbn. by rewrite Hf. }
  all: exists [], s; rewrite app_nil_r; split_and!; [done..|]; intros j irq' Hj _; cbn;
    destruct (decide (k = j)) as [<-|Hn]; by rewrite ?Hp.
Qed.

Lemma irq_exec_step irqs o s :
  (forall f d, acknowledge f d = 0) ->
  tokens_of irqs s -> (irq_of o < length irqs)%nat -> exists es s', irq_step irqs o s es s'.
Proof. destruct o; [intros _; apply arrive_step|apply eoi_step]. Qed.

(** So do arrivals and ends of interrupts. *)
Lemma irq_exec_table irqs o s :
  wlp (irq_exec irqs o) (fun _ s' => callback_idx s' = callback_idx s /\ callback_arr s' = callback_arr s) s.
Proof.
  unfold irq_exec, run_irq_callback, irq_handler, vcombiner_irq_handler, do_irq_server_ack, token_at,
    set_token, arm_emit, assertC, modify, get, lift, fail, mbind, M_bind, mret, M_ret, wlp. cbn.
  repeat (case_match; simplify_eq/=); done.
Qed.

Definition is_pending (l : list (Z * Z)) : bool := match l with [] => false | _ => true end.

(** The acknowledgements given for the operations [ops], from [s] to [s']. *)
Definition acknowledged (irqs : list Z) (s : VmArm) (ops : list irq_op) (es : list arm_event) (s' : VmArm) : Prop :=
  forall k irq, irqs !! k = Some irq -> handler_for irq = CbIrqHandler ->
    acks k es `sublist_of` pending_ack k s ++ arrivals k ops /\
    (masked k (is_pending (pending_ack k s)) ops ->
     acks k es ++ pending_ack k s' = pending_ack k s ++ arrivals k ops).

Lemma acknowledged_step irqs o ops s es1 s1 es2 s' :
  irq_step irqs o s es1 s1 -> acknowledged irqs s1 ops es2 s' -> acknowledged irqs s (o :: ops) (es1 ++ es2) s'.
Proof.
  intros (_ & _ & _ & _ & _ & Hk1) Hk2 k irq Hk Hh. specialize (Hk1 k irq Hk Hh).
  destruct (Hk2 k irq Hk Hh) as [Hsub Heq]. unfold acks in *. rewrite flat_map_app.
  destruct o as [j f d|j]; destruct Hk1 as [-> Hp]; rewrite Hp in Hsub, Heq;
    cbn [arrivals flat_map masked app]; destruct (decide (j = k)) as [<-|Hn]; try by split.
  - split; [|intros [Hn Hm]].
    + etransitivity; [exact Hsub|]. by apply sublist_inserts_l.
    + rewrite (Heq Hm). by destruct (pending_ack j s).
  - split; [by apply sublist_app|]. intros Hm. by rewrite <-app_assoc, (Heq Hm).
Qed.

Lemma acknowledged_logs irqs s ops es0 es s' :
  (forall k, acks k es0 = []) -> acknowledged irqs (logs es0 s) ops es s' -> acknowledged irqs s ops (es0 ++ es) s'.
Proof.
  intros H0 H k irq Hk Hh. specialize (H k irq Hk Hh). unfold acks in *. rewrite flat_map_app, H0. exact H.
Qed.

(** ** What arrives while the guest runs *)

Inductive run_op :=
| RunNotification (badge label : Z)
| RunIrq (o : irq_op).

Definition run_exec (irqs : list Z) (o : run_op) : Arm unit :=
  match o with
  | RunNotification badge label => _ ← handle_async_event badge label; mret tt
  | RunIrq o => irq_exec irqs o
  end.
Definition irq_part (ops : list run_op) : list irq_op :=
  flat_map (fun o => match o with RunIrq o => [o] | _ => [] end) ops.
(** The calls for the notifications among [ops]. *)
Definition notify_calls (hs : list async_event_handler) (ops : list run_op) : list arm_event :=
  flat_map (fun o => match o with RunNotification b l => event_calls hs b l | _ => [] end) ops.

Lemma event_calls_class hs badge label :
  notified (event_calls hs badge label) = event_calls hs badge label /\
  injections (event_calls hs badge label) = [] /\ forall k, acks k (event_calls hs badge label) = [].
Proof.
  unfold event_calls. destruct (badge =? 0); [by destruct (label =? IRQ_MESSAGE_LABEL)|].
  destruct (match VUSB_NBADGE with Some b => badge =? b | None => false end); [done|].
  induction hs as [|h hs (H1 & H2 & H3)]; cbn [List.filter map]; [done|].
  destruct (waits_for badge h); cbn [map notified List.filter is_notified run_handler]; [|by split_and!].
  unfold notified in *. rewrite H1. by split_and!.
Qed.

(** Is the operation served, with this table of handlers? *)
Definition run_served (t : table) (o : run_op) : bool :=
  match o with RunNotification badge _ => notification_served t badge | RunIrq _ => true end.

(** Notifications and interrupts, in any order: the notifications reach the
    handlers, the interrupts are injected and acknowledged; when the handlers
    are lost, the first notification for one of them fails an assertion. *)
Lemma run_execs_table t irqs ops s :
  (forall f d, acknowledge f d = 0) -> table_is t s -> tokens_of irqs s -> irq_ops_ok irqs (irq_part ops) ->
  if forallb (run_served t) ops then
    exists es s', for_each ops (run_exec irqs) s = Ok (tt, s') /\ arm_log s' = arm_log s ++ es /\
      table_is t s' /\ tokens_of irqs s' /\
      notified es = notify_calls (table_handlers t) ops /\ injections es = to_inject irqs (irq_part ops) /\
      acknowledged irqs s (irq_part ops) es s'
  else for_each ops (run_exec irqs) s = Fault AssertFailed.
Proof.
  intros Hack. revert s. induction ops as [|o ops IH]; intros s Hh Hs Hok; cbn [for_each forallb].
  { exists [], s. rewrite app_nil_r. split_and!; [done..|]. intros k irq _ _. cbn. rewrite app_nil_r.
    split; [apply sublist_nil_l|done]. }
  destruct o as [badge label|o]; cbn [run_served].
  - destruct (event_calls_class (table_handlers t) badge label) as (Hn & Hi & Ha).
    set (s1 := logs (event_calls (table_handlers t) badge label) s).
    pose proof (event_table_run t badge label s Hh) as Ee.
    destruct (notification_served t badge); cbn [andb].
    2:{ apply bind_fault. cbn [run_exec]. by apply bind_fault. }
    rewrite (bind_ok _ _ s tt s1) by (cbn [run_exec]; by rewrite (bind_ok _ _ _ _ _ Ee)).
    assert (table_is t s1) as Hh1 by (by apply (table_same t s)). specialize (IH s1 Hh1 Hs Hok).
    destruct (forallb (run_served t) ops); [|exact IH].
    destruct IH as (es & s' & E2 & El & Hh' & Hs' & En & Ei & Hk).
    exists (event_calls (table_handlers t) badge label ++ es), s'.
    rewrite E2, El. split_and!; [done|by rewrite app_assoc|done|done| | |by apply acknowledged_logs].
    + unfold notified, notify_calls in *. cbn [flat_map]. by rewrite List.filter_app, Hn, En.
    + unfold injections in *. by rewrite flat_map_app, Hi, Ei.
  - apply List.Forall_cons_iff in Hok as [Ho Hok]. cbn [andb].
    destruct (irq_exec_step irqs o s Hack Hs Ho) as (es1 & s1 & Hst). pose proof Hst as (E1 & Hs1 & El1 & Ei1 & En1 & _).
    destruct (wlp_inv _ _ _ _ _ (irq_exec_table irqs o s) E1) as [Hi1 Hc1].
    assert (table_is t s1) as Hh1 by (by apply (table_same t s)). specialize (IH s1 Hh1 Hs1 Hok).
    cbn [run_exec]. rewrite (bind_ok _ _ _ _ _ E1). destruct (forallb (run_served t) ops); [|exact IH].
    destruct IH as (es2 & s' & E2 & El2 & Hh' & Hs' & En2 & Ei2 & Hk2).
    exists (es1 ++ es2), s'. rewrite E2, El2, El1, <-app_assoc.
    split_and!; [done|done|done|done| | |by eapply acknowledged_step].
    + unfold notified, notify_calls in *. by rewrite List.filter_app, En1, En2.
    + unfold injections, irq_part, to_inject in *. cbn [flat_map app] in *. by rewrite flat_map_app, Ei1, Ei2, app_nil_r.
Qed.

(** C5 -- Passed-through interrupts are acknowledged exactly, the kernel accepting
    the acknowledgements.  Each arrival of an interrupt with the default handler
    injects it into the guest.  For such an interrupt an acknowledgement is never repeated, never given before the arrival nor
    for another interrupt, and never out of order; and if the interrupt stays
    masked until the guest has ended it, each arrival is acknowledged, when the
    guest ends it: nothing is lost but the last one while it is pending. *)
Theorem arm_irq_acknowledged (irqs : list Z) (ops : list irq_op) (s : VmArm) :
  (forall f d, acknowledge f d = 0) -> tokens_of irqs s -> irq_ops_ok irqs ops ->
  exists es s', irq_run irqs ops s = Ok (tt, s') /\ arm_log s' = arm_log s ++ es /\
    injections es = to_inject irqs ops /\
    forall k irq, irqs !! k = Some irq -> handler_for irq = CbIrqHandler ->
      acks k es `sublist_of` pending_ack k s ++ arrivals k ops /\
      (masked k (is_pending (pending_ack k s)) ops ->
       acks k es ++ pending_ack k s' = pending_ack k s ++ arrivals k ops).
Proof.
  intros Hack Hs Hops. revert s Hs. induction Hops as [|o ops Ho _ IH]; intros s Hs.
  { exists [], s. rewrite app_nil_r. split_and!; [done..|]. intros k irq _ _. cbn. rewrite app_nil_r.
    split; [apply sublist_nil_l|done]. }
  destruct (irq_exec_step irqs o s Hack Hs Ho) as (es1 & s1 & Hst). pose proof Hst as (E1 & Hs1 & El1 & Ei1 & _).
  destruct (IH s1 Hs1) as (es2 & s' & E2 & El2 & Ei2 & Hk2).
  exists (es1 ++ es2), s'. unfold irq_run in *. cbn [for_each]. rewrite (bind_ok _ _ _ _ _ E1), E2, El2, El1, <-app_assoc.
  split_and!; [done|done| |by apply (acknowledged_step irqs o ops s es1 s1 es2 s')].
  unfold injections, to_inject in *. cbn [flat_map] in *. by rewrite flat_map_app, Ei1, Ei2, app_nil_r.
Qed.

(** Interrupts of the combiner are acknowledged when they arrive and once more
    when the guest ends them. *)
Lemma combiner_acknowledged_twice irqs k irq f d s :
  acknowledge f d = 0 -> tokens_of irqs s -> irqs !! k = Some irq -> handler_for irq = CbVcombinerIrqHandler ->
  exists s', irq_run irqs [IrqArrive k f d; IrqEoi k] s = Ok (tt, s') /\
    arm_log s' = arm_log s ++ [CombinerIrq irq; Acknowledge k f d; Acknowledge k f d].
Proof.
  intros Hack Hs Hk Hh. destruct (lookup_token irqs s k irq Hs Hk) as (tk & Ht & Hl & Hv & Hi & Hq).
  set (tk' := tk <| tok_acknowledge_fn := Some f |> <| tok_ack_data := Some d |>).
  set (s1 := logs [CombinerIrq irq; Acknowledge k f d] (s <| tokens := <[k := tk']> (tokens s) |>)).
  exists (logs [Acknowledge k f d] (s1 <| tokens := <[k := tk' <| tok_ack_data := None |>]> (tokens s1) |>)).
  split; [|by (cbn; rewrite <-app_assoc)].
  unfold irq_run. cbn [for_each irq_exec]. rewrite Hk, Hh. cbn [run_irq_callback].
  rewrite (bind_ok _ _ s tt s1).
  - unfold do_irq_server_ack.
    rewrite (bind_ok _ _ s1 tt (logs [Acknowledge k f d] (s1 <| tokens := <[k := tk' <| tok_ack_data := None |>]> (tokens s1) |>))); [done|].
    rewrite (bind_ok _ _ _ _ _ (token_at_run k s1 tk' ltac:(cbn; by apply list_lookup_insert_eq))). cbv beta iota.
    change (tok_acknowledge_fn tk') with (Some f). change (tok_ack_data tk') with (Some d). cbv iota.
    rewrite (bind_ok _ _ s1 tt (logs [Acknowledge k f d] s1)) by done.
    by rewrite Hack, (bind_ok _ _ _ tt (logs [Acknowledge k f d] s1)).
  - unfold vcombiner_irq_handler. rewrite (bind_ok _ _ _ _ _ (token_at_run k s tk Ht)). cbv beta iota.
    unfold set_token, arm_emit, modify, mbind, M_bind. rewrite Hi. unfold s1, logs. cbn. by rewrite <-app_assoc.
Qed.

(** After routing, the tokens are those of the interrupts, none pending. *)
Lemma routed_tokens_of s s' :
  tokens s = [] -> routing all_irqs s 0 s' -> tokens_of all_irqs s' /\ forall k, pending_ack k s' = [].
Proof.
  intros H0 (routed & rest & toks & es & Ea & Hr & Ht & _ & Hm).
  assert (rest = []) as -> by (by apply Hr). destruct Hm as [-> ->]. rewrite app_nil_r in *. rewrite Ea.
  rewrite H0 in Ht. cbn in Ht. unfold tokens_of, pending_ack. rewrite Ht. split.
  - clear. induction routed; cbn; by constructor.
  - intros k. rewrite lookup_map. by destruct (routed !! k).
Qed.

End Interrupts.

(** * Attributes *)

(** [run]: priority and number of virtual processors, from the optional
    attributes of the component. *)
Definition VM_PRIO_DEFAULT : Z := 100.
Definition NUM_VCPUS_DEFAULT : Z := 1.

Definition run_vm_prio (base_prio : option Z) : Z :=
  match base_prio with Some p => p | None => VM_PRIO_DEFAULT end.
Definition run_num_vcpus (max_num_nodes : Z) (num_vcpus : option Z) : Z :=
  match num_vcpus with
  | Some n =>
      if n >? max_num_nodes then max_num_nodes
      else if n <=? 0 then NUM_VCPUS_DEFAULT
      else n
  | None => NUM_VCPUS_DEFAULT
  end.

(** The virtual machine has at least one processor and no more than the system
    supports. *)
Lemma run_num_vcpus_bounds max_num_nodes num_vcpus :
  1 <= max_num_nodes -> 1 <= run_num_vcpus max_num_nodes num_vcpus <= max_num_nodes.
Proof.
  intros. unfold run_num_vcpus, NUM_VCPUS_DEFAULT. destruct num_vcpus as [n|]; [|lia].
  destruct (Z.gtb_spec n max_num_nodes); [lia|]. destruct (Z.leb_spec n 0); lia.
Qed.

(** * Witnesses *)

(** Memory for two registrations only; two configured interrupts, one of the
    combiner's, and one from the device tree. *)
#[local] Instance arm_demo : ArmEnv := {|
  alloc_ok n := Nat.ltb n 2;
  vm_register_irq l irq := 0;
  irq_server_register_irq l irq := 5;
  acknowledge f d := 0;
  linux_pt_irqs := [100; 40];
  camkes_dtb_get_irqs := Some [101];
  get_custom_irq_handler := Some exynos5410_get_custom_irq_handler;
  VUSB_NBADGE := None |}.

Definition demo_event_ops : list event_op :=
  [OpRegister (mkAsyncHandler 1 7 0); OpEvent 6 0; OpRegister (mkAsyncHandler 6 8 9); OpEvent 7 0; OpEvent 0 0xCAFE].

Lemma arm_event_dispatch_witness :
  exists s', event_run demo_event_ops arm_bss = Ok (tt, s') /\
    arm_log s' = [RunCallback 7 0; RunCallback 8 9; IrqServerIpc].
Proof.
  change [RunCallback 7 0; RunCallback 8 9; IrqServerIpc] with (dispatched [] demo_event_ops).
  apply (arm_event_dispatch demo_event_ops). intros n Hn. apply (proj2 (Nat.ltb_lt n 2)), Hn.
Defined.

Lemma arm_register_failure_witness :
  exists s s', event_run demo_event_ops arm_bss = Ok (tt, s) /\
    register_async_event_handler (mkAsyncHandler 16 3 3) s = Ok (-1, s') /\
    (2%nat = 0%nat -> s' = s <| allocs := 1%nat |>) /\
    ((0 < 2)%nat ->
     (forall badge label, badge <> 0 -> VUSB_NBADGE = None ->
        handle_async_event badge label s' = Fault AssertFailed) /\
     (forall h', alloc_ok 3 = true -> register_async_event_handler h' s' = Fault OutOfBounds)).
Proof.
  apply (arm_register_failure demo_event_ops (mkAsyncHandler 16 3 3)); [|reflexivity].
  intros n Hn. apply (proj2 (Nat.ltb_lt n 2)), Hn.
Defined.

(** Interrupt 100 arrives twice, is ended twice; 101 stays pending. *)
Definition demo_tokens : VmArm := arm_bss <| tokens := map routed_token [100; 40; 101] |>.
Definition demo_irq_ops : list irq_op :=
  [IrqEoi 0; IrqArrive 0 1 11; IrqArrive 1 1 12; IrqEoi 0; IrqEoi 0; IrqArrive 0 1 13; IrqArrive 2 1 14; IrqEoi 0].

Lemma arm_irq_acknowledged_witness :
  exists es s', irq_run [100; 40; 101] demo_irq_ops demo_tokens = Ok (tt, s') /\ arm_log s' = [] ++ es /\
    injections es = [100; 100; 101] /\
    forall k irq, [100; 40; 101] !! k = Some irq -> handler_for irq = CbIrqHandler ->
      acks k es `sublist_of` pending_ack k demo_tokens ++ arrivals k demo_irq_ops /\
      (masked k (is_pending (pending_ack k demo_tokens)) demo_irq_ops ->
       acks k es ++ pending_ack k s' = pending_ack k demo_tokens ++ arrivals k demo_irq_ops).
Proof.
  change [100; 100; 101] with (to_inject [100; 40; 101] demo_irq_ops).
  apply (arm_irq_acknowledged [100; 40; 101] demo_irq_ops demo_tokens); [done| |].
  - unfold tokens_of. cbn. repeat constructor.
  - unfold irq_ops_ok. repeat (apply List.Forall_cons; [cbn; lia|]). apply List.Forall_nil.
Defined.
