(* ===== verification/ArmMem.v ===== *)
(** Memory and capabilities in the ARM VMM (components/VM_Arm/src/main.c): the
    mapping of device memory for drivers with its search for a page size and its
    clean-up, the allocator hooks for dataport frames and static TCBs, the
    pools of untyped memory, DMA pages, and memory installed on a guest fault.

    vka, allocman, the vspace library and the kernel are outside the
    repository.  What they hand out is accounted for in the state: which
    capability slots are allocated, which frame a slot holds, which untypeds
    are in use.  Giving back what is not held is a fault. *)

From stdpp Require Import gmap.
From S2P Require Import Prelude.

(** * State *)

Record Caps := mkCaps {
  slots : gset Z;
  caps : gmap Z (Z * Z);         (* the frame in a slot: address and size *)
  uts : gset Z;                  (* untypeds in use, by cookie *)
  maps : list (Z * list Z * Z);  (* address, frames and page size of a mapping *)
  calls : nat }.
#[export] Instance eta_Caps : Eta Caps :=
  fun s => mkCaps (slots s) (caps s) (uts s) (maps s) (calls s).

(** dataport_frame_t of libcamkes. *)
Record dataport_frame := mkDataportFrame { df_paddr : Z; df_size : Z; df_cap : Z; df_vaddr : Z }.

(** Answers depend on the number of the call and on what is in use. *)
Class CapEnv := {
  vka_cspace_alloc : nat -> gset Z -> option Z;
  utspace_alloc_at_copy : nat -> gset Z -> Z -> Z -> Z -> option Z;
  simple_get_frame_cap : nat -> Z -> Z -> Z;
  vka_cnode_copy : nat -> Z -> Z;
  vspace_map_pages : nat -> list Z -> Z -> option Z;
  dataport_frames : list dataport_frame;
  sel4_page_sizes : list Z;
  kobject_frame_type : Z -> Z;
  seL4_ARM_SmallPageObject : Z;
  ROUND_UP : Z -> Z -> Z;
  (* the width of size_t, uintptr_t and seL4_Word on the platform *)
  WORD_BITS : Z;
  ZF_LOGF_aborts : bool }.

Definition seL4_PageBits : Z := 12.
(** Arithmetic of [uintptr_t] and [size_t]. *)
Definition uword {E : CapEnv} (z : Z) : Z := wrap WORD_BITS z.
(** [(seL4_Word) -1]. *)
Definition NO_COOKIE {E : CapEnv} : Z := 2 ^ WORD_BITS - 1.

Class CapLaws (E : CapEnv) : Prop := {
  cspace_alloc_fresh n l x : vka_cspace_alloc n l = Some x -> x ∉ l;
  alloc_at_fresh n l t b p c : utspace_alloc_at_copy n l t b p = Some c -> c ∉ l /\ c <> NO_COOKIE;
  round_up_spec n b : 0 <= n -> 0 < b -> n + b <= 2 ^ WORD_BITS -> ROUND_UP n b = n + (- n) mod b;
  word_bits : WORD_BITS = 32 \/ WORD_BITS = 64;
  page_sizes_range : Forall (fun b => seL4_PageBits <= b <= 30) sel4_page_sizes;
  small_page b : In b sel4_page_sizes -> kobject_frame_type b = seL4_ARM_SmallPageObject -> b = seL4_PageBits }.

Definition Cap (A : Type) : Type := M Caps A.
Definition tick : Cap nat := fun s => Ok (calls s, s <| calls := S (calls s) |>).
Definition install (slot paddr bits : Z) : Cap unit :=
  modify (fun s => s <| caps := <[slot := (paddr, bits)]> (caps s) |>).
Definition cnode_delete (slot : Z) : Cap unit :=
  modify (fun s => s <| caps := delete slot (caps s) |>).
Definition cspace_free (slot : Z) : Cap unit :=
  s ← get;
  if decide (slot ∈ slots s) then put (s <| slots := slots s ∖ {[slot]} |>) else fail BadFree.
Definition utspace_free (cookie : Z) : Cap unit :=
  s ← get;
  if decide (cookie ∈ uts s) then put (s <| uts := uts s ∖ {[cookie]} |>) else fail BadFree.

Section ArmMem.
Context {U : Utils} {E : CapEnv}.

Definition cspace_alloc : Cap (option Z) :=
  n ← tick;
  s ← get;
  match vka_cspace_alloc n (slots s) with
  | Some x => put (s <| slots := slots s ∪ {[x]} |>);; mret (Some x)
  | None => mret None
  end.

Definition ZF_LOGF : Cap unit := if ZF_LOGF_aborts then fail AssertFailed else mret tt.

(** * Dataport frames *)

(** The loop of [camkes_vm_utspace_alloc_at]: [Some err] when it returns. *)
Fixpoint alloc_dataport (frames : list dataport_frame) (dest bits paddr : Z) : Cap (option Z) :=
  match frames with
  | [] => mret None
  | fr :: frames =>
      if df_paddr fr =? paddr then
        if df_size fr =? BIT bits then
          n ← tick;
          let err := vka_cnode_copy n (df_cap fr) in
          when (err =? 0) (install dest paddr bits);;
          mret (Some err)
        else ZF_LOGF;; alloc_dataport frames dest bits paddr
      else alloc_dataport frames dest bits paddr
  end.

(** The error and the cookie, if one was written. *)
Definition camkes_vm_utspace_alloc_at (dest type bits paddr : Z) : Cap (Z * option Z) :=
  r ← (if type =? seL4_ARM_SmallPageObject then alloc_dataport dataport_frames dest bits paddr
       else mret None);
  match r with
  | Some err => mret (err, None)
  | None =>
      n ← tick;
      s ← get;
      match utspace_alloc_at_copy n (uts s) type bits paddr with
      | Some cookie =>
          put (s <| uts := uts s ∪ {[cookie]} |>);; install dest paddr bits;; mret (0, Some cookie)
      | None => mret (-1, None)
      end
  end.

Fixpoint find_dataport (frames : list dataport_frame) (paddr size : Z) : Cap (option Z) :=
  match frames with
  | [] => mret None
  | fr :: frames =>
      if df_paddr fr =? paddr then
        if df_size fr =? size then mret (Some (df_vaddr fr))
        else ZF_LOGF;; find_dataport frames paddr size
      else find_dataport frames paddr size
  end.
Definition find_dataport_frame (paddr size : Z) : Cap (option Z) :=
  find_dataport dataport_frames paddr size.

(** * Mapping physical memory *)

(** One frame; [None] is the jump to the clean-up. *)
Definition get_frame (start page_size bits i : Z) : Cap (option (Z * option Z)) :=
  r ← cspace_alloc;
  match r with
  | None => fail AssertFailed
  | Some f =>
      let pa := uword (start + u32 (i * page_size)) in
      '(err, cookie) ← camkes_vm_utspace_alloc_at f (kobject_frame_type bits) bits pa;
      if err =? 0 then mret (Some (f, cookie))
      else
        n ← tick;
        if simple_get_frame_cap n pa bits =? 0 then install f pa bits;; mret (Some (f, Some NO_COOKIE))
        else cspace_free f;; mret None
  end.

(** All frames; [false] and those taken so far when one is not to be had. *)
Fixpoint get_frames (start page_size bits : Z) (ixs : list Z) : Cap (bool * list (Z * option Z)) :=
  match ixs with
  | [] => mret (true, [])
  | i :: ixs =>
      r ← get_frame start page_size bits i;
      match r with
      | None => mret (false, [])
      | Some fc => '(ok, fcs) ← get_frames start page_size bits ixs; mret (ok, fc :: fcs)
      end
  end.

Definition release_frame (fc : Z * option Z) : Cap unit :=
  cnode_delete (fst fc);;
  (match snd fc with
   | None => fail Uninitialised
   | Some cookie => when (negb (cookie =? NO_COOKIE)) (utspace_free cookie)
   end);;
  cspace_free (fst fc).

Definition map_pages (frames : list Z) (bits : Z) : Cap (option Z) :=
  n ← tick;
  match vspace_map_pages n frames bits with
  | Some va => modify (fun s => s <| maps := maps s ++ [(va, frames, bits)] |>);; mret (Some va)
  | None => mret None
  end.

Definition vm_map_paddr_with_page_size (paddr size bits : Z) : Cap (option Z) :=
  let page_size := s32 (BIT bits) in
  let start := ROUND_DOWN paddr page_size in
  let offset := uword (paddr - start) in
  let size := uword (size + offset) in
  let num_pages := u32 (ROUND_UP size page_size .>> bits) in
  assertC (u32 (num_pages .<< bits) >=? size);;
  (* arrays of no elements *)
  (if num_pages =? 0 then fail OutOfBounds else mret tt);;
  '(ok, fcs) ← get_frames start page_size bits (zrange (Z.to_nat num_pages));
  vaddr ← (if ok : bool then map_pages (map fst fcs) bits else mret None);
  match vaddr with
  | Some va => mret (Some (uword (va + offset)))
  | None => for_each fcs release_frame;; mret None
  end.

(** The largest reasonable frame size. *)
Fixpoint frame_index (size : Z) (i : nat) (larger : list Z) : nat :=
  match larger with
  | [] => i
  | b :: larger => if size .>> b =? 0 then i else frame_index size (S i) larger
  end.

Fixpoint try_sizes (paddr size : Z) (l : list Z) : Cap (option Z) :=
  match l with
  | [] => mret None
  | b :: l =>
      r ← vm_map_paddr_with_page_size paddr size b;
      match r with
      | Some va => mret (Some va)
      | None => try_sizes paddr size l
      end
  end.

Definition vm_map_paddr (paddr size : Z) : Cap (option Z) :=
  r ← find_dataport_frame paddr size;
  let vaddr := match r with Some va => va | None => 0 end in
  if z2b vaddr then mret (Some vaddr)
  else
    let i := frame_index size 0 (tail sel4_page_sizes) in
    try_sizes paddr size (rev (take (S i) sel4_page_sizes)).

(** The io mapper's other function, which is fatal. *)
Definition vm_unmap_vaddr (vaddr size : Z) : Cap unit := ZF_LOGF.

End ArmMem.

(** * What is taken is given back *)

(** The calls made are not part of what is held. *)
Definition same_caps (s s' : Caps) : Prop :=
  slots s' = slots s /\ caps s' = caps s /\ uts s' = uts s /\ maps s' = maps s.
(** A run and what it ends in, faults included. *)
Definition runs {A} (m : Cap A) (Q : A -> Caps -> Prop) (F : fault -> Prop) (s : Caps) : Prop :=
  match m s with Ok (a, s') => Q a s' | Fault f => F f end.

Lemma runs_bind {A B} (m : Cap A) (k : A -> Cap B) Q F s :
  runs m (fun a s' => runs (k a) Q F s') F s -> runs (m ≫= k) Q F s.
Proof. unfold runs, mbind, M_bind. by destruct (m s) as [[a s']|f]. Qed.
Lemma runs_mono {A} (m : Cap A) (Q Q' : A -> Caps -> Prop) (F F' : fault -> Prop) s :
  runs m Q F s -> (forall a s', Q a s' -> Q' a s') -> (forall f, F f -> F' f) -> runs m Q' F' s.
Proof. unfold runs. destruct (m s) as [[a s']|f]; auto. Qed.
Lemma runs_ok {A} (m : Cap A) (Q : A -> Caps -> Prop) F s a s' : m s = Ok (a, s') -> Q a s' -> runs m Q F s.
Proof. unfold runs. by intros ->. Qed.

(** A capability is in an allocated slot. *)
Definition caps_ok (s : Caps) : Prop := forall f, is_Some (caps s !! f) -> f ∈ slots s.

Section GivenBack.
Context {E : CapEnv}.

Definition cookies (fcs : list (Z * option Z)) : list Z :=
  omap (fun fc => match snd fc with
                  | Some c => if c =? NO_COOKIE then None else Some c
                  | None => None
                  end) fcs.

(** [s'] holds the frames [fcs] beyond what [s] holds. *)
Record taken (s : Caps) (fcs : list (Z * option Z)) (pas : list (Z * Z)) (s' : Caps) : Prop := {
  tk_slots : slots s' = slots s ∪ list_to_set (map fst fcs);
  tk_fresh : forall f, f ∈ map fst fcs -> f ∉ slots s;
  tk_nodup : NoDup (map fst fcs);
  tk_len : length pas = length fcs;
  tk_caps : caps s' = list_to_map (zip (map fst fcs) pas) ∪ caps s;
  tk_uts : uts s' = uts s ∪ list_to_set (cookies fcs);
  tk_ufresh : forall c, c ∈ cookies fcs -> c ∉ uts s;
  tk_unodup : NoDup (cookies fcs);
  tk_maps : maps s' = maps s }.

Lemma same_caps_refl s : same_caps s s.
Proof. done. Qed.
Lemma same_caps_trans s1 s2 s3 : same_caps s1 s2 -> same_caps s2 s3 -> same_caps s1 s3.
Proof. unfold same_caps. intros (-> & -> & -> & ->) (-> & -> & -> & ->). done. Qed.

Lemma caps_ok_same s s' : same_caps s s' -> caps_ok s -> caps_ok s'.
Proof. unfold caps_ok. by intros (-> & -> & _). Qed.

Lemma caps_none s f : caps_ok s -> f ∉ slots s -> caps s !! f = None.
Proof. intros Hs Hf. apply eq_None_not_Some. intros H. by apply Hf, Hs. Qed.

Lemma zip_none (l : list Z) (pas : list (Z * Z)) f :
  f ∉ l -> (list_to_map (zip l pas) : gmap Z (Z * Z)) !! f = None.
Proof.
  intros Hf. apply not_elem_of_list_to_map_1. intros H. apply Hf.
  apply list_elem_of_fmap in H as ([a b] & -> & H). by apply elem_of_zip_l in H.
Qed.

Lemma taken_nil s s' : same_caps s s' -> taken s [] [] s'.
Proof.
  intros (Hs & Hc & Hu & Hm). split; cbn; rewrite ?Hs, ?Hc, ?Hu; try done; try constructor.
  - set_solver.
  - set_solver.
  - by rewrite (left_id_L ∅ (∪)).
  - set_solver.
  - set_solver.
Qed.

Lemma taken_cons s fc pa s1 fcs pas s' :
  taken s [fc] [pa] s1 -> taken s1 fcs pas s' -> taken s (fc :: fcs) (pa :: pas) s'.
Proof.
  intros [A1 A2 A3 A4 A5 A7 A8 A9 A10] [B1 B2 B3 B4 B5 B7 B8 B9 B10].
  cbn [map list_to_set zip zip_with] in *.
  assert (cookies (fc :: fcs) = cookies [fc] ++ cookies fcs) as Ek by exact (omap_app _ [fc] fcs).
  assert (fst fc ∉ map fst fcs) as Hn.
  { intros H. apply (B2 _ H). rewrite A1. set_solver. }
  split; cbn [map list_to_set]; rewrite ?Ek.
  - rewrite B1, A1. set_solver.
  - intros f. rewrite elem_of_cons. intros [->|Hf]; [apply A2; set_solver|].
    intros H. apply (B2 _ Hf). rewrite A1. set_solver.
  - by constructor.
  - cbn. by rewrite B4.
  - rewrite B5, A5. cbn [zip zip_with list_to_map foldr].
    rewrite <-!insert_union_l, (left_id_L ∅ (∪)), <-insert_union_r; [done|by apply zip_none].
  - rewrite B7, A7, list_to_set_app_L. by rewrite (assoc_L (∪)).
  - intros c. rewrite elem_of_app. intros [Hc|Hc]; [by apply A8|].
    intros H. apply (B8 _ Hc). rewrite A7. set_solver.
  - apply list.NoDup_app. split_and!; [done| |done]. intros c Hc Hc'. apply (B8 _ Hc'). rewrite A7. set_solver.
  - by rewrite B10.
Qed.

Lemma caps_ok_taken s fcs pas s' : caps_ok s -> taken s fcs pas s' -> caps_ok s'.
Proof.
  intros Hs T f. rewrite (tk_caps _ _ _ _ T), (tk_slots _ _ _ _ T).
  destruct ((list_to_map (zip (map fst fcs) pas) : gmap Z (Z * Z)) !! f) as [v|] eqn:Ef.
  - intros _. apply elem_of_list_to_map_2, elem_of_zip_l in Ef. set_solver.
  - rewrite lookup_union_r by done. intros H. apply Hs in H. set_solver.
Qed.

Lemma release_frame_run s fc fcs pa pas s' :
  caps_ok s -> taken s (fc :: fcs) (pa :: pas) s' -> snd fc <> None ->
  exists s1, release_frame fc s' = Ok (tt, s1) /\ taken s fcs pas s1.
Proof.
  intros Hs [T1 T2 T3 T4 T5 T7 T8 T9 T10] Hsome. destruct fc as [f [c|]]; [|done]. clear Hsome.
  cbn [map fst zip zip_with] in *. apply list.NoDup_cons in T3 as [Hn T3].
  assert (caps_none' : (list_to_map (zip (map fst fcs) pas) ∪ caps s) !! f = None).
  { apply lookup_union_None. split; [by apply zip_none|]. apply caps_none; [done|]. apply T2. set_solver. }
  set (s1 := s' <| caps := delete f (caps s') |>).
  set (s2 := if c =? NO_COOKIE then s1 else s1 <| uts := uts s' ∖ {[c]} |>).
  exists (s2 <| slots := slots s' ∖ {[f]} |>). split.
  - unfold release_frame. cbn [fst snd]. rewrite (bind_ok _ _ s' tt s1) by done.
    rewrite (bind_ok _ _ s1 tt s2).
    + unfold cspace_free, mbind, M_bind, get, put. unfold s2.
      destruct (c =? NO_COOKIE); cbn; (destruct (decide (f ∈ slots s')) as [|Hf]; [done|]);
        destruct Hf; rewrite T1; set_solver.
    + unfold s2. destruct (c =? NO_COOKIE) eqn:Ec; cbn [negb when]; [done|].
      unfold utspace_free, mbind, M_bind, get, put. cbn. destruct (decide (c ∈ uts s')) as [|Hc]; [done|].
      destruct Hc. rewrite T7. unfold cookies. cbn. rewrite Ec. set_solver.
  - assert (caps (s2 <| slots := slots s' ∖ {[f]} |>) = delete f (caps s')) as Ec by (unfold s2; by destruct (c =? NO_COOKIE)).
    assert (maps (s2 <| slots := slots s' ∖ {[f]} |>) = maps s') as Em by (unfold s2; by destruct (c =? NO_COOKIE)).
    split; try done.
    + cbn. rewrite T1. cbn [map list_to_set]. pose proof (T2 f). set_solver.
    + intros f' Hf'. apply T2. set_solver.
    + cbn in T4. lia.
    + rewrite Ec, T5. cbn [list_to_map foldr fst snd]. by rewrite <-insert_union_l, delete_insert_id.
    + unfold s2, cookies in *. cbn in *. destruct (c =? NO_COOKIE); cbn in *; [done|]. rewrite T7.
      apply list.NoDup_cons in T9 as [? ?]. pose proof (T8 c). set_solver.
    + intros c' Hc'. apply T8. unfold cookies in *. cbn. destruct (c =? NO_COOKIE); set_solver.
    + unfold cookies in *. cbn in T9. destruct (c =? NO_COOKIE); [done|]. by apply list.NoDup_cons in T9 as [? ?].
    + by rewrite Em.
Qed.

(** The clean-up gives back what was taken, and nothing twice; it goes wrong only
    at a frame whose cookie was not written. *)
Lemma release_runs s fcs pas s' :
  caps_ok s -> taken s fcs pas s' ->
  runs (for_each fcs release_frame) (fun _ s'' => same_caps s s'')
    (fun f => f = Uninitialised /\ Exists (fun fc => snd fc = None) fcs) s'.
Proof.
  intros Hs. revert pas s'. induction fcs as [|fc fcs IH]; intros pas s' T; cbn [for_each].
  - cbn. destruct T as [T1 _ _ T4 T5 T7 _ _ T10]. cbn in *.
    unfold same_caps. rewrite T1, T5, T7, T10, (left_id_L ∅ (∪)). split_and!; set_solver.
  - destruct pas as [|pa pas]; [by pose proof (tk_len _ _ _ _ T)|].
    destruct (snd fc) as [c|] eqn:Ec.
    + destruct (release_frame_run _ _ _ _ _ _ Hs T) as (s1 & E1 & T1); [by rewrite Ec|].
      apply runs_bind. eapply runs_ok; [exact E1|]. eapply runs_mono; [by eapply IH|done|].
      intros f [-> H]. split; [done|]. by right.
    + apply runs_bind. unfold release_frame, runs. rewrite Ec. cbn. split; [done|by left].
Qed.

End GivenBack.

Section Taking.
Context {U : Utils} {E : CapEnv} {L : CapLaws E}.

(** The allocator succeeds in finding a slot. *)
Definition slots_left : Prop := forall n l, vka_cspace_alloc n l <> None.
(** No dataport has a frame at [pa]. *)
Definition no_dataport (pa : Z) : Prop := Forall (fun fr => df_paddr fr <> pa) dataport_frames.

Lemma alloc_dataport_none l dest bits pa s :
  Forall (fun fr => df_paddr fr <> pa) l -> alloc_dataport l dest bits pa s = Ok (None, s).
Proof.
  induction 1 as [|fr l Hf _ IH]; cbn [alloc_dataport]; [done|].
  by destruct (Z.eqb_spec (df_paddr fr) pa).
Qed.

Lemma cspace_alloc_run s :
  slots_left -> exists f, f ∉ slots s /\
    cspace_alloc s = Ok (Some f, s <| calls := S (calls s) |> <| slots := slots s ∪ {[f]} |>).
Proof using L.
  intros Hl. unfold cspace_alloc, tick, mbind, M_bind, get. cbn.
  destruct (vka_cspace_alloc (calls s) (slots s)) as [f|] eqn:Ef; [|by destruct (Hl _ _ Ef)].
  exists f. split; [by eapply cspace_alloc_fresh|done].
Qed.

Lemma alloc_at_run dest type bits pa s :
  (type = seL4_ARM_SmallPageObject -> no_dataport pa) ->
  exists err c s', camkes_vm_utspace_alloc_at dest type bits pa s = Ok ((err, c), s') /\
    (err = 0 /\ (exists c', c = Some c' /\ c' <> NO_COOKIE /\ c' ∉ uts s /\ uts s' = uts s ∪ {[c']}) /\
       slots s' = slots s /\ caps s' = <[dest := (pa, bits)]> (caps s) /\ maps s' = maps s \/
     err = -1 /\ same_caps s s').
Proof using L.
  intros Hn. unfold camkes_vm_utspace_alloc_at.
  rewrite (bind_ok _ _ s None s).
  2:{ destruct (Z.eqb_spec type seL4_ARM_SmallPageObject); [|done]. by apply alloc_dataport_none, Hn. }
  unfold tick, mbind, M_bind, get. cbn.
  destruct (utspace_alloc_at_copy (calls s) (uts s) type bits pa) as [c|] eqn:Ec.
  - destruct (alloc_at_fresh _ _ _ _ _ _ Ec). eexists 0, (Some c), _. split; [done|]. left.
    split; [done|]. split; [by exists c|]. done.
  - eexists (-1), None, _. split; [done|]. by right.
Qed.

(** A dataport has a frame at [pa], of another size than [2 ^ bits] in the second
    case. *)
Definition dataport_at (pa : Z) : Prop := exists fr, In fr dataport_frames /\ df_paddr fr = pa.
Definition missized_at (pa bits : Z) : Prop :=
  exists fr, In fr dataport_frames /\ df_paddr fr = pa /\ df_size fr <> BIT bits /\ ZF_LOGF_aborts = true.
(** The allocator has no slot. *)
Definition out_of_slots : Prop := exists n l, vka_cspace_alloc n l = None.

Lemma alloc_dataport_runs dest bits pa l s :
  (forall fr, In fr l -> In fr dataport_frames) ->
  runs (alloc_dataport l dest bits pa)
    (fun r s' => match r with
     | None => s' = s
     | Some err => dataport_at pa /\ slots s' = slots s /\ uts s' = uts s /\ maps s' = maps s /\
         caps s' = if err =? 0 then <[dest := (pa, bits)]> (caps s) else caps s
     end)
    (fun f => f = AssertFailed /\ missized_at pa bits) s.
Proof using Type.
  induction l as [|fr l IH]; intros Hl; cbn [alloc_dataport]; [done|].
  assert (forall fr, In fr l -> In fr dataport_frames) as Hl' by (intros; apply Hl; by right).
  specialize (IH Hl'). assert (In fr dataport_frames) as Hfr by (apply Hl; by left).
  destruct (Z.eqb_spec (df_paddr fr) pa) as [Hp|_]; [|exact IH].
  destruct (Z.eqb_spec (df_size fr) (BIT bits)) as [_|Hsz].
  - unfold runs, tick, install, mbind, M_bind. cbn. destruct (_ =? 0) eqn:E0; cbn.
    all: (split; [by exists fr|]); split_and!; try done; by rewrite E0.
  - unfold ZF_LOGF. destruct ZF_LOGF_aborts eqn:Ez; [|exact IH]. cbn. split; [done|]. by exists fr.
Qed.

Lemma alloc_at_runs dest type bits pa s :
  runs (camkes_vm_utspace_alloc_at dest type bits pa)
    (fun r s' => slots s' = slots s /\ maps s' = maps s /\
       (fst r = 0 /\ caps s' = <[dest := (pa, bits)]> (caps s) /\
          match snd r with
          | Some c => c <> NO_COOKIE /\ c ∉ uts s /\ uts s' = uts s ∪ {[c]}
          | None => uts s' = uts s /\ type = seL4_ARM_SmallPageObject /\ dataport_at pa
          end \/
        fst r <> 0 /\ caps s' = caps s /\ uts s' = uts s))
    (fun f => f = AssertFailed /\ type = seL4_ARM_SmallPageObject /\ missized_at pa bits) s.
Proof using L.
  unfold camkes_vm_utspace_alloc_at. apply runs_bind.
  eapply runs_mono with (Q := fun r s' => match r with
     | None => s' = s
     | Some err => type = seL4_ARM_SmallPageObject /\ dataport_at pa /\ slots s' = slots s /\ uts s' = uts s /\
         maps s' = maps s /\ caps s' = if err =? 0 then <[dest := (pa, bits)]> (caps s) else caps s
     end) (F := fun f => f = AssertFailed /\ type = seL4_ARM_SmallPageObject /\ missized_at pa bits).
  - destruct (Z.eqb_spec type seL4_ARM_SmallPageObject) as [Ht|_]; [|done].
    eapply runs_mono; [by apply alloc_dataport_runs|cbn; intros [err|] s'; tauto|cbn; tauto].
  - intros [err|] s1.
    + intros (Ht & Hd & Hs & Hu & Hm & Hc). cbn. split_and!; [done..|].
      destruct (Z.eqb_spec err 0) as [->|He]; [left; by split_and!|right; by split_and!].
    + intros ->. unfold runs, tick, mbind, M_bind, get. cbn.
      destruct (utspace_alloc_at_copy (calls s) (uts s) type bits pa) as [c|] eqn:Ec; cbn.
      * destruct (alloc_at_fresh _ _ _ _ _ _ Ec). split_and!; [done..|left; by split_and!].
      * split_and!; [done..|right; by split_and!].
  - done.
Qed.

Lemma cspace_alloc_runs s :
  runs cspace_alloc (fun r s' => match r with
      | Some f => f ∉ slots s /\ s' = s <| calls := S (calls s) |> <| slots := slots s ∪ {[f]} |>
      | None => out_of_slots
      end) (fun _ => False) s.
Proof using L.
  unfold runs, cspace_alloc, tick, mbind, M_bind, get. cbn.
  destruct (vka_cspace_alloc (calls s) (slots s)) as [f|] eqn:Ef.
  - split; [by eapply cspace_alloc_fresh|done].
  - by eexists _, _.
Qed.

Lemma get_frame_runs start page_size bits i s :
  caps_ok s ->
  let pa := uword (start + u32 (i * page_size)) in
  let small := kobject_frame_type bits = seL4_ARM_SmallPageObject in
  runs (get_frame start page_size bits i)
    (fun r s' => match r with
     | Some fc => taken s [fc] [(pa, bits)] s' /\ (snd fc = None -> small /\ dataport_at pa)
     | None => same_caps s s'
     end)
    (fun f => f = AssertFailed /\ (out_of_slots \/ small /\ missized_at pa bits)) s.
Proof using L.
  intros Hs pa small. unfold get_frame. fold pa. apply runs_bind.
  eapply runs_mono; [apply cspace_alloc_runs| |done]. intros [f|] s1; [|intros Ho; cbn; auto].
  intros [Hf ->]. set (s1 := s <| calls := S (calls s) |> <| slots := slots s ∪ {[f]} |>). cbv zeta.
  apply runs_bind. eapply runs_mono; [apply alloc_at_runs| |cbn; tauto].
  intros [err c] s2 (Hs2 & Hm2 & [(Herr & Hc2 & Hck)|(Herr & Hc2 & Hu2)]); cbn [fst snd] in *.
  - subst err. cbn [Z.eqb]. cbn.
    assert (caps s2 = list_to_map [(f, (pa, bits))] ∪ caps s) as Hcaps.
    { rewrite Hc2. cbn. by rewrite <-insert_union_l, (left_id_L ∅ (∪)). }
    destruct c as [c|].
    + destruct Hck as (Hne & Hcf & Hu). split; [|done].
      assert (cookies [(f, Some c)] = [c]) as Ek by (unfold cookies; cbn; by destruct (Z.eqb_spec c NO_COOKIE)).
      split; rewrite ?Ek; cbn; try done.
      * rewrite Hs2. cbn. set_solver.
      * set_solver.
      * apply list.NoDup_singleton.
      * rewrite Hu. cbn. set_solver.
      * cbn in Hcf. set_solver.
      * apply list.NoDup_singleton.
    + destruct Hck as (Hu & Ht & Hd). split; [|by intros _].
      split; cbn; try done.
      * rewrite Hs2. cbn. set_solver.
      * set_solver.
      * apply list.NoDup_singleton.
      * rewrite Hu. cbn. set_solver.
      * set_solver.
      * constructor.
  - destruct (Z.eqb_spec err 0); [done|]. set (s3 := s2 <| calls := S (calls s2) |>).
    apply runs_bind. eapply (runs_ok _ _ _ _ (calls s2) s3); [done|].
    destruct (simple_get_frame_cap (calls s2) pa bits =? 0).
    + cbn. split; [|done]. split; unfold cookies; cbn; rewrite ?Z.eqb_refl; try done.
      * rewrite Hs2. cbn. set_solver.
      * set_solver.
      * apply list.NoDup_singleton.
      * rewrite Hc2. cbn. by rewrite <-insert_union_l, (left_id_L ∅ (∪)).
      * rewrite Hu2. cbn. set_solver.
      * set_solver.
      * constructor.
    + apply runs_bind. eapply (runs_ok _ _ _ _ tt (s3 <| slots := slots s3 ∖ {[f]} |>)).
      * unfold cspace_free, mbind, M_bind, get, put. destruct (decide (f ∈ slots s3)) as [|Hn]; [done|].
        destruct Hn. cbn. rewrite Hs2. cbn. set_solver.
      * cbn. unfold same_caps. cbn. rewrite Hs2, Hc2, Hu2, Hm2. cbn. split_and!; [set_solver|done..].
Qed.

End Taking.

(** * Mapping *)

Section Mapping.
Context {U : Utils} {UL : UtilsLaws U} {E : CapEnv} {L : CapLaws E}.

(** The region [paddr, paddr + size) is mapped in pages of [2 ^ bits]: the new
    mapping has the frames that cover it, and no more, in order, and the
    address returned is that of [paddr] in it. *)
Definition mapped_at (paddr size bits va : Z) (s s' : Caps) : Prop :=
  let start := paddr - paddr mod 2 ^ bits in
  exists vbase frames,
    maps s' = maps s ++ [(vbase, frames, bits)] /\ va = uword (vbase + (paddr - start)) /\
    paddr + size <= start + Z.of_nat (length frames) * 2 ^ bits < paddr + size + 2 ^ bits /\
    (forall i f, frames !! i = Some f ->
       f ∉ slots s /\ caps s' !! f = Some (start + Z.of_nat i * 2 ^ bits, bits)) /\
    NoDup frames /\ slots s' = slots s ∪ list_to_set frames /\ caps s ⊆ caps s'.

(** The bytes of the pages of [2 ^ bits] that cover the region. *)
Definition region_bytes (paddr size bits : Z) : Z :=
  let total := size + paddr mod 2 ^ bits in total + (- total) mod 2 ^ bits.
(** A dataport has a frame in the small pages of the region, or at its start. *)
Definition dataport_inside (paddr size : Z) (fr : dataport_frame) : Prop :=
  In fr dataport_frames /\
  (paddr - paddr mod 2 ^ seL4_PageBits <= df_paddr fr < paddr + size \/ df_paddr fr = paddr).
(** What can go wrong: an assertion fails when the allocator has no slot, when
    the pages of the region are 4 GiB or more, or when a dataport's frame in the
    region does not have the size asked for (and logging a fatal error aborts);
    a cookie of a dataport's frame in the region is read that was not written;
    an empty region has no pages. *)
Definition map_fault (paddr size : Z) (f : fault) : Prop :=
  match f with
  | AssertFailed =>
      out_of_slots \/
      (exists bits, In bits sel4_page_sizes /\ 2 ^ 32 <= region_bytes paddr size bits) \/
      (exists fr, dataport_inside paddr size fr /\ df_size fr <> size /\ ZF_LOGF_aborts = true) \/
      (exists fr bits, dataport_inside paddr size fr /\ In bits sel4_page_sizes /\ df_size fr <> BIT bits /\
         ZF_LOGF_aborts = true)
  | Uninitialised => exists fr, dataport_inside paddr size fr
  | OutOfBounds => size = 0
  | _ => False
  end.

Lemma get_frames_runs start page_size bits ixs s :
  caps_ok s ->
  let pa i := uword (start + u32 (i * page_size)) in
  let small := kobject_frame_type bits = seL4_ARM_SmallPageObject in
  runs (get_frames start page_size bits ixs)
    (fun r s' => exists pas, taken s (snd r) pas s' /\
       (fst r = true -> pas = map (fun i => (pa i, bits)) ixs) /\
       (Exists (fun fc => snd fc = None) (snd r) -> small /\ exists i, In i ixs /\ dataport_at (pa i)))
    (fun f => f = AssertFailed /\ (out_of_slots \/ small /\ exists i, In i ixs /\ missized_at (pa i) bits)) s.
Proof using L.
  intros Hs pa small. revert s Hs. induction ixs as [|i ixs IH]; intros s Hs; cbn [get_frames].
  { exists []. split; [by apply taken_nil|]. split; [done|]. intros H. by inversion H. }
  apply runs_bind. eapply runs_mono; [by apply get_frame_runs| |].
  2:{ intros f (-> & [Ho|[Hsm Hm]]); (split; [done|]); [by left|right]. split; [done|]. exists i. split; [by left|done]. }
  intros [fc|] s1.
  2:{ intros H. exists []. cbn. split; [by apply taken_nil|]. split; [done|]. intros Hx. by inversion Hx. }
  intros [H1 Hn1]. apply runs_bind. eapply runs_mono; [apply (IH s1 (caps_ok_taken _ _ _ _ Hs H1))| |].
  2:{ intros f (-> & [Ho|(Hsm & j & Hj & Hm)]); (split; [done|]); [by left|right]. split; [done|]. exists j.
      split; [by right|done]. }
  intros [ok fcs] s2 (pas & H2 & Hp & Hn). exists ((pa i, bits) :: pas). cbn [fst snd] in *.
  split; [by eapply taken_cons|]. split; [intros Hok; cbn [map]; by rewrite (Hp Hok)|].
  intros Hx. apply Exists_cons in Hx as [Hx|Hx].
  - destruct (Hn1 Hx). split; [done|]. exists i. split; [by left|done].
  - destruct (Hn Hx) as (? & j & Hj & Hd). split; [done|]. exists j. split; [by right|done].
Qed.

(** The arithmetic of the pages. *)
Lemma page_numbers paddr size P :
  0 < P -> 0 <= paddr -> 0 <= size -> 0 < size + paddr mod P ->
  let start := paddr - paddr mod P in
  let total := size + paddr mod P in
  let n := (total + (- total) mod P) / P in
  0 < n /\ n * P = total + (- total) mod P /\
  (forall i, 0 <= i < n -> start <= start + i * P < paddr + size) /\
  paddr + size <= start + n * P < paddr + size + P.
Proof.
  intros HP Hp Hs Hpos start total n.
  assert (n * P = total + (- total) mod P) as En.
  { unfold n. rewrite Z.mul_comm, <-Z_div_exact_full_2; [done|lia|].
    rewrite Zplus_mod_idemp_r. by replace (total + - total) with 0 by lia. }
  pose proof (Z.mod_pos_bound paddr P HP). pose proof (Z.mod_pos_bound (- total) P HP).
  assert (0 < n * P) by (unfold total in *; lia). assert (0 < n) by nia.
  unfold total, start in *. split_and!; [done|done| |lia|lia]. intros i Hi. split; nia.
Qed.

(** The assertion on the number of pages holds exactly when their bytes can be
    counted in 32 bits. *)
Lemma page_assertion bits total :
  12 <= bits <= 30 -> 0 <= total ->
  let bytes := total + (- total) mod 2 ^ bits in
  (u32 (u32 (bytes / 2 ^ bits) .<< bits) >=? total) = (bytes <? 2 ^ 32).
Proof.
  intros Hb Ht bytes. set (P := 2 ^ bits) in *. set (n := bytes / P).
  assert (0 < P) as HP by (apply pow2_pos; lia).
  assert (bytes = n * P) as En.
  { unfold n. rewrite Z.mul_comm, <-Z_div_exact_full_2; [done|lia|]. unfold bytes.
    rewrite Zplus_mod_idemp_r. by replace (total + - total) with 0 by lia. }
  pose proof (Z.mod_pos_bound (- total) P HP) as Hm.
  assert (0 <= n) as Hn by (apply Z.div_pos; unfold bytes in *; lia).
  pose proof (inw_u32 (u32 n .<< bits)) as Hu. unfold inw in Hu.
  destruct (Z.ltb_spec bytes (2 ^ 32)) as [Hlt|Hge].
  - rewrite (u32_small n) by (unfold inw; nia). rewrite Z.shiftl_mul_pow2 by lia. fold P.
    rewrite u32_small by (unfold inw; nia). apply Z.geb_le. unfold bytes in *. lia.
  - apply not_true_is_false. rewrite Z.geb_le. intros Hc.
    assert (2 ^ 32 = 2 ^ (32 - bits) * P) as E32 by (unfold P; rewrite <-Z.pow_add_r by lia; f_equal; lia).
    assert (n = 2 ^ (32 - bits)) as Hnn by (unfold bytes in *; nia).
    assert (2 ^ (32 - bits) <= 2 ^ 20) by (apply Z.pow_le_mono_r; lia).
    rewrite (u32_small n), Z.shiftl_mul_pow2 in Hc by (unfold inw; lia). fold P in Hc. rewrite Hnn, <-E32 in Hc.
    change (u32 (2 ^ 32)) with 0 in Hc. assert (P <= 2 ^ 30) by (apply Z.pow_le_mono_r; lia). unfold bytes in *. lia.
Qed.

Lemma uword_small z : 0 <= z < 2 ^ WORD_BITS -> uword z = z.
Proof using Type. apply Z.mod_small. Qed.

(** The pages of the small size are those in which a dataport can be. *)
Lemma page_size_runs paddr size bits s :
  caps_ok s -> In bits sel4_page_sizes -> 0 <= paddr -> 0 <= size -> paddr + size + 2 ^ bits <= 2 ^ WORD_BITS ->
  runs (vm_map_paddr_with_page_size paddr size bits)
    (fun r s' => match r with Some va => mapped_at paddr size bits va s s' | None => same_caps s s' end)
    (map_fault paddr size) s.
Proof using UL L.
  intros Hs Hb Hp Hz Hmax.
  assert (seL4_PageBits <= bits <= 30) as Hbits by exact (proj1 (List.Forall_forall _ _) page_sizes_range bits Hb).
  unfold seL4_PageBits in Hbits. set (P := 2 ^ bits) in *.
  assert (0 < P <= 2 ^ 30) as HP.
  { split; [apply pow2_pos; lia|]. apply Z.pow_le_mono_r; lia. }
  set (start := paddr - paddr mod P) in *. set (total := size + paddr mod P) in *.
  pose proof (Z.mod_pos_bound paddr P (proj1 HP)) as Hm1. pose proof (Z.mod_pos_bound (- total) P (proj1 HP)) as Hm2.
  pose proof (Z.mod_le paddr P Hp (proj1 HP)) as Hm3.
  set (bytes := total + (- total) mod P). set (n := bytes / P).
  unfold vm_map_paddr_with_page_size.
  rewrite BIT_spec, s32_small by lia. fold P. rewrite ROUND_DOWN_spec by lia. fold start.
  replace (uword (paddr - start)) with (paddr mod P) by (rewrite uword_small; unfold start; lia).
  rewrite (uword_small (size + _)) by lia. fold total.
  rewrite round_up_spec by (unfold total; lia). fold bytes. rewrite (Z.shiftr_div_pow2 _ bits) by lia. fold P. fold n. cbv zeta.
  pose proof (page_assertion bits total Hbits ltac:(unfold total; lia)) as Hassert. cbv zeta in Hassert.
  fold P in Hassert. fold bytes in Hassert. fold n in Hassert. rewrite Hassert. clear Hassert.
  destruct (Z.ltb_spec bytes (2 ^ 32)) as [HnP|Hlarge]; cbn [assertC].
  2:{ cbn. right. left. by exists bits. }
  apply runs_bind. eapply (runs_ok _ _ _ _ tt s); [done|].
  assert (0 <= total) as Htot by (unfold total; lia). assert (0 <= bytes) by (unfold bytes; lia).
  assert (0 <= n <= bytes) as Hn0.
  { split; [apply Z.div_pos; lia|]. apply Z.div_le_upper_bound; [lia|]. nia. }
  rewrite (u32_small n) by (unfold inw; lia).
  destruct (Z.eq_dec total 0) as [E0|Hne].
  { assert (n = 0) as -> by (unfold n, bytes; rewrite E0; done).
    assert (size = 0) as Hz0 by (clear - E0 Hm1 Hz; unfold total in E0; lia). exact Hz0. }
  assert (0 < total) as Ht by lia.
  destruct (page_numbers paddr size P (proj1 HP) Hp Hz Ht) as (Hn & En & Ha & Hc).
  fold total start in Hn, En, Ha, Hc. fold bytes in Hn, En, Ha, Hc. fold n in Hn, En, Ha, Hc.
  assert (0 <= start) as Hst by (unfold start; lia). destruct (Z.eqb_spec n 0); [lia|].
  apply runs_bind. eapply (runs_ok _ _ _ _ tt s); [done|].
  assert (forall i, 0 <= i < n -> uword (start + u32 (i * P)) = start + i * P) as Hadr.
  { intros i Hi. pose proof (Ha i Hi). rewrite (u32_small (i * P)) by (unfold inw; nia).
    apply uword_small. lia. }
  assert (forall i fr, In i (zrange (Z.to_nat n)) -> kobject_frame_type bits = seL4_ARM_SmallPageObject ->
    In fr dataport_frames -> df_paddr fr = uword (start + u32 (i * P)) -> dataport_inside paddr size fr) as Hinside.
  { intros i fr Hi%in_zrange Hsm Hfr Hpa. rewrite Z2Nat.id in Hi by lia. rewrite Hadr in Hpa by done.
    assert (bits = seL4_PageBits) as E12 by (by apply small_page). split; [done|]. left. rewrite <-E12, Hpa.
    fold P. fold start. pose proof (Ha i Hi). lia. }
  apply runs_bind. eapply runs_mono; [by apply get_frames_runs| |].
  2:{ intros f (-> & [Ho|(Hsm & i & Hi & fr & Hfr & Hpa & Hsz & Hz')]); cbn; [by left|].
      do 3 right. exists fr, bits. split_and!; [by eapply Hinside|done..]. }
  intros [ok fcs] s1 (pas & T & Hok & Hnone). cbn [fst snd] in *.
  assert (forall s1', slots s1' = slots s1 -> caps s1' = caps s1 -> uts s1' = uts s1 -> maps s1' = maps s1 ->
    runs (for_each fcs release_frame;; mret None)
      (fun r s' => match r with Some va => mapped_at paddr size bits va s s' | None => same_caps s s' end)
      (map_fault paddr size) s1') as Hrel.
  { intros s1' E1 E2 E3 E4. apply runs_bind. eapply runs_mono; [apply (release_runs s fcs pas); [done|]|by intros []|].
    - destruct T. split; rewrite ?E1, ?E2, ?E3, ?E4; done.
    - intros f [-> Hex]. destruct (Hnone Hex) as (Hsm & i & Hi & fr & Hfr & Hpa). exists fr. by eapply Hinside. }
  apply runs_bind. destruct ok; [|eapply (runs_ok _ _ _ _ None s1); [done|by apply Hrel]].
  unfold map_pages. set (s1' := s1 <| calls := S (calls s1) |>).
  apply runs_bind. eapply (runs_ok _ _ _ _ (calls s1) s1'); [done|].
  destruct (vspace_map_pages (calls s1) (map fst fcs) bits) as [va|] eqn:Em; [|by apply Hrel].
  cbn. specialize (Hok eq_refl). destruct T as [T1 T2 T3 T4 T5 _ _ _ T10].
  assert (length fcs = Z.to_nat n) as Elen by (by rewrite <-T4, Hok, length_map, length_zrange).
  exists va, (map fst fcs). fold P. fold start. rewrite length_map, Elen, Z2Nat.id by lia.
  replace (paddr - start) with (paddr mod P) by (unfold start; lia).
  split_and!; [cbn; by rewrite T10|done|lia|lia| |done|done|].
  - intros i f Hf. split; [apply T2; by eapply list_elem_of_lookup_2|].
    cbn. rewrite T5. apply lookup_union_Some_l, elem_of_list_to_map_1.
    { rewrite fst_zip; [done|]. rewrite length_map. lia. }
    apply list_elem_of_lookup. exists i. apply lookup_zip_with_Some. exists f. eexists. split; [done|]. split; [done|].
    rewrite Hok, lookup_map. apply lookup_lt_Some in Hf. rewrite length_map, Elen in Hf.
    unfold zrange. rewrite lookup_map, lookup_seq_lt by done. cbn. rewrite Hadr by lia. done.
  - cbn. rewrite T5. apply map_union_subseteq_r.
    apply map_disjoint_list_to_map_l. apply Forall_forall. intros [f v] Hf. cbn.
    apply caps_none; [done|]. apply T2. by apply list_elem_of_In, elem_of_zip_l in Hf.
Qed.

Lemma find_dataport_runs paddr size l s :
  (forall fr, In fr l -> In fr dataport_frames) ->
  runs (find_dataport l paddr size) (fun r s' => s' = s /\ match r with
      | Some va => exists fr, In fr dataport_frames /\ df_paddr fr = paddr /\ df_size fr = size /\ df_vaddr fr = va
      | None => True
      end)
    (fun f => f = AssertFailed /\ exists fr, In fr dataport_frames /\ df_paddr fr = paddr /\ df_size fr <> size /\
       ZF_LOGF_aborts = true) s.
Proof using Type.
  induction l as [|fr l IH]; intros Hl; cbn [find_dataport]; [done|].
  assert (In fr dataport_frames) as Hfr by (apply Hl; by left).
  specialize (IH (fun fr H => Hl fr (or_intror H))).
  destruct (Z.eqb_spec (df_paddr fr) paddr) as [Hp|_]; [|exact IH].
  destruct (Z.eqb_spec (df_size fr) size) as [Hz|Hz].
  - cbn. split; [done|]. by exists fr.
  - unfold ZF_LOGF. destruct ZF_LOGF_aborts eqn:Ez; [|exact IH]. cbn. split; [done|]. by exists fr.
Qed.

(** C9 -- Mapping device memory, for a region that ends a page of each size before
    the end of the address space, whatever the allocators, the kernel and the
    dataports answer.  There are four ends.  A dataport's frame of this address
    and size is returned as it is mapped.  Or the region is mapped, in pages of
    one of the page sizes and covered by exactly the frames it needs, in order,
    and the address is that of the region in them.  Or no address is returned,
    and then every capability slot, capability and untyped that was taken in any
    of the attempts has been given back, once.  Or the VMM stops, for one of the
    reasons of [map_fault] only: the allocator has no slot, the pages of the
    region are 4 GiB or more, a dataport has a frame in the region (whose size
    is wrong, or whose cookie is not written when it is cleaned up), or the
    region is empty. *)
Theorem arm_map_paddr (paddr size : Z) (s : Caps) :
  caps_ok s -> 0 <= paddr -> 0 <= size ->
  (forall bits, In bits sel4_page_sizes -> paddr + size + 2 ^ bits <= 2 ^ WORD_BITS) ->
  match vm_map_paddr paddr size s with
  | Ok (Some va, s') =>
      (s' = s /\ exists fr, In fr dataport_frames /\ df_paddr fr = paddr /\ df_size fr = size /\ df_vaddr fr = va) \/
      (exists bits, In bits sel4_page_sizes /\ mapped_at paddr size bits va s s')
  | Ok (None, s') => same_caps s s'
  | Fault f => map_fault paddr size f
  end.
Proof using UL L.
  intros Hs Hp Hz Hmax.
  enough (runs (vm_map_paddr paddr size) (fun r s' => match r with
      | Some va =>
          (s' = s /\ exists fr, In fr dataport_frames /\ df_paddr fr = paddr /\ df_size fr = size /\ df_vaddr fr = va) \/
          (exists bits, In bits sel4_page_sizes /\ mapped_at paddr size bits va s s')
      | None => same_caps s s'
      end) (map_fault paddr size) s) as H.
  { unfold runs in H. by destruct (vm_map_paddr paddr size s) as [[[va|] s']|f]. }
  unfold vm_map_paddr, find_dataport_frame. apply runs_bind.
  eapply runs_mono; [by apply find_dataport_runs| |].
  2:{ intros f (-> & fr & H1 & H2 & H3 & H4). do 2 right. left. exists fr. split_and!; [split; [done|by right]|done..]. }
  intros r s1 [-> Hr]. cbv zeta. destruct (z2b _) eqn:Ev.
  { destruct r as [va|]; [|done]. left. by split. }
  set (l := rev _).
  assert (forall b, In b l -> In b sel4_page_sizes) as Hin.
  { intros b Hb. unfold l in Hb. apply in_rev in Hb. rewrite <-(take_drop (S (frame_index size 0 (tail sel4_page_sizes))) sel4_page_sizes).
    apply in_or_app. by left. }
  clearbody l. clear r Hr Ev.
  enough (forall s0, same_caps s s0 -> runs (try_sizes paddr size l) (fun r s' => match r with
      | Some va => exists bits, In bits sel4_page_sizes /\ mapped_at paddr size bits va s s'
      | None => same_caps s s'
      end) (map_fault paddr size) s0) as H.
  { eapply runs_mono; [by apply H| |done]. intros [va|] s'; [by right|done]. }
  induction l as [|b l IH]; intros s0 H0; cbn [try_sizes]; [done|].
  apply runs_bind. eapply runs_mono; [apply (page_size_runs paddr size b s0)| |done];
    [by eapply caps_ok_same|apply Hin; by left|done|done|apply Hmax, Hin; by left|].
  intros [va|] s1 H1.
  - exists b. split; [apply Hin; by left|].
    destruct H0 as (Hs0 & Hc0 & Hu0 & Hm0). unfold mapped_at in *. by rewrite Hs0, Hc0, Hm0 in H1.
  - apply IH; [intros b' Hb'; apply Hin; by right|by eapply same_caps_trans].
Qed.

End Mapping.

(** * Memory for a faulting guest *)

Record vm_frame := mkVmFrame { fr_cptr : Z; fr_vaddr : Z; fr_size_bits : Z }.
(** [{ seL4_CapNull, seL4_NoRights, 0, 0 }] *)
Definition null_frame : vm_frame := mkVmFrame 0 0 0.

Inductive memory_fault_result := FAULT_HANDLED | FAULT_UNHANDLED | FAULT_RESTART | FAULT_IGNORE | FAULT_ERROR.

(** A frame of ordinary memory, in a new slot, and where it is; and the
    alignment macro of libutils. *)
Class GuestMemEnv := {
  vka_alloc_frame : nat -> gset Z -> option (Z * Z);
  PAGE_ALIGN : Z -> Z -> Z;
  (* the guest's address space: is the region free, and mapping it with frames
     from an iterator *)
  vm_reserve_memory_at : nat -> Z -> bool;
  vm_map_reservation : bool -> (Z -> Cap vm_frame) -> Z -> Cap Z }.
Class GuestMemLaws (G : GuestMemEnv) : Prop := {
  alloc_frame_fresh n l x pa : vka_alloc_frame n l = Some (x, pa) -> x ∉ l;
  page_align_spec a b : 0 <= a -> 0 < b -> PAGE_ALIGN a b = a - a mod b }.

Section OnDemand.
Context {U : Utils} {E : CapEnv} {G : GuestMemEnv}.

Definition alloc_vm_device_cap (addr : Z) : Cap (Z * vm_frame) :=
  r ← cspace_alloc;
  match r with
  | None => mret (-1, null_frame)
  | Some f =>
      '(err, _) ← camkes_vm_utspace_alloc_at f (kobject_frame_type seL4_PageBits) seL4_PageBits addr;
      err ← (if err =? 0 then mret 0
             else n ← tick;
                  let err := simple_get_frame_cap n addr seL4_PageBits in
                  when (err =? 0) (install f addr seL4_PageBits);;
                  mret err);
      if err =? 0 then mret (0, mkVmFrame f addr seL4_PageBits) else mret (-1, null_frame)
  end.

Definition alloc_vm_ram_cap (addr : Z) : Cap (Z * vm_frame) :=
  n ← tick;
  s ← get;
  match vka_alloc_frame n (slots s) with
  | None => ZF_LOGF;; mret (-1, null_frame)
  | Some (f, pa) =>
      put (s <| slots := slots s ∪ {[f]} |>);;
      install f pa seL4_PageBits;;
      mret (0, mkVmFrame f addr seL4_PageBits)
  end.

Definition on_demand_iterator (addr : Z) : Cap vm_frame :=
  let paddr := PAGE_ALIGN addr (2 ^ seL4_PageBits) in
  '(err, frame) ← alloc_vm_device_cap paddr;
  if err =? 0 then mret frame
  else '(_, frame) ← alloc_vm_ram_cap paddr; mret frame.

Definition handle_on_demand_fault_callback : memory_fault_result := FAULT_ERROR.

(** [ondemand] is CONFIG_VM_ONDEMAND_DEVICE_INSTALL. *)
Definition unhandled_mem_fault_callback (ondemand : bool) (paddr : Z) : Cap memory_fault_result :=
  if ondemand then
    let addr := PAGE_ALIGN paddr (2 ^ seL4_PageBits) in
    if addr =? 0 then mret FAULT_ERROR
    else
      n ← tick;
      mapped ← vm_map_reservation (vm_reserve_memory_at n addr) on_demand_iterator addr;
      if mapped =? 0 then mret FAULT_RESTART else mret FAULT_ERROR
  else mret FAULT_ERROR.

End OnDemand.

(** modules/map_frame_hack.c: the capability for the page at [addr] of the
    region at [extra_frame_map_address], which is an [int], with words of 64
    bits (the difference is taken in words before it becomes an [int]). *)
Definition map_frame_hack_iterator (start_extra_frame_caps extra_frame_map_address addr : Z) : vm_frame :=
  let cap_idx := s32 (u64 (u64 extra_frame_map_address - addr) / 2 ^ seL4_PageBits) in
  mkVmFrame (u64 (s32 (start_extra_frame_caps + cap_idx))) addr seL4_PageBits.

(** * Untyped memory *)

Inductive ut_pool := ALLOCMAN_UT_KERNEL | ALLOCMAN_UT_DEV_MEM | ALLOCMAN_UT_DEV.

Record untyped := mkUntyped { ut_cap : Z; ut_size_bits : Z; ut_paddr : Z; ut_is_device : bool }.
(** [vm_config.ram], as far as it is used. *)
Record ram_config := mkRam { phys_base : Z; ram_size : Z }.

(** The subtraction does not wrap when it is looked at, so that the width of
    [uintptr_t] makes no difference. *)
Definition is_guest_ram (ram : ram_config) (paddr : Z) : bool :=
  (paddr >=? phys_base ram) && (u64 (paddr - phys_base ram) <? ram_size ram).
Definition add_uts_pool (ram : ram_config) (paddr : Z) (is_device : bool) : ut_pool :=
  if negb is_device then ALLOCMAN_UT_KERNEL
  else if is_guest_ram ram paddr then ALLOCMAN_UT_DEV_MEM
  else ALLOCMAN_UT_DEV.

(** The allocator's pools; [allocman_utspace_add_uts] may fail. *)
Definition Pools (A : Type) : Type := M (list (untyped * ut_pool)) A.

Section Untyped.
Variable allocman_utspace_add_uts : list (untyped * ut_pool) -> untyped -> ut_pool -> Z.

Definition add_uts (ram : ram_config) (ut : untyped) (is_device : bool) : Pools Z :=
  let ut_type := add_uts_pool ram (ut_paddr ut) is_device in
  l ← get;
  let err := allocman_utspace_add_uts l ut ut_type in
  when (err =? 0) (put (l ++ [(ut, ut_type)]));;
  mret err.

(** The part of [vmm_init] that hands out the untyped memory: the number of
    untypeds and the n-th one, of the system and of the device tree (weak
    symbols). *)
Definition vmm_init_untypeds (ram : ram_config) (cnt : Z) (simple_get_nth_untyped : Z -> untyped)
    (dtb : option (Z * (Z -> untyped))) : Pools Z :=
  if cnt <? 0 then mret (-1)
  else
    for_each (zrange (Z.to_nat cnt)) (fun i =>
      let ut := simple_get_nth_untyped i in err ← add_uts ram ut (ut_is_device ut); assertC (err =? 0));;
    match dtb with
    | None => mret 0
    | Some (cnt, camkes_dtb_get_nth_untyped) =>
        if cnt <? 0 then mret (-1)
        else
          for_each (zrange (Z.to_nat cnt)) (fun i =>
            err ← add_uts ram (camkes_dtb_get_nth_untyped i) true; assertC (err =? 0));;
          mret 0
    end.

End Untyped.

(** * Thread objects *)

Section Tcb.
(** The static pool of CAmkES ([None] when it is empty) and the allocator's
    own function. *)
Variable seL4_TCBObject : Z.
Variable camkes_alloc : nat -> Z -> option Z.
Variable utspace_alloc_copy : nat -> gset Z -> Z -> Z -> bool -> option Z.
Context {E : CapEnv}.

Definition camkes_vm_utspace_alloc_maybe_device_fn (type size_bits : Z) (can_use_dev : bool) : Cap (Z * option Z) :=
  n ← tick;
  match (if type =? seL4_TCBObject then camkes_alloc n type else None) with
  | Some cap => mret (vka_cnode_copy n cap, None)
  | None =>
      s ← get;
      match utspace_alloc_copy n (uts s) type size_bits can_use_dev with
      | Some cookie => put (s <| uts := uts s ∪ {[cookie]} |>);; mret (0, Some cookie)
      | None => mret (-1, None)
      end
  end.

(** Only thread objects come from the pool, and they use no untyped. *)
Lemma alloc_tcb_from_pool type size_bits dev s cap :
  camkes_alloc (calls s) type = Some cap ->
  exists r s', camkes_vm_utspace_alloc_maybe_device_fn type size_bits dev s = Ok (r, s') /\
    (type = seL4_TCBObject -> r = (vka_cnode_copy (calls s) cap, None) /\ uts s' = uts s) /\
    (type <> seL4_TCBObject -> forall c, r = (0, Some c) -> uts s' = uts s ∪ {[c]}).
Proof.
  intros Hc. unfold camkes_vm_utspace_alloc_maybe_device_fn, tick, mbind, M_bind, get. cbn.
  destruct (Z.eqb_spec type seL4_TCBObject) as [->|Hn].
  - rewrite Hc. eexists _, _. split; [reflexivity|]. split; [by intros _|]. intros Hn. by destruct Hn.
  - destruct (utspace_alloc_copy (calls s) (uts s) type size_bits dev) as [c|] eqn:Ha;
      cbn; rewrite Ha; eexists _, _; (split; [reflexivity|]); (split; [intros ->; by destruct Hn|]).
    + intros _ c' [= <-]. done.
    + intros _ c' [=].
Qed.

End Tcb.

(** * DMA *)

Definition DMA_VSTART : Z := 0x40000000.
Record dma_mem_descriptor := mkDmaDesc { d_vaddr : Z; d_paddr : Z; d_size_bits : Z; d_alloc_cookie : Z }.
Record Dma := mkDma {
  dma_vaddr : Z;                 (* the static _vaddr *)
  dma_calls : nat;
  dma_pages : list dma_mem_descriptor }.
#[export] Instance eta_Dma : Eta Dma := fun s => mkDma (dma_vaddr s) (dma_calls s) (dma_pages s).
Definition dma_bss : Dma := mkDma DMA_VSTART 0 [].

(** The kernel and the allocator, by number of the call. *)
Class DmaEnv := {
  vka_alloc_frame_leaky : nat -> option Z;
  seL4_ARM_Page_Map : nat -> Z -> Z -> Z;
  vka_alloc_page_table_leaky : nat -> option Z;
  seL4_ARM_PageTable_Map : nat -> Z -> Z -> Z;
  seL4_ARM_Page_GetAddress : Z -> Z }.

Section DmaAlloc.
Context {D : DmaEnv}.

Definition dma_tick : M Dma nat := fun s => Ok (dma_calls s, s <| dma_calls := S (dma_calls s) |>).

Definition map_dma_page (frame vaddr : Z) : M Dma bool :=
  n ← dma_tick;
  if seL4_ARM_Page_Map n frame vaddr =? 0 then mret true
  else
    n ← dma_tick;
    match vka_alloc_page_table_leaky n with
    | None => mret false
    | Some pt =>
        n ← dma_tick;
        if negb (seL4_ARM_PageTable_Map n pt vaddr =? 0) then mret false
        else n ← dma_tick; mret (seL4_ARM_Page_Map n frame vaddr =? 0)
    end.

Definition dma_morecore : M Dma Z :=
  n ← dma_tick;
  match vka_alloc_frame_leaky n with
  | None => fail AssertFailed
  | Some frame =>
      s ← get;
      ok ← map_dma_page frame (dma_vaddr s);
      if negb ok then mret (-1)
      else
        modify (fun s => s <| dma_pages := dma_pages s ++
          [mkDmaDesc (dma_vaddr s) (seL4_ARM_Page_GetAddress frame) seL4_PageBits frame] |>
          <| dma_vaddr := u32 (dma_vaddr s + 2 ^ seL4_PageBits) |>);;
        mret 0
  end.

End DmaAlloc.

(** * Interrupt capabilities *)

(** [vm_simple_get_irq]: the device tree's only when the other is not there
    (seL4_NoError is 0; seL4_FailedLookup is 6). *)
Definition seL4_FailedLookup : Z := 6.
Definition vm_simple_get_irq (original : Z -> Z) (camkes_dtb_get_irq_cap : option (Z -> Z)) (irq : Z) : Z :=
  if original irq =? 0 then original irq
  else match camkes_dtb_get_irq_cap with Some get => get irq | None => seL4_FailedLookup end.

(** * Theorems *)

Section DeviceCap.
Context {U : Utils} {E : CapEnv} {L : CapLaws E}.

Lemma device_cap_run addr s :
  caps_ok s -> slots_left -> no_dataport addr ->
  exists r s', alloc_vm_device_cap addr s = Ok (r, s') /\ caps_ok s' /\ slots s ⊆ slots s' /\ caps s ⊆ caps s' /\
    (fst r = 0 /\ snd r = mkVmFrame (fr_cptr (snd r)) addr seL4_PageBits /\ fr_cptr (snd r) ∉ slots s /\
       caps s' !! fr_cptr (snd r) = Some (addr, seL4_PageBits) \/
     fst r = -1 /\ exists f, f ∉ slots s /\ slots s' = slots s ∪ {[f]} /\ caps s' !! f = None).
Proof using L.
  intros Hs Hl Hd. destruct (cspace_alloc_run s Hl) as (f & Hf & E1).
  unfold alloc_vm_device_cap. rewrite (bind_ok _ _ _ _ _ E1).
  set (s1 := s <| calls := S (calls s) |> <| slots := slots s ∪ {[f]} |>) in *. clear E1.
  assert (forall s2, slots s2 = slots s1 -> caps s2 = <[f := (addr, seL4_PageBits)]> (caps s) ->
    caps_ok s2 /\ slots s ⊆ slots s2 /\ caps s ⊆ caps s2 /\ caps s2 !! f = Some (addr, seL4_PageBits)) as Hgood.
  { intros s2 H1 H2. unfold caps_ok. rewrite H1, H2. split_and!.
    - intros f'. rewrite lookup_insert_is_Some. intros [<-|[_ H]]; [|apply Hs in H]; cbn; set_solver.
    - cbn. set_solver.
    - by apply insert_subseteq, caps_none.
    - by rewrite lookup_insert_eq. }
  destruct (alloc_at_run f (kobject_frame_type seL4_PageBits) seL4_PageBits addr s1 (fun _ => Hd))
    as (err & c & s2 & E2 & [(-> & (c' & -> & Hc & Hu & Hu') & Hs2 & Hc2 & Hm2)|(-> & Hs2 & Hc2 & Hu2 & Hm2)]);
    rewrite (bind_ok _ _ _ _ _ E2); cbv beta iota.
  - exists (0, mkVmFrame f addr seL4_PageBits), s2. split; [done|].
    destruct (Hgood s2 Hs2 Hc2) as (? & ? & ? & ?). split_and!; [done..|]. by left.
  - cbn [Z.eqb]. set (s3 := s2 <| calls := S (calls s2) |>). cbv zeta.
    destruct (Z.eqb_spec (simple_get_frame_cap (calls s2) addr seL4_PageBits) 0) as [E0|Hne].
    + set (s4 := s3 <| caps := <[f := (addr, seL4_PageBits)]> (caps s2) |>).
      exists (0, mkVmFrame f addr seL4_PageBits), s4. split.
      { rewrite (bind_ok _ _ s2 0 s4); [done|]. rewrite (bind_ok _ _ s2 (calls s2) s3), E0 by done. done. }
      destruct (Hgood s4) as (? & ? & ? & ?); [by cbn; rewrite Hs2|by cbn; rewrite Hc2|]. split_and!; [done..|]. by left.
    + exists (-1, null_frame), s3. split.
      { rewrite (bind_ok _ _ s2 (simple_get_frame_cap (calls s2) addr seL4_PageBits) s3).
        - by destruct (Z.eqb_spec (simple_get_frame_cap (calls s2) addr seL4_PageBits) 0).
        - rewrite (bind_ok _ _ s2 (calls s2) s3) by done.
          by destruct (Z.eqb_spec (simple_get_frame_cap (calls s2) addr seL4_PageBits) 0). }
      unfold caps_ok. cbn. rewrite Hs2, Hc2. cbn. split_and!; [|set_solver|done|].
      * intros f' H. apply Hs in H. set_solver.
      * right. split; [done|]. exists f. split_and!; [done|done|]. by apply caps_none.
Qed.

End DeviceCap.

Section OnDemandProofs.
Context {U : Utils} {UL : UtilsLaws U} {E : CapEnv} {L : CapLaws E} {G : GuestMemEnv} {GL : GuestMemLaws G}.

(** [frame] is a page for [addr], with capability [pa] in a slot that was free. *)
Definition page_for (addr pa : Z) (frame : vm_frame) (s s' : Caps) : Prop :=
  fr_vaddr frame = addr - addr mod 2 ^ seL4_PageBits /\ fr_size_bits frame = seL4_PageBits /\
  fr_cptr frame ∉ slots s /\ caps s' !! fr_cptr frame = Some (pa, seL4_PageBits) /\ fr_cptr frame ∈ slots s'.

(** Memory installed for a fault.  The iterator gives a page for the page of
    the address: the device's own when the allocator or the system has it,
    ordinary memory otherwise, with the capability in a slot that was free;
    what was held before is not touched.  Only when there is no memory at all
    is the frame null.  (Falling back to ordinary memory leaves the slot taken
    for the device empty and allocated.) *)
Lemma arm_on_demand (addr : Z) (s : Caps) :
  0 <= addr -> caps_ok s -> slots_left -> no_dataport (addr - addr mod 2 ^ seL4_PageBits) -> ZF_LOGF_aborts = false ->
  exists frame s', on_demand_iterator addr s = Ok (frame, s') /\ slots s ⊆ slots s' /\ caps s ⊆ caps s' /\
    (page_for addr (addr - addr mod 2 ^ seL4_PageBits) frame s s' \/
     exists f, f ∉ slots s /\ f ∈ slots s' /\ caps s' !! f = None /\
       (frame = null_frame \/
        exists n l pa, vka_alloc_frame n l = Some (fr_cptr frame, pa) /\ page_for addr pa frame s s')).
Proof using U UL E L G GL.
  intros Ha Hs Hl Hd Hab. unfold on_demand_iterator. rewrite page_align_spec by done. cbv zeta.
  set (pa := addr - addr mod 2 ^ seL4_PageBits) in *.
  destruct (device_cap_run pa s Hs Hl Hd)
    as ([err frame] & s1 & E1 & Hok & Hsl & Hcp & [(Herr & Hfr & Hf & Hc)|(Herr & f & Hf & Hsf & Hc)]);
    cbn [fst snd] in *; subst err; rewrite (bind_ok _ _ _ _ _ E1); cbv beta iota; cbn [Z.eqb].
  - exists frame, s1. split; [done|]. split_and!; [done|done|]. left. rewrite Hfr. cbn. split_and!; [done..|].
    apply Hok. by eexists.
  - unfold alloc_vm_ram_cap. set (s2 := s1 <| calls := S (calls s1) |>).
    destruct (vka_alloc_frame (calls s1) (slots s1)) as [[f' pa']|] eqn:Ea.
    + pose proof (alloc_frame_fresh _ _ _ _ Ea) as Hf'.
      set (s3 := s2 <| slots := slots s1 ∪ {[f']} |> <| caps := <[f' := (pa', seL4_PageBits)]> (caps s1) |>).
      exists (mkVmFrame f' pa seL4_PageBits), s3. split.
      { rewrite (bind_ok _ _ s1 (0, mkVmFrame f' pa seL4_PageBits) s3); [done|].
        rewrite (bind_ok _ _ s1 (calls s1) s2), (bind_ok _ _ s2 s2 s2) by done. change (slots s2) with (slots s1). by rewrite Ea. }
      cbn. split_and!; [set_solver| |].
      { etransitivity; [exact Hcp|]. by apply insert_subseteq, caps_none. }
      right. exists f. assert (f <> f') by (intros ->; apply Hf'; rewrite Hsf; set_solver).
      split_and!; [done|rewrite Hsf; set_solver|by rewrite lookup_insert_ne|].
      right. exists (calls s1), (slots s1), pa'. split; [done|].
      split_and!; cbn; [done|done|set_solver|by rewrite lookup_insert_eq|set_solver].
    + exists null_frame, s2. split.
      { rewrite (bind_ok _ _ s1 (-1, null_frame) s2); [done|].
        rewrite (bind_ok _ _ s1 (calls s1) s2), (bind_ok _ _ s2 s2 s2) by done. change (slots s2) with (slots s1).
        rewrite Ea. unfold ZF_LOGF. by rewrite Hab. }
      split_and!; [done|done|]. right. exists f. cbn. split_and!; [done|rewrite Hsf; set_solver|done|by left].
Qed.

End OnDemandProofs.

(** The subtraction in the test for guest memory cannot wrap. *)
Lemma is_guest_ram_spec ram paddr :
  inw 64 paddr -> inw 64 (phys_base ram) ->
  is_guest_ram ram paddr = true <-> phys_base ram <= paddr < phys_base ram + ram_size ram.
Proof.
  unfold inw. intros Hp Hb. unfold is_guest_ram. rewrite andb_true_iff, Z.geb_le, Z.ltb_lt. split.
  - intros [H1 H2]. rewrite u64_small in H2 by (unfold inw; lia). lia.
  - intros H. rewrite u64_small by (unfold inw; lia). lia.
Qed.

(** The pool of each untyped of the system and of the device tree. *)
Definition pools_of (ram : ram_config) (cnt : Z) (nth : Z -> untyped) (dtb : option (Z * (Z -> untyped))) :=
  map (fun i => (nth i, add_uts_pool ram (ut_paddr (nth i)) (ut_is_device (nth i)))) (zrange (Z.to_nat cnt)) ++
  match dtb with
  | Some (cnt, nth) => map (fun i => (nth i, add_uts_pool ram (ut_paddr (nth i)) true)) (zrange (Z.to_nat cnt))
  | None => []
  end.

(** The loops give every untyped to its pool, if the allocator takes them. *)
Lemma add_all_run add ram (nth : Z -> untyped) dev ixs l :
  wlp (for_each ixs (fun i => err ← add_uts add ram (nth i) (dev i); assertC (err =? 0)))
    (fun _ l' => l' = l ++ map (fun i => (nth i, add_uts_pool ram (ut_paddr (nth i)) (dev i))) ixs) l.
Proof.
  revert l. induction ixs as [|i ixs IH]; intros l; cbn [for_each map]; [by rewrite app_nil_r|].
  apply wlp_bind. unfold wlp at 1, add_uts, mbind at 1, M_bind at 1, mbind, M_bind, get. cbn.
  destruct (Z.eqb_spec (add l (nth i) (add_uts_pool ram (ut_paddr (nth i)) (dev i))) 0) as [E|E]; cbn.
  - rewrite E. cbn. eapply wlp_mono; [apply IH|]. cbn. intros _ l' ->. by rewrite <-app_assoc.
  - destruct (Z.eqb_spec (add l (nth i) (add_uts_pool ram (ut_paddr (nth i)) (dev i))) 0); done.
Qed.

Lemma vmm_init_untypeds_run add ram cnt nth dtb l :
  wlp (vmm_init_untypeds add ram cnt nth dtb) (fun r l' => r = 0 -> l' = l ++ pools_of ram cnt nth dtb) l.
Proof.
  unfold vmm_init_untypeds, pools_of. apply wlp_if; intros _; [by apply wlp_ret|].
  apply wlp_bind. eapply wlp_mono; [apply (add_all_run add ram nth (fun i => ut_is_device (nth i)))|].
  intros [] l1 ->. destruct dtb as [[cnt' nth']|]; [|apply wlp_ret; by rewrite app_nil_r].
  apply wlp_if; intros _; [by apply wlp_ret|].
  apply wlp_bind. eapply wlp_mono; [apply (add_all_run add ram nth' (fun _ => true))|].
  intros [] l2 ->. apply wlp_ret. by rewrite app_assoc.
Qed.

(** With an allocator that takes everything, the loops come to an end. *)
Lemma add_all_ok add ram (nth : Z -> untyped) dev ixs l :
  (forall l ut p, add l ut p = 0) ->
  wp (for_each ixs (fun i => err ← add_uts add ram (nth i) (dev i); assertC (err =? 0))) (fun _ _ => True) l.
Proof.
  intros Hadd. apply (wp_for_each (fun _ => True)); [done| |done]. intros i l' _ _.
  unfold wp, add_uts, mbind, M_bind, get. cbn. by rewrite !Hadd.
Qed.

Lemma vmm_init_untypeds_ok add ram cnt nth dtb l :
  (forall l ut p, add l ut p = 0) -> 0 <= cnt -> match dtb with Some (cnt, _) => 0 <= cnt | None => True end ->
  wp (vmm_init_untypeds add ram cnt nth dtb) (fun r _ => r = 0) l.
Proof.
  intros Hadd Hc Hd. unfold vmm_init_untypeds. apply wp_if; intros Hb; [apply Z.ltb_lt in Hb; lia|].
  apply wp_bind. eapply wp_mono; [by apply (add_all_ok add ram nth (fun i => ut_is_device (nth i)))|]. intros [] l1 _.
  destruct dtb as [[cnt' nth']|]; [|by apply wp_ret].
  apply wp_if; intros Hb'; [apply Z.ltb_lt in Hb'; lia|].
  apply wp_bind. eapply wp_mono; [by apply (add_all_ok add ram nth' (fun _ => true))|]. intros [] l2 _. by apply wp_ret.
Qed.

(** ** DMA pages *)

Section DmaProofs.
Context {D : DmaEnv}.

(** The page with number [k]. *)
Definition dma_page_vaddr (k : nat) : Z := DMA_VSTART + Z.of_nat k * 2 ^ seL4_PageBits.
Definition dma_ok (s : Dma) : Prop :=
  map d_vaddr (dma_pages s) = map dma_page_vaddr (seq 0 (length (dma_pages s))) /\
  dma_vaddr s = u32 (dma_page_vaddr (length (dma_pages s))).
(** The pages from [DMA_VSTART] to the end of the 32 bit address space. *)
Definition DMA_MAX_PAGES : Z := 786432.

Lemma map_dma_page_run frame vaddr s :
  exists ok n, map_dma_page frame vaddr s = Ok (ok, s <| dma_calls := n |>).
Proof.
  unfold map_dma_page, dma_tick, mbind, M_bind. cbn.
  repeat (case_match; simplify_eq/=); eauto.
Qed.

(** A call either hands out the page at the marker and advances it, or does
    neither. *)
Definition dma_advanced (s s' : Dma) : Prop := exists desc,
  d_vaddr desc = dma_vaddr s /\ dma_pages s' = dma_pages s ++ [desc] /\ dma_vaddr s' = u32 (dma_vaddr s + 2 ^ seL4_PageBits).
Definition dma_same (s s' : Dma) : Prop := dma_pages s' = dma_pages s /\ dma_vaddr s' = dma_vaddr s.

Lemma dma_morecore_run s :
  vka_alloc_frame_leaky (dma_calls s) <> None ->
  exists r s', dma_morecore s = Ok (r, s') /\ (r = 0 /\ dma_advanced s s' \/ r = -1 /\ dma_same s s').
Proof.
  intros Hf. unfold dma_morecore.
  set (s1 := s <| dma_calls := S (dma_calls s) |>). rewrite (bind_ok _ _ s (dma_calls s) s1) by done.
  destruct (vka_alloc_frame_leaky (dma_calls s)) as [frame|] eqn:Ef; [|done].
  rewrite (bind_ok _ _ s1 s1 s1) by done.
  destruct (map_dma_page_run frame (dma_vaddr s1) s1) as (ok & n & E1). rewrite (bind_ok _ _ _ _ _ E1).
  destruct ok; cbn [negb]; [eexists 0, _|eexists (-1), _]; (split; [done|]); [left|by right].
  split; [done|]. exists (mkDmaDesc (dma_vaddr s) (seL4_ARM_Page_GetAddress frame) seL4_PageBits frame). done.
Qed.

Lemma dma_ok_same s s' : dma_same s s' -> dma_ok s -> dma_ok s'.
Proof. unfold dma_ok. intros [E1 E2]. by rewrite E1, E2. Qed.

Lemma dma_ok_advanced s s' :
  Z.of_nat (length (dma_pages s)) < DMA_MAX_PAGES -> dma_advanced s s' -> dma_ok s -> dma_ok s'.
Proof.
  intros Hmax (desc & Hd & Ep & Hv') [Hp Hv]. unfold dma_ok. rewrite Ep, length_app, Nat.add_1_r, seq_S, !map_app, Hp, Hv'.
  cbn [map d_vaddr length]. rewrite Hd, Hv. unfold DMA_MAX_PAGES in Hmax.
  assert (0 <= dma_page_vaddr (length (dma_pages s)) < 2 ^ 32) as Hr.
  { unfold dma_page_vaddr, DMA_VSTART, seL4_PageBits. change (2 ^ 12) with 4096. lia. }
  rewrite u32_small by exact Hr. split; [done|]. f_equal. unfold dma_page_vaddr. lia.
Qed.

(** The addresses of the pages are different. *)
Lemma dma_ok_nodup s : dma_ok s -> NoDup (map d_vaddr (dma_pages s)).
Proof.
  intros [-> _]. apply NoDup_fmap_2; [|apply NoDup_seq].
  intros a b. unfold dma_page_vaddr, seL4_PageBits. change (2 ^ 12) with 4096. lia.
Qed.

(** DMA pages.  Whatever mappings fail, the pages handed out have consecutive
    virtual addresses from the start of the DMA region, so that no two
    overlap, as long as they fit in the 32 bit address space: 786432 pages;
    a call that cannot map its page hands out nothing, and the next call uses
    the address again. *)
Lemma arm_dma_pages (n : nat) :
  (forall k, vka_alloc_frame_leaky k <> None) -> Z.of_nat n <= DMA_MAX_PAGES ->
  exists s, for_each (seq 0 n) (fun _ => dma_morecore;; mret tt) dma_bss = Ok (tt, s) /\
    (length (dma_pages s) <= n)%nat /\
    map d_vaddr (dma_pages s) = map dma_page_vaddr (seq 0 (length (dma_pages s))) /\
    NoDup (map d_vaddr (dma_pages s)).
Proof.
  intros Hf Hn.
  assert (forall l s, dma_ok s -> Z.of_nat (length (dma_pages s) + length l) <= DMA_MAX_PAGES ->
    exists s', for_each l (fun _ : nat => dma_morecore;; mret tt) s = Ok (tt, s') /\ dma_ok s' /\
      (length (dma_pages s') <= length (dma_pages s) + length l)%nat) as H.
  { induction l as [|x l IH]; intros s Hs Hl; cbn [for_each length] in *; [exists s; split_and!; [done..|lia]|].
    destruct (dma_morecore_run s (Hf _)) as (r & s1 & E1 & Hr).
    rewrite (bind_ok _ _ s tt s1) by (by rewrite (bind_ok _ _ _ _ _ E1)).
    assert (dma_ok s1 /\ (length (dma_pages s1) <= S (length (dma_pages s)))%nat) as [H1 Hl1].
    { destruct Hr as [[_ Ha]|[_ Hsm]]; [|split; [by eapply dma_ok_same|destruct Hsm as [-> _]; lia]].
      split; [apply (dma_ok_advanced s); [lia|done|done]|]. destruct Ha as (desc & _ & -> & _). rewrite length_app. cbn. lia. }
    destruct (IH s1 H1 ltac:(lia)) as (s' & E2 & H2 & H3). exists s'. split_and!; [done|done|lia]. }
  destruct (H (seq 0 n) dma_bss) as (s & E1 & Hs & Hl); [done|by rewrite length_seq|].
  rewrite length_seq in Hl. pose proof Hs as [Hp _]. exists s. split_and!; [done|done|done|by apply dma_ok_nodup].
Qed.

End DmaProofs.

(** Of the extra frames only the first is mapped where it should be: the index
    of the page counts backwards. *)
Lemma map_frame_hack_backwards start base k :
  0 <= base -> 0 <= k -> base + k * 4096 < 2 ^ 31 -> k <= start < 2 ^ 30 ->
  fr_cptr (map_frame_hack_iterator start base (base + k * 4096)) = start - k.
Proof.
  intros Hb Hk Hm Hst. unfold map_frame_hack_iterator, seL4_PageBits. cbn [fr_cptr]. change (2 ^ 12) with 4096.
  assert (s32 (u64 (u64 base - (base + k * 4096)) / 4096) = - k) as ->.
  { rewrite (u64_small base) by (unfold inw; lia).
    replace (base - (base + k * 4096)) with (- (k * 4096)) by lia.
    destruct (Z.eq_dec k 0) as [->|]; [done|].
    replace (u64 (- (k * 4096))) with (2 ^ 64 - k * 4096)
      by (unfold u64, wrap; apply (Z.mod_unique_pos _ _ (-1)); lia).
    replace ((2 ^ 64 - k * 4096) / 4096) with (2 ^ 52 - k)
      by (apply (Z.div_unique_pos _ _ _ 0); lia).
    unfold s32, signed, wrap.
    replace ((2 ^ 52 - k) mod 2 ^ 32) with (2 ^ 32 - k) by (apply (Z.mod_unique_pos _ _ (2 ^ 20 - 1)); lia).
    destruct (Z.ltb_spec (2 ^ 32 - k) (2 ^ (32 - 1))); lia. }
  rewrite s32_small, u64_small; unfold inw; lia.
Qed.

(** * Witnesses *)

(** A system with pages of 4 KiB and 2 MiB; memory below 0x20000000 comes from
    untypeds, a page at 0x30000000 from the system, and a dataport has the next. *)
#[local] Instance cap_demo : CapEnv := {|
  vka_cspace_alloc n l := Some (fresh l);
  utspace_alloc_at_copy n l t b p :=
    if (p <? 0x20000000) && negb (fresh l =? 2 ^ 64 - 1) then Some (fresh l) else None;
  simple_get_frame_cap n pa b := if pa =? 0x30000000 then 0 else -1;
  vka_cnode_copy n c := 0;
  vspace_map_pages n fs b := if b =? 12 then Some 0x50000000 else None;
  dataport_frames := [mkDataportFrame 0x30001000 4096 77 0x7000];
  sel4_page_sizes := [12; 21];
  kobject_frame_type b := b;
  seL4_ARM_SmallPageObject := 12;
  ROUND_UP n b := n + (- n) mod b;
  WORD_BITS := 64;
  ZF_LOGF_aborts := false |}.

#[local] Instance cap_demo_laws : CapLaws cap_demo.
Proof.
  split; cbn.
  - intros _ l x [= <-]. apply is_fresh.
  - intros _ l _ _ p c. destruct (p <? _); cbn [andb]; [|done].
    destruct (Z.eqb_spec (fresh l) (2 ^ 64 - 1)); [done|]. intros [= <-]. split; [apply is_fresh|done].
  - done.
  - by right.
  - repeat constructor; done.
  - by intros.
Qed.

Definition caps0 : Caps := mkCaps ∅ ∅ ∅ [] 0.

Lemma caps0_ok : caps_ok caps0.
Proof. intros f H. cbn in H. rewrite lookup_empty in H. by destruct H. Qed.
Lemma slots_left_demo : slots_left.
Proof. done. Qed.

Lemma arm_map_paddr_witness :
  match @vm_map_paddr utils_ref cap_demo 0x10000800 0x200000 caps0 with
  | Ok (Some va, s') =>
      (s' = caps0 /\ exists fr, In fr dataport_frames /\ df_paddr fr = 0x10000800 /\ df_size fr = 0x200000 /\ df_vaddr fr = va) \/
      (exists bits, In bits sel4_page_sizes /\ mapped_at 0x10000800 0x200000 bits va caps0 s')
  | Ok (None, s') => same_caps caps0 s'
  | Fault f => @map_fault utils_ref cap_demo 0x10000800 0x200000 f
  end.
Proof.
  apply (@arm_map_paddr utils_ref utils_ref_laws cap_demo cap_demo_laws 0x10000800 0x200000 caps0).
  - apply caps0_ok.
  - lia.
  - lia.
  - intros bits. cbn. intros [<-|[<-|[]]]; vm_compute; discriminate.
Defined.

(** When a region with a page of a dataport cannot be mapped, the clean-up reads
    the cookie that [camkes_vm_utspace_alloc_at] did not write. *)
Lemma arm_map_dataport_cookie :
  @vm_map_paddr utils_ref cap_demo 0x30000000 0x3000 caps0 = Fault Uninitialised.
Proof. vm_compute. reflexivity. Qed.

(** A region of 4 GiB fails the assertion on the number of pages. *)
Lemma arm_map_4gib :
  @vm_map_paddr_with_page_size utils_ref cap_demo 0 (2 ^ 32) 21 caps0 = Fault AssertFailed.
Proof. vm_compute. reflexivity. Qed.

#[local] Instance guest_mem_demo : GuestMemEnv := {|
  vka_alloc_frame n l := Some (fresh l, 0x8000000);
  PAGE_ALIGN a b := a - a mod b;
  vm_reserve_memory_at n a := true;
  vm_map_reservation ok it a := frame ← it a; mret (if fr_cptr frame =? 0 then -1 else 0) |}.
#[local] Instance guest_mem_demo_laws : GuestMemLaws guest_mem_demo.
Proof. split; [|done]. intros _ l x pa [= <- _]. apply is_fresh. Qed.

Lemma arm_on_demand_witness :
  exists frame s', @on_demand_iterator utils_ref cap_demo guest_mem_demo 0x40000123 caps0 = Ok (frame, s') /\
    slots caps0 ⊆ slots s' /\ caps caps0 ⊆ caps s' /\
    (page_for 0x40000123 0x40000000 frame caps0 s' \/
     exists f, f ∉ slots caps0 /\ f ∈ slots s' /\ caps s' !! f = None /\
       (frame = null_frame \/
        exists n l pa, vka_alloc_frame n l = Some (fr_cptr frame, pa) /\ page_for 0x40000123 pa frame caps0 s')).
Proof.
  apply (@arm_on_demand utils_ref utils_ref_laws cap_demo cap_demo_laws guest_mem_demo guest_mem_demo_laws 0x40000123 caps0).
  - lia.
  - apply caps0_ok.
  - apply slots_left_demo.
  - apply List.Forall_cons; [vm_compute; discriminate|apply List.Forall_nil].
  - reflexivity.
Defined.

(** Every third kernel call fails, for want of a page table. *)
#[local] Instance dma_demo : DmaEnv := {|
  vka_alloc_frame_leaky n := Some (Z.of_nat n);
  seL4_ARM_Page_Map n frame vaddr := if Nat.eqb (n mod 3) 0 then 6 else 0;
  vka_alloc_page_table_leaky n := if Nat.eqb (n mod 5) 0 then None else Some 1;
  seL4_ARM_PageTable_Map n pt vaddr := 0;
  seL4_ARM_Page_GetAddress frame := 0x80000000 + frame * 4096 |}.

Lemma arm_dma_pages_witness :
  exists s, for_each (seq 0 20) (fun _ => dma_morecore;; mret tt) dma_bss = Ok (tt, s) /\
    (length (dma_pages s) <= 20)%nat /\
    map d_vaddr (dma_pages s) = map dma_page_vaddr (seq 0 (length (dma_pages s))) /\
    NoDup (map d_vaddr (dma_pages s)).
Proof. apply (arm_dma_pages 20); [discriminate|]. unfold DMA_MAX_PAGES. lia. Defined.
