(* ===== verification/ArmBoot.v ===== *)
(** Booting a guest on the ARM VMM: the device tree it is given
    (fdt_manipulation.c, and vm_dtb_init and vm_dtb_finalize of
    components/VM_Arm/src/main.c) and the images that are loaded for it
    (load_vm_images).

    libfdt, fdtgen and the loaders of libsel4vm are outside the repository:
    each call is logged with its arguments, and its answer is a parameter. *)

From Stdlib Require Import Ascii String.
From S2P Require Import Prelude.

(** * Calls *)

Inductive dtb_source := CamkesDtb | GenDtbBaseBuf.

Inductive boot_call :=
(* libfdt and fdtgen *)
| AddSubnode (name : string)
| AppendString (node : Z) (prop value : string)
| AppendUint (node : Z) (prop : string) (value : Z) (cells : Z)
| KeepNodes (nodes : list string)
| KeepNodeSubtree (node : string)
| KeepNodeSubtreeDisable (node : string)
| KeepNodesAndDisable (nodes : list string)
| GenerateDtb (base : option dtb_source)
| FreeContext
| GenerateVpci (gic_phandle : Z)
| PlatVcpuNode
| PackDtb
(* loading *)
| InstallVpci
| InitModule (m : string)
| LoadKernel (name : string) (addr : Z)
| LoadModule (name : string) (addr : Z)
| RamMarkAllocated (addr size : Z)
| RamTouch (addr size : Z)
| SetBootargs (entry dtb : Z).

Record vm_config := mkVmConfig {
  ram_base : Z; ram_size : Z; dtb_addr : Z; initrd_addr : Z;
  file_kernel : string; file_initrd : string; file_dtb : string; file_dtb_base : option string;
  kernel_stdout : string; kernel_bootcmdline : string;
  provide_initrd : bool; generate_dtb : bool; provide_dtb : bool }.

(** Error codes are 0 for success; the calls made before may be looked at. *)
Class BootEnv := {
  fdt_add_subnode : list boot_call -> string -> Z;
  fdt_appendprop : list boot_call -> string -> Z;
  fdt_path_offset : string -> Z;
  fdt_address_cells : Z -> Z;
  fdt_size_cells : Z -> Z;
  fdt_get_phandle : Z -> Z;
  fdtgen_new_context : bool;
  fdtgen_generate : list boot_call -> Z;
  fdt_generate_vpci_node : list boot_call -> Z;
  fdt_generate_plat_vcpu_node : list boot_call -> Z;
  calloc_ok : Z -> bool;
  (* what the uninitialised locals [err] of fdt_generate_chosen_node and [dtb]
     of load_vm_images hold *)
  indeterminate_err : Z;
  indeterminate_dtb : Z;
  camkes_dtb_present : bool;
  (* the file server: a descriptor, and what read returns *)
  open_file : string -> Z;
  read_file : Z -> Z -> Z;
  (* weak symbols *)
  camkes_dtb_get_plat_keep_devices : option (list string);
  camkes_dtb_get_plat_keep_devices_and_subtree : option (list string);
  camkes_dtb_get_node_paths : option (list string);
  (* the platform's vmlinux.h *)
  plat_keep_devices : list string;
  plat_keep_device_and_subtree : list string;
  plat_keep_device_and_subtree_and_disable : list string;
  plat_keep_device_and_disable : list string;
  GIC_NODE_PATH : string;
  CONFIG_VM_PCI_SUPPORT : bool;
  vm_install_vpci : Z;
  vmm_modules : list string;
  (* libsel4vm: an error and the address loaded at (and the image's size) *)
  vm_load_guest_kernel : string -> Z -> Z * Z;
  vm_load_guest_module : string -> Z -> Z * (Z * Z);
  vcpu_set_bootargs : Z -> Z -> Z }.

Record BootState := mkBoot { fdt_ori : option dtb_source; boot_log : list boot_call }.
#[export] Instance eta_BootState : Eta BootState := fun s => mkBoot (fdt_ori s) (boot_log s).
Definition Boot (A : Type) : Type := M BootState A.
Definition call (c : boot_call) : Boot unit := modify (fun s => s <| boot_log := boot_log s ++ [c] |>).

Definition DTB_BUFFER_SIZE : Z := 320 * 1024.
Definition SIZEOF_UNSIGNED_INT : Z := 4.

(** * Printing *)

(** The digits of [%u], most significant first; 10 digits are enough for 32
    bits. *)
Fixpoint print_digits (fuel : nat) (n : Z) (acc : string) : string :=
  match fuel with
  | O => acc
  | S fuel =>
      let acc := String (ascii_of_nat (48 + Z.to_nat (n mod 10))) acc in
      if n <? 10 then acc else print_digits fuel (n / 10) acc
  end.
Definition print_u32 (n : Z) : string := print_digits 10 (u32 n) EmptyString.

(** [snprintf] into a buffer of [size] bytes: what does not fit is cut off. *)
Definition snprintf (size : Z) (s : string) : string := String.substring 0 (Z.to_nat (size - 1)) s.
Definition strlen (s : string) : Z := Z.of_nat (String.length s).

Section Boot.
Context {E : BootEnv}.

(** * fdt_manipulation.c *)

Definition appendprop_string (node : Z) (prop value : string) : Boot Z :=
  s ← get; call (AppendString node prop value);; mret (fdt_appendprop (boot_log s) prop).
Definition appendprop_uint (node : Z) (prop : string) (value cells : Z) : Boot Z :=
  s ← get; call (AppendUint node prop value cells);; mret (fdt_appendprop (boot_log s) prop).
Definition add_subnode (name : string) : Boot Z :=
  s ← get; call (AddSubnode name);; mret (fdt_add_subnode (boot_log s) name).

(** [if (err) return err;] between calls. *)
Fixpoint err_chain (l : list (Boot Z)) : Boot Z :=
  match l with
  | [] => mret 0
  | m :: l => err ← m; if z2b err then mret err else err_chain l
  end.

Definition fdt_generate_memory_node (base size : Z) : Boot Z :=
  let root_offset := fdt_path_offset "/" in
  let address_cells := fdt_address_cells root_offset in
  let size_cells := fdt_size_cells root_offset in
  this ← add_subnode "memory";
  if this <? 0 then mret this
  else err_chain [appendprop_string this "device_type" "memory";
                  appendprop_uint this "reg" base address_cells;
                  appendprop_uint this "reg" size size_cells].

(** The buffer for the arguments and what is printed to it. *)
Definition updated_bootargs_len (bootargs : string) : Z := strlen bootargs + 9 + (3 * SIZEOF_UNSIGNED_INT + 1).
Definition updated_bootargs (bootargs : string) (maxcpus : Z) : string :=
  snprintf (updated_bootargs_len bootargs) (String.append bootargs (String.append " maxcpus=" (print_u32 maxcpus))).

(** When there is no memory, [err] is returned, which is set only if the
    output path was written. *)
Definition fdt_append_bootargs (this : Z) (bootargs : string) (maxcpus err : Z) : Boot Z :=
  if negb (calloc_ok (updated_bootargs_len bootargs)) then mret err
  else appendprop_string this "bootargs" (updated_bootargs bootargs maxcpus).

Definition fdt_generate_chosen_node (stdout_path bootargs : string) (maxcpus : Z) : Boot Z :=
  this ← add_subnode "chosen";
  if strlen stdout_path >? 0 then
    err ← err_chain [appendprop_string this "stdout-path" stdout_path;
                     appendprop_string this "linux,stdout-path" stdout_path];
    if z2b err then mret err else fdt_append_bootargs this bootargs maxcpus err
  else fdt_append_bootargs this bootargs maxcpus indeterminate_err.

Definition fdt_append_chosen_node_with_initrd_info (base size : Z) : Boot Z :=
  let root_offset := fdt_path_offset "/" in
  let address_cells := fdt_address_cells root_offset in
  let this := fdt_path_offset "/chosen" in
  err_chain [appendprop_uint this "linux,initrd-start" base address_cells;
             appendprop_uint this "linux,initrd-end" (u64 (base + size)) address_cells].

(** * The base device tree (main.c) *)

(** [size_t dtb_len = read(..); if (dtb_len <= 0)]. *)
Definition load_dtb_base (name : string) : Boot unit :=
  let dtb_fd := open_file name in
  if dtb_fd <? 0 then mret tt
  else
    let dtb_len := u64 (read_file dtb_fd DTB_BUFFER_SIZE) in
    if dtb_len <=? 0 then mret tt
    else modify (fun s => s <| fdt_ori := Some GenDtbBaseBuf |>).

Definition weak (l : option (list string)) : list string := match l with Some l => l | None => [] end.

Definition fdtgen_select_nodes : Boot unit :=
  (let keep_devices := weak camkes_dtb_get_plat_keep_devices in
   if negb (Z.of_nat (List.length keep_devices) =? 0) then call (KeepNodes keep_devices)
   else call (KeepNodes plat_keep_devices));;
  (let subtree := weak camkes_dtb_get_plat_keep_devices_and_subtree in
   if negb (Z.of_nat (List.length subtree) =? 0) then for_each subtree (fun n => call (KeepNodeSubtree n))
   else for_each plat_keep_device_and_subtree (fun n => call (KeepNodeSubtree n)));;
  for_each plat_keep_device_and_subtree_and_disable (fun n => call (KeepNodeSubtreeDisable n));;
  call (KeepNodesAndDisable plat_keep_device_and_disable);;
  call (KeepNodes (weak camkes_dtb_get_node_paths)).

Definition vm_dtb_init (cfg : vm_config) : Boot Z :=
  modify (fun s => s <| fdt_ori := if camkes_dtb_present then Some CamkesDtb else None |>);;
  (match file_dtb_base cfg with
   | Some name => if negb (strlen name =? 0) then load_dtb_base name else mret tt
   | None => mret tt
   end);;
  if negb (generate_dtb cfg) then mret 0
  else if negb fdtgen_new_context then mret (-1)
  else
    fdtgen_select_nodes;;
    s ← get;
    call (GenerateDtb (fdt_ori s));;
    call FreeContext;;
    if z2b (fdtgen_generate (boot_log s)) then mret (-1)
    else
      err ← fdt_generate_memory_node (ram_base cfg) (ram_size cfg);
      if z2b err then mret (-1) else mret 0.

Definition vm_dtb_finalize (cfg : vm_config) : Boot Z :=
  assertC (generate_dtb cfg);;
  err ← (if CONFIG_VM_PCI_SUPPORT then
           let gic_offset := fdt_path_offset GIC_NODE_PATH in
           if gic_offset <? 0 then mret (-1)
           else
             let gic_phandle := fdt_get_phandle gic_offset in
             if 0 =? gic_phandle then mret (-1)
             else
               s ← get;
               call (GenerateVpci gic_phandle);;
               if z2b (fdt_generate_vpci_node (boot_log s)) then mret (-1) else mret 0
         else mret 0);
  if z2b err then mret err
  else call PackDtb;; mret 0.

(** * Devices and images (main.c) *)

(** The first half of [install_vm_devices]. *)
Definition install_vpci : Boot Z :=
  if CONFIG_VM_PCI_SUPPORT then
    call InstallVpci;; if z2b vm_install_vpci then mret (-1) else mret 0
  else mret 0.

(** libsel4vmmplatsupport's description of the processors. *)
Definition plat_vcpu_node : Boot Z := s ← get; call PlatVcpuNode;; mret (fdt_generate_plat_vcpu_node (boot_log s)).

Definition load_initrd (cfg : vm_config) : Boot Z :=
  if provide_initrd cfg then
    call (LoadModule (file_initrd cfg) (initrd_addr cfg));;
    let '(err, (initrd, size)) := vm_load_guest_module (file_initrd cfg) (initrd_addr cfg) in
    if (initrd =? 0) || z2b err then mret (-1)
    else if generate_dtb cfg then
      err ← fdt_append_chosen_node_with_initrd_info (initrd_addr cfg) size;
      if z2b err then mret (-1) else mret 0
    else mret 0
  else mret 0.

(** The result and the variable [dtb], which is left unset when a device tree is
    neither generated nor provided. *)
Definition load_dtb (cfg : vm_config) : Boot (Z * Z) :=
  if generate_dtb cfg then
    err ← vm_dtb_finalize cfg;
    if z2b err then mret (-1, indeterminate_dtb)
    else
      call (RamMarkAllocated (dtb_addr cfg) DTB_BUFFER_SIZE);;
      call (RamTouch (dtb_addr cfg) DTB_BUFFER_SIZE);;
      mret (0, dtb_addr cfg)
  else if provide_dtb cfg then
    call (LoadModule (file_dtb cfg) (dtb_addr cfg));;
    let '(err, (dtb, _)) := vm_load_guest_module (file_dtb cfg) (dtb_addr cfg) in
    if (dtb =? 0) || z2b err then mret (-1, dtb) else mret (0, dtb)
  else mret (0, indeterminate_dtb).

Definition load_vm_images (NUM_VCPUS : Z) (cfg : vm_config) : Boot Z :=
  call (LoadKernel (file_kernel cfg) (ram_base cfg));;
  let '(err, entry) := vm_load_guest_kernel (file_kernel cfg) (ram_base cfg) in
  if (entry =? 0) || z2b err then mret (-1)
  else
    err ← (if generate_dtb cfg then
             err ← fdt_generate_chosen_node (kernel_stdout cfg) (kernel_bootcmdline cfg) NUM_VCPUS;
             if z2b err then mret (-1) else mret 0
           else mret 0);
    if z2b err then mret err
    else
      err ← load_initrd cfg;
      if z2b err then mret err
      else
        '(err, dtb) ← load_dtb cfg;
        if z2b err then mret err
        else
          call (SetBootargs entry dtb);;
          if z2b (vcpu_set_bootargs entry dtb) then mret (-1) else mret 0.

(** The copy of the generated tree, by pieces. *)
Definition load_generated_dtb (buf : list Z) (size offset : nat) : list Z := take size (drop offset buf).

End Boot.

(** * The boot arguments *)

(** Reading the digits back. *)
Fixpoint read_digits (s : string) (acc : Z) : Z :=
  match s with
  | EmptyString => acc
  | String c s => read_digits s (10 * acc + (Z.of_nat (nat_of_ascii c) - 48))
  end.

Lemma nat_digit n : nat_of_ascii (ascii_of_nat (48 + Z.to_nat (n mod 10))) = (48 + Z.to_nat (n mod 10))%nat.
Proof.
  apply nat_ascii_embedding. pose proof (Z.mod_pos_bound n 10 ltac:(lia)).
  assert (Z.to_nat (n mod 10) < 10)%nat by lia. lia.
Qed.

Lemma print_digits_spec fuel n acc :
  0 <= n < 10 ^ Z.of_nat fuel ->
  (String.length (print_digits fuel n acc) <= fuel + String.length acc)%nat /\
  (n = 0 -> fuel = 0%nat -> print_digits fuel n acc = acc) /\
  ((0 < fuel)%nat -> forall k, read_digits (print_digits fuel n acc) k
     = read_digits acc (k * 10 ^ (Z.of_nat (String.length (print_digits fuel n acc)) - Z.of_nat (String.length acc)) + n)).
Proof.
  revert n acc. induction fuel as [|fuel IH]; intros n acc Hn; cbn [print_digits].
  { split; [lia|]. split; [done|lia]. }
  set (d := ascii_of_nat (48 + Z.to_nat (n mod 10))).
  assert (Z.of_nat (nat_of_ascii d) - 48 = n mod 10) as Hd.
  { unfold d. rewrite nat_digit. pose proof (Z.mod_pos_bound n 10 ltac:(lia)). lia. }
  destruct (Z.ltb_spec n 10) as [Hs|Hs].
  - cbn [String.length read_digits]. split; [lia|]. split; [done|]. intros _ k. rewrite Hd.
    rewrite Z.mod_small by lia. do 2 f_equal.
    replace (Z.of_nat (S (String.length acc)) - Z.of_nat (String.length acc)) with 1 by lia. lia.
  - assert (0 <= n / 10 < 10 ^ Z.of_nat fuel) as Hq.
    { rewrite Nat2Z.inj_succ, Z.pow_succ_r in Hn by lia. split; [apply Z.div_pos; lia|]. apply Z.div_lt_upper_bound; lia. }
    destruct (IH (n / 10) (String d acc) Hq) as (H1 & _ & H3). cbn [String.length read_digits] in *.
    split; [lia|]. split; [done|]. intros _ k.
    assert (0 < fuel)%nat as Hf.
    { destruct fuel; [|lia]. cbn in Hn. lia. }
    rewrite (H3 Hf). f_equal. rewrite Hd.
    set (l := Z.of_nat (String.length (print_digits fuel (n / 10) (String d acc)))) in *.
    destruct (Z.le_gt_cases (Z.of_nat (String.length acc) + 1) l) as [Hle|Hgt].
    + replace (l - Z.of_nat (String.length acc)) with (Z.succ (l - Z.of_nat (S (String.length acc)))) by lia.
      rewrite Z.pow_succ_r by lia. pose proof (Z.div_mod n 10 ltac:(lia)). lia.
    + exfalso. assert (forall f m a, (String.length a <= String.length (print_digits f m a))%nat) as Hmono.
      { induction f as [|f IHf]; intros m a; cbn [print_digits]; [lia|]. destruct (_ <? _); [cbn; lia|].
        etransitivity; [|apply IHf]. cbn. lia. }
      pose proof (Hmono fuel (n / 10) (String d acc)). cbn [String.length] in *. unfold l in Hgt. lia.
Qed.

Lemma length_append a b : String.length (String.append a b) = (String.length a + String.length b)%nat.
Proof. induction a as [|c a IH]; cbn; [done|]. by rewrite IH. Qed.

Lemma substring_all m s : (String.length s <= m)%nat -> String.substring 0 m s = s.
Proof.
  revert m. induction s as [|c s IH]; intros [|m] H; cbn in *; try done; [lia|]. by rewrite IH by lia.
Qed.

(** The boot arguments.  The buffer is large enough for the arguments and any
    number of processors, so nothing is cut off, and the digits appended to
    the arguments are those of the number. *)
Lemma arm_bootargs (bootargs : string) (maxcpus : Z) :
  inw 32 maxcpus ->
  updated_bootargs bootargs maxcpus = String.append bootargs (String.append " maxcpus=" (print_u32 maxcpus)) /\
  read_digits (print_u32 maxcpus) 0 = maxcpus.
Proof.
  intros H. unfold print_u32. rewrite u32_small by done.
  assert (0 <= maxcpus < 10 ^ Z.of_nat 10) as Hr by (unfold inw in H; lia).
  destruct (print_digits_spec 10 maxcpus EmptyString Hr) as (H1 & _ & H3). split.
  - unfold updated_bootargs, print_u32. rewrite u32_small by done. apply substring_all.
    rewrite !length_append. unfold updated_bootargs_len, strlen, SIZEOF_UNSIGNED_INT. cbn [String.length] in *. lia.
  - rewrite (H3 ltac:(lia)). cbn [read_digits]. lia.
Qed.

(** * The plan of a boot *)

Section Booted.
Context {E : BootEnv}.

(** What a boot consists of, as a flat list: calls to make, and conditions that
    are looked at in between. *)
Inductive boot_step :=
| Do (c : boot_call)
| Need (b : bool).

(** Does the call [c], made after the calls [l], succeed? *)
Definition call_succeeds (l : list boot_call) (c : boot_call) : bool :=
  match c with
  | AppendString _ prop _ | AppendUint _ prop _ _ => fdt_appendprop l prop =? 0
  | GenerateVpci _ => fdt_generate_vpci_node l =? 0
  | LoadKernel name addr =>
      let '(err, entry) := vm_load_guest_kernel name addr in (err =? 0) && negb (entry =? 0)
  | LoadModule name addr =>
      let '(err, (a, _)) := vm_load_guest_module name addr in (err =? 0) && negb (a =? 0)
  | SetBootargs entry dtb => vcpu_set_bootargs entry dtb =? 0
  | _ => true
  end.

(** The steps are taken until one fails: the calls made after [l], and whether
    all succeeded. *)
Fixpoint run_plan (l : list boot_call) (plan : list boot_step) : list boot_call * bool :=
  match plan with
  | [] => ([], true)
  | Need b :: plan => if b then run_plan l plan else ([], false)
  | Do c :: plan =>
      if call_succeeds l c then
        let '(es, ok) := run_plan (l ++ [c]) plan in (c :: es, ok)
      else ([c], false)
  end.

(** The chosen node: where the kernel's output goes, and its arguments if there
    is memory to print them.  Without memory the variable [err] decides. *)
Definition chosen_plan (cfg : vm_config) (N : Z) (l : list boot_call) : list boot_step :=
  let this := fdt_add_subnode l "chosen" in
  let stdout := kernel_stdout cfg in
  [Do (AddSubnode "chosen")] ++
  (if 0 <? strlen stdout
   then [Do (AppendString this "stdout-path" stdout); Do (AppendString this "linux,stdout-path" stdout)]
   else []) ++
  (if calloc_ok (updated_bootargs_len (kernel_bootcmdline cfg))
   then [Do (AppendString this "bootargs" (updated_bootargs (kernel_bootcmdline cfg) N))]
   else if 0 <? strlen stdout then [] else [Need (indeterminate_err =? 0)]).
(** The initial RAM disk, and where it is in the generated tree. *)
Definition initrd_plan (cfg : vm_config) : list boot_step :=
  let size := snd (snd (vm_load_guest_module (file_initrd cfg) (initrd_addr cfg))) in
  let cells := fdt_address_cells (fdt_path_offset "/") in
  Do (LoadModule (file_initrd cfg) (initrd_addr cfg)) ::
  (if generate_dtb cfg
   then [Do (AppendUint (fdt_path_offset "/chosen") "linux,initrd-start" (initrd_addr cfg) cells);
         Do (AppendUint (fdt_path_offset "/chosen") "linux,initrd-end" (u64 (initrd_addr cfg + size)) cells)]
   else []).
(** The device tree: the generated one gets its PCI node, is packed and copied
    into the guest; the provided one is loaded. *)
Definition vpci_plan : list boot_step :=
  let gic := fdt_path_offset GIC_NODE_PATH in
  [Need (0 <=? gic); Need (negb (fdt_get_phandle gic =? 0)); Do (GenerateVpci (fdt_get_phandle gic))].
Definition dtb_plan (cfg : vm_config) : list boot_step :=
  if generate_dtb cfg then
    (if CONFIG_VM_PCI_SUPPORT then vpci_plan else []) ++
    [Do PackDtb; Do (RamMarkAllocated (dtb_addr cfg) DTB_BUFFER_SIZE); Do (RamTouch (dtb_addr cfg) DTB_BUFFER_SIZE)]
  else if provide_dtb cfg then [Do (LoadModule (file_dtb cfg) (dtb_addr cfg))]
  else [].
(** The address of the device tree the processor is given. *)
Definition boot_dtb (cfg : vm_config) : Z :=
  if generate_dtb cfg then dtb_addr cfg
  else if provide_dtb cfg then fst (snd (vm_load_guest_module (file_dtb cfg) (dtb_addr cfg)))
  else indeterminate_dtb.
(** A boot after the calls [l]. *)
Definition boot_plan (cfg : vm_config) (N : Z) (l : list boot_call) : list boot_step :=
  let kernel := LoadKernel (file_kernel cfg) (ram_base cfg) in
  [Do kernel] ++
  (if generate_dtb cfg then chosen_plan cfg N (l ++ [kernel]) else []) ++
  (if provide_initrd cfg then initrd_plan cfg else []) ++
  dtb_plan cfg ++
  [Do (SetBootargs (snd (vm_load_guest_kernel (file_kernel cfg) (ram_base cfg))) (boot_dtb cfg))].

(** A successful boot after the calls [l]: [es] is the whole plan and each call
    of it has succeeded. *)
Definition booted (cfg : vm_config) (N : Z) (l es : list boot_call) : Prop :=
  run_plan l (boot_plan cfg N l) = (es, true).

(** ** Pieces that follow a plan *)

Definition plan_calls (plan : list boot_step) : list boot_call :=
  flat_map (fun st => match st with Do c => [c] | Need _ => [] end) plan.

Lemma run_plan_all l plan es : run_plan l plan = (es, true) -> es = plan_calls plan.
Proof.
  revert l es. induction plan as [|[c|b] plan IH]; intros l es; cbn [run_plan].
  - by intros [= <-].
  - destruct (call_succeeds l c); [|done]. destruct (run_plan (l ++ [c]) plan) as [es' ok] eqn:Er.
    intros [= <- ->]. cbn. by rewrite (IH _ _ Er).
  - destruct b; [apply IH|done].
Qed.

Lemma run_plan_app l p1 p2 :
  run_plan l (p1 ++ p2) =
    let '(e1, ok1) := run_plan l p1 in
    if ok1 then let '(e2, ok2) := run_plan (l ++ e1) p2 in (e1 ++ e2, ok2) else (e1, false).
Proof.
  revert l. induction p1 as [|[c|b] p1 IH]; intros l; cbn [run_plan app].
  - rewrite app_nil_r. by destruct (run_plan l p2).
  - destruct (call_succeeds l c); [|done]. rewrite IH.
    destruct (run_plan (l ++ [c]) p1) as [e1 []]; [|done]. rewrite <-app_assoc. cbn [app].
    by destruct (run_plan (l ++ c :: e1) p2).
  - by destruct b.
Qed.

Definition log_calls (es : list boot_call) (s : BootState) : BootState := s <| boot_log := boot_log s ++ es |>.

Lemma log_calls_nil s : log_calls [] s = s.
Proof. unfold log_calls. rewrite app_nil_r. by destruct s. Qed.
Lemma log_calls_app e1 e2 s : log_calls e2 (log_calls e1 s) = log_calls (e1 ++ e2) s.
Proof. unfold log_calls. cbn. by rewrite <-app_assoc. Qed.

(** [m] makes the calls of the plan [p] and returns 0 if all succeed. *)
Definition follows (m : Boot Z) (p : list boot_step) (s : BootState) : Prop :=
  let '(es, ok) := run_plan (boot_log s) p in
  exists r, m s = Ok (r, log_calls es s) /\ (r =? 0) = ok.

Lemma follows_ret s : follows (mret 0) [] s.
Proof. exists 0. cbn. by rewrite log_calls_nil. Qed.

(** [err = m; if (err) return ..; k] *)
Lemma follows_check (m k : Boot Z) (e : Z -> Z) p q s :
  (forall r, r <> 0 -> e r <> 0) -> follows m p s ->
  (forall es, run_plan (boot_log s) p = (es, true) -> follows k q (log_calls es s)) ->
  follows (err ← m; if z2b err then mret (e err) else k) (p ++ q) s.
Proof.
  intros He Hm Hk. unfold follows in *. rewrite run_plan_app.
  destruct (run_plan (boot_log s) p) as [es ok]. destruct Hm as (r & Em & Hr).
  rewrite (bind_ok _ _ _ _ _ Em). unfold z2b. rewrite Hr. destruct ok; cbn [negb].
  - specialize (Hk es eq_refl). cbn [log_calls boot_log] in Hk. change (boot_log (log_calls es s)) with (boot_log s ++ es) in Hk.
    destruct (run_plan (boot_log s ++ es) q) as [e2 ok2]. by rewrite log_calls_app in Hk.
  - exists (e r). split; [done|]. apply Z.eqb_neq in Hr. by apply Z.eqb_neq, He.
Qed.

Lemma follows_check_m1 (m k : Boot Z) p q s :
  follows m p s -> (forall es, run_plan (boot_log s) p = (es, true) -> follows k q (log_calls es s)) ->
  follows (err ← m; if z2b err then mret (-1) else k) (p ++ q) s.
Proof. intros. by apply (follows_check _ _ (fun _ => -1)). Qed.
Lemma follows_check_err (m k : Boot Z) p q s :
  follows m p s -> (forall es, run_plan (boot_log s) p = (es, true) -> follows k q (log_calls es s)) ->
  follows (err ← m; if z2b err then mret err else k) (p ++ q) s.
Proof. intros. by apply (follows_check _ _ (fun r => r)). Qed.
(** The error of a piece turned into -1. *)
Lemma follows_m1 (m : Boot Z) p s :
  follows m p s -> follows (err ← m; if z2b err then mret (-1) else mret 0) p s.
Proof. intros Hm. rewrite <-(app_nil_r p). apply follows_check_m1; [done|]. intros. apply follows_ret. Qed.

(** One call: [c] is logged and [r] is its error. *)
Lemma follows_call (m : Boot Z) c r s :
  m s = Ok (r, log_calls [c] s) -> call_succeeds (boot_log s) c = (r =? 0) -> follows m [Do c] s.
Proof.
  intros Em Hc. unfold follows. cbn [run_plan]. rewrite Hc. destruct (r =? 0) eqn:E0; by exists r.
Qed.
Lemma follows_void c (k : Boot Z) q s :
  (forall l, call_succeeds l c = true) -> follows k q (log_calls [c] s) -> follows (call c;; k) (Do c :: q) s.
Proof.
  intros Hc Hk. unfold follows in *. cbn [run_plan]. rewrite Hc.
  change (boot_log (log_calls [c] s)) with (boot_log s ++ [c]) in Hk.
  destruct (run_plan (boot_log s ++ [c]) q) as [es ok]. by rewrite log_calls_app in Hk.
Qed.
Lemma follows_need (b : bool) (k : Boot Z) q s :
  (b = true -> follows k q s) -> follows (if b then k else mret (-1)) (Need b :: q) s.
Proof.
  destruct b; intros H; [by apply H|]. exists (-1). cbn. by rewrite log_calls_nil.
Qed.

Lemma follows_string node prop value s :
  follows (appendprop_string node prop value) [Do (AppendString node prop value)] s.
Proof. by eapply follows_call. Qed.
Lemma follows_uint node prop value cells s :
  follows (appendprop_uint node prop value cells) [Do (AppendUint node prop value cells)] s.
Proof. by eapply follows_call. Qed.
Lemma follows_two m1 m2 c1 c2 s :
  (forall s, follows m1 [Do c1] s) -> (forall s, follows m2 [Do c2] s) ->
  follows (err_chain [m1; m2]) [Do c1; Do c2] s.
Proof.
  intros H1 H2. cbn [err_chain]. apply (follows_check_err _ _ [Do c1] [Do c2]); [apply H1|intros].
  apply (follows_check_err _ _ [Do c2] []); [apply H2|intros; apply follows_ret].
Qed.

Lemma chosen_follows cfg N s :
  follows (fdt_generate_chosen_node (kernel_stdout cfg) (kernel_bootcmdline cfg) N)
    (chosen_plan cfg N (boot_log s)) s.
Proof.
  unfold fdt_generate_chosen_node, chosen_plan. cbv zeta. rewrite Z.gtb_ltb.
  set (this := fdt_add_subnode (boot_log s) "chosen").
  assert (forall (k : Z -> Boot Z) q, follows (k this) q (log_calls [AddSubnode "chosen"] s) ->
    follows (this ← add_subnode "chosen"; k this) ([Do (AddSubnode "chosen")] ++ q) s) as Hadd.
  { intros k q Hk. exact (follows_void (AddSubnode "chosen") (k this) q s (fun _ => eq_refl) Hk). }
  apply Hadd. clear Hadd. clearbody this. generalize (log_calls [AddSubnode "chosen"] s). clear s. intros s.
  assert (forall err q s, (if calloc_ok (updated_bootargs_len (kernel_bootcmdline cfg)) then
      q = [Do (AppendString this "bootargs" (updated_bootargs (kernel_bootcmdline cfg) N))]
      else (q = [] /\ err = 0) \/ q = [Need (err =? 0)]) ->
    follows (fdt_append_bootargs this (kernel_bootcmdline cfg) N err) q s) as Hargs.
  { intros err q s0 Hq. unfold fdt_append_bootargs.
    destruct (calloc_ok _); cbn [negb]; [rewrite Hq; apply follows_string|].
    destruct Hq as [[-> ->]| ->]; [apply follows_ret|].
    unfold follows. cbn [run_plan]. destruct (err =? 0) eqn:E0; exists err; by rewrite log_calls_nil. }
  destruct (0 <? strlen (kernel_stdout cfg)).
  - unfold follows. rewrite run_plan_app.
    pose proof (follows_two _ _ _ _ s (follows_string this "stdout-path" (kernel_stdout cfg))
                  (follows_string this "linux,stdout-path" (kernel_stdout cfg))) as H2.
    unfold follows in H2. destruct (run_plan (boot_log s) [_; _]) as [es ok]. destruct H2 as (r & E1 & Hr).
    rewrite (bind_ok _ _ _ _ _ E1). unfold z2b. rewrite Hr. destruct ok; cbn [negb]; [|by exists r].
    apply Z.eqb_eq in Hr as ->.
    set (q := if calloc_ok (updated_bootargs_len (kernel_bootcmdline cfg)) then _ else _).
    pose proof (Hargs 0 q (log_calls es s)) as H3. unfold follows in H3.
    change (boot_log (log_calls es s)) with (boot_log s ++ es) in H3.
    destruct (run_plan (boot_log s ++ es) q) as [e2 ok2]. rewrite <-log_calls_app. apply H3.
    unfold q. destruct (calloc_ok _); [done|by left].
  - apply Hargs. destruct (calloc_ok _); [done|by right].
Qed.

(** [if (!address || err) return -1;] *)
Lemma load_check (a err : Z) : ((a =? 0) || z2b err) = negb ((err =? 0) && negb (a =? 0)).
Proof. unfold z2b. by destruct (a =? 0), (err =? 0). Qed.

Lemma initrd_follows cfg s :
  follows (load_initrd cfg) (if provide_initrd cfg then initrd_plan cfg else []) s.
Proof.
  unfold load_initrd, initrd_plan. destruct (provide_initrd cfg); [|apply follows_ret]. cbv zeta.
  destruct (vm_load_guest_module (file_initrd cfg) (initrd_addr cfg)) as [err [a size]] eqn:El. cbn [snd].
  rewrite load_check. set (k := if generate_dtb cfg then _ else mret 0).
  set (q := if generate_dtb cfg then _ else []).
  assert (forall s, follows k q s) as Hk.
  { intros s0. unfold k, q. destruct (generate_dtb cfg); [|apply follows_ret].
    apply follows_m1, follows_two; intros; apply follows_uint. }
  unfold follows. cbn [run_plan call_succeeds]. rewrite El.
  destruct ((err =? 0) && negb (a =? 0)); cbn [negb]; [|by exists (-1)].
  specialize (Hk (log_calls [LoadModule (file_initrd cfg) (initrd_addr cfg)] s)). unfold follows in Hk.
  change (boot_log (log_calls ?e s)) with (boot_log s ++ e) in Hk.
  destruct (run_plan _ q) as [es ok]. by rewrite log_calls_app in Hk.
Qed.

Lemma finalize_follows cfg s :
  generate_dtb cfg = true ->
  follows (vm_dtb_finalize cfg) ((if CONFIG_VM_PCI_SUPPORT then vpci_plan else []) ++ [Do PackDtb]) s.
Proof.
  intros Hg. unfold vm_dtb_finalize. rewrite Hg.
  apply (follows_check_err (if CONFIG_VM_PCI_SUPPORT then _ else _) (call PackDtb;; mret 0)).
  - destruct CONFIG_VM_PCI_SUPPORT; [|apply follows_ret]. unfold vpci_plan. cbv zeta.
    set (gic := fdt_path_offset GIC_NODE_PATH). rewrite Z.ltb_antisym, (Z.eqb_sym 0).
    unfold follows. cbn [run_plan]. destruct (0 <=? gic); cbn [negb]; [|exists (-1); by rewrite log_calls_nil].
    destruct (fdt_get_phandle gic =? 0); cbn [negb]; [exists (-1); by rewrite log_calls_nil|].
    cbn [call_succeeds]. unfold call, modify, get, mbind, M_bind, z2b.
    destruct (fdt_generate_vpci_node (boot_log s) =? 0); cbn [negb]; eexists; done.
  - intros es _. apply follows_void; [done|apply follows_ret].
Qed.

(** [load_dtb] also gives the address. *)
Lemma dtb_follows cfg s :
  let '(es, ok) := run_plan (boot_log s) (dtb_plan cfg) in
  exists r a, load_dtb cfg s = Ok ((r, a), log_calls es s) /\ (r =? 0) = ok /\ (ok = true -> a = boot_dtb cfg).
Proof.
  unfold load_dtb, dtb_plan, boot_dtb. destruct (generate_dtb cfg) eqn:Hg.
  - pose proof (finalize_follows cfg s Hg) as Hf. unfold follows in Hf.
    change [Do PackDtb; ?b; ?c] with ([Do PackDtb] ++ [b; c]). rewrite app_assoc, run_plan_app.
    destruct (run_plan (boot_log s) _) as [es ok]. destruct Hf as (r & E1 & Hr).
    rewrite (bind_ok _ _ _ _ _ E1). unfold z2b. rewrite Hr. destruct ok; cbn [negb].
    + cbn [run_plan call_succeeds]. exists 0, (dtb_addr cfg). split; [|done].
      unfold call, modify, mbind, M_bind. cbn. unfold log_calls. cbn. by rewrite <-!app_assoc.
    + by eexists _, _.
  - destruct (provide_dtb cfg); [|exists 0, indeterminate_dtb; cbn; by rewrite log_calls_nil].
    cbn [run_plan call_succeeds].
    destruct (vm_load_guest_module (file_dtb cfg) (dtb_addr cfg)) as [err [a size]].
    unfold call, modify, mbind, M_bind. cbn [fst snd]. rewrite load_check.
    destruct ((err =? 0) && negb (a =? 0)); cbn [negb]; by eexists _, _.
Qed.

Lemma load_vm_images_follows cfg N s :
  follows (load_vm_images N cfg) (boot_plan cfg N (boot_log s)) s.
Proof.
  unfold load_vm_images, boot_plan. cbv zeta. set (kernel := LoadKernel _ _).
  destruct (vm_load_guest_kernel (file_kernel cfg) (ram_base cfg)) as [err entry] eqn:Ek. cbn [snd].
  rewrite load_check. set (s0 := log_calls [kernel] s).
  match goal with |- follows (_;; if _ then _ else ?k) ([_] ++ ?q) _ =>
    enough (follows k q s0) as Hk end.
  { unfold follows in *. cbn [run_plan app call_succeeds kernel]. rewrite Ek.
    destruct ((err =? 0) && negb (entry =? 0)); cbn [negb]; [|by exists (-1)].
    change (boot_log s0) with (boot_log s ++ [kernel]) in Hk.
    destruct (run_plan _ _) as [es ok]. unfold s0 in Hk. by rewrite log_calls_app in Hk. }
  change (boot_log s ++ [kernel]) with (boot_log s0). clearbody s0. clear s.
  apply follows_check_err.
  { destruct (generate_dtb cfg); [|apply follows_ret]. apply follows_m1, chosen_follows. }
  intros es1 _. generalize (log_calls es1 s0). clear es1 s0. intros s.
  apply follows_check_err; [apply initrd_follows|].
  intros es1 _. generalize (log_calls es1 s). clear es1 s. intros s.
  unfold follows. rewrite run_plan_app. pose proof (dtb_follows cfg s) as Hd.
  destruct (run_plan (boot_log s) (dtb_plan cfg)) as [es ok]. destruct Hd as (r & a & E1 & Hr & Ha).
  rewrite (bind_ok _ _ _ _ _ E1). unfold z2b. rewrite Hr. destruct ok; cbn [negb]; [|by exists r].
  rewrite (Ha eq_refl). cbn [run_plan call_succeeds]. unfold call, modify, mbind, M_bind.
  destruct (vcpu_set_bootargs entry (boot_dtb cfg) =? 0); cbn [negb]; eexists;
    (split; [unfold log_calls; cbn; rewrite <-app_assoc; reflexivity|done]).
Qed.

(** The processor is given its arguments last. *)
Definition is_set_bootargs (c : boot_call) : bool := match c with SetBootargs _ _ => true | _ => false end.
(** The processor has not been started with arguments. *)
Definition not_started (es : list boot_call) : Prop := forallb (fun c => negb (is_set_bootargs c)) es = true.

Lemma run_plan_last l p e d es :
  not_started (plan_calls p) -> run_plan l (p ++ [Do (SetBootargs e d)]) = (es, false) ->
  not_started es \/ exists es', es = es' ++ [SetBootargs e d] /\ not_started es' /\ vcpu_set_bootargs e d <> 0.
Proof.
  revert l es. induction p as [|[c|b] p IH]; intros l es Hp; cbn [run_plan app call_succeeds].
  - destruct (vcpu_set_bootargs e d =? 0) eqn:E0; intros [= <-]. right. exists []. split_and!; [done..|].
    by apply Z.eqb_neq.
  - cbn in Hp. apply andb_prop in Hp as [Hc Hp].
    assert (forall es', not_started es' -> not_started (c :: es')) as Hcons by (intros es' H; unfold not_started; cbn [forallb]; by rewrite Hc).
    destruct (call_succeeds l c); [|intros [= <-]; left; by apply Hcons].
    destruct (run_plan (l ++ [c]) (p ++ _)) as [es' ok] eqn:Er. intros [= <- ->].
    destruct (IH _ _ Hp Er) as [H|(es0 & -> & H & Hv)]; [left; by apply Hcons|].
    right. exists (c :: es0). split_and!; [done|by apply Hcons|done].
  - destruct b; [by apply IH|]. intros [= <-]. by left.
Qed.

Lemma plan_not_started p q :
  not_started (plan_calls p) -> not_started (plan_calls q) -> not_started (plan_calls (p ++ q)).
Proof. unfold not_started, plan_calls. intros H1 H2. by rewrite flat_map_app, forallb_app, H1, H2. Qed.

Lemma chosen_not_started cfg N l : not_started (plan_calls (chosen_plan cfg N l)).
Proof.
  unfold chosen_plan. cbv zeta. repeat apply plan_not_started; [done|destruct (0 <? _)|destruct (calloc_ok _)]; try done.
  by destruct (0 <? _).
Qed.
Lemma initrd_not_started cfg : not_started (plan_calls (initrd_plan cfg)).
Proof. unfold initrd_plan. cbv zeta. by destruct (generate_dtb cfg). Qed.
Lemma dtb_not_started cfg : not_started (plan_calls (dtb_plan cfg)).
Proof. unfold dtb_plan. destruct (generate_dtb cfg), CONFIG_VM_PCI_SUPPORT, (provide_dtb cfg); reflexivity. Qed.

Lemma boot_plan_last cfg N l : exists p entry,
  boot_plan cfg N l = p ++ [Do (SetBootargs entry (boot_dtb cfg))] /\ not_started (plan_calls p).
Proof.
  unfold boot_plan. cbv zeta. rewrite !app_assoc. eexists _, _. split; [reflexivity|].
  repeat apply plan_not_started; [done| | |apply dtb_not_started].
  - destruct (generate_dtb cfg); [apply chosen_not_started|done].
  - destruct (provide_initrd cfg); [apply initrd_not_started|done].
Qed.

(** C23 -- Booting the guest.  For every configuration and whatever fails,
    loading the images does exactly the following: it takes the steps of
    [boot_plan] in order until one fails.  The plan loads the kernel at the
    start of memory; describes in a generated tree where the output goes, the
    arguments and the place of the initial RAM disk, which it loads; gives the
    tree its PCI node, packs and copies it, or loads the provided one; and last
    gives the processor its entry point and the address of that tree.  The
    result is 0 when every step succeeded and -1 as soon as one fails, and then
    the processor has been given nothing, unless that was what failed.  Two
    steps are weaker than they should be: without memory for the arguments the
    boot goes on without them (if the variable [err] happens to be 0), and when
    a tree is neither generated nor provided the processor is given the
    indeterminate value of [dtb]. *)
Theorem arm_boot_images (cfg : vm_config) (N : Z) (s : BootState) :
  let '(es, ok) := run_plan (boot_log s) (boot_plan cfg N (boot_log s)) in
  exists r, load_vm_images N cfg s = Ok (r, s <| boot_log := boot_log s ++ es |>) /\
    (r = 0 <-> ok = true) /\
    (r = 0 -> es = plan_calls (boot_plan cfg N (boot_log s))) /\
    (r <> 0 -> not_started es \/
       exists es' entry dtb, es = es' ++ [SetBootargs entry dtb] /\ not_started es' /\ vcpu_set_bootargs entry dtb <> 0).
Proof.
  pose proof (load_vm_images_follows cfg N s) as H. unfold follows in H.
  destruct (run_plan (boot_log s) (boot_plan cfg N (boot_log s))) as [es ok] eqn:Er.
  destruct H as (r & E1 & Hr). exists r. split; [exact E1|].
  destruct ok; [apply Z.eqb_eq in Hr|apply Z.eqb_neq in Hr].
  - split_and!; [done|intros _; by eapply run_plan_all|done].
  - split_and!; [done|done|intros _].
    destruct (boot_plan_last cfg N (boot_log s)) as (p & entry & Ep & Hp). rewrite Ep in Er.
    destruct (run_plan_last _ _ _ _ _ Hp Er) as [H|(es' & H)]; [by left|right]. by eexists es', _, _.
Qed.

(** Without a device tree the address given to the processor is whatever is
    on the stack. *)
Lemma arm_boot_no_dtb cfg N s entry :
  generate_dtb cfg = false -> provide_dtb cfg = false -> provide_initrd cfg = false ->
  vm_load_guest_kernel (file_kernel cfg) (ram_base cfg) = (0, entry) -> entry <> 0 ->
  vcpu_set_bootargs entry indeterminate_dtb = 0 ->
  exists s', load_vm_images N cfg s = Ok (0, s') /\
    boot_log s' = boot_log s ++ [LoadKernel (file_kernel cfg) (ram_base cfg); SetBootargs entry indeterminate_dtb].
Proof.
  intros Hg Hp Hi Hk He Hs. unfold load_vm_images, load_initrd, load_dtb. rewrite Hk, Hg, Hp, Hi.
  unfold mbind, M_bind, call, modify. destruct (Z.eqb_spec entry 0); [done|]. cbn. rewrite Hs.
  eexists. split; [done|]. cbn. by rewrite <-app_assoc.
Qed.

(** Without memory for them the boot arguments are left out, and the boot
    succeeds all the same. *)
Lemma arm_boot_no_bootargs cfg N s :
  calloc_ok (updated_bootargs_len (kernel_bootcmdline cfg)) = false -> 0 < strlen (kernel_stdout cfg) ->
  (forall l p, fdt_appendprop l p = 0) ->
  wp (fdt_generate_chosen_node (kernel_stdout cfg) (kernel_bootcmdline cfg) N) (fun r s' => r = 0 /\
    forall node value, ~ In (AppendString node "bootargs" value) (drop (length (boot_log s)) (boot_log s'))) s.
Proof.
  intros Hc Hs Ha. pose proof (chosen_follows cfg N s) as H. unfold follows, chosen_plan in H. cbv zeta in H.
  rewrite Hc in H. apply Z.ltb_lt in Hs as Hs'. rewrite Hs' in H. cbn [run_plan app call_succeeds] in H. rewrite !Ha in H.
  cbn in H. destruct H as (r & E1 & Hr). apply Z.eqb_eq in Hr as ->. eapply wp_of_eq; [exact E1|]. split; [done|].
  cbn [log_calls boot_log]. intros node value. unfold log_calls. cbn. rewrite drop_app_length. cbn. intuition congruence.
Qed.

(** A file that cannot be read is taken as the base device tree: the error of
    [read] is a large unsigned length. *)
Lemma arm_dtb_read_error name s :
  0 <= open_file name -> read_file (open_file name) DTB_BUFFER_SIZE = -1 ->
  load_dtb_base name s = Ok (tt, s <| fdt_ori := Some GenDtbBaseBuf |>).
Proof.
  intros Ho Hr. unfold load_dtb_base. destruct (Z.ltb_spec (open_file name) 0); [lia|]. by rewrite Hr.
Qed.

(** ** The base device tree *)

(** What the generator is told to keep. *)
Definition selection : list boot_call :=
  let devices := weak camkes_dtb_get_plat_keep_devices in
  let subtrees := weak camkes_dtb_get_plat_keep_devices_and_subtree in
  KeepNodes (if decide (devices = []) then plat_keep_devices else devices) ::
  map KeepNodeSubtree (if decide (subtrees = []) then plat_keep_device_and_subtree else subtrees) ++
  map KeepNodeSubtreeDisable plat_keep_device_and_subtree_and_disable ++
  [KeepNodesAndDisable plat_keep_device_and_disable; KeepNodes (weak camkes_dtb_get_node_paths)].

Lemma for_each_calls (f : string -> boot_call) l s :
  for_each l (fun n => call (f n)) s = Ok (tt, s <| boot_log := boot_log s ++ map f l |>).
Proof.
  revert s. induction l as [|x l IH]; intros s; cbn [for_each map]; [rewrite app_nil_r; by destruct s|].
  rewrite (bind_ok _ _ s tt (s <| boot_log := boot_log s ++ [f x] |>)), IH by done. cbn. by rewrite <-app_assoc.
Qed.

Lemma select_run s : fdtgen_select_nodes s = Ok (tt, s <| boot_log := boot_log s ++ selection |>).
Proof.
  unfold fdtgen_select_nodes, selection. cbv zeta.
  set (ds := weak camkes_dtb_get_plat_keep_devices). set (ss := weak camkes_dtb_get_plat_keep_devices_and_subtree).
  set (ds' := if decide (ds = []) then plat_keep_devices else ds).
  set (ss' := if decide (ss = []) then plat_keep_device_and_subtree else ss).
  set (s1 := s <| boot_log := boot_log s ++ [KeepNodes ds'] |>).
  rewrite (bind_ok _ _ s tt s1) by (unfold s1, ds'; by destruct ds).
  set (s2 := s1 <| boot_log := boot_log s1 ++ map KeepNodeSubtree ss' |>).
  rewrite (bind_ok _ _ s1 tt s2) by (unfold s2, ss'; destruct ss; apply for_each_calls).
  rewrite (bind_ok _ _ s2 tt _ (for_each_calls _ _ s2)).
  set (s3 := s2 <| boot_log := boot_log s2 ++ map KeepNodeSubtreeDisable plat_keep_device_and_subtree_and_disable |>).
  rewrite (bind_ok _ _ s3 tt (s3 <| boot_log := boot_log s3 ++ [KeepNodesAndDisable plat_keep_device_and_disable] |>)) by done.
  unfold call, modify. do 2 f_equal. unfold s3, s2, s1. cbn. by rewrite <-!app_assoc.
Qed.

(** The base tree: the file of the configuration if it can be read, or what
    CAmkES provides. *)
Definition base_dtb (cfg : vm_config) : option dtb_source :=
  let camkes := if camkes_dtb_present then Some CamkesDtb else None in
  match file_dtb_base cfg with
  | Some name =>
      if (0 <? strlen name) && (0 <=? open_file name) && negb (u64 (read_file (open_file name) DTB_BUFFER_SIZE) =? 0)
      then Some GenDtbBaseBuf else camkes
  | None => camkes
  end.

(** The calls that describe the memory, in node [this]. *)
Definition memory_node (cfg : vm_config) (this : Z) : list boot_call :=
  [AddSubnode "memory"; AppendString this "device_type" "memory";
   AppendUint this "reg" (ram_base cfg) (fdt_address_cells (fdt_path_offset "/"));
   AppendUint this "reg" (ram_size cfg) (fdt_size_cells (fdt_path_offset "/"))].

Lemma memory_run cfg s :
  wp (fdt_generate_memory_node (ram_base cfg) (ram_size cfg)) (fun r s' => fdt_ori s' = fdt_ori s /\
    (r = 0 -> exists this, 0 <= this /\ boot_log s' = boot_log s ++ memory_node cfg this)) s.
Proof.
  unfold fdt_generate_memory_node, err_chain, appendprop_string, appendprop_uint, add_subnode, call.
  wp_run; (split; [done|]); intros Hr; try done;
    try match goal with
        | H : z2b ?x = true, H' : ?x = 0 |- _ => rewrite H' in H; discriminate H
        | H : (?x <? 0) = true, H' : ?x = 0 |- _ => rewrite H' in H; discriminate H
        end.
  all: exists (fdt_add_subnode (boot_log s) "memory"); (split; [by apply Z.ltb_ge|]); cbn; by rewrite <-!app_assoc.
Qed.

Lemma base_run cfg s :
  match file_dtb_base cfg with
  | Some name => if negb (strlen name =? 0) then load_dtb_base name else mret tt
  | None => mret tt
  end (s <| fdt_ori := if camkes_dtb_present then Some CamkesDtb else None |>)
  = Ok (tt, s <| fdt_ori := base_dtb cfg |>).
Proof.
  unfold base_dtb. destruct (file_dtb_base cfg) as [name|]; [|done].
  assert (0 <= strlen name) by (unfold strlen; lia).
  destruct (Z.eqb_spec (strlen name) 0) as [->|]; cbn [negb]; [done|].
  destruct (Z.ltb_spec 0 (strlen name)); [|lia]. cbn [andb]. unfold load_dtb_base.
  destruct (Z.ltb_spec (open_file name) 0), (Z.leb_spec 0 (open_file name)); try lia; cbn [andb]; [done|].
  pose proof (inw_u64 (read_file (open_file name) DTB_BUFFER_SIZE)) as Hr. unfold inw in Hr.
  destruct (Z.leb_spec (u64 (read_file (open_file name) DTB_BUFFER_SIZE)) 0),
    (Z.eqb_spec (u64 (read_file (open_file name) DTB_BUFFER_SIZE)) 0); try lia; done.
Qed.

(** The generated device tree.  Initialisation takes the base tree of the
    configuration; when a tree is to be generated and it succeeds, the
    generator was told to keep the devices of the system description (or the
    platform's own when it names none), was run on that base, and the memory
    of the guest has been described, in this order. *)
Lemma arm_dtb_init (cfg : vm_config) (s : BootState) :
  wp (vm_dtb_init cfg) (fun r s' => fdt_ori s' = base_dtb cfg /\
    (generate_dtb cfg = false -> r = 0 /\ boot_log s' = boot_log s) /\
    (generate_dtb cfg = true -> r = 0 -> exists this, 0 <= this /\
       boot_log s' = boot_log s ++ selection ++ [GenerateDtb (base_dtb cfg); FreeContext] ++ memory_node cfg this)) s.
Proof.
  unfold vm_dtb_init. apply wp_bind, wp_modify, wp_bind. eapply wp_of_eq; [apply base_run|].
  destruct (generate_dtb cfg); cbn [negb]; [|by apply wp_ret].
  apply wp_if; intros Hc; [by apply wp_ret|]. apply wp_bind. eapply wp_of_eq; [apply select_run|].
  unfold call. apply wp_bind, wp_get, wp_bind, wp_modify, wp_bind, wp_modify. apply wp_if; intros Hg; [by apply wp_ret|].
  apply wp_bind. eapply wp_mono; [apply memory_run|]. intros r s' [Hf Hm].
  apply wp_if; intros Hr; apply wp_ret; (split; [done|]); (split; [done|]); intros _ H0; [discriminate H0|]. clear H0.
  destruct (Hm (z2b_false _ Hr)) as (this & H0 & ->). exists this. split; [done|].
  change (((((boot_log s ++ selection) ++ [GenerateDtb (base_dtb cfg)]) ++ [FreeContext]) ++ memory_node cfg this)
    = boot_log s ++ selection ++ [GenerateDtb (base_dtb cfg)] ++ [FreeContext] ++ memory_node cfg this).
  by rewrite <-!app_assoc.
Qed.

(** ** A system where nothing fails *)

Record nothing_fails (cfg : vm_config) : Prop := {
  nf_context : fdtgen_new_context = true;
  nf_generate l : fdtgen_generate l = 0;
  nf_vpci_node l : fdt_generate_vpci_node l = 0;
  nf_vcpu_node l : fdt_generate_plat_vcpu_node l = 0;
  nf_subnode l name : 0 <= fdt_add_subnode l name;
  nf_appendprop l p : fdt_appendprop l p = 0;
  nf_calloc n : calloc_ok n = true;
  nf_gic : 0 <= fdt_path_offset GIC_NODE_PATH;
  nf_phandle : fdt_get_phandle (fdt_path_offset GIC_NODE_PATH) <> 0;
  nf_vpci : vm_install_vpci = 0;
  nf_kernel : exists entry, vm_load_guest_kernel (file_kernel cfg) (ram_base cfg) = (0, entry) /\ entry <> 0;
  nf_initrd : provide_initrd cfg = true ->
    exists a size, vm_load_guest_module (file_initrd cfg) (initrd_addr cfg) = (0, (a, size)) /\ a <> 0;
  nf_dtb_image : generate_dtb cfg = false ->
    exists a size, vm_load_guest_module (file_dtb cfg) (dtb_addr cfg) = (0, (a, size)) /\ a <> 0;
  nf_bootargs entry dtb : vcpu_set_bootargs entry dtb = 0;
  nf_dtb : generate_dtb cfg || provide_dtb cfg = true }.

Section NothingFails.
Context (cfg : vm_config) (NF : nothing_fails cfg).

Lemma add_subnode_ok name s : wp (add_subnode name) (fun r _ => 0 <= r) s.
Proof using NF. unfold add_subnode, call. wp_run. by apply nf_subnode with cfg. Qed.

Lemma err_chain_ok (ms : list (Boot Z)) s :
  Forall (fun m => forall s, wp m (fun r _ => r = 0) s) ms -> wp (err_chain ms) (fun r _ => r = 0) s.
Proof using Type.
  intros H. revert s. induction H as [|m ms Hm _ IH]; intros s; cbn [err_chain]; [by apply wp_ret|].
  apply wp_bind. eapply wp_mono; [apply Hm|]. intros r s1 ->. apply IH.
Qed.
Lemma append_ok node p v s : wp (appendprop_string node p v) (fun r _ => r = 0) s.
Proof using NF. unfold appendprop_string, call. wp_run. by apply nf_appendprop with cfg. Qed.
Lemma append_uint_ok node p v c s : wp (appendprop_uint node p v c) (fun r _ => r = 0) s.
Proof using NF. unfold appendprop_uint, call. wp_run. by apply nf_appendprop with cfg. Qed.
Ltac appends :=
  apply err_chain_ok; repeat (apply List.Forall_cons; [intros ?; first [by apply append_ok|by apply append_uint_ok]|]); by constructor.

(** A check that succeeds. *)
Lemma wp_check {T} (m : Boot Z) (k : Boot T) (r0 : T) (Q : T -> BootState -> Prop) s :
  wp m (fun r _ => r = 0) s -> (forall s, wp k Q s) -> wp (err ← m; if z2b err then mret r0 else k) Q s.
Proof using Type. intros Hm Hk. apply wp_bind. eapply wp_mono; [exact Hm|]. intros r s1 ->. apply Hk. Qed.
Lemma wp_check_err (m k : Boot Z) (Q : Z -> BootState -> Prop) s :
  wp m (fun r _ => r = 0) s -> (forall s, wp k Q s) -> wp (err ← m; if z2b err then mret err else k) Q s.
Proof using Type. intros Hm Hk. apply wp_bind. eapply wp_mono; [exact Hm|]. intros r s1 ->. apply Hk. Qed.

Lemma vm_dtb_init_ok s : wp (vm_dtb_init cfg) (fun r _ => r = 0) s.
Proof using NF.
  unfold vm_dtb_init. apply wp_bind, wp_modify, wp_bind. eapply wp_of_eq; [apply base_run|].
  destruct (generate_dtb cfg); cbn [negb]; [|by apply wp_ret]. rewrite (nf_context cfg NF). cbn [negb].
  apply wp_bind. eapply wp_of_eq; [apply select_run|]. unfold call.
  apply wp_bind, wp_get, wp_bind, wp_modify, wp_bind, wp_modify. rewrite (nf_generate cfg NF). cbn [z2b negb Z.eqb].
  apply wp_check; [|intros; by apply wp_ret]. unfold fdt_generate_memory_node.
  apply wp_bind. eapply wp_mono; [apply add_subnode_ok|]. intros this s1 Ht.
  cbn in Ht. apply wp_if; intros Hb; [apply Z.ltb_lt in Hb; lia|appends].
Qed.

Lemma vm_dtb_finalize_ok s : generate_dtb cfg = true -> wp (vm_dtb_finalize cfg) (fun r _ => r = 0) s.
Proof using NF.
  intros Hg. unfold vm_dtb_finalize. rewrite Hg. cbn [assertC]. apply wp_bind, wp_ret, wp_check_err.
  - destruct CONFIG_VM_PCI_SUPPORT; [|by apply wp_ret]. cbv zeta. pose proof (nf_gic cfg NF).
    apply wp_if; intros Hb; [apply Z.ltb_lt in Hb; lia|].
    apply wp_if; intros Hb'; [apply Z.eqb_eq in Hb'; by destruct (nf_phandle cfg NF)|].
    unfold call. apply wp_bind, wp_get, wp_bind, wp_modify. by rewrite (nf_vpci_node cfg NF).
  - intros s1. unfold call. wp_run. done.
Qed.

Lemma load_vm_images_ok N s : wp (load_vm_images N cfg) (fun r _ => r = 0) s.
Proof using NF.
  unfold load_vm_images. unfold call at 1. apply wp_bind, wp_modify. destruct (nf_kernel cfg NF) as (entry & -> & He).
  destruct (Z.eqb_spec entry 0) as [|_]; [done|]. cbn [orb z2b negb Z.eqb]. apply wp_check_err.
  { destruct (generate_dtb cfg); [|by apply wp_ret]. apply wp_check; [|intros; by apply wp_ret].
    unfold fdt_generate_chosen_node, fdt_append_bootargs. rewrite (nf_calloc cfg NF). cbn [negb].
    apply wp_bind. eapply wp_mono; [apply add_subnode_ok|]. intros this s1 _.
    apply wp_if; intros _; [|apply append_ok]. apply wp_check_err; [appends|intros; apply append_ok]. }
  intros s1. apply wp_check_err.
  { unfold load_initrd. destruct (provide_initrd cfg) eqn:Hi; [|by apply wp_ret]. unfold call. apply wp_bind, wp_modify.
    destruct (nf_initrd cfg NF Hi) as (a & size & -> & Ha).
    destruct (Z.eqb_spec a 0) as [|_]; [done|]. cbn [orb z2b negb Z.eqb].
    destruct (generate_dtb cfg); [|by apply wp_ret]. apply wp_check; [|intros; by apply wp_ret].
    unfold fdt_append_chosen_node_with_initrd_info. appends. }
  intros s2. apply wp_bind. eapply wp_mono with (Q := fun r _ => fst r = 0).
  - unfold load_dtb. destruct (generate_dtb cfg) eqn:Hg.
    + apply wp_check; [by apply vm_dtb_finalize_ok|]. intros. unfold call. by wp_run.
    + pose proof (nf_dtb cfg NF) as Hd. rewrite Hg in Hd. cbn in Hd. rewrite Hd. unfold call. apply wp_bind, wp_modify.
      destruct (nf_dtb_image cfg NF Hg) as (a & size & -> & Ha).
      destruct (Z.eqb_spec a 0) as [|_]; [done|]. by apply wp_ret.
  - intros [r dtb] s3 Hr. cbn in Hr. rewrite Hr. cbn [z2b negb Z.eqb]. unfold call. apply wp_bind, wp_modify. by rewrite (nf_bootargs cfg NF).
Qed.

Lemma install_vpci_ok s : wp install_vpci (fun r _ => r = 0) s.
Proof using NF.
  unfold install_vpci. destruct CONFIG_VM_PCI_SUPPORT; [|by apply wp_ret]. unfold call. apply wp_bind, wp_modify.
  by rewrite (nf_vpci cfg NF).
Qed.

End NothingFails.

End Booted.

(** * Witnesses *)

(** A system where everything succeeds, with files [linux] and [initrd]. *)
#[local] Instance boot_demo : BootEnv := {|
  fdt_add_subnode l name := 64;
  fdt_appendprop l p := 0;
  fdt_path_offset p := 32;
  fdt_address_cells n := 2;
  fdt_size_cells n := 1;
  fdt_get_phandle n := 7;
  fdtgen_new_context := true;
  fdtgen_generate l := 0;
  fdt_generate_vpci_node l := 0;
  fdt_generate_plat_vcpu_node l := 0;
  calloc_ok n := true;
  indeterminate_err := 77;
  indeterminate_dtb := 0x1234;
  camkes_dtb_present := true;
  open_file name := 3;
  read_file fd n := 1000;
  camkes_dtb_get_plat_keep_devices := None;
  camkes_dtb_get_plat_keep_devices_and_subtree := Some ["/gic"%string];
  camkes_dtb_get_node_paths := None;
  plat_keep_devices := ["/timer"%string];
  plat_keep_device_and_subtree := [];
  plat_keep_device_and_subtree_and_disable := [];
  plat_keep_device_and_disable := [];
  GIC_NODE_PATH := "/gic";
  CONFIG_VM_PCI_SUPPORT := true;
  vm_install_vpci := 0;
  vmm_modules := ["init_ram"%string];
  vm_load_guest_kernel name addr := (0, addr + 0x8000);
  vm_load_guest_module name addr := (0, (addr, 0x1000));
  vcpu_set_bootargs e d := 0 |}.

Definition demo_cfg : vm_config :=
  mkVmConfig 0x40000000 0x10000000 0x4F000000 0x4D000000 "linux" "initrd" "linux-dtb" (Some "base.dtb"%string)
    "/pl011" "console=ttyAMA0" true true false.

Lemma arm_bootargs_witness :
  updated_bootargs "console=ttyAMA0" 4 = String.append "console=ttyAMA0" (String.append " maxcpus=" (print_u32 4)) /\
  read_digits (print_u32 4) 0 = 4.
Proof. apply (arm_bootargs "console=ttyAMA0" 4). split; [lia|reflexivity]. Defined.

(** The demonstration boots: the whole plan succeeds. *)
Lemma demo_booted :
  snd (run_plan [] (boot_plan demo_cfg 4 [])) = true /\
  length (fst (run_plan [] (boot_plan demo_cfg 4 []))) = 13%nat.
Proof. vm_compute. by split. Qed.

Lemma demo_boots : match load_vm_images 4 demo_cfg (mkBoot None []) with Ok (r, _) => r = 0 | _ => False end.
Proof. vm_compute. reflexivity. Qed.
