(* ===== verification/Platforms.v ===== *)
(** The platforms the ARM VMM is configured for (components/VM_Arm/plat_include:
    a [plat/vmlinux.h] for each): the names of the interrupts, those that are
    passed through to the guest, the one the cross-VM connections use, and the
    nodes of the host's device tree that the guest is given.  The theorems are
    about what the start-up code of ArmBoot and ArmEvents makes of them. *)

From Stdlib Require Import String.
From stdpp Require Import strings.
From S2P Require Import Prelude ArmEvents ArmBoot.

(** * Data *)

Open Scope string_scope.

(** C's rule for the values of an enumeration. *)
Fixpoint enum_values (next : Z) (es : list (string * option Z)) : list (string * Z) :=
  match es with
  | [] => []
  | (name, v) :: es => let v := default next v in (name, v) :: enum_values (v + 1) es
  end.
(** The value of a name. *)
Definition irq (interrupts : list (string * Z)) (name : string) : Z :=
  match list_find (fun e => fst e = name) interrupts with Some (_, (_, v)) => v | None => 0 end.

Record platform := mkPlatform {
  interrupts : list (string * Z);
  pt_irqs : list Z;
  free_irqs : list Z;
  gic_node_path : string;
  keep_devices : list string;
  keep_and_disable : list string;
  keep_and_subtree : list string;
  keep_and_subtree_and_disable : list string }.

(** ** tk1 *)

Definition tk1_interrupts : list (string * Z) := [
  ("INTERRUPT_VTIMER", 27); ("INTERRUPT_TMR1", 32); ("INTERRUPT_TMR2", 33); ("INTERRUPT_RTC", 34);
  ("INTERRUPT_CEC", 35); ("INTERRUPT_SHR_SEM_INBOX_FULL", 36); ("INTERRUPT_SHR_SEM_INBOX_EMPTY", 37);
  ("INTERRUPT_SHR_SEM_OUTBOX_FULL", 38); ("INTERRUPT_SHR_SEM_OUTBOX_EMPTY", 39); ("INTERRUPT_VDE_UCQ", 40);
  ("INTERRUPT_VDE_SYNC_TOKEN", 41); ("INTERRUPT_VDE_BSEV", 42); ("INTERRUPT_VDE_BSEA", 43);
  ("INTERRUPT_VDE_SXE", 44); ("INTERRUPT_SATA_RX_STAT", 45); ("INTERRUPT_SDMMC1", 46);
  ("INTERRUPT_SDMMC2", 47); ("INTERRUPT_VDE", 49); ("INTERRUPT_AVP_UCQ", 50); ("INTERRUPT_SDMMC3", 51);
  ("INTERRUPT_USB", 52); ("INTERRUPT_USB2", 53); ("INTERRUPT_SATA_CTL", 55); ("INTERRUPT_VCP", 57);
  ("INTERRUPT_APB_DMA_CPU", 58); ("INTERRUPT_AHB_DMA_CPU", 59); ("INTERRUPT_ARB_SEM_GNT_COP", 60);
  ("INTERRUPT_ARB_SEM_GNT_CPU", 61); ("INTERRUPT_OWR", 62); ("INTERRUPT_SDMMC4", 63);
  ("INTERRUPT_GPIO1", 64); ("INTERRUPT_GPIO2", 65); ("INTERRUPT_GPIO3", 66); ("INTERRUPT_GPIO4", 67);
  ("INTERRUPT_UARTA", 68); ("INTERRUPT_UARTB", 69); ("INTERRUPT_I2C", 70); ("INTERRUPT_USB3_HOST", 71);
  ("INTERRUPT_USB3_HOST_SMI", 72); ("INTERRUPT_TMR3", 73); ("INTERRUPT_TMR4", 74);
  ("INTERRUPT_USB3_HOST_PME", 75); ("INTERRUPT_USB3_DEV_HOST", 76); ("INTERRUPT_ACTMON", 77);
  ("INTERRUPT_UARTC", 78); ("INTERRUPT_HSI", 79); ("INTERRUPT_THERMAL", 80); ("INTERRUPT_XUSB_PADCTL", 81);
  ("INTERRUPT_TSEC", 82); ("INTERRUPT_EDP", 83); ("INTERRUPT_VFIR", 84); ("INTERRUPT_I2C5", 85);
  ("INTERRUPT_STAT_MON", 86); ("INTERRUPT_GPIO5", 87); ("INTERRUPT_USB3_DEV_SMI", 88);
  ("INTERRUPT_USB3_DEV_PME", 89); ("INTERRUPT_SE", 90); ("INTERRUPT_SPI1", 91);
  ("INTERRUPT_APB_DMA_COP", 92); ("INTERRUPT_AHB_DMA_COP", 93); ("INTERRUPT_CLDVFS", 94);
  ("INTERRUPT_I2C6", 95); ("INTERRUPT_HOST1X_SYNCPT_COP", 96); ("INTERRUPT_HOST1X_SYNCPT_CPU", 97);
  ("INTERRUPT_HOST1X_GEN_COP", 98); ("INTERRUPT_HOST1X_GEN_CPU", 99); ("INTERRUPT_MSENC", 100);
  ("INTERRUPT_VI", 101); ("INTERRUPT_ISPB", 102); ("INTERRUPT_ISP", 103); ("INTERRUPT_VIC", 104);
  ("INTERRUPT_DISPLAY", 105); ("INTERRUPT_DISPLAYB", 106); ("INTERRUPT_HDMI", 107); ("INTERRUPT_SOR", 108);
  ("INTERRUPT_EMC", 110); ("INTERRUPT_SPI6", 111); ("INTERRUPT_HDA", 113); ("INTERRUPT_SPI2", 114);
  ("INTERRUPT_SPI3", 115); ("INTERRUPT_I2C2", 116); ("INTERRUPT_PMU_EXT", 118); ("INTERRUPT_GPIO6", 119);
  ("INTERRUPT_GPIO7", 121); ("INTERRUPT_UARTD", 122); ("INTERRUPT_I2C3", 124); ("INTERRUPT_SW", 127);
  ("INTERRUPT_SNOR", 128); ("INTERRUPT_USB3", 129); ("INTERRUPT_PCIE_INT", 130); ("INTERRUPT_PCIE_MSI", 131);
  ("INTERRUPT_PCIE_WAKE", 132); ("INTERRUPT_AVP_CACHE", 133); ("INTERRUPT_AUDIO_CLUSTER", 135);
  ("INTERRUPT_APB_DMA_CH0", 136); ("INTERRUPT_APB_DMA_CH1", 137); ("INTERRUPT_APB_DMA_CH2", 138);
  ("INTERRUPT_APB_DMA_CH3", 139); ("INTERRUPT_APB_DMA_CH4", 140); ("INTERRUPT_APB_DMA_CH5", 141);
  ("INTERRUPT_APB_DMA_CH6", 142); ("INTERRUPT_APB_DMA_CH7", 143); ("INTERRUPT_APB_DMA_CH8", 144);
  ("INTERRUPT_APB_DMA_CH9", 145); ("INTERRUPT_APB_DMA_CH10", 146); ("INTERRUPT_APB_DMA_CH11", 147);
  ("INTERRUPT_APB_DMA_CH12", 148); ("INTERRUPT_APB_DMA_CH13", 149); ("INTERRUPT_APB_DMA_CH14", 150);
  ("INTERRUPT_APB_DMA_CH15", 151); ("INTERRUPT_I2C4", 152); ("INTERRUPT_TMR5", 153);
  ("INTERRUPT_HIER_GROUP1_COP", 154); ("INTERRUPT_WDT_CPU", 155); ("INTERRUPT_WDT_AVP", 156);
  ("INTERRUPT_GPIO8", 157); ("INTERRUPT_CAR", 158); ("INTERRUPT_HIER_GROUP1_CPU", 159);
  ("INTERRUPT_APB_DMA_CH16", 160); ("INTERRUPT_APB_DMA_CH17", 161); ("INTERRUPT_APB_DMA_CH18", 162);
  ("INTERRUPT_APB_DMA_CH19", 163); ("INTERRUPT_APB_DMA_CH20", 164); ("INTERRUPT_APB_DMA_CH21", 165);
  ("INTERRUPT_APB_DMA_CH22", 166); ("INTERRUPT_APB_DMA_CH23", 167); ("INTERRUPT_APB_DMA_CH24", 168);
  ("INTERRUPT_APB_DMA_CH25", 169); ("INTERRUPT_APB_DMA_CH26", 170); ("INTERRUPT_APB_DMA_CH27", 171);
  ("INTERRUPT_APB_DMA_CH28", 172); ("INTERRUPT_APB_DMA_CH29", 173); ("INTERRUPT_APB_DMA_CH30", 174);
  ("INTERRUPT_APB_DMA_CH31", 175); ("INTERRUPT_CPU0_PMU", 176); ("INTERRUPT_CPU1_PMU", 177);
  ("INTERRUPT_CPU2_PMU", 178); ("INTERRUPT_CPU3_PMU", 179); ("INTERRUPT_SDMMC1_SYS", 180);
  ("INTERRUPT_SDMMC2_SYS", 181); ("INTERRUPT_SDMMC3_SYS", 182); ("INTERRUPT_SDMMC4_SYS", 183);
  ("INTERRUPT_TMR6", 184); ("INTERRUPT_TMR7", 185); ("INTERRUPT_TMR8", 186); ("INTERRUPT_TMR9", 187);
  ("INTERRUPT_TMR0", 188); ("INTERRUPT_GPU", 189); ("INTERRUPT_GPU_NONSTALL", 190); ("ARDPAUX", 191)].

Definition tk1_GIC_NODE_PATH : string := "/interrupt-controller@50041000".

Definition tk1_linux_pt_irqs : list Z := [irq tk1_interrupts "INTERRUPT_SDMMC4"; irq tk1_interrupts "INTERRUPT_UARTD"].
Definition tk1_free_plat_interrupts : list Z := [-1].
Definition tk1_plat_keep_devices (TK1INSECURE : bool) : list string := [
  tk1_GIC_NODE_PATH; "/clock@60006000"; "/gpio@6000d000"; "/apbmisc@70000800"; "/pinmux@70000868";
  "/serial@70006300"; "/sdhci@700b0600"; "/usb-phy@7d004000"; "/usb-phy@7d008000"; "/pmu"; "/timer";
  "/aliases"]
  ++ (if TK1INSECURE then [
  "/timer@60005000"; "/actmon@6000c800"; "/dma@60020000"; "/rtc@7000e000"; "/fuse@7000f800"; "/emc@7001b000";
  "/sata@70020000"; "/hda@70030000"; "/ahub@70300000"]
  else [
]).
Definition tk1_plat_keep_device_and_disable (TK1INSECURE : bool) : list string := [
  "/gpu@0,57000000"; "/flow-controller@60007000"; "/serial@70006000"; "/serial@70006040"; "/serial@70006200";
  "/pwm@7000a000"; "/i2c@7000c000"; "/i2c@7000c400"; "/i2c@7000c500"; "/i2c@7000c700"; "/i2c@7000d000";
  "/i2c@7000d000/pmic@40"; "/i2c@7000d100"; "/spi@7000d400"; "/spi@7000d600"; "/spi@7000d800";
  "/spi@7000da00"; "/spi@7000dc00"; "/spi@7000de00"; "/pmc@7000e400"; "/memory-controller@70019000";
  "/padctl@7009f000"; "/sdhci@700b0000"; "/sdhci@700b0200"; "/sdhci@700b0400"; "/clock@70110000";
  "/thermal-sensor@700e2000"; "/usb-phy@7d000000"; "/sound"]
  ++ (if TK1INSECURE then [
]
  else [
  "/timer@60005000"; "/actmon@6000c800"; "/dma@60020000"; "/rtc@7000e000"; "/fuse@7000f800"; "/emc@7001b000";
  "/sata@70020000"; "/hda@70030000"; "/ahub@70300000"]).
Definition tk1_plat_keep_device_and_subtree (TK1INSECURE : bool) : list string := [
  "/thermal-zones"; "/clocks"; "/gpio-keys"; "/regulators"; "/spi@7000da00"; "/pmc@7000e400"]
  ++ (if TK1INSECURE then [
  "/host1x@50000000"; "/i2c@7000c000"; "/i2c@7000d000"; "/padctl@7009f000"]
  else [
]).
Definition tk1_plat_keep_device_and_subtree_and_disable (TK1INSECURE : bool) : list string := [
  "/pcie@1003000"]
  ++ (if TK1INSECURE then [
]
  else [
  "/host1x@50000000"; "/i2c@7000c000"; "/i2c@7000d000"; "/padctl@7009f000"]).
Definition tk1 (TK1INSECURE : bool) : platform := {|
  interrupts := tk1_interrupts;
  pt_irqs := tk1_linux_pt_irqs;
  free_irqs := tk1_free_plat_interrupts;
  gic_node_path := tk1_GIC_NODE_PATH;
  keep_devices := tk1_plat_keep_devices TK1INSECURE;
  keep_and_disable := tk1_plat_keep_device_and_disable TK1INSECURE;
  keep_and_subtree := tk1_plat_keep_device_and_subtree TK1INSECURE;
  keep_and_subtree_and_disable := tk1_plat_keep_device_and_subtree_and_disable TK1INSECURE |}.

(** ** tx1 *)

Definition tx1_IRQConstants : list (string * option Z) := [
  ("INTERRUPT_VTIMER", Some 27); ("INTERRUPT_PPI_15", Some 31); ("INTERRUPT_TMR1", Some 32);
  ("INTERRUPT_TMR2", Some 33); ("INTERRUPT_RTC", Some 34); ("INTERRUPT_CEC", Some 35);
  ("INTERRUPT_SHR_SEM_INBOX_FULL", Some 36); ("INTERRUPT_SHR_SEM_INBOX_EMPTY", Some 37);
  ("INTERRUPT_SHR_SEM_OUTBOX_FULL", Some 38); ("INTERRUPT_SHR_SEM_OUTBOX_EMPTY", Some 39);
  ("INTERRUPT_NVJPEG", Some 40); ("INTERRUPT_NVDEC", Some 41); ("INTERRUPT_QUAD_SPI", Some 42);
  ("INTERRUPT_DPAUX_INT1", Some 43); ("INTERRUPT_SATA_RX_STAT", Some 45); ("INTERRUPT_SDMMC1", Some 46);
  ("INTERRUPT_SDMMC2", Some 47); ("INTERRUPT_VGPIO_INT", Some 48); ("INTERRUPT_VII12C_INT", Some 49);
  ("INTERRUPT_SDMMC3", Some 51); ("INTERRUPT_USB", Some 52); ("INTERRUPT_USB2", Some 53);
  ("INTERRUPT_SATA_CTL", Some 55); ("INTERRUPT_PMC_INT", Some 56); ("INTERRUPT_FC_INT", Some 57);
  ("INTERRUPT_APB_DMA_CPU", Some 58); ("INTERRUPT_ARB_SEM_GNT_COP", Some 60);
  ("INTERRUPT_ARB_SEM_GNT_CPU", Some 61); ("INTERRUPT_SDMMC4", Some 63); ("INTERRUPT_GPIO1", Some 64);
  ("INTERRUPT_GPIO2", Some 65); ("INTERRUPT_GPIO3", Some 66); ("INTERRUPT_GPIO4", Some 67);
  ("INTERRUPT_UARTA", Some 68); ("INTERRUPT_UARTB", Some 69); ("INTERRUPT_I2C", Some 70);
  ("INTERRUPT_USB3_HOST_INT", Some 71); ("INTERRUPT_USB3_HOST_SMI", Some 72); ("INTERRUPT_TMR3", Some 73);
  ("INTERRUPT_TMR4", Some 74); ("INTERRUPT_USB3_HOST_PME", Some 75); ("INTERRUPT_USB3_DEV_HOST", Some 76);
  ("INTERRUPT_ACTMON", Some 77); ("INTERRUPT_UARTC", Some 78); ("INTERRUPT_THERMAL", Some 80);
  ("INTERRUPT_XUSB_PADCTL", Some 81); ("INTERRUPT_TSEC", Some 82); ("INTERRUPT_EDP", Some 83);
  ("INTERRUPT_I2C5", Some 85); ("INTERRUPT_GPIO5", Some 87); ("INTERRUPT_USB3_DEV_SMI", Some 88);
  ("INTERRUPT_USB3_DEV_PME", Some 89); ("INTERRUPT_SE", Some 90); ("INTERRUPT_SPI1", Some 91);
  ("INTERRUPT_APB_DMA_COP", Some 92); ("INTERRUPT_CLDVFS", Some 94); ("INTERRUPT_I2C6", Some 95);
  ("INTERRUPT_HOST1X_SYNCPT_COP", Some 96); ("INTERRUPT_HOST1X_SYNCPT_CPU", Some 97);
  ("INTERRUPT_HOST1X_GEN_COP", Some 98); ("INTERRUPT_HOST1X_GEN_CPU", Some 99);
  ("INTERRUPT_NVENC", Some 100); ("INTERRUPT_VI", Some 101); ("INTERRUPT_ISPB", Some 102);
  ("INTERRUPT_ISP", Some 103); ("INTERRUPT_VIC", Some 104); ("INTERRUPT_DISPLAY", Some 105);
  ("INTERRUPT_DISPLAYB", Some 106); ("INTERRUPT_SOR1", Some 107); ("INTERRUPT_SOR", Some 108);
  ("INTERRUPT_MC", Some 109); ("INTERRUPT_EMC", Some 110); ("INTERRUPT_TSECB", Some 112);
  ("INTERRUPT_HDA", Some 113); ("INTERRUPT_SPI2", Some 114); ("INTERRUPT_SPI3", Some 115);
  ("INTERRUPT_I2C2", Some 116); ("INTERRUPT_PMU_EXT", Some 118); ("INTERRUPT_GPIO6", Some 119);
  ("INTERRUPT_GPIO7", Some 121); ("INTERRUPT_UARTD", Some 122); ("INTERRUPT_I2C3", Some 124);
  ("INTERRUPT_SPI4", Some 125); ("INTERRUPT_DTV", Some 128); ("INTERRUPT_PCIE_INT", Some 130);
  ("INTERRUPT_PCIE_MSI", Some 131); ("INTERRUPT_AVP_CACHE", Some 133); ("INTERRUPT_APE_INT1", Some 134);
  ("INTERRUPT_APE_INT0", Some 135); ("INTERRUPT_APB_DMA_CH0", Some 136); ("INTERRUPT_APB_DMA_CH1", Some 137);
  ("INTERRUPT_APB_DMA_CH2", Some 138); ("INTERRUPT_APB_DMA_CH3", Some 139);
  ("INTERRUPT_APB_DMA_CH4", Some 140); ("INTERRUPT_APB_DMA_CH5", Some 141);
  ("INTERRUPT_APB_DMA_CH6", Some 142); ("INTERRUPT_APB_DMA_CH7", Some 143);
  ("INTERRUPT_APB_DMA_CH8", Some 144); ("INTERRUPT_APB_DMA_CH9", Some 145);
  ("INTERRUPT_APB_DMA_CH10", Some 146); ("INTERRUPT_APB_DMA_CH11", Some 147);
  ("INTERRUPT_APB_DMA_CH12", Some 148); ("INTERRUPT_APB_DMA_CH13", Some 149);
  ("INTERRUPT_APB_DMA_CH14", Some 150); ("INTERRUPT_APB_DMA_CH15", Some 151); ("INTERRUPT_I2C4", Some 152);
  ("INTERRUPT_TMR5", Some 153); ("INTERRUPT_WDT_CPU", Some 155); ("INTERRUPT_WDT_AVP", Some 156);
  ("INTERRUPT_GPIO8", Some 157); ("INTERRUPT_CAR", Some 158); ("INTERRUPT_APB_DMA_CH16", Some 160);
  ("INTERRUPT_APB_DMA_CH17", Some 161); ("INTERRUPT_APB_DMA_CH18", Some 162);
  ("INTERRUPT_APB_DMA_CH19", Some 163); ("INTERRUPT_APB_DMA_CH20", Some 164);
  ("INTERRUPT_APB_DMA_CH21", Some 165); ("INTERRUPT_APB_DMA_CH22", Some 166);
  ("INTERRUPT_APB_DMA_CH23", Some 167); ("INTERRUPT_APB_DMA_CH24", Some 168);
  ("INTERRUPT_APB_DMA_CH25", Some 169); ("INTERRUPT_APB_DMA_CH26", Some 170);
  ("INTERRUPT_APB_DMA_CH27", Some 171); ("INTERRUPT_APB_DMA_CH28", Some 172);
  ("INTERRUPT_APB_DMA_CH29", Some 173); ("INTERRUPT_APB_DMA_CH30", Some 174);
  ("INTERRUPT_APB_DMA_CH31", Some 175); ("INTERRUPT_CPU0_PMU_INTR", Some 176);
  ("INTERRUPT_CPU1_PMU_INTR", Some 177); ("INTERRUPT_CPU2_PMU_INTR", Some 178);
  ("INTERRUPT_CPU3_PMU_INTR", Some 179); ("INTERRUPT_SDMMC1_SYS", Some 180);
  ("INTERRUPT_SDMMC2_SYS", Some 181); ("INTERRUPT_SDMMC3_SYS", Some 182); ("INTERRUPT_SDMMC4_SYS", Some 183);
  ("INTERRUPT_TMR6", Some 184); ("INTERRUPT_TMR7", Some 185); ("INTERRUPT_TMR8", Some 186);
  ("INTERRUPT_TMR9", Some 187); ("INTERRUPT_TMR0", Some 188); ("INTERRUPT_GPU", Some 189);
  ("INTERRUPT_GPU_NONSTALL", Some 190); ("DPAUX", Some 191); ("INTERRUPT_MPCORE_AXIERRIRQ", Some 192);
  ("INTERRUPT_MPCORE_INTERRIRQ", Some 193); ("INTERRUPT_EVENT_GPIO_A", Some 194);
  ("INTERRUPT_EVENT_GPIO_B", Some 195); ("INTERRUPT_EVENT_GPIO_C", Some 196);
  ("INTERRUPT_FLOW_RSN_CPU", Some 200); ("INTERRUPT_FLOW_RSM_COP", Some 201);
  ("INTERRUPT_TMR_SHARED", Some 202); ("INTERRUPT_MPCORE_CTIIRQ0", Some 203);
  ("INTERRUPT_MPCORE_CTIIRQ1", Some 204); ("INTERRUPT_MPCORE_CTIIRQ2", Some 205);
  ("INTERRUPT_MPCORE_CTIIRQ3", Some 206); ("INTERRUPT_MSELECT_ERROR", Some 207);
  ("INTERRUPT_TMR10", Some 208); ("INTERRUPT_TMR11", Some 209); ("INTERRUPT_TMR12", Some 210);
  ("INTERRUPT_TMR13", Some 211); ("maxIRQ", Some 224)].

Definition tx1_interrupts : list (string * Z) := enum_values 0 tx1_IRQConstants.

Definition tx1_GIC_NODE_PATH : string := "/interrupt-controller@50041000".

Definition tx1_linux_pt_irqs : list Z := [].
Definition tx1_free_plat_interrupts : list Z := [-1].
Definition tx1_plat_keep_devices : list string := [
  tx1_GIC_NODE_PATH; "/gpu@57000000"; "/serial@70006300"; "/timer@60005000"; "/flow-controller@60007000";
  "/dma@60020000"; "/apbmisc@70000800"; "/pmu@7000a000"; "/i2c@7000c700"; "/fuse@7000f800"; "/usb@70090000";
  "/sdhci@700b0000"; "/sdhci@700b0600"; "/mipi@700e3000"; "/timer"; "/aliases"; "/psci"].
Definition tx1_plat_keep_device_and_disable : list string := [
  "/serial@70006040"; "/serial@70006200"; "/serial@70006300"; "/i2c@7000c000"; "/i2c@7000c500";
  "/i2c@7000d100"; "/i2c@7000d400"; "/i2c@7000d600"; "/i2c@7000d800"; "/i2c@7000da00"; "/hda@70030000";
  "/sdhci@700b0200"; "/sdhci@700b0400"; "/spi@70410000"; "/usb@7d000000"; "/usb-phy@7d000000";
  "/usb@7d004000"; "/usb-phy@7d004000"].
Definition tx1_plat_keep_device_and_subtree : list string := [
  "/pcie@1003000"; "/host1x@50000000"; "/thermal-zones"; "/pinmux@700008d4"; "/i2c@7000c400";
  "/i2c@7000d000"; "/pmc@7000e400"; "/padctl@7009f000"; "/thermal-sensor@700e2000"; "/thermal-zones";
  "/clocks"; "/regulators"; "/gpio-keys"].
Definition tx1_plat_keep_device_and_subtree_and_disable : list string := ["/aconnect@702c0000"].
Definition tx1 : platform := {|
  interrupts := tx1_interrupts;
  pt_irqs := tx1_linux_pt_irqs;
  free_irqs := tx1_free_plat_interrupts;
  gic_node_path := tx1_GIC_NODE_PATH;
  keep_devices := tx1_plat_keep_devices;
  keep_and_disable := tx1_plat_keep_device_and_disable;
  keep_and_subtree := tx1_plat_keep_device_and_subtree;
  keep_and_subtree_and_disable := tx1_plat_keep_device_and_subtree_and_disable |}.

(** ** tx2 *)

Definition GIC_LIC_INTID_BASE : Z := 32.

Definition tx2_IRQConstants : list (string * option Z) := [
  ("TX2_TOP_TKE_SHARED0", Some (GIC_LIC_INTID_BASE)); ("TX2_TOP_TKE_SHARED1", None);
  ("TX2_TOP_TKE_SHARED2", None); ("TX2_TOP_TKE_SHARED3", None); ("TX2_TOP_TKE_SHARED4", None);
  ("TX2_TOP_TKE_SHARED5", None); ("TX2_TOP_TKE_SHARED6", None); ("TX2_TOP_TKE_SHARED7", None);
  ("TX2_TOP_TKE_SHARED8", None); ("TX2_TOP_TKE_SHARED9", None); ("TX2_RTC", None); ("TX2_LIC_GTE_0", None);
  ("TX2_LIC_GTE_1", None); ("TX2_AON_GTE", None); ("TX2_BPMP_WDT_REMOTE", None);
  ("TX2_SPE_WDT_REMOTE", None); ("TX2_SCE_WDT_REMOTE", None); ("TX2_TOP_WDT_REMOTE", None);
  ("TX2_AOWDT_REMOTE", None); ("TX2_RESERVED_19", None); ("TX2_DSIA", None); ("TX2_DSIB", None);
  ("TX2_DSIC", None); ("TX2_DSID", None); ("TX2_RESERVED_24", None); ("TX2_I2C", None); ("TX2_I2C2", None);
  ("TX2_I2C3", None); ("TX2_I2C4", None); ("TX2_I2C5", None); ("TX2_I2C6", None); ("TX2_I2C7", None);
  ("TX2_I2C8", None); ("TX2_I2C9", None); ("TX2_I2C10", None); ("TX2_QSPI", None); ("TX2_SPI1", None);
  ("TX2_SPI2", None); ("TX2_SPI3", None); ("TX2_SPI4", None); ("TX2_CAN1_0", None); ("TX2_CAN1_1", None);
  ("TX2_CAN2_0", None); ("TX2_CAN2_1", None); ("TX2_UFSHC", None); ("TX2_GPIO0_0", None);
  ("TX2_GPIO0_1", None); ("TX2_GPIO0_2", None); ("TX2_GPIO1_0", None); ("TX2_GPIO1_1", None);
  ("TX2_GPIO1_2", None); ("TX2_GPIO2_0", None); ("TX2_GPIO2_1", None); ("TX2_GPIO2_2", None);
  ("TX2_GPIO3_0", None); ("TX2_GPIO3_1", None); ("TX2_GPIO3_2", None); ("TX2_GPIO4_0", None);
  ("TX2_GPIO4_1", None); ("TX2_GPIO4_2", None); ("TX2_AON_GPIO_0", None); ("TX2_AON_GPIO_1", None);
  ("TX2_SDMMC1", None); ("TX2_SDMMC2", None); ("TX2_SDMMC3", None); ("TX2_SDMMC4", None);
  ("TX2_SDMMC1_SYS", None); ("TX2_SDMMC2_SYS", None); ("TX2_SDMMC3_SYS", None); ("TX2_SDMMC4_SYS", None);
  ("TX2_GPU_STALL", None); ("TX2_GPU_NONSTALL", None); ("TX2_PCIE_INT", None); ("TX2_PCIE_MSI", None);
  ("TX2_PCIE_WAKE", None); ("TX2_CENTRAL_DMA_CH0", None); ("TX2_CENTRAL_DMA_CH1", None);
  ("TX2_CENTRAL_DMA_CH2", None); ("TX2_CENTRAL_DMA_CH3", None); ("TX2_CENTRAL_DMA_CH4", None);
  ("TX2_CENTRAL_DMA_CH5", None); ("TX2_CENTRAL_DMA_CH6", None); ("TX2_CENTRAL_DMA_CH7", None);
  ("TX2_CENTRAL_DMA_CH8", None); ("TX2_CENTRAL_DMA_CH9", None); ("TX2_CENTRAL_DMA_CH10", None);
  ("TX2_CENTRAL_DMA_CH11", None); ("TX2_CENTRAL_DMA_CH12", None); ("TX2_CENTRAL_DMA_CH13", None);
  ("TX2_CENTRAL_DMA_CH14", None); ("TX2_CENTRAL_DMA_CH15", None); ("TX2_CENTRAL_DMA_CH16", None);
  ("TX2_CENTRAL_DMA_CH17", None); ("TX2_CENTRAL_DMA_CH18", None); ("TX2_CENTRAL_DMA_CH19", None);
  ("TX2_CENTRAL_DMA_CH20", None); ("TX2_CENTRAL_DMA_CH21", None); ("TX2_CENTRAL_DMA_CH22", None);
  ("TX2_CENTRAL_DMA_CH23", None); ("TX2_CENTRAL_DMA_CH24", None); ("TX2_CENTRAL_DMA_CH25", None);
  ("TX2_CENTRAL_DMA_CH26", None); ("TX2_CENTRAL_DMA_CH27", None); ("TX2_CENTRAL_DMA_CH28", None);
  ("TX2_CENTRAL_DMA_CH29", None); ("TX2_CENTRAL_DMA_CH30", None); ("TX2_CENTRAL_DMA_CH31", None);
  ("TX2_CENTRAL_DMA_COMMON", None); ("TX2_SIMON0", None); ("TX2_SIMON1", None); ("TX2_SIMON2", None);
  ("TX2_SIMON3", None); ("TX2_UARTA", None); ("TX2_UARTB", None); ("TX2_UARTC", None); ("TX2_UARTD", None);
  ("TX2_UARTE", None); ("TX2_UARTF", None); ("TX2_UARTG", None); ("TX2_NVCSI", None);
  ("maxIRQ", Some (GIC_LIC_INTID_BASE + 287))].

Definition tx2_interrupts : list (string * Z) := enum_values 0 tx2_IRQConstants.

(** The assertions of the header. *)
Definition tx2_static_asserts : list (string * Z) := [
  ("TX2_TOP_TKE_SHARED0", 0); ("TX2_BPMP_WDT_REMOTE", 14); ("TX2_GPIO0_0", 45); ("TX2_CENTRAL_DMA_CH0", 75);
  ("TX2_UARTA", 112)].

Definition tx2_GIC_NODE_PATH : string := "/interrupt-controller@3881000".

Definition tx2_linux_pt_irqs : list Z := [].
Definition tx2_free_plat_interrupts : list Z := [220 + GIC_LIC_INTID_BASE].
Definition tx2_plat_keep_devices : list string := [
  "/arm-pmu"; "/denver-pmu"; "/aliases"; "/spi@3210000"; "/spi@3230000"; "/spi@3240000"; "/pwm@3280000";
  "/pwm@3290000"; "/pwm@32a0000"; "/pwm@c340000"; "/serial@3100000"; "/serial@3110000"; "/serial@c280000";
  "/serial@3130000"; "/combined-uart"; "/interrupt-controller"; "/tegra-rtcpu-trace"; "/tegra_safety_ivc";
  "/tegra-aon-ivc-echo"; "/aondbg"; "/timer"; "/rtc@c2a0000"; "/tegra-carveouts"; "/mc_sid@2c00000";
  "/smmu_test"; "/mc"; "/usb_cd"; "/mailbox@3538000"; "/xotg"; "/xhci@3530000"; "/xudc@3550000";
  "/kfuse@0x3830000"; "/tachometer@39c0000"; tx2_GIC_NODE_PATH; "/tegra186-pm-irq"; "/timer@3020000";
  "/clock@5000000"; "/se_elp@3ad0000"; "/tegra-hsp@c150000"; "/tegra-hsp@3c00000"; "/dma@2600000";
  "/adma@2930000"; "/agic-controller@2a41000"; "/hda@3510000"; "/adsp@2993000"; "/tegra_fiq_debugger";
  "/mttcan@c310000"; "/mttcan@c320000"; "/cpuidle"; "/cpufreq@e070000"; "/bwmgr"; "/hardwood";
  "/cluster_clk_priv@e090000"; "/axi2apb@2390000"; "/axi2apb@23a0000"; "/axi2apb@23b0000";
  "/axi2apb@23c0000"; "/axi2apb@23d0000"; "/axip2p@2100000"; "/axip2p@2110000"; "/axip2p@2120000";
  "/axip2p@2130000"; "/axip2p@2140000"; "/axip2p@2150000"; "/axip2p@2160000"; "/axip2p@2170000";
  "/axip2p@2180000"; "/axip2p@2190000"; "/tegra-serr"; "/tegra-firmwares"; "/tegra-mce"; "/nvdumper";
  "/hsp_top"; "/pfsd"; "/pwm-fan"; "/thermal-fan-est"; "/vi-bypass@15700000"; "/tegra_cec"; "/soft_watchdog";
  "/bluedroid_pm"; "/e3326_lens_ov5693@P5V27C"; "/lens_imx274@A6V26"; "/bcmdhd_wlan"; "/sdhci@3420000";
  "/ufshci@2450000"; "/pwm@32c0000"; "/pwm@32d0000"; "/pwm@32e0000"; "/pwm@32f0000"; "/serial@3150000";
  "/serial@c290000"; "/ether_qos_virt_test@2490000"; "/trusty"; "/rtcpu@2993000"; "/sce@b000000";
  "/aon_spi@c260000"; "/mttcan0-ivc"; "/mttcan1-ivc"; "/reserved-memory/generic_carveout"; "/max16984-cdp";
  "/pmc@c370000"; "/pmc-iopower"; "/interrupt-controller@3000000"; "/spi@3270000"; "/tegra-hsp@b150000";
  "/chipid@100000"; "/miscreg@00100000"; "/sound_ref"; "/eqos_ape@2990000"; "/watchdog@30c0000";
  "/roc-flush@e080000"; "/generic-system-config"; "/dpaux0"; "/dpaux1"; "/tegra-pmc-blink-pwm";
  "/dummy-cool-dev"; "/bcmdhd_pcie_wlan"].
Definition tx2_plat_keep_device_and_disable : list string := [].
Definition tx2_plat_keep_device_and_subtree : list string := [
  "/sdhci@3460000"; "/sdhci@3440000"; "/sdhci@3420000"; "/sdhci@3400000"; "/pinmux@2430000";
  "/ahci-sata@3507000"; "/ufshci@2450000"; "/i2c@3160000"; "/i2c@c240000"; "/i2c@3180000"; "/i2c@3190000";
  "/bpmp_i2c"; "/i2c@31b0000"; "/i2c@31c0000"; "/i2c@c250000"; "/i2c@31e0000"; "/spdif_dit"; "/spi@c260000";
  "/ether_qos@2490000"; "/power-domain"; "/trusty"; "/thermal-zones"; "/rtcpu@b000000"; "/sce-ivc-channels";
  "/rtcpu@2993000"; "/ape-ivc-channels"; "/sce@b000000"; "/actmon@d230000"; "/aon@c160000";
  "/reserved-memory"; "/iommu@12000000"; "/pinctrl@3520000"; "/host1x"; "/mipical"; "/bpmp"; "/gpio@2200000";
  "/gpio@c2f0000"; "/pcie-controller@10003000"; "/sound"; "/ahub"; "/adsp_audio"; "/clocks"; "/stm@8070000";
  "/ptm@9840000"; "/ptm@9940000"; "/ptm@9a40000"; "/ptm@9b40000"; "/ptm_bpmp@8a1c000";
  "/funnel_bccplex@9010000"; "/funnel_major@8010000"; "/replicator@0x8040000"; "/etf@8030000";
  "/tpiu@8060000"; "/etr@8050000"; "/funnel_minor@8820000"; "/efuse@3820000"; "/i2c@31a0000"; "/csi_mipical";
  "/fixed-regulators"; "/external-connection"; "/backlight"; "/mods-simple-bus"; "/tfesd"; "/bthrot_cdev";
  "/gpio-keys"; "/tegra-camera-platform"; "/plugin-manager"; "/eeprom-manager"; "/firmware"; "/psci"].
Definition tx2_plat_keep_device_and_subtree_and_disable : list string := [].
Definition tx2 : platform := {|
  interrupts := tx2_interrupts;
  pt_irqs := tx2_linux_pt_irqs;
  free_irqs := tx2_free_plat_interrupts;
  gic_node_path := tx2_GIC_NODE_PATH;
  keep_devices := tx2_plat_keep_devices;
  keep_and_disable := tx2_plat_keep_device_and_disable;
  keep_and_subtree := tx2_plat_keep_device_and_subtree;
  keep_and_subtree_and_disable := tx2_plat_keep_device_and_subtree_and_disable |}.

Definition IRQ_SPI_OFFSET : Z := 32.

(** ** exynos5410 *)

Definition exynos5410_VUSB_ADDRESS : Z := 0x33330000.
Definition exynos5410_VUSB_IRQ : Z := 198.
Definition exynos5410_VUSB_NINDEX : Z := 5.
Definition exynos5410_VUSB_NBADGE : Z := 0x123.
Definition exynos5410_GIC_NODE_PATH : string := "/soc/interrupt-controller@10481000".

Definition exynos5410_linux_pt_irqs : list Z := [].
Definition exynos5410_free_plat_interrupts : list Z := [92 + IRQ_SPI_OFFSET; 93 + IRQ_SPI_OFFSET; 101 + IRQ_SPI_OFFSET; 102 + IRQ_SPI_OFFSET].
Definition exynos5410_plat_keep_devices : list string := [
  "/soc/chipid@10000000"; exynos5410_GIC_NODE_PATH; "/soc/interrupt-controller@10440000";
  "/soc/usb@12110000"; "/soc/phy@12130000"; "/soc/serial@12c00000"; "/soc/serial@12c10000";
  "/soc/serial@12c20000"; "/xxti"; "/cpus/cpu@0"; "/soc/clock-controller@10010000"; "/soc/syscon@10050000";
  "/soc/memory-controller@12250000"].
Definition exynos5410_plat_keep_device_and_disable : list string := [].
Definition exynos5410_plat_keep_device_and_subtree : list string := [
  "/soc/mmc@12200000"; "/soc/mmc@12220000"; "/soc/system-controller@10040000"; "/soc/sysram@2020000"].
Definition exynos5410_plat_keep_device_and_subtree_and_disable : list string := [].
Definition exynos5410 : platform := {|
  interrupts := [];
  pt_irqs := exynos5410_linux_pt_irqs;
  free_irqs := exynos5410_free_plat_interrupts;
  gic_node_path := exynos5410_GIC_NODE_PATH;
  keep_devices := exynos5410_plat_keep_devices;
  keep_and_disable := exynos5410_plat_keep_device_and_disable;
  keep_and_subtree := exynos5410_plat_keep_device_and_subtree;
  keep_and_subtree_and_disable := exynos5410_plat_keep_device_and_subtree_and_disable |}.

(** ** exynos5422 *)

Definition exynos5422_GIC_NODE_PATH : string := "/soc/interrupt-controller@10481000".

Definition exynos5422_linux_pt_irqs : list Z := [].
Definition exynos5422_free_plat_interrupts : list Z := [92 + IRQ_SPI_OFFSET; 93 + IRQ_SPI_OFFSET; 101 + IRQ_SPI_OFFSET; 102 + IRQ_SPI_OFFSET].
Definition exynos5422_plat_keep_devices : list string := [
  "/fixed-rate-clocks/oscclk"; "/timer"; "/soc/chipid@10000000"; exynos5422_GIC_NODE_PATH].
Definition exynos5422_plat_keep_device_and_disable : list string := [].
Definition exynos5422_plat_keep_device_and_subtree : list string := [].
Definition exynos5422_plat_keep_device_and_subtree_and_disable : list string := [].
Definition exynos5422 : platform := {|
  interrupts := [];
  pt_irqs := exynos5422_linux_pt_irqs;
  free_irqs := exynos5422_free_plat_interrupts;
  gic_node_path := exynos5422_GIC_NODE_PATH;
  keep_devices := exynos5422_plat_keep_devices;
  keep_and_disable := exynos5422_plat_keep_device_and_disable;
  keep_and_subtree := exynos5422_plat_keep_device_and_subtree;
  keep_and_subtree_and_disable := exynos5422_plat_keep_device_and_subtree_and_disable |}.

(** ** odroidc2 *)

Definition odroidc2_GIC_NODE_PATH : string := "/soc/interrupt-controller@c4301000".

Definition odroidc2_linux_pt_irqs : list Z := [].
Definition odroidc2_free_plat_interrupts : list Z := [50 + IRQ_SPI_OFFSET].
Definition odroidc2_plat_keep_devices : list string := [].
Definition odroidc2_plat_keep_device_and_disable : list string := [].
Definition odroidc2_plat_keep_device_and_subtree : list string := [odroidc2_GIC_NODE_PATH].
Definition odroidc2_plat_keep_device_and_subtree_and_disable : list string := [].
Definition odroidc2 : platform := {|
  interrupts := [];
  pt_irqs := odroidc2_linux_pt_irqs;
  free_irqs := odroidc2_free_plat_interrupts;
  gic_node_path := odroidc2_GIC_NODE_PATH;
  keep_devices := odroidc2_plat_keep_devices;
  keep_and_disable := odroidc2_plat_keep_device_and_disable;
  keep_and_subtree := odroidc2_plat_keep_device_and_subtree;
  keep_and_subtree_and_disable := odroidc2_plat_keep_device_and_subtree_and_disable |}.

(** ** qemu-arm-virt *)

Definition qemu_arm_virt_GIC_NODE_PATH : string := "/intc@8000000".

Definition qemu_arm_virt_linux_pt_irqs : list Z := [].
Definition qemu_arm_virt_free_plat_interrupts : list Z := [50 + IRQ_SPI_OFFSET].
Definition qemu_arm_virt_plat_keep_devices : list string := [
  "/timer"; "/apb-pclk"; "/platform@c000000"; "/pmu"; "/flash@0"; "/psci"].
Definition qemu_arm_virt_plat_keep_device_and_disable : list string := [].
Definition qemu_arm_virt_plat_keep_device_and_subtree : list string := [qemu_arm_virt_GIC_NODE_PATH].
Definition qemu_arm_virt_plat_keep_device_and_subtree_and_disable : list string := [].
Definition qemu_arm_virt : platform := {|
  interrupts := [];
  pt_irqs := qemu_arm_virt_linux_pt_irqs;
  free_irqs := qemu_arm_virt_free_plat_interrupts;
  gic_node_path := qemu_arm_virt_GIC_NODE_PATH;
  keep_devices := qemu_arm_virt_plat_keep_devices;
  keep_and_disable := qemu_arm_virt_plat_keep_device_and_disable;
  keep_and_subtree := qemu_arm_virt_plat_keep_device_and_subtree;
  keep_and_subtree_and_disable := qemu_arm_virt_plat_keep_device_and_subtree_and_disable |}.

(** ** ultra96v2 *)

Definition ultra96v2_GIC_NODE_PATH : string := "/amba_apu@0/interrupt-controller@f9010000".

Definition ultra96v2_linux_pt_irqs : list Z := [].
Definition ultra96v2_free_plat_interrupts : list Z := [-1].
Definition ultra96v2_plat_keep_devices : list string := ["/timer"].
Definition ultra96v2_plat_keep_device_and_disable : list string := [].
Definition ultra96v2_plat_keep_device_and_subtree : list string := [ultra96v2_GIC_NODE_PATH].
Definition ultra96v2_plat_keep_device_and_subtree_and_disable : list string := [].
Definition ultra96v2 : platform := {|
  interrupts := [];
  pt_irqs := ultra96v2_linux_pt_irqs;
  free_irqs := ultra96v2_free_plat_interrupts;
  gic_node_path := ultra96v2_GIC_NODE_PATH;
  keep_devices := ultra96v2_plat_keep_devices;
  keep_and_disable := ultra96v2_plat_keep_device_and_disable;
  keep_and_subtree := ultra96v2_plat_keep_device_and_subtree;
  keep_and_subtree_and_disable := ultra96v2_plat_keep_device_and_subtree_and_disable |}.

(** ** zynqmp *)

Definition zynqmp_GIC_NODE_PATH (CONFIG_ZYNQMP_PETALINUX_2018_3 : bool) : string :=
  if CONFIG_ZYNQMP_PETALINUX_2018_3 then "/amba_apu@0/interrupt-controller@f9010000" else "/axi/interrupt-controller@f9010000".

Definition zynqmp_linux_pt_irqs : list Z := [].
Definition zynqmp_free_plat_interrupts : list Z := [-1].
Definition zynqmp_plat_keep_devices : list string := ["/timer"].
Definition zynqmp_plat_keep_device_and_disable : list string := [].
Definition zynqmp_plat_keep_device_and_subtree (CONFIG_ZYNQMP_PETALINUX_2018_3 : bool) : list string := [zynqmp_GIC_NODE_PATH CONFIG_ZYNQMP_PETALINUX_2018_3].
Definition zynqmp_plat_keep_device_and_subtree_and_disable : list string := [].
Definition zynqmp (CONFIG_ZYNQMP_PETALINUX_2018_3 : bool) : platform := {|
  interrupts := [];
  pt_irqs := zynqmp_linux_pt_irqs;
  free_irqs := zynqmp_free_plat_interrupts;
  gic_node_path := zynqmp_GIC_NODE_PATH CONFIG_ZYNQMP_PETALINUX_2018_3;
  keep_devices := zynqmp_plat_keep_devices;
  keep_and_disable := zynqmp_plat_keep_device_and_disable;
  keep_and_subtree := zynqmp_plat_keep_device_and_subtree CONFIG_ZYNQMP_PETALINUX_2018_3;
  keep_and_subtree_and_disable := zynqmp_plat_keep_device_and_subtree_and_disable |}.

(** ** All of them *)

(** The platforms, for every setting of the two macros. *)
Definition platforms : list platform :=
  [tk1 false; tk1 true; tx1; tx2; exynos5410; exynos5422; odroidc2; qemu_arm_virt; ultra96v2;
   zynqmp false; zynqmp true].

(** [get_crossvm_irq_num] *)
Definition crossvm_irq (p : platform) : Z := default 0 (head (free_irqs p)).

(** The VMM is built for platform [p], whose lists no attribute of the
    component replaces. *)
Record built_for (p : platform) (B : BootEnv) (E : ArmEnv) : Prop := {
  bf_pt_irqs : linux_pt_irqs = pt_irqs p;
  bf_gic : GIC_NODE_PATH = gic_node_path p;
  bf_keep : plat_keep_devices = keep_devices p;
  bf_disable : plat_keep_device_and_disable = keep_and_disable p;
  bf_subtree : plat_keep_device_and_subtree = keep_and_subtree p;
  bf_subtree_disable : plat_keep_device_and_subtree_and_disable = keep_and_subtree_and_disable p;
  bf_no_devices : weak camkes_dtb_get_plat_keep_devices = [];
  bf_no_subtrees : weak camkes_dtb_get_plat_keep_devices_and_subtree = [];
  bf_no_irqs : camkes_dtb_get_irqs = None }.


Open Scope Z_scope.
Open Scope list_scope.

Definition enabled (p : platform) : list string := keep_devices p ++ keep_and_subtree p.
Definition disabled (p : platform) : list string := keep_and_disable p ++ keep_and_subtree_and_disable p.
(** Nodes a platform lists both to be kept as they are and to be disabled. *)
Definition conflicts (p : platform) : list string := List.filter (fun n => bool_decide (n ∈ disabled p)) (enabled p).

(** * The tables *)

(** What is required of a platform's tables. *)
Definition interrupts_ok (p : platform) : bool :=
  bool_decide (NoDup (map fst (interrupts p))) && bool_decide (NoDup (map snd (interrupts p))) &&
  bool_decide (NoDup (pt_irqs p)) && bool_decide (NoDup (free_irqs p)) && bool_decide (crossvm_irq p ∈ free_irqs p) &&
  forallb (fun i => (32 <=? i) && (i <? 256) && negb (bool_decide (i ∈ free_irqs p))) (pt_irqs p).
Definition nodes_ok (p : platform) : bool :=
  bool_decide (gic_node_path p ∈ enabled p) && negb (bool_decide (gic_node_path p ∈ disabled p)) &&
  forallb (String.prefix "/") (enabled p ++ disabled p) &&
  bool_decide (NoDup (keep_and_disable p)) && bool_decide (NoDup (keep_devices p)).

Lemma platforms_ok : forallb (fun p => interrupts_ok p && nodes_ok p) platforms = true.
Proof. vm_compute. reflexivity. Qed.

Lemma platform_ok p : p ∈ platforms -> interrupts_ok p = true /\ nodes_ok p = true.
Proof.
  intros Hp. pose proof platforms_ok as H. rewrite forallb_forall in H.
  specialize (H p (proj1 (list_elem_of_In _ _) Hp)). by apply andb_prop in H.
Qed.

(** The header of the TX2 counts its interrupts correctly at every place it
    says so. *)
Lemma tx2_asserts_hold : Forall (fun a => irq tx2_interrupts (fst a) - GIC_LIC_INTID_BASE = snd a) tx2_static_asserts.
Proof. repeat constructor. Qed.

(** The nodes with contradictory entries. *)
Lemma platform_conflicts :
  map conflicts platforms =
    [["/spi@7000da00"; "/pmc@7000e400"];
     ["/spi@7000da00"; "/pmc@7000e400"; "/i2c@7000c000"; "/i2c@7000d000"; "/padctl@7009f000"];
     ["/serial@70006300"]; []; []; []; []; []; []; []; []]%string.
Proof. vm_compute. reflexivity. Qed.

(** * What the start-up makes of them *)

Section Built.
Context {B : BootEnv} {E : ArmEnv} (p : platform).

(** The nodes of the platform.  On every supported platform the guest's
    device tree is built from the platform's four lists in their order, with
    absolute paths only; the interrupt controller, which the PCI node is later
    linked to, is among the nodes kept, and no list asks for it to be
    disabled. *)
Lemma arm_platform_nodes (s : BootState) :
  p ∈ platforms -> built_for p B E ->
  exists calls, fdtgen_select_nodes s = Ok (tt, s <| boot_log := boot_log s ++ calls |>) /\
    calls = KeepNodes (keep_devices p) :: map KeepNodeSubtree (keep_and_subtree p) ++
            map KeepNodeSubtreeDisable (keep_and_subtree_and_disable p) ++
            [KeepNodesAndDisable (keep_and_disable p); KeepNodes (weak camkes_dtb_get_node_paths)] /\
    Forall (fun n => String.prefix "/" n = true) (enabled p ++ disabled p) /\
    ((exists l, KeepNodes l ∈ calls /\ GIC_NODE_PATH ∈ l) \/ KeepNodeSubtree GIC_NODE_PATH ∈ calls) /\
    KeepNodeSubtreeDisable GIC_NODE_PATH ∉ calls /\
    (forall l, KeepNodesAndDisable l ∈ calls -> GIC_NODE_PATH ∉ l).
Proof.
  intros Hp [_ Hg Hk Hd Hs Hsd Hn1 Hn2 _]. destruct (platform_ok p Hp) as [_ Hok]. unfold nodes_ok in Hok.
  rewrite !andb_true_iff, negb_true_iff, bool_decide_eq_true, bool_decide_eq_false in Hok.
  destruct Hok as [[[[Hgic Hnot] Habs] _] _]. unfold enabled, disabled in Hgic, Hnot.
  rewrite elem_of_app in Hgic. rewrite not_elem_of_app in Hnot.
  rewrite select_run. unfold selection. rewrite Hk, Hd, Hs, Hsd, Hn1, Hn2, Hg. rewrite !decide_True by done.
  eexists. split; [reflexivity|]. split; [done|]. rewrite forallb_forall in Habs.
  split; [by apply List.Forall_forall|]. split; [|split].
  - destruct Hgic as [Hgic|Hgic]; [left; exists (keep_devices p); by split; [left|]|right].
    apply elem_of_cons. right. apply elem_of_app. left. by apply list_elem_of_fmap_2.
  - rewrite elem_of_cons, !elem_of_app. intros [|[H|[H|H]]]; [done|..].
    + by apply list_elem_of_fmap in H as (? & ? & _).
    + apply list_elem_of_fmap in H as (n & [= E1] & H). rewrite E1 in Hnot. by destruct Hnot.
    + apply elem_of_cons in H as [|H%list_elem_of_singleton]; done.
  - intros l. rewrite elem_of_cons, !elem_of_app. intros [|[H|[H|H]]]; [done|..].
    + by apply list_elem_of_fmap in H as (? & ? & _).
    + by apply list_elem_of_fmap in H as (? & ? & _).
    + apply elem_of_cons in H as [[= ->]|H%list_elem_of_singleton]; [by destruct Hnot|done].
Qed.

(** The interrupts of the platform.  On every supported platform each
    interrupt that is passed through is routed once and to a token of its own;
    it is one the interrupt server can handle, and neither one that is kept
    free nor the one of the connections between guests. *)
Lemma arm_platform_irqs :
  p ∈ platforms -> built_for p B E -> routing_succeeds ->
  exists s', route_irqs arm_bss = Ok (0, s') /\
    tokens s' = map routed_token (pt_irqs p) /\ arm_log s' = route_calls 0 (pt_irqs p) /\
    NoDup (pt_irqs p) /\
    Forall (fun i => 32 <= i < 256 /\ i ∉ free_irqs p) (pt_irqs p) /\ crossvm_irq p ∉ pt_irqs p.
Proof.
  intros Hp [Hpt _ _ _ _ _ _ _ Hn] RS. destruct (platform_ok p Hp) as [Hok _]. unfold interrupts_ok in Hok.
  rewrite !andb_true_iff, !bool_decide_eq_true in Hok. destruct Hok as [[[[_ Hnd] _] Hfree] Hin].
  destruct (route_irqs_run arm_bss) as (r & s' & E1 & Hr). exists s'.
  destruct (wp_ok _ _ _ (route_irqs_ok arm_bss RS)) as (r' & s'' & E2 & Hr0).
  assert (r = 0) as -> by congruence. split; [done|].
  destruct Hr as (routed & rest & toks & es & Hirqs & H0 & Ht & Hl & Hrest).
  assert (rest = []) as -> by (by apply H0). destruct Hrest as [-> ->].
  unfold all_irqs in Hirqs. rewrite Hpt, Hn, !app_nil_r in Hirqs. subst routed.
  rewrite !app_nil_r in Ht, Hl. rewrite forallb_forall in Hin.
  assert (Forall (fun i => 32 <= i < 256 /\ i ∉ free_irqs p) (pt_irqs p)) as Hall.
  { apply List.Forall_forall. intros i Hi. specialize (Hin i Hi).
    rewrite !andb_true_iff, negb_true_iff, bool_decide_eq_false in Hin. split; [lia|tauto]. }
  split_and!; [done|done|done|done|]. intros Hi. rewrite list.Forall_forall in Hall. by destruct (Hall _ Hi).
Qed.

End Built.

(** * Witnesses *)

#[local] Instance tk1_boot : BootEnv := {|
  fdt_add_subnode l name := 64;
  fdt_appendprop l p := 0;
  fdt_path_offset p := 32;
  fdt_address_cells n := 2;
  fdt_size_cells n := 1;
  fdt_get_phandle n := 7;
  fdtgen_new_context := true;
  fdtgen_generate l := 0;
  fdt_generate_vpci_node l := 0;
  fdt_generate_plat_vcpu_node l := 0;
  calloc_ok n := true;
  indeterminate_err := 0;
  indeterminate_dtb := 0;
  camkes_dtb_present := true;
  open_file name := 3;
  read_file fd n := 1000;
  camkes_dtb_get_plat_keep_devices := None;
  camkes_dtb_get_plat_keep_devices_and_subtree := None;
  camkes_dtb_get_node_paths := None;
  plat_keep_devices := keep_devices (tk1 false);
  plat_keep_device_and_subtree := keep_and_subtree (tk1 false);
  plat_keep_device_and_subtree_and_disable := keep_and_subtree_and_disable (tk1 false);
  plat_keep_device_and_disable := keep_and_disable (tk1 false);
  GIC_NODE_PATH := gic_node_path (tk1 false);
  CONFIG_VM_PCI_SUPPORT := true;
  vm_install_vpci := 0;
  vmm_modules := [];
  vm_load_guest_kernel name addr := (0, addr + 0x8000);
  vm_load_guest_module name addr := (0, (addr, 0x1000));
  vcpu_set_bootargs e d := 0 |}.
#[local] Instance tk1_arm : ArmEnv := {|
  alloc_ok n := true;
  vm_register_irq l irq := 0;
  irq_server_register_irq l irq := 5;
  acknowledge f d := 0;
  linux_pt_irqs := pt_irqs (tk1 false);
  camkes_dtb_get_irqs := None;
  get_custom_irq_handler := None;
  VUSB_NBADGE := None |}.

Lemma tk1_built : built_for (tk1 false) tk1_boot tk1_arm.
Proof. by split. Qed.
Lemma tk1_supported : tk1 false ∈ platforms.
Proof. by left. Qed.

Lemma arm_platform_nodes_witness :
  exists calls, @fdtgen_select_nodes tk1_boot (mkBoot None []) = Ok (tt, mkBoot None calls) /\
    KeepNodes (keep_devices (tk1 false)) ∈ calls /\
    KeepNodeSubtreeDisable "/interrupt-controller@50041000" ∉ calls.
Proof.
  destruct (@arm_platform_nodes tk1_boot tk1_arm (tk1 false) (mkBoot None []) tk1_supported tk1_built)
    as (calls & H1 & H2 & _ & _ & H3 & _).
  exists calls. split; [exact H1|]. split; [rewrite H2; by left|exact H3].
Defined.

Lemma arm_platform_irqs_witness :
  exists s', @route_irqs tk1_arm arm_bss = Ok (0, s') /\
    arm_log s' = [VmRegisterIrq 63 0; ServerRegisterIrq 63 CbIrqHandler 0;
                  VmRegisterIrq 122 1; ServerRegisterIrq 122 CbIrqHandler 1].
Proof.
  destruct (@arm_platform_irqs tk1_boot tk1_arm (tk1 false) tk1_supported tk1_built) as (s' & H1 & _ & H2 & _).
  - split; [done|done|]. intros l i. cbn. lia.
  - exists s'. split; [exact H1|]. rewrite H2. reflexivity.
Defined.
