(* ===== verification/ArmDevices.v ===== *)
(** Modules of the ARM VMM that give the guest its devices
    (components/VM_Arm/src/modules): the virtual UART that is fed from the serial
    server (vuart_init.c), guest RAM (init_ram.c), and what the tk1 and exynos5410
    platforms pass through or emulate (plat/tk1/init.c, plat/tk1/device_fwd.c,
    plat/exynos5410/init.c), the frames of other components (map_frame_hack.c)
    and the guest's SMC calls (vm_smc_handler of main.c).

    libsel4vm, libsel4vmmplatsupport and the drivers are outside the repository:
    their calls are logged, their answers a parameter (Calls). *)

From Stdlib Require Import String.
From stdpp Require Import relations.
From S2P Require Import Prelude Calls Console ArmEvents ArmMem ArmBoot Platforms.

Open Scope Z_scope.
Open Scope list_scope.

(** * The virtual UART *)

Module Vuart.

(** The page shared with the serial server, and the characters given to
    [vuart_handle_irq]. *)
Record Vuart := mkVuart { buffer : serial_shmem; given : list Z }.

(** [while (buffer->head != buffer->tail)] *)
Fixpoint handle_serial_console (fuel : nat) : M Vuart unit :=
  match fuel with
  | O => fail OutOfFuel
  | S fuel =>
      s ← get;
      let r := buffer s in
      if sh_head r =? sh_tail r then mret tt
      else
        c ← lift (idx (sh_buf r) (sh_head r));
        put (mkVuart (r <| sh_head := u32 (sh_head r + 1) mod BUFSIZE |>) (given s ++ [c]));;
        handle_serial_console fuel
  end.

(** ** The reader and the serial server, interleaved *)

(** The VMM between two accesses to the page. *)
Inductive reader := VIdle | VTesting | VReading | VGot (c : Z) | VGiving (c : Z).

Record vlink := mkVlink {
  v_ring : serial_shmem;
  v_read : reader;
  v_sent : list Z;
  v_given : list Z }.

(** What the writer publishes by moving the tail: the cells it passes. *)
Definition published (r r' : serial_shmem) : list Z := between (sh_buf r') (sh_tail r) (sh_tail r').

(** The interleavings of [handle_serial_console], access by access, with the
    steps [server_step] of the serial server, which is not part of the
    repository.  The accesses are to one memory, in the order of the steps. *)
Inductive vuart_step (server_step : serial_shmem -> serial_shmem -> Prop) : vlink -> vlink -> Prop :=
| VServer r r' k s g : server_step r r' ->
    vuart_step server_step (mkVlink r k s g) (mkVlink r' k (s ++ published r r') g)
| VNotified r s g : vuart_step server_step (mkVlink r VIdle s g) (mkVlink r VTesting s g)
| VEmpty r s g : sh_head r = sh_tail r ->
    vuart_step server_step (mkVlink r VTesting s g) (mkVlink r VIdle s g)
| VMore r s g : sh_head r <> sh_tail r ->
    vuart_step server_step (mkVlink r VTesting s g) (mkVlink r VReading s g)
| VRead c r s g : idx (sh_buf r) (sh_head r) = Ok c ->
    vuart_step server_step (mkVlink r VReading s g) (mkVlink r (VGot c) s g)
| VAdvance c r s g :
    vuart_step server_step (mkVlink r (VGot c) s g)
               (mkVlink (r <| sh_head := u32 (sh_head r + 1) mod BUFSIZE |>) (VGiving c) s g)
| VGive c r s g :
    vuart_step server_step (mkVlink r (VGiving c) s g) (mkVlink r VTesting s (g ++ [c])).

(** What the VMM relies on: the server stays inside the ring, leaves the head to
    the VMM, does not change a character that is published and not yet read,
    and does not overtake the head. *)
Class SerialServerLaws (server_step : serial_shmem -> serial_shmem -> Prop) : Prop := {
  server_wf r r' : shmem_wf r -> server_step r r' -> shmem_wf r';
  server_head r r' : shmem_wf r -> server_step r r' -> sh_head r' = sh_head r;
  server_keeps r r' : shmem_wf r -> server_step r r' ->
    between (sh_buf r') (sh_head r) (sh_tail r) = between (sh_buf r) (sh_head r) (sh_tail r);
  server_room r r' : shmem_wf r -> server_step r r' ->
    dist (sh_head r) (sh_tail r) <= dist (sh_head r) (sh_tail r') }.

Definition vlink_init (buf : list Z) : vlink := mkVlink (mkShmem 0 0 buf) VIdle [] [].

Definition reader_ok (r : serial_shmem) (k : reader) : Prop :=
  match k with
  | VReading => sh_head r <> sh_tail r
  | VGot c => sh_head r <> sh_tail r /\ arr (sh_buf r) (sh_head r) = c
  | _ => True
  end.
(** The character that is on its way to the UART. *)
Definition in_flight (k : reader) : list Z := match k with VGiving c => [c] | _ => [] end.

Record vlink_inv (l : vlink) : Prop := {
  vi_wf : shmem_wf (v_ring l);
  vi_read : reader_ok (v_ring l) (v_read l);
  vi_sent : v_sent l = v_given l ++ in_flight (v_read l) ++ pending (v_ring l) }.

(** ** The ring from its head *)

Lemma next_head r : shmem_wf r -> u32 (sh_head r + 1) mod BUFSIZE = (sh_head r + 1) mod BUFSIZE.
Proof.
  intros [_ Hh _]. unfold u32, wrap, BUFSIZE in *. by rewrite (Z.mod_small (sh_head r + 1) (2 ^ 32)) by lia.
Qed.

Lemma advance_wf r : shmem_wf r -> shmem_wf (r <| sh_head := u32 (sh_head r + 1) mod BUFSIZE |>).
Proof. intros []. split; [done|by apply Z.mod_pos_bound|done]. Qed.

Lemma pending_cons r :
  shmem_wf r -> sh_head r <> sh_tail r ->
  pending r = arr (sh_buf r) (sh_head r) :: pending (r <| sh_head := u32 (sh_head r + 1) mod BUFSIZE |>).
Proof.
  intros Hr Hne. pose proof (next_head r Hr) as Hn. destruct Hr as [_ Hh Ht].
  assert (dist (sh_head r) ((sh_head r + 1) mod BUFSIZE) = 1) as H1.
  { rewrite dist_next; rewrite ?dist_self; unfold BUFSIZE; [done|exact Hh|exact Hh|lia]. }
  assert (1 <= dist (sh_head r) (sh_tail r)) as H2.
  { pose proof (dist_range (sh_head r) (sh_tail r)).
    destruct (Z.eq_dec (dist (sh_head r) (sh_tail r)) 0); [|lia]. by destruct Hne; apply dist_eq. }
  unfold pending. rewrite (between_split _ _ ((sh_head r + 1) mod BUFSIZE)); [|done|by apply Z.mod_pos_bound|done|lia].
  unfold between at 1. rewrite H1. unfold slice, zrange. change (Z.to_nat 1) with 1%nat.
  cbn [seq map Z.of_nat app]. rewrite Z.add_0_r, Z.mod_small by done. unfold update. cbn [sh_head sh_tail sh_buf]. by rewrite Hn.
Qed.

Lemma head_read r : shmem_wf r -> idx (sh_buf r) (sh_head r) = Ok (arr (sh_buf r) (sh_head r)).
Proof. intros [Hl Hh _]. apply idx_ok. rewrite Hl. unfold BUFSIZE in *. lia. Qed.

(** ** The callback by itself *)

(** Every character waiting is given to the UART, in order, and the ring is
    empty; the ring's capacity bounds the number of rounds. *)
Lemma vuart_drains (r : serial_shmem) (g : list Z) (fuel : nat) :
  shmem_wf r -> (Z.to_nat (dist (sh_head r) (sh_tail r)) < fuel)%nat ->
  handle_serial_console fuel (mkVuart r g) = Ok (tt, mkVuart (r <| sh_head := sh_tail r |>) (g ++ pending r)).
Proof.
  revert r g. induction fuel as [|fuel IH]; intros r g Hr Hf; [lia|]. cbn [handle_serial_console].
  rewrite (bind_ok _ _ _ (mkVuart r g) (mkVuart r g)) by done. cbn [buffer given].
  destruct (Z.eqb_spec (sh_head r) (sh_tail r)) as [E1|Hne].
  - unfold pending. rewrite <-E1, between_self, app_nil_r. by destruct r.
  - rewrite (bind_ok _ _ _ _ (mkVuart r g)) by (by apply lift_ok, head_read).
    pose proof (advance_wf r Hr) as Hr'. set (r' := r <| sh_head := _ |>) in *.
    rewrite (bind_ok _ _ _ tt (mkVuart r' (g ++ [arr (sh_buf r) (sh_head r)]))) by done.
    rewrite IH, (pending_cons r Hr Hne), <-app_assoc; [done|done|].
    pose proof Hr as [_ Hh Ht]. pose proof (dist_range (sh_head r) (sh_tail r)).
    assert (dist (sh_head r) (sh_tail r) <> 0) by (intros E0; by apply Hne, dist_eq).
    change (sh_tail r') with (sh_tail r). change (sh_head r') with (u32 (sh_head r + 1) mod BUFSIZE).
    rewrite next_head by done. rewrite (dist_split (sh_head r)); [|done|by apply Z.mod_pos_bound|done|].
    + rewrite dist_next; rewrite ?dist_self; unfold BUFSIZE in *; lia.
    + rewrite dist_next; rewrite ?dist_self; unfold BUFSIZE in *; lia.
Qed.

(** ** The invariant *)

Lemma not_empty r : shmem_wf r -> sh_head r <> sh_tail r <-> 0 < dist (sh_head r) (sh_tail r).
Proof.
  intros [_ Hh Ht]. pose proof (dist_range (sh_head r) (sh_tail r)). split.
  - intros Hne. destruct (Z.eq_dec (dist (sh_head r) (sh_tail r)) 0) as [E0|]; [|lia]. by destruct Hne; apply dist_eq.
  - intros Hd E1. rewrite E1, dist_self in Hd. lia.
Qed.

Lemma server_pending {server_step} {L : SerialServerLaws server_step} r r' :
  shmem_wf r -> server_step r r' -> pending r' = pending r ++ published r r'.
Proof.
  intros Hr Hs. pose proof (server_wf r r' Hr Hs) as [_ _ Ht']. pose proof Hr as [_ Hh Ht].
  unfold pending, published. rewrite (server_head r r' Hr Hs), <-(server_keeps r r' Hr Hs).
  apply between_split; [done..|]. by apply server_room.
Qed.

(** A character that is read stays readable. *)
Lemma server_reader {server_step} {L : SerialServerLaws server_step} r r' k :
  shmem_wf r -> server_step r r' -> reader_ok r k -> reader_ok r' k.
Proof.
  intros Hr Hs. pose proof (server_wf r r' Hr Hs) as Hr'. pose proof (server_head r r' Hr Hs) as Eh.
  pose proof (server_room r r' Hr Hs) as Hroom.
  assert (sh_head r <> sh_tail r -> sh_head r' <> sh_tail r') as Hne.
  { intros H%(not_empty r Hr). apply (not_empty r' Hr'). rewrite Eh. lia. }
  destruct k; cbn; [done|done|exact Hne| |done]. intros [H <-]. split; [by apply Hne|].
  pose proof (server_pending r r' Hr Hs) as Ep.
  rewrite (pending_cons r Hr H), (pending_cons r' Hr' (Hne H)) in Ep. by injection Ep as ->.
Qed.

Lemma vuart_step_inv {server_step} {L : SerialServerLaws server_step} l l' :
  vuart_step server_step l l' -> vlink_inv l -> vlink_inv l'.
Proof.
  intros Hs [Hr Hk Hsent].
  destruct Hs as [r r' k s g Hst| | | |c r s g Hc|c r s g|c r s g]; cbn [v_ring v_read v_sent v_given] in *.
  - split; cbn [v_ring v_read v_sent v_given]; [by eapply server_wf|by eapply server_reader|].
    by rewrite Hsent, (server_pending r r' Hr Hst), <-!app_assoc.
  - by split.
  - by split.
  - by split.
  - rewrite head_read in Hc by done. injection Hc as <-. by split.
  - destruct Hk as [Hne <-]. split; cbn [v_ring v_read v_sent v_given].
    + by apply advance_wf.
    + done.
    + by rewrite Hsent, (pending_cons r Hr Hne).
  - split; cbn; try done. by rewrite <-app_assoc.
Qed.

Lemma vuart_reach_inv {server_step} {L : SerialServerLaws server_step} buf l :
  length buf = Z.to_nat BUFSIZE -> rtc (vuart_step server_step) (vlink_init buf) l -> vlink_inv l.
Proof.
  intros Hb. apply (rtc_ind_r (fun l => vlink_inv l)).
  - split; cbn; [split; cbn; [done|done|done]|done|done].
  - intros y z _ Hs Hi. by eapply vuart_step_inv.
Qed.

(** C35 -- Console input reaches the guest's UART complete and in order, however
    the serial server's writing and the VMM's reading interleave, in a memory
    that is sequentially consistent, and for any serial server (it is not part
    of the repository) that leaves the head to the VMM, does not change what it
    has published and does not overtake the head: at any time what the server
    has published is what the UART was given, the character in flight, and what
    is in the ring.  The reader never reads outside the ring or a character
    that has not been published, and goes back to waiting only when the UART
    has everything. *)
Theorem vuart_fifo (server_step : serial_shmem -> serial_shmem -> Prop) {L : SerialServerLaws server_step}
    (buf : list Z) (l : vlink) :
  length buf = Z.to_nat BUFSIZE -> rtc (vuart_step server_step) (vlink_init buf) l ->
  v_sent l = v_given l ++ in_flight (v_read l) ++ pending (v_ring l) /\
  (v_read l = VReading -> exists c rest, idx (sh_buf (v_ring l)) (sh_head (v_ring l)) = Ok c /\
     pending (v_ring l) = c :: rest) /\
  (forall l', vuart_step server_step l l' -> v_read l = VTesting -> v_read l' = VIdle -> v_given l' = v_sent l').
Proof.
  intros Hb Hl. destruct (vuart_reach_inv buf l Hb Hl) as [Hr Hk Hs]. split; [done|]. split.
  - intros E1. rewrite E1 in Hk. eexists _, _. split; [by apply head_read|by apply pending_cons].
  - intros l' Hst. destruct Hst; cbn [v_read v_given v_sent v_ring in_flight] in *; try done.
    + intros -> [=].
    + intros _ _. rewrite Hs. unfold pending. by rewrite H, between_self, !app_nil_r.
Qed.

(** ** Witness *)

(** A server that stores a character in the free cell at the tail, and publishes
    the cell, unless the ring is full. *)
Definition demo_server (r r' : serial_shmem) : Prop :=
  ring_full r = false /\ ((exists c, ring_store c r = Ok r') \/ r' = ring_publish r).

#[local] Instance demo_server_laws : SerialServerLaws demo_server.
Proof.
  split; intros r r' Hr [Hf [[c Hst]| ->]]; pose proof (not_full r Hr Hf) as Hn; pose proof Hr as [Hl Hh Ht].
  - rewrite store_ok in Hst by done. injection Hst as <-. by apply store_wf.
  - by apply publish_wf.
  - rewrite store_ok in Hst by done. by injection Hst as <-.
  - done.
  - rewrite store_ok in Hst by done. injection Hst as <-. cbn. by apply between_store.
  - done.
  - rewrite store_ok in Hst by done. injection Hst as <-. done.
  - rewrite publish_tail, dist_next by done. lia.
Qed.

(** The server publishes a character, the VMM takes it while the next one is
    being stored. *)
Lemma vuart_fifo_witness :
  exists l, rtc (vuart_step demo_server) (vlink_init (replicate 4088 0)) l /\ v_sent l = [65] /\
    v_sent l = v_given l ++ in_flight (v_read l) ++ pending (v_ring l).
Proof.
  set (buf := replicate 4088 0). set (r1 := mkShmem 0 0 (arr_set buf 0 65)). set (r2 := ring_publish r1).
  set (r3 := r2 <| sh_buf := arr_set (sh_buf r2) (sh_tail r2) 66 |>).
  assert (rtc (vuart_step demo_server) (vlink_init buf) (mkVlink r3 (VGot 65) [65] [])) as Hl.
  { apply rtc_l with (mkVlink r1 VIdle [] []).
    { apply (VServer demo_server (mkShmem 0 0 buf) r1 VIdle [] []). split; [done|]. left. by exists 65. }
    apply rtc_l with (mkVlink r2 VIdle [65] []).
    { apply (VServer demo_server r1 r2 VIdle [] []). split; [done|]. by right. }
    apply rtc_l with (mkVlink r2 VTesting [65] []); [apply VNotified|].
    apply rtc_l with (mkVlink r2 VReading [65] []); [by apply VMore|].
    apply rtc_l with (mkVlink r2 (VGot 65) [65] []); [by apply VRead|].
    apply rtc_l with (mkVlink r3 (VGot 65) [65] []).
    { apply (VServer demo_server r2 r3 (VGot 65) [65] []). split; [done|]. left. by exists 66. }
    apply rtc_refl. }
  eexists. split; [exact Hl|]. split; [done|].
  exact (proj1 (vuart_fifo demo_server buf _ ltac:(done) Hl)).
Defined.

End Vuart.

(** * Modules that register handlers *)

(** The part of the VMM's state that modules change, and their calls. *)
Record Mods {C : Type} := mkMods { md_arm : VmArm; md_calls : list C }.
#[global] Arguments Mods : clear implicits.
#[global] Arguments Mods C : assert.
#[export] Instance eta_Mods {C} : Eta (Mods C) := fun s => mkMods C (md_arm s) (md_calls s).
#[export] Instance mods_log {C : Type} : CallLog (Mods C) C.
Proof.
  refine {| calls_of := md_calls; add_calls := fun es s => s <| md_calls := md_calls s ++ es |> |}.
  - intros s. rewrite app_nil_r. by destruct s.
  - intros e1 e2 s. cbn. by rewrite <-app_assoc.
  - done.
Defined.

Section Register.
Context {C : Type} {W : Answers C} {AE : ArmEnv}.

(** [err = register_async_event_handler(..); ZF_LOGF_IF(err, ..)] *)
Definition register (h : async_event_handler) : M (Mods C) unit :=
  err ← zoom (fun s => Some (md_arm s)) (fun a s => s <| md_arm := a |>) (register_async_event_handler h);
  assertC (err =? 0).

Lemma register_ok hs h s :
  (forall k, alloc_ok k = true) -> handlers hs (md_arm s) ->
  exists a, register h s = Ok (tt, s <| md_arm := a |>) /\ handlers (hs ++ [h]) a /\ arm_log a = arm_log (md_arm s).
Proof.
  intros Hok Hh. destruct (register_run hs h (md_arm s) Hh (Hok _)) as (a & E1 & H1 & _ & L1 & _). exists a.
  split; [|by split]. unfold register, zoom, mbind, M_bind. by rewrite E1.
Qed.

Lemma register_wlp hs h s :
  handlers hs (md_arm s) ->
  wlp (register h) (fun _ s' => exists a, s' = s <| md_arm := a |> /\ handlers (hs ++ [h]) a /\ arm_log a = arm_log (md_arm s)) s.
Proof.
  intros Hh. destruct (alloc_ok (allocs (md_arm s))) eqn:Ha.
  - destruct (register_run hs h (md_arm s) Hh Ha) as (a & E1 & H1 & _ & L1 & _). unfold wlp, register, zoom, mbind, M_bind.
    rewrite E1. cbn. by exists a.
  - unfold wlp, register, zoom, mbind, M_bind, register_async_event_handler, grow_callback_arr, alloc.
    unfold mbind, M_bind, get, put, modify, mret, M_ret. cbn. by rewrite Ha.
Qed.

End Register.

(** ** vuart_init.c: the console *)

Module Vconsole.

Inductive vconsole_call := VmInstallVconsole.

Section Vconsole.
Context {AE : ArmEnv}.
(** The answers of the library, which are not looked at, the badge of the
    serial server's notification and the callback. *)
Variable answers : list vconsole_call -> Z.
Variable serial_getchar_notification_badge : Z.
Variable handle_serial_console : Z.

#[local] Instance vconsole_answers : Answers vconsole_call := {|
  reply := answers;
  succeeded _ _ := true |}.

Definition vconsole_init_module : M (Mods vconsole_call) unit :=
  register (mkAsyncHandler serial_getchar_notification_badge handle_serial_console 0);;
  do_ VmInstallVconsole.

(** The serial server's notification starts the callback. *)
Lemma vconsole_notified hs badge label (s : Mods vconsole_call) :
  (forall k, alloc_ok k = true) -> handlers hs (md_arm s) -> VUSB_NBADGE = None -> badge <> 0 ->
  badge .& serial_getchar_notification_badge = serial_getchar_notification_badge ->
  exists s' a, vconsole_init_module s = Ok (tt, s') /\ md_calls s' = md_calls s ++ [VmInstallVconsole] /\
    handle_async_event badge label (md_arm s') = Ok (0, a) /\
    RunCallback handle_serial_console 0 ∈ arm_log a.
Proof.
  intros Hok Hh Hv Hb Hbits.
  destruct (register_ok hs (mkAsyncHandler serial_getchar_notification_badge handle_serial_console 0) s Hok Hh)
    as (a & E1 & H1 & _).
  set (s1 := s <| md_arm := a |>) in *.
  exists (s1 <| md_calls := md_calls s ++ [VmInstallVconsole] |>). eexists.
  split; [unfold vconsole_init_module; by rewrite (bind_ok _ _ _ _ _ E1)|]. split; [done|].
  split; [by apply event_run1|]. cbn. rewrite elem_of_app. right. unfold event_calls. rewrite Hv.
  destruct (Z.eqb_spec badge 0); [done|]. rewrite List.filter_app, map_app, elem_of_app. right.
  cbn [List.filter]. unfold waits_for. cbn [ah_badge]. rewrite Hbits, Z.eqb_refl. by left.
Qed.

End Vconsole.

End Vconsole.

(** * Modules that install devices *)

(** ** init_ram.c and plat/tk1 *)

Module Tk1.

(** Devices are named after the library's descriptions of them. *)
Inductive tk1_call :=
| RamRegisterAt (base size : Z) (map_one_to_one : bool)
| InstallGenericForward (dev : string)
| InstallTk1UsbPassthrough
| InstallPassthrough (dev : string)
| InstallRamOnly (dev : string).

Section Tk1.
Variable answers : list tk1_call -> Z.
Variable CONFIG_TK1_INSECURE : bool.

#[local] Instance tk1_answers : Answers tk1_call := {|
  reply := answers;
  succeeded _ r := r =? 0 |}.

Definition Tk1 (T : Type) : Type := M (list tk1_call) T.

Definition init_ram_module (cfg : vm_config) (map_one_to_one : bool) : Tk1 unit :=
  must (RamRegisterAt (ram_base cfg) (ram_size cfg) map_one_to_one).

Definition device_fwd_init_module : Tk1 unit :=
  must (InstallGenericForward "vconsole");;
  must (InstallGenericForward "clkcar").

Definition linux_pt_devices : list string := ["usb1"; "usb3"; "sdmmc"]%string.
Definition linux_ram_devices : list string :=
  (if CONFIG_TK1_INSECURE then []
   else ["rtc_kbc_pmc"; "exception_vectors"; "system_registers"; "ictlr"; "apb_misc"; "fuse"; "gpios"]) ++
  ["data_memory"]%string.

Definition plat_init_module : Tk1 unit :=
  must InstallTk1UsbPassthrough;;
  for_each linux_pt_devices (fun d => must (InstallPassthrough d));;
  for_each linux_ram_devices (fun d => must (InstallRamOnly d)).

(** Every device is installed, once and in order, or the VMM stops at the
    first that cannot be. *)
Definition plat_calls : list tk1_call :=
  InstallTk1UsbPassthrough :: map InstallPassthrough linux_pt_devices ++ map InstallRamOnly linux_ram_devices.

Lemma tk1_devices : straight plat_init_module plat_calls.
Proof using Type.
  unfold plat_init_module, plat_calls. apply (straight_bind _ _ [_]); [straight1|]. apply straight_bind.
  - rewrite <-(concat_single InstallPassthrough). apply straight_each. intros. straight1.
  - rewrite <-(concat_single InstallRamOnly). apply straight_each. intros. straight1.
Qed.

Lemma tk1_forwarded : straight device_fwd_init_module [InstallGenericForward "vconsole"; InstallGenericForward "clkcar"].
Proof using Type. apply (straight_bind _ _ [_]); straight1. Qed.

(** A device is either given to the guest or backed by memory. *)
Lemma tk1_devices_disjoint : NoDup (linux_pt_devices ++ linux_ram_devices).
Proof using Type. unfold linux_ram_devices. destruct CONFIG_TK1_INSECURE; by apply (bool_decide_unpack _). Qed.

End Tk1.

End Tk1.

(** ** plat/exynos5410 *)

Module Exynos5410.

Inductive exynos_call :=
| InstallVmct
| InstallVpower
| UsbHostInit
| RegisterUsbIrq (irq : Z)
| InstallVusb (address irq nindex nbadge : Z)
| GpioSysInit
| I2cBbInit
| PmicInit
| Usb3503Init
| Usb3503Connect
| PmicLdoCfg (millivolt : Z)
| InstallNodmaSdhc2
| InstallAcClock
| ClockProvide (clock : string)
| InstallAcUart
| ReserveMemoryAt (start size : Z)
| InstallPassthrough (dev : string)
(* at run time *)
| PwmVmsig (data : Z)
| AdvanceVcpuFault
| RestartComponent
| UsbHcdHandleIrq
| UsbIrqAcknowledge
| VusbNotifyGuest.

Section Exynos5410.
Variable answers : list exynos_call -> Z.
Variables CONFIG_VM_EMMC2_NODMA CONFIG_VM_VUSB : bool.
(** Assertions are compiled. *)
Variable asserts : bool.

#[local] Instance exynos_answers : Answers exynos_call := {|
  reply := answers;
  succeeded c r := match c with
    | InstallVusb _ _ _ _ | InstallAcClock | ReserveMemoryAt _ _ => negb (r =? 0)
    | RegisterUsbIrq _ => 0 <=? r
    | Usb3503Connect | PmicLdoCfg _ | ClockProvide _ | InstallPassthrough _ => true
    | _ => r =? 0
    end |}.

Definition Exynos (T : Type) : Type := M (list exynos_call) T.

Definition exynos5410_pt_devices : list string :=
  ["ps_chip_id"; "msh0"]%string ++ (if CONFIG_VM_EMMC2_NODMA then [] else ["msh2"%string]).

Definition install_vusb : Exynos Z :=
  if CONFIG_VM_VUSB then
    must UsbHostInit;;
    irq_id ← ask (RegisterUsbIrq 103);
    if irq_id <? 0 then mret (-1)
    else
      must_ptr (InstallVusb exynos5410_VUSB_ADDRESS exynos5410_VUSB_IRQ exynos5410_VUSB_NINDEX exynos5410_VUSB_NBADGE);;
      mret 0
  else
    must UsbHostInit;;
    must GpioSysInit;;
    must I2cBbInit;;
    must PmicInit;;
    must Usb3503Init;;
    do_ Usb3503Connect;;
    do_ (PmicLdoCfg 3300);;
    mret 0.

Definition configure_clocks : Exynos unit :=
  must_ptr InstallAcClock;;
  do_ (ClockProvide "MMC0");;
  do_ (ClockProvide "MMC2");;
  do_ (ClockProvide "SCLKVPLL");;
  do_ (ClockProvide "SCLKGPLL");;
  do_ (ClockProvide "SCLKCPLL").

(** [pwmsig_dev] *)
Definition pwmsig_pstart : Z := 0x30000000.
Definition pwmsig_size : Z := 0x1000.

Definition exynos5410_plat_init_module : Exynos unit :=
  must InstallVmct;;
  must InstallVpower;;
  (err ← install_vusb; assertC (err =? 0));;
  when CONFIG_VM_EMMC2_NODMA (must InstallNodmaSdhc2);;
  configure_clocks;;
  must InstallAcUart;;
  must_ptr (ReserveMemoryAt pwmsig_pstart pwmsig_size);;
  for_each exynos5410_pt_devices (fun d => do_ (InstallPassthrough d)).

(** ** At run time *)

Definition vm_shutdown_cb : Z := -1.
Definition vm_reboot_cb : Exynos Z := do_ RestartComponent;; mret 0.

(** FAULT_HANDLED; [data] is what the guest wrote. *)
Definition pwmsig_device_fault_handler (data : Z) : Exynos unit :=
  do_ AdvanceVcpuFault;; do_ (PwmVmsig data).

(** The call that acknowledges the interrupt is the argument of [assert]. *)
Definition usb_irq_handler : Exynos unit :=
  do_ UsbHcdHandleIrq;;
  if asserts then must UsbIrqAcknowledge else mret tt.

Definition vusb_notify : Exynos unit := if CONFIG_VM_VUSB then do_ VusbNotifyGuest else mret tt.

(** ** Theorems *)

Definition vusb_calls : list exynos_call :=
  if CONFIG_VM_VUSB then
    [UsbHostInit; RegisterUsbIrq 103;
     InstallVusb exynos5410_VUSB_ADDRESS exynos5410_VUSB_IRQ exynos5410_VUSB_NINDEX exynos5410_VUSB_NBADGE]
  else [UsbHostInit; GpioSysInit; I2cBbInit; PmicInit; Usb3503Init; Usb3503Connect; PmicLdoCfg 3300].
Definition exynos5410_calls : list exynos_call :=
  [InstallVmct; InstallVpower] ++ vusb_calls ++ (if CONFIG_VM_EMMC2_NODMA then [InstallNodmaSdhc2] else []) ++
  [InstallAcClock; ClockProvide "MMC0"; ClockProvide "MMC2"; ClockProvide "SCLKVPLL"; ClockProvide "SCLKGPLL";
   ClockProvide "SCLKCPLL"; InstallAcUart; ReserveMemoryAt pwmsig_pstart pwmsig_size] ++
  map InstallPassthrough exynos5410_pt_devices.

Lemma vusb_straight : straight (err ← install_vusb; assertC (err =? 0)) vusb_calls.
Proof using Type.
  unfold install_vusb, vusb_calls. destruct CONFIG_VM_VUSB.
  - apply (straight_ext (must UsbHostInit;; must_id (RegisterUsbIrq 103);;
      must_ptr (InstallVusb exynos5410_VUSB_ADDRESS exynos5410_VUSB_IRQ exynos5410_VUSB_NINDEX exynos5410_VUSB_NBADGE))).
    + intros s. unfold must, must_id, must_ptr, ask, assertC, mbind, M_bind, mret, M_ret, fail. cbn.
      repeat (case_match; simplify_eq/=; try done; try lia).
    + do 2 (apply (straight_bind _ _ [_]); [straight1|]). straight1.
  - apply (straight_ext (must UsbHostInit;; must GpioSysInit;; must I2cBbInit;; must PmicInit;; must Usb3503Init;;
      do_ Usb3503Connect;; do_ (PmicLdoCfg 3300))).
    + intros s. unfold must, do_, ask, assertC, mbind, M_bind, mret, M_ret, fail. cbn. repeat (case_match; simplify_eq/=; try done).
    + do 6 (apply (straight_bind _ _ [_]); [straight1|]). straight1.
Qed.

Lemma clocks_straight :
  straight configure_clocks [InstallAcClock; ClockProvide "MMC0"; ClockProvide "MMC2"; ClockProvide "SCLKVPLL";
    ClockProvide "SCLKGPLL"; ClockProvide "SCLKCPLL"].
Proof using Type. do 5 (apply (straight_bind _ _ [_]); [straight1|]). straight1. Qed.

(** The platform's devices are set up in order; the VMM stops at the first call
    that fails, except that it does not notice when a device cannot be passed
    through. *)
Lemma exynos_devices : straight exynos5410_plat_init_module exynos5410_calls.
Proof using Type.
  unfold exynos5410_plat_init_module, exynos5410_calls. do 2 (apply (straight_bind _ _ [_]); [straight1|]).
  apply straight_bind; [apply vusb_straight|]. apply straight_bind; [straight1|].
  apply (straight_bind _ _ [_; _; _; _; _; _] (_ :: _ :: _)); [apply clocks_straight|].
  do 2 (apply (straight_bind _ _ [_]); [straight1|]).
  rewrite <-(concat_single InstallPassthrough). apply straight_each. intros. straight1.
Qed.

(** Without assertions the interrupt of the USB host is never acknowledged. *)
Lemma usb_irq_not_acknowledged s :
  asserts = false -> usb_irq_handler s = Ok (tt, s ++ [UsbHcdHandleIrq]).
Proof using Type. intros Ha. unfold usb_irq_handler. by rewrite Ha. Qed.

End Exynos5410.

End Exynos5410.

(** ** map_frame_hack.c: frames of other components *)

Module FrameHack.

Inductive frame_call := ReserveMemoryAt (addr size : Z) | MapReservation (addr size : Z).

Section FrameHack.
Variable answers : list frame_call -> Z.
(** Attributes of the component, both of type [int], and the first capability. *)
Variables num_extra_frame_caps extra_frame_map_address start_extra_frame_caps : Z.

#[local] Instance frame_answers : Answers frame_call := {|
  reply := answers;
  succeeded c r := match c with ReserveMemoryAt _ _ => negb (r =? 0) | MapReservation _ _ => r =? 0 end |}.

(** Failures are logged only. *)
Definition map_frame_hack_init_module : M (list frame_call) unit :=
  if num_extra_frame_caps =? 0 then mret tt
  else
    let size := u64 (u64 num_extra_frame_caps * 2 ^ 12) in
    frame_hack_reservation ← ask (ReserveMemoryAt (u64 extra_frame_map_address) size);
    if frame_hack_reservation =? 0 then mret tt
    else _ ← ask (MapReservation (u64 extra_frame_map_address) size); mret tt.

(** Without extra frames nothing is done; otherwise exactly their pages are
    reserved and, if they could be, mapped. *)
Lemma frame_hack_calls s :
  0 <= num_extra_frame_caps < 2 ^ 31 -> 0 <= extra_frame_map_address < 2 ^ 31 ->
  let region := (extra_frame_map_address, num_extra_frame_caps * 4096) in
  map_frame_hack_init_module s = Ok (tt, s ++
    (if num_extra_frame_caps =? 0 then []
     else if answers (s ++ [ReserveMemoryAt (fst region) (snd region)]) =? 0 then [ReserveMemoryAt (fst region) (snd region)]
     else [ReserveMemoryAt (fst region) (snd region); MapReservation (fst region) (snd region)])).
Proof using Type.
  intros Hn Ha. cbn [fst snd]. unfold map_frame_hack_init_module. destruct (num_extra_frame_caps =? 0); [by rewrite app_nil_r|].
  rewrite (u64_small num_extra_frame_caps), (u64_small extra_frame_map_address) by (unfold inw; lia).
  change (2 ^ 12) with 4096. rewrite u64_small by (unfold inw; lia).
  rewrite (bind_ok _ _ s (answers (s ++ [ReserveMemoryAt extra_frame_map_address (num_extra_frame_caps * 4096)]))
    (s ++ [ReserveMemoryAt extra_frame_map_address (num_extra_frame_caps * 4096)])) by done.
  destruct (answers _ =? 0); [done|]. cbv [mbind M_bind ask mret M_ret]. cbn. by rewrite <-app_assoc.
Qed.

(** The frames the iterator (ArmMem) then gives for the pages, in order: only
    the first is one of the extra frames. *)
Lemma frame_hack_frames n : Z.of_nat n <= start_extra_frame_caps < 2 ^ 30 ->
  0 <= extra_frame_map_address -> extra_frame_map_address + Z.of_nat n * 4096 < 2 ^ 31 ->
  map (fun k => fr_cptr (map_frame_hack_iterator start_extra_frame_caps extra_frame_map_address (extra_frame_map_address + k * 4096)))
    (zrange n) = map (fun k => start_extra_frame_caps - k) (zrange n).
Proof using Type.
  intros Hs Hb Hn. apply map_ext_in. intros k Hk%in_zrange. apply map_frame_hack_backwards; lia.
Qed.

End FrameHack.

End FrameHack.

(** ** SMC calls of the guest *)

Module Smc.

Inductive smc_call := SmcForward (smc_cap : Z) | SmcDefault.

Section Smc.
Variable answers : list smc_call -> Z.
(** The capability CAmkES has for a function, or 0. *)
Variable camkes_get_smc_cap : Z -> Z.
#[local] Instance smc_answers : Answers smc_call := {| reply := answers; succeeded _ r := r =? 0 |}.

Definition vm_smc_handler (id : Z) : M (list smc_call) Z :=
  let smc_cap := camkes_get_smc_cap id in
  if z2b smc_cap then ask (SmcForward smc_cap) else ask SmcDefault.

(** A call reaches the firmware only with the capability for its function. *)
Lemma smc_forwarded id s cap : exists r s', vm_smc_handler id s = Ok (r, s') /\
  (SmcForward cap ∈ s' -> SmcForward cap ∈ s \/ (cap <> 0 /\ cap = camkes_get_smc_cap id)).
Proof using Type.
  unfold vm_smc_handler, z2b. destruct (Z.eqb_spec (camkes_get_smc_cap id) 0) as [E|E]; cbn [negb];
    (eexists _, _; split; [reflexivity|]); cbn; rewrite elem_of_app, list_elem_of_singleton; intros [H|H]; try by left.
  injection H as ->. by right.
Qed.

End Smc.

End Smc.
