(* ===== verification/ArmVirtio.v ===== *)
(** The virtio devices of the ARM VMM: how the console and the network device are
    created (libs/libvirtio/src/virtio_console.c and virtio_net.c) and how the
    modules of the VMM set them up (components/VM_Arm/src/modules:
    virtio_net_virtqueue.c, virtio_net_arping.c).  What the devices do once
    they run is in NetArm and ConsoleArm.

    The PCI emulation, the virtqueue and the vswitch libraries are outside the
    repository: their calls are logged, their answers a parameter (Calls). *)

From S2P Require Import Prelude Calls NetArm ArmEvents ArmDevices.

Inductive virtio_call :=
(* libvirtio *)
| CookieAlloc
| CookieFree
| CommonMakeVirtioCon
| CommonMakeVirtioNet
| VmRegisterIrq (line : Z)
| VmInjectIrq (line : Z)
| IrqCallback (fn irq : Z)
| SetMac (fn : Z)
(* the modules *)
| VswitchInit
| QueueAlloc
| DeviceInitWithRecv (id : Z)
| DriverInitWithRecv (id : Z)
| VswitchConnect (mac : Z).

(** [virtio_net_callbacks_t]: which functions, null pointers are [None]. *)
Record net_callbacks := mkCallbacks {
  cb_tx : option Z;
  cb_irq : option Z;
  cb_get_mac : option Z }.

(** [struct vswitch_mapping] *)
Record vswitch_mapping := mkMapping { mac_addr : Z; recv_id : Z; send_id : Z }.

Class VirtioEnv := {
  virtio_answer : list virtio_call -> Z;
  (* the platform's virtio_plat.h *)
  VIRTIO_CON_PLAT_INTERRUPT_LINE : Z;
  VIRTIO_NET_PLAT_INTERRUPT_LINE : Z;
  vswitch_layout : list vswitch_mapping;
  (* the badge of a virtqueue's notification *)
  device_recv_badge : Z -> Z;
  driver_recv_badge : Z -> Z }.

(** The answers the code goes on with. *)
Definition virtio_succeeded (c : virtio_call) (r : Z) : bool :=
  match c with
  | QueueAlloc | CookieAlloc | CommonMakeVirtioCon | CommonMakeVirtioNet => negb (r =? 0)
  | VswitchInit | DeviceInitWithRecv _ | DriverInitWithRecv _ | VswitchConnect _ | VmInjectIrq _ => r =? 0
  | _ => true
  end.
#[export] Instance virtio_answers {E : VirtioEnv} : Answers virtio_call := {|
  reply := virtio_answer;
  succeeded := virtio_succeeded |}.

(** What a driver cookie holds. *)
Record net_cookie := mkCookie { ck_net : Z; ck_vm : bool; ck_tx : option Z; ck_irq : option Z }.
Record con_cookie := mkConCookie { cc_con : Z; cc_vm : bool }.

Definition VMods : Type := Mods virtio_call.
Definition V (T : Type) : Type := M VMods T.

Section Virtio.
Context {AE : ArmEnv} {E : VirtioEnv}.

(** * libvirtio *)

(** ** virtio_console.c *)

(** The device, or NULL, and the cookie unless it was freed. *)
Definition virtio_console_init : V (Z * option con_cookie) :=
  console_cookie ← ask CookieAlloc;
  if console_cookie =? 0 then mret (0, None)
  else
    virtio_con ← ask CommonMakeVirtioCon;
    err ← ask (VmRegisterIrq VIRTIO_CON_PLAT_INTERRUPT_LINE);
    if z2b err then do_ CookieFree;; mret (0, None)
    else mret (virtio_con, Some (mkConCookie virtio_con true)).

Definition console_handle_irq (cookie : option con_cookie) : V unit :=
  match cookie with
  | Some c => if cc_vm c then do_ (VmInjectIrq VIRTIO_CON_PLAT_INTERRUPT_LINE) else mret tt
  | None => mret tt
  end.

(** ** virtio_net.c *)

Definition emul_raw_handle_irq (cookie : option net_cookie) (irq : Z) : V unit :=
  match cookie with
  | None => mret tt
  | Some c =>
      err ← ask (VmInjectIrq VIRTIO_NET_PLAT_INTERRUPT_LINE);
      if z2b err then mret tt
      else match ck_irq c with Some f => do_ (IrqCallback f irq) | None => mret tt end
  end.

(** The function that writes the address, and the MTU. *)
Definition emul_low_level_init (get_mac_addr_callback : option Z) : V Z :=
  match get_mac_addr_callback with
  | Some f => do_ (SetMac f);; mret MAX_MTU_DATA
  | None => fail NullDeref
  end.

(** The device, or NULL, its cookie and [get_mac_addr_callback]. *)
Definition virtio_net_init (callbacks : option net_callbacks) : V (Z * option net_cookie * option Z) :=
  match callbacks with
  | None => fail NullDeref
  | Some cb =>
      driver_cookie ← ask CookieAlloc;
      if driver_cookie =? 0 then mret (0, None, cb_get_mac cb)
      else
        virtio_net ← ask CommonMakeVirtioNet;
        if virtio_net =? 0 then do_ CookieFree;; mret (0, None, cb_get_mac cb)
        else
          do_ (VmRegisterIrq VIRTIO_NET_PLAT_INTERRUPT_LINE);;
          mret (virtio_net, Some (mkCookie virtio_net true (cb_tx cb) (cb_irq cb)), cb_get_mac cb)
  end.

(** * The modules *)

(** The functions, by name. *)
Definition fn_self_mac : Z := 1.
Definition fn_arping_reply : Z := 2.
Definition fn_tx_virtqueue_forward : Z := 3.
Definition fn_virtio_net_notify : Z := 4.

Definition make_arping_virtio_net : V (Z * option net_cookie * option Z) :=
  virtio_net_init (Some (mkCallbacks (Some fn_arping_reply) None (Some fn_self_mac))).

(** The body of the loop over the connections. *)
Definition connect_node (m : vswitch_mapping) : V unit :=
  must_ptr QueueAlloc;;
  must_ptr QueueAlloc;;
  must (DeviceInitWithRecv (recv_id m));;
  register (mkAsyncHandler (device_recv_badge (recv_id m)) fn_virtio_net_notify 0);;
  must (DriverInitWithRecv (send_id m));;
  register (mkAsyncHandler (driver_recv_badge (send_id m)) fn_virtio_net_notify 0);;
  must (VswitchConnect (mac_addr m)).

Definition make_virtqueue_virtio_net : V (Z * option net_cookie * option Z) :=
  virtio_net ← virtio_net_init (Some (mkCallbacks (Some fn_tx_virtqueue_forward) None (Some fn_self_mac)));
  must VswitchInit;;
  for_each vswitch_layout connect_node;;
  mret virtio_net.

End Virtio.

(** * Theorems *)

Section Theorems.
Context {AE : ArmEnv} {E : VirtioEnv}.

(** ** Devices *)

(** A network device is created exactly if there is memory for its cookie and
    the library makes it; the error of the registration of its interrupt is not
    looked at, as it is for the console. *)
Lemma net_init_result cb (s : VMods) :
  let p1 := virtio_answer (md_calls s ++ [CookieAlloc]) in
  let p2 := virtio_answer (md_calls s ++ [CookieAlloc; CommonMakeVirtioNet]) in
  exists s', virtio_net_init (Some cb) s = Ok (
    if (p1 =? 0) || (p2 =? 0) then (0, None, cb_get_mac cb)
    else (p2, Some (mkCookie p2 true (cb_tx cb) (cb_irq cb)), cb_get_mac cb), s') /\ md_arm s' = md_arm s.
Proof using Type.
  unfold virtio_net_init, do_, ask, mbind, M_bind. cbn. rewrite <-?app_assoc. cbn [app].
  destruct (virtio_answer (md_calls s ++ [CookieAlloc]) =? 0); cbn; [by eexists|].
  rewrite <-!app_assoc. cbn [app].
  destruct (virtio_answer (md_calls s ++ [CookieAlloc; CommonMakeVirtioNet]) =? 0); cbn; by eexists.
Qed.

Lemma console_init_result (s : VMods) :
  let p1 := virtio_answer (md_calls s ++ [CookieAlloc]) in
  let p2 := virtio_answer (md_calls s ++ [CookieAlloc; CommonMakeVirtioCon]) in
  let err := virtio_answer (md_calls s ++ [CookieAlloc; CommonMakeVirtioCon; VmRegisterIrq VIRTIO_CON_PLAT_INTERRUPT_LINE]) in
  exists s', virtio_console_init s = Ok (
    if (p1 =? 0) || z2b err then (0, None) else (p2, Some (mkConCookie p2 true)), s').
Proof using Type.
  unfold virtio_console_init, do_, ask, mbind, M_bind. cbn. rewrite <-?app_assoc. cbn [app].
  destruct (virtio_answer (md_calls s ++ [CookieAlloc]) =? 0); cbn; [by eexists|].
  rewrite <-!app_assoc. cbn [app]. destruct (z2b _); cbn; by eexists.
Qed.

(** An interrupt of the back end is injected into the guest, and the back end's
    callback runs if it has one and the injection succeeded. *)
Lemma raw_irq_calls c irq (s : VMods) :
  exists s', emul_raw_handle_irq (Some c) irq s = Ok (tt, s') /\
    md_calls s' = md_calls s ++ VmInjectIrq VIRTIO_NET_PLAT_INTERRUPT_LINE ::
      (if z2b (virtio_answer (md_calls s ++ [VmInjectIrq VIRTIO_NET_PLAT_INTERRUPT_LINE])) then []
       else match ck_irq c with Some f => [IrqCallback f irq] | None => [] end).
Proof using Type.
  unfold emul_raw_handle_irq, do_, ask, mbind, M_bind. cbn. destruct (z2b _); [by eexists|].
  destruct (ck_irq c); [|by eexists]. eexists. split; [done|]. cbn. by rewrite <-app_assoc.
Qed.

(** ** Connections *)

Definition node_calls (m : vswitch_mapping) : list virtio_call :=
  [QueueAlloc; QueueAlloc; DeviceInitWithRecv (recv_id m); DriverInitWithRecv (send_id m); VswitchConnect (mac_addr m)].
Definition node_handlers (m : vswitch_mapping) : list async_event_handler :=
  [mkAsyncHandler (device_recv_badge (recv_id m)) fn_virtio_net_notify 0;
   mkAsyncHandler (driver_recv_badge (send_id m)) fn_virtio_net_notify 0].

(** The calls [es] have been made and the handlers [hs] registered. *)
Definition set_up (s0 : VMods) (es : list virtio_call) (hs hs0 : list async_event_handler) (s : VMods) : Prop :=
  md_calls s = md_calls s0 ++ es /\ handlers (hs0 ++ hs) (md_arm s) /\ arm_log (md_arm s) = arm_log (md_arm s0).

Lemma set_up_calls s0 es hs hs0 es' s :
  set_up s0 es hs hs0 s -> set_up s0 (es ++ es') hs hs0 (add_calls es' s).
Proof using Type. intros (H1 & H2 & H3). split; [cbn; by rewrite H1, <-app_assoc|by split]. Qed.

(** Stepping over a call, over a registration. *)
Lemma wlp_call {T} m es' s0 es hs hs0 (k : V T) Q s :
  straight m es' -> set_up s0 es hs hs0 s ->
  (forall s', set_up s0 (es ++ es') hs hs0 s' -> wlp k Q s') -> wlp (m;; k) Q s.
Proof using Type.
  intros Hm H Hk. apply wlp_bind. eapply straight_wlp; [exact Hm|]. by apply Hk, set_up_calls.
Qed.

Lemma wlp_register {T} s0 es hs hs0 h (k : V T) Q s :
  set_up s0 es hs hs0 s ->
  (forall s', set_up s0 es (hs ++ [h]) hs0 s' -> wlp k Q s') -> wlp (register h;; k) Q s.
Proof using Type.
  intros (H1 & H2 & H3) Hk. apply wlp_bind. eapply wlp_mono; [by apply (register_wlp (hs0 ++ hs))|].
  intros _ s' (a & -> & Ha & Hl). apply Hk. split; [done|]. cbn. rewrite app_assoc. split; [done|by rewrite Hl].
Qed.

Ltac set_up_step H :=
  first [ eapply wlp_call; [straight1|exact H|] | eapply wlp_register; [exact H|] ]; clear H; intros ? H.

Lemma connect_set_up s0 es hs hs0 m s :
  set_up s0 es hs hs0 s ->
  wlp (connect_node m) (fun _ => set_up s0 (es ++ node_calls m) (hs ++ node_handlers m) hs0) s.
Proof using Type.
  intros H. unfold connect_node. do 6 set_up_step H. eapply straight_wlp; [straight1|].
  apply (set_up_calls _ _ _ _ [VswitchConnect (mac_addr m)]) in H. by rewrite <-!app_assoc in H.
Qed.

Lemma connect_all_set_up ms s0 es hs hs0 s :
  set_up s0 es hs hs0 s ->
  wlp (for_each ms connect_node)
    (fun _ => set_up s0 (es ++ concat (map node_calls ms)) (hs ++ concat (map node_handlers ms)) hs0) s.
Proof using Type.
  revert es hs s. induction ms as [|m ms IH]; intros es hs s H; cbn [for_each map concat].
  { rewrite !app_nil_r. by apply wlp_ret. }
  apply wlp_bind. eapply wlp_mono; [by apply connect_set_up|]. intros [] s1 H1.
  rewrite !app_assoc. by apply IH.
Qed.

(** The calls of the library for the device. *)
Definition net_calls (r : Z * option net_cookie * option Z) : list virtio_call :=
  match snd (fst r) with
  | Some _ => [CookieAlloc; CommonMakeVirtioNet; VmRegisterIrq VIRTIO_NET_PLAT_INTERRUPT_LINE]
  | None => []
  end.

Lemma net_init_arm cb (s : VMods) :
  wlp (virtio_net_init cb) (fun r s' => md_arm s' = md_arm s /\ exists es, md_calls s' = md_calls s ++ es) s.
Proof using Type.
  destruct cb as [cb|]; [|done]. unfold virtio_net_init, do_, ask, wlp, mbind, M_bind, mret, M_ret. cbn.
  repeat (case_match; simplify_eq/=); (split; [done|]); rewrite <-?app_assoc; by eexists.
Qed.

Lemma module_wlp hs (s : VMods) :
  handlers hs (md_arm s) ->
  wlp make_virtqueue_virtio_net (fun _ s' => exists es,
    set_up s (es ++ VswitchInit :: concat (map node_calls vswitch_layout)) (concat (map node_handlers vswitch_layout)) hs s') s.
Proof using Type.
  intros Hh. unfold make_virtqueue_virtio_net. apply wlp_bind. eapply wlp_mono; [apply net_init_arm|].
  intros r s1 [Ha [es Hes]].
  assert (set_up s es [] hs s1) as H by (split; [done|]; rewrite Ha, app_nil_r; by split).
  set_up_step H. apply wlp_bind. eapply wlp_mono; [by apply connect_all_set_up|].
  intros [] s2 H2. apply wlp_ret. exists es. by rewrite <-app_assoc in H2.
Qed.

(** When the library succeeds, and the allocations do. *)
Section Succeed.
Hypothesis Hall : all_succeed (C := virtio_call).
Hypothesis Hok : forall k, alloc_ok k = true.

Lemma wp_call {T} m es (k : V T) Q (s : VMods) : straight m es -> wp k Q (add_calls es s) -> wp (m;; k) Q s.
Proof using Hall. intros Hm Hk. apply wp_bind. eapply straight_wp; [exact Hm|by apply all_checked|exact Hk]. Qed.

Lemma wp_register {T} hs h (k : V T) Q (s : VMods) :
  handlers hs (md_arm s) -> (forall s1, handlers (hs ++ [h]) (md_arm s1) -> wp k Q s1) -> wp (register h;; k) Q s.
Proof using Hok.
  intros Hh Hk. destruct (register_ok hs h s Hok Hh) as (a & E1 & H1 & _).
  apply wp_bind. eapply wp_of_eq; [exact E1|]. by apply Hk.
Qed.

Lemma connect_ok hs m (s : VMods) :
  handlers hs (md_arm s) -> wp (connect_node m) (fun _ s' => handlers (hs ++ node_handlers m) (md_arm s')) s.
Proof using Hall Hok.
  intros Hh. unfold connect_node. do 3 (eapply wp_call; [straight1|]).
  eapply wp_register; [exact Hh|]. intros s1 H1. eapply wp_call; [straight1|].
  eapply wp_register; [exact H1|]. intros s2 H2. rewrite <-app_assoc in H2.
  eapply straight_wp; [straight1|by apply all_checked|exact H2].
Qed.

Lemma connect_all_ok ms hs (s : VMods) : handlers hs (md_arm s) -> wp (for_each ms connect_node) (fun _ _ => True) s.
Proof using Hall Hok.
  revert hs s. induction ms as [|m ms IH]; intros hs s Hh; cbn [for_each]; [by apply wp_ret|].
  apply wp_bind. eapply wp_mono; [by apply connect_ok|]. intros [] s1 H1. by eapply IH.
Qed.

Lemma module_ok hs (s : VMods) : handlers hs (md_arm s) -> wp make_virtqueue_virtio_net (fun _ _ => True) s.
Proof using Hall Hok.
  intros Hh. unfold make_virtqueue_virtio_net.
  destruct (net_init_result (mkCallbacks (Some fn_tx_virtqueue_forward) None (Some fn_self_mac)) s) as (s1 & E1 & Ha).
  apply wp_bind. eapply wp_of_eq; [exact E1|]. eapply wp_call; [straight1|].
  apply wp_bind. eapply wp_mono; [apply (connect_all_ok _ hs); cbn; by rewrite Ha|]. intros. by apply wp_ret.
Qed.

End Succeed.

Lemma node_notified hs m badge label a :
  m ∈ vswitch_layout -> handlers (hs ++ concat (map node_handlers vswitch_layout)) a ->
  VUSB_NBADGE = None -> badge <> 0 ->
  (badge .& device_recv_badge (recv_id m) = device_recv_badge (recv_id m) \/
   badge .& driver_recv_badge (send_id m) = driver_recv_badge (send_id m)) ->
  exists a', handle_async_event badge label a = Ok (0, a') /\ RunCallback fn_virtio_net_notify 0 ∈ arm_log a'.
Proof using Type.
  intros Hm Hh Hv Hb Hbits. eexists. split; [by apply event_run1|]. cbn. rewrite elem_of_app. right.
  unfold event_calls. rewrite Hv. destruct (Z.eqb_spec badge 0); [done|].
  apply list_elem_of_In, in_map_iff.
  set (h := mkAsyncHandler (if badge .& device_recv_badge (recv_id m) =? device_recv_badge (recv_id m)
                            then device_recv_badge (recv_id m) else driver_recv_badge (send_id m)) fn_virtio_net_notify 0).
  exists h. split; [done|]. apply filter_In. split.
  - apply in_or_app. right. apply in_concat. exists (node_handlers m). split.
    + apply in_map. by apply list_elem_of_In.
    + unfold h, node_handlers. destruct (_ =? _); [by left|by right; left].
  - unfold waits_for, h. cbn [ah_badge].
    destruct (Z.eqb_spec (badge .& device_recv_badge (recv_id m)) (device_recv_badge (recv_id m))) as [E1|Hne].
    + by rewrite E1, Z.eqb_refl.
    + destruct Hbits as [| ->]; [done|]. apply Z.eqb_refl.
Qed.

(** C33 -- The virtqueue network device.  When the module's initialisation returns,
    every connection of the layout has been set up, in order, and a
    notification that carries the badge of either queue of any of them runs the
    callback that serves all queues; otherwise the VMM stops.  It returns if the
    library and the allocations succeed. *)
Theorem arm_net_connected (hs : list async_event_handler) (s : VMods) :
  handlers hs (md_arm s) -> VUSB_NBADGE = None ->
  wlp make_virtqueue_virtio_net (fun _ s' =>
    (exists es, md_calls s' = md_calls s ++ es ++ VswitchInit :: concat (map node_calls vswitch_layout)) /\
    arm_log (md_arm s') = arm_log (md_arm s) /\
    forall m badge label, m ∈ vswitch_layout -> badge <> 0 ->
      (badge .& device_recv_badge (recv_id m) = device_recv_badge (recv_id m) \/
       badge .& driver_recv_badge (send_id m) = driver_recv_badge (send_id m)) ->
      exists a', handle_async_event badge label (md_arm s') = Ok (0, a') /\
        RunCallback fn_virtio_net_notify 0 ∈ arm_log a') s /\
  (all_succeed (C := virtio_call) -> (forall k, alloc_ok k = true) ->
   exists r s', make_virtqueue_virtio_net s = Ok (r, s')).
Proof using Type.
  intros Hh Hv. split.
  - eapply wlp_mono; [by apply module_wlp|]. intros _ s' (es & H1 & H2 & H3). split_and!.
    + by exists es.
    + exact H3.
    + intros m badge label Hm Hb Hbits. by eapply node_notified.
  - intros Hall Hok. destruct (wp_ok _ _ _ (module_ok Hall Hok hs s Hh)) as (r & s' & E1 & _). by exists r, s'.
Qed.

End Theorems.

(** * Witness *)

(** Two guests connected, on a VMM where everything succeeds. *)
#[local] Instance demo_arm : ArmEnv := {|
  alloc_ok n := true;
  vm_register_irq l irq := 0;
  irq_server_register_irq l irq := 5;
  acknowledge f d := 0;
  linux_pt_irqs := [];
  camkes_dtb_get_irqs := None;
  get_custom_irq_handler := None;
  VUSB_NBADGE := None |}.
#[local] Instance demo_virtio : VirtioEnv := {|
  virtio_answer l :=
    match list.last l with Some (QueueAlloc | CookieAlloc | CommonMakeVirtioCon | CommonMakeVirtioNet) => 64 | _ => 0 end;
  VIRTIO_CON_PLAT_INTERRUPT_LINE := 160;
  VIRTIO_NET_PLAT_INTERRUPT_LINE := 161;
  vswitch_layout := [mkMapping 101 0 1; mkMapping 102 2 3];
  device_recv_badge id := 2 ^ id;
  driver_recv_badge id := 2 ^ id |}.

Lemma virtio_demo_succeeds : all_succeed (C := virtio_call).
Proof. intros l c. unfold succeeded, reply. cbn. rewrite last_snoc. by destruct c. Qed.

(** The second guest has used a buffer that was sent to it. *)
Lemma arm_net_connected_witness :
  exists r s' a', make_virtqueue_virtio_net (mkMods virtio_call arm_bss []) = Ok (r, s') /\
    handle_async_event 8 0 (md_arm s') = Ok (0, a') /\ RunCallback fn_virtio_net_notify 0 ∈ arm_log a'.
Proof.
  destruct (arm_net_connected [] (mkMods virtio_call arm_bss [])) as [H1 H2]; [done|done|].
  destruct (H2 virtio_demo_succeeds ltac:(done)) as (r & s' & E1). exists r, s'.
  destruct (wlp_inv _ _ _ _ _ H1 E1) as (_ & _ & H3).
  destruct (H3 (mkMapping 102 2 3) 8 0) as (a' & E2 & E3); [right; by left|done|right; reflexivity|].
  exists a'. split; [exact E1|]. split; [exact E2|exact E3].
Defined.
