(* ===== verification/ArmStart.v ===== *)
(** Starting and restarting the ARM VMM (components/VM_Arm/src/main.c: run,
    main_continued, vmm_init, vm_new_io_mapper, reset_resources,
    restart_event): the order in which the component sets up its allocator, its
    interrupt server, the virtual machine, its devices and images, the run loop,
    and what a restart resets.

    It composes the other ARM components: ArmBoot (device tree and images),
    ArmEvents (interrupts and notifications) and ArmMem (untyped memory).  Calls
    of the libraries and the kernel are logged with their arguments, and their
    answers are a parameter. *)

From Stdlib Require Import String.
From stdpp Require Import gmap.
From S2P Require Import Prelude Calls ArmEvents ArmMem ArmBoot.

(** * Calls *)

Inductive start_call :=
| RestartEventRegCallback
| InstallFileserver
| TcbBindNotification
| VmmPciInit
| VmmIoPortInit (start : Z)
(* vmm_init *)
| CamkesMakeSimple
| BootstrapAllocman (start_slot end_slot : Z)
| BootstrapVspace
| MallocCookie
| MuxSysInit
| DmaManInit
| AllocEndpoint
| NewMallocOps
| IrqServerNew (prio label num_irqs : Z)
| IrqServerThreadNew
(* main_continued *)
| VmInit
| RegisterUnhandledMemFault
| RegisterNotification
| IospaceCapCount
| AddIospace (cap : Z)
| CbAssignVspace
| SidBindCb
| CreateDefaultIrqController
| RegisterSmcHandler
| CreateVcpu (prio : Z)
| AssignVcpuTarget (vcpu target : Z)
| DebugHalt
| VcpuStart
| VmRun
(* restart *)
| TcbWriteRegisters
| ProcessRebootCallbacks.

Class StartEnv := {
  (* the answer to the last call of the log *)
  answer : list start_call -> Z;
  (* what the vm_run call that was just made delivers to the VMM *)
  deliver : list start_call -> list run_op;
  (* the handlers a module registers *)
  module_handlers : string -> list async_event_handler;
  (* camkes_make_simple *)
  simple_last_valid_cap : Z;
  simple_cnode_size_bits : Z;
  simple_untyped_count : Z;
  simple_get_nth_untyped : Z -> untyped;
  camkes_dtb_untypeds : option (Z * (Z -> untyped));
  allocman_add_uts : list (untyped * ut_pool) -> untyped -> ut_pool -> Z;
  (* libutils and the kernel's configuration *)
  DIV_ROUND_UP : Z -> Z -> Z;
  seL4_BadgeBits : Z;
  CONFIG_PLAT_EXYNOS5410 : bool;
  CONFIG_TK1_SMMU : bool;
  CONFIG_ARM_SMMU : bool;
  CONFIG_ALLOW_SMC_CALLS : bool;
  CONFIG_MAX_NUM_NODES : Z;
  iospace_caps : list Z;
  (* attributes of the component *)
  num_extra_frame_caps : Z;
  base_prio : option Z;
  num_vcpus : option Z;
  cfg : vm_config;
  phys_base : Z;
  entry_addr : Z;
  clean_cache : bool;
  map_one_to_one : bool }.

Class StartLaws (E : StartEnv) : Prop := {
  div_round_up_spec n b : 0 <= n -> 0 < b -> DIV_ROUND_UP n b = (n + b - 1) / b;
  badge_bits_pos : 0 < seL4_BadgeBits }.

(** The static variables of the component, and those of [vm_t] that
    main_continued sets itself. *)
Record Start := mkStart {
  a_boot : BootState;
  a_arm : VmArm;
  a_pools : list (untyped * ut_pool);
  VM_PRIO : Z;
  NUM_VCPUS : Z;
  start_extra_frame_caps : Z;
  vm_entry : Z;
  vm_clean_cache : bool;
  vm_map_one_to_one : bool;
  a_log : list start_call }.
#[export] Instance eta_Start : Eta Start := fun s =>
  mkStart (a_boot s) (a_arm s) (a_pools s) (VM_PRIO s) (NUM_VCPUS s) (start_extra_frame_caps s)
          (vm_entry s) (vm_clean_cache s) (vm_map_one_to_one s) (a_log s).
Definition A (T : Type) : Type := M Start T.

(** The variables of .bss are zero; [VM_PRIO] and [NUM_VCPUS] have initial values. *)
Definition start_statics : Start :=
  mkStart (mkBoot None []) arm_bss [] VM_PRIO_DEFAULT NUM_VCPUS_DEFAULT 0 0 false false [].

Definition FREE_IOPORT_START : Z := 0x1000.

(** The answers the code goes on with. *)
Definition start_succeeded (c : start_call) (r : Z) : bool :=
  match c with
  | BootstrapAllocman _ _ | MallocCookie | IrqServerNew _ _ _ | CreateVcpu _ => negb (r =? 0)
  | IrqServerThreadNew => 0 <=? r
  | RestartEventRegCallback | InstallFileserver | CamkesMakeSimple | DebugHalt => true
  | _ => r =? 0
  end.
#[export] Instance start_answers {E : StartEnv} : Answers start_call := {|
  reply := answer;
  succeeded := start_succeeded |}.
#[export] Instance start_log : CallLog Start start_call.
Proof.
  refine {| calls_of := a_log; add_calls := fun es s => s <| a_log := a_log s ++ es |> |}.
  - intros s. rewrite app_nil_r. by destruct s.
  - intros e1 e2 s. cbn. by rewrite <-app_assoc.
  - done.
Defined.

(** * Operations *)

Section Start.
Context {U : Utils} {B : BootEnv} {AE : ArmEnv} {E : StartEnv}.

Definition on_boot {T} (m : Boot T) : A T := zoom (fun s => Some (a_boot s)) (fun b s => s <| a_boot := b |>) m.
Definition on_arm {T} (m : Arm T) : A T := zoom (fun s => Some (a_arm s)) (fun a s => s <| a_arm := a |>) m.
Definition on_pools {T} (m : Pools T) : A T := zoom (fun s => Some (a_pools s)) (fun p s => s <| a_pools := p |>) m.

(** [if (err) { ..; seL4_DebugHalt(); return -1; }] *)
Definition or_halt (m k : A Z) : A Z := err ← m; if z2b err then do_ DebugHalt;; mret (-1) else k.
Infix "?;" := or_fail (at level 100, right associativity).

(** ** vmm_init *)

Definition vm_new_io_mapper : A Z :=
  cookie ← ask MallocCookie;
  if cookie =? 0 then mret (-1) else mret 0.

Definition num_pt_irqs : Z :=
  Z.of_nat (List.length linux_pt_irqs) +
  match camkes_dtb_get_irqs with Some dtb_irqs => Z.of_nat (List.length dtb_irqs) | None => 0 end.
Definition num_irq_threads : Z := DIV_ROUND_UP num_pt_irqs seL4_BadgeBits.

Definition vmm_init : A Z :=
  do_ CamkesMakeSimple;;
  modify (fun s => s <| start_extra_frame_caps := simple_last_valid_cap + 1 |>);;
  must_ptr (BootstrapAllocman (simple_last_valid_cap + 1 + num_extra_frame_caps) (BIT simple_cnode_size_bits));;
  on_pools (vmm_init_untypeds allocman_add_uts (mkRam phys_base (ram_size cfg)) simple_untyped_count
              simple_get_nth_untyped camkes_dtb_untypeds) ?;
  must BootstrapVspace;;
  (err ← vm_new_io_mapper; assertC (err =? 0));;
  when CONFIG_PLAT_EXYNOS5410 (must MuxSysInit);;
  must DmaManInit;;
  must AllocEndpoint;;
  must NewMallocOps;;
  s ← get;
  must_ptr (IrqServerNew (VM_PRIO s + 1) IRQ_MESSAGE_LABEL 256);;
  for_each (zrange (Z.to_nat num_irq_threads)) (fun _ => must_id IrqServerThreadNew);;
  mret 0.

(** ** main_continued *)

Definition config_smmu : A unit :=
  when CONFIG_TK1_SMMU (must IospaceCapCount;; for_each iospace_caps (fun iospace => must (AddIospace iospace)));;
  when CONFIG_ARM_SMMU (must CbAssignVspace;; must SidBindCb).

Definition create_vm : A unit :=
  must VmInit;;
  must RegisterUnhandledMemFault;;
  must RegisterNotification;;
  modify (fun s => s <| vm_entry := entry_addr |> <| vm_clean_cache := clean_cache |>
                     <| vm_map_one_to_one := map_one_to_one |>);;
  config_smmu;;
  must CreateDefaultIrqController;;
  when CONFIG_ALLOW_SMC_CALLS (must RegisterSmcHandler);;
  s ← get;
  for_each (zrange (Z.to_nat (NUM_VCPUS s))) (fun _ => must_ptr (CreateVcpu (VM_PRIO s - 1))).

(** A module's [init_module], as far as notifications are concerned: it
    registers its handlers.  When that fails, vconsole and virtio_net stop the
    VMM ([ZF_LOGF_IF]), virtio_con returns and leaves out the rest. *)
Definition registration_fatal (m : string) : bool := String.eqb m "vconsole" || String.eqb m "virtio_net".
Fixpoint register_handlers (fatal : bool) (hs : list async_event_handler) : Arm unit :=
  match hs with
  | [] => mret tt
  | h :: hs =>
      err ← register_async_event_handler h;
      if z2b err then (if fatal then fail AssertFailed else mret tt) else register_handlers fatal hs
  end.
Definition init_module (m : string) : A unit :=
  on_boot (call (InitModule m));; on_arm (register_handlers (registration_fatal m) (module_handlers m)).
Definition install_vm_devices : A Z :=
  on_boot install_vpci ?;
  for_each vmm_modules init_module;;
  mret 0.

(** Up to the start of the boot processor. *)
Definition main_setup : A Z :=
  do_ RestartEventRegCallback;;
  do_ InstallFileserver;;
  must TcbBindNotification;;
  on_boot (vm_dtb_init cfg) ?;
  or_err (ask VmmPciInit) (
  or_err (ask (VmmIoPortInit FREE_IOPORT_START)) (
  (err ← vmm_init; assertC (err =? 0));;
  create_vm;;
  on_boot (if generate_dtb cfg then plat_vcpu_node else mret 0) ?;
  ask (AssignVcpuTarget 0 0) ?;
  on_arm route_irqs ?;
  or_halt install_vm_devices (
  or_halt (s ← get; on_boot (load_vm_images (NUM_VCPUS s) cfg)) (
  ask VcpuStart ?;
  mret 0)))).

(** What comes from outside while [vm_run] runs is handled by the VMM. *)
Definition vm_run : A Z :=
  err ← ask VmRun;
  s ← get;
  on_arm (for_each (deliver (a_log s)) (run_exec all_irqs));;
  mret err.

(** [n] rounds of the loop: the result when it is left. *)
Fixpoint run_loop (n : nat) : A (option Z) :=
  match n with
  | O => mret None
  | S n =>
      err ← vm_run;
      if z2b err then do_ DebugHalt;; mret (Some (-1)) else run_loop n
  end.

Definition main_continued (n : nat) : A (option Z) :=
  err ← main_setup;
  if z2b err then mret (Some err) else run_loop n.

Definition run (n : nat) : A (option Z) :=
  modify (fun s => s <| VM_PRIO := run_vm_prio base_prio |>
                     <| NUM_VCPUS := run_num_vcpus CONFIG_MAX_NUM_NODES num_vcpus |>);;
  main_continued n.

End Start.

(** * What a start does *)

Section Started.
Context {U : Utils} {B : BootEnv} {AE : ArmEnv} {E : StartEnv}.

Lemma straight_io_mapper : straight (err ← vm_new_io_mapper; assertC (err =? 0)) [MallocCookie].
Proof. intros s. unfold vm_new_io_mapper, ask, mbind, M_bind. cbn. rewrite andb_true_r. by destruct (_ =? 0). Qed.

(** The state [n] with the log [l ++ es]. *)
Definition st (n : Start) (l es : list start_call) : Start := n <| a_log := l ++ es |>.

Lemma st_add n l e es : add_calls es (st n l e) = st n l (e ++ es).
Proof. unfold st. cbn. by rewrite <-app_assoc. Qed.
Lemma st_start s : s = st s (a_log s) [].
Proof. unfold st. rewrite app_nil_r. by destruct s. Qed.

(** Stepping over a straight piece, a change of a variable, a reading. *)
Lemma wlp_straight {T} m n l e es (k : unit -> A T) Q :
  straight m es -> checked l e = true ->
  (checked l (e ++ es) = true -> wlp (k tt) Q (st n l (e ++ es))) -> wlp (m ≫= k) Q (st n l e).
Proof.
  intros Hm He H. apply wlp_bind. unfold wlp at 1. rewrite Hm, st_add.
  change (calls_of (st n l e)) with (l ++ e). rewrite checked_app, He in H.
  destruct (checked (l ++ e) es); [by apply H|done].
Qed.
Lemma wp_straight {T} m n l e es (k : unit -> A T) Q :
  straight m es -> checked l (e ++ es) = true -> wp (k tt) Q (st n l (e ++ es)) -> wp (m ≫= k) Q (st n l e).
Proof.
  intros Hm Hc H. apply wp_bind. unfold wp at 1. rewrite Hm, st_add.
  change (calls_of (st n l e)) with (l ++ e). rewrite checked_app in Hc. by apply andb_prop in Hc as [_ ->].
Qed.
Lemma wlp_of_straight m n l e es Q :
  straight m es -> checked l e = true ->
  (checked l (e ++ es) = true -> Q tt (st n l (e ++ es))) -> wlp m Q (st n l e).
Proof.
  intros Hm He H. unfold wlp. rewrite Hm, st_add.
  change (calls_of (st n l e)) with (l ++ e). rewrite checked_app, He in H.
  destruct (checked (l ++ e) es); [by apply H|done].
Qed.
Lemma wlp_change {T} f n l e (k : unit -> A T) Q :
  f (st n l e) = st (f n) l e -> wlp (k tt) Q (st (f n) l e) -> wlp (modify f ≫= k) Q (st n l e).
Proof. intros H. unfold wlp, mbind, M_bind, modify. by rewrite H. Qed.
Lemma wp_change {T} f n l e (k : unit -> A T) Q :
  f (st n l e) = st (f n) l e -> wp (k tt) Q (st (f n) l e) -> wp (modify f ≫= k) Q (st n l e).
Proof. intros H. unfold wp, mbind, M_bind, modify. by rewrite H. Qed.
Lemma wlp_read {T} (k : Start -> A T) Q s : wlp (k s) Q s -> wlp (get ≫= k) Q s.
Proof. done. Qed.
Lemma wp_read {T} (k : Start -> A T) Q s : wp (k s) Q s -> wp (get ≫= k) Q s.
Proof. done. Qed.

(** Pieces that return an error. *)
Lemma wlp_or_halt m k Q s :
  wlp m (on_success (fun s' => wlp k (on_success Q) s')) s -> wlp (or_halt m k) (on_success Q) s.
Proof.
  intros H. apply wlp_bind. eapply wlp_mono; [exact H|]. intros err s1 H1.
  apply wlp_if; intros Hb; [done|apply H1, z2b_false, Hb].
Qed.
Lemma wlp_ask n l e c Q :
  (forall r, succeeded c r = (r =? 0)) -> checked l e = true ->
  (checked l (e ++ [c]) = true -> Q (st n l (e ++ [c]))) -> wlp (ask c) (on_success Q) (st n l e).
Proof.
  intros Hc He H E0. rewrite checked_app, He in H. change (Q (add_calls [c] (st n l e))). rewrite st_add. apply H.
  change (reply ((l ++ e) ++ [c]) = 0) in E0. cbn [checked andb]. by rewrite Hc, E0.
Qed.

(** The other components. *)
Lemma wlp_on_boot {T} (m : Boot T) (Q : T -> Start -> Prop) n l e :
  wlp m (fun a b => Q a (st (n <| a_boot := b |>) l e)) (a_boot n) -> wlp (on_boot m) Q (st n l e).
Proof. intros H. eapply wlp_zoom; [done|exact H]. Qed.
Lemma wlp_on_arm {T} (m : Arm T) (Q : T -> Start -> Prop) n l e :
  wlp m (fun a b => Q a (st (n <| a_arm := b |>) l e)) (a_arm n) -> wlp (on_arm m) Q (st n l e).
Proof. intros H. eapply wlp_zoom; [done|exact H]. Qed.
Lemma wlp_on_pools {T} (m : Pools T) (Q : T -> Start -> Prop) n l e :
  wlp m (fun a b => Q a (st (n <| a_pools := b |>) l e)) (a_pools n) -> wlp (on_pools m) Q (st n l e).
Proof. intros H. eapply wlp_zoom; [done|exact H]. Qed.
Lemma wp_on_boot {T} (m : Boot T) (Q : T -> Start -> Prop) n l e :
  wp m (fun a b => Q a (st (n <| a_boot := b |>) l e)) (a_boot n) -> wp (on_boot m) Q (st n l e).
Proof. intros H. eapply wp_zoom; [done|exact H]. Qed.
Lemma wp_on_arm {T} (m : Arm T) (Q : T -> Start -> Prop) n l e :
  wp m (fun a b => Q a (st (n <| a_arm := b |>) l e)) (a_arm n) -> wp (on_arm m) Q (st n l e).
Proof. intros H. eapply wp_zoom; [done|exact H]. Qed.
Lemma wp_on_pools {T} (m : Pools T) (Q : T -> Start -> Prop) n l e :
  wp m (fun a b => Q a (st (n <| a_pools := b |>) l e)) (a_pools n) -> wp (on_pools m) Q (st n l e).
Proof. intros H. eapply wp_zoom; [done|exact H]. Qed.

(** ** The calls of each part *)

Definition vmm_init_calls1 : list start_call :=
  [CamkesMakeSimple; BootstrapAllocman (simple_last_valid_cap + 1 + num_extra_frame_caps) (BIT simple_cnode_size_bits)].
Definition vmm_init_calls2 (prio : Z) : list start_call :=
  [BootstrapVspace; MallocCookie] ++ (if CONFIG_PLAT_EXYNOS5410 then [MuxSysInit] else []) ++
  [DmaManInit; AllocEndpoint; NewMallocOps; IrqServerNew (prio + 1) IRQ_MESSAGE_LABEL 256] ++
  replicate (Z.to_nat num_irq_threads) IrqServerThreadNew.
Definition smmu_calls : list start_call :=
  (if CONFIG_TK1_SMMU then IospaceCapCount :: map AddIospace iospace_caps else []) ++
  (if CONFIG_ARM_SMMU then [CbAssignVspace; SidBindCb] else []).
Definition create_vm_calls (prio n : Z) : list start_call :=
  [VmInit; RegisterUnhandledMemFault; RegisterNotification] ++ smmu_calls ++ [CreateDefaultIrqController] ++
  (if CONFIG_ALLOW_SMC_CALLS then [RegisterSmcHandler] else []) ++ replicate (Z.to_nat n) (CreateVcpu (prio - 1)).
(** All the calls of a start, with priority [prio] and [n] processors. *)
Definition start_calls (prio n : Z) : list start_call :=
  [RestartEventRegCallback; InstallFileserver; TcbBindNotification; VmmPciInit; VmmIoPortInit FREE_IOPORT_START] ++
  vmm_init_calls1 ++ vmm_init_calls2 prio ++ create_vm_calls prio n ++ [AssignVcpuTarget 0 0; VcpuStart].

(** The straight pieces of the code. *)
Ltac straight1 := first [Calls.straight1 | apply straight_io_mapper].

Lemma config_smmu_calls : straight config_smmu smmu_calls.
Proof.
  unfold config_smmu, smmu_calls. apply straight_bind; apply straight_when.
  - apply (straight_bind _ _ [IospaceCapCount]); [straight1|].
    rewrite <-(concat_single AddIospace). apply straight_each. intros. straight1.
  - apply (straight_bind _ _ [CbAssignVspace]); straight1.
Qed.
Lemma irq_threads_calls n :
  straight (for_each (zrange n) (fun _ => must_id IrqServerThreadNew)) (replicate n IrqServerThreadNew).
Proof. rewrite <-concat_replicate. apply straight_each. intros. straight1. Qed.
Lemma vcpus_calls n prio :
  straight (for_each (zrange n) (fun _ => must_ptr (CreateVcpu prio))) (replicate n (CreateVcpu prio)).
Proof. rewrite <-concat_replicate. apply straight_each. intros. straight1. Qed.

(** Steps over a straight piece with a lemma for it, and keeps the log flat. *)
Ltac flat C := repeat progress (cbn [app] in C |- *; rewrite <-?app_assoc in C; rewrite <-?app_assoc).
Ltac run_piece H C :=
  eapply wlp_straight; [H|exact C|]; clear C; intros C; flat C.

(** The variables after [vmm_init]. *)
Definition vmm_started (n : Start) : Start :=
  n <| start_extra_frame_caps := simple_last_valid_cap + 1 |>
    <| a_pools := a_pools n ++ pools_of (mkRam phys_base (ram_size cfg)) simple_untyped_count
                                  simple_get_nth_untyped camkes_dtb_untypeds |>.
Definition vmm_init_calls (prio : Z) : list start_call := vmm_init_calls1 ++ vmm_init_calls2 prio.

Lemma vmm_init_wlp n l e :
  checked l e = true ->
  wlp vmm_init (on_success (fun s' => checked l (e ++ vmm_init_calls (VM_PRIO n)) = true /\
    s' = st (vmm_started n) l (e ++ vmm_init_calls (VM_PRIO n)))) (st n l e).
Proof.
  intros C. unfold vmm_init. run_piece straight1 C. apply wlp_change; [done|]. run_piece straight1 C.
  apply wlp_or_fail, wlp_on_pools. eapply wlp_mono; [apply vmm_init_untypeds_run|].
  intros r p Hp Hr. rewrite (Hp Hr). clear r Hp Hr.
  do 6 run_piece straight1 C. apply wlp_read. change (VM_PRIO (st _ _ _)) with (VM_PRIO n). run_piece straight1 C. run_piece ltac:(apply irq_threads_calls) C.
  apply wlp_ret. intros _.
  flat C. by split.
Qed.

Lemma create_vm_wlp n l e :
  checked l e = true ->
  wlp create_vm (fun _ s' => checked l (e ++ create_vm_calls (VM_PRIO n) (NUM_VCPUS n)) = true /\
    s' = st (n <| vm_entry := entry_addr |> <| vm_clean_cache := clean_cache |> <| vm_map_one_to_one := map_one_to_one |>)
            l (e ++ create_vm_calls (VM_PRIO n) (NUM_VCPUS n))) (st n l e).
Proof.
  intros C. unfold create_vm. do 3 run_piece straight1 C. apply wlp_change; [done|].
  run_piece ltac:(apply config_smmu_calls) C. do 2 run_piece straight1 C. apply wlp_read.
  change (VM_PRIO (st _ _ _)) with (VM_PRIO n). change (NUM_VCPUS (st _ _ _)) with (NUM_VCPUS n).
  eapply wlp_of_straight; [apply vcpus_calls|exact C|]. clear C. intros C.
  flat C. by split.
Qed.

(** ** Devices *)

(** The table of handlers after the registrations [hs], the [k]-th allocation
    being the next: nothing if the VMM stops. *)
Fixpoint enrol (fatal : bool) (hs : list async_event_handler) (t : table) (k : nat) : option (table * nat) :=
  match hs with
  | [] => Some (t, k)
  | h :: hs =>
      if alloc_ok k then
        match t with Enrolled l => enrol fatal hs (Enrolled (l ++ [h])) (S k) | Lost _ => None end
      else if fatal then None else Some (lose t, S k)
  end.
Fixpoint enrol_modules (ms : list string) (t : table) (k : nat) : option (table * nat) :=
  match ms with
  | [] => Some (t, k)
  | m :: ms =>
      match enrol (registration_fatal m) (module_handlers m) t k with
      | Some (t, k) => enrol_modules ms t k
      | None => None
      end
  end.

(** With memory everything is registered. *)
Lemma enrol_all fatal hs l k :
  (forall k, alloc_ok k = true) -> enrol fatal hs (Enrolled l) k = Some (Enrolled (l ++ hs), (k + length hs)%nat).
Proof.
  intros Hok. revert l k. induction hs as [|h hs IH]; intros l k; cbn [enrol length].
  - by rewrite app_nil_r, Nat.add_0_r.
  - by rewrite Hok, IH, <-app_assoc, Nat.add_succ_r.
Qed.
Lemma enrol_modules_all ms l k :
  (forall k, alloc_ok k = true) ->
  exists k', enrol_modules ms (Enrolled l) k = Some (Enrolled (l ++ flat_map module_handlers ms), k').
Proof.
  intros Hok. revert l k. induction ms as [|m ms IH]; intros l k; cbn [enrol_modules flat_map].
  - exists k. by rewrite app_nil_r.
  - rewrite enrol_all by done. destruct (IH (l ++ module_handlers m) (k + length (module_handlers m))%nat) as (k' & ->).
    exists k'. by rewrite <-app_assoc.
Qed.

(** What registering the handlers of a module does. *)
Definition enrolled (s : VmArm) (t : table) (k : nat) (s' : VmArm) : Prop :=
  table_is t s' /\ allocs s' = k /\ arm_log s' = arm_log s /\ tokens s' = tokens s.

Lemma register_handlers_run fatal hs t s :
  table_is t s ->
  match enrol fatal hs t (allocs s) with
  | Some (t', k') => exists s', register_handlers fatal hs s = Ok (tt, s') /\ enrolled s t' k' s'
  | None => exists f, register_handlers fatal hs s = Fault f
  end.
Proof.
  revert t s. induction hs as [|h hs IH]; intros t s Ht; cbn [enrol register_handlers].
  { exists s. by split. }
  destruct (alloc_ok (allocs s)) eqn:Ha.
  - destruct t as [l|n].
    + destruct (register_run l h s Ht Ha) as (s1 & E1 & H1 & A1 & L1 & T1). rewrite (bind_ok _ _ _ _ _ E1).
      cbn [z2b negb Z.eqb]. specialize (IH (Enrolled (l ++ [h])) s1 H1). rewrite A1 in IH. unfold enrolled in *.
      by rewrite L1, T1 in IH.
    + exists OutOfBounds. by apply bind_fault, (register_lost n).
  - destruct (register_failed t h s Ht Ha) as (s1 & E1 & H1 & A1 & L1 & T1). rewrite (bind_ok _ _ _ _ _ E1).
    cbn [z2b negb Z.eqb]. destruct fatal; [by exists AssertFailed|]. by exists s1.
Qed.

(** The modules are initialised in the order of their section. *)
Lemma init_modules_run ms n l e t :
  table_is t (a_arm n) ->
  match enrol_modules ms t (allocs (a_arm n)) with
  | Some (t', k') => exists a', enrolled (a_arm n) t' k' a' /\
      for_each ms init_module (st n l e) = Ok (tt, st (n <| a_arm := a' |>
        <| a_boot := (a_boot n) <| boot_log := boot_log (a_boot n) ++ map InitModule ms |> |>) l e)
  | None => exists f, for_each ms init_module (st n l e) = Fault f
  end.
Proof.
  revert n t. induction ms as [|m ms IH]; intros n t Ht; cbn [for_each enrol_modules map].
  { exists (a_arm n). split; [by split|]. rewrite app_nil_r. by destruct n as [[] ? ? ? ? ? ? ? ? ?]. }
  pose proof (register_handlers_run (registration_fatal m) (module_handlers m) t (a_arm n) Ht) as Hr.
  destruct (enrol (registration_fatal m) (module_handlers m) t (allocs (a_arm n))) as [[t1 k1]|].
  - destruct Hr as (a1 & E1 & H1 & A1 & L1 & T1).
    set (n1 := n <| a_arm := a1 |> <| a_boot := (a_boot n) <| boot_log := boot_log (a_boot n) ++ [InitModule m] |> |>).
    assert (init_module m (st n l e) = Ok (tt, st n1 l e)) as Em.
    { unfold init_module, on_arm, on_boot, zoom, mbind, M_bind. cbn. by rewrite E1. }
    specialize (IH n1 t1 H1). change (a_arm n1) with a1 in IH. rewrite A1 in IH. unfold enrolled in *. rewrite L1, T1 in IH.
    rewrite (bind_ok _ _ _ _ _ Em). destruct (enrol_modules ms t1 k1) as [[t2 k2]|]; [|exact IH].
    destruct IH as (a' & H2 & E2). exists a'. split; [exact H2|]. rewrite E2. cbn. by rewrite <-app_assoc.
  - destruct Hr as [f Ef]. exists f. apply bind_fault. unfold init_module, on_arm, on_boot, zoom, mbind, M_bind. cbn.
    by rewrite Ef.
Qed.

(** ** The whole start *)

Definition all_handlers : list async_event_handler := flat_map module_handlers vmm_modules.
(** The calls of the device tree and of the modules that come before loading
    the images; [this] is the node of the memory. *)
Definition boot_prelude (this : Z) : list boot_call :=
  (if generate_dtb cfg then selection ++ [GenerateDtb (base_dtb cfg); FreeContext] ++ memory_node cfg this ++ [PlatVcpuNode]
   else []) ++
  (if CONFIG_VM_PCI_SUPPORT then [InstallVpci] else []) ++ map InitModule vmm_modules.

(** What has been done, from the state [s], when the boot processor has been started. *)
Record started (s s' : Start) : Prop := {
  st_calls : a_log s' = a_log s ++ start_calls (VM_PRIO s) (NUM_VCPUS s);
  st_checked : checked (a_log s) (start_calls (VM_PRIO s) (NUM_VCPUS s)) = true;
  st_pools : a_pools s' = a_pools s ++ pools_of (mkRam phys_base (ram_size cfg)) simple_untyped_count
                                       simple_get_nth_untyped camkes_dtb_untypeds;
  st_flags : vm_entry s' = entry_addr /\ vm_clean_cache s' = clean_cache /\ vm_map_one_to_one s' = map_one_to_one;
  st_attributes : VM_PRIO s' = VM_PRIO s /\ NUM_VCPUS s' = NUM_VCPUS s;
  (* the table the registrations have given, the tokens of the interrupts being
     allocated before *)
  st_handlers : exists t k,
    enrol_modules vmm_modules (Enrolled []) (allocs (a_arm s) + length all_irqs) = Some (t, k) /\
    table_is t (a_arm s');
  st_all_handlers : (forall k, alloc_ok k = true) -> handlers all_handlers (a_arm s');
  st_tokens : tokens_of all_irqs (a_arm s') /\ forall k, pending_ack k (a_arm s') = [];
  st_routed : arm_log (a_arm s') = arm_log (a_arm s) ++ route_calls 0 all_irqs;
  st_booted : exists this es, boot_log (a_boot s') = boot_log (a_boot s) ++ boot_prelude this ++ es /\
                booted cfg (NUM_VCPUS s) (boot_log (a_boot s) ++ boot_prelude this) es }.

(** No interrupt is routed and no handler registered yet. *)
Definition not_started_yet (s : Start) : Prop := handlers [] (a_arm s) /\ tokens (a_arm s) = [].

Lemma plat_vcpu_wlp b :
  wlp (if generate_dtb cfg then plat_vcpu_node else mret 0)
    (fun r b' => boot_log b' = boot_log b ++ (if generate_dtb cfg then [PlatVcpuNode] else [])) b.
Proof. destruct (generate_dtb cfg); [done|]. apply wlp_ret. by rewrite app_nil_r. Qed.

Lemma install_vpci_wlp b :
  wlp install_vpci (fun r b' => boot_log b' = boot_log b ++ (if CONFIG_VM_PCI_SUPPORT then [InstallVpci] else [])) b.
Proof.
  unfold install_vpci. destruct CONFIG_VM_PCI_SUPPORT; [|apply wlp_ret; by rewrite app_nil_r].
  apply wlp_bind. eapply wlp_of_eq; [done|]. by apply wlp_if; intros _; apply wlp_ret.
Qed.

Lemma dtb_init_wlp b :
  wlp (vm_dtb_init cfg) (on_success (fun b' => exists this,
    boot_log b' = boot_log b ++ (if generate_dtb cfg then selection ++ [GenerateDtb (base_dtb cfg); FreeContext] ++ memory_node cfg this
                                 else []))) b.
Proof.
  apply wlp_of_wp. eapply wp_mono; [apply arm_dtb_init|]. intros r b' (_ & H1 & H2) ->.
  destruct (generate_dtb cfg).
  - destruct (H2 eq_refl eq_refl) as (this & _ & ->). by exists this.
  - exists 0. destruct (H1 eq_refl) as [_ ->]. by rewrite app_nil_r.
Qed.

Lemma route_irqs_wlp a :
  tokens a = [] -> handlers [] a ->
  wlp route_irqs (fun r a' => r = 0 -> handlers [] a' /\ tokens_of all_irqs a' /\ (forall k, pending_ack k a' = []) /\
    arm_log a' = arm_log a ++ route_calls 0 all_irqs /\ allocs a' = (allocs a + length all_irqs)%nat) a.
Proof.
  intros Ht Hh. destruct (route_irqs_run a) as (r & a' & E1 & R). eapply wlp_of_eq; [exact E1|]. intros ->.
  pose proof (wlp_inv _ _ _ _ _ (route_irqs_handlers [] a Hh) E1) as Hh'. destruct (routed_tokens_of a a' Ht R) as [Hto Hp].
  pose proof (wlp_inv _ _ _ _ _ (route_irqs_allocs a) E1 eq_refl) as Ha.
  split_and!; [done|done|done| |done]. destruct R as (routed & rest & toks & es & Ea & Hr & _ & Hl & Hm).
  assert (rest = []) as -> by (by apply Hr). destruct Hm as [_ ->]. rewrite !app_nil_r in *. by rewrite Hl, Ht, Ea.
Qed.

(** From the routing of interrupts on. *)
Definition main_devices : A Z :=
  or_halt install_vm_devices (
  or_halt (s ← get; on_boot (load_vm_images (NUM_VCPUS s) cfg)) (
  or_fail (ask VcpuStart) (mret 0))).

Lemma main_devices_wlp n l e :
  checked l e = true -> handlers [] (a_arm n) ->
  wlp main_devices (on_success (fun s' => exists arm boot es t k,
    s' = st (n <| a_arm := arm |> <| a_boot := boot |>) l (e ++ [VcpuStart]) /\ checked l (e ++ [VcpuStart]) = true /\
    enrol_modules vmm_modules (Enrolled []) (allocs (a_arm n)) = Some (t, k) /\ enrolled (a_arm n) t k arm /\
    boot_log boot = boot_log (a_boot n) ++ ((if CONFIG_VM_PCI_SUPPORT then [InstallVpci] else []) ++
      map InitModule vmm_modules) ++ es /\
    booted cfg (NUM_VCPUS n) (boot_log (a_boot n) ++ (if CONFIG_VM_PCI_SUPPORT then [InstallVpci] else []) ++
      map InitModule vmm_modules) es)) (st n l e).
Proof.
  intros C Hh. unfold main_devices.
  apply wlp_or_halt. unfold install_vm_devices. apply wlp_or_fail, wlp_on_boot.
  eapply wlp_mono; [apply install_vpci_wlp|]. intros r b1 L1 _. set (n1 := n <| a_boot := b1 |>).
  pose proof (init_modules_run vmm_modules n1 l e (Enrolled []) Hh) as Hm. change (a_arm n1) with (a_arm n) in Hm.
  destruct (enrol_modules vmm_modules (Enrolled []) (allocs (a_arm n))) as [[t k]|] eqn:Et.
  2:{ destruct Hm as [f Ef]. apply wlp_bind. unfold wlp. by rewrite Ef. }
  destruct Hm as (arm & H2 & E2).
  apply wlp_bind. eapply wlp_of_eq; [exact E2|]. apply wlp_ret. intros _. clear E2.
  apply wlp_or_halt, wlp_read, wlp_on_boot.
  set (b2 := b1 <| boot_log := boot_log b1 ++ map InitModule vmm_modules |>). pose proof (load_vm_images_follows cfg (NUM_VCPUS n) b2) as Hf. unfold follows in Hf.
  destruct (run_plan (boot_log b2) (boot_plan cfg (NUM_VCPUS n) (boot_log b2))) as [es ok] eqn:Er.
  destruct Hf as (r' & E3 & Hr'). eapply wlp_of_eq; [exact E3|]. intros ->. cbn in Hr'. subst ok.
  apply wlp_or_fail, wlp_ask; [done|exact C|]. clear C. intros C. apply wlp_ret. intros _.
  eexists arm, (log_calls es b2), es, t, k. split_and!; [done|done|done|exact H2| |].
  - unfold b2. cbn. rewrite L1. by rewrite <-!app_assoc.
  - unfold booted. rewrite <-Er. unfold b2. cbn. rewrite L1. by rewrite <-!app_assoc.
Qed.

Lemma main_setup_wlp s : not_started_yet s -> wlp main_setup (on_success (started s)) s.
Proof.
  intros [Hh Ht]. rewrite (st_start s) at 2. set (n := s) at 1. set (l := a_log s).
  assert (checked l [] = true) as C by done. unfold main_setup. fold main_devices.
  do 3 run_piece straight1 C. apply wlp_or_fail, wlp_on_boot. eapply wlp_mono; [apply dtb_init_wlp|].
  intros r b1 H1 Hr. destruct (H1 Hr) as (this & L1). clear r Hr H1.
  apply wlp_or_err, wlp_ask; [done|exact C|]. clear C. intros C.
  apply wlp_or_err, wlp_ask; [done|exact C|]. clear C. intros C.
  apply wlp_bind, wlp_bind. eapply wlp_mono; [by apply vmm_init_wlp|]. intros r s1 H1.
  apply wlp_assertC. intros Hr. destruct (H1 (proj1 (Z.eqb_eq _ _) Hr)) as [C1 ->]. clear C r Hr H1. rename C1 into C.
  apply wlp_bind. eapply wlp_mono; [by apply create_vm_wlp|]. clear C. intros [] s1 [C ->].
  apply wlp_or_fail, wlp_on_boot. eapply wlp_mono; [apply plat_vcpu_wlp|]. intros ? b2 L2 _. cbn in L2.
  apply wlp_or_fail, wlp_ask; [done|exact C|]. clear C. intros C.
  apply wlp_or_fail, wlp_on_arm. eapply wlp_mono; [by apply route_irqs_wlp|]. intros r a1 H1 Hr.
  destruct (H1 Hr) as (Hh1 & Ht1 & Hp1 & La & Aa). clear r Hr H1.
  eapply wlp_mono; [by apply main_devices_wlp|]. clear C. intros r s' H1 Hr.
  destruct (H1 Hr) as (arm & b3 & es & t & k & -> & C & Hen & (Htab & Hk & El & Et) & L3 & Hb). clear r Hr H1.
  cbn [a_arm update] in Hen, El, Et. cbn in Hen, El, Et. rewrite Aa in Hen.
  change (enrol_modules vmm_modules (Enrolled []) (allocs (a_arm s) + length all_irqs) = Some (t, k)) in Hen.
  assert (boot_log b2 ++ (if CONFIG_VM_PCI_SUPPORT then [InstallVpci] else []) ++ map InitModule vmm_modules
    = boot_log (a_boot n) ++ boot_prelude this) as Lp.
  { rewrite L2, L1. unfold boot_prelude. destruct (generate_dtb cfg); cbn; by rewrite <-?app_assoc; cbn; rewrite <-?app_assoc. }
  cbn in Hb, L3. rewrite Lp in Hb. rewrite app_assoc, Lp in L3.
  unfold vmm_init_calls in *. flat C. split; try done; cbn.
  - by exists t, k.
  - intros Hok. destruct (enrol_modules_all vmm_modules [] (allocs (a_arm s) + length all_irqs) Hok) as (k' & E').
    rewrite E' in Hen. by injection Hen as <- <-.
  - unfold tokens_of, pending_ack. by rewrite Et.
  - by rewrite El.
  - exists this, es. split; [by rewrite L3, <-app_assoc|exact Hb].
Qed.

(** ** When nothing fails *)

Record start_succeeds : Prop := {
  ss_calls l c : succeeded c (answer (l ++ [c])) = true;
  ss_boot : nothing_fails cfg;
  ss_routing : routing_succeeds;
  ss_add_uts l ut p : allocman_add_uts l ut p = 0;
  ss_untypeds : 0 <= simple_untyped_count /\ match camkes_dtb_untypeds with Some (cnt, _) => 0 <= cnt | None => True end }.

Section Succeeds.
Context (SS : start_succeeds).

(** No handler is registered while the virtual machine is set up. *)
Definition no_handlers (s : Start) : Prop := handlers [] (a_arm s).
Definition returns_0 (m : A Z) : Prop := forall s, no_handlers s -> wp m (fun r s' => r = 0 /\ no_handlers s') s.

Lemma wp_step {T} m es (k : unit -> A T) Q s :
  straight m es -> no_handlers s -> (forall s', no_handlers s' -> wp (k tt) Q s') -> wp (m ≫= k) Q s.
Proof using SS. intros Hm Hs H. apply wp_bind. unfold wp at 1. rewrite Hm, (all_checked _ _ (ss_calls SS)). by apply H. Qed.

Lemma returns_ret : returns_0 (mret 0).
Proof using Type. by intros s H. Qed.
Lemma wp_or_fail_ok m k Q s :
  returns_0 m -> no_handlers s -> (forall s', no_handlers s' -> wp k Q s') -> wp (or_fail m k) Q s.
Proof using Type. intros Hm Hs Hk. apply wp_bind. eapply wp_mono; [by apply Hm|]. intros r s1 [-> H1]. by apply Hk. Qed.
Lemma wp_or_err_ok m k Q s :
  returns_0 m -> no_handlers s -> (forall s', no_handlers s' -> wp k Q s') -> wp (or_err m k) Q s.
Proof using Type. intros Hm Hs Hk. apply wp_bind. eapply wp_mono; [by apply Hm|]. intros r s1 [-> H1]. by apply Hk. Qed.
Lemma returns_or_fail m k : returns_0 m -> returns_0 k -> returns_0 (or_fail m k).
Proof using Type. intros Hm Hk s Hs. by apply wp_or_fail_ok. Qed.
Lemma returns_ask c : (forall r, succeeded c r = (r =? 0)) -> returns_0 (ask c).
Proof using SS.
  intros Hc s H. pose proof (ss_calls SS (a_log s) c) as Ha. rewrite Hc in Ha. split; [by apply Z.eqb_eq in Ha|done].
Qed.
Lemma returns_boot (m : Boot Z) : (forall b, wp m (fun r _ => r = 0) b) -> returns_0 (on_boot m).
Proof using Type. intros H s Hs. eapply wp_zoom; [done|]. eapply wp_mono; [apply H|]. by intros r b ->. Qed.
Lemma returns_pools (m : Pools Z) : (forall b, wp m (fun r _ => r = 0) b) -> returns_0 (on_pools m).
Proof using Type. intros H s Hs. eapply wp_zoom; [done|]. eapply wp_mono; [apply H|]. by intros r b ->. Qed.
Lemma returns_routes : returns_0 (on_arm route_irqs).
Proof using SS.
  intros s Hs. eapply wp_zoom; [done|].
  apply wp_wlp; [by apply route_irqs_ok, SS|by apply route_irqs_handlers].
Qed.
Lemma returns_straight m es k : straight m es -> returns_0 k -> returns_0 (m;; k).
Proof using SS. intros Hm Hk s Hs. by eapply wp_step. Qed.

Lemma returns_change f k : (forall s, a_arm (f s) = a_arm s) -> returns_0 k -> returns_0 (modify f;; k).
Proof using Type. intros Hf Hk s Hs. apply wp_bind, wp_modify, Hk. unfold no_handlers. by rewrite Hf. Qed.
Lemma returns_read k : (forall s, returns_0 (k s)) -> returns_0 (s ← get; k s).
Proof using Type. intros Hk s Hs. by apply wp_bind, wp_get, Hk. Qed.
Ltac steps := repeat first
  [ eapply returns_straight; [first [straight1|apply config_smmu_calls|apply irq_threads_calls|apply vcpus_calls]|]
  | apply returns_change; [done|] | apply returns_read; intros ? | apply returns_ret ].

Lemma vmm_init_ok : returns_0 vmm_init.
Proof using SS.
  unfold vmm_init. steps. apply returns_or_fail; [|steps].
  apply returns_pools. intros. apply vmm_init_untypeds_ok; apply SS.
Qed.

Lemma create_vm_ok s : no_handlers s -> wp create_vm (fun _ => no_handlers) s.
Proof using SS.
  intros Hs. unfold create_vm. do 3 (eapply wp_step; [straight1|exact Hs|clear s Hs; intros s Hs]).
  apply wp_bind, wp_modify. eapply wp_step; [apply config_smmu_calls|exact Hs|]. clear s Hs. intros s Hs.
  do 2 (eapply wp_step; [straight1|exact Hs|clear s Hs; intros s Hs]).
  apply wp_bind, wp_get. unfold wp. by rewrite vcpus_calls, (all_checked _ _ (ss_calls SS)).
Qed.

Lemma main_devices_ok s : no_handlers s -> wp main_devices (fun r _ => r = 0) s.
Proof using SS.
  intros Hs. unfold main_devices. apply wp_bind.
  eapply wp_mono with (Q := fun r _ => r = 0).
  { apply wp_bind. eapply wp_mono; [apply returns_boot; [exact (install_vpci_ok cfg (ss_boot SS))|exact Hs]|]. intros r s1 [-> H1].
    pose proof (init_modules_run vmm_modules s1 (a_log s1) [] (Enrolled []) H1) as Hm.
    destruct (enrol_modules_all vmm_modules [] (allocs (a_arm s1))) as (k' & Ek); [apply SS|]. rewrite Ek in Hm.
    destruct Hm as (arm & _ & E1). rewrite <-st_start in E1. apply wp_bind. eapply wp_of_eq; [exact E1|]. by apply wp_ret. }
  intros r s1 ->. apply wp_bind, wp_bind, wp_get. eapply wp_zoom; [done|].
  eapply wp_mono; [apply load_vm_images_ok, SS|]. intros r b ->. apply wp_bind.
  pose proof (ss_calls SS (a_log s1) VcpuStart) as Ha. apply Z.eqb_eq in Ha. unfold wp, ask. cbn. by rewrite Ha.
Qed.

Lemma main_setup_ok s : no_handlers s -> wp main_setup (fun r _ => r = 0) s.
Proof using SS.
  intros Hs. unfold main_setup. fold main_devices.
  do 3 (eapply wp_step; [straight1|exact Hs|clear s Hs; intros s Hs]).
  apply wp_or_fail_ok; [apply returns_boot; intros; apply vm_dtb_init_ok, SS|done|]. clear s Hs. intros s Hs.
  apply wp_or_err_ok; [by apply returns_ask|done|]. clear s Hs. intros s Hs.
  apply wp_or_err_ok; [by apply returns_ask|done|]. clear s Hs. intros s Hs.
  apply wp_bind, wp_bind. eapply wp_mono; [by apply vmm_init_ok|]. clear s Hs. intros r s [-> Hs]. apply wp_ret.
  apply wp_bind. eapply wp_mono; [by apply create_vm_ok|]. clear s Hs. intros [] s Hs.
  apply wp_or_fail_ok; [apply returns_boot; intros b|done|].
  { destruct (generate_dtb cfg); [|done]. exact (nf_vcpu_node cfg (ss_boot SS) _). }
  clear s Hs. intros s Hs. apply wp_or_fail_ok; [by apply returns_ask|done|]. clear s Hs. intros s Hs.
  apply wp_or_fail_ok; [apply returns_routes|done|apply main_devices_ok].
Qed.

End Succeeds.

(** The threads of the interrupt server have a badge bit for every interrupt,
    and none is superfluous. *)
Lemma irq_threads_enough `{!StartLaws E} :
  num_pt_irqs = Z.of_nat (List.length all_irqs) /\
  num_pt_irqs <= num_irq_threads * seL4_BadgeBits < num_pt_irqs + seL4_BadgeBits.
Proof.
  pose proof badge_bits_pos as Hb.
  assert (num_pt_irqs = Z.of_nat (List.length all_irqs)) as E0.
  { unfold num_pt_irqs, all_irqs. rewrite length_app. destruct camkes_dtb_get_irqs; cbn; lia. }
  split; [done|]. unfold num_irq_threads. rewrite div_round_up_spec by lia.
  set (n := num_pt_irqs) in *. set (b := seL4_BadgeBits) in *.
  pose proof (Z.div_mod (n + b - 1) b ltac:(lia)). pose proof (Z.mod_pos_bound (n + b - 1) b Hb). nia.
Qed.

(** ** The run loop *)

(** What [n] rounds of the loop deliver, the log being [l], and how they end. *)
Fixpoint rounds (n : nat) (l : list start_call) : list run_op :=
  match n with
  | O => []
  | S n => deliver (l ++ [VmRun]) ++ (if z2b (answer (l ++ [VmRun])) then [] else rounds n (l ++ [VmRun]))
  end.
Fixpoint rounds_result (n : nat) (l : list start_call) : option Z :=
  match n with
  | O => None
  | S n => if z2b (answer (l ++ [VmRun])) then Some (-1) else rounds_result n (l ++ [VmRun])
  end.

Lemma run_loop_run n s a' :
  for_each (rounds n (a_log s)) (run_exec all_irqs) (a_arm s) = Ok (tt, a') ->
  exists s', run_loop n s = Ok (rounds_result n (a_log s), s') /\ a_arm s' = a'.
Proof.
  revert s. induction n as [|n IH]; intros s; cbn [rounds rounds_result run_loop]; [intros [= <-]; by exists s|].
  rewrite for_each_app. intros (u & a1 & E1 & E2)%bind_inv. destruct u.
  set (l1 := a_log s ++ [VmRun]) in *. set (s1 := s <| a_log := l1 |> <| a_arm := a1 |>).
  rewrite (bind_ok _ _ s (answer l1) s1).
  2:{ unfold vm_run, ask, on_arm, zoom, mbind, M_bind, get. cbn. fold l1. by rewrite E1. }
  destruct (z2b (answer l1)).
  - injection E2 as <-. by eexists.
  - by apply (IH s1).
Qed.

Lemma run_loop_fault n s f :
  for_each (rounds n (a_log s)) (run_exec all_irqs) (a_arm s) = Fault f -> run_loop n s = Fault f.
Proof.
  revert s. induction n as [|n IH]; intros s; cbn [rounds run_loop]; [done|].
  rewrite for_each_app. set (l1 := a_log s ++ [VmRun]) in *.
  destruct (for_each (deliver l1) (run_exec all_irqs) (a_arm s)) as [[u a1]|f1] eqn:E1.
  - destruct u. rewrite (bind_ok _ _ _ _ _ E1). set (s1 := s <| a_log := l1 |> <| a_arm := a1 |>).
    rewrite (bind_ok _ _ s (answer l1) s1).
    2:{ unfold vm_run, ask, on_arm, zoom, mbind, M_bind, get. cbn. fold l1. by rewrite E1. }
    destruct (z2b (answer l1)); [done|]. by apply (IH s1).
  - rewrite (bind_fault _ _ _ _ E1). intros [= ->]. apply bind_fault.
    unfold vm_run, ask, on_arm, zoom, mbind, M_bind, get. cbn. fold l1. by rewrite E1.
Qed.

(** C8 -- What a start has done.  A start of the ARM VMM that starts the boot
    processor has made exactly the calls of the component, in order and each
    with the success that is looked for: the allocator is given the slots above
    the system's own and the extra frames, every untyped is in the pool of its
    kind, the interrupt server has its priority and its threads, the virtual
    machine its processors.  Every interrupt is routed and unacknowledged, and
    the guest has been booted by the whole plan of its configuration, with the
    generated or provided device tree or none.  The handlers of all modules are
    registered in order if there is memory for them; the table is in every case
    the one that [enrol_modules] computes from the allocations that failed, which
    may have lost all handlers. *)
Theorem arm_start_checked (s : Start) :
  not_started_yet s -> wlp main_setup (on_success (started s)) s.
Proof. apply main_setup_wlp. Qed.

Lemma main_setup_total (s : Start) :
  start_succeeds -> not_started_yet s -> wp main_setup (fun r s' => r = 0 /\ started s s') s.
Proof.
  intros SS Hs. eapply wp_mono.
  - apply wp_wlp; [apply main_setup_ok; [exact SS|apply Hs]|].
    by apply main_setup_wlp.
  - cbn. intros r s' [-> H]. split; [done|by apply H].
Qed.

(** C15 -- Starting the ARM VMM.  When no call fails, the start does not stop:
    no assertion fails and no step returns an error, and the boot processor is
    started with everything set up. *)
Theorem arm_start (s : Start) :
  start_succeeds -> not_started_yet s -> wp main_setup (fun r s' => r = 0 /\ started s s') s.
Proof. apply main_setup_total. Qed.

(** C6 -- The running VMM serves its guest.  After a successful start there is a
    table of handlers -- that of the registrations that had memory, all of the
    modules' if every one had -- such that, whatever notifications and routed
    interrupts arrive in whatever order in [n] rounds of the run loop: if the
    table was not lost, each notification calls the handlers of the table that
    wait for its bits, in the order of the modules (the interrupt server's and
    the VUSB's have calls of their own), each interrupt that has the default
    handler is injected into the guest, and the acknowledgements, which the
    kernel accepts, are those of the interrupts that arrived; the loop is left
    only when [vm_run] fails, with -1.  If the table was lost (an allocation
    failed after a first registration) this holds as long as no notification
    arrives that needs it, and the first that does stops the VMM at its
    assertion. *)
Theorem arm_serves (s s1 : Start) (n : nat) :
  not_started_yet s -> main_setup s = Ok (0, s1) ->
  (forall f d, acknowledge f d = 0) -> irq_ops_ok all_irqs (irq_part (rounds n (a_log s1))) ->
  let ops := rounds n (a_log s1) in
  exists t k, enrol_modules vmm_modules (Enrolled []) (allocs (a_arm s) + length all_irqs) = Some (t, k) /\
    ((forall k, alloc_ok k = true) -> t = Enrolled all_handlers) /\
    if forallb (run_served t) ops then
      exists es s', run_loop n s1 = Ok (rounds_result n (a_log s1), s') /\
        arm_log (a_arm s') = arm_log (a_arm s) ++ route_calls 0 all_irqs ++ es /\
        notified es = notify_calls (table_handlers t) ops /\
        injections es = to_inject all_irqs (irq_part ops) /\
        acknowledged all_irqs (a_arm s1) (irq_part ops) es (a_arm s')
    else run_loop n s1 = Fault AssertFailed.
Proof.
  intros Hs E1 Hack Hops ops.
  pose proof (wlp_inv _ _ _ _ _ (main_setup_wlp s Hs) E1 eq_refl) as St.
  destruct (st_handlers _ _ St) as (t & k & Et & Ht). exists t, k. split; [done|]. split.
  { intros Hok. destruct (enrol_modules_all vmm_modules [] (allocs (a_arm s) + length all_irqs) Hok) as (k' & E').
    rewrite E' in Et. by injection Et as <- <-. }
  pose proof (run_execs_table t all_irqs ops (a_arm s1) Hack Ht (proj1 (st_tokens _ _ St)) Hops) as Hrun.
  destruct (forallb (run_served t) ops); [|by apply run_loop_fault].
  destruct Hrun as (es & a' & E2 & El & _ & _ & En & Ei & Ha).
  destruct (run_loop_run n s1 a' E2) as (s' & E3 & <-). exists es, s'.
  split_and!; [done| |done|done|done]. by rewrite El, (st_routed _ _ St), <-app_assoc.
Qed.

End Started.

(** * Witnesses *)

#[local] Existing Instances utils_ref boot_demo.

(** Memory for everything; two configured interrupts, one of the combiner's, and
    one from the device tree. *)
#[local] Instance arm_start_demo : ArmEnv := {|
  alloc_ok n := true;
  vm_register_irq l irq := 0;
  irq_server_register_irq l irq := 5;
  acknowledge f d := 0;
  linux_pt_irqs := [100; 40];
  camkes_dtb_get_irqs := Some [101];
  get_custom_irq_handler := Some exynos5410_get_custom_irq_handler;
  VUSB_NBADGE := None |}.

(** Every call succeeds; each round delivers a
    notification and an interrupt, which the guest ends. *)
#[local] Instance start_demo : StartEnv := {|
  answer l :=
    match rev l with
    | BootstrapAllocman _ _ :: _ | MallocCookie :: _ | IrqServerNew _ _ _ :: _ | CreateVcpu _ :: _ => 1
    | _ => 0
    end;
  deliver l := [RunNotification 7 0; RunIrq (IrqArrive 0 1 11); RunIrq (IrqEoi 0)];
  module_handlers m := [mkAsyncHandler 1 7 0; mkAsyncHandler 8 3 0; mkAsyncHandler 6 8 9];
  simple_last_valid_cap := 20;
  simple_cnode_size_bits := 6;
  simple_untyped_count := 2;
  simple_get_nth_untyped i := mkUntyped (10 + i) 20 (0x10000000 * i) (i =? 1);
  camkes_dtb_untypeds := None;
  allocman_add_uts l ut p := 0;
  DIV_ROUND_UP n b := (n + b - 1) / b;
  seL4_BadgeBits := 28;
  CONFIG_PLAT_EXYNOS5410 := true;
  CONFIG_TK1_SMMU := true;
  CONFIG_ARM_SMMU := false;
  CONFIG_ALLOW_SMC_CALLS := true;
  CONFIG_MAX_NUM_NODES := 4;
  iospace_caps := [3; 4];
  num_extra_frame_caps := 2;
  base_prio := None;
  num_vcpus := Some 2;
  cfg := demo_cfg;
  phys_base := 0x10000000;
  entry_addr := 0x40008000;
  clean_cache := true;
  map_one_to_one := false |}.

Lemma demo_fresh : not_started_yet start_statics.
Proof. done. Qed.

Lemma demo_routing : routing_succeeds.
Proof. by split. Qed.
Lemma demo_nothing_fails : @nothing_fails boot_demo demo_cfg.
Proof. split; try done; intros; repeat eexists; done. Qed.
Lemma demo_succeeds : @start_succeeds boot_demo arm_start_demo start_demo.
Proof.
  split; [|exact demo_nothing_fails|exact demo_routing|done|done].
  intros l c. unfold succeeded. cbn. rewrite rev_app_distr. by destruct c.
Qed.

Lemma arm_start_checked_witness :
  wlp (@main_setup utils_ref boot_demo arm_start_demo start_demo)
    (on_success (@started utils_ref boot_demo arm_start_demo start_demo start_statics)) start_statics.
Proof. apply (arm_start_checked start_statics); exact demo_fresh. Defined.

Lemma arm_start_witness :
  wp (@main_setup utils_ref boot_demo arm_start_demo start_demo)
    (fun r s' => r = 0 /\ @started utils_ref boot_demo arm_start_demo start_demo start_statics s') start_statics.
Proof. apply (arm_start start_statics); [exact demo_succeeds|exact demo_fresh]. Defined.

(** Three rounds of the demonstration. *)
Definition demo_started : Start := final (@main_setup utils_ref boot_demo arm_start_demo start_demo) start_statics.

Lemma arm_serves_witness :
  let ops := rounds 3 (a_log demo_started) in
  exists t k, enrol_modules vmm_modules (Enrolled []) (allocs (a_arm start_statics) + length all_irqs) = Some (t, k) /\
    ((forall k, alloc_ok k = true) -> t = Enrolled all_handlers) /\
    if forallb (run_served t) ops then
      exists es s', run_loop 3 demo_started = Ok (rounds_result 3 (a_log demo_started), s') /\
        arm_log (a_arm s') = arm_log (a_arm start_statics) ++ route_calls 0 all_irqs ++ es /\
        notified es = notify_calls (table_handlers t) ops /\
        injections es = to_inject all_irqs (irq_part ops) /\
        acknowledged all_irqs (a_arm demo_started) (irq_part ops) es (a_arm s')
    else run_loop 3 demo_started = Fault AssertFailed.
Proof.
  apply (@arm_serves utils_ref boot_demo arm_start_demo start_demo start_statics demo_started 3).
  - exact demo_fresh.
  - vm_compute. reflexivity.
  - done.
  - vm_compute. repeat (apply List.Forall_cons; [lia|]). apply List.Forall_nil.
Defined.
