(* ===== verification/ArmRestart.v ===== *)
(** Restarting the ARM VMM (components/VM_Arm/src/main.c: restart_component,
    restart_event, reset_resources and the setjmp loop of main_continued): the
    capabilities that are revoked and deleted, the memory that is zeroed, and
    what the next start therefore begins with.

    Memory is by bytes at the linker's addresses, which are parameters; the
    kernel's answers are too.  What the static variables hold is read from the
    bytes of the memory ([statics_in], the compiler's layout: a parameter with
    the laws of the C language that a variable without an initial value is zero
    when its bytes are, and that an unchanged variable has unchanged bytes).  So
    what a restart does to the variables follows from what it does to memory.
    A component is started, runs and is restarted any number of times: a step
    relation, whose steps between two restarts may do anything the code can do
    to what a restart has to undo. *)

From stdpp Require Import gmap.
From S2P Require Import Prelude Calls ArmEvents ArmMem ArmBoot ArmStart.

(** * State *)

(** A component: its static variables (ArmStart) and the DMA allocator's, its
    memory, the slots of its CNode that hold a capability, and the untypeds
    something has been made from. *)
Record Component := mkComponent {
  c_start : Start;
  c_dma : Dma;
  c_mem : Z -> Z;
  c_occupied : gset Z;
  c_derived : gset Z }.
#[export] Instance eta_Component : Eta Component := fun c =>
  mkComponent (c_start c) (c_dma c) (c_mem c) (c_occupied c) (c_derived c).
Definition Cp (A : Type) : Type := M Component A.

(** What the static variables hold: those without an initial value, and the
    initialised [VM_PRIO], [NUM_VCPUS] and the DMA allocator's [_vaddr]. *)
Record Statics := mkStatics {
  v_fdt_ori : option dtb_source;
  v_callback_idx : Z;
  v_callback_arr : option (list (option async_event_handler));
  v_pools : list (untyped * ut_pool);
  v_start_extra_frame_caps : Z;
  v_VM_PRIO : Z;
  v_NUM_VCPUS : Z;
  v_vaddr : Z }.

(** The linker's symbols, the size of a pointer, the layout of the static
    variables, and the kernel. *)
Class RestartEnv := {
  bss_start : Z;
  bss_end : Z;
  sym_libc : Z;
  sym_sysinfo : Z;
  sym_morecore_area : Z;
  sym_morecore_size : Z;
  sym_morecore_top : Z;
  SIZEOF_UINTPTR : nat;
  MORECORE_BYTES : Z;
  statics_in : (Z -> Z) -> Statics;
  (* the bytes of the variables without and with an initial value *)
  bss_variables : Z -> bool;
  data_variables : Z -> bool;
  (* by capability and depth *)
  seL4_CNode_Revoke : Z -> Z -> Z;
  seL4_CNode_Delete : Z -> Z -> Z;
  vmm_process_reboot_callbacks : Start -> Z }.

(** * Operations *)

(** Bytes in memory, least significant first. *)
Definition read_bytes (m : Z -> Z) (a : Z) (n : nat) : list Z := map (fun i => m (a + i)) (zrange n).
Definition write_bytes (m : Z -> Z) (a : Z) (l : list Z) : Z -> Z :=
  fun x => if (a <=? x) && (x <? a + Z.of_nat (length l)) then nth (Z.to_nat (x - a)) l 0 else m x.
Definition zero_bytes (m : Z -> Z) (a n : Z) : Z -> Z :=
  fun x => if (a <=? x) && (x <? a + n) then 0 else m x.
Definition pointer_bytes (n : nat) (p : Z) : list Z := map (fun i => u8 (p .>> (8 * i))) (zrange n).

Section Restart.
Context {U : Utils} {B : BootEnv} {AE : ArmEnv} {E : StartEnv} {D : DmaEnv} {RE : RestartEnv}.

(** The end of [reset_resources]. *)
Definition reset_memory (m : Z -> Z) : Z -> Z :=
  let save_libc := read_bytes m sym_libc 34 in
  let save_sysinfo := read_bytes m sym_sysinfo 4 in
  let save_morecore_area := read_bytes m sym_morecore_area 4 in
  let save_morecore_size := read_bytes m sym_morecore_size 4 in
  let m := zero_bytes m bss_start (bss_end - bss_start) in
  let m := write_bytes m sym_libc save_libc in
  let m := write_bytes m sym_sysinfo save_sysinfo in
  let m := write_bytes m sym_morecore_area save_morecore_area in
  let m := write_bytes m sym_morecore_size save_morecore_size in
  write_bytes m sym_morecore_top (pointer_bytes SIZEOF_UINTPTR (sym_morecore_area + MORECORE_BYTES)).

(** The state of a start, with the static variables read from memory.  The
    virtual machine's fields are on the stack; the calls, the tokens and the
    allocations counted are those of the start that begins. *)
Definition read_statics (m : Z -> Z) (s : Start) : Start :=
  let v := statics_in m in
  mkStart (mkBoot (v_fdt_ori v) []) (mkVmArm (v_callback_idx v) (v_callback_arr v) [] 0 []) (v_pools v)
          (v_VM_PRIO v) (v_NUM_VCPUS v) (v_start_extra_frame_caps v)
          (vm_entry s) (vm_clean_cache s) (vm_map_one_to_one s) [].

Definition CNODE_DEPTH : Z := 32.

Definition revoke (ut : Z) : Cp Z :=
  let error := seL4_CNode_Revoke ut CNODE_DEPTH in
  when (error =? 0) (modify (fun c => c <| c_derived := c_derived c ∖ {[ut]} |>));;
  mret error.
Definition delete_slot (slot : Z) : Cp unit :=
  when (seL4_CNode_Delete slot CNODE_DEPTH =? 0) (modify (fun c => c <| c_occupied := c_occupied c ∖ {[slot]} |>)).

(** The slots that should be empty. *)
Definition free_slots : list Z :=
  map (fun i => simple_last_valid_cap + 1 + i)
    (zrange (Z.to_nat (BIT simple_cnode_size_bits - (simple_last_valid_cap + 1)))).

Definition reset_resources : Cp unit :=
  for_each (zrange (Z.to_nat simple_untyped_count)) (fun i =>
    error ← revoke (ut_cap (simple_get_nth_untyped i)); assertC (error =? 0));;
  for_each free_slots delete_slot;;
  modify (fun c =>
    let m := reset_memory (c_mem c) in
    c <| c_mem := m |> <| c_start := read_statics m (c_start c) |>
      <| c_dma := (c_dma c) <| dma_vaddr := v_vaddr (statics_in m) |> |>).

(** [restart_event] prepares the restart of the thread at [restart_component];
    that jumps back to the setjmp of [main_continued], whose loop this is the
    body of ([ZF_LOGF] on an error). *)
Definition restart_event : A unit := do_ RestartEventRegCallback;; do_ TcbWriteRegisters.
Definition restart : Cp unit :=
  c ← get;
  assertC (vmm_process_reboot_callbacks (c_start c) =? 0);;
  reset_resources.

(** * The life of a component *)

(** The first start: the attributes have been read, the system has put nothing
    in the free slots but [num_extra_frame_caps] frames. *)
Definition first_start (s : Start) : Start :=
  s <| VM_PRIO := run_vm_prio base_prio |> <| NUM_VCPUS := run_num_vcpus CONFIG_MAX_NUM_NODES num_vcpus |>.

(** The memory holds the initialised variables. *)
Definition consistent (c : Component) : Prop :=
  let v := statics_in (c_mem c) in
  v_VM_PRIO v = VM_PRIO (c_start c) /\ v_NUM_VCPUS v = NUM_VCPUS (c_start c) /\ v_vaddr v = dma_vaddr (c_dma c).

Inductive step : Component -> Component -> Prop :=
| step_run c c' :
    (* starting, running, serving: memory and the static variables change in
       any way but for the attributes; the allocator fills slots and uses
       untypeds *)
    VM_PRIO (c_start c') = VM_PRIO (c_start c) ->
    NUM_VCPUS (c_start c') = NUM_VCPUS (c_start c) ->
    c_dma c' = c_dma c ->
    consistent c' ->
    (forall slot, slot ∈ c_occupied c' -> slot ∈ c_occupied c \/ In slot free_slots) ->
    (forall ut, ut ∈ c_derived c' -> ut ∈ c_derived c \/ exists i, In i (zrange (Z.to_nat simple_untyped_count)) /\
       ut = ut_cap (simple_get_nth_untyped i)) ->
    step c c'
| step_dma c r d m :
    dma_morecore (c_dma c) = Ok (r, d) -> consistent (c <| c_dma := d |> <| c_mem := m |>) ->
    step c (c <| c_dma := d |> <| c_mem := m |>)
| step_restart c c' :
    restart c = Ok (tt, c') -> step c c'.

Definition born (mem : Z -> Z) (occupied : gset Z) : Component :=
  mkComponent (first_start start_statics) dma_bss mem occupied ∅.

(** * Lemmas *)

(** ** Memory *)

Definition within (x a n : Z) : bool := (a <=? x) && (x <? a + n).

Lemma within_true x a n : within x a n = true <-> a <= x < a + n.
Proof. unfold within. lia. Qed.
Lemma within_false x a n : within x a n = false <-> ~ a <= x < a + n.
Proof. unfold within. lia. Qed.

Lemma read_bytes_nth m a n i : 0 <= i < Z.of_nat n -> nth (Z.to_nat i) (read_bytes m a n) 0 = m (a + i).
Proof.
  intros Hi. unfold read_bytes, zrange. rewrite map_map, nth_lookup, lookup_map, lookup_seq_lt by lia.
  cbn. f_equal. lia.
Qed.

Lemma length_read_bytes m a n : length (read_bytes m a n) = n.
Proof. unfold read_bytes. by rewrite length_map, length_zrange. Qed.

(** Writing back what was read from [m0]. *)
Lemma write_back m0 m a n x :
  write_bytes m a (read_bytes m0 a n) x = if within x a (Z.of_nat n) then m0 x else m x.
Proof.
  unfold write_bytes, within. rewrite length_read_bytes.
  destruct (Z.leb_spec a x), (Z.ltb_spec x (a + Z.of_nat n)); cbn [andb]; try done.
  rewrite read_bytes_nth by lia. f_equal. lia.
Qed.

Definition saved (x : Z) : bool :=
  within x sym_libc 34 || within x sym_sysinfo 4 || within x sym_morecore_area 4 || within x sym_morecore_size 4.

(** Every byte after a reset. *)
Lemma reset_memory_byte m x :
  reset_memory m x =
    if within x sym_morecore_top (Z.of_nat SIZEOF_UINTPTR) then u8 ((sym_morecore_area + MORECORE_BYTES) .>> (8 * (x - sym_morecore_top)))
    else if saved x then m x
    else if within x bss_start (bss_end - bss_start) then 0
    else m x.
Proof.
  unfold reset_memory. unfold write_bytes at 1. unfold pointer_bytes at 1. rewrite length_map, length_zrange. fold (within x sym_morecore_top (Z.of_nat SIZEOF_UINTPTR)).
  destruct (within x sym_morecore_top (Z.of_nat SIZEOF_UINTPTR)) eqn:Ht.
  - apply andb_true_iff in Ht as [H1%Z.leb_le H2%Z.ltb_lt]. unfold pointer_bytes, zrange.
    rewrite map_map, nth_lookup, lookup_map, lookup_seq_lt by lia. cbn. do 3 f_equal. lia.
  - rewrite !write_back. unfold saved, zero_bytes. fold (within x bss_start (bss_end - bss_start)).
    change (Z.of_nat 34) with 34. change (Z.of_nat 4) with 4.
    destruct (within x sym_morecore_size 4), (within x sym_morecore_area 4), (within x sym_sysinfo 4), (within x sym_libc 34); done.
Qed.

(** Where the linker puts the static variables, and what C says of them. *)
Class RestartLaws : Prop := {
  bss_placed x : bss_variables x = true ->
    within x bss_start (bss_end - bss_start) = true /\ saved x = false /\
    within x sym_morecore_top (Z.of_nat SIZEOF_UINTPTR) = false;
  data_placed x : data_variables x = true ->
    within x bss_start (bss_end - bss_start) = false /\ within x sym_morecore_top (Z.of_nat SIZEOF_UINTPTR) = false;
  bss_zero m : (forall x, bss_variables x = true -> m x = 0) ->
    let v := statics_in m in
    v_fdt_ori v = None /\ v_callback_idx v = 0 /\ v_callback_arr v = None /\ v_pools v = [] /\
    v_start_extra_frame_caps v = 0;
  data_kept m m' : (forall x, data_variables x = true -> m' x = m x) ->
    let v := statics_in m in let v' := statics_in m' in
    v_VM_PRIO v' = v_VM_PRIO v /\ v_NUM_VCPUS v' = v_NUM_VCPUS v /\ v_vaddr v' = v_vaddr v }.

(** The static variables after a reset. *)
Lemma read_reset {RL : RestartLaws} m s :
  read_statics (reset_memory m) s =
    start_statics <| VM_PRIO := v_VM_PRIO (statics_in m) |> <| NUM_VCPUS := v_NUM_VCPUS (statics_in m) |>
      <| vm_entry := vm_entry s |> <| vm_clean_cache := vm_clean_cache s |> <| vm_map_one_to_one := vm_map_one_to_one s |> /\
  v_vaddr (statics_in (reset_memory m)) = v_vaddr (statics_in m).
Proof.
  destruct (bss_zero (reset_memory m)) as (E1 & E2 & E3 & E4 & E5).
  { intros x (H1 & H2 & H3)%bss_placed. by rewrite reset_memory_byte, H1, H2, H3. }
  destruct (data_kept m (reset_memory m)) as (E6 & E7 & E8).
  { intros x (H1 & H2)%data_placed. rewrite reset_memory_byte, H1, H2. by destruct (saved x). }
  split; [|done]. unfold read_statics. by rewrite E1, E2, E3, E4, E5, E6, E7.
Qed.

(** ** Capabilities *)

Definition untyped_caps : gset Z :=
  list_to_set (map (fun i => ut_cap (simple_get_nth_untyped i)) (zrange (Z.to_nat simple_untyped_count))).

Lemma revoke_all_wlp (f : Z -> Z) ixs c :
  wlp (for_each ixs (fun i => error ← revoke (f i); assertC (error =? 0)))
    (fun _ c' => c' = c <| c_derived := c_derived c ∖ list_to_set (map f ixs) |>) c.
Proof.
  revert c. induction ixs as [|i ixs IH]; intros c; cbn [for_each map list_to_set].
  { apply wlp_ret. rewrite difference_empty_L. by destruct c. }
  apply wlp_bind. unfold revoke, wlp at 1, mbind, M_bind. cbn.
  destruct (Z.eqb_spec (seL4_CNode_Revoke (f i) CNODE_DEPTH) 0) as [E0|E0]; cbn.
  - rewrite E0. cbn. eapply wlp_mono; [apply IH|]. cbn. intros _ c' ->. unfold update. cbn. f_equal. set_solver.
  - destruct (Z.eqb_spec (seL4_CNode_Revoke (f i) CNODE_DEPTH) 0); done.
Qed.

(** The slots whose deletion the kernel carries out. *)
Definition deleted (slot : Z) : bool := seL4_CNode_Delete slot CNODE_DEPTH =? 0.

Lemma delete_all_run l c :
  for_each l delete_slot c = Ok (tt, c <| c_occupied := c_occupied c ∖ list_to_set (List.filter deleted l) |>).
Proof.
  revert c. induction l as [|x l IH]; intros c; cbn [for_each List.filter list_to_set].
  { rewrite difference_empty_L. by destruct c. }
  assert (delete_slot x c = Ok (tt, if deleted x then c <| c_occupied := c_occupied c ∖ {[x]} |> else c)) as Ex.
  { unfold delete_slot. fold (deleted x). by destruct (deleted x). }
  rewrite (bind_ok _ _ _ _ _ Ex), IH. destruct (deleted x); [|done]. unfold update. cbn. do 3 f_equal. set_solver.
Qed.

(** What a restart leaves. *)
Definition reset_component (c : Component) : Component :=
  let m := reset_memory (c_mem c) in
  mkComponent (read_statics m (c_start c)) ((c_dma c) <| dma_vaddr := v_vaddr (statics_in m) |>) m
    (c_occupied c ∖ list_to_set (List.filter deleted free_slots)) (c_derived c ∖ untyped_caps).

Lemma reset_wlp c : wlp restart (fun _ c' => c' = reset_component c) c.
Proof.
  unfold restart. apply wlp_bind. eapply wlp_of_eq; [done|]. apply wlp_bind, wlp_assertC. intros _.
  unfold reset_resources. apply wlp_bind. eapply wlp_mono; [apply (revoke_all_wlp (fun i => ut_cap (simple_get_nth_untyped i)))|].
  intros [] c1 ->. apply wlp_bind. eapply wlp_of_eq; [by apply delete_all_run|]. done.
Qed.

(** It comes to an end if the kernel revokes what it is asked to and the
    callbacks succeed. *)
Lemma restart_ok c :
  (forall ut, seL4_CNode_Revoke ut CNODE_DEPTH = 0) -> vmm_process_reboot_callbacks (c_start c) = 0 ->
  restart c = Ok (tt, reset_component c).
Proof.
  intros Hr Hc. assert (wp restart (fun _ _ => True) c) as H.
  { unfold restart. apply wp_bind, wp_get, wp_bind. rewrite Hc. apply wp_ret. unfold reset_resources. apply wp_bind.
    apply (wp_for_each (fun _ => True)); [done| |].
    - intros i c1 _ _. unfold revoke, wp, mbind, M_bind. cbn. by rewrite !Hr.
    - intros c1 _. apply wp_bind. unfold wp at 1. by rewrite delete_all_run. }
  pose proof (reset_wlp c) as Hw. unfold wp, wlp in *. destruct (restart c) as [[[] c']|]; [by rewrite Hw|done].
Qed.

(** ** The invariant of a component's life *)

Record alive (occupied : gset Z) (c : Component) : Prop := {
  al_prio : VM_PRIO (c_start c) = run_vm_prio base_prio;
  al_vcpus : NUM_VCPUS (c_start c) = run_num_vcpus CONFIG_MAX_NUM_NODES num_vcpus;
  al_slots : forall slot, slot ∈ c_occupied c -> slot ∈ occupied \/ In slot free_slots;
  al_derived : c_derived c ⊆ untyped_caps;
  al_consistent : consistent c;
  al_dma : Z.of_nat (length (dma_pages (c_dma c))) <= DMA_MAX_PAGES -> dma_ok (c_dma c) }.

Lemma dma_step_ok r d d' :
  dma_morecore d = Ok (r, d') ->
  (Z.of_nat (length (dma_pages d)) <= DMA_MAX_PAGES -> dma_ok d) ->
  Z.of_nat (length (dma_pages d')) <= DMA_MAX_PAGES -> dma_ok d'.
Proof.
  intros Hm Hd Hl. destruct (dma_morecore_run d) as (r' & d1 & E1 & Hr).
  { intros Hf. unfold dma_morecore, dma_tick, mbind, M_bind in Hm. by rewrite Hf in Hm. }
  rewrite Hm in E1. injection E1 as <- <-. destruct Hr as [[_ Ha]|[_ Hs]].
  - pose proof Ha as (desc & _ & Ep & _). rewrite Ep, length_app in Hl. cbn in Hl.
    apply (dma_ok_advanced d); [lia|done|apply Hd; lia].
  - apply (dma_ok_same d); [done|]. apply Hd. destruct Hs as [<- _]. done.
Qed.

(** The DMA allocator's state is untouched. *)
Lemma reset_dma {RL : RestartLaws} c : consistent c -> c_dma (reset_component c) = c_dma c.
Proof.
  intros (_ & _ & Hv). unfold reset_component. cbn [c_dma]. rewrite (proj2 (read_reset (c_mem c) (c_start c))), Hv.
  by destruct (c_dma c).
Qed.

Lemma alive_step {RL : RestartLaws} occupied c c' : step c c' -> alive occupied c -> alive occupied c'.
Proof.
  intros Hs [Hp Hn Hsl Hde Hco Hdma]. destruct Hs as [c c' E1 E2 E3 Hc' Hs' Hd'|c r d m Hm Hc'|c c' Hr].
  - split; rewrite ?E1, ?E2, ?E3; try done.
    + intros slot [H|H]%Hs'; [by apply Hsl|by right].
    + intros ut [H|(i & Hi & ->)]%Hd'; [by apply Hde|]. unfold untyped_caps.
      apply elem_of_list_to_set, list_elem_of_In, in_map_iff. eauto.
  - split; try done. cbn. by eapply dma_step_ok.
  - pose proof (wlp_inv _ _ _ _ _ (reset_wlp c) Hr) as ->.
    pose proof (reset_dma c Hco) as Ed. destruct (read_reset (c_mem c) (c_start c)) as [Es Ev].
    pose proof Hco as (Ep & En & Ed').
    assert (VM_PRIO (c_start (reset_component c)) = VM_PRIO (c_start c)) as Ep'
      by (unfold reset_component; cbn [c_start]; by rewrite Es).
    assert (NUM_VCPUS (c_start (reset_component c)) = NUM_VCPUS (c_start c)) as En'
      by (unfold reset_component; cbn [c_start]; by rewrite Es).
    split; rewrite ?Ep', ?En', ?Ed; try done.
    + intros slot Hx. apply Hsl. cbn in Hx. set_solver.
    + cbn. set_solver.
Qed.

Lemma alive_reachable {RL : RestartLaws} mem occupied c :
  consistent (born mem occupied) -> rtc step (born mem occupied) c -> alive occupied c.
Proof.
  intros Hc H. assert (alive occupied (born mem occupied)) as H0.
  { split; [done|done|cbn; auto|cbn; set_solver|done|by split]. }
  remember (born mem occupied) as b eqn:Eb. clear Hc Eb. induction H as [|c1 c2 c3 Hs _ IH]; [done|].
  apply IH. by eapply alive_step.
Qed.

(** * Theorems *)

(** C7 -- Restarting the ARM VMM.  However the component has started, run and
    restarted before, and wherever the restart strikes, a restart that comes to
    an end leaves the following.  Every byte of .bss is zero, but for the 34 + 4
    + 4 + 4 bytes kept for the C library and [morecore_top], which points to the
    end of its area; every other byte of memory is unchanged.  So the static
    variables read from it are those of a first start: zero without an initial
    value, the attributes as the system gives them; the virtual machine's
    fields on the stack are kept.  Exactly the slots above the system's own
    whose deletion the kernel carried out are emptied -- those of the extra
    frames among them, which a first start has and the next has not -- and
    nothing is left of what was made from the untypeds.  If no call fails, the
    guest is booted again.  The DMA allocator is not reset: its next address
    stays, and the pages ever handed out have different addresses, as long as
    they fit in the address space. *)
Theorem arm_restart {RL : RestartLaws} (mem : Z -> Z) (occupied : gset Z) (c c' : Component) :
  consistent (born mem occupied) -> rtc step (born mem occupied) c -> restart c = Ok (tt, c') ->
  (forall x, c_mem c' x =
     if within x sym_morecore_top (Z.of_nat SIZEOF_UINTPTR)
     then u8 ((sym_morecore_area + MORECORE_BYTES) .>> (8 * (x - sym_morecore_top)))
     else if saved x then c_mem c x
     else if within x bss_start (bss_end - bss_start) then 0
     else c_mem c x) /\
  c_start c' = (first_start start_statics) <| vm_entry := vm_entry (c_start c) |>
    <| vm_clean_cache := vm_clean_cache (c_start c) |> <| vm_map_one_to_one := vm_map_one_to_one (c_start c) |> /\
  (forall slot, slot ∈ c_occupied c' <->
     slot ∈ c_occupied c /\ ~ (In slot free_slots /\ seL4_CNode_Delete slot CNODE_DEPTH = 0)) /\
  c_derived c' = ∅ /\
  (start_succeeds -> wp main_setup (fun r s' => r = 0 /\ started (c_start c') s') (c_start c')) /\
  c_dma c' = c_dma c /\
  (Z.of_nat (length (dma_pages (c_dma c'))) <= DMA_MAX_PAGES -> NoDup (map d_vaddr (dma_pages (c_dma c')))).
Proof.
  intros Hc Hreach Hr. pose proof (alive_reachable _ _ _ Hc Hreach) as [Hp Hn Hsl Hde Hco Hdma].
  pose proof (wlp_inv _ _ _ _ _ (reset_wlp c) Hr) as ->. rewrite (reset_dma c Hco).
  unfold reset_component. cbn [c_start c_occupied c_derived c_mem].
  destruct (read_reset (c_mem c) (c_start c)) as [Es _]. pose proof Hco as (Ep & En & _).
  assert (not_started_yet (read_statics (reset_memory (c_mem c)) (c_start c))) as Hns by (rewrite Es; done).
  split_and!.
  - intros x. apply reset_memory_byte.
  - rewrite Es, Ep, En, Hp, Hn. done.
  - intros slot. rewrite elem_of_difference, elem_of_list_to_set, list_elem_of_In, filter_In.
    unfold deleted. rewrite Z.eqb_eq. done.
  - set_solver.
  - intros SS. by apply main_setup_total.
  - done.
  - intros Hl. by apply dma_ok_nodup, Hdma.
Qed.

(** The frames that map_frame_hack.c gives to other components do not survive a
    restart: they are in the slots that [reset_resources] deletes. *)
Lemma restart_loses_extra_frames c c' k :
  (forall slot, seL4_CNode_Delete slot CNODE_DEPTH = 0) -> restart c = Ok (tt, c') ->
  0 <= k < num_extra_frame_caps -> simple_last_valid_cap + 1 + num_extra_frame_caps <= BIT simple_cnode_size_bits ->
  0 <= simple_last_valid_cap + 1 -> simple_last_valid_cap + 1 + k ∉ c_occupied c'.
Proof.
  intros Hdel Hr Hk Hb Hl. pose proof (wlp_inv _ _ _ _ _ (reset_wlp c) Hr) as ->. cbn.
  rewrite elem_of_difference, elem_of_list_to_set, list_elem_of_In, filter_In. intros [_ H]. apply H.
  split; [|unfold deleted; by rewrite Hdel].
  unfold free_slots. apply in_map_iff. exists k. split; [done|]. unfold zrange. apply in_map_iff.
  exists (Z.to_nat k). split; [lia|]. apply in_seq. lia.
Qed.

(** The pieces of .bss that are kept are as long as a 32-bit pointer: on a
    64-bit machine the upper half of [morecore_size] is zeroed. *)
Lemma restart_zeroes_upper_half m i :
  4 <= i < 8 -> within (sym_morecore_size + i) bss_start (bss_end - bss_start) = true ->
  within (sym_morecore_size + i) sym_libc 34 = false -> within (sym_morecore_size + i) sym_sysinfo 4 = false ->
  within (sym_morecore_size + i) sym_morecore_area 4 = false ->
  within (sym_morecore_size + i) sym_morecore_top (Z.of_nat SIZEOF_UINTPTR) = false ->
  reset_memory m (sym_morecore_size + i) = 0.
Proof.
  intros Hi H1 H2 H3 H4 H5. rewrite reset_memory_byte, H5, H1. unfold saved. rewrite H2, H3, H4.
  assert (within (sym_morecore_size + i) sym_morecore_size 4 = false) as ->; [|done].
  unfold within. destruct (Z.ltb_spec (sym_morecore_size + i) (sym_morecore_size + 4)); [lia|by rewrite andb_false_r].
Qed.

(** The address of the next DMA page is not reset: every restart uses up some of
    the region. *)
Lemma restart_keeps_dma {RL : RestartLaws} c c' : consistent c -> restart c = Ok (tt, c') -> c_dma c' = c_dma c.
Proof. intros Hc Hr. pose proof (wlp_inv _ _ _ _ _ (reset_wlp c) Hr) as ->. by apply reset_dma. Qed.

End Restart.

(** * Witnesses *)

#[local] Existing Instances utils_ref boot_demo arm_start_demo start_demo dma_demo.

(** A little-endian word. *)
Definition word_at (m : Z -> Z) (a : Z) : Z :=
  m a + 2 ^ 8 * m (a + 1) + 2 ^ 16 * m (a + 2) + 2 ^ 24 * m (a + 3).

(** .bss from 0x1000 to 0x2000, the C library's pieces in it and the static
    variables from 0x1400; the initialised ones from 0x4000. *)
#[local] Instance restart_demo : RestartEnv := {|
  bss_start := 0x1000;
  bss_end := 0x2000;
  sym_libc := 0x1100;
  sym_sysinfo := 0x1200;
  sym_morecore_area := 0x1300;
  sym_morecore_size := 0x1308;
  sym_morecore_top := 0x3000;
  SIZEOF_UINTPTR := 4;
  MORECORE_BYTES := 0x100;
  statics_in m := mkStatics
    (if word_at m 0x1400 =? 0 then None else Some CamkesDtb) (word_at m 0x1404)
    (if word_at m 0x1408 =? 0 then None else Some []) []
    (word_at m 0x140c) (word_at m 0x4000) (word_at m 0x4004) (word_at m 0x4008);
  bss_variables x := within x 0x1400 16;
  data_variables x := within x 0x4000 12;
  seL4_CNode_Revoke cap depth := 0;
  seL4_CNode_Delete cap depth := if cap =? 63 then 6 else 0;
  vmm_process_reboot_callbacks s := 0 |}.

#[local] Instance restart_demo_laws : RestartLaws.
Proof.
  split.
  - intros x Hx%within_true. unfold saved. rewrite !orb_false_iff, within_true, !within_false.
    unfold bss_start, bss_end, sym_libc, sym_sysinfo, sym_morecore_area, sym_morecore_size, sym_morecore_top,
      SIZEOF_UINTPTR, restart_demo. lia.
  - intros x Hx%within_true. rewrite !within_false.
    unfold bss_start, bss_end, sym_morecore_top, SIZEOF_UINTPTR, restart_demo. lia.
  - intros m H. assert (forall a, 0x1400 <= a <= 0x140c -> word_at m a = 0) as Hw.
    { intros a Ha. unfold word_at. rewrite !H by (apply within_true; lia). done. }
    cbn. rewrite !Hw by lia. done.
  - intros m m' H. assert (forall a, 0x4000 <= a <= 0x4008 -> word_at m' a = word_at m a) as Hw.
    { intros a Ha. unfold word_at. rewrite !H by (apply within_true; lia). done. }
    cbn. rewrite !Hw by lia. done.
Qed.

(** Memory with the bytes [b], and priority 100, two processors and the next
    DMA address. *)
Definition demo_mem (b : Z) (vaddr : Z) (x : Z) : Z :=
  if within x 0x4000 12
  then nth (Z.to_nat (x - 0x4000)) (pointer_bytes 4 100 ++ pointer_bytes 4 2 ++ pointer_bytes 4 vaddr) 0
  else b.

(** Started, with some slots filled and two DMA pages, and the bytes of .bss
    written. *)
Definition demo_first : Component := born (demo_mem 0x55 DMA_VSTART) {[ 5; 21; 22 ]}.
Definition demo_running : Component :=
  mkComponent ((c_start demo_first) <| vm_entry := 0x40008000 |> <| start_extra_frame_caps := 21 |>)
    (c_dma demo_first) (demo_mem 0x77 DMA_VSTART) {[ 5; 21; 22; 40; 63 ]} {[ 10; 11 ]}.
Definition demo_dma : Dma := final dma_morecore (c_dma demo_running).
Definition demo_with_dma : Component :=
  demo_running <| c_dma := demo_dma |> <| c_mem := demo_mem 0x77 (dma_vaddr demo_dma) |>.
Definition demo_restarted : Component := reset_component demo_with_dma.

Lemma arm_restart_witness :
  (forall x, c_mem demo_restarted x =
     if within x sym_morecore_top (Z.of_nat SIZEOF_UINTPTR)
     then u8 ((sym_morecore_area + MORECORE_BYTES) .>> (8 * (x - sym_morecore_top)))
     else if saved x then c_mem demo_with_dma x
     else if within x bss_start (bss_end - bss_start) then 0
     else c_mem demo_with_dma x) /\
  c_start demo_restarted = (first_start start_statics) <| vm_entry := vm_entry (c_start demo_with_dma) |>
    <| vm_clean_cache := vm_clean_cache (c_start demo_with_dma) |>
    <| vm_map_one_to_one := vm_map_one_to_one (c_start demo_with_dma) |> /\
  (forall slot, slot ∈ c_occupied demo_restarted <->
     slot ∈ c_occupied demo_with_dma /\ ~ (In slot free_slots /\ seL4_CNode_Delete slot CNODE_DEPTH = 0)) /\
  c_derived demo_restarted = ∅ /\
  (start_succeeds -> wp main_setup (fun r s' => r = 0 /\ started (c_start demo_restarted) s') (c_start demo_restarted)) /\
  c_dma demo_restarted = c_dma demo_with_dma /\
  (Z.of_nat (length (dma_pages (c_dma demo_restarted))) <= DMA_MAX_PAGES -> NoDup (map d_vaddr (dma_pages (c_dma demo_restarted)))).
Proof.
  apply (arm_restart (demo_mem 0x55 DMA_VSTART) {[ 5; 21; 22 ]} demo_with_dma demo_restarted).
  - split_and!; reflexivity.
  - apply (rtc_l _ _ demo_running).
    + apply step_run; [reflexivity|reflexivity|reflexivity|split_and!; reflexivity| |].
      * intros slot. change (c_occupied demo_running) with ({[ 5; 21; 22; 40; 63 ]} : gset Z).
        rewrite !elem_of_union, !elem_of_singleton.
        intros [[[[->| ->]| ->]| ->]| ->]; [left|left|left|right|right]; [set_solver|set_solver|set_solver|vm_compute; tauto|vm_compute; tauto].
      * intros ut. change (c_derived demo_running) with ({[ 10; 11 ]} : gset Z). rewrite elem_of_union, !elem_of_singleton.
        intros [->| ->]; right; [exists 0|exists 1]; (split; [vm_compute; tauto|reflexivity]).
    + apply rtc_once. apply (step_dma demo_running 0); [vm_compute; reflexivity|split_and!; vm_compute; reflexivity].
  - apply restart_ok; [reflexivity|reflexivity].
Defined.
