(* ===== verification/CrossVm.v ===== *)
(** The connections between a guest and other components (crossvm.c of the x86
    VMM, components/Init, and of the ARM VMM, components/VM_Arm): the table
    handed to libsel4vmmplatsupport, which presents it to the guest, and the
    events of the x86 connections. *)

From Stdlib Require Import String.
From S2P Require Import Prelude.

(** The dataport and functions of a connection, named by numbers. *)
Record dataport_caps := mkDataport { get_frame_size_bits : Z; get_num_frame_caps : Z; get_frame_caps : Z }.
(** [crossvm_handle_t]; a name that is not set is a null pointer. *)
Record crossvm_handle := mkCrossvm {
  cx_dataport : dataport_caps; cx_emit_fn : Z; cx_consume_id : Z; cx_connection_name : option string }.

Inductive crossvm_call :=
| ConsumeConnectionEvent (id : Z)
| Signal (notification : Z)
| RegCallback (id : Z)
| InitCommon (table : list (option crossvm_handle)).

(** Memory is asked for in the order of the calls. *)
Record CrossVm := mkCrossVm { cx_allocs : nat; cx_log : list crossvm_call }.
#[export] Instance eta_CrossVm : Eta CrossVm := fun s => mkCrossVm (cx_allocs s) (cx_log s).
Definition Cx (A : Type) : Type := M CrossVm A.
Definition cx_emit (c : crossvm_call) : Cx unit := modify (fun s => s <| cx_log := cx_log s ++ [c] |>).

Class CrossVmEnv := {
  cx_calloc_ok : nat -> bool;
  reg_callback : list crossvm_call -> Z -> Z;
  cross_vm_connections_init_common : list (option crossvm_handle) -> Z }.

Section CrossVm.
Context {E : CrossVmEnv}.

Definition cx_calloc : Cx bool :=
  s ← get; put (s <| cx_allocs := S (cx_allocs s) |>);; mret (cx_calloc_ok (cx_allocs s)).

Definition init_common (table : list (option crossvm_handle)) : Cx Z :=
  cx_emit (InitCommon table);; mret (cross_vm_connections_init_common table).

(** * ARM *)

(** [camkes_crossvm_connection_t] *)
Record arm_connection := mkArmConn {
  ac_handle : dataport_caps; ac_emit_fn : Z; ac_consume_badge : Z; ac_connection_name : option string }.
Definition arm_handle (c : arm_connection) : crossvm_handle :=
  mkCrossvm (ac_handle c) (ac_emit_fn c) (ac_consume_badge c) (ac_connection_name c).

(** An index past the end of the table is an access outside it. *)
Definition setup_connection (table : list (option crossvm_handle)) (index : Z) (c : arm_connection)
    : Cx (option (list (option crossvm_handle))) :=
  ok ← cx_calloc;
  if negb ok then mret None
  else table ← lift (idx_set table index (Some (arm_handle c))); mret (Some table).

(** Both loops: [None] is a null pointer of the linker section, which still
    counts as a place; the result is [None] when the function returns -1. *)
Fixpoint setup_all (table : list (option crossvm_handle)) (i : Z) (cs : list (option arm_connection))
    : Cx (option (list (option crossvm_handle))) :=
  match cs with
  | [] => mret (Some table)
  | None :: cs => setup_all table (i + 1) cs
  | Some c :: cs =>
      r ← setup_connection table i c;
      match r with
      | None => mret None
      | Some table => setup_all table (i + 1) cs
      end
  end.

(** The non-null entries of the section. *)
Definition sectioned_connections (section : list (option arm_connection)) : list arm_connection := omap id section.

Definition arm_cross_vm_connections_init (connections : list arm_connection) (section : list (option arm_connection)) : Cx Z :=
  ok ← cx_calloc;
  if negb ok then mret (-1)
  else
    let n := (length connections + length (sectioned_connections section))%nat in
    r ← setup_all (replicate n None) 0 (map Some connections);
    match r with
    | None => mret (-1)
    | Some table =>
        r ← setup_all table (Z.of_nat (length connections)) section;
        match r with
        | None => mret (-1)
        | Some table => init_common table
        end
    end.

(** * x86 *)

Record x86_connection := mkX86Conn {
  xc_handle : dataport_caps; xc_emit_fn : Z; xc_id : Z; xc_reg_callback : bool; xc_irq_notification : Z }.
Definition x86_handle (c : x86_connection) : crossvm_handle := mkCrossvm (xc_handle c) (xc_emit_fn c) (xc_id c) None.

Definition event_camkes_callback (c : x86_connection) : Cx unit :=
  cx_emit (ConsumeConnectionEvent (xc_id c));;
  cx_emit (Signal (xc_irq_notification c));;
  s ← get;
  cx_emit (RegCallback (xc_id c));;
  assertC (reg_callback (cx_log s) (xc_id c) =? 0).

(** The loop; [None] when it returns -1. *)
Fixpoint x86_setup (table : list (option crossvm_handle)) (i : Z) (cs : list x86_connection)
    : Cx (option (list (option crossvm_handle))) :=
  match cs with
  | [] => mret (Some table)
  | c :: cs =>
      ok ← cx_calloc;
      if negb ok then mret None
      else
        when (xc_reg_callback c) (cx_emit (RegCallback (xc_id c)));;
        table ← lift (idx_set table i (Some (x86_handle c)));
        x86_setup table (i + 1) cs
  end.

Definition x86_cross_vm_connections_init (connections : list x86_connection) : Cx Z :=
  ok ← cx_calloc;
  if negb ok then mret (-1)
  else
    r ← x86_setup (replicate (length connections) None) 0 connections;
    match r with
    | None => mret (-1)
    | Some table => init_common table
    end.

(** * The table *)

(** There is memory for the table and the dataport handles. *)
Definition cx_memory : Prop := forall n, cx_calloc_ok n = true.

Definition allocd (n : nat) (s : CrossVm) : CrossVm := s <| cx_allocs := (n + cx_allocs s)%nat |>.

Lemma cx_calloc_run s : cx_memory -> cx_calloc s = Ok (true, allocd 1 s).
Proof. intros H. unfold cx_calloc, mbind, M_bind, get, put, mret, M_ret. by rewrite H. Qed.

Lemma allocd_allocd n m s : allocd n (allocd m s) = allocd (n + m) s.
Proof. unfold allocd. cbn. by rewrite Nat.add_assoc. Qed.
Lemma allocd_0 s : allocd 0 s = s.
Proof. by destruct s. Qed.

(** Filling the places after the first [length pre]. *)
Lemma setup_all_run pre cs rest tl s :
  cx_memory ->
  setup_all (pre ++ replicate (length cs) None ++ rest) (Z.of_nat (length pre)) (map Some cs ++ tl) s
  = setup_all (pre ++ map Some (map arm_handle cs) ++ rest) (Z.of_nat (length pre + length cs)) tl (allocd (length cs) s).
Proof.
  intros Hm. revert pre s. induction cs as [|c cs IH]; intros pre s; cbn [map length replicate setup_all app].
  { by rewrite Nat.add_0_r, allocd_0. }
  unfold setup_connection.
  rewrite (bind_ok _ _ s (Some (pre ++ Some (arm_handle c) :: replicate (length cs) None ++ rest)) (allocd 1 s)).
  - specialize (IH (pre ++ [Some (arm_handle c)]) (allocd 1 s)). rewrite length_app, <-!app_assoc in IH. cbn [length app] in IH.
    rewrite Nat2Z.inj_add in IH. change (Z.of_nat 1) with 1 in IH. rewrite IH, allocd_allocd.
    replace (length cs + 1)%nat with (S (length cs)) by lia.
    by replace (length pre + 1 + length cs)%nat with (length pre + S (length cs))%nat by lia.
  - rewrite (bind_ok _ _ _ _ _ (cx_calloc_run s Hm)). cbn [negb].
    rewrite (bind_ok _ _ _ _ _ (lift_ok _ _ _ (idx_set_mid pre (replicate (length cs) None ++ rest) None (Some (arm_handle c))))).
    done.
Qed.

Lemma setup_all_nulls table i k cs s :
  setup_all table i (replicate k None ++ cs) s = setup_all table (i + Z.of_nat k) cs s.
Proof.
  revert i. induction k as [|k IH]; intros i; cbn [replicate app setup_all]; [by rewrite Z.add_0_r|].
  rewrite IH. f_equal. lia.
Qed.

Lemma sectioned_app a b : sectioned_connections (a ++ b) = sectioned_connections a ++ sectioned_connections b.
Proof. apply omap_app. Qed.
Lemma sectioned_somes cs : sectioned_connections (map Some cs) = cs.
Proof. unfold sectioned_connections. induction cs as [|c cs IH]; cbn; [done|]. by rewrite IH. Qed.
Lemma sectioned_nulls k : sectioned_connections (replicate k None) = [].
Proof. unfold sectioned_connections. by induction k. Qed.

Lemma conf_run connections n s :
  cx_memory ->
  setup_all (replicate (length connections + n) None) 0 (map Some connections) s
  = Ok (Some (map Some (map arm_handle connections) ++ replicate n None), allocd (length connections) s).
Proof.
  intros Hm. pose proof (setup_all_run [] connections (replicate n None) [] s Hm) as Hr.
  rewrite app_nil_r in Hr. cbn [app length] in Hr. change (Z.of_nat 0) with 0 in Hr. by rewrite replicate_add, Hr.
Qed.

(** The null entries of the section are all at its end. *)
Definition is_null (e : option arm_connection) : bool := match e with None => true | Some _ => false end.
Fixpoint nulls_at_end (section : list (option arm_connection)) : bool :=
  match section with
  | [] => true
  | None :: section => forallb is_null section
  | Some _ :: section => nulls_at_end section
  end.

Lemma nulls_at_end_split section :
  nulls_at_end section = true ->
  exists k, section = map Some (sectioned_connections section) ++ replicate k None.
Proof.
  induction section as [|[c|] section IH]; intros H; [by exists 0%nat| |].
  - destruct (IH H) as (k & E1). exists k. cbn. f_equal. exact E1.
  - exists (S (length section)). cbn in H. assert (section = replicate (length section) None) as E1.
    { clear IH. induction section as [|[c|] section IH]; cbn in *; [done|done|]. f_equal. by apply IH. }
    assert (sectioned_connections (None :: section) = []) as -> by (rewrite E1; apply (sectioned_nulls (S _))).
    cbn. by rewrite <-E1.
Qed.

(** The last connection is at least as far as there are connections. *)
Lemma last_connection section :
  sectioned_connections section <> [] ->
  exists j c, section !! j = Some (Some c) /\ (length (sectioned_connections section) <= S j)%nat.
Proof.
  induction section as [|e section IH]; [done|]. intros He.
  destruct (sectioned_connections section) as [|c' l] eqn:El.
  - destruct e as [c|]; [|by destruct He]. exists 0%nat, c. split; [done|].
    unfold sectioned_connections in *. cbn. rewrite El. cbn. lia.
  - destruct IH as (j & c & Hj & Hl); [done|]. exists (S j), c. split; [done|].
    unfold sectioned_connections in *. destruct e; cbn; rewrite El; cbn in *; lia.
Qed.

(** With a null entry before it, it is further. *)
Lemma null_before section :
  nulls_at_end section = false ->
  exists j c, section !! j = Some (Some c) /\ (length (sectioned_connections section) <= j)%nat.
Proof.
  induction section as [|[c|] section IH]; intros H; [done| |].
  - destruct (IH H) as (j & c' & Hj & Hl). exists (S j), c'. split; [done|]. unfold sectioned_connections in *. cbn. lia.
  - destruct (last_connection section) as (j & c & Hj & Hl); [|by exists (S j), c].
    cbn in H. clear IH. induction section as [|[c|] section IH]; [done|done|]. by apply IH.
Qed.

(** A connection whose place is past the end of the table. *)
Lemma setup_all_outside table i section j c s :
  cx_memory -> 0 <= i -> section !! j = Some (Some c) -> Z.of_nat (length table) <= i + Z.of_nat j ->
  setup_all table i section s = Fault OutOfBounds.
Proof.
  intros Hm. revert table i j s. induction section as [|e section IH]; intros table i j s Hi Hj Hl; [done|].
  destruct e as [c0|]; cbn [setup_all].
  - unfold setup_connection. destruct (Z.ltb_spec i (Z.of_nat (length table))) as [Hlt|Hge].
    + rewrite (bind_ok _ _ s (Some (<[Z.to_nat i := Some (arm_handle c0)]> table)) (allocd 1 s)).
      2:{ rewrite (bind_ok _ _ _ _ _ (cx_calloc_run s Hm)). cbn [negb]. unfold lift, idx_set, mbind, M_bind.
          destruct (Z.leb_spec 0 i); [|lia]. destruct (Z.ltb_spec i (Z.of_nat (length table))); [done|lia]. }
      destruct j as [|j]; [lia|]. apply (IH _ _ j); [lia|done|]. rewrite length_insert. lia.
    + apply bind_fault. rewrite (bind_ok _ _ _ _ _ (cx_calloc_run s Hm)). cbn [negb]. apply bind_fault.
      unfold lift, idx_set. destruct (Z.leb_spec 0 i); [|lia].
      by destruct (Z.ltb_spec i (Z.of_nat (length table))); [lia|].
  - destruct j as [|j]; [done|]. apply (IH _ _ j); [lia|done|lia].
Qed.

(** C32 -- The connections of an ARM guest, with memory for them, for any section of
    the linker.  When the null entries of the section are all at its end, the
    guest is given exactly the connections of the configuration followed by
    those of the section, in order, each with its dataport, its function, its
    badge and its name, and the result is the library's.  A null entry before
    any other connection makes the table too short: the function writes outside
    it, and the guest is given nothing. *)
Theorem arm_crossvm_table (connections : list arm_connection) (section : list (option arm_connection)) (s : CrossVm) :
  cx_memory ->
  let given := map (fun c => Some (mkCrossvm (ac_handle c) (ac_emit_fn c) (ac_consume_badge c) (ac_connection_name c)))
                 (connections ++ sectioned_connections section) in
  if nulls_at_end section then
    exists n, arm_cross_vm_connections_init connections section s
      = Ok (cross_vm_connections_init_common given, allocd n s <| cx_log := cx_log s ++ [InitCommon given] |>)
  else arm_cross_vm_connections_init connections section s = Fault OutOfBounds.
Proof.
  intros Hm given. assert (given = map Some (map arm_handle (connections ++ sectioned_connections section))) as Eg
    by (unfold given; by rewrite map_map). clearbody given.
  unfold arm_cross_vm_connections_init. set (cs := sectioned_connections section) in *.
  destruct (nulls_at_end section) eqn:He.
  - destruct (nulls_at_end_split section He) as (k & Es). fold cs in Es.
    exists (length cs + length connections + 1)%nat. rewrite (bind_ok _ _ _ _ _ (cx_calloc_run s Hm)). cbn [negb]. cbv zeta.
    rewrite (bind_ok _ _ _ _ _ (conf_run connections (length cs) _ Hm)).
    rewrite (bind_ok _ _ (allocd (length connections) (allocd 1 s)) (Some given)
      (allocd (length cs) (allocd (length connections) (allocd 1 s)))).
    + by rewrite !allocd_allocd.
    + pose proof (setup_all_run (map Some (map arm_handle connections)) cs [] (replicate k None) (allocd (length connections) (allocd 1 s)) Hm) as Hr.
      rewrite !length_map, !app_nil_r in Hr. rewrite Es, Hr. rewrite <-(app_nil_r (replicate k None)), setup_all_nulls.
      cbn [setup_all]. by rewrite Eg, !map_app.
  - destruct (null_before section He) as (j & c & Hj & Hl).
    rewrite (bind_ok _ _ _ _ _ (cx_calloc_run s Hm)). cbn [negb]. cbv zeta.
    rewrite (bind_ok _ _ _ _ _ (conf_run connections (length cs) _ Hm)). apply bind_fault.
    apply (setup_all_outside _ _ section j c); [done|lia|done|].
    rewrite length_app, !length_map, length_replicate. fold cs in Hl. lia.
Qed.

(** ** x86 *)

Definition x86_registrations (cs : list x86_connection) : list crossvm_call :=
  flat_map (fun c => if xc_reg_callback c then [RegCallback (xc_id c)] else []) cs.
Definition cx_logs (es : list crossvm_call) (s : CrossVm) : CrossVm := s <| cx_log := cx_log s ++ es |>.

Lemma x86_setup_run pre cs s :
  cx_memory ->
  x86_setup (pre ++ replicate (length cs) None) (Z.of_nat (length pre)) cs s
  = Ok (Some (pre ++ map Some (map x86_handle cs)), cx_logs (x86_registrations cs) (allocd (length cs) s)).
Proof.
  intros Hm. revert pre s. induction cs as [|c cs IH]; intros pre s; cbn [map length replicate x86_setup].
  { unfold cx_logs. rewrite !app_nil_r. by destruct s. }
  rewrite (bind_ok _ _ _ _ _ (cx_calloc_run s Hm)). cbn [negb].
  set (es := if xc_reg_callback c then [RegCallback (xc_id c)] else []).
  rewrite (bind_ok _ _ (allocd 1 s) tt (cx_logs es (allocd 1 s))).
  2:{ unfold es, cx_logs. destruct (xc_reg_callback c); cbn [when]; [done|]. rewrite app_nil_r. by destruct s. }
  rewrite (bind_ok _ _ (cx_logs es (allocd 1 s)) (pre ++ Some (x86_handle c) :: replicate (length cs) None) (cx_logs es (allocd 1 s)))
    by apply lift_ok, idx_set_mid.
  specialize (IH (pre ++ [Some (x86_handle c)]) (cx_logs es (allocd 1 s))).
  rewrite length_app, <-!app_assoc in IH. cbn [length app] in IH. rewrite Nat2Z.inj_add in IH. change (Z.of_nat 1) with 1 in IH.
  rewrite IH.
  assert (cx_logs (x86_registrations cs) (allocd (length cs) (cx_logs es (allocd 1 s)))
    = cx_logs (x86_registrations (c :: cs)) (allocd (S (length cs)) s)) as ->; [|done].
  unfold cx_logs, allocd, x86_registrations. cbn. fold es. rewrite <-app_assoc, Nat.add_succ_r. done.
Qed.

(** The connections of an x86 guest.  With memory, the guest is given exactly
    the connections of the configuration, in order, after the callbacks of
    those that consume events have been registered; and each event is consumed,
    signalled to the monitor and its callback registered again. *)
Lemma x86_crossvm_table (connections : list x86_connection) (s : CrossVm) :
  cx_memory ->
  (exists n, x86_cross_vm_connections_init connections s
    = Ok (cross_vm_connections_init_common (map Some (map x86_handle connections)),
          cx_logs (x86_registrations connections ++ [InitCommon (map Some (map x86_handle connections))]) (allocd n s))) /\
  (forall c s', (forall l id, reg_callback l id = 0) ->
     event_camkes_callback c s'
     = Ok (tt, cx_logs [ConsumeConnectionEvent (xc_id c); Signal (xc_irq_notification c); RegCallback (xc_id c)] s')).
Proof.
  intros Hm. split.
  - exists (length connections + 1)%nat. unfold x86_cross_vm_connections_init.
    rewrite (bind_ok _ _ _ _ _ (cx_calloc_run s Hm)). cbn [negb].
    rewrite (bind_ok _ _ _ _ _ (x86_setup_run [] connections (allocd 1 s) Hm)). cbn [app].
    unfold init_common, cx_emit, modify, mbind, M_bind, mret, M_ret, cx_logs. rewrite allocd_allocd. cbn. by rewrite <-app_assoc.
  - intros c s' Hr. unfold event_camkes_callback, cx_emit, modify, get, mbind, M_bind. rewrite Hr. cbn.
    unfold cx_logs. by rewrite <-!app_assoc.
Qed.

End CrossVm.

(** * Witnesses *)

#[local] Instance crossvm_demo : CrossVmEnv := {|
  cx_calloc_ok n := true;
  reg_callback l id := 0;
  cross_vm_connections_init_common t := 0 |}.

Definition demo_arm_conn (n : Z) : arm_connection := mkArmConn (mkDataport 12 n 100) n (2 ^ n) (Some "conn"%string).

Definition cx0 : CrossVm := mkCrossVm 0 [].

(** A section with its null entry at the end, and one with a null entry between
    its connections. *)
Lemma arm_crossvm_table_witness :
  let given := map (fun c => Some (mkCrossvm (ac_handle c) (ac_emit_fn c) (ac_consume_badge c) (ac_connection_name c)))
                 [demo_arm_conn 1; demo_arm_conn 2; demo_arm_conn 3] in
  (exists n, arm_cross_vm_connections_init [demo_arm_conn 1] [Some (demo_arm_conn 2); Some (demo_arm_conn 3); None] cx0
    = Ok (cross_vm_connections_init_common given, allocd n cx0 <| cx_log := cx_log cx0 ++ [InitCommon given] |>)) /\
  arm_cross_vm_connections_init [demo_arm_conn 1] [Some (demo_arm_conn 2); None; Some (demo_arm_conn 3); Some (demo_arm_conn 4)] cx0
    = Fault OutOfBounds.
Proof.
  assert (cx_memory) as Hm by (intros n; reflexivity). split.
  - exact (arm_crossvm_table [demo_arm_conn 1] [Some (demo_arm_conn 2); Some (demo_arm_conn 3); None] cx0 Hm).
  - exact (arm_crossvm_table [demo_arm_conn 1] [Some (demo_arm_conn 2); None; Some (demo_arm_conn 3); Some (demo_arm_conn 4)] cx0 Hm).
Defined.

Definition demo_x86_conn (n : Z) : x86_connection := mkX86Conn (mkDataport 12 n 100) n n (1 <? n) 9.

Lemma x86_crossvm_table_witness :
  (exists n, x86_cross_vm_connections_init [demo_x86_conn 1; demo_x86_conn 2] cx0
    = Ok (cross_vm_connections_init_common (map Some (map x86_handle [demo_x86_conn 1; demo_x86_conn 2])),
          cx_logs (x86_registrations [demo_x86_conn 1; demo_x86_conn 2] ++
                   [InitCommon (map Some (map x86_handle [demo_x86_conn 1; demo_x86_conn 2]))]) (allocd n cx0))) /\
  (forall c s', (forall l id, reg_callback l id = 0) ->
     event_camkes_callback c s'
     = Ok (tt, cx_logs [ConsumeConnectionEvent (xc_id c); Signal (xc_irq_notification c); RegCallback (xc_id c)] s')).
Proof. apply (x86_crossvm_table [demo_x86_conn 1; demo_x86_conn 2] cx0). intros n. reflexivity. Defined.
