(* ===== verification/X86Boot.v ===== *)
(** Starting a guest on the x86 VMM (pre_init and main_continued of
    components/Init/src/main.c, with the templates it is configured by:
    seL4VMIRQs, seL4VMPCIDevices, seL4VMIOPorts, seL4GuestMaps, seL4ExtraRAM
    and seL4ExcludeGuestPAddr).

    The libraries called are outside the repository: each call is logged, and
    its result is a parameter that may depend on the calls made before.  The
    devices are started on the machine of Vmm.  A fatal log message ends the
    VMM like a failed assertion does. *)

From Stdlib Require Import String.
From S2P Require Import Prelude I8254 Mc146818 Serial Hpet Vmm.

(** * Configuration *)

Record vm_irq := mkVmIrq {
  q_name : string; q_ioapic : Z; q_source : Z; q_level_trig : Z; q_active_low : Z; q_dest : Z; q_cap : Z }.
Record pci_device := mkPciDevice {
  pd_name : string; pd_bus : Z; pd_dev : Z; pd_fun : Z; pd_iospace_cap : Z; pd_irq : string }.
Record io_port := mkIoPort { p_cap : Z; p_start : Z; p_end : Z; p_name : string }.
Record simple_untyped := mkSimpleUt { su_cap : Z; su_size : Z; su_paddr : Z; su_device : bool }.

Inductive ut_pool := ALLOCMAN_UT_DEV_MEM | ALLOCMAN_UT_DEV.
(** The functions behind an emulated port. *)
Inductive port_handler := SerialPort | CmosPort | PitPort | PciConfigPort.
Inductive pci_entry :=
| PassthroughEntry (bus dev fun_ : Z)
| BarEmulation (e : pci_entry) (num_bars : Z)
| IrqEmulation (e : pci_entry) (irq : Z)
| NoMsiCapEmulation (e : pci_entry).
Inductive path_use := ForIrq (irq_handler : Z) | ForAsyncEvent.

(** What vm_load_guest_kernel is told about relocations:
    [kernel_image_arch.is_reloc_enabled] and [relocs_file]. *)
Record kernel_relocation := mkRelocation { is_reloc_enabled : bool; relocs_file : string }.

Inductive vm_call :=
(* pre_init *)
| BootstrapAllocman | AddSimpleUntypeds | BootstrapVspace | MspaceAlloc
| ReservePool (size : Z) | ConfigureVirtualPool (size : Z)
| AddUts (cap size_bits paddr : Z) (pool : ut_pool) | ReserveBrk (size : Z)
(* the VM and its interrupts *)
| LibpciScan | InstallFileserver | NewMallocOps | VmInit | AddIospace (cap : Z) | CreateVcpu
| RegisterNotificationCallback | RegisterIoportCallback
| CspaceAllocPath (u : path_use) | CnodeMint (slot badge : Z) | SetNotification (irq_handler slot : Z)
| IrqHandlerAck (irq_handler : Z) | RegisterIrq (irq irq_handler : Z) | CreateIrqController | ReserveHpet (base size : Z)
(* memory *)
| IoPortInit (start : Z) | RamRegisterAt (base size : Z) | ReserveMemoryAt (base size : Z)
| MapFrameAlloc (base : Z) | MakeAnon (base size : Z) | RamRegister (size : Z)
(* devices and ports *)
| PciInit | MapBars (bus dev fun_ : Z) | PciAddEntry (e : pci_entry) | InitFunction (f : Z)
| AddPortHandler (start end_ : Z) (h : port_handler) | EnablePassthrough (start end_ : Z)
(* loading and starting *)
| FindLargestRegion | LoadKernel (image : string) (addr align : Z) (relocs : kernel_relocation)
| LoadModule (image : string) (addr align : Z)
| InitBootStructure (cmdline : string) (boot_image : option Z) | CrossVmInit (notification base : Z)
| InitThreadState (entry info : Z) | VcpuStart | VmRun.

Class X86Env := {
  (* the templates *)
  vm_irqs : list vm_irq;
  pci_devices : list pci_device;
  device_mem : list (Z * Z);
  gmaps : list (Z * Z * Z);              (* frame, size, cap *)
  extra_ram : list (Z * Z * Z);          (* paddr, size_bits, cap *)
  exclude_regions : list Z;
  pci_ioports : list io_port;
  nonpci_ioports : list io_port;
  init_functions : list Z;
  (* attributes and options *)
  kernel_image : string;
  initrd_image : string;
  kernel_relocs : string;
  kernel_cmdline : string;
  guest_ram_mb : Z;
  CONFIG_CAMKES_VM_GUEST_DMA_IOMMU : bool;
  cross_vm_linked : bool;
  (* the libraries *)
  simple_untypeds : list simple_untyped;
  libpci_find_device_bdf : Z -> Z -> Z -> bool;
  MiB_TO_BYTES : Z -> Z;
  X86_IO_SERIAL_1 : Z * Z;
  X86_IO_RTC : Z * Z;
  X86_IO_PIT : Z * Z;
  X86_IO_PCI_CONFIG : Z * Z;
  (* results: the last call of the list is the one answered *)
  result : list vm_call -> Z;
  new_slot : list vm_call -> Z;
  largest_region : list vm_call -> Z;
  module_addr : list vm_call -> Z;
  kernel_entry : list vm_call -> Z;
  boot_info : list vm_call -> Z }.

(** The documented value of the libutils macro, for sizes an [int] holds. *)
Class X86Laws (E : X86Env) : Prop := {
  MiB_TO_BYTES_spec x : 0 <= x < 2048 -> MiB_TO_BYTES x = x * 2 ^ 20 }.

Record X86 := mkX86 { x_log : list vm_call; x_vmm : Machine * World }.
#[export] Instance eta_X86 : Eta X86 := fun s => mkX86 (x_log s) (x_vmm s).
Definition X (A : Type) : Type := M X86 A.

Definition BRK_VIRTUAL_SIZE : Z := 400000000.
Definition ALLOCMAN_VIRTUAL_SIZE : Z := 400000000.
Definition CROSS_VM_EVENT_IRQ_NUM : Z := 12.
Definition CROSS_VM_BASE_ADDRESS : Z := 0xa0000000.
Definition FREE_IOPORT_START : Z := 0x9000.
Definition PAGE_BITS_4M : Z := 22.
Definition seL4_CapNull : Z := 0.

Definition guest_ram_regions : list (Z * Z) := [(0x500, 0x80000 - 0x500); (0x80000, 0x9fc00 - 0x80000)].
Definition guest_fake_devices : list (Z * Z) :=
  [(0xf0000, 0x10000); (0xc0000, 0xc8000 - 0xc0000); (0xc8000, 0xe0000 - 0xc8000)].
Definition free_anonymous_regions : list (Z * Z) := [(0x10003000, 0xa0000000 - 0x10003000)].

(** * Operations *)

Section X86Boot.
Context {U : Utils} {R : RtcTimeDate} {V : VmmEnv} {E : X86Env}.

(** ** Calls *)

Definition call (c : vm_call) : X Z := fun s =>
  Ok (result (x_log s ++ [c]), s <| x_log := x_log s ++ [c] |>).
(** [error = f(...)] followed by [ZF_LOGF_IF(error, ...)] or
    [assert(!error)]; and the same for a pointer or address. *)
Definition must (c : vm_call) : X unit := error ← call c; assertC (error =? 0).
Definition must_ptr (c : vm_call) : X unit := p ← call c; assertC (negb (p =? 0)).
Definition do_ (c : vm_call) : X unit := _ ← call c; mret tt.
(** An output parameter of the call just made. *)
Definition output (f : list vm_call -> Z) : X Z := fun s => Ok (f (x_log s), s).
(** The devices' own code. *)
Definition on_vmm {A} (m : Dev Machine A) : X A := fun s =>
  match m (x_vmm s) with Ok (a, v) => Ok (a, s <| x_vmm := v |>) | Fault f => Fault f end.

(** ** The templates' functions *)

Definition guest_mappings_get_guest_map (num : Z) : Z * option (Z * Z) :=
  match gmaps !! Z.to_nat num with
  | Some (frame, size, _) => (1, Some (frame, size))
  | None => (0, None)
  end.
Definition cap_at (l : list (Z * Z)) (paddr : Z) : Z :=
  match find (fun x => fst x =? paddr) l with Some (_, cap) => cap | None => 0 end.
Definition pci_devices_get_device_mem_frame (paddr : Z) : Z := cap_at device_mem paddr.
Definition guest_mappings_get_mapping_mem_frame (paddr : Z) : Z :=
  cap_at (map (fun g => (fst (fst g), snd g)) gmaps) paddr.
Definition ioports_get_ioport (start end_ : Z) : Z :=
  match find (fun p => (p_start p <=? start) && (end_ <=? p_end p)) (pci_ioports ++ nonpci_ioports) with
  | Some p => p_cap p
  | None => 0
  end.
Definition exclude_paddr_num_regions : Z := Z.of_nat (List.length exclude_regions) / 2.
Definition exclude_paddr_get_region (region_num : Z) : X (Z * Z) :=
  assertC (region_num <? exclude_paddr_num_regions);;
  paddr ← lift (idx exclude_regions (region_num * 2));
  bytes ← lift (idx exclude_regions (region_num * 2 + 1));
  mret (paddr, bytes).
Definition init_cons_init_function (con : Z) : Z :=
  match init_functions !! Z.to_nat con with Some f => f | None => -1 end.

(** The wrappers of the simple interface: the capability that is copied or
    found, if there is one. *)
Definition simple_ioport_wrapper (start_port end_port : Z) : option Z :=
  let cap := ioports_get_ioport start_port end_port in
  if cap =? seL4_CapNull then None else Some cap.
Definition simple_frame_cap_wrapper (paddr : Z) : option Z :=
  let cap := pci_devices_get_device_mem_frame paddr in
  if negb (cap =? 0) then Some cap
  else
    let cap := guest_mappings_get_mapping_mem_frame paddr in
    if negb (cap =? 0) then Some cap else None.

(** ** pre_init *)

Definition add_extra_ram : X unit :=
  for_each extra_ram (fun ut => let '(paddr, size_bits, cap) := ut in
    must (AddUts cap size_bits paddr ALLOCMAN_UT_DEV_MEM)).
Definition add_mmio_untypeds : X unit :=
  for_each simple_untypeds (fun ut =>
    when (su_device ut) (must (AddUts (su_cap ut) (su_size ut) (su_paddr ut) ALLOCMAN_UT_DEV))).
Definition pre_init : X unit :=
  must_ptr BootstrapAllocman;;
  must AddSimpleUntypeds;;
  must BootstrapVspace;;
  must_ptr MspaceAlloc;;
  must (ReservePool ALLOCMAN_VIRTUAL_SIZE);;
  do_ (ConfigureVirtualPool ALLOCMAN_VIRTUAL_SIZE);;
  add_extra_ram;;
  add_mmio_untypeds;;
  do_ (ReserveBrk BRK_VIRTUAL_SIZE).

(** ** Interrupts *)

Definition init_irq (q : vm_irq) : X unit :=
  must (CspaceAllocPath (ForIrq (q_cap q)));;
  slot ← output new_slot;
  badge ← lift (idx irq_badges (q_dest q));
  must (CnodeMint slot badge);;
  must (SetNotification (q_cap q) slot);;
  must (IrqHandlerAck (q_cap q));;
  must (RegisterIrq (q_dest q) (q_cap q)).
Definition init_irqs : X unit := for_each vm_irqs init_irq.

Definition create_async_event_notification_cap (badge : Z) : X Z :=
  if negb (tst badge (BIT 27)) then mret seL4_CapNull
  else
    do_ (CspaceAllocPath ForAsyncEvent);;
    slot ← output new_slot;
    error ← call (CnodeMint slot badge);
    if negb (error =? 0) then mret seL4_CapNull else mret slot.

(** What the VMM answers to a port access no handler is registered for. *)
Definition ioport_callback_handler (res : Z) : ioport_fault_result :=
  if res =? 0 then IO_FAULT_HANDLED else if res =? 1 then IO_FAULT_UNHANDLED else IO_FAULT_ERROR.

(** The guest has ended an interrupt: the hardware's is acknowledged. *)
Definition irq_ack_hw_irq_handler (cookie : Z) : X unit := must (IrqHandlerAck cookie).

(** ** main_continued *)

(** The arrays [ARRAY_SIZE] loops run over are lists; the loops over the
    templates' tables are by index. *)
Definition vm_setup : X unit :=
  when (0 <? Z.of_nat (List.length pci_devices)) (do_ LibpciScan);;
  do_ InstallFileserver;;
  must NewMallocOps;;
  must VmInit;;
  when CONFIG_CAMKES_VM_GUEST_DMA_IOMMU
    (for_each pci_devices (fun d => must (AddIospace (pd_iospace_cap d))));;
  must_ptr CreateVcpu;;
  must RegisterNotificationCallback;;
  must RegisterIoportCallback.

(** hpet.c: the HPET's registers are left to its fault handler.  The result is
    not looked at. *)
Definition vm_create_hpet : X Z :=
  hpet_reservation ← call (ReserveHpet HPET_BASE HPET_LEN);
  if hpet_reservation =? 0 then mret (-1) else mret 0.

(** The devices' start-up, around the interrupts. *)
Definition start_devices : X unit :=
  on_vmm init_con_irq_init;;
  init_irqs;;
  must CreateIrqController;;
  on_vmm (on_serial (on_port serial_pre_init));;
  on_vmm (on_pit pit_pre_init);;
  on_vmm (on_rtc rtc_pre_init);;
  when use_hpet
    (freq ← on_vmm init_timer_tsc_frequency;
     on_vmm (on_hpet (hpet_pre_init freq TIMER_HPET0));;
     _ ← vm_create_hpet; mret tt).

(** Guest RAM is registered in chunks of 512 MiB. *)
Fixpoint allocate_guest_ram (fuel : nat) (remaining : Z) : X unit :=
  if remaining =? 0 then mret tt
  else
    match fuel with
    | O => fail OutOfFuel
    | S fuel =>
        let allocate := MIN remaining (MiB_TO_BYTES 512) in
        must_ptr (RamRegister allocate);;
        allocate_guest_ram fuel (u64 (remaining - allocate))
    end.
Definition ram_fuel : nat := S (Z.to_nat (guest_ram_mb / 512)).

Definition guest_memory : X unit :=
  must (IoPortInit FREE_IOPORT_START);;
  for_each guest_ram_regions (fun r => must (RamRegisterAt (fst r) (snd r)));;
  for_each guest_fake_devices (fun r =>
    must_ptr (ReserveMemoryAt (fst r) (snd r));; must (MapFrameAlloc (fst r)));;
  for_each (zrange (List.length gmaps)) (fun i =>
    let '(error, _) := guest_mappings_get_guest_map i in assertC (error =? 0));;
  for_each (zrange (Z.to_nat exclude_paddr_num_regions)) (fun i =>
    r ← exclude_paddr_get_region i; must_ptr (ReserveMemoryAt (fst r) (snd r)));;
  for_each free_anonymous_regions (fun r => must (MakeAnon (fst r) (snd r)));;
  allocate_guest_ram ram_fuel (u64 (MiB_TO_BYTES guest_ram_mb)).

(** The search for a device's interrupt; [strcmp] of the names. *)
Fixpoint search_irq (irq_name : string) (irqs : list vm_irq) : Z :=
  match irqs with
  | [] => -1
  | q :: irqs => if String.eqb irq_name (q_name q) then q_dest q else search_irq irq_name irqs
  end.

(** One device; [true] when [main_continued] returns NULL. *)
Definition discover_device (d : pci_device) : X bool :=
  let irq := search_irq (pd_irq d) vm_irqs in
  assertC (negb (irq =? -1));;
  if negb (libpci_find_device_bdf (pd_bus d) (pd_dev d) (pd_fun d)) then mret true
  else
    num_bars ← call (MapBars (pd_bus d) (pd_dev d) (pd_fun d));
    assertC (0 <=? num_bars);;
    let entry := PassthroughEntry (pd_bus d) (pd_dev d) (pd_fun d) in
    let entry := if 0 <? num_bars then BarEmulation entry num_bars else entry in
    let entry := IrqEmulation entry irq in
    let entry := NoMsiCapEmulation entry in
    must (PciAddEntry entry);;
    mret false.

Definition ioport_handlers : list (Z * Z * option port_handler) :=
  [(X86_IO_SERIAL_1, Some SerialPort); (X86_IO_RTC, Some CmosPort); (X86_IO_PIT, Some PitPort)].

Definition add_ports : X unit :=
  for_each (zrange (List.length init_cons)) (fun i => do_ (InitFunction (init_cons_init_function i)));;
  for_each ioport_handlers (fun p => let '(start, end_, h) := p in
    match h with
    | Some h => must (AddPortHandler start end_ h)
    | None => must (EnablePassthrough start end_)
    end);;
  for_each nonpci_ioports (fun p => must (EnablePassthrough (p_start p) (p_end p)));;
  must (AddPortHandler (fst X86_IO_PCI_CONFIG) (snd X86_IO_PCI_CONFIG) PciConfigPort).

(** The kernel, the RAM disk if there is one, and the boot structure, which is
    given an indeterminate image when there is none. *)
Definition load_guest : X (Z * Z) :=
  let have_initrd := negb (String.eqb initrd_image EmptyString) in
  must FindLargestRegion;;
  kernel_load_addr ← output largest_region;
  must (LoadKernel kernel_image kernel_load_addr (2 ^ PAGE_BITS_4M)
          (mkRelocation (negb (String.eqb kernel_relocs EmptyString)) kernel_relocs));;
  entry ← output kernel_entry;
  boot_image ← (if have_initrd then
      must FindLargestRegion;;
      initrd_load_addr ← output largest_region;
      must (LoadModule initrd_image initrd_load_addr 0);;
      a ← output module_addr; mret (Some a)
    else mret None);
  must (InitBootStructure kernel_cmdline boot_image);;
  info ← output boot_info;
  mret (entry, info).

Definition cross_vm_init : X unit :=
  when cross_vm_linked
    (badge ← lift (idx irq_badges CROSS_VM_EVENT_IRQ_NUM);
     irq_notification ← create_async_event_notification_cap badge;
     assertC (negb (irq_notification =? seL4_CapNull));;
     must (CrossVmInit irq_notification CROSS_VM_BASE_ADDRESS)).

Definition finish (images : Z * Z) : X unit :=
  must (InitThreadState (fst images) (snd images));;
  do_ VcpuStart;;
  do_ VmRun.

Definition main_continued : X unit :=
  vm_setup;;
  start_devices;;
  guest_memory;;
  must PciInit;;
  missing ← for_until pci_devices discover_device;
  if missing : bool then mret tt
  else
    add_ports;;
    images ← load_guest;
    cross_vm_init;;
    finish images.

(** [run]: it is not to return. *)
Definition run : X Z :=
  main_continued;; assertC false;; mret 0.

End X86Boot.

(** * What booting does *)

Section Trace.
Context {U : Utils} {R : RtcTimeDate} {V : VmmEnv} {E : X86Env}.

(** What a call's result has to be for the VMM to go on. *)
Definition succeeded (c : vm_call) (r : Z) : Prop :=
  match c with
  | BootstrapAllocman | MspaceAlloc | CreateVcpu | ReserveMemoryAt _ _ | ReserveHpet _ _ | RamRegister _ => r <> 0
  | MapBars _ _ _ => 0 <= r
  | _ => r = 0
  end.
(** The calls whose result the code does not look at. *)
Definition must_succeed (c : vm_call) : bool :=
  match c with
  | ConfigureVirtualPool _ | ReserveBrk _ | LibpciScan | InstallFileserver | ReserveHpet _ _ | InitFunction _
  | CspaceAllocPath ForAsyncEvent | VcpuStart | VmRun => false
  | _ => true
  end.
Definition all_succeed : Prop := forall l c, succeeded c (result (l ++ [c])).

(** Routing a hardware interrupt: its notification carries the badge of the
    guest's interrupt. *)
Definition routed (q : vm_irq) (es : list vm_call) : Prop := exists slot,
  es = [CspaceAllocPath (ForIrq (q_cap q)); CnodeMint slot (VM_PIC_BADGE_IRQ (q_dest q));
        SetNotification (q_cap q) slot; IrqHandlerAck (q_cap q); RegisterIrq (q_dest q) (q_cap q)].

(** The badge of a notification on which several interrupts are pending: the
    kernel accumulates the badges of the signals. *)
Definition merged (pending : list vm_irq) : Z :=
  foldr Z.lor 0 (map (fun q => VM_PIC_BADGE_IRQ (q_dest q)) pending).

(** Passing a PCI device through, with the interrupt of its name. *)
Definition device_entry (d : pci_device) (n irq : Z) : pci_entry :=
  let e := PassthroughEntry (pd_bus d) (pd_dev d) (pd_fun d) in
  NoMsiCapEmulation (IrqEmulation (if 0 <? n then BarEmulation e n else e) irq).
Definition discovered (d : pci_device) (es : list vm_call) : Prop := exists n q,
  find (fun q => String.eqb (pd_irq d) (q_name q)) vm_irqs = Some q /\ 0 <= n /\
  es = [MapBars (pd_bus d) (pd_dev d) (pd_fun d); PciAddEntry (device_entry d n (q_dest q))].

Fixpoint pairs (l : list Z) : list (Z * Z) :=
  match l with a :: b :: l => (a, b) :: pairs l | _ => [] end.
(** The chunks guest RAM is registered in, in MiB. *)
Definition ram_chunks (mb : Z) : list Z :=
  replicate (Z.to_nat (mb / 512)) 512 ++ (if mb mod 512 =? 0 then [] else [mb mod 512]).

Definition opening : list vm_call :=
  (if 0 <? Z.of_nat (List.length pci_devices) then [LibpciScan] else []) ++
  [InstallFileserver; NewMallocOps; VmInit] ++
  (if CONFIG_CAMKES_VM_GUEST_DMA_IOMMU then map (fun d => AddIospace (pd_iospace_cap d)) pci_devices else []) ++
  [CreateVcpu; RegisterNotificationCallback; RegisterIoportCallback].
Definition memory : list vm_call :=
  [IoPortInit FREE_IOPORT_START] ++ map (fun r => RamRegisterAt (fst r) (snd r)) guest_ram_regions ++
  concat (map (fun r => [ReserveMemoryAt (fst r) (snd r); MapFrameAlloc (fst r)]) guest_fake_devices) ++
  map (fun r => ReserveMemoryAt (fst r) (snd r)) (pairs exclude_regions) ++
  map (fun r => MakeAnon (fst r) (snd r)) free_anonymous_regions ++
  map (fun mb => RamRegister (mb * 2 ^ 20)) (ram_chunks guest_ram_mb).
Definition ports : list vm_call :=
  map InitFunction init_functions ++
  [AddPortHandler (fst X86_IO_SERIAL_1) (snd X86_IO_SERIAL_1) SerialPort;
   AddPortHandler (fst X86_IO_RTC) (snd X86_IO_RTC) CmosPort;
   AddPortHandler (fst X86_IO_PIT) (snd X86_IO_PIT) PitPort] ++
  map (fun p => EnablePassthrough (p_start p) (p_end p)) nonpci_ioports ++
  [AddPortHandler (fst X86_IO_PCI_CONFIG) (snd X86_IO_PCI_CONFIG) PciConfigPort].
Definition loaded (es : list vm_call) : Prop := exists addr image module,
  es = [FindLargestRegion; LoadKernel kernel_image addr (2 ^ 22)
          (mkRelocation (negb (String.eqb kernel_relocs EmptyString)) kernel_relocs)] ++ module ++ [InitBootStructure kernel_cmdline image] /\
  if String.eqb initrd_image EmptyString then module = [] /\ image = None
  else exists a a', module = [FindLargestRegion; LoadModule initrd_image a 0] /\ image = Some a'.
Definition cross_vm_added (es : list vm_call) : Prop :=
  if cross_vm_linked then exists slot,
    es = [CspaceAllocPath ForAsyncEvent; CnodeMint slot (VM_PIC_BADGE_IRQ CROSS_VM_EVENT_IRQ_NUM);
          CrossVmInit slot CROSS_VM_BASE_ADDRESS]
  else es = [].

(** The whole of [main_continued]. *)
Definition booted (es : list vm_call) : Prop := exists irqs devices load cross entry info,
  es = opening ++ concat irqs ++ [CreateIrqController] ++ memory ++ [PciInit] ++ concat devices ++
       ports ++ load ++ cross ++ [InitThreadState entry info; VcpuStart; VmRun] /\
  Forall2 routed vm_irqs irqs /\ Forall2 discovered pci_devices devices /\ loaded load /\ cross_vm_added cross.

(** A configuration the VMM can be started with. *)
Record config_ok : Prop := {
  irqs_in_range : Forall (fun q => 0 <= q_dest q < 16) vm_irqs;
  devices_present : Forall (fun d => libpci_find_device_bdf (pd_bus d) (pd_dev d) (pd_fun d) = true) pci_devices;
  devices_have_irq : Forall (fun d => In (pd_irq d) (map q_name vm_irqs)) pci_devices;
  no_guest_maps : gmaps = [];
  regions_paired : Nat.even (List.length exclude_regions) = true;
  functions_known : List.length init_functions = List.length init_cons;
  slots_valid : forall l, new_slot l <> seL4_CapNull;
  ram_size_ok : 0 <= guest_ram_mb < 2048 }.

(** ** A calculus of logs

    [logs m Q]: [m] runs, leaves the devices alone, and its value and the
    calls it makes satisfy [Q]. *)
Definition logs {A} (m : X A) (Q : A -> list vm_call -> Prop) : Prop := forall s,
  wp m (fun a s' => x_vmm s' = x_vmm s /\ exists es, x_log s' = x_log s ++ es /\ Q a es) s.
(** It makes exactly the calls [es]. *)
Definition logs_eq {A} (m : X A) (es : list vm_call) : Prop := logs m (fun _ => eq es).

Lemma logs_bind {A B} (m : X A) (k : A -> X B) P (Q : B -> list vm_call -> Prop) :
  logs m P -> (forall a e1, P a e1 -> logs (k a) (fun b e2 => Q b (e1 ++ e2))) -> logs (m ≫= k) Q.
Proof using Type.
  intros Hm Hk s. apply wp_bind. eapply wp_mono; [apply Hm|]. intros a s1 (Ev & e1 & El & HP).
  eapply wp_mono; [by apply (Hk a e1)|]. intros b s2 (Ev2 & e2 & El2 & HQ).
  split; [congruence|]. exists (e1 ++ e2). split; [by rewrite El2, El, app_assoc|done].
Qed.

Lemma logs_ret {A} (a : A) (Q : A -> list vm_call -> Prop) : Q a [] -> logs (mret a) Q.
Proof using Type. intros H s. split; [done|]. exists []. by rewrite app_nil_r. Qed.

Lemma logs_output f (Q : Z -> list vm_call -> Prop) : (forall l, Q (f l) []) -> logs (output f) Q.
Proof using Type. intros H s. split; [done|]. exists []. by rewrite app_nil_r. Qed.

Lemma logs_out {B} f (k : Z -> X B) (Q : B -> list vm_call -> Prop) :
  (forall l, logs (k (f l)) Q) -> logs (output f ≫= k) Q.
Proof using Type.
  intros H. eapply logs_bind; [apply (logs_output f (fun z es => es = [] /\ exists l, z = f l)); eauto|].
  intros z e1 [-> [l ->]]. apply H.
Qed.

Lemma logs_lift {A} (o : outcome A) a : o = Ok a -> logs (lift o) (fun b es => b = a /\ es = []).
Proof using Type. intros -> s. split; [done|]. exists []. by rewrite app_nil_r. Qed.

Lemma logs_mono {A} (m : X A) (P Q : A -> list vm_call -> Prop) :
  logs m P -> (forall a es, P a es -> Q a es) -> logs m Q.
Proof using Type. intros H HQ s. eapply wp_mono; [apply H|]. intros a s' (? & es & ? & ?). naive_solver. Qed.

Lemma logs_assert b : b = true -> logs (assertC b) (fun _ => eq []).
Proof using Type. intros ->. by apply logs_ret. Qed.

Lemma logs_then {A B} (m : X A) (k : A -> X B) e1 (Q : B -> list vm_call -> Prop) :
  logs_eq m e1 -> (forall a, logs (k a) (fun b e2 => Q b (e1 ++ e2))) -> logs (m ≫= k) Q.
Proof using Type. intros Hm Hk. eapply logs_bind; [exact Hm|]. by intros a _ <-. Qed.

Lemma logs_eq_bind {A B} (m : X A) (k : A -> X B) e1 e2 :
  logs_eq m e1 -> (forall a, logs_eq (k a) e2) -> logs_eq (m ≫= k) (e1 ++ e2).
Proof using Type. intros Hm Hk. eapply logs_then; [exact Hm|]. intros a. eapply logs_mono; [apply Hk|]. by intros b es <-. Qed.

Lemma logs_each {T} (l : list T) (body : T -> X unit) f :
  Forall (fun x => logs_eq (body x) (f x)) l -> logs_eq (for_each l body) (concat (map f l)).
Proof using Type. induction 1; cbn; [by apply logs_ret|]. by apply logs_eq_bind. Qed.

Lemma logs_each_some {T} (l : list T) (body : T -> X unit) P :
  Forall (fun x => logs (body x) (fun _ => P x)) l ->
  logs (for_each l body) (fun _ es => exists ess, es = concat ess /\ Forall2 P l ess).
Proof using Type.
  induction 1; cbn; [apply logs_ret; by exists []|]. eapply logs_bind; [done|].
  intros [] e1 H1. eapply logs_mono; [done|]. intros _ e2 (ess & -> & H2). exists (e1 :: ess). auto.
Qed.

Lemma logs_when b m es : (b = true -> logs_eq m es) -> logs_eq (when b m) (if b then es else []).
Proof using Type. destruct b; intros H; [by apply H|by apply logs_ret]. Qed.

(** ** The calls of each part *)

Context (Hok : all_succeed).

Lemma logs_call c : logs (call c) (fun r es => es = [c] /\ succeeded c r).
Proof using Hok. intros s. split; [done|]. exists [c]. split; [done|]. split; [done|apply Hok]. Qed.

Lemma logs_do c : logs_eq (do_ c) [c].
Proof using Hok.
  eapply logs_bind; [apply logs_call|]. intros r e1 [-> _]. by apply logs_ret.
Qed.

Lemma logs_must c : (forall r, succeeded c r -> r = 0) -> logs_eq (must c) [c].
Proof using Hok.
  intros Hc. eapply logs_bind; [apply logs_call|]. intros r e1 [-> Hr%Hc].
  eapply logs_mono; [by apply logs_assert, Z.eqb_eq|]. by intros _ ? <-.
Qed.

Lemma logs_must_ptr c : (forall r, succeeded c r -> r <> 0) -> logs_eq (must_ptr c) [c].
Proof using Hok.
  intros Hc. eapply logs_bind; [apply logs_call|]. intros r e1 [-> Hr%Hc].
  eapply logs_mono; [by apply logs_assert, negb_true_iff, Z.eqb_neq|]. by intros _ ? <-.
Qed.

(** Steps through code that makes fixed calls. *)
Ltac log_call := first [apply logs_do | apply logs_must; by intros ? ? | apply logs_must_ptr; by intros ? ?].
Ltac log_step := eapply logs_then; [log_call|]; intros [].

Lemma vm_setup_logs : logs_eq vm_setup opening.
Proof using Hok.
  unfold vm_setup, opening. apply logs_eq_bind; [apply logs_when; intros _; log_call|]. intros _.
  apply (logs_eq_bind _ _ [_]); [log_call|]. intros _.
  apply (logs_eq_bind _ _ [_]); [log_call|]. intros _.
  apply (logs_eq_bind _ _ [_]); [log_call|]. intros _.
  apply logs_eq_bind.
  - apply logs_when. intros _. rewrite <-concat_single. apply logs_each, Forall_true. intros d. log_call.
  - intros _. apply (logs_eq_bind _ _ [_]); [log_call|]. intros _.
    apply (logs_eq_bind _ _ [_]); [log_call|]. intros _. log_call.
Qed.

Lemma init_irq_logs q : 0 <= q_dest q < 16 -> logs (init_irq q) (fun _ => routed q).
Proof using Hok.
  intros Hq. unfold init_irq. log_step.
  apply logs_out. intros l.
  eapply logs_bind; [apply logs_lift, irq_badges_bits, Hq|]. intros b e1 [-> ->].
  do 3 log_step. eapply logs_mono; [log_call|]. intros _ es <-. by eexists.
Qed.

Lemma init_irqs_logs : Forall (fun q => 0 <= q_dest q < 16) vm_irqs ->
  logs init_irqs (fun _ es => exists ess, es = concat ess /\ Forall2 routed vm_irqs ess).
Proof using Hok. intros H. by apply logs_each_some, (List.Forall_impl _ init_irq_logs). Qed.

(** Region [k] is the [k]-th pair of the array. *)
Lemma get_region k pre a b rest : exclude_regions = pre ++ a :: b :: rest -> List.length pre = (2 * k)%nat ->
  logs (exclude_paddr_get_region (Z.of_nat k)) (fun r es => r = (a, b) /\ es = []).
Proof using Type.
  intros He Hp. unfold exclude_paddr_get_region. eapply (logs_then _ _ []).
  { apply logs_assert, Z.ltb_lt. unfold exclude_paddr_num_regions. rewrite He, length_app. cbn [List.length].
    apply Z.lt_le_trans with (((Z.of_nat k + 1) * 2) / 2); [rewrite Z.div_mul; lia|]. apply Z.div_le_mono; lia. }
  intros _. eapply logs_bind; [apply (logs_lift _ a)|].
  { replace (Z.of_nat k * 2) with (Z.of_nat (List.length pre)) by lia. apply idx_lookup. by rewrite He, lookup_mid. }
  intros x e1 [-> ->]. eapply logs_bind; [apply (logs_lift _ b)|].
  { replace (Z.of_nat k * 2 + 1) with (Z.of_nat (List.length (pre ++ [a]))) by (rewrite length_app; cbn; lia).
    apply idx_lookup. rewrite He. change (a :: b :: rest) with ([a] ++ b :: rest). by rewrite app_assoc, lookup_mid. }
  intros y e1 [-> ->]. by apply logs_ret.
Qed.

Lemma exclude_logs m : forall rest k pre,
  exclude_regions = pre ++ rest -> List.length pre = (2 * k)%nat -> List.length rest = (2 * m)%nat ->
  logs_eq (for_each (map Z.of_nat (seq k m)) (fun i =>
             r ← exclude_paddr_get_region i; must_ptr (ReserveMemoryAt (fst r) (snd r))))
          (map (fun r => ReserveMemoryAt (fst r) (snd r)) (pairs rest)).
Proof using Hok.
  induction m as [|m IH]; intros rest k pre He Hp Hr; destruct rest as [|a [|b rest]]; cbn [List.length] in Hr; try lia;
    cbn [seq map for_each pairs]; [by apply logs_ret|].
  apply (logs_eq_bind _ _ [_]).
  - eapply logs_bind; [by eapply get_region|]. intros r e1 [-> ->]. log_call.
  - intros _. apply (IH _ _ (pre ++ [a; b])); [by rewrite <-app_assoc|rewrite length_app; cbn|]; lia.
Qed.

Lemma ram_chunks_more mb : 512 <= mb -> ram_chunks mb = 512 :: ram_chunks (mb - 512).
Proof using Type.
  intros H. unfold ram_chunks.
  assert (mb / 512 = Z.succ ((mb - 512) / 512)) as ->.
  { replace mb with (mb - 512 + 1 * 512) at 1 by lia. rewrite Z.div_add by lia. lia. }
  assert (mb mod 512 = (mb - 512) mod 512) as ->.
  { replace mb with (mb - 512 + 1 * 512) at 1 by lia. by rewrite Z_mod_plus by lia. }
  rewrite Z2Nat.inj_succ; [done|]. apply Z.div_pos; lia.
Qed.

(** The loop over guest RAM, in MiB. *)
Lemma ram_loop_logs `{!UtilsLaws U} `{!X86Laws E} n mb :
  0 <= mb < 2048 -> mb / 512 < Z.of_nat n ->
  logs_eq (allocate_guest_ram n (mb * 2 ^ 20)) (map (fun mb => RamRegister (mb * 2 ^ 20)) (ram_chunks mb)).
Proof using Hok.
  revert mb. induction n as [|n IH]; intros mb Hm Hn; [pose proof (Z.div_pos mb 512); lia|].
  cbn [allocate_guest_ram]. destruct (Z.eqb_spec (mb * 2 ^ 20) 0) as [Hz|Hz].
  { replace mb with 0 by lia. by apply logs_ret. }
  rewrite MIN_spec, MiB_TO_BYTES_spec by lia. destruct (Z.le_gt_cases 512 mb).
  - rewrite Z.min_r by lia. rewrite u64_small by (unfold inw; lia).
    rewrite ram_chunks_more by done.
    cbn [map]. apply (logs_eq_bind _ _ [_]); [log_call|]. intros _.
    replace (mb * 2 ^ 20 - 512 * 2 ^ 20) with ((mb - 512) * 2 ^ 20) by lia. apply IH; [lia|].
    replace mb with (mb - 512 + 1 * 512) in Hn by lia. rewrite Z.div_add in Hn by lia. lia.
  - rewrite Z.min_l, Z.sub_diag by lia. unfold ram_chunks. rewrite Z.div_small, Z.mod_small by lia.
    destruct (Z.eqb_spec mb 0); [lia|]. cbn [Z.to_nat replicate app map].
    apply (logs_eq_bind _ _ [_] []); [log_call|]. intros _. destruct n; by apply logs_ret.
Qed.

Lemma guest_memory_logs `{!UtilsLaws U} `{!X86Laws E} :
  gmaps = [] -> Nat.even (List.length exclude_regions) = true -> 0 <= guest_ram_mb < 2048 ->
  logs_eq guest_memory memory.
Proof using Hok.
  intros Hg Hx Hm. unfold guest_memory, memory.
  apply logs_eq_bind; [log_call|]. intros _.
  apply logs_eq_bind; [rewrite <-concat_single; apply logs_each, Forall_true; intros r; log_call|]. intros _.
  apply logs_eq_bind.
  { apply logs_each, Forall_true. intros r. apply (logs_eq_bind _ _ [_] [_]); [log_call|intros _; log_call]. }
  intros _. rewrite Hg. apply (logs_eq_bind _ _ []); [by apply logs_ret|]. intros _.
  apply Nat.even_spec in Hx as [m Hx].
  apply logs_eq_bind.
  { unfold exclude_paddr_num_regions, zrange. rewrite Hx.
    replace (Z.to_nat (Z.of_nat (2 * m) / 2)) with m by (rewrite Nat2Z.inj_mul, Z.mul_comm, Z.div_mul; lia).
    by apply (exclude_logs m exclude_regions 0 []). }
  intros _. apply logs_eq_bind; [rewrite <-concat_single; apply logs_each, Forall_true; intros r; log_call|]. intros _.
  rewrite MiB_TO_BYTES_spec, u64_small by (done || unfold inw; lia). apply ram_loop_logs; [done|].
  unfold ram_fuel. pose proof (Z.div_pos guest_ram_mb 512). lia.
Qed.

Lemma search_irq_find name irqs : In name (map q_name irqs) -> Forall (fun q => 0 <= q_dest q < 16) irqs ->
  exists q, find (fun q => String.eqb name (q_name q)) irqs = Some q /\ search_irq name irqs = q_dest q /\ 0 <= q_dest q.
Proof using Type.
  intros Hin HF. induction HF as [|q irqs Hq HF IH]; [done|]. cbn.
  destruct (String.eqb_spec name (q_name q)) as [|Hne]; [exists q; naive_solver lia|].
  destruct Hin as [Hn|Hin]; [congruence|]. by apply IH.
Qed.

Lemma discover_logs d : In (pd_irq d) (map q_name vm_irqs) -> Forall (fun q => 0 <= q_dest q < 16) vm_irqs ->
  libpci_find_device_bdf (pd_bus d) (pd_dev d) (pd_fun d) = true ->
  logs (discover_device d) (fun b es => b = false /\ discovered d es).
Proof using Hok.
  intros Hin HF Hd. unfold discover_device. rewrite Hd.
  destruct (search_irq_find _ _ Hin HF) as (q & Hq & -> & H0).
  eapply (logs_then _ _ []); [apply logs_assert, negb_true_iff, Z.eqb_neq; lia|]. intros _. cbn [negb].
  eapply logs_bind; [apply logs_call|]. intros n e1 [-> Hn]. cbn in Hn.
  eapply (logs_then _ _ []); [apply logs_assert; lia|]. intros _. log_step. apply logs_ret. split; [done|].
  exists n, q. auto.
Qed.

Lemma discover_all_logs (l : list pci_device) :
  Forall (fun d => logs (discover_device d) (fun b es => b = false /\ discovered d es)) l ->
  logs (for_until l discover_device) (fun b es => b = false /\ exists ess, es = concat ess /\ Forall2 discovered l ess).
Proof using Type.
  induction 1 as [|d l Hd _ IH]; cbn; [apply logs_ret; split; [done|]; by exists []|].
  eapply logs_bind; [exact Hd|]. intros b e1 [-> H1]. eapply logs_mono; [exact IH|].
  intros b e2 (-> & ess & -> & H2). split; [done|]. exists (e1 :: ess). auto.
Qed.

Lemma discover_devices_logs :
  Forall (fun q => 0 <= q_dest q < 16) vm_irqs ->
  Forall (fun d => libpci_find_device_bdf (pd_bus d) (pd_dev d) (pd_fun d) = true) pci_devices ->
  Forall (fun d => In (pd_irq d) (map q_name vm_irqs)) pci_devices ->
  logs (for_until pci_devices discover_device)
    (fun b es => b = false /\ exists ess, es = concat ess /\ Forall2 discovered pci_devices ess).
Proof using Hok.
  intros Hq Hd Hn. apply discover_all_logs. apply List.Forall_forall. intros d Hin.
  apply discover_logs; [|done|]; by eapply List.Forall_forall in Hin; [exact Hin|].
Qed.

Lemma map_init_functions : List.length init_functions = List.length init_cons ->
  map (fun i => InitFunction (init_cons_init_function i)) (zrange (List.length init_cons)) = map InitFunction init_functions.
Proof using Type.
  intros <-. apply list_eq. intros k. unfold zrange. rewrite !lookup_map.
  destruct (decide (k < List.length init_functions)%nat) as [Hk|Hk].
  - rewrite lookup_seq_lt by done. cbn. unfold init_cons_init_function. rewrite Nat2Z.id.
    destruct (lookup_lt_is_Some_2 init_functions k Hk) as [f ->]. done.
  - rewrite lookup_seq_ge, lookup_ge_None_2 by lia. done.
Qed.

Lemma add_ports_logs : List.length init_functions = List.length init_cons -> logs_eq add_ports ports.
Proof using Hok.
  intros Hl. unfold add_ports, ports.
  apply logs_eq_bind.
  { rewrite <-map_init_functions, <-concat_single by done. apply logs_each, Forall_true. intros i. log_call. }
  intros _. apply logs_eq_bind.
  { unfold ioport_handlers. destruct X86_IO_SERIAL_1, X86_IO_RTC, X86_IO_PIT. cbn.
    apply (logs_eq_bind _ _ [_]); [log_call|intros _]. apply (logs_eq_bind _ _ [_]); [log_call|intros _].
    apply (logs_eq_bind _ _ [_] []); [log_call|intros _]. by apply logs_ret. }
  intros _. apply logs_eq_bind; [|intros _; log_call].
  rewrite <-concat_single. apply logs_each, Forall_true. intros p. log_call.
Qed.

Lemma load_guest_logs : logs load_guest (fun _ => loaded).
Proof using Hok.
  unfold load_guest, loaded. log_step. apply logs_out. intros addr. log_step. apply logs_out. intros entry.
  eapply logs_bind with (P := fun image module =>
    if String.eqb initrd_image EmptyString then module = [] /\ image = None
    else exists a a', module = [FindLargestRegion; LoadModule initrd_image a 0] /\ image = Some a').
  - destruct (String.eqb initrd_image EmptyString); cbn [negb]; [by apply logs_ret|].
    log_step. apply logs_out. intros a. log_step. apply logs_out. intros a'. apply logs_ret. by eexists _, _.
  - intros image module Hi. log_step. apply logs_out. intros info. apply logs_ret. by eexists _, image, module.
Qed.

Lemma cross_vm_logs `{!UtilsLaws U} : (forall l, new_slot l <> seL4_CapNull) ->
  logs cross_vm_init (fun _ => cross_vm_added).
Proof using Hok.
  intros Hs. unfold cross_vm_init, cross_vm_added. destruct cross_vm_linked; cbn [when]; [|by apply logs_ret].
  eapply logs_bind; [by apply logs_lift, irq_badges_bits|]. intros badge e1 [-> ->].
  eapply logs_bind with (P := fun slot es => slot <> seL4_CapNull /\
    es = [CspaceAllocPath ForAsyncEvent; CnodeMint slot (VM_PIC_BADGE_IRQ CROSS_VM_EVENT_IRQ_NUM)]).
  - unfold create_async_event_notification_cap. rewrite <-badge_bit27. cbn [negb].
    eapply logs_then; [apply logs_do|]. intros []. apply logs_out. intros l.
    eapply logs_bind; [apply logs_call|]. intros r e1 [-> Hr]. cbn in Hr. subst r. apply logs_ret. auto.
  - intros slot e1 [Hn ->]. eapply (logs_then _ _ []); [by apply logs_assert, negb_true_iff, Z.eqb_neq|]. intros _.
    eapply logs_mono; [log_call|]. intros _ es <-. by exists slot.
Qed.

Lemma finish_logs images :
  logs_eq (finish images) [InitThreadState (fst images) (snd images); VcpuStart; VmRun].
Proof using Hok.
  unfold finish. apply (logs_eq_bind _ _ [_]); [log_call|intros _].
  apply (logs_eq_bind _ _ [_]); [log_call|intros _]. log_call.
Qed.

Lemma wp_logs {A B} (m : X A) P (k : A -> X B) (Q : B -> X86 -> Prop) s :
  logs m P ->
  (forall a s' es, x_vmm s' = x_vmm s -> x_log s' = x_log s ++ es -> P a es -> wp (k a) Q s') -> wp (m ≫= k) Q s.
Proof using Type.
  intros Hm Hk. apply wp_bind. eapply wp_mono; [apply Hm|]. intros a s' (Ev & es & El & HP). by eapply Hk.
Qed.

Lemma wp_bind_inv {S A B} (m : M S A) (k : A -> M S B) Q s :
  wp (m ≫= k) Q s -> wp m (fun a s' => wp (k a) Q s') s.
Proof using Type. unfold wp, mbind, M_bind. by destruct (m s) as [[a s']|]. Qed.

Lemma wp_on_vmm {A B} (m : Dev Machine A) (k : A -> X B) (Q : B -> X86 -> Prop) s :
  wp m (fun a v => wp (k a) Q (s <| x_vmm := v |>)) (x_vmm s) -> wp (on_vmm m ≫= k) Q s.
Proof using Type. unfold wp at 1 3, mbind, M_bind, on_vmm. by destruct (m (x_vmm s)) as [[a v]|]. Qed.

(** The devices are started in the order of [vmm_start], the interrupts being
    routed in between. *)
Lemma start_devices_wp s (Q : Machine * World -> Prop) : use_hpet = false ->
  Forall (fun q => 0 <= q_dest q < 16) vm_irqs -> wp vmm_start (fun _ => Q) (x_vmm s) ->
  wp start_devices (fun _ s' => Q (x_vmm s') /\ exists irqs,
    x_log s' = x_log s ++ concat irqs ++ [CreateIrqController] /\ Forall2 routed vm_irqs irqs) s.
Proof using Hok.
  intros Hh Hq H. unfold vmm_start in H. unfold start_devices. rewrite Hh in *. cbn [when] in *.
  apply wp_on_vmm. eapply wp_mono; [exact (wp_bind_inv _ _ _ _ H)|]. intros [] v1 H1.
  eapply wp_logs; [by apply init_irqs_logs|]. intros [] s2 es2 Hv2 Hl2 (irqs & -> & Hirqs).
  eapply wp_logs; [apply logs_must; by intros ? ?|]. intros [] s3 es3 Hv3 Hl3 <-.
  cbn [x_vmm update] in Hv2. rewrite Hv2 in Hv3.
  apply wp_on_vmm. rewrite Hv3. eapply wp_mono; [exact (wp_bind_inv _ _ _ _ H1)|]. intros [] v4 H4.
  apply wp_on_vmm. eapply wp_mono; [exact (wp_bind_inv _ _ _ _ H4)|]. intros [] v5 H5.
  apply wp_on_vmm. eapply wp_mono; [exact (wp_bind_inv _ _ _ _ H5)|]. intros [] v6 H6.
  split; [exact H6|]. exists irqs. split; [|done]. cbn. rewrite Hl3, Hl2. cbn. by rewrite <-app_assoc.
Qed.

End Trace.

(** * What a start that returns has checked *)

Section Checked.
Context {U : Utils} {R : RtcTimeDate} {V : VmmEnv} {E : X86Env}.

(** Every call of [es], made after those of [l], had the result the code looks
    for, if it looks. *)
Fixpoint all_checked (l es : list vm_call) : Prop :=
  match es with
  | [] => True
  | c :: es => (must_succeed c = true -> succeeded c (result (l ++ [c]))) /\ all_checked (l ++ [c]) es
  end.
Definition is_start (c : vm_call) : bool := match c with VcpuStart => true | _ => false end.
Definition idle (es : list vm_call) : Prop := existsb is_start es = false.

(** If [m] comes to an end, its calls were checked, the processor was not
    started, and [Q] holds of the value. *)
Definition ensures {A} (m : X A) (Q : A -> Prop) : Prop := forall s a s', m s = Ok (a, s') ->
  exists es, x_log s' = x_log s ++ es /\ all_checked (x_log s) es /\ idle es /\ Q a.

Lemma all_checked_app l e1 e2 : all_checked l e1 -> all_checked (l ++ e1) e2 -> all_checked l (e1 ++ e2).
Proof using Type.
  revert l. induction e1 as [|c e1 IH]; intros l; cbn; [by rewrite app_nil_r|].
  intros [Hc H1] H2. split; [done|]. apply IH; [done|]. by rewrite <-app_assoc.
Qed.

Lemma idle_app e1 e2 : idle e1 -> idle e2 -> idle (e1 ++ e2).
Proof using Type. unfold idle. rewrite existsb_app. by intros -> ->. Qed.

Lemma ens_bind {A B} (m : X A) (k : A -> X B) P (Q : B -> Prop) :
  ensures m P -> (forall a, P a -> ensures (k a) Q) -> ensures (m ≫= k) Q.
Proof using Type.
  intros Hm Hk s b s' H. unfold mbind, M_bind in H. destruct (m s) as [[a s1]|] eqn:Em; [|done].
  destruct (Hm _ _ _ Em) as (e1 & El & Hc & Hn & HP). destruct (Hk a HP _ _ _ H) as (e2 & El2 & Hc2 & Hn2 & HQ).
  exists (e1 ++ e2). rewrite El2, El, app_assoc. split; [done|]. rewrite El in Hc2.
  split; [by apply all_checked_app|]. split; [by apply idle_app|done].
Qed.

(** Code that makes no call. *)
Lemma ens_pure {A} (m : X A) (Q : A -> Prop) :
  (forall s a s', m s = Ok (a, s') -> x_log s' = x_log s /\ Q a) -> ensures m Q.
Proof using Type.
  intros H s a s' Hm. destruct (H _ _ _ Hm) as [El HQ]. exists []. rewrite app_nil_r. by split_and!; auto.
Qed.

Lemma ens_ret {A} (a : A) (Q : A -> Prop) : Q a -> ensures (mret a) Q.
Proof using Type. intros H. apply ens_pure. by intros s b s' [= <- <-]. Qed.
Lemma ens_assert b (Q : unit -> Prop) : (b = true -> Q tt) -> ensures (assertC b) Q.
Proof using Type. destruct b; intros H; apply ens_pure; [|done]. intros s [] s' [= <-]. auto. Qed.
Lemma ens_lift {A} (o : outcome A) : ensures (lift o) (fun a => o = Ok a).
Proof using Type. apply ens_pure. intros s a s'. unfold lift. destruct o; [|done]. by intros [= -> ->]. Qed.
Lemma ens_output f : ensures (output f) (fun _ => True).
Proof using Type. apply ens_pure. by intros s a s' [= <- <-]. Qed.
Lemma ens_on_vmm {A} (m : Dev Machine A) : ensures (on_vmm m) (fun _ => True).
Proof using Type.
  apply ens_pure. intros s a s'. unfold on_vmm. destruct (m (x_vmm s)) as [[b v]|]; [|done]. by intros [= <- <-].
Qed.

(** A call followed by its check. *)
Lemma ens_call {B} c (k : Z -> X B) (Q : B -> Prop) : is_start c = false ->
  (forall r s b s', k r s = Ok (b, s') -> exists es, x_log s' = x_log s ++ es /\ all_checked (x_log s) es /\
     idle es /\ (must_succeed c = true -> succeeded c r) /\ Q b) -> ensures (call c ≫= k) Q.
Proof using Type.
  intros Hs Hk s b s' H. unfold mbind, M_bind, call in H.
  destruct (Hk _ _ _ _ H) as (es & El & Hc & Hn & Hr & HQ). cbn in El.
  exists (c :: es). rewrite El, <-app_assoc. split; [done|]. split; [done|]. split; [|done].
  unfold idle. cbn. by rewrite Hs.
Qed.

Lemma ens_must c : is_start c = false -> (must_succeed c = true -> succeeded c 0) -> ensures (must c) (fun _ => True).
Proof using Type.
  intros Hs Hc. apply ens_call; [done|]. intros r s [] s'. destruct (Z.eqb_spec r 0) as [->|]; [|done].
  intros [= <-]. exists []. rewrite app_nil_r. by split_and!; auto.
Qed.
Lemma ens_must_ptr c : is_start c = false -> (forall r, r <> 0 -> succeeded c r) -> ensures (must_ptr c) (fun _ => True).
Proof using Type.
  intros Hs Hc. apply ens_call; [done|]. intros r s [] s'. destruct (Z.eqb_spec r 0) as [->|Hr]; [done|].
  intros [= <-]. exists []. rewrite app_nil_r. by split_and!; auto.
Qed.
Lemma ens_do c : is_start c = false -> must_succeed c = false -> ensures (do_ c) (fun _ => True).
Proof using Type.
  intros Hs Hc. apply ens_call; [done|]. intros r s [] s' [= <-]. exists []. rewrite app_nil_r, Hc. by split_and!.
Qed.

Lemma ens_each {T} (l : list T) (body : T -> X unit) (P : T -> Prop) :
  (forall x, ensures (body x) (fun _ => P x)) -> ensures (for_each l body) (fun _ => Forall P l).
Proof using Type.
  intros H. induction l as [|x l IH]; cbn; [by apply ens_ret|].
  eapply ens_bind; [apply H|]. intros [] Hx. intros s [] s' Hs. destruct (IH _ _ _ Hs) as (es & ? & ? & ? & ?).
  exists es. auto.
Qed.

Lemma ens_when b m Q : (b = true -> ensures m Q) -> Q tt -> ensures (when b m) Q.
Proof using Type. destruct b; intros; [auto|by apply ens_ret]. Qed.

Lemma ens_mono {A} (m : X A) (P Q : A -> Prop) : ensures m P -> (forall a, P a -> Q a) -> ensures m Q.
Proof using Type. intros H HQ s a s' Hm. destruct (H _ _ _ Hm) as (es & ? & ? & ? & ?). exists es. auto. Qed.

Lemma ens_until {T} (l : list T) (body : T -> X bool) (P Q : T -> Prop) :
  (forall x, ensures (body x) (fun b => if b then P x else Q x)) ->
  ensures (for_until l body) (fun b => if b then Exists P l else Forall Q l).
Proof using Type.
  intros H. induction l as [|x l IH]; cbn; [by apply ens_ret|].
  eapply ens_bind; [apply H|]. intros [] Hx; [apply ens_ret; by left|].
  eapply ens_mono; [exact IH|]. intros [] Hl; [by right|by constructor].
Qed.

Ltac ens_call := first [apply ens_do; done | apply ens_must; done | apply ens_must_ptr; done].
Ltac ens_step := eapply ens_bind; [first [ens_call | apply ens_on_vmm | apply ens_output]|]; intros ? _.

(** ** The parts *)

Lemma vm_setup_checked : ensures vm_setup (fun _ => True).
Proof using Type.
  unfold vm_setup. eapply ens_bind; [by apply (ens_when _ _ (fun _ => True)); [intros _; ens_call|]|]. intros _ _.
  do 3 ens_step. eapply ens_bind; [|intros _ _; do 2 ens_step; ens_call].
  apply (ens_when _ _ (fun _ => True)); [|done]. intros _. eapply ens_mono; [|done].
  apply ens_each with (P := fun _ => True). intros d. ens_call.
Qed.

Lemma irq_badges_range i b : idx irq_badges i = Ok b -> 0 <= i < 16.
Proof using Type.
  unfold idx. destruct (Z.ltb_spec i 0); [done|]. destruct (irq_badges !! Z.to_nat i) as [x|] eqn:El; [|done].
  intros _. apply lookup_lt_Some in El. cbn in El. lia.
Qed.

Lemma init_irq_checked q : ensures (init_irq q) (fun _ => 0 <= q_dest q < 16).
Proof using Type.
  unfold init_irq. do 2 ens_step. eapply ens_bind; [apply ens_lift|]. intros b Hb%irq_badges_range.
  do 3 ens_step. eapply ens_mono; [ens_call|done].
Qed.

Lemma vm_create_hpet_checked : ensures vm_create_hpet (fun _ => True).
Proof using Type.
  apply ens_call; [done|]. intros r s b s' H. exists []. rewrite app_nil_r.
  destruct (r =? 0); injection H as _ <-; by split_and!.
Qed.
Lemma start_devices_checked : ensures start_devices (fun _ => Forall (fun q => 0 <= q_dest q < 16) vm_irqs).
Proof using Type.
  unfold start_devices. ens_step. eapply ens_bind; [apply (ens_each _ _ _ init_irq_checked)|]. intros [] Hq.
  do 4 ens_step. apply ens_when; [|done]. intros _. do 2 ens_step.
  eapply ens_bind; [exact vm_create_hpet_checked|]. intros _ _. by apply ens_ret.
Qed.

Lemma allocate_checked n remaining : ensures (allocate_guest_ram n remaining) (fun _ => True).
Proof using Type.
  revert remaining. induction n as [|n IH]; intros r; cbn; destruct (r =? 0); try by apply ens_ret.
  - by apply ens_pure.
  - ens_step. apply IH.
Qed.

(** [guest_mappings_get_guest_map] answers 1 for a mapping. *)
Lemma no_mappings : Forall (fun i => fst (guest_mappings_get_guest_map i) = 0) (zrange (List.length gmaps)) -> gmaps = [].
Proof using Type.
  unfold guest_mappings_get_guest_map. destruct gmaps as [|[[frame size] cap] l]; [done|].
  cbn [List.length]. rewrite zrange_S_l. intros [H _]%list.Forall_cons. done.
Qed.

Lemma guest_memory_checked : ensures guest_memory (fun _ => gmaps = []).
Proof using Type.
  unfold guest_memory. ens_step.
  eapply ens_bind; [apply (ens_each _ _ (fun _ => True)); intros r; ens_call|]. intros _ _.
  eapply ens_bind; [apply (ens_each _ _ (fun _ => True)); intros r; ens_step; ens_call|]. intros _ _.
  eapply ens_bind; [apply (ens_each _ _ (fun i => fst (guest_mappings_get_guest_map i) = 0))|].
  { intros i. destruct (guest_mappings_get_guest_map i) as [e o]. apply ens_assert, Z.eqb_eq. }
  intros [] Hg%no_mappings. eapply ens_bind; [apply (ens_each _ _ (fun _ => True))|].
  { intros i. eapply ens_bind with (P := fun _ => True); [|intros r _; ens_call].
    unfold exclude_paddr_get_region. eapply ens_bind; [by apply (ens_assert _ (fun _ => True))|]. intros _ _.
    do 2 (eapply ens_bind; [apply ens_lift|]; intros ? _). by apply ens_ret. }
  intros _ _. eapply ens_bind; [apply (ens_each _ _ (fun _ => True)); intros r; ens_call|]. intros _ _.
  eapply ens_mono; [apply allocate_checked|done].
Qed.

Definition present (d : pci_device) : bool := libpci_find_device_bdf (pd_bus d) (pd_dev d) (pd_fun d).

Lemma search_irq_In name irqs : search_irq name irqs <> -1 -> In name (map q_name irqs).
Proof using Type.
  induction irqs as [|q irqs IH]; [done|]. cbn [search_irq map].
  destruct (String.eqb_spec name (q_name q)); [by left|]. right. auto.
Qed.

Lemma discover_checked d : ensures (discover_device d) (fun b =>
  if b then present d = false else present d = true /\ In (pd_irq d) (map q_name vm_irqs)).
Proof using Type.
  unfold discover_device, present.
  eapply ens_bind; [by apply (ens_assert _ (fun _ => search_irq (pd_irq d) vm_irqs <> -1)); intros ?%negb_true_iff%Z.eqb_neq|].
  intros [] Hi%search_irq_In. destruct (libpci_find_device_bdf _ _ _) eqn:Hp; cbn [negb]; [|by apply ens_ret].
  apply ens_call; [done|]. intros r s b s' H. unfold mbind, M_bind in H.
  destruct (Z.leb_spec 0 r) as [Hr|]; [|done].
  assert (ensures (must (PciAddEntry (device_entry d r (search_irq (pd_irq d) vm_irqs)));; mret false) (fun b => b = false)) as He.
  { eapply ens_bind; [ens_call|]. intros _ _. by apply ens_ret. }
  destruct (He s b s') as (es & El & Hc & Hn & ->); [exact H|].
  exists es. do 3 (split; [done|]). split; [by intros _|done].
Qed.

Lemma add_ports_checked : ensures add_ports (fun _ => True).
Proof using Type.
  unfold add_ports. eapply ens_bind; [apply (ens_each _ _ (fun _ => True)); intros i; ens_call|]. intros _ _.
  eapply ens_bind; [apply (ens_each _ _ (fun _ => True)); intros [[a b] [h|]]; ens_call|]. intros _ _.
  eapply ens_bind; [apply (ens_each _ _ (fun _ => True)); intros i; ens_call|]. intros _ _. ens_call.
Qed.

Lemma load_guest_checked : ensures load_guest (fun _ => True).
Proof using Type.
  unfold load_guest. do 4 ens_step. eapply ens_bind with (P := fun _ => True).
  - destruct (negb _); [|by apply ens_ret]. do 4 ens_step. by apply ens_ret.
  - intros image _. do 2 ens_step. by apply ens_ret.
Qed.

Lemma cross_vm_checked : ensures cross_vm_init (fun _ => True).
Proof using Type.
  unfold cross_vm_init. apply (ens_when _ _ (fun _ => True)); [|done]. intros _.
  eapply ens_bind; [apply ens_lift|]. intros badge _.
  intros s [] s' H. unfold create_async_event_notification_cap in H.
  destruct (negb _); [done|].
  unfold must, do_, call, output, assertC, mbind, M_bind, mret, M_ret in H. cbn in H.
  destruct (result (_ ++ [CnodeMint _ _]) =? 0) eqn:H1; [|done]. apply Z.eqb_eq in H1.
  cbn in H. destruct (_ =? seL4_CapNull); [done|]. cbn in H.
  destruct (result (_ ++ [CrossVmInit _ _]) =? 0) eqn:H2; [|done]. apply Z.eqb_eq in H2.
  injection H as <-. eexists [_; _; _]. cbn.
  split; [rewrite <-!app_assoc; reflexivity|]. by split_and!.
Qed.

(** The end: the processor is started last, or not at all. *)
Definition all_present : Prop :=
  Forall (fun d => present d = true /\ In (pd_irq d) (map q_name vm_irqs)) pci_devices.
Definition ending (es : list vm_call) : Prop :=
  Forall (fun q => 0 <= q_dest q < 16) vm_irqs /\ gmaps = [] /\
  ((idle es /\ Exists (fun d => present d = false) pci_devices) \/
   (exists pre, es = pre ++ [VcpuStart; VmRun] /\ idle pre /\ all_present)).
Definition ends (m : X unit) : Prop := forall s s', m s = Ok (tt, s') ->
  exists es, x_log s' = x_log s ++ es /\ all_checked (x_log s) es /\ ending es.

Lemma ends_bind {A} (m : X A) k P : ensures m P -> (forall a, P a -> ends (k a)) -> ends (m ≫= k).
Proof using Type.
  intros Hm Hk s s' H. unfold mbind, M_bind in H. destruct (m s) as [[a s1]|] eqn:Em; [|done].
  destruct (Hm _ _ _ Em) as (e1 & El & Hc & Hn & HP). destruct (Hk a HP _ _ H) as (e2 & El2 & Hc2 & Hq & Hg & He).
  exists (e1 ++ e2). rewrite El2, El, app_assoc. split; [done|]. rewrite El in Hc2.
  split; [by apply all_checked_app|]. split; [done|]. split; [done|].
  destruct He as [[Hn2 ?]|(pre & -> & Hp & ?)]; [left; split; [by apply idle_app|done]|].
  right. exists (e1 ++ pre). rewrite app_assoc. split; [done|]. split; [by apply idle_app|done].
Qed.

Lemma main_checked : ends main_continued.
Proof using Type.
  unfold main_continued. eapply ends_bind; [apply vm_setup_checked|]. intros _ _.
  eapply ends_bind; [apply start_devices_checked|]. intros [] Hq.
  eapply ends_bind; [apply guest_memory_checked|]. intros [] Hg.
  eapply ends_bind; [ens_call|]. intros _ _.
  eapply ends_bind; [apply (ens_until _ _ _ _ discover_checked)|]. intros [] Hp.
  - intros s s' [= <-]. exists []. rewrite app_nil_r. split; [done|]. split; [done|]. split; [done|].
    split; [done|]. left. done.
  - eapply ends_bind; [apply add_ports_checked|]. intros _ _.
    eapply ends_bind; [apply load_guest_checked|]. intros images _.
    eapply ends_bind; [apply cross_vm_checked|]. intros _ _.
    unfold finish. eapply ends_bind; [ens_call|]. intros _ _.
    intros s s' [= <-]. exists [VcpuStart; VmRun]. cbn. rewrite <-!app_assoc. split; [done|]. split; [done|].
    split; [done|]. split; [done|]. right. by exists [].
Qed.

End Checked.

(** * Theorems *)

Section Theorems.
Context {U : Utils} {R : RtcTimeDate} {V : VmmEnv} {E : X86Env}.

(** C17 -- Starting a guest.  With a configuration the VMM can be started with,
    and libraries whose calls succeed, [main_continued] runs to the start of
    the guest, and the calls it makes are exactly those of [booted], in that
    order: every hardware interrupt is routed to a notification with the badge
    of its guest interrupt; the guest's memory is laid out, all of its RAM
    being registered, in chunks of at most 512 MiB; every PCI device is passed
    through with the interrupt of its name; the ports, the kernel, the RAM
    disk if there is one and the cross-VM connections follow; and only then the
    processor is started.  The emulated devices are then in the states that
    the theorems on the running VMM start from. *)
Theorem x86_boot `{!UtilsLaws U} `{!X86Laws E} (ring : getchar_buffer) (w : World) :
  all_succeed -> config_ok ->
  use_hpet = false -> notify_list_fits -> irq_functions -> ring_wf ring -> line_level (w_log w) = 0 ->
  exists s, main_continued (mkX86 [] (machine_bss ring, w)) = Ok (tt, s) /\
    booted (x_log s) /\ minv (x_vmm s).
Proof.
  intros Hok Hc Hh Hml Hf Hr Hw. set (s0 := mkX86 _ _).
  enough (wp main_continued (fun _ s => booted (x_log s) /\ minv (x_vmm s)) s0) as H.
  { destruct (wp_ok _ _ _ H) as ([] & s & ? & ?). eauto. }
  unfold main_continued. eapply wp_logs; [by apply vm_setup_logs|]. intros [] s1 es1 Hv1 Hl1 <-.
  apply wp_bind. eapply wp_mono; [apply (start_devices_wp Hok _ minv); [done|apply Hc|rewrite Hv1; by apply vmm_start_wf]|].
  intros [] s2 (Hm & irqs & Hl2 & Hirqs).
  destruct Hc as [Hq Hd Hn Hg Hx Hfn Hs Hram].
  eapply wp_logs; [by apply guest_memory_logs|]. intros [] s3 es3 Hv3 Hl3 <-.
  eapply wp_logs; [apply (logs_must Hok); by intros ? ?|]. intros [] s4 es4 Hv4 Hl4 <-.
  eapply wp_logs; [by apply discover_devices_logs|]. intros b s5 es5 Hv5 Hl5 (-> & devices & -> & Hdevices).
  eapply wp_logs; [by apply add_ports_logs|]. intros [] s6 es6 Hv6 Hl6 <-.
  eapply wp_logs; [by apply load_guest_logs|]. intros [entry info] s7 load Hv7 Hl7 Hload.
  eapply wp_logs; [by apply cross_vm_logs|]. intros [] s8 cross Hv8 Hl8 Hcross.
  eapply wp_mono; [by apply (finish_logs Hok (entry, info))|]. intros [] s9 (Hv9 & es9 & Hl9 & <-).
  split; [|by rewrite Hv9, Hv8, Hv7, Hv6, Hv5, Hv4, Hv3].
  exists irqs, devices, load, cross, entry, info. split; [|done].
  rewrite Hl9, Hl8, Hl7, Hl6, Hl5, Hl4, Hl3, Hl2, Hl1. cbn [x_log s0]. by rewrite <-!app_assoc.
Qed.

(** C24 -- Nothing goes unnoticed on the way.  If [main_continued] comes to an end at
    all, every call whose result the code looks at had the result it looks
    for, every interrupt of the configuration is one of the 16 guest interrupts
    and there is no guest mapping (the check of [guest_mappings_get_guest_map]
    takes its success for an error).  Either a PCI device was missing, and the
    processor was not started; or all devices were found, with an interrupt of
    their name, and starting the processor is the last thing that happened
    before the VM ran. *)
Theorem x86_boot_checked (s s' : X86) :
  main_continued s = Ok (tt, s') ->
  exists es, x_log s' = x_log s ++ es /\ all_checked (x_log s) es /\ ending es.
Proof. apply main_checked. Qed.

Lemma existsb_pointwise {T} (f g : T -> bool) l : (forall x, f x = g x) -> existsb f l = existsb g l.
Proof. intros H. induction l; cbn; congruence. Qed.

Lemma merged_bit pending n : Forall (fun q => 0 <= q_dest q < 16) pending -> 0 <= n ->
  Z.testbit (merged pending) n = existsb (fun q => (n =? 27) || (n =? q_dest q + 1)) pending.
Proof.
  intros HF Hn. induction HF as [|q pending Hq _ IH]; cbn [existsb]; [apply Z.bits_0|].
  unfold merged, VM_PIC_BADGE_IRQ in *. cbn [map foldr]. by rewrite !Z.lor_spec, IH, !testbit_pow2 by lia.
Qed.

(** C25 -- Hardware interrupts reach the guest as configured.  [init_irqs] gives the
    notification of each interrupt the badge of its guest interrupt; and when
    any of them have been signalled, however many have been merged into one
    notification, [handle_async_event] injects exactly their guest interrupts,
    each once. *)
Theorem x86_irqs_delivered `{!UtilsLaws U} (fuel : nat) (completed : Z) (s : X86) (pending : list vm_irq)
    (m : Machine) (w : World) :
  all_succeed -> Forall (fun q => 0 <= q_dest q < 16) vm_irqs -> use_hpet = false -> minv (m, w) ->
  pending <> [] -> (forall q, In q pending -> In q vm_irqs) ->
  wp init_irqs (fun _ s' => exists irqs,
    x_log s' = x_log s ++ concat irqs /\ Forall2 routed vm_irqs irqs) s /\
  wp (handle_async_event fuel (merged pending) completed) (fun _ x => exists es, Forall dev_event es /\
    w_log (snd x) = w_log w ++ es ++
      map InjectIrq (List.filter (fun i => existsb (fun q => i =? q_dest q) pending) (zrange 16)) ++
      notified (merged pending) (device_notify_list m)) (m, w).
Proof.
  intros Hok Hq Hh Hm Hne Hin. split.
  - eapply wp_mono; [by apply init_irqs_logs|]. intros [] s' (_ & es & El & irqs & -> & H). eauto.
  - assert (Forall (fun q => 0 <= q_dest q < 16) pending) as Hp.
    { apply List.Forall_forall. intros q H. eapply List.Forall_forall in Hq; [exact Hq|auto]. }
    eapply wp_mono; [exact (wp_handle_async_event _ _ _ _ _ Hh Hm (badge_bit27 _))|]. cbv beta. intros r x (_ & _ & H).
    rewrite merged_bit in H by done. destruct pending as [|q pending]; [done|]. destruct H as [_ (es & Hes & El)].
    exists es. split; [done|]. rewrite El. unfold injected. do 4 f_equal.
    apply List.filter_ext_in. intros i Hi%in_zrange. rewrite merged_bit by (done || lia).
    apply existsb_pointwise. intros q'. destruct (Z.eqb_spec (i + 1) 27), (Z.eqb_spec (i + 1) (q_dest q' + 1)), (Z.eqb_spec i (q_dest q')); lia || done.
Qed.

(** A badge array that is indexed by the configured interrupt without a check. *)
Lemma init_irq_out_of_range q s : all_succeed -> 16 <= q_dest q -> init_irq q s = Fault OutOfBounds.
Proof.
  intros Hok Hq. unfold init_irq, must, call, output, mbind, M_bind.
  pose proof (Hok (x_log s) (CspaceAllocPath (ForIrq (q_cap q)))) as Hr. cbn in Hr. rewrite Hr. cbn.
  unfold idx. destruct (Z.ltb_spec (q_dest q) 0); [lia|]. rewrite lookup_ge_None_2; [done|]. cbn. lia.
Qed.

(** With a guest mapping configured, the VMM never gets to run its guest. *)
Lemma guest_mapping_fatal s s' : gmaps <> [] -> main_continued s <> Ok (tt, s').
Proof. intros Hg H. by destruct (main_checked s s' H) as (_ & _ & _ & _ & ? & _). Qed.

(** Guest RAM adds up to what is configured. *)
Lemma ram_chunks_total mb : 0 <= mb -> foldr Z.add 0 (ram_chunks mb) = mb /\ Forall (fun c => 0 < c <= 512) (ram_chunks mb).
Proof.
  intros Hm. unfold ram_chunks. pose proof (Z.div_mod mb 512 ltac:(lia)). pose proof (Z.mod_pos_bound mb 512 ltac:(lia)).
  assert (0 <= mb / 512) by (apply Z.div_pos; lia).
  assert (forall n l, foldr Z.add 0 (replicate n 512 ++ l) = 512 * Z.of_nat n + foldr Z.add 0 l) as Hs.
  { induction n as [|n IH]; intros l; cbn [replicate app foldr]; [lia|]. rewrite IH. lia. }
  rewrite Hs, Z2Nat.id by done. split.
  - destruct (Z.eqb_spec (mb mod 512) 0); cbn; lia.
  - apply Forall_app. split; [by apply Forall_replicate; lia|].
    destruct (Z.eqb_spec (mb mod 512) 0); repeat constructor; lia.
Qed.

(** The fixed regions of the guest's memory do not overlap, and end where the
    cross-VM connections begin. *)
Definition overlap (r r' : Z * Z) : bool := (fst r <? fst r' + snd r') && (fst r' <? fst r + snd r).
Lemma fixed_regions_disjoint :
  let l := guest_ram_regions ++ guest_fake_devices ++ free_anonymous_regions in
  forallb (fun i => forallb (fun j => (i =? j)%nat || negb (overlap (nth i l (0, 0)) (nth j l (0, 0)))) (seq 0 6)) (seq 0 6)
    = true /\ forallb (fun r => fst r + snd r <=? CROSS_VM_BASE_ADDRESS) l = true.
Proof. by vm_compute. Qed.

(** A capability found for a port access covers the ports. *)
Lemma ioport_wrapper_covers start end_ cap : simple_ioport_wrapper start end_ = Some cap ->
  exists p, In p (pci_ioports ++ nonpci_ioports) /\ p_cap p = cap /\ p_start p <= start /\ end_ <= p_end p.
Proof.
  unfold simple_ioport_wrapper, ioports_get_ioport.
  destruct (find _ _) as [p|] eqn:Ef; [|done]. apply find_some in Ef as [Hin Hp].
  destruct (p_cap p =? seL4_CapNull); [done|]. intros [= <-]. exists p. split; [done|]. split; [done|]. lia.
Qed.

(** [pre_init] gives the allocator the configured RAM as memory for devices, and
    the device untypeds as such; ordinary untypeds are added by the library. *)
Lemma pre_init_logs : all_succeed ->
  logs_eq pre_init ([BootstrapAllocman; AddSimpleUntypeds; BootstrapVspace; MspaceAlloc;
      ReservePool ALLOCMAN_VIRTUAL_SIZE; ConfigureVirtualPool ALLOCMAN_VIRTUAL_SIZE] ++
    map (fun ut => AddUts (snd ut) (snd (fst ut)) (fst (fst ut)) ALLOCMAN_UT_DEV_MEM) extra_ram ++
    map (fun ut => AddUts (su_cap ut) (su_size ut) (su_paddr ut) ALLOCMAN_UT_DEV) (List.filter su_device simple_untypeds) ++
    [ReserveBrk BRK_VIRTUAL_SIZE]).
Proof.
  intros Hok. unfold pre_init. cbn [app].
  do 4 (apply (logs_eq_bind _ _ [_]); [first [apply logs_must_ptr; by intros ? ? | apply logs_must; by intros ? ?]|intros _]).
  apply (logs_eq_bind _ _ [_]); [apply logs_must; by intros ? ?|intros _].
  apply (logs_eq_bind _ _ [_]); [by apply logs_do|intros _].
  apply logs_eq_bind.
  { rewrite <-concat_single. apply logs_each, Forall_true. intros [[paddr bits] cap]. apply logs_must; by intros ? ?. }
  intros _. apply logs_eq_bind; [|intros _; by apply logs_do].
  rewrite <-concat_filter. apply logs_each, Forall_true. intros ut.
  destruct (su_device ut); [apply logs_must; by intros ? ?|by apply logs_ret].
Qed.

End Theorems.

(** * Witnesses *)

(** A machine with a network card, a RAM disk, 1.2 GiB of RAM and a cross-VM
    connection. *)
Definition x86_result (l : list vm_call) : Z :=
  match rev l with
  | (BootstrapAllocman | MspaceAlloc | CreateVcpu | ReserveMemoryAt _ _ | ReserveHpet _ _ | RamRegister _ | MapBars _ _ _) :: _ => 1
  | _ => 0
  end.
Definition demo_irq : vm_irq := mkVmIrq "eth" 0 20 1 1 11 100.
Definition x86_demo : X86Env := {|
  vm_irqs := [mkVmIrq "timer" 0 2 0 0 0 101; demo_irq];
  pci_devices := [mkPciDevice "eth" 0 3 0 0 "eth"];
  device_mem := [(0xfe000000, 200)]; gmaps := []; extra_ram := [(0x80000000, 28, 300)];
  exclude_regions := [0xe0000000; 0x10000000];
  pci_ioports := [mkIoPort 400 0xc000 0xc01f "eth"]; nonpci_ioports := []; init_functions := [0x1000; 0x1001; 0x1002];
  kernel_image := "bzimage"; initrd_image := "rootfs"; kernel_relocs := EmptyString; kernel_cmdline := "debug"; guest_ram_mb := 1200;
  CONFIG_CAMKES_VM_GUEST_DMA_IOMMU := true; cross_vm_linked := true;
  simple_untypeds := [mkSimpleUt 500 24 0x1000000 false; mkSimpleUt 501 12 0xfe001000 true];
  libpci_find_device_bdf _ _ _ := true;
  MiB_TO_BYTES x := x * 2 ^ 20;
  X86_IO_SERIAL_1 := (0x3f8, 0x3ff); X86_IO_RTC := (0x70, 0x71); X86_IO_PIT := (0x40, 0x43);
  X86_IO_PCI_CONFIG := (0xcf8, 0xcff);
  result := x86_result; new_slot l := 1000 + Z.of_nat (List.length l);
  largest_region _ := 0x20000000; module_addr _ := 0x30000000; kernel_entry _ := 0x20100000; boot_info _ := 0x7000 |}.
#[local] Instance x86_demo_laws : X86Laws x86_demo.
Proof. by split. Qed.

Lemma x86_demo_succeeds : @all_succeed x86_demo.
Proof. intros l c. cbn. unfold x86_result. rewrite rev_unit. by destruct c. Qed.

Lemma x86_demo_config : @config_ok vmm_env_demo x86_demo.
Proof.
  split; try done.
  - repeat (apply List.Forall_cons; [done|]); apply List.Forall_nil.
  - repeat (apply List.Forall_cons; [done|]); apply List.Forall_nil.
  - apply List.Forall_cons; [cbn; tauto|]. apply List.Forall_nil.
  - intros l. cbn. unfold seL4_CapNull. lia.
Qed.

Lemma demo_functions : @irq_functions vmm_env_demo.
Proof. repeat (apply List.Forall_cons; [done|]); apply List.Forall_nil. Qed.

#[local] Existing Instances utils_ref rtc_time_date_ref vmm_env_demo x86_demo.

Lemma x86_boot_witness :
  exists s, main_continued (mkX86 [] (machine_bss ring_demo, world0)) = Ok (tt, s) /\ booted (x_log s) /\ minv (x_vmm s).
Proof.
  apply x86_boot; [apply x86_demo_succeeds|apply x86_demo_config|reflexivity|done|apply demo_functions|apply ring_demo_wf|reflexivity].
Defined.

Definition x86_demo_end : X86 := final main_continued (mkX86 [] (machine_bss ring_demo, world0)).

Lemma x86_boot_checked_witness :
  exists es, x_log x86_demo_end = [] ++ es /\ all_checked [] es /\ ending es.
Proof. apply (x86_boot_checked (mkX86 [] (machine_bss ring_demo, world0)) x86_demo_end). vm_compute. reflexivity. Defined.

Lemma x86_irqs_delivered_witness :
  wp init_irqs (fun _ s' => exists irqs, x_log s' = [] ++ concat irqs /\ Forall2 routed vm_irqs irqs)
    (mkX86 [] vmm_demo) /\
  wp (handle_async_event 4 (merged [demo_irq]) 0) (fun _ x => exists es, Forall dev_event es /\
    w_log (snd x) = w_log (snd vmm_demo) ++ es ++
      map InjectIrq (List.filter (fun i => existsb (fun q => i =? q_dest q) [demo_irq]) (zrange 16)) ++
      notified (merged [demo_irq]) (device_notify_list (fst vmm_demo))) (fst vmm_demo, snd vmm_demo).
Proof.
  apply (x86_irqs_delivered 4 0 (mkX86 [] vmm_demo) [demo_irq]);
    [apply x86_demo_succeeds|apply x86_demo_config|reflexivity| |done|].
  - rewrite <-surjective_pairing. exact vmm_demo_inv.
  - intros q [<-|[]]. cbn. tauto.
Defined.
