(* ===== verification/Templates.v ===== *)
(** The tables the CAmkES templates fill in from the configuration, and the
    functions they generate to look them up: of the x86 VMM (components/Init/templates:
    seL4VMPCIDevices, seL4VMIOPorts, seL4ExtraRAM, seL4GuestMaps) and of the ARM
    VMM (templates/seL4VMDTBPassthrough-to and seL4VMParameters).  X86Boot,
    ArmEvents, ArmMem and ArmBoot are about any tables; here are the tables that
    the templates make.

    A loop of a template is a function on lists; the [switch] it writes is a
    search by label, and labels that occur twice do not compile.  Allocating
    capabilities, and reading the device tree, is CAmkES: parameters. *)

From Stdlib Require Import String.
From stdpp Require Import strings.
From S2P Require Import Prelude ArmMem X86Boot.
From S2P Require Import ArmBoot.

Open Scope Z_scope.
Open Scope list_scope.

(** * Generated switches *)

(** [switch(x) { case l: return v; ... default: ... }] *)
Fixpoint switch {A} (cases : list (Z * A)) (x : Z) : option A :=
  match cases with
  | [] => None
  | (l, v) :: cases => if x =? l then Some v else switch cases x
  end.
(** Labels from 0 on ([loop.index0]). *)
Definition numbered {A} (l : list A) : list (Z * A) := combine (zrange (List.length l)) l.
(** It compiles: no label occurs twice. *)
Definition compiles {A} (cases : list (Z * A)) : Prop := NoDup (map fst cases).
(** [range(0, size, step)] of Python, for a positive step. *)
Definition range_by (size step : Z) : list Z := map (fun i => i * step) (zrange (Z.to_nat ((size + step - 1) / step))).

Lemma switch_In {A} (cases : list (Z * A)) x v : switch cases x = Some v -> In (x, v) cases.
Proof.
  induction cases as [|[l w] cases IH]; cbn; [done|]. destruct (Z.eqb_spec x l) as [->|_]; [|by right; apply IH].
  intros [= ->]. by left.
Qed.
Lemma switch_None {A} (cases : list (Z * A)) x : switch cases x = None <-> ~ In x (map fst cases).
Proof.
  induction cases as [|[l w] cases IH]; cbn; [split; [intros _ []|done]|]. destruct (Z.eqb_spec x l) as [->|Hne].
  - split; [done|]. intros []. by left.
  - rewrite IH. split; [intros H [?|?]; [by subst|by apply H]|intros H Hin; apply H; by right].
Qed.
Lemma switch_found {A} (cases : list (Z * A)) x v : compiles cases -> In (x, v) cases -> switch cases x = Some v.
Proof.
  unfold compiles. induction cases as [|[l w] cases IH]; cbn; [done|]. intros [Hl Hc]%list.NoDup_cons [[= -> ->]|Hin].
  - by rewrite Z.eqb_refl.
  - destruct (Z.eqb_spec x l) as [->|_]; [|by apply IH]. destruct Hl. apply list_elem_of_In, in_map_iff. by exists (l, v).
Qed.

Lemma switch_from {A} (l : list A) k i :
  switch (combine (map Z.of_nat (seq k (List.length l))) l) i = (if i <? Z.of_nat k then None else l !! (Z.to_nat i - k)%nat).
Proof.
  revert k. induction l as [|a l IH]; intros k; cbn; [by destruct (i <? Z.of_nat k)|].
  rewrite IH, Nat2Z.inj_succ. destruct (Z.eqb_spec i (Z.of_nat k)) as [->|Hne].
  - rewrite Z.ltb_irrefl, Nat2Z.id, Nat.sub_diag. done.
  - destruct (Z.ltb_spec i (Z.of_nat k)), (Z.ltb_spec i (Z.succ (Z.of_nat k))); try lia; [done|].
    replace (Z.to_nat i - k)%nat with (S (Z.to_nat i - S k)) by lia. done.
Qed.
(** The n-th entry of a table. *)
Lemma switch_numbered {A} (l : list A) i : switch (numbered l) i = (if i <? 0 then None else l !! Z.to_nat i).
Proof. unfold numbered, zrange. rewrite (switch_from l 0 i), Nat.sub_0_r. done. Qed.

Lemma range_by_In size step off : 0 < step -> In off (range_by size step) <-> 0 <= off < size /\ off mod step = 0.
Proof.
  intros Hs. unfold range_by. rewrite in_map_iff. split.
  - intros (i & <- & Hi%in_zrange). rewrite Z.mod_mul by lia. split; [|done].
    assert (0 <= i < (size + step - 1) / step) by lia.
    assert (step * ((size + step - 1) / step) <= size + step - 1) by (apply Z.mul_div_le; lia). nia.
  - intros [Hr Hm]. exists (off / step). pose proof (Z.div_mod off step ltac:(lia)) as Hd. split; [lia|].
    assert (0 <= off / step) by (apply Z.div_pos; lia).
    assert (off / step < (size + step - 1) / step).
    { apply Z.lt_le_trans with ((off + step) / step).
      - rewrite <-(Z.mul_1_l step) at 2. rewrite Z.div_add by lia. lia.
      - apply Z.div_le_mono; [lia|]. enough (off + step <= size + step - 1) by lia. lia. }
    apply in_map_iff. exists (Z.to_nat (off / step)). split; [lia|]. apply in_seq. lia.
Qed.

(** * PCI devices and their memory (x86) *)

Module Pci.

Record mem_config := mkMem { m_paddr : Z; m_size : Z; m_page_bits : Z }.
Record device_config := mkDevice {
  c_name : string; c_bus : Z; c_dev : Z; c_fun : Z; c_irq : string; c_memory : list mem_config }.

Section Pci.
(** The configuration; a null [config_pci] is the empty list.  Capabilities: an
    I/O space by its name, a frame by its address and size. *)
Variable config_pci : list device_config.
Variable iospace_domain : Z.
Variable has_iospace : bool.
Variable alloc_iospace : Z -> Z.
Variable alloc_frame : Z -> Z -> Z.

Definition pciid (d : device_config) : Z := c_bus d * 256 + c_dev d * 8 + c_fun d.
Definition devid (d : device_config) : Z := iospace_domain * 65536 + pciid d.
Definition iospace_cap (d : device_config) : Z := if has_iospace then alloc_iospace (devid d) else 0.

Definition frames (m : mem_config) : list (Z * Z) :=
  map (fun frame_offset => let frame := m_paddr m + frame_offset in (frame, alloc_frame frame (m_page_bits m)))
      (range_by (m_size m) (2 ^ m_page_bits m)).
Definition device_mem : list (Z * Z) := concat (map (fun d => concat (map frames (c_memory d))) config_pci).
Definition devices : list pci_device :=
  map (fun d => mkPciDevice (c_name d) (c_bus d) (c_dev d) (c_fun d) (iospace_cap d) (c_irq d)) config_pci.

Definition pci_devices_num_devices : Z := Z.of_nat (List.length devices).
Definition pci_devices_get_device (pci_dev : Z) : option pci_device := switch (numbered devices) pci_dev.
Definition pci_devices_num_device_mem (pci_dev : Z) : Z :=
  match switch (numbered config_pci) pci_dev with Some d => Z.of_nat (List.length (c_memory d)) | None => -1 end.
Definition pci_devices_get_device_irq (pci_dev : Z) : option string :=
  option_map pd_irq (switch (numbered devices) pci_dev).
(** The result, and what is written to the three pointers. *)
Definition pci_devices_get_device_mem (pci_dev mem : Z) : Z * option mem_config :=
  match switch (numbered config_pci) pci_dev with
  | Some d => match switch (numbered (c_memory d)) mem with Some m => (0, Some m) | None => (-1, None) end
  | None => (-1, None)
  end.
Definition pci_devices_get_device_mem_frame (paddr : Z) : Z :=
  match switch device_mem paddr with Some cap => cap | None => 0 end.

(** The loop over the devices, by number, sees each of them once and in order. *)
Lemma devices_enumerated :
  map pci_devices_get_device (zrange (Z.to_nat pci_devices_num_devices)) = map Some devices.
Proof using Type.
  unfold pci_devices_num_devices. rewrite Nat2Z.id. apply list_eq. intros i. rewrite !list_lookup_fmap.
  unfold zrange. rewrite list_lookup_fmap. destruct (decide (i < List.length devices)%nat) as [Hi|Hi].
  - rewrite lookup_seq_lt by done. cbn. unfold pci_devices_get_device. rewrite switch_numbered.
    rewrite (proj2 (Z.ltb_ge _ _)), Nat2Z.id by lia. apply lookup_lt_is_Some_2 in Hi as [d ->]. done.
  - rewrite lookup_seq_ge, lookup_ge_None_2 by lia. done.
Qed.

(** In the model of the start-up. *)
Lemma frame_lookup paddr : pci_devices_get_device_mem_frame paddr = cap_at device_mem paddr.
Proof using Type.
  unfold pci_devices_get_device_mem_frame, cap_at. induction device_mem as [|[l cap] t IH]; cbn; [done|].
  rewrite Z.eqb_sym. by destruct (l =? paddr).
Qed.

(** Different devices have different I/O spaces. *)
Lemma devid_inj d d' : 0 <= c_dev d < 32 -> 0 <= c_fun d < 8 -> 0 <= c_dev d' < 32 -> 0 <= c_fun d' < 8 ->
  devid d = devid d' -> c_bus d = c_bus d' /\ c_dev d = c_dev d' /\ c_fun d = c_fun d'.
Proof using Type. unfold devid, pciid. lia. Qed.

(** Every page of the memory of a configured device has its own capability, and
    nothing else has one. *)
Lemma pages_have_frames d m off :
  compiles device_mem -> In d config_pci -> In m (c_memory d) -> 0 <= m_page_bits m ->
  0 <= off < m_size m -> off mod 2 ^ m_page_bits m = 0 ->
  pci_devices_get_device_mem_frame (m_paddr m + off) = alloc_frame (m_paddr m + off) (m_page_bits m).
Proof using Type.
  intros Hc Hd Hm Hb Ho Hal. unfold pci_devices_get_device_mem_frame.
  rewrite (switch_found _ _ (alloc_frame (m_paddr m + off) (m_page_bits m))); [done..|].
  apply in_concat. exists (concat (map frames (c_memory d))). split; [apply in_map_iff; by exists d|].
  apply in_concat. exists (frames m). split; [by apply in_map|]. apply in_map_iff. exists off. split; [done|].
  apply range_by_In; [|done]. by apply pow2_pos.
Qed.
Lemma frames_are_pages paddr : (forall f b, alloc_frame f b <> 0) -> pci_devices_get_device_mem_frame paddr <> 0 ->
  exists d m off, In d config_pci /\ In m (c_memory d) /\ paddr = m_paddr m + off /\
    pci_devices_get_device_mem_frame paddr = alloc_frame paddr (m_page_bits m) /\
    (0 <= m_page_bits m -> 0 <= off < m_size m /\ off mod 2 ^ m_page_bits m = 0).
Proof using Type.
  intros Ha. unfold pci_devices_get_device_mem_frame. destruct (switch device_mem paddr) as [cap|] eqn:E1; [|done].
  intros _. apply switch_In, in_concat in E1 as (l & (d & <- & Hd)%in_map_iff & Hin).
  apply in_concat in Hin as (l & (m & <- & Hm)%in_map_iff & (off & [= <- <-] & Hoff)%in_map_iff).
  exists d, m, off. split_and!; try done. intros Hb. apply range_by_In; [by apply pow2_pos|done].
Qed.

End Pci.
End Pci.

(** * Ports (x86) *)

Module Ports.

(** [pci_device] is not null when the port belongs to one. *)
Record port_config := mkPort { o_start : Z; o_end : Z; o_name : string; o_pci_device : option Z }.

Section Ports.
Variable config_ioports : list port_config.
Variable alloc_port : Z -> Z -> Z.

Definition entry (p : port_config) : io_port := mkIoPort (alloc_port (o_start p) (o_end p)) (o_start p) (o_end p) (o_name p).
Definition is_pci (p : port_config) : bool := match o_pci_device p with Some _ => true | None => false end.
Definition pci_ioports : list io_port := map entry (List.filter is_pci config_ioports).
Definition nonpci_ioports : list io_port := map entry (List.filter (fun p => negb (is_pci p)) config_ioports).

Definition ioports_num_pci_ioports : Z := Z.of_nat (List.length pci_ioports).
Definition ioports_num_nonpci_ioports : Z := Z.of_nat (List.length nonpci_ioports).
Definition ioports_get_pci_ioport (num : Z) : option io_port := switch (numbered pci_ioports) num.
Definition ioports_get_nonpci_ioport (num : Z) : option io_port := switch (numbered nonpci_ioports) num.
(** The chain of conditions. *)
Fixpoint first_port (ports : list io_port) (start end_ : Z) : Z :=
  match ports with
  | [] => 0
  | p :: ports => if (p_start p <=? start) && (end_ <=? p_end p) then p_cap p else first_port ports start end_
  end.
Definition ioports_get_ioport (start end_ : Z) : Z := first_port (pci_ioports ++ nonpci_ioports) start end_.

Lemma ports_complete p : In p config_ioports <-> In p (List.filter is_pci config_ioports ++ List.filter (fun p => negb (is_pci p)) config_ioports).
Proof using Type. rewrite in_app_iff, !filter_In. destruct (is_pci p); naive_solver. Qed.

(** The capability found covers the ports asked for; and ports inside a
    configured range have one. *)
Lemma ports_covered start end_ : (forall a b, alloc_port a b <> 0) ->
  (ioports_get_ioport start end_ <> 0 <-> exists p, In p config_ioports /\ o_start p <= start /\ end_ <= o_end p) /\
  (ioports_get_ioport start end_ <> 0 -> exists p, In p config_ioports /\ o_start p <= start /\ end_ <= o_end p /\
     ioports_get_ioport start end_ = alloc_port (o_start p) (o_end p)).
Proof using Type.
  intros Ha. unfold ioports_get_ioport, pci_ioports, nonpci_ioports. rewrite <-map_app.
  assert (forall l, first_port (map entry l) start end_ <> 0 -> exists p, In p l /\ o_start p <= start /\ end_ <= o_end p /\
    first_port (map entry l) start end_ = alloc_port (o_start p) (o_end p)) as Hs.
  { induction l as [|p l IH]; cbn; [done|]. destruct (_ && _) eqn:Eb.
    - apply andb_prop in Eb as [?%Z.leb_le ?%Z.leb_le]. intros _. exists p. split_and!; [by left|done..].
    - intros (q & Hq & Hr)%IH. exists q. split; [by right|done]. }
  assert (forall l p, In p l -> o_start p <= start -> end_ <= o_end p -> first_port (map entry l) start end_ <> 0) as Hc.
  { induction l as [|q l IH]; intros p Hp H1 H2; cbn in *; [done|].
    destruct (_ && _) eqn:Eb; [apply Ha|]. destruct Hp as [->|Hp]; [|by apply (IH p)].
    apply andb_false_iff in Eb as [?%Z.leb_gt|?%Z.leb_gt]; lia. }
  set (all := _ ++ _). split; [split|].
  - intros (p & Hp & ? & ? & _)%Hs. exists p. split; [by apply ports_complete|done].
  - intros (p & Hp & ? & ?). apply (Hc all p); [by apply ports_complete|done..].
  - intros (p & Hp & ? & ? & ?)%Hs. exists p. split; [by apply ports_complete|done].
Qed.

End Ports.
End Ports.

(** * Extra memory and guest mappings (x86) *)

Module Memory.

Record map_config := mkMap { g_paddr : Z; g_size : Z; g_page_bits : Z }.

Section Memory.
(** Pairs of address and size in bits. *)
Variable config_uts : list (Z * Z).
Variable alloc_untyped : Z -> Z -> Z.
Variable config_guestmaps : list map_config.
Variable alloc_frame : Z -> Z -> Z.

Definition uts : list (Z * Z * Z) := map (fun '(paddr, size_bits) => (paddr, size_bits, alloc_untyped paddr size_bits)) config_uts.
Definition ram_num_untypeds : Z := Z.of_nat (List.length uts).
(** The result, and what is written to the pointers. *)
Definition ram_get_untyped (ut : Z) : Z * option (Z * Z * Z) :=
  match switch (numbered uts) ut with Some u => (0, Some u) | None => (-1, None) end.

(** Frame, size and capability. *)
Definition gmaps : list (Z * Z * Z) :=
  concat (map (fun g => map (fun frame_offset =>
    let frame := g_paddr g + frame_offset in (frame, 2 ^ g_page_bits g, alloc_frame frame (g_page_bits g)))
    (range_by (g_size g) (2 ^ g_page_bits g))) config_guestmaps).
Definition guest_mappings_num_guestmaps : Z := Z.of_nat (List.length gmaps).
Definition guest_mappings_get_guest_map (num : Z) : Z * option (Z * Z) :=
  match switch (numbered gmaps) num with Some (frame, size, _) => (1, Some (frame, size)) | None => (0, None) end.
Definition guest_mappings_get_mapping_mem_frame (paddr : Z) : Z :=
  match switch (map (fun g => (fst (fst g), snd g)) gmaps) paddr with Some cap => cap | None => 0 end.

Lemma untypeds_enumerated :
  map ram_get_untyped (zrange (Z.to_nat ram_num_untypeds)) = map (fun u => (0, Some u)) uts.
Proof using Type.
  unfold ram_num_untypeds. rewrite Nat2Z.id. apply list_eq. intros i. rewrite !list_lookup_fmap.
  unfold zrange. rewrite list_lookup_fmap. destruct (decide (i < List.length uts)%nat) as [Hi|Hi].
  - rewrite lookup_seq_lt by done. cbn. unfold ram_get_untyped. rewrite switch_numbered.
    rewrite (proj2 (Z.ltb_ge _ _)), Nat2Z.id by lia. apply lookup_lt_is_Some_2 in Hi as [u ->]. done.
  - rewrite lookup_seq_ge, lookup_ge_None_2 by lia. done.
Qed.

(** The frames of a mapping are the pages of its range. *)
Lemma mapping_frames frame : In frame (map (fun g => fst (fst g)) gmaps) <->
  exists g off, In g config_guestmaps /\ frame = g_paddr g + off /\ In off (range_by (g_size g) (2 ^ g_page_bits g)).
Proof using Type.
  unfold gmaps. rewrite in_map_iff. split.
  - intros (x & <- & Hx). apply in_concat in Hx as (l & (g & <- & Hg)%in_map_iff & (off & <- & Ho)%in_map_iff).
    by exists g, off.
  - intros (g & off & Hg & -> & Ho). eexists (_, _, _). split; [reflexivity|]. apply in_concat.
    eexists. split; [apply in_map_iff; by exists g|]. apply in_map_iff. by exists off.
Qed.

End Memory.
End Memory.

(** * Device tree pass-through (ARM) *)

Module Dtb.

(** What the template's macros read from a node: ranges of registers,
    interrupts with their trigger, and its path. *)
Record dtb_node := mkNode {
  reg_set : list (Z * Z);
  irq_set : list (Z * option Z);
  this_node_path : option string }.

Section Dtb.
Variable dtb : list dtb_node.
(** [dtb_irqs] of the configuration *)
Variable config_irqs : list Z.
Variable plat_keep_devices : option (list string).
Variable plat_keep_devices_and_subtree : option (list string).
(** The macros of CAmkES. *)
Variable get_untypeds_from_range : Z -> Z -> list (Z * Z).
Variable alloc_untyped : Z -> Z -> Z.
Variable alloc_irq : Z -> option Z -> Z.
Variable seL4_CNode_Copy : Z -> Z.

Definition ROUND_DOWN (x n : Z) : Z := x - x mod n.
Definition ROUND_UP (x n : Z) : Z := (x + n - 1) / n * n.

Definition untyped_dtb_mmio : list (Z * Z * Z) :=
  concat (map (fun node => concat (map (fun '(paddr, size) =>
    map (fun '(paddr_alloc, size_bits) => (paddr_alloc, size_bits, alloc_untyped paddr_alloc size_bits))
        (get_untypeds_from_range (ROUND_DOWN paddr 4096) (ROUND_UP size 4096))) (reg_set node))) dtb).

(** [if irq not in dtb_irqs_map]; the map has the interrupts of the list. *)
Definition add_irq (dtb_irqs : list (Z * Z)) (irq : Z * option Z) : list (Z * Z) :=
  if bool_decide (fst irq ∈ map fst dtb_irqs) then dtb_irqs else dtb_irqs ++ [(fst irq, alloc_irq (fst irq) (snd irq))].
Definition dtb_irqs : list (Z * Z) :=
  fold_left add_irq (concat (map irq_set dtb) ++ map (fun irq => (irq, None)) config_irqs) [].

Definition camkes_dtb_irqs : list Z := map fst dtb_irqs.
Definition camkes_dtb_node_paths : list string :=
  omap (fun node => match this_node_path node with
                    | Some path => if String.eqb path EmptyString then None else Some path
                    | None => None end) dtb.
Definition camkes_dtb_keep_devices : list string := default [] plat_keep_devices.
Definition camkes_dtb_keep_devices_and_subtree : list string := default [] plat_keep_devices_and_subtree.

Definition camkes_dtb_get_node_paths : list string * Z := (camkes_dtb_node_paths, Z.of_nat (List.length camkes_dtb_node_paths)).
Definition camkes_dtb_get_plat_keep_devices : list string * Z :=
  (camkes_dtb_keep_devices, Z.of_nat (List.length camkes_dtb_keep_devices)).
Definition camkes_dtb_get_plat_keep_devices_and_subtree : list string * Z :=
  (camkes_dtb_keep_devices_and_subtree, Z.of_nat (List.length camkes_dtb_keep_devices_and_subtree)).
Definition camkes_dtb_get_irqs : list Z * Z := (camkes_dtb_irqs, Z.of_nat (List.length camkes_dtb_irqs)).

Definition camkes_dtb_get_irq_cap (irq : Z) : Z :=
  match switch dtb_irqs irq with Some cap => seL4_CNode_Copy cap | None => seL4_FailedLookup end.
Definition camkes_dtb_untyped_count : Z := Z.of_nat (List.length untyped_dtb_mmio).
Definition camkes_dtb_get_nth_untyped (n : Z) : outcome (Z * Z * Z) :=
  match switch (numbered untyped_dtb_mmio) n with Some u => Ok u | None => Fault AssertFailed end.

Lemma add_irq_invariant l irqs :
  compiles l -> compiles (fold_left add_irq irqs l) /\
  forall irq, In irq (map fst (fold_left add_irq irqs l)) <-> In irq (map fst l) \/ In irq (map fst irqs).
Proof using Type.
  revert l. induction irqs as [|[i t] irqs IH]; intros l Hl; cbn [fold_left map In fst]; [split; [done|clear; intros irq; tauto]|].
  assert (compiles (add_irq l (i, t)) /\ forall irq, In irq (map fst (add_irq l (i, t))) <-> In irq (map fst l) \/ i = irq) as [H1 H2].
  { unfold add_irq, compiles. cbn [fst snd]. case_bool_decide as Hin.
    - split; [done|]. intros irq. split; [by left|]. intros [?| <-]; [done|by apply list_elem_of_In].
    - rewrite map_app. cbn [map fst]. split; [|intros irq; rewrite in_app_iff; cbn; clear; tauto].
      apply list.NoDup_app. split; [done|]. split; [|apply list.NoDup_singleton].
      intros x Hx ->%list_elem_of_singleton. done. }
  destruct (IH _ H1) as [H3 H4]. split; [done|]. intros irq. rewrite H4, H2. clear. tauto.
Qed.

(** The interrupts, those of the device tree and of the configuration, each
    once. *)
Lemma irqs_listed : NoDup camkes_dtb_irqs /\
  forall irq, In irq camkes_dtb_irqs <-> (exists node trigger, In node dtb /\ In (irq, trigger) (irq_set node)) \/ In irq config_irqs.
Proof using Type.
  unfold camkes_dtb_irqs, dtb_irqs. destruct (add_irq_invariant [] (concat (map irq_set dtb) ++ map (fun irq => (irq, None)) config_irqs))
    as [H1 H2]; [constructor|]. split; [exact H1|]. intros irq. rewrite H2, map_app, in_app_iff, map_map, map_id. cbn [map In].
  assert (In irq (map fst (concat (map irq_set dtb))) <-> exists node trigger, In node dtb /\ In (irq, trigger) (irq_set node)) as ->.
  { rewrite in_map_iff. split.
    - intros ([i t] & <- & (l & (node & <- & Hn)%in_map_iff & Hi)%in_concat). by exists node, t.
    - intros (node & t & Hn & Hi). exists (irq, t). split; [done|]. apply in_concat. exists (irq_set node).
      split; [by apply in_map|done]. }
  clear. tauto.
Qed.

(** Each of them has a capability for the VMM, and no other interrupt has. *)
Lemma irqs_have_caps irq : (forall cap, seL4_CNode_Copy cap = 0) ->
  (In irq camkes_dtb_irqs <-> camkes_dtb_get_irq_cap irq = 0) /\
  forall original, In irq camkes_dtb_irqs -> vm_simple_get_irq original (Some camkes_dtb_get_irq_cap) irq = 0.
Proof using Type.
  intros Hcopy. assert (In irq camkes_dtb_irqs <-> camkes_dtb_get_irq_cap irq = 0) as H1.
  { unfold camkes_dtb_get_irq_cap. destruct (switch dtb_irqs irq) as [cap|] eqn:E1.
    - rewrite Hcopy. split; [done|]. intros _. apply switch_In in E1. apply in_map_iff. by exists (irq, cap).
    - apply switch_None in E1. split; [|discriminate]. intros H. by destruct E1. }
  split; [exact H1|]. intros original Hin. unfold vm_simple_get_irq.
  destruct (original irq =? 0) eqn:E1; [by apply Z.eqb_eq|]. by apply H1.
Qed.

(** The pages allocated for a range of registers cover it when it starts on a page
    or does not reach beyond its last one: address and size are rounded apart. *)
Lemma pages_cover paddr size : 0 <= paddr -> 0 < size ->
  (paddr + size <= ROUND_DOWN paddr 4096 + ROUND_UP size 4096 <-> paddr mod 4096 + size <= ROUND_UP size 4096) /\
  (paddr mod 4096 = 0 -> paddr + size <= ROUND_DOWN paddr 4096 + ROUND_UP size 4096).
Proof using Type.
  intros Hp Hs. unfold ROUND_DOWN, ROUND_UP. split; [lia|]. intros ->.
  pose proof (Z.div_mod (size + 4096 - 1) 4096 ltac:(lia)). pose proof (Z.mod_pos_bound (size + 4096 - 1) 4096 ltac:(lia)). lia.
Qed.
Lemma pages_cut : ROUND_DOWN 0x1800 4096 + ROUND_UP 0x1000 4096 = 0x2000 /\ 0x2000 < 0x1800 + 0x1000.
Proof using Type. split; vm_compute; reflexivity. Qed.

(** The untypeds are enumerated without reaching the assertion. *)
Lemma untypeds_in_range n : (exists u, camkes_dtb_get_nth_untyped n = Ok u) <-> 0 <= n < camkes_dtb_untyped_count.
Proof using Type.
  unfold camkes_dtb_get_nth_untyped, camkes_dtb_untyped_count. rewrite switch_numbered.
  destruct (Z.ltb_spec n 0); [split; [intros [u Hu]; discriminate Hu|lia]|].
  destruct (untyped_dtb_mmio !! Z.to_nat n) as [u|] eqn:E1.
  - apply lookup_lt_Some in E1. split; [lia|]. intros _. by exists u.
  - apply lookup_ge_None_1 in E1. split; [intros [u Hu]; discriminate Hu|lia].
Qed.

End Dtb.
End Dtb.

(** * The VM's parameters (ARM) *)

Module Params.

Record address_config := mkAddress {
  ram_paddr_base : Z; ram_base : Z; ram_size : Z; dtb_addr : Z; initrd_addr : Z }.
(** [None] is the entry point '-1'. *)
Inductive addresses :=
| VmAddress (a : address_config) (kernel_entry_addr : option Z)
| LinuxAddress (a : address_config).
Record image_names := mkNames {
  kernel_name : string; initrd_name : string; dtb_name : string; dtb_base_name : string;
  bootcmdline : string; stdout : string }.
Record image_flags := mkFlags {
  provide_initrd : bool; generate_dtb : bool; provide_dtb : bool; map_one_to_one : bool; clean_cache : bool }.
Inductive images :=
| VmImage (n : image_names) (f : image_flags)
| LinuxImage (n : image_names).

(** [vm_config_t] *)
Record vm_config := mkConfig {
  ram : address_config; entry_addr : Z; flags : image_flags; files : image_names }.

Section Params.
Variable is_64_bit : bool.
(** The build's options. *)
Variables CONFIG_VM_INITRD_FILE CONFIG_VM_DTB_FILE : bool.
Variables CONFIG_PLAT_EXYNOS5 CONFIG_PLAT_QEMU_ARM_VIRT CONFIG_PLAT_TX1 CONFIG_PLAT_TX2 : bool.

Definition entry_offset : Z := if is_64_bit then 0x80000 else 0x8000.
Definition standard_entry (a : address_config) : Z := ram_base a + entry_offset.
Definition config_addresses (c : addresses) : address_config * Z :=
  match c with
  | VmAddress a (Some entry) => (a, entry)
  | VmAddress a None => (a, standard_entry a)
  | LinuxAddress a => (a, standard_entry a)
  end.
Definition legacy_flags : image_flags :=
  mkFlags CONFIG_VM_INITRD_FILE (negb CONFIG_VM_DTB_FILE) CONFIG_VM_DTB_FILE
    (CONFIG_PLAT_EXYNOS5 || CONFIG_PLAT_QEMU_ARM_VIRT || CONFIG_PLAT_TX2) (CONFIG_PLAT_TX1 || CONFIG_PLAT_TX2).
Definition config_images (c : images) : image_flags * image_names :=
  match c with VmImage n f => (f, n) | LinuxImage n => (legacy_flags, n) end.
Definition vm_config_of (a : addresses) (i : images) : vm_config :=
  mkConfig (fst (config_addresses a)) (snd (config_addresses a)) (fst (config_images i)) (snd (config_images i)).

(** A deprecated configuration is one of the others; it gives the guest one
    device tree, provided or generated. *)
Lemma legacy_config a i : exists entry f,
  vm_config_of (LinuxAddress a) (LinuxImage i) = vm_config_of (VmAddress a entry) (VmImage i f) /\
  xorb (provide_dtb f) (generate_dtb f) = true /\ ram_base a < entry_addr (vm_config_of (LinuxAddress a) (LinuxImage i)).
Proof using Type.
  exists None, legacy_flags. split; [done|]. cbn. split; [by destruct CONFIG_VM_DTB_FILE|].
  unfold standard_entry, entry_offset. destruct is_64_bit; lia.
Qed.

End Params.
End Params.

(** * In the VMMs' start-up *)

(** The x86 VMM maps a configured page of device memory through its capability,
    once the templates' tables are those of the configuration. *)
Lemma x86_frames_from_config {X : X86Env} cfg alloc d m off :
  X86Boot.device_mem = Pci.device_mem cfg alloc -> compiles (Pci.device_mem cfg alloc) -> (forall f b, alloc f b <> 0) ->
  In d cfg -> In m (Pci.c_memory d) -> 0 <= Pci.m_page_bits m -> 0 <= off < Pci.m_size m -> off mod 2 ^ Pci.m_page_bits m = 0 ->
  simple_frame_cap_wrapper (Pci.m_paddr m + off) = Some (alloc (Pci.m_paddr m + off) (Pci.m_page_bits m)).
Proof.
  intros Ht Hc Ha Hd Hm Hb Ho Hal. unfold simple_frame_cap_wrapper, X86Boot.pci_devices_get_device_mem_frame.
  rewrite Ht, <-Pci.frame_lookup, (Pci.pages_have_frames cfg alloc d m off) by done.
  by rewrite (proj2 (Z.eqb_neq _ _) (Ha _ _)).
Qed.

(** Its port wrapper finds a capability exactly for the ports inside a configured
    range. *)
Lemma x86_ports_from_config {X : X86Env} cfg alloc start end_ :
  X86Boot.pci_ioports = Ports.pci_ioports cfg alloc -> X86Boot.nonpci_ioports = Ports.nonpci_ioports cfg alloc ->
  (forall a b, alloc a b <> 0) ->
  is_Some (simple_ioport_wrapper start end_) <-> exists p, In p cfg /\ Ports.o_start p <= start /\ end_ <= Ports.o_end p.
Proof.
  intros H1 H2 Ha. destruct (Ports.ports_covered cfg alloc start end_ Ha) as [Hc _]. rewrite <-Hc.
  assert (X86Boot.ioports_get_ioport start end_ = Ports.ioports_get_ioport cfg alloc start end_) as E1.
  { unfold X86Boot.ioports_get_ioport, Ports.ioports_get_ioport. rewrite H1, H2. induction (_ ++ _) as [|p l IH]; cbn; [done|].
    by destruct (_ && _). }
  unfold simple_ioport_wrapper. rewrite E1. unfold seL4_CapNull.
  destruct (Z.eqb_spec (Ports.ioports_get_ioport cfg alloc start end_) 0) as [E0|Hne].
  - split; [by intros [? ?]|by intros []].
  - split; [done|]. intros _. by eexists.
Qed.
