(* ===== verification/StringReverse.v ===== *)
(** The string server of the cross-VM example
    (components/StringReverse/src/string_reverse.c), which reverses the string in
    one dataport into another.  The other side may write to the source while it
    is read: every access sees contents of its own. *)

From S2P Require Import Prelude.

(** [strnlen], and the destination. *)
Fixpoint strnlen (s : list Z) (n : nat) : Z :=
  match s, n with
  | c :: s, S n => if c =? 0 then 0 else 1 + strnlen s n
  | _, _ => 0
  end.

Section Reverse.
(** STRING_REVERSE_BUFSIZE, and the source: at [strnlen], and at each access of
    the loop. *)
Variable n : Z.
Variable src_at_start : list Z.
Variable src_at : Z -> list Z.

Definition store (i c : Z) : M (list Z) unit :=
  dest ← get; dest ← lift (idx_set dest i c); put dest.

Definition reverse_dataport_string : M (list Z) unit :=
  let len := strnlen src_at_start (Z.to_nat (n - 1)) in
  for_each (zrange (Z.to_nat len)) (fun i =>
    c ← lift (idx (src_at i) (len - i - 1));
    store i c);;
  store len 0.

Lemma strnlen_range s k : 0 <= strnlen s k <= Z.of_nat k /\ strnlen s k <= Z.of_nat (length s).
Proof using Type.
  revert k. induction s as [|c s IH]; intros [|k]; cbn [strnlen length]; try lia.
  destruct (c =? 0); [lia|]. specialize (IH k). lia.
Qed.
Lemma strnlen_nonzero s k : Forall (fun c => c <> 0) (take (Z.to_nat (strnlen s k)) s).
Proof using Type.
  revert k. induction s as [|c s IH]; intros [|k]; cbn [strnlen take]; try constructor.
  destruct (Z.eqb_spec c 0); [constructor|]. pose proof (strnlen_range s k) as [? _].
  replace (Z.to_nat (1 + strnlen s k)) with (S (Z.to_nat (strnlen s k))) by lia. cbn. constructor; [done|apply IH].
Qed.

Lemma store_run (l1 l2 : list Z) a c : store (Z.of_nat (length l1)) c (l1 ++ a :: l2) = Ok (tt, l1 ++ c :: l2).
Proof using Type.
  unfold store. rewrite (bind_ok get _ _ _ _ eq_refl).
  by rewrite (bind_ok _ _ _ _ _ (lift_ok _ _ _ (idx_set_mid l1 l2 a c))).
Qed.

Context (Hn : 1 <= n) (Hsrc : forall i, length (src_at i) = Z.to_nat n).

(** The characters the loop reads. *)
Definition read_from (len i : Z) : Z := arr (src_at i) (len - i - 1).

Lemma copy_run len k (l1 l2 : list Z) : len <= n - 1 -> (k + length l1 = Z.to_nat len)%nat -> (k <= length l2)%nat ->
  for_each (map Z.of_nat (seq (length l1) k)) (fun i => c ← lift (idx (src_at i) (len - i - 1)); store i c) (l1 ++ l2)
  = Ok (tt, l1 ++ map (fun i => read_from len (Z.of_nat i)) (seq (length l1) k) ++ drop k l2).
Proof using Hn Hsrc.
  intros Hlen. revert l1 l2. induction k as [|k IH]; intros l1 l2 Hk Hl; [done|].
  destruct l2 as [|a l2]; cbn [length] in Hl; [lia|]. cbn [seq map for_each].
  set (c := read_from len (Z.of_nat (length l1))).
  assert (idx (src_at (Z.of_nat (length l1))) (len - Z.of_nat (length l1) - 1) = Ok c) as Ei
    by (apply idx_ok; rewrite Hsrc; lia).
  rewrite (bind_ok _ _ _ tt (l1 ++ c :: l2)) by (by rewrite (bind_ok _ _ _ _ _ (lift_ok _ _ _ Ei)), store_run).
  specialize (IH (l1 ++ [c]) l2). rewrite length_app, Nat.add_1_r, <-!app_assoc in IH. cbn [app] in IH.
  rewrite IH by (rewrite ?length_app; cbn; lia). done.
Qed.

(** Whatever the other side does, nothing outside the buffers is touched and the
    result is terminated at the length first seen. *)
Lemma reverse_safe dest : length dest = Z.to_nat n ->
  let len := strnlen src_at_start (Z.to_nat (n - 1)) in
  reverse_dataport_string dest
  = Ok (tt, map (fun i => read_from len (Z.of_nat i)) (seq 0 (Z.to_nat len)) ++ 0 :: drop (S (Z.to_nat len)) dest).
Proof using Hn Hsrc.
  intros Hd len. pose proof (strnlen_range src_at_start (Z.to_nat (n - 1))) as [Hr _]. fold len in Hr.
  unfold reverse_dataport_string. fold len.
  rewrite (bind_ok _ _ _ _ _ (copy_run len (Z.to_nat len) [] dest ltac:(lia) ltac:(cbn; lia) ltac:(lia))). cbn [app length].
  set (l := map _ _). assert (len = Z.of_nat (length l)) as El by (unfold l; rewrite length_map, length_seq; lia).
  destruct (drop (Z.to_nat len) dest) as [|a rest] eqn:Ed.
  - apply (f_equal (@length Z)) in Ed. rewrite length_drop in Ed. cbn in Ed. lia.
  - rewrite El at 1. rewrite store_run. do 4 f_equal.
    replace (S (Z.to_nat len)) with (Z.to_nat len + 1)%nat by lia. by rewrite <-drop_drop, Ed.
Qed.

End Reverse.

(** A source that is left alone is reversed, up to its terminator, and the
    result is a string of the same length. *)
Lemma reverse_correct n src dest : 1 <= n -> length src = Z.to_nat n -> length dest = Z.to_nat n ->
  let s := take (Z.to_nat (strnlen src (Z.to_nat (n - 1)))) src in
  reverse_dataport_string n src (fun _ => src) dest = Ok (tt, reverse s ++ 0 :: drop (S (length s)) dest) /\
  Forall (fun c => c <> 0) s.
Proof.
  intros Hn Hs Hd s. split; [|apply strnlen_nonzero].
  rewrite (reverse_safe n src (fun _ => src)) by done. set (len := strnlen src (Z.to_nat (n - 1))) in *.
  pose proof (strnlen_range src (Z.to_nat (n - 1))) as [Hr Hr']. fold len in Hr, Hr'.
  assert (length s = Z.to_nat len) as El by (unfold s; rewrite length_take; lia). rewrite El. do 3 f_equal.
  apply list_eq. intros i. rewrite list_lookup_fmap. destruct (decide (i < Z.to_nat len)%nat) as [Hi|Hi].
  - rewrite lookup_seq_lt by done. cbn. rewrite reverse_lookup by lia. rewrite El.
    unfold s. rewrite lookup_take_lt by lia. unfold read_from, arr.
    replace (Z.to_nat (len - Z.of_nat i - 1)) with (Z.to_nat len - S i)%nat by lia.
    destruct (lookup_lt_is_Some_2 src (Z.to_nat len - S i)) as [x Hx]; [lia|]. rewrite Hx. f_equal.
    by apply nth_lookup_Some.
  - rewrite lookup_seq_ge, lookup_ge_None_2 by (rewrite ?length_reverse; lia). done.
Qed.
